(* ===== verification/_CoqProject ===== *)
-Q . S2P
Prelude.v
Durations.v
Types.v
Store.v
MemStore.v
BoltStore.v
BoltSpec.v
Backoff.v
Paths.v
WorkQueue.v
Manager.v
Subnet.v
Auth.v
Ante.v
Convert.v
ProvisionLogs.v
World.v
NodeController.v
Supervisor.v
ProcessRuntime.v
DevnetController.v
ProvisionTypes.v
Trace.v
ProvisionEnv.v
NodeConfig.v
Forker.v
Orchestrator.v
OrchestratorSpec.v
Provisioner.v
ProvisionFlow.v
DevnetService.v
DevnetServiceSpec.v
NodeService.v
UpgradeController.v
UpgradeService.v
TxController.v
HealthController.v
UpgradeState.v
UpgradeRepo.v
GovABI.v
UpgradeSteps.v
UpgradeWaits.v
ResumableUpgrade.v
UpgradeRuns.v
Resume.v
PortAllocator.v
Docker.v
DockerManager.v
DockerNetwork.v
DockerDeploy.v
DockerDeploySpec.v
LogBuffer.v
LogParser.v
LogStore.v
LogStoreSpec.v
NodeRPC.v
UpgradeRuntime.v
CosmosRPC.v
UpgradeHeight.v
YamlConfig.v
YamlValidator.v
YamlConvert.v
DvbProvision.v
DvbProvisionSpec.v
ReconcilerDiff.v
DaemonConfig.v
DvbContext.v
BuildConfig.v
BinaryCache.v
BinaryCacheSpec.v
KeyCommands.v
