(* ===== verification/Prelude.v ===== *)
(** * Verification of devnet-builder

    devnet-builder runs blockchain development networks.  Its daemon keeps four
    kinds of resources (devnets, nodes, upgrades, transactions) in a store and
    drives each of them to its desired state with a controller; a manager gives
    controllers keys from work queues.  Around the controllers are the gRPC
    services, a provisioner that builds and initialises a chain, a runtime that
    supervises processes, and the clients.  An older single-process command keeps
    its own upgrades and Docker deployments.  This library models the daemon's
    core and services, and of the older command its resumable upgrades and its
    Docker deployments.

    ** How the parts interact

    A command turns flags or a document into a request ([DvbProvision],
    [YamlConvert]).  A service authenticates and validates it, changes the store
    and enqueues the key of the resource ([DevnetService], [NodeService],
    [UpgradeService]).  A worker takes the key, calls the controller's
    [Reconcile], and puts the key back if that returns an error.  [Reconcile]
    reads the resource, calls the outside (a node runtime, a chain, a
    provisioner, a health checker), and stores the resource in its next phase.
    The provisioner allocates a subnet, lets the orchestrator build, fork a
    genesis and initialise the nodes, and creates the node resources, which the
    node controller starts on the process runtime.  The health controller sweeps
    running devnets, restarts crashed nodes through the node controller's queue
    and writes conditions and phase of devnets.

    ** Files

    Shared:
    - [Prelude]: this file.  Go errors and fallible results, 64-bit integers,
      strings and [strconv], record update, the state monad [M] and its loops,
      the iteration order of Go maps ([MapRange]).
    - [Durations], [Paths], [Backoff]: what the code uses of [time.Duration], of
      [path/filepath], and the exponential backoff in binary64 of two components.
    - [Trace]: operations that call outside, with the calls kept in order, errors,
      panics and spent fuel as outcomes; used from [ProvisionEnv] on.

    Resources and stores ([internal/daemon/types], [store]):
    - [Types]: [types/*.go].  A record per struct, field by field; conditions
      and the event ring.
    - [Store]: [store/interface.go], [store/errors.go].  The class [Store] is the
      Go interface; [StoreSpec] is what an implementation promises (four maps,
      what a read, an update and a list do to them, an invariant); [StoreLive]
      adds that an update with the stored generation succeeds.  The controllers
      and services are proved against these classes.
    - [MemStore]: [store/memory.go], with [MemoryStore_spec], [MemoryStore_live].
    - [BoltStore], [BoltSpec]: [store/bolt*.go].  Keys, records and transactions
      over the interfaces [KV] (a bbolt bucket) and [Codec] (encoding/json), with
      their laws and a concrete instance [Bucket]; [BoltStore_spec] and
      [MapKV_live] discharge the same classes.

    Controllers ([internal/daemon/controller]):
    - [WorkQueue]: [queue.go].  The mutex makes a method one step; the condition
      variable is a number of sleeping and of woken goroutines.
    - [Manager]: [manager.go].  Workers as a step relation ([run_step] for a
      worker, [pool_step] with callers): any worker may step at any time.
    - [ProvisionLogs]: [provision_logs.go].
    - [World]: what every [Reconcile] works on, the store, the clock, the trace of
      outside calls with their answers, the keys enqueued.
    - [NodeController], [DevnetController], [UpgradeController], [TxController],
      [HealthController]: a definition per method, in the order of the source;
      long methods are cut at their last steps ([started], [pending_rest], ...).
      [TxController] also holds two requests of [server/transaction_service.go].

    What the controllers call:
    - [Supervisor], [ProcessRuntime]: [runtime/{supervisor,process}.go], a
      goroutine per process as a state machine, and the map of supervisors.
    - [NodeRPC], [UpgradeRuntime]: [checker/rpc.go], [upgrader/runtime.go], the
      health checker and the upgrade runtime the server wires in.
    - [Subnet]: [subnet/allocator.go].
    - [ProvisionTypes], [ProvisionEnv], [NodeConfig], [Forker], [Orchestrator],
      [OrchestratorSpec], [Provisioner], [ProvisionFlow]: [provisioner/*.go] and
      the configuration editors of [infrastructure/nodeconfig/config.go], from a
      devnet to initialised nodes.

    Services and clients:
    - [Auth], [Ante], [Convert]: [internal/auth], [server/ante],
      [server/convert.go]; [KeyCommands]: [cmd/devnetd/keys.go] and what the daemon
      loads of the keys.
    - [DevnetService], [DevnetServiceSpec], [NodeService], [UpgradeService]:
      [server/{devnet,node,upgrade}_service.go].
    - [YamlConfig], [YamlValidator], [YamlConvert]: [internal/config/yaml_*.go].
    - [DvbProvision], [DvbProvisionSpec]: [cmd/dvb/provision.go] with
      [internal/client/grpc.go].
    - [DaemonConfig], [DvbContext]: [internal/daemon/config] with
      [cmd/devnetd/main.go]; [internal/dvbcontext].
    - [ReconcilerDiff]: [reconciler/{diff,types}.go].
    - [BuildConfig], [BinaryCache], [BinaryCacheSpec]: [pkg/network/build_config.go],
      [infrastructure/cache] and [application/binary/import_custom_binary.go].
    - [LogBuffer], [LogParser], [LogStore], [LogStoreSpec]: [internal/daemon/logs].

    The older command's upgrades and deployments:
    - [UpgradeState], [UpgradeRepo]: the state of a resumable upgrade and its file.
    - [GovABI], [UpgradeSteps], [UpgradeWaits]: [application/upgrade/{propose,
      vote,switch,execute}.go].
    - [ResumableUpgrade], [UpgradeRuns], [Resume]: [resumable_execute.go],
      [resume.go], [state_detector.go].
    - [CosmosRPC], [UpgradeHeight]: [infrastructure/rpc/cosmos_client.go] and what
      the proposal asks of it.
    - [PortAllocator], [Docker], [DockerManager], [DockerNetwork], [DockerDeploy],
      [DockerDeploySpec]: [infrastructure/docker], [infrastructure/node/docker.go].

    ** State and operations

    A Go method on shared state is a function from that state; an error return is
    [option error], a value with an error is [result]; a Go [int] or [int64] that
    arithmetic may overflow is wrapped with [wrap64].  An outside interface is a
    record of functions of the calls made so far, so a theorem over all of them
    covers an environment that answers differently each time.  The clock is any
    stream of instants.  Where the code shares an object, the model does: the
    devnet given to the provisioner and its callback ([DState]), the slice of
    conditions and pointers into it ([Conds]), the subscribers' channels
    ([LogState]).

    ** What is shown

    - Stores: the in-memory store refines a map keyed by namespace and name
      ([MemoryStore_devnets_refine]); every outcome of the bolt store's update,
      and that a stale generation never overwrites ([UpdateDevnet_outcomes],
      [UpdateDevnet_no_lost_update]); listing and cascading deletion, with the
      prefix clash of names that hold a slash; key and create/get round trips.
      The log store answers like a scan of all entries ([Query_is_full_scan]).
    - Queue and manager: an item added is not lost and not handed out twice; a
      pending item always has a worker that is not asleep for good; shutdown stops
      every worker in a bounded number of steps; and how [processItem] breaks the
      exclusion after an error.
    - Controllers: each [Reconcile] refines a phase machine whose steps name the
      outside answers that justify them ([upgrade_trans], [tx_trans]), for nodes and
      devnets exactly the calls and answers of that reconcile ([node_trans],
      [devnet_trans]), on any store with [StoreSpec] and any outside;
      on a [StoreLive] store and a cooperative outside, a bounded number of
      reconciles reaches the goal ([Reconcile_converges], [Reconcile_provisions],
      [Reconcile_completes], [Reconcile_confirms]).
    - Provisioning: the phases of the orchestrator, that all nodes get the same
      genesis, that it ends, that the nodes dial ports others listen on, and that
      the node resources are those of initialised nodes ([Execute_phases],
      [Execute_same_genesis], [Execute_terminates], [peers_dial_listeners],
      [provisioned_nodes_are_initialized]); from a request to the Running devnet
      ([created_devnet_is_provisioned], [devnet_comes_up]).
    - Processes and addresses: one process at a time and a bounded number of
      restarts, by the policy that is in force, which is not always the one asked for
      ([one_process_at_a_time], [restarts_are_bounded]); subnets and port ranges never
      overlap ([allocator_is_safe], [registry_loses_nothing]).
    - Upgrades: an interrupted upgrade goes on with the stage it was in, on the
      path of an uninterrupted one ([interrupted_upgrades_resume],
      [Execute_follows_its_path]); a resumption goes on from the stage that the
      chain's answers show ([Resume_continues_the_upgrade]); its file round-trips; its
      waits end; within stated ranges it comes after the vote exactly if the buffer
      asked for is not negative ([upgrade_is_after_the_vote]).
    - Docker: a deployment that fails undoes what succeeded of it, which a container
      that did not start is not, and one that succeeds keeps its nodes apart
      ([failed_deploy_undoes_what_succeeded], [deployed_containers_are_separate]).
    - Requests: a daemon admits exactly the keys that were in the file when it started
      ([daemon_admits_the_keys_of_its_start]); documents that pass validation are
      accepted and keep what the message carries; the plan of the reconciler is the
      difference of the two states ([plan_is_the_difference]); a daemon starts with a
      valid configuration or not at all.
    - Binaries: the hash in the cache's keys tells configurations apart up to the order
      of their lists, if there are no line ends in them; entries are loaded as they were
      stored, and a reference is activated only if an entry has it
      ([hash_text_identifies_build], [stored_entry_is_loaded], [SetActive_links]).
    - Defects: theorems that exhibit what the code does where it does not do what
      it means to ([failed_reconcile_breaks_exclusion], [silent_devnet_is_healthy],
      [submitted_transaction_is_not_reconciled], [nil_runtime_panics],
      [stale_pointer_keeps_Degraded], [restart_in_other_namespace_is_lost],
      [healthy_status_is_not_saved], [upgrade_outside_default_fails],
      [devnet_without_fork_is_never_provisioned], [zero_block_time_panics],
      [custom_import_panics]).

    ** Bounds and fuel

    Most loops are structural recursions on the list or count the Go loop runs
    over; what is not has fuel with a theorem that it is enough, or that spending
    it means the program still runs:
    - [Subnet.probe] tries the 254 subnets there are; [splitString] takes the
      length of the string and one more, [be_digits] the digits of its number;
    - the health check of [Orchestrator] polls until its deadline:
      [Execute_terminates] gives the fuel from the clock;
    - the waits of [UpgradeSteps] and of [CosmosRPC]: [upgrade_waits_end] and
      [WaitForBlock_ends] give the fuel from the clock and the poll interval;
      a wait without a deadline may be [Unfinished] for any fuel.
    [reconciles] takes the number of calls: three bring a node to its goal, the
    theorems for upgrades and transactions state theirs.  A measure bounds the
    steps of a pool of workers at shutdown.

    ** Not modelled

    Logging and progress output; cancellation of contexts except where the code
    looks at it between steps; slices and maps that a shallow copy of a resource
    shares with the store; another client's store calls during one [Reconcile]
    (the bolt store's generation check is what meets them); the ticker of the
    health loop; readers of provision logs; streaming of log files.  The Docker
    and systemd runtimes of the daemon, the builder, the genesis and
    node-initialisation services, the network service and the terminal UI run
    programs and move files with little state of their own; the remaining commands
    and use cases of the older command sit on these.  Generated code and examples
    stay outside. *)

From Stdlib Require Import Ascii.
From stdpp Require Import base tactics numbers list strings pretty sorting gmap.

(** ** Errors and fallible results *)

(** The [error] values the modelled packages build: the two sentinels and the
    three error structs of [internal/daemon/store/errors.go], a message made
    with [errors.New] or [fmt.Errorf] without [%w], and a wrapped error
    [fmt.Errorf("msg: %w", err)]. *)
Inductive error : Type :=
| ErrNotFound
| ErrAlreadyExists
| NotFoundError (Resource Name : string)
| ConflictError (Resource Name Message : string)
| AlreadyExistsError (Resource Name : string)
| Errorf (msg : string)
| Wrap (msg : string) (err : error).

#[export] Instance error_eq_dec : EqDecision error.
Proof. solve_decision. Defined.

(** A Go pair [(T, error)] whose first component is meaningful only when the
    error is nil. *)
Inductive result (A : Type) : Type :=
| Ok (a : A)
| Err (e : error).
Arguments Ok {A} a.
Arguments Err {A} e.

Create HintDb devnet.
Create Rewrite HintDb devnet.

Declare Scope devnet_scope.
Delimit Scope devnet_scope with devnet.
Open Scope devnet_scope.

Notation "'try' x ':=' c 'in' k" :=
  (match c with Ok x => k | Err e => Err e end)
  (at level 10, x name, c at level 100, k at level 200) : devnet_scope.

Definition result_map {A B} (f : A → B) (r : result A) : result B :=
  match r with Ok a => Ok (f a) | Err e => Err e end.

Definition ok_of {A} (r : result A) : option A :=
  match r with Ok a => Some a | Err _ => None end.

Lemma ok_of_Some {A} (r : result A) a : ok_of r = Some a ↔ r = Ok a.
Proof. destruct r; simpl; split; congruence. Qed.

(** Decoding every element of a list, stopping at the first error. *)
Fixpoint result_list {A B} (f : A → result B) (l : list A) : result (list B) :=
  match l with
  | [] => Ok []
  | x :: l => try y := f x in try ys := result_list f l in Ok (y :: ys)
  end.

Lemma result_list_ok {A B} (f : A → result B) (g : A → B) l :
  (∀ x, x ∈ l → f x = Ok (g x)) → result_list f l = Ok (g <$> l).
Proof.
  induction l as [|x l IH]; intros Hf; simpl; [done|].
  rewrite (Hf x), IH; [done| |]; set_solver.
Qed.

Lemma result_list_elem {A B} (f : A → result B) l l' :
  result_list f l = Ok l' → ∀ y, y ∈ l' ↔ ∃ x, x ∈ l ∧ f x = Ok y.
Proof.
  revert l'; induction l as [|x l IH]; simpl; intros l' Hl y.
  - injection Hl as <-. set_solver.
  - destruct (f x) as [z|] eqn:Hx; [|done].
    destruct (result_list f l) as [ys|]; [|done]. injection Hl as <-.
    rewrite elem_of_cons, (IH ys eq_refl). split.
    + intros [->|(x' & ? & ?)]; [exists x|exists x']; set_solver.
    + intros (x' & [->|?]%elem_of_cons & ?); [left; congruence|right; eauto].
Qed.

Lemma result_list_fmap {A B C} (f : A → result B) (g : B → C) (h : A → C) l l' :
  (∀ x y, x ∈ l → f x = Ok y → g y = h x) → result_list f l = Ok l' → g <$> l' = h <$> l.
Proof.
  revert l'; induction l as [|x l IH]; simpl; intros l' Hf Hl.
  - by injection Hl as <-.
  - destruct (f x) as [z|] eqn:Hx; [|done].
    destruct (result_list f l) as [ys|]; [|done]. injection Hl as <-. simpl. f_equal.
    + apply Hf; [by left|done].
    + apply IH; [|done]. intros x' y Hin. apply Hf. by right.
Qed.

Lemma NoDup_fmap_filter {A B} (P : A → Prop) `{∀ x, Decision (P x)} (f : A → B) l :
  NoDup (f <$> l) → NoDup (f <$> filter P l).
Proof.
  induction l as [|x l IH]; [done|]. rewrite fmap_cons, filter_cons, NoDup_cons.
  intros [Hx Hl]. destruct (decide (P x)); [|by apply IH]. rewrite fmap_cons, NoDup_cons.
  split; [|by apply IH]. intros (y & Ey & [_ Hy]%list_elem_of_filter)%list_elem_of_fmap.
  apply Hx. apply list_elem_of_fmap. eauto.
Qed.

(** ** encoding/json *)

(** Marshalling an [R] to a [V] and back.  What JSON loses is not asked for:
    the law is the round trip of a value that was encoded. *)
Class Codec (V R : Type) := {
  encode : R → result V;
  decode : V → result R
}.

Class CodecLaws (V R : Type) `{Codec V R} :=
  decode_encode : ∀ (r : R) (v : V), encode r = Ok v → decode v = Ok r.

(** ** Machine integers *)

(** [wrap64 z] is the int64 (or 64-bit [int]) value of [z]. *)
Definition wrap64 (z : Z) : Z := ((z + 2^63) `mod` 2^64 - 2^63)%Z.

Definition int64_range (z : Z) : Prop := (- 2^63 ≤ z < 2^63)%Z.

#[export] Instance int64_range_dec z : Decision (int64_range z).
Proof. unfold int64_range. apply _. Defined.

Lemma wrap64_id z : int64_range z → wrap64 z = z.
Proof. unfold wrap64, int64_range. intros. rewrite Z.mod_small; lia. Qed.

(** [int32(z)], and a conversion to a type of [n] bits without sign. *)
Definition wrap32 (z : Z) : Z := ((z + 2^31) `mod` 2^32 - 2^31)%Z.
Definition int32_range (z : Z) : Prop := (- 2^31 ≤ z < 2^31)%Z.

#[export] Instance int32_range_dec z : Decision (int32_range z).
Proof. unfold int32_range. apply _. Defined.

Lemma wrap32_id z : int32_range z → wrap32 z = z.
Proof. unfold wrap32, int32_range. intros. rewrite Z.mod_small; lia. Qed.

Definition unsigned (n z : Z) : Z := (z `mod` 2^n)%Z.

Lemma unsigned_id n z : (0 ≤ z < 2^n)%Z → unsigned n z = z.
Proof. unfold unsigned. intros. by rewrite Z.mod_small. Qed.

Lemma wrap64_in_range z : int64_range (wrap64 z).
Proof.
  unfold wrap64, int64_range.
  pose proof (Z.mod_pos_bound (z + 2^63) (2^64) ltac:(lia)). lia.
Qed.

Lemma wrap64_succ_ne z : int64_range z → wrap64 (z + 1) ≠ z.
Proof.
  intros Hz. destruct (decide (z + 1 < 2^63)%Z) as [Hlt|Hge].
  - rewrite wrap64_id; unfold int64_range in *; lia.
  - unfold int64_range in *. replace z with (2^63 - 1)%Z by lia.
    vm_compute. done.
Qed.

(** ** Go strings *)

Definition slash : ascii := "/"%char.

(** [fmt.Sprintf("%d", z)]. *)
Definition itoa (z : Z) : string := pretty z.

(** [s] contains the byte [c]. *)
Fixpoint has_char (c : ascii) (s : string) : bool :=
  match s with
  | EmptyString => false
  | String c' s => bool_decide (c' = c) || has_char c s
  end.

(** [strings.HasPrefix(s, p)] and [bytes.HasPrefix]. *)
Fixpoint has_prefix (p s : string) : bool :=
  match p, s with
  | EmptyString, _ => true
  | String c p, String c' s => bool_decide (c = c') && has_prefix p s
  | String _ _, EmptyString => false
  end.

(** [strings.Contains(s, sub)]. *)
Fixpoint contains (s sub : string) : bool :=
  has_prefix sub s ||
  match s with EmptyString => false | String _ s => contains s sub end.

Lemma contains_self s : contains s s = true.
Proof.
  assert (Hp : has_prefix s s = true)
    by (induction s as [|c s IH]; simpl; [done|]; by rewrite bool_decide_true).
  destruct s; simpl in *; by rewrite ?Hp.
Qed.

(** [strings.SplitN(s, c, 2)] for a one-byte separator. *)
Fixpoint split2 (c : ascii) (s : string) : list string :=
  match s with
  | EmptyString => [""]
  | String c' s =>
      if bool_decide (c' = c) then [""; s]
      else match split2 c s with
           | [a] => [String c' a]
           | a :: rest => String c' a :: rest
           | [] => []
           end
  end.

(** [strings.Split(s, c)] for a one-byte separator. *)
Fixpoint split_on (c : ascii) (s : string) : list string :=
  match s with
  | EmptyString => [""]
  | String c' s =>
      if bool_decide (c' = c) then "" :: split_on c s
      else match split_on c s with
           | a :: rest => String c' a :: rest
           | [] => []
           end
  end.

(** The digit loop of [strconv.Atoi]: every byte must be a decimal digit. *)
Fixpoint parse_digits (s : string) (acc : N) : option N :=
  match s with
  | EmptyString => Some acc
  | String c s =>
      let d := N_of_ascii c in
      if (bool_decide (48 ≤ d)%N && bool_decide (d ≤ 57)%N)
      then parse_digits s (acc * 10 + (d - 48))%N
      else None
  end.

Definition parse_unsigned (s : string) : option N :=
  match s with EmptyString => None | _ => parse_digits s 0 end.

(** A string behind a prefix, and the lower case of ASCII letters. *)
Fixpoint strip_prefix (p s : string) : option string :=
  match p, s with
  | EmptyString, _ => Some s
  | String c p, String c' s => if bool_decide (c = c') then strip_prefix p s else None
  | String _ _, EmptyString => None
  end.

Definition lower_char (c : ascii) : ascii :=
  let n := N_of_ascii c in
  if bool_decide (65 ≤ n)%N && bool_decide (n ≤ 90)%N then ascii_of_N (n + 32) else c.

Fixpoint to_lower (s : string) : string :=
  match s with
  | EmptyString => EmptyString
  | String c s => String (lower_char c) (to_lower s)
  end.

(** The double quote and backslash characters. *)
Definition dquote : ascii := ascii_of_nat 34.
Definition backslash : ascii := ascii_of_nat 92.

Definition hex_digit (n : N) : ascii :=
  ascii_of_N (if bool_decide (n < 10)%N then 48 + n else 87 + n)%N.

(** One byte of [strconv.Quote]: the C escapes, [\xNN] for the other control
    bytes; a byte of a printable rune stands for itself. *)
Definition quote_char (c : ascii) (rest : string) : string :=
  let n := N_of_ascii c in
  let esc (l : ascii) := String backslash (String l rest) in
  if bool_decide (c = dquote) then esc dquote
  else if bool_decide (c = backslash) then esc backslash
  else if bool_decide (n = 7)%N then esc "a"%char
  else if bool_decide (n = 8)%N then esc "b"%char
  else if bool_decide (n = 9)%N then esc "t"%char
  else if bool_decide (n = 10)%N then esc "n"%char
  else if bool_decide (n = 11)%N then esc "v"%char
  else if bool_decide (n = 12)%N then esc "f"%char
  else if bool_decide (n = 13)%N then esc "r"%char
  else if bool_decide (n < 32)%N || bool_decide (n = 127)%N then
    String backslash (String "x"%char
      (String (hex_digit (n / 16)) (String (hex_digit (n `mod` 16)) rest)))
  else String c rest.

Fixpoint quote_body (s : string) : string :=
  match s with
  | EmptyString => String dquote EmptyString
  | String c s => quote_char c (quote_body s)
  end.

(** [fmt.Sprintf("%q", s)] for a string of printable runes and ASCII control
    bytes. *)
Definition quote (s : string) : string := String dquote (quote_body s).

(** [strconv.Atoi]: an optional sign, at least one digit, nothing else, and a
    value that fits a 64-bit [int]. *)
Definition atoi (s : string) : result Z :=
  let num :=
    match s with
    | EmptyString => None
    | String c t =>
        if bool_decide (c = "-"%char) then (λ n, (- Z.of_N n)%Z) <$> parse_unsigned t
        else if bool_decide (c = "+"%char) then Z.of_N <$> parse_unsigned t
        else Z.of_N <$> parse_unsigned s
    end in
  match num with
  | None => Err (Errorf ("strconv.Atoi: parsing " +:+ quote s +:+ ": invalid syntax"))
  | Some z =>
      if bool_decide (int64_range z) then Ok z
      else Err (Errorf ("strconv.Atoi: parsing " +:+ quote s +:+ ": value out of range"))
  end.

(** *** Lemmas on strings *)

Lemma length_append s t :
  Strings.String.length (s +:+ t) = Strings.String.length s + Strings.String.length t.
Proof. induction s as [|c s IH]; simpl; [done|]. by rewrite IH. Qed.

Lemma substring_all s : Strings.String.substring 0 (Strings.String.length s) s = s.
Proof. induction s as [|c s IH]; simpl; [done|]. by rewrite IH. Qed.

Lemma has_char_app c s t : has_char c (s +:+ t) = has_char c s || has_char c t.
Proof. induction s as [|a s IH]; simpl; [done|]. by rewrite IH, orb_assoc. Qed.

Lemma split2_app c s t :
  has_char c s = false → split2 c (s +:+ String c t) = [s; t].
Proof.
  induction s as [|a s IH]; simpl; intros Hs.
  - by rewrite bool_decide_true.
  - apply orb_false_iff in Hs as [Ha Hs]. rewrite Ha, (IH Hs). done.
Qed.

Lemma split2_none c s : has_char c s = false → split2 c s = [s].
Proof.
  induction s as [|a s IH]; simpl; intros Hs; [done|].
  apply orb_false_iff in Hs as [-> Hs]. by rewrite IH.
Qed.

Lemma split_on_none c s : has_char c s = false → split_on c s = [s].
Proof.
  induction s as [|a s IH]; simpl; intros Hs; [done|].
  apply orb_false_iff in Hs as [-> Hs]. by rewrite IH.
Qed.

Lemma split_on_app c s t :
  has_char c s = false → split_on c (s +:+ String c t) = s :: split_on c t.
Proof.
  induction s as [|a s IH]; simpl; intros Hs.
  - by rewrite bool_decide_true.
  - apply orb_false_iff in Hs as [-> Hs]. by rewrite IH.
Qed.

(** A separator-free first part makes the joined key injective. *)
Lemma sep_inj c s1 t1 s2 t2 :
  has_char c s1 = false → has_char c s2 = false →
  s1 +:+ String c t1 = s2 +:+ String c t2 → s1 = s2 ∧ t1 = t2.
Proof.
  intros H1 H2 E. apply (f_equal (split2 c)) in E.
  rewrite !split2_app in E by done. by simplify_eq.
Qed.

#[export] Instance append_assoc : Assoc (=) String.append.
Proof. intros a b c. induction a as [|x a IH]; [done|]. exact (f_equal (String x) IH). Qed.

Lemma append_nil_r s : s +:+ "" = s.
Proof. induction s as [|x s IH]; [done|]. exact (f_equal (String x) IH). Qed.

Lemma append_inj s t1 t2 : s +:+ t1 = s +:+ t2 → t1 = t2.
Proof. induction s as [|x s IH]; [done|]. intros [= E]. apply IH, E. Qed.

Lemma has_prefix_app p s : has_prefix p (p +:+ s) = true.
Proof. induction p as [|c p IH]; simpl; [done|]. by rewrite bool_decide_true, IH. Qed.

Lemma has_prefix_spec p s : has_prefix p s = true ↔ ∃ t, s = p +:+ t.
Proof.
  split; [|intros [t ->]; apply has_prefix_app].
  revert s; induction p as [|c p IH]; intros [|c' s]; simpl; try done.
  - by exists EmptyString.
  - by eexists.
  - intros [->%bool_decide_eq_true Hp]%andb_true_iff.
    apply IH in Hp as [t ->]. by exists t.
Qed.

(** *** Decimal numbers *)

Lemma digit_char d :
  (d < 10)%N → N_of_ascii (pretty_N_char d) = (48 + d)%N.
Proof.
  intros Hd. assert (d = 0 ∨ d = 1 ∨ d = 2 ∨ d = 3 ∨ d = 4 ∨ d = 5 ∨ d = 6
    ∨ d = 7 ∨ d = 8 ∨ d = 9)%N as Hc by lia.
  by destruct_or! Hc; subst.
Qed.

Lemma parse_digits_pretty x s :
  parse_digits (pretty_N_go x s) 0 = parse_digits s x.
Proof.
  revert s; induction (N.lt_wf_0 x) as [x _ IH]; intros s.
  destruct (decide (x = 0)%N) as [->|Hx]; [done|].
  rewrite pretty_N_go_step by lia. rewrite IH by (apply N.div_lt; lia). cbn [parse_digits].
  pose proof (N.mod_lt x 10 ltac:(lia)) as Hm.
  pose proof (N.div_mod x 10 ltac:(lia)) as Hdm.
  rewrite digit_char by done. clear IH. revert Hm Hdm.
  generalize (x `mod` 10)%N (x `div` 10)%N. intros m d Hm Hdm.
  rewrite !bool_decide_true by lia. simpl. f_equal. lia.
Qed.

Lemma has_char_pretty c x s :
  (N_of_ascii c < 48 ∨ 57 < N_of_ascii c)%N →
  has_char c (pretty_N_go x s) = has_char c s.
Proof.
  intros Hc. revert s; induction (N.lt_wf_0 x) as [x _ IH]; intros s.
  destruct (decide (x = 0)%N) as [->|Hx]; [done|].
  rewrite pretty_N_go_step by lia. rewrite IH by (apply N.div_lt; lia). simpl.
  pose proof (N.mod_lt x 10 ltac:(lia)) as Hm.
  rewrite bool_decide_false; [done|]. intros <-. rewrite digit_char in Hc by done.
  revert Hm Hc. generalize (x `mod` 10)%N. lia.
Qed.

Lemma has_char_pretty_N c (n : N) :
  (N_of_ascii c < 48 ∨ 57 < N_of_ascii c)%N → has_char c (pretty n) = false.
Proof.
  intros Hc. unfold pretty, pretty_N. case_decide as Hn; [|by rewrite has_char_pretty].
  simpl. rewrite bool_decide_false; [done|]. intros <-. simpl in Hc. lia.
Qed.

Lemma pretty_N_parse n :
  ∃ c t, pretty n = String c t ∧ parse_unsigned (String c t) = Some n ∧
    c ≠ "-"%char ∧ c ≠ "+"%char.
Proof.
  assert (Hp : parse_digits (pretty n) 0 = Some n).
  { unfold pretty, pretty_N. case_decide as Hn; [by subst|].
    by rewrite parse_digits_pretty. }
  pose proof (λ c, has_char_pretty_N c n) as Hc.
  destruct (pretty n) as [|c t] eqn:E.
  - simpl in Hp. simplify_eq.
  - exists c, t. split_and!; [done|done|intros ->..].
    + specialize (Hc "-"%char ltac:(vm_compute; auto)). done.
    + specialize (Hc "+"%char ltac:(vm_compute; auto)). done.
Qed.

(** Formatting an [int] with [%d] and parsing it with [strconv.Atoi]. *)
Lemma atoi_itoa z : int64_range z → atoi (itoa z) = Ok z.
Proof.
  intros Hz. unfold itoa, atoi, pretty, pretty_Z.
  destruct z as [|p|p].
  - by vm_compute.
  - destruct (pretty_N_parse (Npos p)) as (c & t & E & Hp & H1 & H2).
    change (pretty p) with (pretty (Npos p)). rewrite E.
    rewrite !bool_decide_false by done. rewrite Hp. simpl. by rewrite bool_decide_true.
  - destruct (pretty_N_parse (Npos p)) as (c & t & E & Hp & H1 & H2).
    change (pretty p) with (pretty (Npos p)). rewrite E. simpl.
    simpl in Hp. rewrite Hp. simpl. by rewrite bool_decide_true.
Qed.

Lemma has_char_itoa c z :
  (N_of_ascii c < 48 ∨ 57 < N_of_ascii c)%N → c ≠ "-"%char →
  has_char c (itoa z) = false.
Proof.
  intros Hc Hd. pose proof (λ n, has_char_pretty_N c n Hc) as Hn.
  destruct z as [|p|p]; [exact (Hn 0%N)|exact (Hn (Npos p))|].
  unfold itoa, pretty, pretty_Z. simpl.
  rewrite bool_decide_false by done. exact (Hn (Npos p)).
Qed.

Lemma slash_itoa z : has_char slash (itoa z) = false.
Proof. apply has_char_itoa; [vm_compute; auto|done]. Qed.

(** Nothing in the development reasons by unfolding decimal formatting. *)
#[global] Opaque itoa.

(** ** Functional record update *)

(** [Settable T] gives the eta expansion of the record [T]; [r <| f := v |>]
    then replaces one field, [r <| f; g := v |>] a field of a field. *)
Class Settable (T : Type) := mkSettable { eta_of : T → T }.
Class Setter {R E : Type} (proj : R → E) := set : (E → E) → R → R.
Arguments mkSettable {T} eta_of.
Arguments set {R E} proj {Setter} f r.

Ltac solve_setter :=
  lazymatch goal with
  | |- @Setter ?R ?E ?proj =>
      let inst := constr:(_ : Settable R) in
      lazymatch eval hnf in inst with
      | mkSettable ?eta =>
          let f := fresh "f" in let r := fresh "r" in
          unfold Setter; intros f r;
          let body := eval cbv beta in (eta r) in
          lazymatch body with
          | context [proj r] =>
              lazymatch eval pattern (proj r) in body with
              | ?g _ => let t := eval cbv beta in (g (f (proj r))) in exact t
              end
          end
      end
  end.
#[export] Hint Extern 1 (Setter _) => solve_setter : typeclass_instances.

Notation "r <| f := v |>" := (set f (λ _, v) r)
  (at level 12, left associativity, f constr at level 10, v constr at level 99)
  : devnet_scope.
Notation "r <| f ; g := v |>" := (set f (set g (λ _, v)) r)
  (at level 12, left associativity, f constr at level 10, g constr at level 10,
   v constr at level 99) : devnet_scope.

(** ** Time *)

(** [time.Time] and [time.Duration] in nanoseconds; the zero [time.Time] is
    the instant 0. *)
Abbreviation Time := Z (only parsing).
Abbreviation Duration := Z (only parsing).

Definition IsZero (t : Time) : bool := bool_decide (t = 0%Z).
Definition second : Duration := (10^9)%Z.
Definition minute : Duration := (60 * second)%Z.

(** ** State passing *)

(** A handler threads the world [W] it may change and returns a value. *)
Definition M (W A : Type) : Type := W → A * W.

Definition done_with {W A} (a : A) : M W A := λ w, (a, w).
Definition bindM {W A B} (m : M W A) (k : A → M W B) : M W B :=
  λ w, let '(a, w') := m w in k a w'.
Definition getM {W A} (f : W → A) : M W A := λ w, (f w, w).
Definition modifyM {W} (f : W → W) : M W unit := λ w, (tt, f w).

Notation "'do!' x := m 'in' k" := (bindM m (λ x, k))
  (at level 10, x name, m at level 100, k at level 200) : devnet_scope.
Notation "'do!' ' p := m 'in' k" := (bindM m (λ x, match x with p => k end))
  (at level 10, p pattern, m at level 100, k at level 200) : devnet_scope.
Notation "'run!' m 'in' k" := (bindM m (λ _, k))
  (at level 10, m at level 100, k at level 200) : devnet_scope.

Lemma bindM_eq {W A B} (m : M W A) (k : A → M W B) w :
  bindM m k w = k (m w).1 (m w).2.
Proof. unfold bindM. by destruct (m w). Qed.

(** Run [body i] for [i = 0 .. n-1], stopping at the first [Some]. *)
Fixpoint forM {W R} (n : nat) (i : Z) (body : Z → M W (option R)) : M W (option R) :=
  match n with
  | O => done_with None
  | S n => do! r := body i in
           match r with
           | Some r => done_with (Some r)
           | None => forM n (i + 1)%Z body
           end
  end.

(** A loop establishes [Q] when it returns early and keeps [I] otherwise. *)
Lemma forM_inv {W R} (I : Z → W → Prop) (Q : R → W → Prop) n i (body : Z → M W (option R)) w :
  (∀ j w, (i ≤ j < i + Z.of_nat n)%Z → I j w →
     match body j w with (Some r, w') => Q r w' | (None, w') => I (j + 1)%Z w' end) →
  I i w →
  match forM n i body w with
  | (Some r, w') => Q r w'
  | (None, w') => I (i + Z.of_nat n)%Z w'
  end.
Proof.
  revert i w; induction n as [|n IH]; intros i w Hb Hi; simpl.
  - by rewrite Z.add_0_r.
  - unfold bindM. pose proof (Hb i w ltac:(lia) Hi) as Hi'.
    destruct (body i w) as [[r|] w']; [done|].
    specialize (IH (i + 1)%Z w'). replace (i + 1 + Z.of_nat n)%Z
      with (i + Z.of_nat (S n))%Z in IH by lia.
    apply IH; [|done]. intros j w0 Hj. apply Hb. lia.
Qed.

(** Run [body] on every element of a list, for its effects. *)
Fixpoint eachM {W A} (l : list A) (body : A → M W unit) : M W unit :=
  match l with
  | [] => done_with tt
  | x :: l => run! body x in eachM l body
  end.

(** ** Maps and sorting *)

(** [for k, v := range m] visits every entry of a Go map once, in an order the
    language leaves open. *)
Class MapRange := {
  range : ∀ {K : Type} `{Countable K} {V : Type}, gmap K V → list (K * V);
  range_perm : ∀ {K : Type} `{Countable K} {V : Type} (m : gmap K V),
    range m ≡ₚ map_to_list m
}.

(** One possible order. *)
Definition some_order : MapRange :=
  {| range := λ K _ _ V m, map_to_list m; range_perm := λ K _ _ V m, reflexivity _ |}.

Lemma elem_of_range `{MapRange} `{Countable K} {V} (m : gmap K V) k v :
  (k, v) ∈ range m ↔ m !! k = Some v.
Proof. by rewrite range_perm, elem_of_map_to_list. Qed.

Lemma elem_of_range_values `{MapRange} `{Countable K} {V} (m : gmap K V) v :
  v ∈ (range m).*2 ↔ ∃ k, m !! k = Some v.
Proof.
  rewrite list_elem_of_fmap. split.
  - intros ([k v'] & -> & Hin). exists k. by apply elem_of_range.
  - intros [k Hk]. exists (k, v). by rewrite elem_of_range.
Qed.

(** Filling a map in a loop over entries with distinct keys. *)
Lemma fold_insert `{Countable K} {V} (l : list (K * V)) (m : gmap K V) :
  NoDup l.*1 → foldl (λ m '(k, v), <[k := v]> m) m l = list_to_map l ∪ m.
Proof.
  revert m; induction l as [|[k v] l IH]; intros m Hn; simpl; [by rewrite map_empty_union|].
  apply NoDup_cons in Hn as [Hk Hn]. rewrite IH by done.
  rewrite <- insert_union_l. by rewrite insert_union_r by by apply not_elem_of_list_to_map_1.
Qed.

(** ... over all entries of a map, in any order. *)
Lemma fold_insert_range `{MapRange} `{Countable K} {V} (m : gmap K V) :
  foldl (λ m '(k, v), <[k := v]> m) ∅ (range m) = m.
Proof.
  assert (Hn : NoDup (range m).*1) by (rewrite range_perm; apply NoDup_fst_map_to_list).
  rewrite fold_insert by done. rewrite (right_id_L ∅ (∪)).
  rewrite <- (list_to_map_to_list m) at 2. by apply list_to_map_proper, range_perm.
Qed.

Lemma foldl_fmap {A B C} (f : C → B → C) (g : A → B) (l : list A) (c : C) :
  foldl f c (g <$> l) = foldl (λ c x, f c (g x)) c l.
Proof. revert c; induction l; simpl; auto. Qed.

(** [sort.Strings]. *)
Definition sort_strings (l : list string) : list string := merge_sort String.le l.
