(* ===== verification/Durations.v ===== *)
(** * Durations

    What the components use of Go's [time.Duration]: the difference of two instants and
    the text of a duration. *)

From Stdlib Require Import Ascii.
From stdpp Require Import base tactics numbers list strings.
From S2P Require Import Prelude.

(** [t.Sub(u)] saturates. *)
Definition sub_time (t u : Time) : Duration :=
  Z.max (- 2^63) (Z.min (2^63 - 1) (t - u)).

(** ** Durations as text *)

Fixpoint drop_zeros (s : string) : string :=
  match s with
  | EmptyString => ""
  | String c rest =>
      let rest := drop_zeros rest in
      if bool_decide (c = "0"%char) && bool_decide (rest = "") then "" else String c rest
  end.

(** [n] with [width] digits at least. *)
Definition pad_zeros (width : nat) (n : Z) : string :=
  let s := itoa n in
  String.concat "" (replicate (width - String.length s) "0") +:+ s.

(** [v] with [prec] digits behind the point, without the zeros at the end. *)
Definition decimal (prec : nat) (v : Z) : string :=
  let scale := (10 ^ Z.of_nat prec)%Z in
  let frac := drop_zeros (pad_zeros prec (v `mod` scale)) in
  (itoa (v `div` scale)) +:+ (if bool_decide (frac = "") then "" else "." +:+ frac).

Definition micro_sign : string := String (ascii_of_nat 194) (String (ascii_of_nat 181) "").

(** [Duration.String]. *)
Definition duration_string (d : Duration) : string :=
  let u := Z.abs d in
  let sign := if bool_decide (d < 0)%Z then "-" else "" in
  if bool_decide (d = 0)%Z then "0s"
  else if bool_decide (u < 10 ^ 3)%Z then sign +:+ itoa u +:+ "ns"
  else if bool_decide (u < 10 ^ 6)%Z then sign +:+ decimal 3 u +:+ micro_sign +:+ "s"
  else if bool_decide (u < 10 ^ 9)%Z then sign +:+ decimal 6 u +:+ "ms"
  else
    let secs := (u `div` second)%Z in
    let rest := decimal 9 (u `mod` minute) +:+ "s" in
    if bool_decide (secs < 60)%Z then sign +:+ rest
    else if bool_decide (secs < 3600)%Z then sign +:+ itoa (secs `div` 60) +:+ "m" +:+ rest
    else sign +:+ itoa (secs `div` 3600) +:+ "h" +:+ itoa ((secs `div` 60) `mod` 60) +:+ "m" +:+ rest.

Example duration_string_30s : duration_string (30 * second) = "30s".
Proof. vm_compute. reflexivity. Qed.
Example duration_string_1h : duration_string (60 * minute + second / 2) = "1h0m0.5s".
Proof. vm_compute. reflexivity. Qed.
