(* ===== verification/Types.v ===== *)
(** * Resource types ([internal/daemon/types])

    The four resources the daemon persists (Devnet, Node, Upgrade,
    Transaction), their metadata, status conditions and events, with the
    operations of [condition.go], [event.go] and [meta.go].  Field names carry
    a prefix per record ([m_] metadata, [d_]/[ds_]/[dst_] devnet, and so on);
    phases are strings, as in the source, so an unknown phase is a value. *)

From Stdlib Require Import SpecFloat.
From stdpp Require Import base tactics numbers list strings gmap.
From S2P Require Import Prelude.

(** [meta.go]: the namespace used when none is given. *)
Definition DefaultNamespace : string := "default".

(** [devnet.go]: phases of a devnet. *)
Definition PhasePending : string := "Pending".
Definition PhaseProvisioning : string := "Provisioning".
Definition PhaseRunning : string := "Running".
Definition PhaseDegraded : string := "Degraded".
Definition PhaseStopped : string := "Stopped".

(** [node.go]: phases of a node. *)
Definition NodePhasePending : string := "Pending".
Definition NodePhaseStarting : string := "Starting".
Definition NodePhaseRunning : string := "Running".
Definition NodePhaseStopping : string := "Stopping".
Definition NodePhaseStopped : string := "Stopped".
Definition NodePhaseCrashed : string := "Crashed".

(** [upgrade.go]: phases of an upgrade. *)
Definition UpgradePhasePending : string := "Pending".
Definition UpgradePhaseProposing : string := "Proposing".
Definition UpgradePhaseVoting : string := "Voting".
Definition UpgradePhaseWaiting : string := "Waiting".
Definition UpgradePhaseSwitching : string := "Switching".
Definition UpgradePhaseVerifying : string := "Verifying".
Definition UpgradePhaseCompleted : string := "Completed".
Definition UpgradePhaseFailed : string := "Failed".

(** [transaction.go]: phases of a transaction. *)
Definition TxPhasePending : string := "Pending".
Definition TxPhaseBuilding : string := "Building".
Definition TxPhaseSigning : string := "Signing".
Definition TxPhaseSubmitted : string := "Submitted".
Definition TxPhaseConfirmed : string := "Confirmed".
Definition TxPhaseFailed : string := "Failed".

(** [health.go]: condition types. *)
Definition ConditionTypeReady : string := "Ready".
Definition ConditionTypeHealthy : string := "Healthy".
Definition ConditionTypeProgressing : string := "Progressing".
Definition ConditionTypePluginAvailable : string := "PluginAvailable".
Definition ConditionTypeNodesCreated : string := "NodesCreated".
Definition ConditionTypeNodesRunning : string := "NodesRunning".
Definition ConditionTypeDegraded : string := "Degraded".

(** [health.go]: condition status values. *)
Definition ConditionTrue : string := "True".
Definition ConditionFalse : string := "False".
Definition ConditionUnknown : string := "Unknown".

(** [health.go]: event types. *)
Definition EventTypeNormal : string := "Normal".
Definition EventTypeWarning : string := "Warning".

(** [health.go]: condition and event reasons. *)
Definition ReasonProvisioning : string := "Provisioning".
Definition ReasonCreatingNodes : string := "CreatingNodes".
Definition ReasonStartingNodes : string := "StartingNodes".
Definition ReasonWaitingForNodes : string := "WaitingForNodes".
Definition ReasonAllNodesReady : string := "AllNodesReady".
Definition ReasonNodesNotReady : string := "NodesNotReady".
Definition ReasonNodesCrashed : string := "NodesCrashed".
Definition ReasonHealthCheckFailed : string := "HealthCheckFailed".
Definition ReasonPluginFound : string := "PluginFound".
Definition ReasonPluginNotFound : string := "PluginNotFound".
Definition ReasonImageNotFound : string := "ImageNotFound".
Definition ReasonCredentialsNotFound : string := "CredentialsNotFound".
Definition ReasonModeNotSupported : string := "ModeNotSupported".
Definition ReasonBinaryNotFound : string := "BinaryNotFound".
Definition ReasonContainerFailed : string := "ContainerFailed".
Definition ReasonNetworkError : string := "NetworkError".
Definition ReasonBinaryBuilding : string := "BinaryBuilding".
Definition ReasonBinaryBuilt : string := "BinaryBuilt".
Definition ReasonGenesisFork : string := "GenesisFork".
Definition ReasonGenesisForked : string := "GenesisForked".
Definition ReasonNodesConfiguring : string := "NodesConfiguring".
Definition ReasonNodesConfigured : string := "NodesConfigured".
Definition ReasonNodeReady : string := "NodeReady".
Definition ReasonProvisionFailed : string := "ProvisioningFailed".

(** Metadata common to all resources ([meta.go]). *)
Record ResourceMeta := mkResourceMeta {
  m_Name : string;
  m_Namespace : string;
  m_Generation : Z;
  m_CreatedAt : Time;
  m_UpdatedAt : Time;
  m_Labels : gmap string string;
  m_Annotations : gmap string string
}.
#[export] Instance eta_ResourceMeta : Settable ResourceMeta := mkSettable (λ x,
  mkResourceMeta (m_Name x) (m_Namespace x) (m_Generation x) (m_CreatedAt x) (m_UpdatedAt
    x) (m_Labels x) (m_Annotations x)).

(** A status condition ([meta.go]). *)
Record Condition := mkCondition {
  c_Type : string;
  c_Status : string;
  c_LastTransitionTime : Time;
  c_Reason : string;
  c_Message : string
}.
#[export] Instance eta_Condition : Settable Condition := mkSettable (λ x,
  mkCondition (c_Type x) (c_Status x) (c_LastTransitionTime x) (c_Reason x) (c_Message x)).

(** A lifecycle event ([event.go]). *)
Record Event := mkEvent {
  e_Timestamp : Time;
  e_Type : string;
  e_Reason : string;
  e_Message : string;
  e_Component : string
}.
#[export] Instance eta_Event : Settable Event := mkSettable (λ x,
  mkEvent (e_Timestamp x) (e_Type x) (e_Reason x) (e_Message x) (e_Component x)).

(** Where a node binary comes from ([devnet.go]). *)
Record BinarySource := mkBinarySource {
  bs_Type : string;
  bs_Path : string;
  bs_Version : string;
  bs_URL : string;
  bs_Owner : string;
  bs_Repo : string
}.
#[export] Instance eta_BinarySource : Settable BinarySource := mkSettable (λ x,
  mkBinarySource (bs_Type x) (bs_Path x) (bs_Version x) (bs_URL x) (bs_Owner x) (bs_Repo
    x)).

(** Port bases ([devnet.go]). *)
Record PortConfig := mkPortConfig {
  pc_BaseRPC : Z;
  pc_BaseP2P : Z;
  pc_BaseGRPC : Z;
  pc_BaseAPI : Z
}.
#[export] Instance eta_PortConfig : Settable PortConfig := mkSettable (λ x,
  mkPortConfig (pc_BaseRPC x) (pc_BaseP2P x) (pc_BaseGRPC x) (pc_BaseAPI x)).

(** Container limits ([devnet.go]). *)
Record ResourceLimits := mkResourceLimits {
  rl_Memory : string;
  rl_CPUs : string
}.
#[export] Instance eta_ResourceLimits : Settable ResourceLimits := mkSettable (λ x,
  mkResourceLimits (rl_Memory x) (rl_CPUs x)).

(** An SDK version change made by an upgrade ([devnet.go]). *)
Record SDKVersionChange := mkSDKVersionChange {
  sv_FromVersion : string;
  sv_ToVersion : string;
  sv_Height : Z;
  sv_Timestamp : Time;
  sv_UpgradeRef : string
}.
#[export] Instance eta_SDKVersionChange : Settable SDKVersionChange := mkSettable (λ x,
  mkSDKVersionChange (sv_FromVersion x) (sv_ToVersion x) (sv_Height x) (sv_Timestamp x)
    (sv_UpgradeRef x)).

(** The desired state of a devnet ([devnet.go]). *)
Record DevnetSpec := mkDevnetSpec {
  ds_Plugin : string;
  ds_NetworkType : string;
  ds_Validators : Z;
  ds_FullNodes : Z;
  ds_Mode : string;
  ds_BinarySource : BinarySource;
  ds_SnapshotURL : string;
  ds_GenesisPath : string;
  ds_RPCURL : string;
  ds_ForkNetwork : string;
  ds_ChainID : string;
  ds_Ports : PortConfig;
  ds_Resources : ResourceLimits;
  ds_Options : gmap string string
}.
#[export] Instance eta_DevnetSpec : Settable DevnetSpec := mkSettable (λ x,
  mkDevnetSpec (ds_Plugin x) (ds_NetworkType x) (ds_Validators x) (ds_FullNodes x)
    (ds_Mode x) (ds_BinarySource x) (ds_SnapshotURL x) (ds_GenesisPath x) (ds_RPCURL x)
    (ds_ForkNetwork x) (ds_ChainID x) (ds_Ports x) (ds_Resources x) (ds_Options x)).

(** The observed state of a devnet ([devnet.go]). *)
Record DevnetStatus := mkDevnetStatus {
  dst_Phase : string;
  dst_Subnet : Z;
  dst_Nodes : Z;
  dst_ReadyNodes : Z;
  dst_CurrentHeight : Z;
  dst_SDKVersion : string;
  dst_SDKVersionHistory : list SDKVersionChange;
  dst_LastHealthCheck : Time;
  dst_Conditions : list Condition;
  dst_Events : list Event;
  dst_Message : string
}.
#[export] Instance eta_DevnetStatus : Settable DevnetStatus := mkSettable (λ x,
  mkDevnetStatus (dst_Phase x) (dst_Subnet x) (dst_Nodes x) (dst_ReadyNodes x)
    (dst_CurrentHeight x) (dst_SDKVersion x) (dst_SDKVersionHistory x)
    (dst_LastHealthCheck x) (dst_Conditions x) (dst_Events x) (dst_Message x)).

(** A blockchain development network ([devnet.go]). *)
Record Devnet := mkDevnet {
  d_Metadata : ResourceMeta;
  d_Spec : DevnetSpec;
  d_Status : DevnetStatus
}.
#[export] Instance eta_Devnet : Settable Devnet := mkSettable (λ x,
  mkDevnet (d_Metadata x) (d_Spec x) (d_Status x)).

(** The desired state of a node ([node.go]). *)
Record NodeSpec := mkNodeSpec {
  ns_DevnetRef : string;
  ns_NamespaceRef : string;
  ns_Index : Z;
  ns_Role : string;
  ns_BinaryPath : string;
  ns_HomeDir : string;
  ns_Address : string;
  ns_Desired : string;
  ns_ChainID : string;
  ns_Network : string
}.
#[export] Instance eta_NodeSpec : Settable NodeSpec := mkSettable (λ x,
  mkNodeSpec (ns_DevnetRef x) (ns_NamespaceRef x) (ns_Index x) (ns_Role x) (ns_BinaryPath
    x) (ns_HomeDir x) (ns_Address x) (ns_Desired x) (ns_ChainID x) (ns_Network x)).

(** The observed state of a node ([node.go]). *)
Record NodeStatus := mkNodeStatus {
  nst_Phase : string;
  nst_PID : Z;
  nst_BlockHeight : Z;
  nst_PeerCount : Z;
  nst_CatchingUp : bool;
  nst_RestartCount : Z;
  nst_ValidatorAddress : string;
  nst_ValidatorPubKey : string;
  nst_Message : string;
  nst_LastHealthCheck : Time;
  nst_LastBlockTime : Time;
  nst_ConsecutiveFailures : Z;
  nst_NextRestartTime : Time
}.
#[export] Instance eta_NodeStatus : Settable NodeStatus := mkSettable (λ x,
  mkNodeStatus (nst_Phase x) (nst_PID x) (nst_BlockHeight x) (nst_PeerCount x)
    (nst_CatchingUp x) (nst_RestartCount x) (nst_ValidatorAddress x) (nst_ValidatorPubKey
    x) (nst_Message x) (nst_LastHealthCheck x) (nst_LastBlockTime x)
    (nst_ConsecutiveFailures x) (nst_NextRestartTime x)).

(** A single node of a devnet ([node.go]). *)
Record Node := mkNode {
  n_Metadata : ResourceMeta;
  n_Spec : NodeSpec;
  n_Status : NodeStatus
}.
#[export] Instance eta_Node : Settable Node := mkSettable (λ x,
  mkNode (n_Metadata x) (n_Spec x) (n_Status x)).

(** The desired upgrade ([upgrade.go]). *)
Record UpgradeSpec := mkUpgradeSpec {
  us_DevnetRef : string;
  us_NamespaceRef : string;
  us_UpgradeName : string;
  us_TargetHeight : Z;
  us_NewBinary : BinarySource;
  us_WithExport : bool;
  us_AutoVote : bool
}.
#[export] Instance eta_UpgradeSpec : Settable UpgradeSpec := mkSettable (λ x,
  mkUpgradeSpec (us_DevnetRef x) (us_NamespaceRef x) (us_UpgradeName x) (us_TargetHeight
    x) (us_NewBinary x) (us_WithExport x) (us_AutoVote x)).

(** The observed state of an upgrade ([upgrade.go]). *)
Record UpgradeStatus := mkUpgradeStatus {
  ust_Phase : string;
  ust_ProposalID : Z;
  ust_VotesReceived : Z;
  ust_VotesRequired : Z;
  ust_CurrentHeight : Z;
  ust_PreExportPath : string;
  ust_PostExportPath : string;
  ust_Message : string;
  ust_Error : string
}.
#[export] Instance eta_UpgradeStatus : Settable UpgradeStatus := mkSettable (λ x,
  mkUpgradeStatus (ust_Phase x) (ust_ProposalID x) (ust_VotesReceived x)
    (ust_VotesRequired x) (ust_CurrentHeight x) (ust_PreExportPath x) (ust_PostExportPath
    x) (ust_Message x) (ust_Error x)).

(** A chain upgrade operation ([upgrade.go]). *)
Record Upgrade := mkUpgrade {
  u_Metadata : ResourceMeta;
  u_Spec : UpgradeSpec;
  u_Status : UpgradeStatus
}.
#[export] Instance eta_Upgrade : Settable Upgrade := mkSettable (λ x,
  mkUpgrade (u_Metadata x) (u_Spec x) (u_Status x)).

(** The desired transaction ([transaction.go]). *)
Record TransactionSpec := mkTransactionSpec {
  ts_DevnetRef : string;
  ts_NamespaceRef : string;
  ts_TxType : string;
  ts_Signer : string;
  ts_Payload : string;
  ts_SDKVersion : string;
  ts_GasLimit : Z;
  ts_Memo : string
}.
#[export] Instance eta_TransactionSpec : Settable TransactionSpec := mkSettable (λ x,
  mkTransactionSpec (ts_DevnetRef x) (ts_NamespaceRef x) (ts_TxType x) (ts_Signer x)
    (ts_Payload x) (ts_SDKVersion x) (ts_GasLimit x) (ts_Memo x)).

(** The observed state of a transaction ([transaction.go]). *)
Record TransactionStatus := mkTransactionStatus {
  tst_Phase : string;
  tst_Message : string;
  tst_TxHash : string;
  tst_Height : Z;
  tst_GasUsed : Z;
  tst_Error : string
}.
#[export] Instance eta_TransactionStatus : Settable TransactionStatus := mkSettable (λ x,
  mkTransactionStatus (tst_Phase x) (tst_Message x) (tst_TxHash x) (tst_Height x)
    (tst_GasUsed x) (tst_Error x)).

(** A transaction operation ([transaction.go]). *)
Record Transaction := mkTransaction {
  t_Metadata : ResourceMeta;
  t_Spec : TransactionSpec;
  t_Status : TransactionStatus
}.
#[export] Instance eta_Transaction : Settable Transaction := mkSettable (λ x,
  mkTransaction (t_Metadata x) (t_Spec x) (t_Status x)).

(** How crashed nodes are restarted ([health.go]); the [float64] multiplier is an IEEE binary64 value. *)
Record RestartPolicy := mkRestartPolicy {
  rp_Enabled : bool;
  rp_MaxRestarts : Z;
  rp_BackoffInitial : Duration;
  rp_BackoffMax : Duration;
  rp_BackoffMultiplier : spec_float
}.
#[export] Instance eta_RestartPolicy : Settable RestartPolicy := mkSettable (λ x,
  mkRestartPolicy (rp_Enabled x) (rp_MaxRestarts x) (rp_BackoffInitial x) (rp_BackoffMax
    x) (rp_BackoffMultiplier x)).

(** The outcome of a node health check ([health.go]). *)
Record HealthCheckResult := mkHealthCheckResult {
  hr_NodeKey : string;
  hr_Healthy : bool;
  hr_BlockHeight : Z;
  hr_PeerCount : Z;
  hr_CatchingUp : bool;
  hr_Error : string;
  hr_CheckedAt : Time
}.
#[export] Instance eta_HealthCheckResult : Settable HealthCheckResult := mkSettable (λ x,
  mkHealthCheckResult (hr_NodeKey x) (hr_Healthy x) (hr_BlockHeight x) (hr_PeerCount x)
    (hr_CatchingUp x) (hr_Error x) (hr_CheckedAt x)).

(** A bounded buffer of the most recent events ([event.go]). *)
Record EventRing := mkEventRing {
  er_events : list Event;
  er_size : Z
}.
#[export] Instance eta_EventRing : Settable EventRing := mkSettable (λ x,
  mkEventRing (er_events x) (er_size x)).

(** [FullName] ([meta.go]): namespace/name, the default namespace if empty. *)
Definition FullName (m : ResourceMeta) : string :=
  let ns := if bool_decide (m_Namespace m = "") then DefaultNamespace
            else m_Namespace m in
  ns +:+ "/" +:+ m_Name m.

(** [EnsureNamespace] ([meta.go]). *)
Definition EnsureNamespace (m : ResourceMeta) : ResourceMeta :=
  if bool_decide (m_Namespace m = "") then m <| m_Namespace := DefaultNamespace |>
  else m.

(** [DefaultRestartPolicy] ([health.go]); 2.0 is [2^52 * 2^-51]. *)
Definition DefaultRestartPolicy : RestartPolicy := {|
  rp_Enabled := true;
  rp_MaxRestarts := 5;
  rp_BackoffInitial := 5 * second;
  rp_BackoffMax := 5 * minute;
  rp_BackoffMultiplier := S754_finite false (2^52) (-51) |}.

(** [NewEvent] ([event.go]) at the instant [now]. *)
Definition NewEvent (now : Time) (eventType reason message component : string)
    : Event :=
  {| e_Timestamp := now; e_Type := eventType; e_Reason := reason;
     e_Message := message; e_Component := component |}.

(** ** Conditions ([condition.go]) *)

(** [SetCondition]: the first condition of the type is updated in place, its
    transition time only when the status changes; otherwise one is appended. *)
Fixpoint SetCondition (now : Time) (conditions : list Condition)
    (condType status reason message : string) : list Condition :=
  match conditions with
  | [] => [mkCondition condType status now reason message]
  | c :: rest =>
      if bool_decide (c_Type c = condType) then
        let c := if bool_decide (c_Status c = status) then c
                 else c <| c_LastTransitionTime := now |> in
        c <| c_Status := status |> <| c_Reason := reason |>
          <| c_Message := message |> :: rest
      else c :: SetCondition now rest condType status reason message
  end.

(** [GetCondition]: the first condition of the type, if any. *)
Fixpoint GetCondition (conditions : list Condition) (condType : string)
    : option Condition :=
  match conditions with
  | [] => None
  | c :: rest =>
      if bool_decide (c_Type c = condType) then Some c
      else GetCondition rest condType
  end.

Definition IsConditionTrue (conditions : list Condition) (condType : string) : bool :=
  match GetCondition conditions condType with
  | Some c => bool_decide (c_Status c = ConditionTrue)
  | None => false
  end.

Definition IsConditionFalse (conditions : list Condition) (condType : string) : bool :=
  match GetCondition conditions condType with
  | Some c => bool_decide (c_Status c = ConditionFalse)
  | None => false
  end.

(** [RemoveCondition]: every condition of another type, in order. *)
Fixpoint RemoveCondition (conditions : list Condition) (condType : string)
    : list Condition :=
  match conditions with
  | [] => []
  | c :: rest =>
      if bool_decide (c_Type c = condType) then RemoveCondition rest condType
      else c :: RemoveCondition rest condType
  end.

(** ** Event ring ([event.go]) *)

Definition NewEventRing (capacity : Z) : EventRing := mkEventRing [] capacity.

(** [Add]: at capacity the oldest event is shifted out first.  [None] is the
    slice-bounds panic of [r.events[1:]] on an empty slice (capacity 0). *)
Definition EventRing_Add (e : Event) (r : EventRing) : option EventRing :=
  if bool_decide (er_size r ≤ Z.of_nat (length (er_events r)))%Z then
    match er_events r with
    | [] => None
    | _ :: rest => Some (r <| er_events := rest ++ [e] |>)
    end
  else Some (r <| er_events := er_events r ++ [e] |>).

Definition EventRing_List (r : EventRing) : list Event := er_events r.

Definition EventRing_Clear (r : EventRing) : EventRing := r <| er_events := [] |>.

(** Adding the events of a list one after the other. *)
Fixpoint EventRing_AddAll (es : list Event) (r : EventRing) : option EventRing :=
  match es with
  | [] => Some r
  | e :: es => r' ← EventRing_Add e r; EventRing_AddAll es r'
  end.

(** ** Lemmas on conditions *)

Lemma GetCondition_type cs ty c : GetCondition cs ty = Some c → c_Type c = ty.
Proof. induction cs as [|c' cs IH]; simpl; [done|]. case_bool_decide; naive_solver. Qed.

Lemma GetCondition_None cs ty :
  GetCondition cs ty = None ↔ ty ∉ c_Type <$> cs.
Proof.
  induction cs as [|c cs IH]; simpl; [set_solver|].
  rewrite not_elem_of_cons, <- IH. case_bool_decide; split; intros; destruct_and?; done.
Qed.

Lemma SetCondition_get_ne now cs ty st r m ty' :
  ty' ≠ ty → GetCondition (SetCondition now cs ty st r m) ty' = GetCondition cs ty'.
Proof.
  intros Hne. induction cs as [|c cs IH]; simpl.
  - by rewrite bool_decide_false by done.
  - case_bool_decide as Hc; simpl.
    + repeat case_bool_decide; simpl in *; congruence.
    + by rewrite IH.
Qed.

Lemma SetCondition_get now cs ty st r m :
  GetCondition (SetCondition now cs ty st r m) ty =
  Some (mkCondition ty st
    (match GetCondition cs ty with
     | Some old => if bool_decide (c_Status old = st) then c_LastTransitionTime old
                   else now
     | None => now
     end) r m).
Proof.
  induction cs as [|c cs IH]; simpl.
  - by rewrite bool_decide_true.
  - case_bool_decide as Hc; simpl.
    + destruct c; simpl in *; subst.
      repeat (case_bool_decide; simpl in * ); by simplify_eq.
    + by rewrite bool_decide_false.
Qed.

Lemma SetCondition_types now cs ty st r m :
  c_Type <$> SetCondition now cs ty st r m =
  if bool_decide (ty ∈ c_Type <$> cs) then c_Type <$> cs else (c_Type <$> cs) ++ [ty].
Proof.
  induction cs as [|c cs IH]; [done|]. csimpl.
  destruct (decide (c_Type c = ty)) as [Hc|Hc].
  - rewrite (bool_decide_true (c_Type c = ty)) by done.
    rewrite (bool_decide_true (ty ∈ _)) by (rewrite elem_of_cons; by left).
    by destruct (bool_decide (c_Status c = st)).
  - rewrite (bool_decide_false (c_Type c = ty)) by done. csimpl. rewrite IH.
    destruct (decide (ty ∈ c_Type <$> cs)).
    + by rewrite !bool_decide_true by (rewrite ?elem_of_cons; auto).
    + rewrite !bool_decide_false; [done| |done].
      rewrite elem_of_cons. by intros [->|?].
Qed.

(** ** Properties *)

(** [SetCondition] leaves exactly one up-to-date condition of its type: the
    new status, reason and message, the old transition time precisely when the
    status did not change; conditions of other types are untouched, and the
    list of types grows only when the type was absent. *)
Theorem SetCondition_correct now cs ty st r m :
  GetCondition (SetCondition now cs ty st r m) ty =
    Some (mkCondition ty st
      (match GetCondition cs ty with
       | Some old => if bool_decide (c_Status old = st) then c_LastTransitionTime old
                     else now
       | None => now
       end) r m) ∧
  (∀ ty', ty' ≠ ty →
    GetCondition (SetCondition now cs ty st r m) ty' = GetCondition cs ty') ∧
  c_Type <$> SetCondition now cs ty st r m =
    (if bool_decide (ty ∈ c_Type <$> cs) then c_Type <$> cs
     else (c_Type <$> cs) ++ [ty]).
Proof.
  split_and!; [apply SetCondition_get|intros; by apply SetCondition_get_ne|].
  apply SetCondition_types.
Qed.

Lemma EventRing_AddAll_gen es r :
  (0 < er_size r)%Z → (Z.of_nat (length (er_events r)) ≤ er_size r)%Z →
  EventRing_AddAll es r =
    Some (mkEventRing
      (drop (length (er_events r ++ es) - Z.to_nat (er_size r)) (er_events r ++ es))
      (er_size r)).
Proof.
  revert r; induction es as [|e es IH]; intros [evs n] Hn Hle; simpl in *.
  - rewrite app_nil_r. replace (length evs - Z.to_nat n) with 0 by lia. by rewrite drop_0.
  - unfold EventRing_Add; simpl. case_bool_decide.
    + destruct evs as [|ev evs]; simpl in *; [lia|].
      rewrite IH; simpl; rewrite ?length_app; simpl; [|lia..].
      rewrite <- (assoc_L app). simpl. do 2 f_equal.
      by replace (S (length evs + S (length es)) - Z.to_nat n)
        with (S (length evs + 1 + length es - Z.to_nat n)) by lia.
    + simpl. rewrite IH; simpl; rewrite ?length_app; simpl; [|lia..].
      rewrite <- (assoc_L app). simpl. do 2 f_equal. f_equal. lia.
Qed.

(** An event ring of positive capacity never panics and keeps exactly the
    most recent [capacity] events, in chronological order. *)
Theorem EventRing_keeps_latest capacity es :
  (0 < capacity)%Z →
  EventRing_List <$> EventRing_AddAll es (NewEventRing capacity) =
    Some (drop (length es - Z.to_nat capacity) es).
Proof. intros Hc. rewrite EventRing_AddAll_gen; simpl; [done|lia..]. Qed.

Lemma EventRing_keeps_latest_witness :
  EventRing_List <$>
    EventRing_AddAll (NewEvent 1 EventTypeNormal "A" "a" "t" ::
                      NewEvent 2 EventTypeNormal "B" "b" "t" :: [])
      (NewEventRing 1) =
    Some [NewEvent 2 EventTypeNormal "B" "b" "t"].
Proof. apply (EventRing_keeps_latest 1). lia. Defined.
