(* ===== verification/Store.v ===== *)
(** * The resource store's interface ([internal/daemon/store/interface.go], [errors.go])

    [Store] is the Go interface the controllers are written against.  An
    operation takes the state of the store (and, where an implementation reads
    [time.Now], the instant it would read) and returns the error, the resource
    as the operation left it (Go passes a pointer whose metadata the store
    writes) and the new state.  [StoreSpec] is what an implementation promises
    to a client: four finite maps, read and written as its laws say.
    [MemStore] and [BoltStore] are its two instances. *)

From stdpp Require Import base tactics numbers list strings gmap.
From S2P Require Import Prelude Types.

(** ** Errors ([errors.go]) *)

(** The [Error] methods and the text of the wrapped errors. *)
Fixpoint Error (e : error) : string :=
  match e with
  | ErrNotFound => "resource not found"
  | ErrAlreadyExists => "resource already exists"
  | NotFoundError res name => res +:+ " " +:+ quote name +:+ " not found"
  | ConflictError res name msg =>
      "conflict updating " +:+ res +:+ " " +:+ quote name +:+ ": " +:+ msg
  | AlreadyExistsError res name => res +:+ " " +:+ quote name +:+ " already exists"
  | Errorf msg => msg
  | Wrap msg err => msg +:+ ": " +:+ Error err
  end.

(** [IsNotFound]: [errors.Is] against the sentinel or [errors.As] against the
    struct, both through the chain of wrapped errors. *)
Fixpoint IsNotFound (e : error) : bool :=
  match e with
  | ErrNotFound | NotFoundError _ _ => true
  | Wrap _ err => IsNotFound err
  | _ => false
  end.

Fixpoint IsConflict (e : error) : bool :=
  match e with
  | ConflictError _ _ _ => true
  | Wrap _ err => IsConflict err
  | _ => false
  end.

Fixpoint IsAlreadyExists (e : error) : bool :=
  match e with
  | ErrAlreadyExists | AlreadyExistsError _ _ => true
  | Wrap _ err => IsAlreadyExists err
  | _ => false
  end.

(** ** Keys *)

(** The namespace a key or a filter uses when none is given. *)
Definition or_default (namespace : string) : string :=
  if bool_decide (namespace = "") then DefaultNamespace else namespace.

(** namespace/name. *)
Definition qualified (namespace name : string) : string :=
  or_default namespace +:+ "/" +:+ name.

(** namespace/devnet/index. *)
Definition node_key (namespace devnet : string) (index : Z) : string :=
  qualified namespace devnet +:+ "/" +:+ itoa index.

Definition devnet_id (d : Devnet) : string := FullName (d_Metadata d).
Definition upgrade_id (u : Upgrade) : string := FullName (u_Metadata u).
Definition node_id (n : Node) : string :=
  node_key (m_Namespace (n_Metadata n)) (ns_DevnetRef (n_Spec n)) (ns_Index (n_Spec n)).
Definition tx_id (t : Transaction) : string := m_Name (t_Metadata t).

Lemma or_default_idem ns : or_default (or_default ns) = or_default ns.
Proof. unfold or_default. repeat case_bool_decide; done. Qed.

Lemma qualified_default ns name : qualified (or_default ns) name = qualified ns name.
Proof. unfold qualified. by rewrite or_default_idem. Qed.

Lemma node_key_default ns d i : node_key (or_default ns) d i = node_key ns d i.
Proof. unfold node_key. by rewrite qualified_default. Qed.

Lemma FullName_qualified m : FullName m = qualified (m_Namespace m) (m_Name m).
Proof. done. Qed.

Lemma EnsureNamespace_ns m : m_Namespace (EnsureNamespace m) = or_default (m_Namespace m).
Proof. unfold EnsureNamespace, or_default. by case_bool_decide. Qed.

Lemma EnsureNamespace_name m : m_Name (EnsureNamespace m) = m_Name m.
Proof. unfold EnsureNamespace. by case_bool_decide. Qed.

Lemma EnsureNamespace_gen m : m_Generation (EnsureNamespace m) = m_Generation m.
Proof. unfold EnsureNamespace. by case_bool_decide. Qed.

Lemma EnsureNamespace_idem m : EnsureNamespace (EnsureNamespace m) = EnsureNamespace m.
Proof. unfold EnsureNamespace. repeat (case_bool_decide; simpl in *); done. Qed.

Lemma EnsureNamespace_FullName m : FullName (EnsureNamespace m) = FullName m.
Proof.
  by rewrite !FullName_qualified, EnsureNamespace_ns, EnsureNamespace_name, qualified_default.
Qed.

(** Keys determine their parts when the leading parts hold no slash. *)
Lemma qualified_inj ns1 n1 ns2 n2 :
  has_char slash ns1 = false → has_char slash ns2 = false →
  qualified ns1 n1 = qualified ns2 n2 → or_default ns1 = or_default ns2 ∧ n1 = n2.
Proof.
  intros H1 H2. assert (Hd : ∀ ns, has_char slash ns = false →
    has_char slash (or_default ns) = false).
  { intros ns Hns. unfold or_default. by case_bool_decide. }
  unfold qualified. intros E. apply (sep_inj slash) in E; auto.
Qed.

#[export] Hint Rewrite or_default_idem qualified_default node_key_default
  EnsureNamespace_ns EnsureNamespace_name EnsureNamespace_gen EnsureNamespace_idem
  EnsureNamespace_FullName : devnet.

(** ** Resources *)

(** What the stores do alike to the four resources goes through [Resource]. *)
Class Resource (R : Type) := {
  meta : R → ResourceMeta;
  with_meta : ResourceMeta → R → R;
  same : R → R → Prop
}.

(** [r'] is [r] after a store wrote its metadata: the namespace is filled in,
    the generation and the times may change, nothing else does. *)
Definition same_meta (m m' : ResourceMeta) : Prop :=
  m_Name m' = m_Name m ∧ m_Namespace m' = or_default (m_Namespace m) ∧
  m_Labels m' = m_Labels m ∧ m_Annotations m' = m_Annotations m.

Definition same_devnet (d d' : Devnet) : Prop :=
  same_meta (d_Metadata d) (d_Metadata d') ∧ d_Spec d' = d_Spec d ∧ d_Status d' = d_Status d.
Definition same_node (n n' : Node) : Prop :=
  same_meta (n_Metadata n) (n_Metadata n') ∧ n_Spec n' = n_Spec n ∧ n_Status n' = n_Status n.
Definition same_upgrade (u u' : Upgrade) : Prop :=
  same_meta (u_Metadata u) (u_Metadata u') ∧ u_Spec u' = u_Spec u ∧ u_Status u' = u_Status u.
Definition same_tx (t t' : Transaction) : Prop :=
  same_meta (t_Metadata t) (t_Metadata t') ∧ t_Spec t' = t_Spec t ∧ t_Status t' = t_Status t.

#[export] Instance Devnet_Resource : Resource Devnet :=
  {| meta := d_Metadata; with_meta m d := d <| d_Metadata := m |>; same := same_devnet |}.
#[export] Instance Node_Resource : Resource Node :=
  {| meta := n_Metadata; with_meta m n := n <| n_Metadata := m |>; same := same_node |}.
#[export] Instance Upgrade_Resource : Resource Upgrade :=
  {| meta := u_Metadata; with_meta m u := u <| u_Metadata := m |>; same := same_upgrade |}.
#[export] Instance Transaction_Resource : Resource Transaction :=
  {| meta := t_Metadata; with_meta m t := t <| t_Metadata := m |>; same := same_tx |}.

Class ResourceLaws (R : Type) `{Resource R} := {
  meta_with_meta : ∀ m (r : R), meta (with_meta m r) = m;
  with_meta_with_meta : ∀ m m' (r : R), with_meta m (with_meta m' r) = with_meta m r;
  same_with_meta : ∀ m (r : R), same_meta (meta r) m → same r (with_meta m r)
}.

#[export] Instance Devnet_laws : ResourceLaws Devnet.
Proof. by split. Qed.
#[export] Instance Node_laws : ResourceLaws Node.
Proof. by split. Qed.
#[export] Instance Upgrade_laws : ResourceLaws Upgrade.
Proof. by split. Qed.
#[export] Instance Transaction_laws : ResourceLaws Transaction.
Proof. by split. Qed.

(** [r.Metadata.EnsureNamespace()]. *)
Definition ensure_ns `{Resource R} (r : R) : R := with_meta (EnsureNamespace (meta r)) r.

Lemma same_meta_ensure m : same_meta m (EnsureNamespace m).
Proof.
  unfold same_meta. rewrite EnsureNamespace_name, EnsureNamespace_ns.
  unfold EnsureNamespace. by case_bool_decide.
Qed.

Lemma same_ensure `{ResourceLaws R} (r : R) : same r (ensure_ns r).
Proof. apply same_with_meta, same_meta_ensure. Qed.

(** A key that only depends on what [same] preserves. *)
Class KeyOf (R : Type) `{Resource R} (key : R → string) :=
  key_same : ∀ r r', same r r' → key r' = key r.

Lemma same_meta_FullName m m' : same_meta m m' → FullName m' = FullName m.
Proof.
  intros (Hn & Hns & _). by rewrite !FullName_qualified, Hn, Hns, qualified_default.
Qed.

#[export] Instance devnet_id_key : KeyOf Devnet devnet_id.
Proof. intros d d' (Hm & _). by apply same_meta_FullName. Qed.
#[export] Instance upgrade_id_key : KeyOf Upgrade upgrade_id.
Proof. intros d d' (Hm & _). by apply same_meta_FullName. Qed.
#[export] Instance node_id_key : KeyOf Node node_id.
Proof.
  intros n n' ((_ & Hns & _) & Hsp & _). unfold node_id.
  by rewrite Hns, Hsp, node_key_default.
Qed.
#[export] Instance tx_id_key : KeyOf Transaction tx_id.
Proof. by intros t t' ((Hn & _) & _). Qed.

(** ** The interface ([interface.go]) *)

(** [ListTxOptions]. *)
Record ListTxOptions := mkListTxOptions {
  lo_TxType : string;
  lo_Phase : string;
  lo_Limit : Z
}.

Class Store (S : Type) := {
  CreateDevnet : Time → Devnet → S → option error * Devnet * S;
  GetDevnet : string → string → S → result Devnet;
  UpdateDevnet : Time → Devnet → S → option error * Devnet * S;
  DeleteDevnet : string → string → S → option error * S;
  ListDevnets : string → S → result (list Devnet);
  ListNamespaces : S → result (list string);
  CreateNode : Time → Node → S → option error * Node * S;
  GetNode : string → string → Z → S → result Node;
  UpdateNode : Time → Node → S → option error * Node * S;
  DeleteNode : string → string → Z → S → option error * S;
  ListNodes : string → string → S → result (list Node);
  DeleteNodesByDevnet : string → string → S → option error * S;
  CreateUpgrade : Time → Upgrade → S → option error * Upgrade * S;
  GetUpgrade : string → string → S → result Upgrade;
  UpdateUpgrade : Time → Upgrade → S → option error * Upgrade * S;
  DeleteUpgrade : string → string → S → option error * S;
  ListUpgrades : string → string → S → result (list Upgrade);
  DeleteUpgradesByDevnet : string → string → S → option error * S;
  CreateTransaction : Time → Transaction → S → option error * Transaction * S;
  GetTransaction : string → S → result Transaction;
  UpdateTransaction : Time → Transaction → S → option error * Transaction * S;
  ListTransactions : string → string → ListTxOptions → S → result (list Transaction)
}.

(** ** What an implementation promises *)

(** The four collections a client can observe. *)
Record view := mkView {
  v_devnets : gmap string Devnet;
  v_nodes : gmap string Node;
  v_upgrades : gmap string Upgrade;
  v_txs : gmap string Transaction
}.
#[export] Instance eta_view : Settable view := mkSettable (λ x,
  mkView (v_devnets x) (v_nodes x) (v_upgrades x) (v_txs x)).

(** A read returns the entry of the key, or an error that [IsNotFound]. *)
Definition get_spec {R} (m : gmap string R) (k : string) (r : result R) : Prop :=
  match m !! k with
  | Some x => r = Ok x
  | None => ∃ e, r = Err e ∧ IsNotFound e = true
  end.

(** A successful update replaces an existing entry and nothing else; a failed
    one changes nothing. *)
Definition update_spec {S R} (wf : S → Prop) (vw : S → view) (sel : view → gmap string R)
    (put : gmap string R → view → view) (key : R → string) `{Resource R}
    (upd : R → S → option error * R * S) : Prop :=
  ∀ r s e r' s', wf s → upd r s = (e, r', s') →
    match e with
    | None => same r r' ∧ is_Some (sel (vw s) !! key r) ∧
              vw s' = put (<[key r := r']> (sel (vw s))) (vw s)
    | Some _ => vw s' = vw s
    end.

(** [store_wf] is the implementation's invariant; [store_view] its abstraction. *)
Class StoreSpec (S : Type) `{Store S} := {
  store_wf : S → Prop;
  store_view : S → view;
  GetDevnet_spec : ∀ ns n s, store_wf s →
    get_spec (v_devnets (store_view s)) (qualified ns n) (GetDevnet ns n s);
  GetNode_spec : ∀ ns d i s, store_wf s →
    get_spec (v_nodes (store_view s)) (node_key ns d i) (GetNode ns d i s);
  GetUpgrade_spec : ∀ ns n s, store_wf s →
    get_spec (v_upgrades (store_view s)) (qualified ns n) (GetUpgrade ns n s);
  GetTransaction_spec : ∀ n s, store_wf s →
    get_spec (v_txs (store_view s)) n (GetTransaction n s);
  UpdateDevnet_spec : ∀ now, update_spec store_wf store_view v_devnets
    (λ m v, v <| v_devnets := m |>) devnet_id (UpdateDevnet now);
  UpdateNode_spec : ∀ now, update_spec store_wf store_view v_nodes
    (λ m v, v <| v_nodes := m |>) node_id (UpdateNode now);
  UpdateUpgrade_spec : ∀ now, update_spec store_wf store_view v_upgrades
    (λ m v, v <| v_upgrades := m |>) upgrade_id (UpdateUpgrade now);
  UpdateTransaction_spec : ∀ now, update_spec store_wf store_view v_txs
    (λ m v, v <| v_txs := m |>) tx_id (UpdateTransaction now);
  UpdateDevnet_wf : ∀ now d s, store_wf s → store_wf (UpdateDevnet now d s).2;
  UpdateNode_wf : ∀ now n s, store_wf s → store_wf (UpdateNode now n s).2;
  UpdateUpgrade_wf : ∀ now u s, store_wf s → store_wf (UpdateUpgrade now u s).2;
  UpdateTransaction_wf : ∀ now t s, store_wf s → store_wf (UpdateTransaction now t s).2;
  store_keys : ∀ s, store_wf s →
    map_Forall (λ k d, k = devnet_id d) (v_devnets (store_view s)) ∧
    map_Forall (λ k n, k = node_id n) (v_nodes (store_view s)) ∧
    map_Forall (λ k u, k = upgrade_id u) (v_upgrades (store_view s)) ∧
    map_Forall (λ k t, k = tx_id t) (v_txs (store_view s));
  ListNodes_spec : ∀ ns d s nodes, store_wf s → ListNodes ns d s = Ok nodes →
    ∀ n, (n ∈ nodes → v_nodes (store_view s) !! node_id n = Some n) ∧
         (v_nodes (store_view s) !! node_id n = Some n →
          or_default (m_Namespace (n_Metadata n)) = or_default ns →
          ns_DevnetRef (n_Spec n) = d → n ∈ nodes);
  UpdateDevnet_same : ∀ now d s, same_devnet d (UpdateDevnet now d s).1.2
}.

(** A live store saves a resource that still has the stored generation. *)
Class StoreLive (S : Type) `{StoreSpec S} := {
  UpdateDevnet_live : ∀ now d old s, store_wf s →
    v_devnets (store_view s) !! devnet_id d = Some old →
    m_Generation (d_Metadata old) = m_Generation (d_Metadata d) →
    (UpdateDevnet now d s).1.1 = None;
  UpdateNode_live : ∀ now n old s, store_wf s →
    v_nodes (store_view s) !! node_id n = Some old →
    m_Generation (n_Metadata old) = m_Generation (n_Metadata n) →
    (UpdateNode now n s).1.1 = None;
  UpdateUpgrade_live : ∀ now u old s, store_wf s →
    v_upgrades (store_view s) !! upgrade_id u = Some old →
    m_Generation (u_Metadata old) = m_Generation (u_Metadata u) →
    (UpdateUpgrade now u s).1.1 = None;
  UpdateTransaction_live : ∀ now t old s, store_wf s →
    v_txs (store_view s) !! tx_id t = Some old → tx_id t ≠ "" →
    (UpdateTransaction now t s).1.1 = None
}.

(** *** Creation and deletion *)

(** A successful create adds an entry that was not there; a failed one changes
    nothing, and says so when the key is taken. *)
Definition create_spec {S R} (wf : S → Prop) (vw : S → view) (sel : view → gmap string R)
    (put : gmap string R → view → view) (key : R → string) `{Resource R}
    (create : R → S → option error * R * S) : Prop :=
  ∀ r s, wf s →
    let '(e, r', s') := create r s in
    wf s' ∧ same r r' ∧
    match e with
    | None => sel (vw s) !! key r = None ∧ vw s' = put (<[key r := r']> (sel (vw s))) (vw s)
    | Some e => vw s' = vw s ∧ (is_Some (sel (vw s) !! key r) → IsAlreadyExists e = true)
    end.

(** A successful delete removes an existing entry; a failed one changes
    nothing, and says so when there is none. *)
Definition delete_spec {S R} (wf : S → Prop) (vw : S → view) (sel : view → gmap string R)
    (put : gmap string R → view → view) (k : string)
    (del : S → option error * S) : Prop :=
  ∀ s, wf s →
    let '(e, s') := del s in
    wf s' ∧
    match e with
    | None => is_Some (sel (vw s) !! k) ∧ vw s' = put (delete k (sel (vw s))) (vw s)
    | Some e => vw s' = vw s ∧ (sel (vw s) !! k = None → IsNotFound e = true)
    end.

(** A cascade removes the entries that [belongs] to the devnet and keeps those
    that are [clear] of it; the implementations differ on the rest. *)
Definition cascade_spec {S R} (wf : S → Prop) (vw : S → view) (sel : view → gmap string R)
    (put : gmap string R → view → view) (belongs clear : R → Prop)
    (del : S → option error * S) : Prop :=
  ∀ s, wf s →
    let '(e, s') := del s in
    wf s' ∧
    match e with
    | Some _ => vw s' = vw s
    | None => ∃ m, vw s' = put m (vw s) ∧ m ⊆ sel (vw s) ∧
        ∀ k r, sel (vw s) !! k = Some r →
          (belongs r → m !! k = None) ∧ (clear r → m !! k = Some r)
    end.

Definition no_slash (x : string) : Prop := has_char slash x = false.

Lemma no_slash_default ns : no_slash ns → no_slash (or_default ns).
Proof. unfold no_slash, or_default. by case_bool_decide. Qed.

Definition node_belongs (ns d : string) (n : Node) : Prop :=
  or_default (m_Namespace (n_Metadata n)) = or_default ns ∧ ns_DevnetRef (n_Spec n) = d.
Definition upgrade_belongs (ns d : string) (u : Upgrade) : Prop :=
  or_default (m_Namespace (u_Metadata u)) = or_default ns ∧ us_DevnetRef (u_Spec u) = d.

(** A node of another devnet, none of the names holding a slash. *)
Definition node_clear (ns d : string) (n : Node) : Prop :=
  no_slash ns ∧ no_slash d ∧ no_slash (m_Namespace (n_Metadata n)) ∧
  no_slash (ns_DevnetRef (n_Spec n)) ∧ ¬ node_belongs ns d n.

Class StoreChanges (S : Type) `{StoreSpec S} := {
  CreateDevnet_spec : ∀ now, create_spec store_wf store_view v_devnets
    (λ m v, v <| v_devnets := m |>) devnet_id (CreateDevnet now);
  CreateNode_spec : ∀ now, create_spec store_wf store_view v_nodes
    (λ m v, v <| v_nodes := m |>) node_id (CreateNode now);
  CreateUpgrade_spec : ∀ now, create_spec store_wf store_view v_upgrades
    (λ m v, v <| v_upgrades := m |>) upgrade_id (CreateUpgrade now);
  DeleteDevnet_spec : ∀ ns n, delete_spec store_wf store_view v_devnets
    (λ m v, v <| v_devnets := m |>) (qualified ns n) (DeleteDevnet ns n);
  DeleteUpgrade_spec : ∀ ns n, delete_spec store_wf store_view v_upgrades
    (λ m v, v <| v_upgrades := m |>) (qualified ns n) (DeleteUpgrade ns n);
  DeleteNodesByDevnet_spec : ∀ ns d, cascade_spec store_wf store_view v_nodes
    (λ m v, v <| v_nodes := m |>) (node_belongs ns d) (node_clear ns d)
    (DeleteNodesByDevnet ns d);
  DeleteUpgradesByDevnet_spec : ∀ ns d, cascade_spec store_wf store_view v_upgrades
    (λ m v, v <| v_upgrades := m |>) (upgrade_belongs ns d) (λ u, ¬ upgrade_belongs ns d u)
    (DeleteUpgradesByDevnet ns d);
  ListNodes_total : ∀ ns d s, store_wf s → ∃ nodes, ListNodes ns d s = Ok nodes;
  ListNodes_NoDup : ∀ ns d s nodes, store_wf s → ListNodes ns d s = Ok nodes →
    NoDup (node_id <$> nodes)
}.

(** A live store creates a node whose key is free. *)
Class StoreCreates (S : Type) `{StoreSpec S} := {
  CreateNode_live : ∀ now n s, store_wf s →
    v_nodes (store_view s) !! node_id n = None → (CreateNode now n s).1.1 = None
}.
