(* ===== verification/MemStore.v ===== *)
(** * The in-memory store ([internal/daemon/store/memory.go])

    [MemoryStore] keeps one map per resource under string keys.  Every method
    holds the store's lock, so it is one atomic step here.  A method that
    ranges over a map is parameterised by [MapRange], the order of iteration.
    Resources are values: the sharing of slices and maps between a stored
    resource and the shallow copies the methods return is not modelled. *)

From stdpp Require Import base tactics numbers list strings sorting gmap.
From S2P Require Import Prelude Types Store.

Record MemoryStore := mkMemoryStore {
  ms_devnets : gmap string Devnet;
  ms_nodes : gmap string Node;
  ms_upgrades : gmap string Upgrade;
  ms_transactions : gmap string Transaction
}.
#[export] Instance eta_MemoryStore : Settable MemoryStore := mkSettable (λ x,
  mkMemoryStore (ms_devnets x) (ms_nodes x) (ms_upgrades x) (ms_transactions x)).

Definition NewMemoryStore : MemoryStore := mkMemoryStore ∅ ∅ ∅ ∅.

Definition memoryDevnetKey (namespace name : string) : string :=
  let namespace := if bool_decide (namespace = "") then DefaultNamespace else namespace in
  namespace +:+ "/" +:+ name.

Definition memoryNodeKey (namespace devnetName : string) (index : Z) : string :=
  let namespace := if bool_decide (namespace = "") then DefaultNamespace else namespace in
  (namespace +:+ "/" +:+ devnetName) +:+ "/" +:+ itoa index.

Definition memoryUpgradeKey (namespace name : string) : string :=
  let namespace := if bool_decide (namespace = "") then DefaultNamespace else namespace in
  namespace +:+ "/" +:+ name.

(** ** The bodies the methods share *)

Section bodies.
Context {R : Type} `{Resource R} (key : R → string).

(** Create: fill in the namespace, refuse a taken key, store a copy. *)
Definition create_in (r : R) (m : gmap string R) : option error * R * gmap string R :=
  let r := ensure_ns r in
  match m !! key r with
  | Some _ => (Some ErrAlreadyExists, r, m)
  | None => (None, r, <[key r := r]> m)
  end.

(** Update: fill in the namespace, refuse a free key, store a copy. *)
Definition update_in (r : R) (m : gmap string R) : option error * R * gmap string R :=
  let r := ensure_ns r in
  match m !! key r with
  | None => (Some ErrNotFound, r, m)
  | Some _ => (None, r, <[key r := r]> m)
  end.

Definition get_in (k : string) (m : gmap string R) : result R :=
  match m !! k with Some r => Ok r | None => Err ErrNotFound end.

Definition delete_in (k : string) (m : gmap string R) : option error * gmap string R :=
  match m !! k with
  | None => (Some ErrNotFound, m)
  | Some _ => (None, delete k m)
  end.

(** The namespace a stored resource is filtered by. *)
Definition ns_of (r : R) : string :=
  if bool_decide (m_Namespace (meta r) = "") then DefaultNamespace
  else m_Namespace (meta r).

(** [if namespace != "" && ns != namespace { continue }]. *)
Definition ns_match (namespace : string) (r : R) : bool :=
  bool_decide (namespace = "") || bool_decide (ns_of r = namespace).
End bodies.

(** ** Methods *)

Section methods.
Context `{MapRange}.

Definition CreateDevnet (devnet : Devnet) (m : MemoryStore)
    : option error * Devnet * MemoryStore :=
  let '(e, d, t) := create_in
    (λ d, memoryDevnetKey (m_Namespace (d_Metadata d)) (m_Name (d_Metadata d)))
    devnet (ms_devnets m) in
  (e, d, m <| ms_devnets := t |>).

Definition GetDevnet (namespace name : string) (m : MemoryStore) : result Devnet :=
  let namespace := if bool_decide (namespace = "") then DefaultNamespace else namespace in
  get_in (memoryDevnetKey namespace name) (ms_devnets m).

Definition UpdateDevnet (devnet : Devnet) (m : MemoryStore)
    : option error * Devnet * MemoryStore :=
  let '(e, d, t) := update_in
    (λ d, memoryDevnetKey (m_Namespace (d_Metadata d)) (m_Name (d_Metadata d)))
    devnet (ms_devnets m) in
  (e, d, m <| ms_devnets := t |>).

Definition DeleteDevnet (namespace name : string) (m : MemoryStore)
    : option error * MemoryStore :=
  let namespace := if bool_decide (namespace = "") then DefaultNamespace else namespace in
  let '(e, t) := delete_in (memoryDevnetKey namespace name) (ms_devnets m) in
  (e, m <| ms_devnets := t |>).

Definition ListDevnets (namespace : string) (m : MemoryStore) : result (list Devnet) :=
  Ok (filter (λ d, ns_match namespace d) (range (ms_devnets m)).*2).

(** A Go set of strings, ranged over and sorted. *)
Definition ListNamespaces (m : MemoryStore) : result (list string) :=
  let namespaceSet : gmap string unit :=
    list_to_map ((λ d, (ns_of d, tt)) <$> (range (ms_devnets m)).*2) in
  Ok (sort_strings (range namespaceSet).*1).

Definition CreateNode (node : Node) (m : MemoryStore)
    : option error * Node * MemoryStore :=
  let '(e, n, t) := create_in
    (λ n, memoryNodeKey (m_Namespace (n_Metadata n)) (ns_DevnetRef (n_Spec n))
            (ns_Index (n_Spec n)))
    node (ms_nodes m) in
  (e, n, m <| ms_nodes := t |>).

Definition GetNode (namespace devnetName : string) (index : Z) (m : MemoryStore)
    : result Node :=
  let namespace := if bool_decide (namespace = "") then DefaultNamespace else namespace in
  get_in (memoryNodeKey namespace devnetName index) (ms_nodes m).

Definition UpdateNode (node : Node) (m : MemoryStore)
    : option error * Node * MemoryStore :=
  let '(e, n, t) := update_in
    (λ n, memoryNodeKey (m_Namespace (n_Metadata n)) (ns_DevnetRef (n_Spec n))
            (ns_Index (n_Spec n)))
    node (ms_nodes m) in
  (e, n, m <| ms_nodes := t |>).

Definition DeleteNode (namespace devnetName : string) (index : Z) (m : MemoryStore)
    : option error * MemoryStore :=
  let namespace := if bool_decide (namespace = "") then DefaultNamespace else namespace in
  let '(e, t) := delete_in (memoryNodeKey namespace devnetName index) (ms_nodes m) in
  (e, m <| ms_nodes := t |>).

(** The nodes of one devnet, by namespace and devnet reference. *)
Definition node_of (namespace devnetName : string) (n : Node) : bool :=
  bool_decide (ns_of n = namespace) && bool_decide (ns_DevnetRef (n_Spec n) = devnetName).

Definition ListNodes (namespace devnetName : string) (m : MemoryStore)
    : result (list Node) :=
  let namespace := if bool_decide (namespace = "") then DefaultNamespace else namespace in
  Ok (filter (λ n, node_of namespace devnetName n) (range (ms_nodes m)).*2).

(** Deleting from a map while ranging over it. *)
Definition DeleteNodesByDevnet (namespace devnetName : string) (m : MemoryStore)
    : option error * MemoryStore :=
  let namespace := if bool_decide (namespace = "") then DefaultNamespace else namespace in
  let t := foldl (λ t '(k, n),
      if node_of namespace devnetName n then delete k t else t)
    (ms_nodes m) (range (ms_nodes m)) in
  (None, m <| ms_nodes := t |>).

Definition CreateUpgrade (upgrade : Upgrade) (m : MemoryStore)
    : option error * Upgrade * MemoryStore :=
  let '(e, u, t) := create_in
    (λ u, memoryUpgradeKey (m_Namespace (u_Metadata u)) (m_Name (u_Metadata u)))
    upgrade (ms_upgrades m) in
  (e, u, m <| ms_upgrades := t |>).

Definition GetUpgrade (namespace name : string) (m : MemoryStore) : result Upgrade :=
  let namespace := if bool_decide (namespace = "") then DefaultNamespace else namespace in
  get_in (memoryUpgradeKey namespace name) (ms_upgrades m).

Definition UpdateUpgrade (upgrade : Upgrade) (m : MemoryStore)
    : option error * Upgrade * MemoryStore :=
  let '(e, u, t) := update_in
    (λ u, memoryUpgradeKey (m_Namespace (u_Metadata u)) (m_Name (u_Metadata u)))
    upgrade (ms_upgrades m) in
  (e, u, m <| ms_upgrades := t |>).

Definition DeleteUpgrade (namespace name : string) (m : MemoryStore)
    : option error * MemoryStore :=
  let namespace := if bool_decide (namespace = "") then DefaultNamespace else namespace in
  let '(e, t) := delete_in (memoryUpgradeKey namespace name) (ms_upgrades m) in
  (e, m <| ms_upgrades := t |>).

Definition ListUpgrades (namespace devnetName : string) (m : MemoryStore)
    : result (list Upgrade) :=
  Ok (filter (λ u, ns_match namespace u &&
                   (bool_decide (devnetName = "") ||
                    bool_decide (us_DevnetRef (u_Spec u) = devnetName)))
        (range (ms_upgrades m)).*2).

Definition DeleteUpgradesByDevnet (namespace devnetName : string) (m : MemoryStore)
    : option error * MemoryStore :=
  let namespace := if bool_decide (namespace = "") then DefaultNamespace else namespace in
  let t := foldl (λ t '(k, u),
      if bool_decide (ns_of u = namespace) &&
         bool_decide (us_DevnetRef (u_Spec u) = devnetName)
      then delete k t else t)
    (ms_upgrades m) (range (ms_upgrades m)) in
  (None, m <| ms_upgrades := t |>).

Definition CreateTransaction (tx : Transaction) (m : MemoryStore)
    : option error * Transaction * MemoryStore :=
  let '(e, x, t) := create_in (λ x, m_Name (t_Metadata x)) tx (ms_transactions m) in
  (e, x, m <| ms_transactions := t |>).

Definition GetTransaction (id : string) (m : MemoryStore) : result Transaction :=
  get_in id (ms_transactions m).

Definition UpdateTransaction (tx : Transaction) (m : MemoryStore)
    : option error * Transaction * MemoryStore :=
  let '(e, x, t) := update_in (λ x, m_Name (t_Metadata x)) tx (ms_transactions m) in
  (e, x, m <| ms_transactions := t |>).

(** The filters of [ListTransactions], each a [continue]. *)
Definition tx_match (namespace devnetName : string) (opts : ListTxOptions)
    (tx : Transaction) : bool :=
  ns_match namespace tx &&
  (bool_decide (devnetName = "") || bool_decide (ts_DevnetRef (t_Spec tx) = devnetName)) &&
  (bool_decide (lo_TxType opts = "") || bool_decide (ts_TxType (t_Spec tx) = lo_TxType opts)) &&
  (bool_decide (lo_Phase opts = "") || bool_decide (tst_Phase (t_Status tx) = lo_Phase opts)).

(** The loop of [ListTransactions]: append, then break at the limit. *)
Fixpoint list_txs (p : Transaction → bool) (limit : Z) (txs res : list Transaction)
    : list Transaction :=
  match txs with
  | [] => res
  | tx :: txs =>
      if p tx then
        let res := res ++ [tx] in
        if bool_decide (0 < limit)%Z && bool_decide (limit ≤ Z.of_nat (length res))%Z
        then res else list_txs p limit txs res
      else list_txs p limit txs res
  end.

Definition ListTransactions (namespace devnetName : string) (opts : ListTxOptions)
    (m : MemoryStore) : result (list Transaction) :=
  Ok (list_txs (tx_match namespace devnetName opts) (lo_Limit opts)
        (range (ms_transactions m)).*2 []).

(** [var _ Store = ( *MemoryStore)(nil)]; no method reads the clock. *)
#[export] Instance MemoryStore_Store : Store MemoryStore := {|
  Store.CreateDevnet _ := CreateDevnet;
  Store.GetDevnet := GetDevnet;
  Store.UpdateDevnet _ := UpdateDevnet;
  Store.DeleteDevnet := DeleteDevnet;
  Store.ListDevnets := ListDevnets;
  Store.ListNamespaces := ListNamespaces;
  Store.CreateNode _ := CreateNode;
  Store.GetNode := GetNode;
  Store.UpdateNode _ := UpdateNode;
  Store.DeleteNode := DeleteNode;
  Store.ListNodes := ListNodes;
  Store.DeleteNodesByDevnet := DeleteNodesByDevnet;
  Store.CreateUpgrade _ := CreateUpgrade;
  Store.GetUpgrade := GetUpgrade;
  Store.UpdateUpgrade _ := UpdateUpgrade;
  Store.DeleteUpgrade := DeleteUpgrade;
  Store.ListUpgrades := ListUpgrades;
  Store.DeleteUpgradesByDevnet := DeleteUpgradesByDevnet;
  Store.CreateTransaction _ := CreateTransaction;
  Store.GetTransaction := GetTransaction;
  Store.UpdateTransaction _ := UpdateTransaction;
  Store.ListTransactions := ListTransactions
|}.
End methods.

(** ** The keys are those of the interface *)

Lemma memory_devnet_key d :
  memoryDevnetKey (m_Namespace (d_Metadata d)) (m_Name (d_Metadata d)) = devnet_id d.
Proof. done. Qed.

Lemma memory_node_key n :
  memoryNodeKey (m_Namespace (n_Metadata n)) (ns_DevnetRef (n_Spec n)) (ns_Index (n_Spec n))
  = node_id n.
Proof. done. Qed.

Lemma ns_of_or_default `{Resource R} (r : R) : ns_of r = or_default (m_Namespace (meta r)).
Proof. done. Qed.

(** ** Lemmas on the shared bodies *)

Section body_lemmas.
Context {R : Type} `{ResourceLaws R} (key : R → string) `{!KeyOf R key}.
Implicit Types (r : R) (m : gmap string R).

Lemma key_ensure r : key (ensure_ns r) = key r.
Proof. apply key_same, same_ensure. Qed.

Lemma mem_get_in_spec m k : get_spec m k (get_in k m).
Proof. unfold get_spec, get_in. destruct (m !! k); [done|]. by exists ErrNotFound. Qed.

Lemma create_in_eq r m :
  create_in key r m =
    (match m !! key r with Some _ => Some ErrAlreadyExists | None => None end,
     ensure_ns r,
     match m !! key r with Some _ => m | None => <[key r := ensure_ns r]> m end).
Proof. unfold create_in. rewrite key_ensure. by destruct (m !! key r). Qed.

Lemma update_in_eq r m :
  update_in key r m =
    (match m !! key r with Some _ => None | None => Some ErrNotFound end,
     ensure_ns r,
     match m !! key r with Some _ => <[key r := ensure_ns r]> m | None => m end).
Proof. unfold update_in. rewrite key_ensure. by destruct (m !! key r). Qed.

(** Every entry sits under its own key. *)
Definition keyed (m : gmap string R) : Prop := map_Forall (λ k r, k = key r) m.

Lemma keyed_empty : keyed ∅.
Proof. apply map_Forall_empty. Qed.

Lemma keyed_insert r m : keyed m → keyed (<[key r := ensure_ns r]> m).
Proof. intros Hm. apply map_Forall_insert_2; [|done]. by rewrite key_ensure. Qed.

Lemma keyed_update r m : keyed m → keyed (update_in key r m).2.
Proof. rewrite update_in_eq. destruct (m !! key r); simpl; auto using keyed_insert. Qed.

Lemma keyed_create r m : keyed m → keyed (create_in key r m).2.
Proof. rewrite create_in_eq. destruct (m !! key r); simpl; auto using keyed_insert. Qed.

Lemma keyed_delete k m : keyed m → keyed (delete k m).
Proof. intros Hm. by apply map_Forall_delete. Qed.

End body_lemmas.

Section fold_delete.
Context {R : Type}.
Implicit Types (r : R) (m : gmap string R).

(** Deleting, in any order, the entries that satisfy [p]. *)
Lemma fold_delete (p : R → bool) (l : list (string * R)) m k r :
  (∀ k r, (k, r) ∈ l → m !! k = Some r) →
  foldl (λ t '(k, r), if p r then delete k t else t) m l !! k = Some r ↔
    m !! k = Some r ∧ ¬ ((k, r) ∈ l ∧ p r = true).
Proof.
  intros Hl. induction l as [|[k' r'] l IH] using rev_ind; [set_solver|].
  rewrite foldl_snoc.
  assert (Hr' : m !! k' = Some r') by (apply Hl; set_solver).
  specialize (IH ltac:(set_solver)).
  rewrite elem_of_app, list_elem_of_singleton.
  destruct (p r') eqn:Hp; [rewrite lookup_delete_Some|]; rewrite IH; clear IH.
  - naive_solver.
  - split; [|naive_solver]. intros [? Hn]. split; [done|].
    intros [[?|[= -> ->]] ?]; [naive_solver|congruence].
Qed.

Lemma fold_delete_range `{MapRange} (p : R → bool) m :
  foldl (λ t '(k, r), if p r then delete k t else t) m (range m) =
  filter (λ '(_, r), p r = false) m.
Proof.
  apply map_eq. intros k. apply option_eq. intros r.
  rewrite fold_delete by (intros; by apply elem_of_range).
  rewrite map_lookup_filter_Some, elem_of_range. destruct (p r); naive_solver.
Qed.
End fold_delete.

(** ** The memory store implements the interface *)

Definition mem_view (m : MemoryStore) : view :=
  mkView (ms_devnets m) (ms_nodes m) (ms_upgrades m) (ms_transactions m).

Definition mem_wf (m : MemoryStore) : Prop :=
  keyed devnet_id (ms_devnets m) ∧ keyed node_id (ms_nodes m) ∧
  keyed upgrade_id (ms_upgrades m) ∧ keyed tx_id (ms_transactions m).

Lemma mem_update_spec {R} `{ResourceLaws R} (key : R → string) `{!KeyOf R key}
    (r : R) (m : gmap string R) e r' m' :
  update_in key r m = (e, r', m') →
  match e with
  | None => same r r' ∧ is_Some (m !! key r) ∧ m' = <[key r := r']> m
  | Some _ => m' = m
  end.
Proof.
  rewrite (update_in_eq key). destruct (m !! key r) eqn:Hk; intros [= <- <- <-]; simpl.
  - split_and!; [apply same_ensure|eauto|done].
  - done.
Qed.

Ltac mem_update key :=
  intros now r s e r' s' _ E; unfold Store.UpdateDevnet, Store.UpdateNode,
    Store.UpdateUpgrade, Store.UpdateTransaction in E; simpl in E;
  unfold UpdateDevnet, UpdateNode, UpdateUpgrade, UpdateTransaction in E;
  destruct (update_in _ _ _) as [[e0 r0] m0] eqn:U;
  apply (mem_update_spec key) in U;
  simplify_eq; destruct e; simpl in *; [by subst; destruct s|];
  destruct U as (? & ? & ->); split_and!; done.

Ltac mem_update_wf key field :=
  intros now r s (? & ? & ? & ?);
  pose proof (keyed_update key r (field s) ltac:(done)) as Hk;
  unfold Store.UpdateDevnet, Store.UpdateNode, Store.UpdateUpgrade,
    Store.UpdateTransaction; simpl;
  unfold UpdateDevnet, UpdateNode, UpdateUpgrade, UpdateTransaction;
  change (update_in _ r (field s)) with (update_in key r (field s));
  destruct (update_in key r (field s)) as [[??]?]; by split_and!.

#[export] Program Instance MemoryStore_spec `{MapRange} : StoreSpec MemoryStore := {|
  store_wf := mem_wf;
  store_view := mem_view
|}.
Next Obligation. intros ? ns n s _. rewrite <- qualified_default. apply mem_get_in_spec. Qed.
Next Obligation. intros ? ns d i s _. rewrite <- node_key_default. apply mem_get_in_spec. Qed.
Next Obligation. intros ? ns n s _. rewrite <- qualified_default. apply mem_get_in_spec. Qed.
Next Obligation. intros ? n s _. apply mem_get_in_spec. Qed.
Next Obligation. intros ?. mem_update devnet_id. Qed.
Next Obligation. intros ?. mem_update node_id. Qed.
Next Obligation. intros ?. mem_update upgrade_id. Qed.
Next Obligation. intros ?. mem_update tx_id. Qed.
Next Obligation. intros ?. mem_update_wf devnet_id ms_devnets. Qed.
Next Obligation. intros ?. mem_update_wf node_id ms_nodes. Qed.
Next Obligation. intros ?. mem_update_wf upgrade_id ms_upgrades. Qed.
Next Obligation. intros ?. mem_update_wf tx_id ms_transactions. Qed.
Next Obligation. intros ? s Hs. exact Hs. Qed.
Next Obligation.
  intros ? ns d s nodes (_ & Hn & _) [= <-] n.
  change (if bool_decide (ns = "") then DefaultNamespace else ns) with (or_default ns).
  rewrite list_elem_of_filter, elem_of_range_values. unfold node_of.
  change (ns_of n) with (or_default (m_Namespace (n_Metadata n))).
  rewrite andb_True, !bool_decide_spec. split; [|by eauto].
  intros (_ & k & Hk). by destruct (Hn _ _ Hk).
Qed.
Next Obligation.
  intros ? now d s. unfold Store.UpdateDevnet. simpl. unfold UpdateDevnet, update_in.
  pose proof (same_ensure d). by destruct (_ !! _).
Qed.

Ltac mem_live key :=
  intros now r old s _ Hl _;
  unfold Store.UpdateDevnet, Store.UpdateNode, Store.UpdateUpgrade; simpl;
  unfold UpdateDevnet, UpdateNode, UpdateUpgrade;
  match goal with
  | |- context [update_in _ r ?t] =>
      change (update_in _ r t) with (update_in key r t); rewrite (update_in_eq key)
  end; simpl in *; by rewrite Hl.

#[export] Program Instance MemoryStore_live `{MapRange} : StoreLive MemoryStore.
Next Obligation. intros ?. mem_live devnet_id. Qed.
Next Obligation. intros ?. mem_live node_id. Qed.
Next Obligation. intros ?. mem_live upgrade_id. Qed.
Next Obligation.
  intros ? now r old s _ Hl _. unfold Store.UpdateTransaction. simpl. unfold UpdateTransaction.
  change (update_in _ r ?t) with (update_in tx_id r t). rewrite (update_in_eq tx_id).
  simpl in *. by rewrite Hl.
Qed.

(** *** Creation and deletion *)

Ltac mem_create key field :=
  intros now r s Hs; pose proof Hs as (? & ? & ? & ?); pose proof (same_ensure r);
  pose proof (keyed_create key r (field s) ltac:(done)) as Hk;
  unfold Store.CreateDevnet, Store.CreateNode, Store.CreateUpgrade; simpl;
  unfold CreateDevnet, CreateNode, CreateUpgrade;
  change (create_in _ r (field s)) with (create_in key r (field s));
  rewrite (create_in_eq key) in *; simpl in *;
  destruct (field s !! key r) eqn:Hl; simpl in *;
  split_and!; try done; by destruct s.

Lemma keyed_delete_in {R} `{ResourceLaws R} (key : R → string) k (m : gmap string R) :
  keyed key m → keyed key (delete_in k m).2.
Proof. unfold delete_in. destruct (m !! k); [apply keyed_delete|done]. Qed.

Ltac mem_delete key field :=
  intros ns n s Hs; pose proof Hs as (? & ? & ? & ?);
  unfold Store.DeleteDevnet, Store.DeleteUpgrade; simpl;
  unfold DeleteDevnet, DeleteUpgrade; cbv zeta;
  change (if bool_decide (ns = "") then DefaultNamespace else ns) with (or_default ns);
  lazymatch goal with
  | |- context [delete_in ?k (field s)] => change k with (qualified (or_default ns) n)
  end;
  rewrite qualified_default;
  pose proof (keyed_delete_in key (qualified ns n) (field s) ltac:(done)) as Hk;
  unfold delete_in in *; destruct (field s !! _) eqn:Hl; simpl in *;
  split_and!; try done; by destruct s.

Lemma mem_cascade {R} `{ResourceLaws R} (key : R → string) `{MapRange}
    (p : R → bool) (belongs clear : R → Prop) (m : gmap string R) :
  keyed key m → (∀ r, belongs r → p r = true) → (∀ r, clear r → p r = false) →
  let m' := foldl (λ t '(k, r), if p r then delete k t else t) m (range m) in
  keyed key m' ∧ m' ⊆ m ∧
  ∀ k r, m !! k = Some r → (belongs r → m' !! k = None) ∧ (clear r → m' !! k = Some r).
Proof.
  intros Hk Hb Hc. cbv zeta. rewrite fold_delete_range. split_and!.
  - intros k r [Hr _]%map_lookup_filter_Some. by apply Hk.
  - apply map_filter_subseteq.
  - intros k r Hr. split.
    + intros Hr'. apply map_lookup_filter_None. right. intros ? ? Hf.
      simplify_eq. by rewrite Hb in Hf.
    + intros Hr'. apply map_lookup_filter_Some. auto.
Qed.

#[export] Program Instance MemoryStore_changes `{MapRange} : StoreChanges MemoryStore.
Next Obligation. intros ?. mem_create devnet_id ms_devnets. Qed.
Next Obligation. intros ?. mem_create node_id ms_nodes. Qed.
Next Obligation. intros ?. mem_create upgrade_id ms_upgrades. Qed.
Next Obligation. intros ?. mem_delete devnet_id ms_devnets. Qed.
Next Obligation. intros ?. mem_delete upgrade_id ms_upgrades. Qed.
Next Obligation.
  intros ? ns d s (? & Hs & ? & ?).
  change (Store.DeleteNodesByDevnet ns d s) with (DeleteNodesByDevnet ns d s).
  unfold DeleteNodesByDevnet.
  change (if bool_decide (ns = "") then DefaultNamespace else ns) with (or_default ns).
  destruct (mem_cascade node_id (node_of (or_default ns) d) (node_belongs ns d)
              (node_clear ns d) (ms_nodes s) Hs) as (Hk & Hsub & Hall).
  - intros n [Hn Hd]. unfold node_of. change (ns_of n) with (or_default (m_Namespace (n_Metadata n))).
    by rewrite !bool_decide_true.
  - intros n (_ & _ & _ & _ & Hn). unfold node_of.
    change (ns_of n) with (or_default (m_Namespace (n_Metadata n))).
    apply andb_false_iff. unfold node_belongs in Hn.
    destruct (decide (or_default (m_Namespace (n_Metadata n)) = or_default ns));
      [right|left]; apply bool_decide_eq_false; tauto.
  - split; [by split_and!|]. eexists. split; [by destruct s|]. done.
Qed.
Next Obligation.
  intros ? ns d s (? & ? & Hs & ?).
  change (Store.DeleteUpgradesByDevnet ns d s) with (DeleteUpgradesByDevnet ns d s).
  unfold DeleteUpgradesByDevnet.
  change (if bool_decide (ns = "") then DefaultNamespace else ns) with (or_default ns).
  destruct (mem_cascade upgrade_id (λ u, bool_decide (ns_of u = or_default ns) &&
              bool_decide (us_DevnetRef (u_Spec u) = d)) (upgrade_belongs ns d)
              (λ u, ¬ upgrade_belongs ns d u) (ms_upgrades s) Hs) as (Hk & Hsub & Hall).
  - intros n [Hn Hd]. change (ns_of n) with (or_default (m_Namespace (u_Metadata n))).
    by rewrite !bool_decide_true.
  - intros n Hn. change (ns_of n) with (or_default (m_Namespace (u_Metadata n))).
    apply andb_false_iff. unfold upgrade_belongs in Hn.
    destruct (decide (or_default (m_Namespace (u_Metadata n)) = or_default ns));
      [right|left]; apply bool_decide_eq_false; tauto.
  - split; [by split_and!|]. eexists. split; [by destruct s|]. done.
Qed.
Next Obligation. intros ? ns d s _. by eexists. Qed.
Next Obligation.
  intros ? ns d s nodes (_ & Hk & _) [= <-]. apply NoDup_fmap_filter.
  rewrite <- list_fmap_compose.
  assert (E : node_id ∘ snd <$> range (ms_nodes s) = fst <$> range (ms_nodes s)).
  { apply list_fmap_ext. intros i [k n] Hin%list_elem_of_lookup_2%elem_of_range.
    symmetry. by apply Hk. }
  rewrite E, range_perm. apply NoDup_fst_map_to_list.
Qed.

#[export] Instance MemoryStore_creates `{MapRange} : StoreCreates MemoryStore.
Proof.
  split. intros now n s _ Hl. unfold Store.CreateNode. simpl. unfold CreateNode.
  change (create_in _ n (ms_nodes s)) with (create_in node_id n (ms_nodes s)).
  rewrite (create_in_eq node_id). simpl in *. by rewrite Hl.
Qed.

(** ** The devnet collection as a map keyed by (namespace, name) *)

(** One call on the devnet collection, and what it answers. *)
Inductive devnet_op :=
| OpCreate (d : Devnet)
| OpGet (namespace name : string)
| OpUpdate (d : Devnet)
| OpDelete (namespace name : string).

Definition mem_step (op : devnet_op) (m : MemoryStore)
    : result (option Devnet) * MemoryStore :=
  let answer (e : option error) := match e with Some e => Err e | None => Ok None end in
  match op with
  | OpCreate d => let '(e, _, m) := CreateDevnet d m in (answer e, m)
  | OpGet ns n => (result_map Some (GetDevnet ns n m), m)
  | OpUpdate d => let '(e, _, m) := UpdateDevnet d m in (answer e, m)
  | OpDelete ns n => let '(e, m) := DeleteDevnet ns n m in (answer e, m)
  end.

(** The abstract machine: a finite map over pairs. *)
Definition devnet_pair (d : Devnet) : string * string :=
  (or_default (m_Namespace (d_Metadata d)), m_Name (d_Metadata d)).

Definition spec_step (op : devnet_op) (a : gmap (string * string) Devnet)
    : result (option Devnet) * gmap (string * string) Devnet :=
  match op with
  | OpCreate d =>
      match a !! devnet_pair d with
      | Some _ => (Err ErrAlreadyExists, a)
      | None => (Ok None, <[devnet_pair d := ensure_ns d]> a)
      end
  | OpGet ns n =>
      match a !! (or_default ns, n) with
      | Some d => (Ok (Some d), a)
      | None => (Err ErrNotFound, a)
      end
  | OpUpdate d =>
      match a !! devnet_pair d with
      | Some _ => (Ok None, <[devnet_pair d := ensure_ns d]> a)
      | None => (Err ErrNotFound, a)
      end
  | OpDelete ns n =>
      match a !! (or_default ns, n) with
      | Some _ => (Ok None, delete (or_default ns, n) a)
      | None => (Err ErrNotFound, a)
      end
  end.

Fixpoint run_ops {A S} (step : devnet_op → S → A * S) (ops : list devnet_op) (s : S)
    : list A * S :=
  match ops with
  | [] => ([], s)
  | op :: ops =>
      let '(a, s) := step op s in
      let '(l, s) := run_ops step ops s in (a :: l, s)
  end.

(** Namespaces are path components: they hold no slash. *)
Definition op_namespace (op : devnet_op) : string :=
  match op with
  | OpCreate d | OpUpdate d => m_Namespace (d_Metadata d)
  | OpGet ns _ | OpDelete ns _ => ns
  end.
Definition op_ok (op : devnet_op) : Prop := has_char slash (op_namespace op) = false.

Definition devnets_rel (m : MemoryStore) (a : gmap (string * string) Devnet) : Prop :=
  ∀ ns n, has_char slash ns = false →
    ms_devnets m !! qualified ns n = a !! (or_default ns, n).

Lemma devnets_rel_insert m a ns n d :
  has_char slash ns = false → devnets_rel m a →
  devnets_rel (m <| ms_devnets := <[qualified ns n := d]> (ms_devnets m) |>)
    (<[(or_default ns, n) := d]> a).
Proof.
  intros Hns Hrel ns' n' Hns'. simpl. rewrite !lookup_insert.
  destruct (decide (qualified ns n = qualified ns' n')) as [E|E].
  - apply qualified_inj in E as [-> ->]; [|done..]. by rewrite decide_True.
  - rewrite Hrel by done. rewrite decide_False; [done|].
    intros [= Ho ->]. apply E. by rewrite <- (qualified_default ns), Ho, qualified_default.
Qed.

Lemma devnets_rel_delete m a ns n :
  has_char slash ns = false → devnets_rel m a →
  devnets_rel (m <| ms_devnets := delete (qualified ns n) (ms_devnets m) |>)
    (delete (or_default ns, n) a).
Proof.
  intros Hns Hrel ns' n' Hns'. simpl. rewrite !lookup_delete.
  destruct (decide (qualified ns n = qualified ns' n')) as [E|E].
  - apply qualified_inj in E as [-> ->]; [|done..]. by rewrite decide_True.
  - rewrite Hrel by done. rewrite decide_False; [done|].
    intros [= Ho ->]. apply E. by rewrite <- (qualified_default ns), Ho, qualified_default.
Qed.

Lemma mem_step_refines op m a :
  op_ok op → devnets_rel m a →
  (mem_step op m).1 = (spec_step op a).1 ∧
  devnets_rel (mem_step op m).2 (spec_step op a).2.
Proof.
  intros Hop Hrel. destruct op as [d|ns n|d|ns n]; simpl in *.
  - unfold CreateDevnet. change (create_in _ d ?t) with (create_in devnet_id d t).
    rewrite (create_in_eq devnet_id). cbn.
    rewrite (Hrel _ (m_Name (d_Metadata d)) Hop : ms_devnets m !! devnet_id d = a !! devnet_pair d).
    destruct (a !! devnet_pair d); simpl; split; [done|exact Hrel|done|].
    by apply devnets_rel_insert.
  - unfold GetDevnet. change (memoryDevnetKey _ n) with (qualified (or_default ns) n).
    unfold get_in. rewrite qualified_default, Hrel by done.
    by destruct (a !! _).
  - unfold UpdateDevnet. change (update_in _ d ?t) with (update_in devnet_id d t).
    rewrite (update_in_eq devnet_id). cbn.
    rewrite (Hrel _ (m_Name (d_Metadata d)) Hop : ms_devnets m !! devnet_id d = a !! devnet_pair d).
    destruct (a !! devnet_pair d); simpl; split; [done| |done|exact Hrel].
    by apply devnets_rel_insert.
  - unfold DeleteDevnet. change (memoryDevnetKey _ n) with (qualified (or_default ns) n).
    unfold delete_in. rewrite qualified_default, Hrel by done.
    destruct (a !! _); simpl; split; [done| |done|exact Hrel].
    by apply devnets_rel_delete.
Qed.

(** ** Properties *)

(** C1: as long as namespaces hold no slash, every sequence of calls on the
    memory store's devnets, errors included, answers exactly like a finite map
    keyed by the pair (namespace, name), the empty namespace standing for
    [default]. *)
Theorem MemoryStore_devnets_refine ops :
  Forall op_ok ops →
  (run_ops mem_step ops NewMemoryStore).1 = (run_ops spec_step ops ∅).1.
Proof.
  intros Hops. assert (Hrel : devnets_rel NewMemoryStore ∅) by done.
  revert Hrel. generalize NewMemoryStore (∅ : gmap (string * string) Devnet).
  induction Hops as [|op ops Hop Hops IH]; intros m a Hrel; simpl; [done|].
  destruct (mem_step_refines op m a Hop Hrel) as [E Hrel'].
  destruct (mem_step op m) as [x m'], (spec_step op a) as [y a']; simpl in *; subst.
  specialize (IH _ _ Hrel').
  destruct (run_ops mem_step ops m'), (run_ops spec_step ops a'); simpl in *. by subst.
Qed.

Definition example_meta (ns name : string) : ResourceMeta :=
  mkResourceMeta name ns 0 0 0 ∅ ∅.
Definition example_spec : DevnetSpec :=
  mkDevnetSpec "stable" "cosmos" 2 1 "docker" (mkBinarySource "" "" "" "" "" "")
    "" "" "" "" "" (mkPortConfig 0 0 0 0) (mkResourceLimits "" "") ∅.
Definition example_status : DevnetStatus :=
  mkDevnetStatus "" 0 0 0 0 "" [] 0 [] [] "".
Definition example_devnet (ns name : string) : Devnet :=
  mkDevnet (example_meta ns name) example_spec example_status.

Lemma MemoryStore_devnets_refine_witness :
  let ops := [OpCreate (example_devnet "" "a"); OpCreate (example_devnet "default" "a");
              OpGet "" "a"; OpDelete "default" "a"; OpUpdate (example_devnet "" "a")] in
  (run_ops mem_step ops NewMemoryStore).1 = (run_ops spec_step ops ∅).1 ∧
  (run_ops mem_step ops NewMemoryStore).1 =
    [Ok None; Err ErrAlreadyExists; Ok (Some (example_devnet "default" "a")); Ok None;
     Err ErrNotFound].
Proof.
  split; [|by vm_compute]. apply MemoryStore_devnets_refine.
  repeat constructor.
Defined.

(** Cascading the deletion of a devnet to its nodes removes exactly the
    nodes of that namespace and devnet, whatever the order of the map's
    iteration; the devnet then has no node and nothing else changed. *)
Theorem DeleteNodesByDevnet_exact `{MapRange} ns d m :
  let '(e, m') := DeleteNodesByDevnet ns d m in
  e = None ∧ ListNodes ns d m' = Ok [] ∧
  (∀ k n, ms_nodes m' !! k = Some n ↔
     ms_nodes m !! k = Some n ∧
     ¬ (or_default (m_Namespace (n_Metadata n)) = or_default ns ∧
        ns_DevnetRef (n_Spec n) = d)) ∧
  ms_devnets m' = ms_devnets m ∧ ms_upgrades m' = ms_upgrades m ∧
  ms_transactions m' = ms_transactions m.
Proof.
  unfold DeleteNodesByDevnet, ListNodes.
  change (if bool_decide (ns = "") then DefaultNamespace else ns) with (or_default ns).
  rewrite fold_delete_range. cbn.
  assert (Hof : ∀ n, node_of (or_default ns) d n = true ↔
    or_default (m_Namespace (n_Metadata n)) = or_default ns ∧ ns_DevnetRef (n_Spec n) = d).
  { intros n. unfold node_of. by rewrite andb_true_iff, !bool_decide_eq_true. }
  split_and!; [done| | |done..].
  - f_equal. apply elem_of_nil_inv. intros n [Hp Hn]%list_elem_of_filter.
    apply elem_of_range_values in Hn as [k Hk].
    apply map_lookup_filter_Some in Hk as [_ Hk]. by rewrite Hk in Hp.
  - intros k n. rewrite map_lookup_filter_Some, <- Hof. destruct (node_of _ _ n); naive_solver.
Qed.

(** [ListNamespaces] returns the namespaces of the stored devnets, each
    once, in increasing order. *)
Theorem ListNamespaces_sorted_unique `{MapRange} m :
  ∃ l, ListNamespaces m = Ok l ∧ Sorted String.le l ∧ NoDup l ∧
    ∀ ns, ns ∈ l ↔
      ∃ k d, ms_devnets m !! k = Some d ∧ or_default (m_Namespace (d_Metadata d)) = ns.
Proof.
  unfold ListNamespaces, sort_strings. eexists. split; [done|].
  set (t := list_to_map _ : gmap string unit).
  assert (Hp : merge_sort String.le (range t).*1 ≡ₚ (map_to_list t).*1).
  { by rewrite merge_sort_Permutation, range_perm. }
  split_and!.
  - apply Sorted_merge_sort, _.
  - rewrite Hp. apply NoDup_fst_map_to_list.
  - intros ns. rewrite Hp, list_elem_of_fmap. split.
    + intros ([ns' []] & -> & Hin%elem_of_map_to_list).
      apply elem_of_list_to_map_2 in Hin.
      apply list_elem_of_fmap in Hin as (d & [= ->] & Hd).
      apply elem_of_range_values in Hd as [k Hk]. by exists k, d.
    + intros (k & d & Hk & Hns). exists (ns, ()). split; [done|].
      apply elem_of_map_to_list.
      destruct (t !! ns) as [[]|] eqn:E; [done|].
      apply not_elem_of_list_to_map in E. destruct E.
      apply list_elem_of_fmap. exists (ns, ()). split; [done|].
      apply list_elem_of_fmap. exists d. split; [by rewrite <- Hns|].
      apply elem_of_range_values. eauto.
Qed.

Lemma list_txs_take p limit txs res :
  list_txs p limit txs res =
    if bool_decide (0 < limit)%Z
    then (if bool_decide (Z.of_nat (length res) < limit)%Z
          then res ++ take (Z.to_nat limit - length res) (filter (λ t, p t) txs)
          else res ++ take 1 (filter (λ t, p t) txs))
    else res ++ filter (λ t, p t) txs.
Proof.
  revert res; induction txs as [|t txs IH]; intros res; simpl.
  - rewrite filter_nil, !take_nil. repeat case_bool_decide; by rewrite app_nil_r.
  - rewrite filter_cons. destruct (p t) eqn:Hp; simpl; [|by rewrite IH].
    destruct (decide (0 < limit)%Z) as [Hl|Hl].
    + rewrite !(bool_decide_true (0 < limit)%Z) by done. simpl.
      rewrite IH, !(bool_decide_true (0 < limit)%Z), !length_app by done. simpl.
      repeat case_bool_decide; try lia; rewrite <- ?(assoc_L app); simpl.
      * replace (Z.to_nat limit - length res) with 1 by lia. done.
      * done.
      * replace (Z.to_nat limit - length res)
          with (S (Z.to_nat limit - (length res + 1))) by lia. done.
    + rewrite !(bool_decide_false (0 < limit)%Z) by done. simpl.
      rewrite IH, !(bool_decide_false (0 < limit)%Z) by done.
      by rewrite <- (assoc_L app).
Qed.

(** [ListTransactions] returns the transactions that pass every filter, in
    the order of the iteration, all of them when no limit is given and the
    first [Limit] otherwise. *)
Theorem ListTransactions_limit `{MapRange} ns d opts m :
  let matching := filter (λ t, tx_match ns d opts t) (range (ms_transactions m)).*2 in
  ListTransactions ns d opts m =
    Ok (if bool_decide (0 < lo_Limit opts)%Z
        then take (Z.to_nat (lo_Limit opts)) matching else matching).
Proof.
  unfold ListTransactions. rewrite list_txs_take. simpl. f_equal.
  case_bool_decide; [|done]. by rewrite bool_decide_true, Nat.sub_0_r by lia.
Qed.
