(* ===== verification/BoltStore.v ===== *)
(** * The bbolt-backed store ([internal/daemon/store/bolt*.go])

    [BoltStore] keeps one bbolt bucket per resource.  bbolt is a third-party
    library: [KV] is the part of its bucket interface the store calls and
    [KVLaws] its documented behaviour (a bucket is a map iterated in byte
    order; [Put], [Delete] and the commit of a write transaction may fail, and
    then nothing is written).  [Codec] is [encoding/json] on a resource: it may
    refuse a value, and what it encodes it decodes back (strings are valid
    UTF-8 and raw payloads compact).  Watchers are handler identities; the
    goroutines [notify] spawns are recorded in [bo_spawned]. *)

From stdpp Require Import base tactics numbers list strings sorting gmap.
From S2P Require Import Prelude Types Store.

(** ** bbolt buckets *)

Class KV (B V : Type) := {
  kv_empty : B;
  kv_get : string → B → option V;
  kv_put : string → V → B → result B;
  kv_delete : string → B → result B;
  kv_items : B → list (string * V);
  kv_commit : B → option error
}.

Class KVLaws (B V : Type) `{KV B V} := {
  kv_get_empty : ∀ k, kv_get k kv_empty = None;
  kv_get_put : ∀ k v b b' k', kv_put k v b = Ok b' →
    kv_get k' b' = if decide (k' = k) then Some v else kv_get k' b;
  kv_get_delete : ∀ k b b' k', kv_delete k b = Ok b' →
    kv_get k' b' = if decide (k' = k) then None else kv_get k' b;
  kv_items_get : ∀ b k v, (k, v) ∈ kv_items b ↔ kv_get k b = Some v;
  kv_items_sorted : ∀ b, StronglySorted (λ x y, String.le x y ∧ x ≠ y) (kv_items b).*1
}.

(** ** State *)

(** What a watch handler receives. *)
Inductive any_resource :=
| RDevnet (d : Devnet)
| RNode (n : Node)
| RUpgrade (u : Upgrade)
| RTransaction (t : Transaction).

Record BoltStore {B : Type} := mkBoltStore {
  bo_devnets : B;
  bo_nodes : B;
  bo_upgrades : B;
  bo_transactions : option B;
  bo_meta : B;
  bo_watchers : gmap string (list nat);
  bo_spawned : list (nat * string * any_resource)
}.
Arguments BoltStore B : clear implicits.
Arguments mkBoltStore {B}.

#[export] Instance eta_BoltStore {B} : Settable (BoltStore B) := mkSettable (λ x,
  mkBoltStore (bo_devnets x) (bo_nodes x) (bo_upgrades x) (bo_transactions x)
    (bo_meta x) (bo_watchers x) (bo_spawned x)).

(** [devnetKey], [upgradeKey] and [boltNodeKey]. *)
Definition devnetKey (namespace name : string) : string :=
  let namespace := if bool_decide (namespace = "") then DefaultNamespace else namespace in
  namespace +:+ "/" +:+ name.

Definition upgradeKey (namespace name : string) : string :=
  let namespace := if bool_decide (namespace = "") then DefaultNamespace else namespace in
  namespace +:+ "/" +:+ name.

Definition boltNodeKey (namespace devnetName : string) (index : Z) : string :=
  let namespace := if bool_decide (namespace = "") then DefaultNamespace else namespace in
  (namespace +:+ "/" +:+ devnetName) +:+ "/" +:+ itoa index.

Definition nodeKeyPrefix (namespace devnetName : string) : string :=
  let namespace := if bool_decide (namespace = "") then DefaultNamespace else namespace in
  (namespace +:+ "/" +:+ devnetName) +:+ "/".

(** [parseDevnetKey]: split at the first slash. *)
Definition parseDevnetKey (key : string) : string * string :=
  match split2 slash key with
  | [a; b] => (a, b)
  | _ => (DefaultNamespace, key)
  end.

Section bolt.
Context {B V : Type} `{KV B V}.
Context `{Codec V Devnet, Codec V Node, Codec V Upgrade, Codec V Transaction}.
Implicit Types (s : BoltStore B) (b : B).

(** [NewBoltStore] on a database whose buckets are [buckets]: each of the
    five buckets is created when it is missing. *)
Definition NewBoltStore (buckets : string → option B) : BoltStore B :=
  let bucket name := default kv_empty (buckets name) in
  {| bo_devnets := bucket "devnets"; bo_nodes := bucket "nodes";
     bo_upgrades := bucket "upgrades"; bo_transactions := Some (bucket "transactions");
     bo_meta := bucket "meta"; bo_watchers := ∅; bo_spawned := [] |}.

(** [notify]: one goroutine per handler registered for the type. *)
Definition notify (resourceType eventType : string) (x : any_resource) s : BoltStore B :=
  let handlers := default [] (bo_watchers s !! resourceType) in
  s <| bo_spawned := bo_spawned s ++ ((λ h, (h, eventType, x)) <$> handlers) |>.

(** ** The bodies the methods share

    [coll] names what differs between the three buckets written alike. *)
Record coll (R : Type) := mkColl {
  co_get : BoltStore B → B;
  co_set : B → BoltStore B → BoltStore B;
  co_type : string;      (* resource type of the notifications *)
  co_name : string;      (* resource name in error messages *)
  co_key : R → string;
  co_any : R → any_resource
}.
Arguments co_get {R}. Arguments co_set {R}. Arguments co_type {R}.
Arguments co_name {R}. Arguments co_key {R}. Arguments co_any {R}.

Definition devnet_coll : coll Devnet := {|
  co_get := bo_devnets; co_set b s := s <| bo_devnets := b |>;
  co_type := "devnets"; co_name := "devnet";
  co_key d := devnetKey (m_Namespace (d_Metadata d)) (m_Name (d_Metadata d));
  co_any := RDevnet |}.
Definition node_coll : coll Node := {|
  co_get := bo_nodes; co_set b s := s <| bo_nodes := b |>;
  co_type := "nodes"; co_name := "node";
  co_key n := boltNodeKey (m_Namespace (n_Metadata n)) (ns_DevnetRef (n_Spec n))
                (ns_Index (n_Spec n));
  co_any := RNode |}.
Definition upgrade_coll : coll Upgrade := {|
  co_get := bo_upgrades; co_set b s := s <| bo_upgrades := b |>;
  co_type := "upgrades"; co_name := "upgrade";
  co_key u := upgradeKey (m_Namespace (u_Metadata u)) (m_Name (u_Metadata u));
  co_any := RUpgrade |}.

(** The end of [db.Update]: commit, or roll the bucket back. *)
Definition commit {R} (c : coll R) b s : option error * BoltStore B :=
  match kv_commit b with
  | Some e => (Some e, s)
  | None => (None, co_set c b s)
  end.

Section resource.
Context {R : Type} `{Resource R, Codec V R} (c : coll R).

Definition create_in (now : Time) (r : R) s : option error * R * BoltStore B :=
  let r := ensure_ns r in
  let key := co_key c r in
  match kv_get key (co_get c s) with
  | Some _ => (Some (AlreadyExistsError (co_name c) key), r, s)
  | None =>
      let r := with_meta (meta r <| m_Generation := 1%Z |> <| m_CreatedAt := now |>
                            <| m_UpdatedAt := now |>) r in
      match encode r with
      | Err e => (Some (Wrap ("failed to encode " +:+ co_name c) e), r, s)
      | Ok data =>
          match kv_put key data (co_get c s) with
          | Err e => (Some (Wrap ("failed to store " +:+ co_name c) e), r, s)
          | Ok b =>
              let s := notify (co_type c) "ADDED" (co_any c r) s in
              let '(e, s) := commit c b s in (e, r, s)
          end
      end
  end.

Definition get_in (key : string) s : result R :=
  match kv_get key (co_get c s) with
  | None => Err (NotFoundError (co_name c) key)
  | Some data => decode data
  end.

Definition update_in (now : Time) (r : R) s : option error * R * BoltStore B :=
  let r := ensure_ns r in
  let key := co_key c r in
  match kv_get key (co_get c s) with
  | None => (Some (NotFoundError (co_name c) key), r, s)
  | Some existing =>
      match decode existing with
      | Err e => (Some (Wrap ("failed to decode existing " +:+ co_name c) e), r, s)
      | Ok old =>
          if bool_decide (m_Generation (meta (old : R)) ≠ m_Generation (meta r)) then
            (Some (ConflictError (co_name c) key
               ("generation mismatch: expected " +:+ itoa (m_Generation (meta old))
                 +:+ ", got " +:+ itoa (m_Generation (meta r)))), r, s)
          else
            let r := with_meta
              (meta r <| m_Generation := wrap64 (m_Generation (meta r) + 1) |>
                      <| m_UpdatedAt := now |>) r in
            match encode r with
            | Err e => (Some (Wrap ("failed to encode " +:+ co_name c) e), r, s)
            | Ok data =>
                match kv_put key data (co_get c s) with
                | Err e => (Some (Wrap ("failed to store " +:+ co_name c) e), r, s)
                | Ok b =>
                    let s := notify (co_type c) "MODIFIED" (co_any c r) s in
                    let '(e, s) := commit c b s in (e, r, s)
                end
            end
      end
  end.

Definition delete_in (key : string) s : option error * BoltStore B :=
  match kv_get key (co_get c s) with
  | None => (Some (NotFoundError (co_name c) key), s)
  | Some data =>
      match decode data with
      | Err e => (Some e, s)
      | Ok r =>
          match kv_delete key (co_get c s) with
          | Err e => (Some e, s)
          | Ok b =>
              match commit c b s with
              | (Some e, s) => (Some e, s)
              | (None, s) => (None, notify (co_type c) "DELETED" (co_any c r) s)
              end
          end
      end
  end.

(** Deleting the collected keys one by one; the first failure aborts. *)
Fixpoint delete_keys (keys : list string) b : result B :=
  match keys with
  | [] => Ok b
  | k :: keys =>
      match kv_delete k b with
      | Err e => Err (Wrap ("failed to delete " +:+ co_name c +:+ " " +:+ k) e)
      | Ok b => delete_keys keys b
      end
  end.

(** Cascade delete: drop [keys] in one transaction, then notify for each of
    the [deleted] resources. *)
Definition delete_all (keys : list string) (deleted : list R) s
    : option error * BoltStore B :=
  match delete_keys keys (co_get c s) with
  | Err e => (Some e, s)
  | Ok b =>
      match commit c b s with
      | (Some e, s) => (Some e, s)
      | (None, s) =>
          (None, foldl (λ s r, notify (co_type c) "DELETED" (co_any c r) s) s deleted)
      end
  end.
End resource.

(** The namespace a decoded resource is filtered by. *)
Definition ns_of `{Resource R} (r : R) : string :=
  if bool_decide (m_Namespace (meta r) = "") then DefaultNamespace
  else m_Namespace (meta r).

Definition ns_match `{Resource R} (namespace : string) (r : R) : bool :=
  bool_decide (namespace = "") || bool_decide (ns_of r = namespace).

(** [c.Seek(p)]: skip the keys below [p]. *)
Fixpoint seek (p : string) (items : list (string * V)) : list (string * V) :=
  match items with
  | [] => []
  | (k, v) :: rest => if bool_decide (String.le p k) then items else seek p rest
  end.

(** [for ; k != nil && bytes.HasPrefix(k, p); k, v = c.Next()]. *)
Fixpoint while_prefix (p : string) (items : list (string * V)) : list (string * V) :=
  match items with
  | [] => []
  | (k, v) :: rest => if has_prefix p k then (k, v) :: while_prefix p rest else []
  end.

(** ** Devnets ([bolt_devnet.go]) *)

Definition CreateDevnet := create_in devnet_coll.

Definition GetDevnet (namespace name : string) s : result Devnet :=
  let namespace := if bool_decide (namespace = "") then DefaultNamespace else namespace in
  get_in devnet_coll (devnetKey namespace name) s.

Definition UpdateDevnet := update_in devnet_coll.

Definition DeleteDevnet (namespace name : string) s : option error * BoltStore B :=
  let namespace := if bool_decide (namespace = "") then DefaultNamespace else namespace in
  delete_in devnet_coll (devnetKey namespace name) s.

Definition ListDevnets (namespace : string) s : result (list Devnet) :=
  try devnets := result_list (λ '(_, v), decode v) (kv_items (bo_devnets s)) in
  Ok (filter (λ d, ns_match namespace d) devnets).

Definition ListNamespaces `{MapRange} s : result (list string) :=
  let namespaceSet : gmap string unit :=
    list_to_map ((λ '(k, _), ((parseDevnetKey k).1, tt)) <$> kv_items (bo_devnets s)) in
  Ok (sort_strings (range namespaceSet).*1).

(** ** Nodes ([bolt_node.go]) *)

Definition CreateNode := create_in node_coll.

Definition GetNode (namespace devnetName : string) (index : Z) s : result Node :=
  let namespace := if bool_decide (namespace = "") then DefaultNamespace else namespace in
  get_in node_coll (boltNodeKey namespace devnetName index) s.

Definition UpdateNode := update_in node_coll.

Definition DeleteNode (namespace devnetName : string) (index : Z) s
    : option error * BoltStore B :=
  let namespace := if bool_decide (namespace = "") then DefaultNamespace else namespace in
  delete_in node_coll (boltNodeKey namespace devnetName index) s.

(** The keys and values under the prefix of a devnet's nodes. *)
Definition node_items (namespace devnetName : string) s : list (string * V) :=
  let namespace := if bool_decide (namespace = "") then DefaultNamespace else namespace in
  let prefix := nodeKeyPrefix namespace devnetName in
  while_prefix prefix (seek prefix (kv_items (bo_nodes s))).

Definition ListNodes (namespace devnetName : string) s : result (list Node) :=
  result_list (λ '(k, v),
      match decode v with
      | Ok n => Ok n
      | Err e => Err (Wrap ("failed to decode node " +:+ k) e)
      end)
    (node_items namespace devnetName s).

Definition DeleteNodesByDevnet (namespace devnetName : string) s
    : option error * BoltStore B :=
  let items := node_items namespace devnetName s in
  delete_all node_coll items.*1 (omap (λ '(_, v), ok_of (decode v)) items) s.

(** ** Upgrades ([bolt_upgrade.go]) *)

Definition CreateUpgrade := create_in upgrade_coll.

Definition GetUpgrade (namespace name : string) s : result Upgrade :=
  let namespace := if bool_decide (namespace = "") then DefaultNamespace else namespace in
  get_in upgrade_coll (upgradeKey namespace name) s.

Definition UpdateUpgrade := update_in upgrade_coll.

Definition ListUpgrades (namespace devnetName : string) s : result (list Upgrade) :=
  try upgrades := result_list (λ '(k, v),
      match decode v with
      | Ok u => Ok u
      | Err e => Err (Wrap ("failed to decode upgrade " +:+ k) e)
      end) (kv_items (bo_upgrades s)) in
  Ok (filter (λ u, ns_match namespace u &&
                   (bool_decide (devnetName = "") ||
                    bool_decide (us_DevnetRef (u_Spec u) = devnetName))) upgrades).

Definition DeleteUpgrade (namespace name : string) s : option error * BoltStore B :=
  let namespace := if bool_decide (namespace = "") then DefaultNamespace else namespace in
  delete_in upgrade_coll (upgradeKey namespace name) s.

(** The upgrades of a devnet with their keys; undecodable entries are skipped. *)
Definition upgrade_items (namespace devnetName : string) s : list (string * Upgrade) :=
  let namespace := if bool_decide (namespace = "") then DefaultNamespace else namespace in
  omap (λ '(k, v),
      u ← ok_of (decode v);
      if bool_decide (ns_of u = namespace) &&
         bool_decide (us_DevnetRef (u_Spec u) = devnetName)
      then Some (k, u) else None)
    (kv_items (bo_upgrades s)).

Definition DeleteUpgradesByDevnet (namespace devnetName : string) s
    : option error * BoltStore B :=
  let items := upgrade_items namespace devnetName s in
  delete_all upgrade_coll items.*1 items.*2 s.

(** ** Transactions ([bolt_transaction.go])

    These methods check that the bucket exists ([bo_transactions] is [None]
    when it does not), key by the bare name and neither read nor write the
    generation. *)

(** The end of [db.Update] on the transactions bucket. *)
Definition commit_tx b s : option error * BoltStore B :=
  match kv_commit b with
  | Some e => (Some e, s)
  | None => (None, s <| bo_transactions := Some b |>)
  end.

Definition CreateTransaction (tx : Transaction) s : option error * Transaction * BoltStore B :=
  match bo_transactions s with
  | None => (Some (Errorf "transactions bucket not found"), tx, s)
  | Some b =>
      let tx := ensure_ns tx in
      let key := m_Name (t_Metadata tx) in
      match kv_get key b with
      | Some _ => (Some ErrAlreadyExists, tx, s)
      | None =>
          match encode tx with
          | Err e => (Some e, tx, s)
          | Ok data =>
              match kv_put key data b with
              | Err e => (Some e, tx, s)
              | Ok b =>
                  let s := notify "transactions" "ADDED" (RTransaction tx) s in
                  let '(e, s) := commit_tx b s in (e, tx, s)
              end
          end
      end
  end.

Definition GetTransaction (name : string) s : result Transaction :=
  match bo_transactions s with
  | None => Err ErrNotFound
  | Some b =>
      match kv_get name b with
      | None => Err ErrNotFound
      | Some data => decode data
      end
  end.

Definition UpdateTransaction (tx : Transaction) s : option error * Transaction * BoltStore B :=
  match bo_transactions s with
  | None => (Some ErrNotFound, tx, s)
  | Some b =>
      let tx := ensure_ns tx in
      let key := m_Name (t_Metadata tx) in
      match kv_get key b with
      | None => (Some ErrNotFound, tx, s)
      | Some _ =>
          match encode tx with
          | Err e => (Some e, tx, s)
          | Ok data =>
              match kv_put key data b with
              | Err e => (Some e, tx, s)
              | Ok b =>
                  let s := notify "transactions" "MODIFIED" (RTransaction tx) s in
                  let '(e, s) := commit_tx b s in (e, tx, s)
              end
          end
      end
  end.

(** The filters of [ListTransactions]. *)
Definition tx_match (namespace devnetName : string) (opts : ListTxOptions)
    (tx : Transaction) : bool :=
  ns_match namespace tx &&
  (bool_decide (devnetName = "") || bool_decide (ts_DevnetRef (t_Spec tx) = devnetName)) &&
  (bool_decide (lo_TxType opts = "") || bool_decide (ts_TxType (t_Spec tx) = lo_TxType opts)) &&
  (bool_decide (lo_Phase opts = "") || bool_decide (tst_Phase (t_Status tx) = lo_Phase opts)).

(** [b.ForEach]: once the limit is reached the remaining entries are not
    even decoded. *)
Fixpoint list_txs (p : Transaction → bool) (limit : Z) (items : list (string * V))
    (txs : list Transaction) : result (list Transaction) :=
  match items with
  | [] => Ok txs
  | (_, v) :: items =>
      if bool_decide (0 < limit)%Z && bool_decide (limit ≤ Z.of_nat (length txs))%Z
      then list_txs p limit items txs
      else
        try tx := decode v in
        list_txs p limit items (if p tx then txs ++ [tx] else txs)
  end.

Definition ListTransactions (namespace devnetName : string) (opts : ListTxOptions) s
    : result (list Transaction) :=
  match bo_transactions s with
  | None => Ok []
  | Some b => list_txs (tx_match namespace devnetName opts) (lo_Limit opts) (kv_items b) []
  end.

(** The notification precedes the commit here. *)
Definition DeleteTransaction (name : string) s : option error * BoltStore B :=
  match bo_transactions s with
  | None => (Some ErrNotFound, s)
  | Some b =>
      match kv_get name b with
      | None => (Some ErrNotFound, s)
      | Some data =>
          match decode data with
          | Err e => (Some e, s)
          | Ok tx =>
              match kv_delete name b with
              | Err e => (Some e, s)
              | Ok b => commit_tx b (notify "transactions" "DELETED" (RTransaction tx) s)
              end
          end
      end
  end.

Fixpoint delete_raw (keys : list string) b : result B :=
  match keys with
  | [] => Ok b
  | k :: keys => try b := kv_delete k b in delete_raw keys b
  end.

Definition tx_keys_of (devnetName : string) (items : list (string * V)) : list string :=
  omap (λ '(k, v),
      tx ← (ok_of (decode v) : option Transaction);
      if bool_decide (ts_DevnetRef (t_Spec tx) = devnetName) then Some k else None) items.

Definition DeleteTransactionsByDevnet (devnetName : string) s : option error * BoltStore B :=
  match bo_transactions s with
  | None => (None, s)
  | Some b =>
      match delete_raw (tx_keys_of devnetName (kv_items b)) b with
      | Err e => (Some e, s)
      | Ok b => commit_tx b s
      end
  end.

(** [Watch]: register the handler, then, for devnets, call it on each stored
    devnet.  The result is what the handler is called with; the call then
    blocks until its context is cancelled. *)
Definition Watch (resourceType : string) (handler : nat) s
    : result (list (string * any_resource)) * BoltStore B :=
  let s := s <| bo_watchers :=
    <[resourceType := default [] (bo_watchers s !! resourceType) ++ [handler]]>
      (bo_watchers s) |> in
  (if bool_decide (resourceType = "devnets")
   then try devnets := ListDevnets "" s in
        Ok ((λ d, ("ADDED", RDevnet d)) <$> devnets)
   else Ok [], s).

(** [var _ Store = ( *BoltStore)(nil)]. *)
#[export] Instance BoltStore_Store `{MapRange} : Store (BoltStore B) := {|
  Store.CreateDevnet := CreateDevnet;
  Store.GetDevnet := GetDevnet;
  Store.UpdateDevnet := UpdateDevnet;
  Store.DeleteDevnet := DeleteDevnet;
  Store.ListDevnets := ListDevnets;
  Store.ListNamespaces := ListNamespaces;
  Store.CreateNode := CreateNode;
  Store.GetNode := GetNode;
  Store.UpdateNode := UpdateNode;
  Store.DeleteNode := DeleteNode;
  Store.ListNodes := ListNodes;
  Store.DeleteNodesByDevnet := DeleteNodesByDevnet;
  Store.CreateUpgrade := CreateUpgrade;
  Store.GetUpgrade := GetUpgrade;
  Store.UpdateUpgrade := UpdateUpgrade;
  Store.DeleteUpgrade := DeleteUpgrade;
  Store.ListUpgrades := ListUpgrades;
  Store.DeleteUpgradesByDevnet := DeleteUpgradesByDevnet;
  Store.CreateTransaction _ := CreateTransaction;
  Store.GetTransaction := GetTransaction;
  Store.UpdateTransaction _ := UpdateTransaction;
  Store.ListTransactions := ListTransactions
|}.
End bolt.

Arguments co_get {B R} c : rename.
Arguments co_set {B R} c : rename.
Arguments co_type {B R} c : rename.
Arguments co_name {B R} c : rename.
Arguments co_key {B R} c : rename.
Arguments co_any {B R} c : rename.
Arguments coll B R : clear implicits.
