(* ===== verification/BoltSpec.v ===== *)
(** * The bbolt store is a store

    Under bbolt's documented behaviour ([KVLaws], [CodecLaws]) [BoltStore]
    implements the interface of [Store.v]: the [StoreSpec] instance.  The
    properties are the optimistic concurrency of the updates, the prefix scan
    of the nodes and the cascading deletes.  [Bucket] is a concrete bucket on
    which the witnesses run. *)

From Stdlib Require Import Ascii OrderedTypeEx.
From stdpp Require Import base tactics numbers list strings sorting gmap.
From S2P Require Import Prelude Types Store BoltStore.

(** ** A concrete bucket and codec *)

(** A bucket of values; bbolt refuses an empty key. *)
Definition Bucket (V : Type) : Type := gmap string V.

#[export] Instance Bucket_KV {V} : KV (Bucket V) V := {|
  kv_empty := ∅;
  kv_get k b := (b : gmap string V) !! k;
  kv_put k v b := if bool_decide (k = "") then Err (Errorf "key required")
                  else Ok (<[k := v]> (b : gmap string V));
  kv_delete k b := Ok (delete k (b : gmap string V));
  kv_items b := merge_sort (λ x y, String.le x.1 y.1) (map_to_list (b : gmap string V));
  kv_commit _ := None
|}.

(** The store's buckets hold already parsed values. *)
Abbreviation MapKV := (Bucket any_resource).

Definition bad_json : error := Errorf "json: cannot unmarshal".

#[export] Instance Devnet_codec : Codec any_resource Devnet := {|
  encode d := Ok (RDevnet d);
  decode v := match v with RDevnet d => Ok d | _ => Err bad_json end |}.
#[export] Instance Node_codec : Codec any_resource Node := {|
  encode d := Ok (RNode d);
  decode v := match v with RNode d => Ok d | _ => Err bad_json end |}.
#[export] Instance Upgrade_codec : Codec any_resource Upgrade := {|
  encode d := Ok (RUpgrade d);
  decode v := match v with RUpgrade d => Ok d | _ => Err bad_json end |}.
#[export] Instance Transaction_codec : Codec any_resource Transaction := {|
  encode d := Ok (RTransaction d);
  decode v := match v with RTransaction d => Ok d | _ => Err bad_json end |}.

(** The entries of a bucket that decode as an [R]. *)
Definition decoded {B V R} `{KV B V, Codec V R} (b : B) : gmap string R :=
  list_to_map (omap (λ '(k, v), (k,.) <$> ok_of (decode v)) (kv_items b)).

(** ** Laws of the concrete instances *)

#[export] Instance Bucket_laws {V} : KVLaws (Bucket V) V.
Proof.
  split; simpl.
  - intros k. apply lookup_empty.
  - intros k v b b' k'. case_bool_decide; [done|]. intros [= <-].
    rewrite lookup_insert. repeat case_decide; congruence.
  - intros k b b' k' [= <-]. rewrite lookup_delete. repeat case_decide; congruence.
  - intros b k v. by rewrite merge_sort_Permutation, elem_of_map_to_list.
  - intros b. set (l := merge_sort _ _).
    assert (Hs : StronglySorted (λ x y : string * V, String.le x.1 y.1) l).
    { apply StronglySorted_merge_sort.
      - intros x y z ??. by etrans.
      - intros x y. apply (total String.le). }
    assert (Hn : NoDup l.*1).
    { unfold l. rewrite merge_sort_Permutation. apply NoDup_fst_map_to_list. }
    clearbody l. induction l as [|[k v] l IH]; simpl in *; [constructor|].
    apply StronglySorted_cons in Hs as [Hk Hs]. apply NoDup_cons in Hn as [Hin Hn].
    apply StronglySorted_cons. split; [|by apply IH].
    apply Forall_fmap. apply Forall_forall. intros [k' v'] Hl. simpl.
    split; [by apply (proj1 (Forall_forall _ _) Hk (k', v'))|].
    intros ->. apply Hin. apply list_elem_of_fmap. by exists (k', v').
Qed.

#[export] Instance Devnet_codec_laws : CodecLaws any_resource Devnet.
Proof. by intros ?? [= <-]. Qed.
#[export] Instance Node_codec_laws : CodecLaws any_resource Node.
Proof. by intros ?? [= <-]. Qed.
#[export] Instance Upgrade_codec_laws : CodecLaws any_resource Upgrade.
Proof. by intros ?? [= <-]. Qed.
#[export] Instance Transaction_codec_laws : CodecLaws any_resource Transaction.
Proof. by intros ?? [= <-]. Qed.

(** ** The prefix scan *)

Lemma compare_refl a : Ascii.compare a a = Eq.
Proof. unfold Ascii.compare. apply N.compare_refl. Qed.

Lemma compare_eq a b : Ascii.compare a b = Eq → a = b.
Proof. apply Ascii.compare_eq_iff. Qed.

Lemma compare_antisym a b : Ascii.compare a b = CompOpp (Ascii.compare b a).
Proof. unfold Ascii.compare. apply N.compare_antisym. Qed.

Lemma prefix_le p s : has_prefix p s = true → String.le p s.
Proof.
  unfold String.le, String.leb. intros Hp.
  assert (Hc : Strings.String.compare p s ≠ Gt).
  { revert s Hp; induction p as [|c p IH]; intros [|c' s]; simpl; try done.
    intros [->%bool_decide_eq_true Hp]%andb_true_iff.
    rewrite compare_refl. by apply IH. }
  by destruct (Strings.String.compare p s).
Qed.

(** Past the keys with a prefix no key has it any more. *)
Lemma prefix_gap p k k' :
  String.le p k → String.le k k' → has_prefix p k' = true → has_prefix p k = true.
Proof.
  unfold String.le, String.leb.
  revert k k'; induction p as [|c p IH]; intros [|a k] [|b k'] H1 H2 H3; simpl in *;
    try done.
  apply andb_true_iff in H3 as [->%bool_decide_eq_true Hp].
  destruct (Ascii.compare b a) eqn:E1; [|clear IH|done].
  - apply compare_eq in E1 as ->. rewrite compare_refl in H2.
    rewrite bool_decide_true by done. by apply (IH k k').
  - rewrite compare_antisym, E1 in H2. done.
Qed.

Section scan.
Context {V : Type}.
Implicit Types items : list (string * V).

Definition before (x y : string) : Prop := String.le x y ∧ x ≠ y.

Lemma while_prefix_none p items :
  Forall (λ kv, has_prefix p kv.1 = false) items → while_prefix p items = [].
Proof. destruct items as [|[k v] items]; simpl; [done|].
  intros [Hk _]%Forall_cons. simpl in Hk. by rewrite Hk.
Qed.

Lemma while_prefix_filter p items :
  StronglySorted before items.*1 → Forall (λ kv, String.le p kv.1) items →
  while_prefix p items = filter (λ kv, has_prefix p kv.1) items.
Proof.
  induction items as [|[k v] items IH]; simpl; [done|].
  intros [Hk Hs]%StronglySorted_cons [Hp Hps]%Forall_cons.
  rewrite filter_cons; simpl. destruct (has_prefix p k) eqn:E; simpl.
  - f_equal. by apply IH.
  - symmetry. apply elem_of_nil_inv. intros [k' v'] [Hk' Hin]%list_elem_of_filter.
    apply Is_true_true in Hk'. simpl in *.
    assert (has_prefix p k = true) as E'; [|congruence].
    apply (prefix_gap p k k'); [done| |done].
    apply (proj1 (Forall_forall _ _) Hk k'). apply list_elem_of_fmap. by exists (k', v').
Qed.

(** Seeking and walking while the prefix matches visits exactly the entries
    with the prefix, in order. *)
Lemma scan_filter p items :
  StronglySorted before items.*1 →
  while_prefix p (seek p items) = filter (λ kv, has_prefix p kv.1) items.
Proof.
  induction items as [|[k v] items IH]; [done|]. intros Hs'.
  pose proof Hs' as [Hk Hs]%StronglySorted_cons. simpl.
  case_bool_decide as Hp.
  - apply while_prefix_filter; [done|]. constructor; [done|].
    apply Forall_forall. intros [k' v'] Hin. simpl in *. etrans; [exact Hp|].
    apply (proj1 (Forall_forall _ _) Hk k'). apply list_elem_of_fmap. by exists (k', v').
  - rewrite filter_cons_False by (simpl; intros ?%Is_true_true%prefix_le; done).
    by apply IH.
Qed.

Lemma before_NoDup (l : list string) : StronglySorted before l → NoDup l.
Proof.
  induction 1 as [|k l Hl IH Hk]; constructor; [|done].
  intros Hin. by destruct (proj1 (Forall_forall _ _) Hk k Hin).
Qed.
End scan.

(** ** The decoded view of a bucket *)

Section bucket.
Context {B V : Type} `{KVLaws B V}.
Context {R : Type} `{Resource R, CodecLaws V R}.
Implicit Types b : B.

Lemma items_NoDup b : NoDup (kv_items b).*1.
Proof. apply before_NoDup, kv_items_sorted. Qed.

Lemma decoded_lookup b k :
  (decoded b : gmap string R) !! k = (v ← kv_get k b; ok_of (decode v)).
Proof.
  unfold decoded. set (f := λ '(k, v), (k,.) <$> ok_of (decode (R:=R) v)).
  assert (Hin : ∀ r, (k, r) ∈ omap f (kv_items b) ↔
    ∃ v, kv_get k b = Some v ∧ decode v = Ok r).
  { intros r. rewrite list_elem_of_omap. split.
    - intros ([k' v] & Hin & (r' & Hr' & [= -> ->])%fmap_Some).
      exists v. by rewrite <- kv_items_get, <- ok_of_Some.
    - intros (v & Hv & Hr). exists (k, v). split; [by apply kv_items_get|].
      simpl. by rewrite Hr. }
  destruct (kv_get k b) as [v|] eqn:Hk; simpl.
  - destruct (decode v) as [r|e] eqn:Hv; simpl.
    + apply elem_of_list_to_map_1; [|apply Hin; eauto].
      assert (Hs : (omap f (kv_items b)).*1 `sublist_of` (kv_items b).*1).
      { clear. induction (kv_items b) as [|[k v] l IH]; simpl; [done|].
        destruct (decode v); simpl; by constructor. }
      eapply sublist_NoDup; [apply items_NoDup|exact Hs].
    + apply not_elem_of_list_to_map_1. intros ([? r] & -> & Hr)%list_elem_of_fmap.
      apply Hin in Hr as (v' & ? & ?). congruence.
  - apply not_elem_of_list_to_map_1. intros ([? r] & -> & Hr)%list_elem_of_fmap.
    apply Hin in Hr as (v' & ? & ?). congruence.
Qed.

(** Every entry decodes and sits under its own key. *)
Definition keyed_bucket (key : R → string) b : Prop :=
  ∀ k v, kv_get k b = Some v → ∃ r, decode v = Ok r ∧ k = key r.

Lemma keyed_decoded key b :
  keyed_bucket key b → map_Forall (λ k r, k = key r) (decoded b).
Proof.
  intros Hb k r. rewrite decoded_lookup. intros (v & Hv & Hr)%bind_Some.
  apply ok_of_Some in Hr. destruct (Hb _ _ Hv) as (r' & Hr' & ->). congruence.
Qed.

Lemma decoded_put (r : R) (k : string) v b b' :
  encode r = Ok v → kv_put k v b = Ok b' →
  decoded b' = <[k := r]> (decoded b : gmap string R).
Proof.
  intros Hv Hb. apply map_eq. intros k'. rewrite decoded_lookup, lookup_insert.
  rewrite (kv_get_put k v b b' k' Hb). destruct (decide (k' = k)) as [->|Hne]; simpl.
  - rewrite (decode_encode r v Hv). by rewrite decide_True.
  - by rewrite decide_False, decoded_lookup.
Qed.

Lemma keyed_put key (r : R) v b b' :
  encode r = Ok v → kv_put (key r) v b = Ok b' → keyed_bucket key b → keyed_bucket key b'.
Proof.
  intros Hv Hb Hk k' v'. rewrite (kv_get_put _ v b b' k' Hb).
  case_decide; [|by apply Hk]. intros [= <-]. exists r. by rewrite (decode_encode r v Hv).
Qed.

Lemma decoded_delete k b b' :
  kv_delete k b = Ok b' → decoded b' = delete k (decoded b : gmap string R).
Proof.
  intros Hb. apply map_eq. intros k'. rewrite decoded_lookup, lookup_delete.
  rewrite (kv_get_delete k b b' k' Hb). destruct (decide (k' = k)) as [->|Hne]; simpl.
  - by rewrite decide_True.
  - by rewrite decide_False, decoded_lookup.
Qed.
End bucket.

(** ** The store behind the interface *)

Section spec.
Context {B V : Type} `{KVLaws B V}.
Context `{CodecLaws V Devnet, CodecLaws V Node, CodecLaws V Upgrade,
          CodecLaws V Transaction}.
Implicit Types (s : BoltStore B) (b : B).

Definition bolt_view s : view :=
  mkView (decoded (bo_devnets s)) (decoded (bo_nodes s)) (decoded (bo_upgrades s))
    (decoded (default kv_empty (bo_transactions s))).

Definition bolt_wf s : Prop :=
  keyed_bucket devnet_id (bo_devnets s) ∧ keyed_bucket node_id (bo_nodes s) ∧
  keyed_bucket upgrade_id (bo_upgrades s) ∧
  ∃ b, bo_transactions s = Some b ∧ keyed_bucket tx_id b.

(** What the collections of [BoltStore.coll] share: [sel] and [put] are the
    collection in the view. *)
Class CollOf (R : Type) `{Resource R, Codec V R} (c : coll B R)
    (sel : view → gmap string R) (put : gmap string R → view → view) := {
  coll_view : ∀ s, sel (bolt_view s) = decoded (co_get c s);
  coll_set : ∀ b s, bolt_view (co_set c b s) = put (decoded b) (bolt_view s);
  coll_wf : ∀ s, bolt_wf s → keyed_bucket (co_key c) (co_get c s);
  coll_set_wf : ∀ b s, bolt_wf s → keyed_bucket (co_key c) b → bolt_wf (co_set c b s);
  coll_key :: KeyOf R (co_key c)
}.

#[export] Instance devnet_coll_of : CollOf Devnet devnet_coll v_devnets
  (λ m v, v <| v_devnets := m |>).
Proof.
  split; [done|done|by intros s (?&?&?&?)|intros b s (?&?&?&?) ?; by split_and!|].
  exact devnet_id_key.
Qed.
#[export] Instance node_coll_of : CollOf Node node_coll v_nodes
  (λ m v, v <| v_nodes := m |>).
Proof.
  split; [done|done|by intros s (?&?&?&?)|intros b s (?&?&?&?) ?; by split_and!|].
  exact node_id_key.
Qed.
#[export] Instance upgrade_coll_of : CollOf Upgrade upgrade_coll v_upgrades
  (λ m v, v <| v_upgrades := m |>).
Proof.
  split; [done|done|by intros s (?&?&?&?)|intros b s (?&?&?&?) ?; by split_and!|].
  exact upgrade_id_key.
Qed.

Lemma notify_wf rt et x s : bolt_wf s → bolt_wf (notify rt et x s).
Proof. done. Qed.

Section coll.
Context {R : Type} `{ResourceLaws R, CodecLaws V R} (c : coll B R).
Context (sel : view → gmap string R) (put : gmap string R → view → view).
Context `{!CollOf R c sel put}.
Implicit Types r : R.

Lemma get_in_lookup k s : bolt_wf s →
  match sel (bolt_view s) !! k with
  | Some r => get_in c k s = Ok r
  | None => get_in c k s = Err (NotFoundError (co_name c) k)
  end.
Proof.
  intros Hs%coll_wf. rewrite coll_view, decoded_lookup. unfold get_in.
  destruct (kv_get k (co_get c s)) as [v|] eqn:Hk; simpl; [|done].
  destruct (Hs _ _ Hk) as (r & Hr & _). by rewrite Hr.
Qed.

Lemma bolt_get_in_spec k s : bolt_wf s → get_spec (sel (bolt_view s)) k (get_in c k s).
Proof.
  intros Hs. pose proof (get_in_lookup k s Hs) as Hl. unfold get_spec.
  destruct (sel _ !! k); [done|]. eauto.
Qed.

Lemma key_ensure_ns r : co_key c (ensure_ns r) = co_key c r.
Proof. apply key_same, same_ensure. Qed.

Lemma gen_ensure_ns r : m_Generation (meta (ensure_ns r)) = m_Generation (meta r).
Proof. unfold ensure_ns. by rewrite meta_with_meta, EnsureNamespace_gen. Qed.

(** The resource an update stores. *)
Definition bumped (now : Time) r : R :=
  with_meta (EnsureNamespace (meta r)
    <| m_Generation := wrap64 (m_Generation (meta r) + 1) |>
    <| m_UpdatedAt := now |>) r.

Lemma bumped_eq now r :
  with_meta (meta (ensure_ns r)
    <| m_Generation := wrap64 (m_Generation (meta (ensure_ns r)) + 1) |>
    <| m_UpdatedAt := now |>) (ensure_ns r) = bumped now r.
Proof.
  rewrite gen_ensure_ns. unfold bumped, ensure_ns.
  by rewrite meta_with_meta, with_meta_with_meta.
Qed.

Lemma same_bumped now r : same r (bumped now r).
Proof. apply same_with_meta. apply same_meta_ensure. Qed.

(** The outcomes of an update. *)
Definition update_outcome (now : Time) r s (out : option error * R * BoltStore B) : Prop :=
  let '(e, r', s') := out in
  match sel (bolt_view s) !! co_key c r with
  | None => e = Some (NotFoundError (co_name c) (co_key c r)) ∧ s' = s
  | Some old =>
      if decide (m_Generation (meta old) = m_Generation (meta r)) then
        r' = bumped now r ∧ bolt_wf s' ∧
        match e with
        | None => bolt_view s' = put (<[co_key c r := r']> (sel (bolt_view s)))
                                   (bolt_view s)
        | Some _ => bolt_view s' = bolt_view s
        end
      else
        e = Some (ConflictError (co_name c) (co_key c r)
          ("generation mismatch: expected " +:+ itoa (m_Generation (meta old))
            +:+ ", got " +:+ itoa (m_Generation (meta r)))) ∧ s' = s
  end.

Lemma update_in_outcome now r s :
  bolt_wf s → update_outcome now r s (update_in c now r s).
Proof.
  intros Hs. pose proof (coll_wf s Hs) as Hk.
  unfold update_in, update_outcome.
  rewrite key_ensure_ns, bumped_eq, gen_ensure_ns, coll_view, decoded_lookup.
  destruct (kv_get _ _) as [v|] eqn:Hv; simpl; [|done].
  destruct (Hk _ _ Hv) as (old & Hold & _). rewrite Hold. simpl.
  case_decide as Hg; [rewrite bool_decide_false by congruence|by rewrite bool_decide_true].
  destruct (encode (bumped now r)) as [data|] eqn:He; simpl; [|done].
  destruct (kv_put _ _ _) as [b|] eqn:Hb; simpl; [|done].
  unfold commit. destruct (kv_commit b); simpl; [done|].
  split_and!; [done| |].
  - apply coll_set_wf; [done|].
    rewrite <- (key_same r (bumped now r)) in Hb by apply same_bumped.
    by eapply keyed_put.
  - rewrite coll_set. by erewrite decoded_put.
Qed.

(** The resource a create stores. *)
Definition fresh (now : Time) r : R :=
  with_meta (meta (ensure_ns r) <| m_Generation := 1%Z |> <| m_CreatedAt := now |>
    <| m_UpdatedAt := now |>) (ensure_ns r).

Lemma same_fresh now r : same r (fresh now r).
Proof.
  unfold fresh, ensure_ns. rewrite with_meta_with_meta, meta_with_meta.
  apply same_with_meta. apply same_meta_ensure.
Qed.

(** The outcomes of a create. *)
Lemma create_in_outcome now r s :
  bolt_wf s →
  let '(e, r', s') := create_in c now r s in
  bolt_wf s' ∧
  match sel (bolt_view s) !! co_key c r with
  | Some _ => e = Some (AlreadyExistsError (co_name c) (co_key c r)) ∧ s' = s ∧
              r' = ensure_ns r
  | None => r' = fresh now r ∧
      match e with
      | None => bolt_view s' = put (<[co_key c r := r']> (sel (bolt_view s)))
                                 (bolt_view s)
      | Some _ => bolt_view s' = bolt_view s
      end
  end.
Proof.
  intros Hs. pose proof (coll_wf s Hs) as Hk.
  unfold create_in. rewrite key_ensure_ns, coll_view, decoded_lookup. fold (fresh now r).
  destruct (kv_get _ _) as [v|] eqn:Hv; simpl.
  { by destruct (Hk _ _ Hv) as (old & -> & _). }
  destruct (encode (fresh now r)) as [data|] eqn:He; simpl; [|done].
  destruct (kv_put _ _ _) as [b|] eqn:Hb; simpl; [|done].
  unfold commit. destruct (kv_commit b); simpl; [done|].
  split_and!; [|done|].
  - apply coll_set_wf; [done|].
    rewrite <- (key_same r (fresh now r)) in Hb by apply same_fresh.
    by eapply keyed_put.
  - rewrite coll_set. by erewrite decoded_put.
Qed.

Lemma create_in_wf now r s : bolt_wf s → bolt_wf (create_in c now r s).2.
Proof.
  intros Hs. pose proof (create_in_outcome now r s Hs) as Ho.
  destruct (create_in c now r s) as [[??]?]. by destruct Ho.
Qed.

Lemma update_in_wf now r s : bolt_wf s → bolt_wf (update_in c now r s).2.
Proof.
  intros Hs. pose proof (update_in_outcome now r s Hs) as Ho.
  destruct (update_in c now r s) as [[e r'] s']; simpl in *.
  destruct (sel _ !! _); [case_decide|]; naive_solver.
Qed.

Lemma update_in_spec now :
  update_spec bolt_wf bolt_view sel put (co_key c) (update_in c now).
Proof.
  intros r s e r' s' Hs E. pose proof (update_in_outcome now r s Hs) as Ho.
  rewrite E in Ho. simpl in Ho. destruct (sel _ !! _) as [old|] eqn:Hl.
  - case_decide; [|by destruct Ho as [-> ->]].
    destruct Ho as (-> & _ & Ho). destruct e; [done|].
    split_and!; [apply same_bumped|eauto|done].
  - by destruct Ho as [-> ->].
Qed.

(** An update changes the resource's metadata only, also when it fails. *)
Lemma update_in_same now r s : same r (update_in c now r s).1.2.
Proof.
  unfold update_in. rewrite bumped_eq. destruct (kv_get _ _); [|apply same_ensure]. destruct (decode _); [|apply same_ensure].
  case_bool_decide; [apply same_ensure|]. pose proof (same_bumped now r) as Hb.
  destruct (encode _); [|exact Hb]. destruct (kv_put _ _ _); [|exact Hb].
  by destruct (commit _ _ _).
Qed.
End coll.

Lemma GetTransaction_lookup n s : bolt_wf s →
  get_spec (v_txs (bolt_view s)) n (GetTransaction n s).
Proof.
  intros (_ & _ & _ & b & Hb & Hk). unfold get_spec, GetTransaction. simpl.
  rewrite Hb, decoded_lookup. simpl. destruct (kv_get n b) as [v|] eqn:Hv; simpl.
  - destruct (Hk _ _ Hv) as (t & Ht & _). by rewrite Ht.
  - by exists ErrNotFound.
Qed.

(** The outcomes of [UpdateTransaction]: no generation is compared. *)
Lemma UpdateTransaction_outcome t s : bolt_wf s →
  let '(e, t', s') := UpdateTransaction t s in
  t' = ensure_ns t ∧ bolt_wf s' ∧
  match e with
  | None => is_Some (v_txs (bolt_view s) !! tx_id t) ∧
      bolt_view s' = bolt_view s <| v_txs := <[tx_id t := t']> (v_txs (bolt_view s)) |>
  | Some _ => bolt_view s' = bolt_view s
  end.
Proof.
  intros Hs. pose proof Hs as (?&?&?& b & Hb & Hk). unfold UpdateTransaction. rewrite Hb.
  change (m_Name (t_Metadata (ensure_ns t))) with (tx_id (ensure_ns t)).
  assert (Hid : tx_id (ensure_ns t) = tx_id t) by apply key_same, same_ensure.
  rewrite !Hid. destruct (kv_get _ b) as [v|] eqn:Hv; [|done].
  destruct (encode (ensure_ns t)) as [data|] eqn:He; [|done].
  destruct (kv_put _ data b) as [b'|] eqn:Hp; [|done].
  unfold commit_tx. destruct (kv_commit b'); [done|].
  split_and!; [done| | |].
  - split_and!; [done..|]. exists b'. split; [done|].
    rewrite <- Hid in Hp. by eapply keyed_put.
  - simpl. rewrite Hb, decoded_lookup. simpl. rewrite Hv. simpl.
    destruct (Hk _ _ Hv) as (? & -> & _). eauto.
  - unfold bolt_view. simpl. rewrite Hb. simpl.
    by rewrite (decoded_put (ensure_ns t) (tx_id t) data b b').
Qed.

Lemma nodeKeyPrefix_default ns d : nodeKeyPrefix (or_default ns) d = nodeKeyPrefix ns d.
Proof.
  change (nodeKeyPrefix (or_default ns) d) with (qualified (or_default ns) d +:+ "/").
  by rewrite qualified_default.
Qed.

Lemma node_items_elem ns d s k v :
  (k, v) ∈ node_items ns d s ↔
    kv_get k (bo_nodes s) = Some v ∧ has_prefix (nodeKeyPrefix ns d) k = true.
Proof.
  unfold node_items. rewrite scan_filter by apply kv_items_sorted.
  rewrite list_elem_of_filter, kv_items_get. simpl.
  fold (or_default ns). rewrite nodeKeyPrefix_default, Is_true_true. tauto.
Qed.

(** The nodes listed are those whose key has the devnet's prefix. *)
Lemma ListNodes_elem ns d s nodes : bolt_wf s → ListNodes ns d s = Ok nodes →
  ∀ n, n ∈ nodes ↔
    v_nodes (bolt_view s) !! node_id n = Some n ∧
    has_prefix (nodeKeyPrefix ns d) (node_id n) = true.
Proof.
  intros (_ & Hk & _) Hl n. unfold ListNodes in Hl.
  rewrite (result_list_elem _ _ _ Hl). simpl. rewrite decoded_lookup. split.
  - intros ([k v] & [Hv Hp]%node_items_elem & Hd).
    destruct (decode v) eqn:E; simplify_eq.
    destruct (Hk _ _ Hv) as (n' & Hn & ->).
    assert (n' = n) as -> by congruence.
    split; [|done]. apply bind_Some. exists v. by rewrite ok_of_Some.
  - intros [(v & Hv & Hd%ok_of_Some)%bind_Some Hp]. exists (node_id n, v).
    rewrite node_items_elem. by rewrite Hd.
Qed.

(** [ListNodes] succeeds on a well-formed store. *)
Lemma ListNodes_total ns d s : bolt_wf s → ∃ nodes, ListNodes ns d s = Ok nodes.
Proof.
  intros (_ & Hk & _). unfold ListNodes.
  assert (Hi : ∀ k v, (k, v) ∈ node_items ns d s → ∃ n : Node, decode v = Ok n).
  { intros k v [Hv _]%node_items_elem. destruct (Hk _ _ Hv) as (n & ? & _). eauto. }
  revert Hi. generalize (node_items ns d s) as l.
  induction l as [|[k v] l IH]; simpl; intros Hi; [eauto|].
  destruct (Hi k v ltac:(set_solver)) as [n ->].
  destruct IH as [nodes ->]; [|eauto]. intros k' v' ?. apply (Hi k'). set_solver.
Qed.

Lemma bolt_ListNodes_NoDup ns d s nodes :
  bolt_wf s → ListNodes ns d s = Ok nodes → NoDup (node_id <$> nodes).
Proof.
  intros (_ & Hk & _) Hl. unfold ListNodes in Hl.
  rewrite (λ E, result_list_fmap _ node_id fst _ _ E Hl).
  - unfold node_items. rewrite scan_filter by apply kv_items_sorted.
    apply NoDup_fmap_filter, items_NoDup.
  - intros [k v] n [Hv _]%node_items_elem Hd. destruct (decode v) eqn:E; simplify_eq.
    destruct (Hk _ _ Hv) as (n' & Hn & ->). simpl. congruence.
Qed.

#[export] Program Instance BoltStore_spec `{MapRange} : StoreSpec (BoltStore B) := {|
  store_wf := bolt_wf;
  store_view := bolt_view
|}.
Next Obligation.
  intros ? ns n s Hs. rewrite <- qualified_default. by eapply (bolt_get_in_spec devnet_coll v_devnets _).
Qed.
Next Obligation.
  intros ? ns d i s Hs. rewrite <- node_key_default. by eapply (bolt_get_in_spec node_coll v_nodes _).
Qed.
Next Obligation.
  intros ? ns n s Hs. rewrite <- qualified_default. by eapply (bolt_get_in_spec upgrade_coll v_upgrades _).
Qed.
Next Obligation. intros ? n s Hs. by apply GetTransaction_lookup. Qed.
Next Obligation. intros ? now. eapply (update_in_spec devnet_coll v_devnets _). Qed.
Next Obligation. intros ? now. eapply (update_in_spec node_coll v_nodes _). Qed.
Next Obligation. intros ? now. eapply (update_in_spec upgrade_coll v_upgrades _). Qed.
Next Obligation.
  intros ? now t s e t' s' Hs E. pose proof (UpdateTransaction_outcome t s Hs) as Ho.
  unfold Store.UpdateTransaction in E. simpl in E. rewrite E in Ho.
  destruct Ho as (-> & _ & Ho). destruct e; [done|].
  destruct Ho. split_and!; [apply same_ensure|done|done].
Qed.
Next Obligation. intros ? now d s. eapply (update_in_wf devnet_coll v_devnets _). Qed.
Next Obligation. intros ? now d s. eapply (update_in_wf node_coll v_nodes _). Qed.
Next Obligation. intros ? now d s. eapply (update_in_wf upgrade_coll v_upgrades _). Qed.
Next Obligation.
  intros ? now t s Hs. pose proof (UpdateTransaction_outcome t s Hs) as Ho.
  unfold Store.UpdateTransaction. simpl. destruct (UpdateTransaction t s) as [[??]?]. by destruct Ho as (_ & ? & _).
Qed.
Next Obligation.
  intros ? s (?&?&?& b & Hb & ?). simpl. rewrite Hb.
  split_and!; by apply keyed_decoded.
Qed.
Next Obligation.
  intros ? ns d s nodes Hs Hl n. pose proof (ListNodes_elem ns d s nodes Hs Hl n) as Hn.
  split; [by intros [? _]%Hn|]. intros Hv Hns Hd. apply Hn. split; [done|].
  subst d. rewrite <- nodeKeyPrefix_default, <- Hns.
  rewrite nodeKeyPrefix_default. unfold node_id, node_key.
  change (nodeKeyPrefix ?ns ?d) with (qualified ns d +:+ "/").
  rewrite (assoc_L String.append). apply has_prefix_app.
Qed.
Next Obligation. intros ? now d s. exact (update_in_same devnet_coll now d s). Qed.

(** ** Deleting a list of keys *)

Lemma delete_keys_get {R} (c : coll B R) keys b b' k :
  delete_keys c keys b = Ok b' →
  kv_get k b' = if decide (k ∈ keys) then None else kv_get k b.
Proof.
  revert b; induction keys as [|k' keys IH]; intros b Hb.
  - injection Hb as ->. case_decide; set_solver.
  - simpl in Hb. destruct (kv_delete k' b) as [b1|] eqn:Hd; [|done].
    rewrite (IH _ Hb), (kv_get_delete _ _ _ k Hd).
    repeat case_decide; set_solver.
Qed.

Lemma notify_all_same {R} (c : coll B R) (l : list R) s :
  let s' := foldl (λ s r, notify (co_type c) "DELETED" (co_any c r) s) s l in
  bolt_view s' = bolt_view s ∧ (bolt_wf s → bolt_wf s').
Proof.
  revert s; induction l as [|r l IH]; intros s; simpl; [done|].
  destruct (IH (notify (co_type c) "DELETED" (co_any c r) s)) as [-> Hwf].
  split; [done|]. intros ?. by apply Hwf.
Qed.

Lemma delete_all_spec {R} `{Resource R, CodecLaws V R} (c : coll B R) sel put
    `{!CollOf R c sel put} keys (l : list R) s :
  bolt_wf s →
  let '(e, s') := delete_all c keys l s in
  bolt_wf s' ∧
  match e with
  | None => ∃ m, bolt_view s' = put m (bolt_view s) ∧
      ∀ k, m !! k = if decide (k ∈ keys) then None else sel (bolt_view s) !! k
  | Some _ => s' = s
  end.
Proof.
  intros Hs. unfold delete_all.
  destruct (delete_keys c keys (co_get c s)) as [b|] eqn:Hd; [|done].
  unfold commit. destruct (kv_commit b); [done|].
  destruct (notify_all_same c l (co_set c b s)) as [-> Hwf].
  split; [apply Hwf, coll_set_wf; [done|]|].
  - intros k v. rewrite (delete_keys_get _ _ _ _ k Hd). case_decide; [done|].
    by apply coll_wf.
  - exists (decoded b). split; [apply coll_set|]. intros k.
    rewrite coll_view, !decoded_lookup, (delete_keys_get _ _ _ _ k Hd).
    by case_decide.
Qed.

(** ** Names without slashes *)

Lemma node_prefix_exact ns d (n : Node) :
  no_slash ns → no_slash d → no_slash (m_Namespace (n_Metadata n)) →
  no_slash (ns_DevnetRef (n_Spec n)) →
  has_prefix (nodeKeyPrefix ns d) (node_id n) = true ↔
    or_default (m_Namespace (n_Metadata n)) = or_default ns ∧
    ns_DevnetRef (n_Spec n) = d.
Proof.
  intros Hns%no_slash_default Hd Hns'%no_slash_default Hd'. unfold node_id, node_key, qualified.
  change (nodeKeyPrefix ns d) with ((or_default ns +:+ "/" +:+ d) +:+ "/").
  rewrite has_prefix_spec. split.
  - intros [t E]. rewrite <- !(assoc_L String.append) in E.
    apply (sep_inj slash) in E as [-> E]; [|done..].
    by apply (sep_inj slash) in E as [-> E].
  - intros [-> ->]. exists (itoa (ns_Index (n_Spec n))).
    by rewrite <- !(assoc_L String.append).
Qed.

(** ** Creation and deletion *)

Lemma create_in_spec {R} `{ResourceLaws R, CodecLaws V R} (c : coll B R) sel put
    `{!CollOf R c sel put} now :
  create_spec bolt_wf bolt_view sel put (co_key c) (create_in c now).
Proof.
  intros r s Hs. pose proof (create_in_outcome c sel put now r s Hs) as Ho.
  destruct (create_in c now r s) as [[e r'] s']. destruct Ho as [Hwf Ho]. split; [done|].
  destruct (sel _ !! _) as [old|] eqn:Hl.
  - destruct Ho as (-> & -> & ->). by split; [apply same_ensure|].
  - destruct Ho as [-> Ho]. split; [apply same_fresh|].
    destruct e; split; [done|by intros [? ?]|done|done].
Qed.

Lemma delete_in_spec {R} `{ResourceLaws R, CodecLaws V R} (c : coll B R) sel put
    `{!CollOf R c sel put} k :
  delete_spec bolt_wf bolt_view sel put k (delete_in c k).
Proof.
  intros s Hs. pose proof (coll_wf s Hs) as Hk. unfold delete_in.
  rewrite coll_view, decoded_lookup. destruct (kv_get k _) as [v|] eqn:Hv; [|by split].
  destruct (Hk _ _ Hv) as (r & Hr & _). rewrite Hr. simpl. rewrite Hr.
  destruct (kv_delete k _) as [b|e] eqn:Hd; [|by split].
  unfold commit. destruct (kv_commit b); [by split|]. split.
  - apply notify_wf, coll_set_wf; [done|]. intros k' v'.
    rewrite (kv_get_delete _ _ _ k' Hd). case_decide; [done|]. by apply Hk.
  - split; [by eauto|]. change (bolt_view (notify ?a ?b ?x ?s)) with (bolt_view s).
    by rewrite coll_set, (decoded_delete _ _ _ Hd).
Qed.

Lemma cascade_of_keys {R} `{ResourceLaws R, CodecLaws V R} (c : coll B R) sel put
    `{!CollOf R c sel put} keys (l : list R) (belongs clear : R → Prop) s :
  bolt_wf s →
  (∀ k r, sel (bolt_view s) !! k = Some r → (belongs r → k ∈ keys) ∧ (clear r → k ∉ keys)) →
  let '(e, s') := delete_all c keys l s in
  bolt_wf s' ∧
  match e with
  | Some _ => bolt_view s' = bolt_view s
  | None => ∃ m, bolt_view s' = put m (bolt_view s) ∧ m ⊆ sel (bolt_view s) ∧
      ∀ k r, sel (bolt_view s) !! k = Some r →
        (belongs r → m !! k = None) ∧ (clear r → m !! k = Some r)
  end.
Proof.
  intros Hs Hkeys. pose proof (delete_all_spec c sel put keys l s Hs) as Ho.
  destruct (delete_all c keys l s) as [[e|] s']; [by destruct Ho as [? ->]|].
  destruct Ho as (Hwf & m & Hm & Hl). split; [done|]. exists m. split_and!; [done| |].
  - apply map_subseteq_spec. intros k r. rewrite Hl. by case_decide.
  - intros k r Hr. rewrite Hl. destruct (Hkeys k r Hr). split; intros ?.
    + by rewrite decide_True by auto.
    + by rewrite decide_False by auto.
Qed.

Lemma node_item_key ns d s k (n : Node) :
  v_nodes (bolt_view s) !! k = Some n →
  k ∈ (node_items ns d s).*1 ↔ has_prefix (nodeKeyPrefix ns d) k = true.
Proof.
  simpl. rewrite decoded_lookup. intros (v & Hv & _)%bind_Some. rewrite list_elem_of_fmap. split.
  - intros ([k' v'] & -> & [_ Hp]%node_items_elem). done.
  - intros Hp. exists (k, v). split; [done|]. by apply node_items_elem.
Qed.

Lemma node_belongs_prefix ns d n :
  node_belongs ns d n → has_prefix (nodeKeyPrefix ns d) (node_id n) = true.
Proof.
  intros [Hns <-]. unfold node_id, node_key. rewrite <- qualified_default, Hns, qualified_default.
  change (nodeKeyPrefix ?a ?b) with (qualified a b +:+ "/").
  rewrite (assoc_L String.append). apply has_prefix_app.
Qed.

Lemma upgrade_item_key ns d s k (u : Upgrade) :
  v_upgrades (bolt_view s) !! k = Some u →
  k ∈ (upgrade_items ns d s).*1 ↔ upgrade_belongs ns d u.
Proof.
  simpl. rewrite decoded_lookup. intros (v & Hv & Hu%ok_of_Some)%bind_Some.
  unfold upgrade_items, upgrade_belongs.
  change (if bool_decide (ns = "") then DefaultNamespace else ns) with (or_default ns).
  rewrite list_elem_of_fmap. split.
  - intros ([k' u'] & -> & Hin). apply list_elem_of_omap in Hin as ([k2 v2] & Hi & Hf).
    apply bind_Some in Hf as (u2 & Hu2%ok_of_Some & Hf). case_match eqn:Hc; [|done].
    injection Hf as <- <-. apply kv_items_get in Hi. simpl in Hv.
    assert (u2 = u) as -> by congruence.
    by apply andb_true_iff in Hc as [?%bool_decide_eq_true ?%bool_decide_eq_true].
  - intros [Hns Hd]. exists (k, u). split; [done|]. apply list_elem_of_omap.
    exists (k, v). split; [by apply kv_items_get|]. simpl. rewrite Hu. simpl.
    by rewrite !bool_decide_true.
Qed.

#[export] Program Instance BoltStore_changes `{MapRange} : StoreChanges (BoltStore B).
Next Obligation. intros ? now. exact (create_in_spec devnet_coll v_devnets _ now). Qed.
Next Obligation. intros ? now. exact (create_in_spec node_coll v_nodes _ now). Qed.
Next Obligation. intros ? now. exact (create_in_spec upgrade_coll v_upgrades _ now). Qed.
Next Obligation.
  intros ? ns n. rewrite <- qualified_default. exact (delete_in_spec devnet_coll v_devnets _ _).
Qed.
Next Obligation.
  intros ? ns n. rewrite <- qualified_default. exact (delete_in_spec upgrade_coll v_upgrades _ _).
Qed.
Next Obligation.
  intros ? ns d s Hs. refine (cascade_of_keys node_coll v_nodes (λ m v, v <| v_nodes := m |>)
    (node_items ns d s).*1 _ (node_belongs ns d) (node_clear ns d) s Hs _).
  intros k n Hk. rewrite (node_item_key _ _ _ _ _ Hk).
  destruct (store_keys s Hs) as (_ & Hkey & _). rewrite (Hkey k n Hk). split.
  - apply node_belongs_prefix.
  - intros (Hns & Hd & Hns' & Hd' & Hnot) Hp. apply Hnot. by apply node_prefix_exact.
Qed.
Next Obligation.
  intros ? ns d s Hs. refine (cascade_of_keys upgrade_coll v_upgrades (λ m v, v <| v_upgrades := m |>)
    (upgrade_items ns d s).*1 _ (upgrade_belongs ns d) (λ u, ¬ upgrade_belongs ns d u) s Hs _).
  intros k u Hk. rewrite (upgrade_item_key _ _ _ _ _ Hk). tauto.
Qed.
Next Obligation. intros ? ns d s Hs. by apply ListNodes_total. Qed.
Next Obligation. intros ? ns d s nodes. apply bolt_ListNodes_NoDup. Qed.

(** ** Properties *)

(** [UpdateDevnet] answers [NotFoundError] when the devnet is not stored
    and [ConflictError] when the stored generation is not the caller's, and
    then changes nothing; otherwise, unless encoding, writing or the commit
    fails (and then nothing changes either), it stores the devnet with its
    generation advanced by one (wrapping at int64) and [UpdatedAt] set. *)
Theorem UpdateDevnet_outcomes now d s :
  bolt_wf s →
  let '(e, d', s') := UpdateDevnet now d s in
  match v_devnets (bolt_view s) !! devnet_id d with
  | None => e = Some (NotFoundError "devnet" (devnet_id d)) ∧ s' = s
  | Some old =>
      if decide (m_Generation (d_Metadata old) = m_Generation (d_Metadata d)) then
        m_Generation (d_Metadata d') = wrap64 (m_Generation (d_Metadata d) + 1) ∧
        m_UpdatedAt (d_Metadata d') = now ∧ same_devnet d d' ∧ bolt_wf s' ∧
        match e with
        | None => bolt_view s' =
            bolt_view s <| v_devnets := <[devnet_id d := d']> (v_devnets (bolt_view s)) |>
        | Some _ => bolt_view s' = bolt_view s
        end
      else (∃ msg, e = Some (ConflictError "devnet" (devnet_id d) msg)) ∧ s' = s
  end.
Proof.
  intros Hs. pose proof (update_in_outcome devnet_coll v_devnets _ now d s Hs) as Ho.
  change (UpdateDevnet now d s) with (update_in devnet_coll now d s).
  destruct (update_in _ now d s) as [[e d'] s']. simpl in Ho.
  change (devnetKey _ _) with (devnet_id d) in Ho.
  destruct (_ !! devnet_id d); [|done].
  case_decide; [|destruct Ho as [-> ->]; eauto].
  destruct Ho as (-> & Hwf & Ho). split_and!; [done|done| |done|done].
  exact (same_bumped now d).
Qed.

(** C2: no lost update: of two clients that read the same generation of a
    devnet and write one after the other, when the first succeeds the second
    gets a [ConflictError] and the first one's value stays stored. *)
Theorem UpdateDevnet_no_lost_update now now' d1 d2 s d1' s' :
  bolt_wf s → int64_range (m_Generation (d_Metadata d1)) →
  devnet_id d1 = devnet_id d2 →
  m_Generation (d_Metadata d1) = m_Generation (d_Metadata d2) →
  UpdateDevnet now d1 s = (None, d1', s') →
  let '(e, _, s'') := UpdateDevnet now' d2 s' in
  s'' = s' ∧ (∃ err, e = Some err ∧ IsConflict err = true) ∧
  v_devnets (bolt_view s'') !! devnet_id d1 = Some d1'.
Proof.
  intros Hs Hr Hid Hg U. pose proof (update_in_outcome devnet_coll v_devnets _ now d1 s Hs) as Ho.
  change (UpdateDevnet now d1 s) with (update_in devnet_coll now d1 s) in U.
  rewrite U in Ho. simpl in Ho. change (devnetKey _ _) with (devnet_id d1) in Ho.
  destruct (_ !! devnet_id d1); [|by destruct Ho]. case_decide; [|by destruct Ho].
  destruct Ho as (Hd1' & Hwf & Ho).
  assert (Hl : v_devnets (bolt_view s') !! devnet_id d1 = Some d1').
  { rewrite Ho. simpl. by rewrite lookup_insert, decide_True. }
  pose proof (update_in_outcome devnet_coll v_devnets _ now' d2 s' Hwf) as Ho2.
  change (UpdateDevnet now' d2 s') with (update_in devnet_coll now' d2 s').
  destruct (update_in _ now' d2 s') as [[e2 d2'] s2]. simpl in Ho2.
  change (devnetKey _ _) with (devnet_id d2) in Ho2.
  simpl in Hl. rewrite <- Hid, Hl in Ho2.
  assert (Hne : m_Generation (d_Metadata d1') ≠ m_Generation (d_Metadata d2)).
  { rewrite <- Hg, Hd1'. by apply wrap64_succ_ne. }
  rewrite decide_False in Ho2 by done. destruct Ho2 as [-> ->]. eauto.
Qed.

(** [CreateDevnet] on a free name either fails and changes nothing, or
    stores the devnet with generation 1, so that [GetDevnet] returns it;
    on a taken name it answers [AlreadyExistsError]. *)
Theorem CreateDevnet_then_GetDevnet now d s :
  bolt_wf s →
  let '(e, d', s') := CreateDevnet now d s in
  same_devnet d d' ∧ bolt_wf s' ∧
  match v_devnets (bolt_view s) !! devnet_id d with
  | Some _ => e = Some (AlreadyExistsError "devnet" (devnet_id d)) ∧ s' = s
  | None =>
      match e with
      | Some _ => bolt_view s' = bolt_view s
      | None => m_Generation (d_Metadata d') = 1%Z ∧ m_CreatedAt (d_Metadata d') = now ∧
          GetDevnet (m_Namespace (d_Metadata d)) (m_Name (d_Metadata d)) s' = Ok d' ∧
          bolt_view s' =
            bolt_view s <| v_devnets := <[devnet_id d := d']> (v_devnets (bolt_view s)) |>
      end
  end.
Proof.
  intros Hs. pose proof (create_in_outcome devnet_coll v_devnets _ now d s Hs) as Ho.
  change (CreateDevnet now d s) with (create_in devnet_coll now d s).
  destruct (create_in _ now d s) as [[e d'] s']. simpl in Ho.
  change (devnetKey _ _) with (devnet_id d) in Ho. simpl. destruct Ho as [Hwf Ho].
  destruct (_ !! devnet_id d).
  - destruct Ho as (-> & -> & ->). split_and!; [exact (same_ensure d)|done..].
  - destruct Ho as [-> Ho]. split_and!; [exact (same_fresh now d)|done|].
    destruct e; [done|]. split_and!; [done|done| |done].
    pose proof (get_in_lookup devnet_coll v_devnets _ (devnet_id d) s' Hwf) as Hg.
    rewrite Ho in Hg. simpl in Hg. rewrite lookup_insert, decide_True in Hg by done.
    unfold GetDevnet. fold (or_default (m_Namespace (d_Metadata d))).
    change (devnetKey ?a ?b) with (qualified a b). by rewrite qualified_default.
Qed.

(** As long as namespaces and devnet names hold no slash, [ListNodes]
    succeeds and returns exactly the stored nodes of the namespace and
    devnet, although it only scans the keys from the devnet's prefix on and
    stops at the first key without it. *)
Theorem ListNodes_exact ns d s :
  bolt_wf s → no_slash ns → no_slash d →
  map_Forall (λ _ n, no_slash (m_Namespace (n_Metadata n)) ∧
                     no_slash (ns_DevnetRef (n_Spec n))) (v_nodes (bolt_view s)) →
  ∃ nodes, ListNodes ns d s = Ok nodes ∧
    ∀ n, n ∈ nodes ↔
      v_nodes (bolt_view s) !! node_id n = Some n ∧
      or_default (m_Namespace (n_Metadata n)) = or_default ns ∧
      ns_DevnetRef (n_Spec n) = d.
Proof.
  intros Hs Hns Hd Hall. destruct (ListNodes_total ns d s Hs) as [nodes Hl].
  exists nodes. split; [done|]. intros n. rewrite (ListNodes_elem ns d s nodes Hs Hl n).
  split; intros [Hn Hp]; destruct (Hall _ _ Hn); split; try done;
    by apply node_prefix_exact.
Qed.

(** [DeleteNodesByDevnet] either fails and leaves the store as it was, or
    removes exactly the nodes whose key starts with namespace/devnet/, and
    touches nothing else. *)
Theorem DeleteNodesByDevnet_removes_prefix ns d s :
  bolt_wf s →
  let '(e, s') := DeleteNodesByDevnet ns d s in
  bolt_wf s' ∧
  match e with
  | Some _ => s' = s
  | None =>
      v_devnets (bolt_view s') = v_devnets (bolt_view s) ∧
      v_upgrades (bolt_view s') = v_upgrades (bolt_view s) ∧
      v_txs (bolt_view s') = v_txs (bolt_view s) ∧
      ∀ k, v_nodes (bolt_view s') !! k =
        if has_prefix (nodeKeyPrefix ns d) k then None else v_nodes (bolt_view s) !! k
  end.
Proof.
  intros Hs. unfold DeleteNodesByDevnet.
  set (items := node_items ns d s). set (l := omap _ items).
  pose proof (delete_all_spec node_coll v_nodes _ items.*1 l s Hs) as Ho.
  destruct (delete_all _ _ _ _) as [[e|] s']; [done|].
  destruct Ho as (Hwf & m & Hv & Hm). rewrite Hv. simpl. split_and!; [done..|].
  intros k. rewrite Hm. destruct (decide (k ∈ items.*1)) as [Hin|Hin].
  - apply list_elem_of_fmap in Hin as ([k' v] & -> & [_ Hp]%node_items_elem).
    simpl. by rewrite Hp.
  - destruct (has_prefix _ k) eqn:Hp; [|done]. simpl. rewrite decoded_lookup.
    destruct (kv_get k (bo_nodes s)) as [v|] eqn:Hk; [|done]. destruct Hin.
    apply list_elem_of_fmap. exists (k, v). split; [done|]. by apply node_items_elem.
Qed.
End spec.

(** ** The concrete store saves what it should *)

Lemma MapKV_update_live {R} `{ResourceLaws R} `{!Codec any_resource R, !CodecLaws any_resource R}
    (c : coll MapKV R) sel put `{!CollOf R c sel put} now (r old : R) (s : BoltStore MapKV) :
  (∀ r : R, ∃ v, encode r = Ok v) → co_key c r ≠ "" →
  bolt_wf s → sel (bolt_view s) !! co_key c r = Some old →
  m_Generation (meta old) = m_Generation (meta r) →
  (update_in c now r s).1.1 = None.
Proof.
  intros Henc Hne Hs Hl Hg. pose proof (coll_wf s Hs) as Hk.
  rewrite coll_view, decoded_lookup in Hl. apply bind_Some in Hl as (v & Hv & Hd%ok_of_Some).
  unfold update_in. rewrite (key_ensure_ns c sel put), Hv, Hd, bumped_eq, gen_ensure_ns.
  rewrite bool_decide_false by (intros Hn; by apply Hn). destruct (Henc (bumped now r)) as [data ->].
  unfold kv_put, Bucket_KV. rewrite bool_decide_false by done. done.
Qed.

Lemma qualified_not_empty ns n : qualified ns n ≠ "".
Proof. unfold qualified. by destruct (or_default ns). Qed.

#[export] Program Instance MapKV_live `{MapRange} : StoreLive (BoltStore MapKV).
Next Obligation.
  intros ? now d old s Hs Hl Hg.
  eapply (MapKV_update_live devnet_coll v_devnets _); [by eexists| |done|exact Hl|done].
  apply qualified_not_empty.
Qed.
Next Obligation.
  intros ? now d old s Hs Hl Hg.
  eapply (MapKV_update_live node_coll v_nodes _); [by eexists| |done|exact Hl|done].
  change (co_key node_coll d) with (qualified (m_Namespace (n_Metadata d))
    (ns_DevnetRef (n_Spec d)) +:+ ("/" +:+ itoa (ns_Index (n_Spec d)))).
  by destruct (qualified _ _).
Qed.
Next Obligation.
  intros ? now d old s Hs Hl Hg.
  eapply (MapKV_update_live upgrade_coll v_upgrades _); [by eexists| |done|exact Hl|done].
  apply qualified_not_empty.
Qed.
Next Obligation.
  intros ? now t old s Hs Hl Hne. pose proof Hs as (_ & _ & _ & b & Hb & _).
  unfold Store.UpdateTransaction. simpl. unfold UpdateTransaction. simpl in Hl. rewrite Hb in *.
  simpl in Hl. rewrite decoded_lookup in Hl. apply bind_Some in Hl as (v & Hv & _).
  change (m_Name (t_Metadata (ensure_ns t))) with (tx_id (ensure_ns t)).
  assert (Hid : tx_id (ensure_ns t) = tx_id t) by apply key_same, same_ensure.
  rewrite !Hid, Hv. simpl. by rewrite bool_decide_false.
Qed.

#[export] Instance MapKV_creates `{MapRange} : StoreCreates (BoltStore MapKV).
Proof.
  split. intros now n s Hs Hl. pose proof Hs as (_ & Hk & _).
  simpl in Hl. rewrite decoded_lookup in Hl.
  unfold Store.CreateNode. simpl. unfold CreateNode, create_in.
  rewrite (key_ensure_ns node_coll v_nodes (λ m v, v <| v_nodes := m |>) n).
  change (co_key node_coll n) with (node_id n).
  change (co_get node_coll s) with (bo_nodes s).
  destruct (kv_get (node_id n) (bo_nodes s)) as [v|] eqn:Hv; simpl in *.
  { destruct (Hk _ _ Hv) as (r & Hr & _). unfold decode, Node_codec in Hr. by destruct v. }
  unfold encode, Node_codec, kv_put, Bucket_KV. rewrite bool_decide_false; [done|].
  change (node_id n) with (qualified (m_Namespace (n_Metadata n))
    (ns_DevnetRef (n_Spec n)) +:+ ("/" +:+ itoa (ns_Index (n_Spec n)))).
  by destruct (qualified _ _).
Qed.

(** *** Witnesses on a concrete store *)

Definition bolt0 : BoltStore MapKV := NewBoltStore (λ _, None).
Definition ex_bolt_meta (name : string) : ResourceMeta := mkResourceMeta name "" 0 0 0 ∅ ∅.
Definition ex_bolt_devnet : Devnet :=
  mkDevnet (ex_bolt_meta "a")
    (mkDevnetSpec "stable" "cosmos" 2 1 "docker" (mkBinarySource "" "" "" "" "" "")
       "" "" "" "" "" (mkPortConfig 0 0 0 0) (mkResourceLimits "" "") ∅)
    (mkDevnetStatus "" 0 0 0 0 "" [] 0 [] [] "").
(** The store after creating the devnet, and the devnet as read back. *)
Definition bolt1 : BoltStore MapKV := (CreateDevnet 5%Z ex_bolt_devnet bolt0).2.
Definition read1 : Devnet := (CreateDevnet 5%Z ex_bolt_devnet bolt0).1.2.

Lemma bolt0_wf : bolt_wf bolt0.
Proof. split_and!; [done..|]. by exists ∅. Qed.

Lemma bolt1_wf : bolt_wf bolt1.
Proof. apply (create_in_wf devnet_coll v_devnets _), bolt0_wf. Qed.

Lemma UpdateDevnet_outcomes_witness :
  let '(_, d', s') := UpdateDevnet 9%Z read1 bolt1 in
  m_Generation (d_Metadata d') = 2%Z ∧ m_UpdatedAt (d_Metadata d') = 9%Z ∧ bolt_wf s'.
Proof.
  pose proof (UpdateDevnet_outcomes 9%Z read1 bolt1 bolt1_wf) as Ho.
  replace (v_devnets (bolt_view bolt1) !! devnet_id read1) with (Some read1) in Ho
    by (vm_compute; reflexivity).
  destruct (UpdateDevnet 9%Z read1 bolt1) as [[e d'] s'].
  rewrite decide_True in Ho by reflexivity.
  destruct Ho as (-> & -> & _ & Hwf & _). split; [vm_compute; reflexivity|by split].
Defined.

Lemma UpdateDevnet_no_lost_update_witness :
  let s' := (UpdateDevnet 9%Z read1 bolt1).2 in
  let d2 := read1 <| d_Status; dst_Phase := "Failed" |> in
  (UpdateDevnet 12%Z d2 s').2 = s'.
Proof.
  intros s' d2.
  assert (E : UpdateDevnet 9%Z read1 bolt1 = (None, (UpdateDevnet 9%Z read1 bolt1).1.2, s'))
    by (vm_compute; reflexivity).
  pose proof (UpdateDevnet_no_lost_update 9%Z 12%Z read1 d2 bolt1 _ s' bolt1_wf
    ltac:(vm_compute; intuition congruence) eq_refl eq_refl E) as Ho.
  destruct (UpdateDevnet 12%Z d2 s') as [[e2 d2'] s2]. by destruct Ho.
Defined.

Lemma CreateDevnet_then_GetDevnet_witness :
  GetDevnet "" "a" bolt1 = Ok read1.
Proof.
  pose proof (CreateDevnet_then_GetDevnet 5%Z ex_bolt_devnet bolt0 bolt0_wf) as Ho.
  replace (v_devnets (bolt_view bolt0) !! devnet_id ex_bolt_devnet) with (@None Devnet) in Ho
    by (vm_compute; reflexivity).
  assert (E : CreateDevnet 5%Z ex_bolt_devnet bolt0 = (None, read1, bolt1))
    by (vm_compute; reflexivity).
  rewrite E in Ho. by destruct Ho as (_ & _ & _ & _ & Hg & _).
Defined.

(** The same store with a node of devnet [a] and one of devnet [a2]. *)
Definition ex_bolt_node (devnet : string) (index : Z) : Node :=
  mkNode (ex_bolt_meta "n")
    (mkNodeSpec devnet "" index "validator" "" "" "" "Running" "" "")
    (mkNodeStatus "" 0 0 0 false 0 "" "" "" 0 0 0 0).
Definition bolt2 : BoltStore MapKV :=
  (CreateNode 6%Z (ex_bolt_node "a2" 0) (CreateNode 6%Z (ex_bolt_node "a" 0) bolt1).2).2.

Lemma bolt2_wf : bolt_wf bolt2.
Proof. do 2 apply (create_in_wf node_coll v_nodes _). apply bolt1_wf. Qed.

Lemma ListNodes_exact_witness : ∃ nodes, ListNodes "" "a" bolt2 = Ok nodes ∧ length nodes = 1.
Proof.
  destruct (ListNodes_exact "" "a" bolt2 bolt2_wf ltac:(reflexivity) ltac:(reflexivity))
    as (nodes & Hn & _).
  - apply map_Forall_to_list. vm_compute. repeat constructor.
  - exists nodes. split; [done|]. revert Hn. vm_compute. by intros [= <-].
Defined.

Lemma DeleteNodesByDevnet_removes_prefix_witness :
  let s' := (DeleteNodesByDevnet "" "a" bolt2).2 in
  v_nodes (bolt_view s') !! "default/a/0" = None ∧
  v_nodes (bolt_view s') !! "default/a2/0" = v_nodes (bolt_view bolt2) !! "default/a2/0".
Proof.
  pose proof (DeleteNodesByDevnet_removes_prefix "" "a" bolt2 bolt2_wf) as Ho.
  assert (E : (DeleteNodesByDevnet "" "a" bolt2).1 = None) by (vm_compute; reflexivity).
  destruct (DeleteNodesByDevnet "" "a" bolt2) as [e s']. simpl in E. subst e.
  destruct Ho as (_ & _ & _ & _ & Ho). simpl. by rewrite !Ho.
Defined.

(** A devnet's key splits back into its namespace (the empty one read as
    [default]) and its name, whatever slashes the name holds, as long as the
    namespace holds none. *)
Theorem parseDevnetKey_devnetKey ns name :
  has_char slash ns = false →
  parseDevnetKey (devnetKey ns name) = (or_default ns, name).
Proof.
  intros Hns%no_slash_default. unfold parseDevnetKey.
  change (devnetKey ns name) with (or_default ns +:+ String slash name).
  by rewrite split2_app.
Qed.

Lemma parseDevnetKey_devnetKey_witness :
  parseDevnetKey (devnetKey "" "a/b") = ("default", "a/b").
Proof. apply (parseDevnetKey_devnetKey "" "a/b"). reflexivity. Defined.
