(* ===== verification/Backoff.v ===== *)
(** * Exponential backoff

    The loop that both [calculateBackoff]s of the daemon run
    ([controller/health.go] and [runtime/supervisor.go]): a delay multiplied in
    binary64 and capped.  Go's [float64] is the standard library's [spec_float]
    with 53 bits of precision. *)

From Stdlib Require Import SpecFloat.
From stdpp Require Import base tactics numbers.
From S2P Require Import Prelude.

(** ** Floating point *)

(** [float64(z)] for an integer. *)
Definition float64_of (z : Z) : spec_float := binary_normalize 53 1024 z 0 false.

Definition float64_mul (x y : spec_float) : spec_float := SFmul 53 1024 x y.

(** [time.Duration(f)]: truncation toward zero; a value that does not fit an
    int64 (or is no number) becomes the least int64, as on amd64. *)
Definition int64_of_float (f : spec_float) : Z :=
  match f with
  | S754_zero _ => 0%Z
  | S754_finite s m e =>
      let a := (if bool_decide (0 ≤ e)%Z then Zpos m * 2 ^ e else Zpos m / 2 ^ (- e))%Z in
      let z := if s then (- a)%Z else a in
      if bool_decide (int64_range z) then z else (- 2^63)%Z
  | _ => (- 2^63)%Z
  end.

(** ** The loop *)

(** [backoff = time.Duration(float64(backoff) * factor)], ended by [max]; [n]
    rounds to go. *)
Fixpoint backoff_loop (factor : spec_float) (max : Duration) (n : nat) (backoff : Duration)
    : Duration :=
  match n with
  | O => backoff
  | S n =>
      let backoff := int64_of_float (float64_mul (float64_of backoff) factor) in
      if bool_decide (max < backoff)%Z then max else backoff_loop factor max n backoff
  end.

Lemma backoff_step factor max n b :
  backoff_loop factor max (S n) b =
    (let b' := int64_of_float (float64_mul (float64_of b) factor) in
     if bool_decide (max < b')%Z then max else backoff_loop factor max n b').
Proof. done. Qed.

(** The delay never exceeds the cap, unless the first one does. *)
Lemma backoff_le factor max n b :
  (b ≤ max)%Z → (backoff_loop factor max n b ≤ max)%Z.
Proof.
  revert b; induction n as [|n IH]; intros b Hb; [done|]. rewrite backoff_step. cbv zeta.
  case_bool_decide; [lia|]. apply IH. lia.
Qed.

(** Evaluates the loop on closed delays until the cap is reached, [n] being a
    variable from there on. *)
Ltac backoff_eval :=
  repeat (rewrite backoff_step; cbv zeta;
    match goal with
    | |- context [int64_of_float ?x] =>
        let v := eval vm_compute in (int64_of_float x) in
        replace (int64_of_float x) with v by (vm_compute; reflexivity)
    end;
    match goal with
    | |- context [bool_decide ?P] =>
        let v := eval vm_compute in (bool_decide P) in
        replace (bool_decide P) with v by (vm_compute; reflexivity)
    end; cbv iota; try reflexivity).
