(* ===== verification/Paths.v ===== *)
(** * Paths

    [filepath.Clean] and [filepath.Join] of Go's standard library on a Unix
    system, which the provisioning code builds its directories with, and what
    they do to the components of a path. *)

From Stdlib Require Import Ascii.
From stdpp Require Import base tactics numbers list strings sets.
From S2P Require Import Prelude.

(** One component of a path; [stack] are the components kept so far, the last
    one first. *)
Definition clean_step (rooted : bool) (stack : list string) (c : string) : list string :=
  if bool_decide (c = "") || bool_decide (c = ".") then stack
  else if bool_decide (c = "..") then
    match stack with
    | [] => if rooted then [] else [".."]
    | top :: rest => if bool_decide (top = "..") then ".." :: stack else rest
    end
  else c :: stack.

Definition rooted (path : string) : bool := has_prefix "/" path.

(** The components of the cleaned path, the last one first. *)
Definition clean_stack (path : string) : list string :=
  foldl (clean_step (rooted path)) [] (split_on slash path).

Definition Clean (path : string) : string :=
  if bool_decide (path = "") then "."
  else
    let out := String.concat "/" (rev (clean_stack path)) in
    if rooted path then "/" +:+ out
    else if bool_decide (out = "") then "." else out.

(** Leading empty elements are dropped. *)
Fixpoint Join (elem : list string) : string :=
  match elem with
  | [] => ""
  | e :: elem =>
      if bool_decide (e = "") then Join elem else Clean (String.concat "/" (e :: elem))
  end.

Example Clean_examples :
  Clean "/a/../../b//./c/" = "/b/c" ∧ Clean "../a/../.." = "../.." ∧ Clean "a/.." = "." ∧
  Join ["/data"; "../x"; "nodes"] = "/x/nodes" ∧ Join [""; ""] = "".
Proof. vm_compute. done. Qed.

(** ** Components *)

Lemma split_on_ne c a : split_on c a ≠ [].
Proof.
  induction a as [|x a IH]; simpl; [done|]. case_bool_decide; [done|]. by destruct (split_on c a).
Qed.

Lemma split_on_sep c a b : split_on c (a +:+ String c b) = split_on c a ++ split_on c b.
Proof.
  induction a as [|x a IH]; simpl; [by rewrite bool_decide_true|].
  case_bool_decide; rewrite IH; [done|].
  pose proof (split_on_ne c a). by destruct (split_on c a).
Qed.

Lemma split_on_one c a x : split_on c a = [x] → a = x.
Proof.
  revert x. induction a as [|y a IH]; simpl; intros x; [congruence|].
  pose proof (split_on_ne c a). case_bool_decide; [intros [= _ E]; done|].
  destruct (split_on c a) as [|z rest] eqn:E; [done|]. intros [= <- ->]. by rewrite (IH z).
Qed.

(** Two parts without the separator are found again. *)
Lemma sep_parts c a b x y :
  has_char c x = false → has_char c y = false →
  a +:+ String c b = x +:+ String c y → a = x ∧ b = y.
Proof.
  intros Hx Hy E. apply (f_equal (split_on c)) in E.
  rewrite !split_on_sep, (split_on_none c x), (split_on_none c y) in E by done. simpl in E.
  pose proof (split_on_ne c a). pose proof (split_on_ne c b).
  destruct (split_on c a) as [|a1 [|a2 l]] eqn:Ea; [done| |].
  - injection E as -> Eb. split; by eapply split_on_one.
  - injection E as -> -> El. by destruct l, (split_on c b).
Qed.

(** A name that is a component of its own. *)
Definition plain (name : string) : Prop :=
  has_char slash name = false ∧ name ≠ "" ∧ name ≠ "." ∧ name ≠ "..".

Lemma rooted_app a b : a ≠ "" → rooted (a +:+ b) = rooted a.
Proof. by destruct a. Qed.

Lemma clean_stack_sep a b :
  a ≠ "" →
  clean_stack (a +:+ "/" +:+ b) = foldl (clean_step (rooted a)) (clean_stack a) (split_on slash b).
Proof.
  intros Ha. unfold clean_stack. rewrite rooted_app by done.
  change (a +:+ "/" +:+ b) with (a +:+ String slash b). by rewrite split_on_sep, foldl_app.
Qed.

(** The absolute path of some components. *)
Definition absolute (stack : list string) : string := "/" +:+ String.concat "/" (rev stack).

Lemma Clean_rooted p : rooted p = true → Clean p = absolute (clean_stack p).
Proof. intros Hr. unfold Clean. rewrite bool_decide_false by (by intros ->). by rewrite Hr. Qed.

(** A plain name is put below the path. *)
Lemma clean_stack_plain a name :
  a ≠ "" → plain name → clean_stack (a +:+ "/" +:+ name) = name :: clean_stack a.
Proof.
  intros Ha (Hs & H1 & H2 & H3). rewrite clean_stack_sep, split_on_none by done. simpl.
  unfold clean_step. by rewrite !bool_decide_false by done.
Qed.

(** Two dots lead to the directory above. *)
Lemma clean_stack_up a :
  rooted a = true → clean_stack (a +:+ "/..") = tail (clean_stack a).
Proof.
  intros Hr. assert (Ha : a ≠ "") by (by intros ->).
  change (a +:+ "/..") with (a +:+ "/" +:+ ".."). rewrite clean_stack_sep by done.
  change (split_on slash "..") with [".."]. simpl. unfold clean_step. simpl. rewrite Hr.
  destruct (clean_stack a) as [|top rest] eqn:E; [done|]. simpl.
  rewrite bool_decide_false; [done|].
  assert (Hn : ∀ l stack, ".." ∉ stack → ".." ∉ foldl (clean_step true) stack l).
  { induction l as [|c l IH]; intros stack Hst; [done|]. simpl. apply IH. unfold clean_step.
    repeat case_bool_decide; simpl; try done; destruct stack as [|t r]; try done;
      try case_bool_decide; set_solver. }
  specialize (Hn (split_on slash a) []). unfold clean_stack in E. rewrite Hr in E. rewrite E in Hn.
  set_solver.
Qed.

(** ** The last component *)

Definition base (p : string) : option string := last (split_on slash p).

Lemma concat_snoc sep l c :
  l ≠ [] → String.concat sep (l ++ [c]) = String.concat sep l +:+ sep +:+ c.
Proof.
  induction l as [|x l IH]; [done|]. intros _. destruct l as [|y l]; [done|].
  change (x +:+ sep +:+ String.concat sep ((y :: l) ++ [c]) =
    (x +:+ sep +:+ String.concat sep (y :: l)) +:+ sep +:+ c).
  by rewrite IH, <- !append_assoc.
Qed.

Lemma base_sep a c : has_char slash c = false → base (a +:+ "/" +:+ c) = Some c.
Proof.
  intros Hc. unfold base. change (a +:+ "/" +:+ c) with (a +:+ String slash c).
  by rewrite split_on_sep, (split_on_none slash c), last_snoc.
Qed.

Lemma Clean_base p c s :
  p ≠ "" → clean_stack p = c :: s → has_char slash c = false → c ≠ "" → base (Clean p) = Some c.
Proof.
  intros Hp Hs Hc Hne. unfold Clean. rewrite bool_decide_false by done. rewrite Hs. simpl rev.
  destruct (decide (s = [])) as [->|Hs'].
  - simpl. destruct (rooted p); [by apply (base_sep "")|]. rewrite bool_decide_false by done.
    unfold base. by rewrite split_on_none.
  - assert (Hr : rev s ≠ []) by (by intros Hr%(f_equal (@rev _)); rewrite rev_involutive in Hr).
    rewrite concat_snoc by done. destruct (rooted p).
    + rewrite append_assoc. by apply base_sep.
    + rewrite bool_decide_false; [by apply base_sep|]. by destruct (String.concat "/" (rev s)).
Qed.

(** A plain last element is the last component of the joined path. *)
Lemma Join_base d name : plain name → base (Join [d; name]) = Some name.
Proof.
  intros Hpl. pose proof Hpl as (Hs & Hne & _). simpl. rewrite (bool_decide_false (name = "")) by done.
  case_bool_decide as Hd.
  - apply (Clean_base _ name []); [done| |done|done]. unfold clean_stack. rewrite split_on_none by done.
    simpl. unfold clean_step. destruct Hpl as (_ & H1 & H2 & H3). by rewrite !bool_decide_false by done.
  - eapply Clean_base; [|by apply clean_stack_plain|done|done]. by destruct d.
Qed.

Lemma Join3_base d e name :
  e ≠ "" → plain name → base (Join [d; e; name]) = Some name.
Proof.
  intros He Hpl. pose proof Hpl as (Hs & Hne & _). simpl.
  rewrite (bool_decide_false (e = "")) by done. case_bool_decide as Hd.
  - eapply Clean_base; [|by apply clean_stack_plain|done|done]. by destruct e.
  - assert (E : d +:+ "/" +:+ e +:+ "/" +:+ name = (d +:+ "/" +:+ e) +:+ "/" +:+ name)
      by by rewrite <- !append_assoc.
    eapply Clean_base; [|rewrite E; apply clean_stack_plain; [by destruct d|done]|done|done].
    by destruct d.
Qed.
