(* ===== verification/WorkQueue.v ===== *)
(** * The deduplicating work queue ([internal/daemon/controller/queue.go])

    Every method holds the queue's mutex, so it is one atomic step.  [Get]
    releases it in [cond.Wait]: a call of [Get] is one step until it returns or
    goes to sleep, and one step ([resume]) each time a sleeper that was woken
    has the mutex again.  The condition variable is the number of sleepers and
    the number of woken ones that have not run yet; which sleeper a signal
    wakes is left open. *)

From stdpp Require Import base tactics numbers list strings gmap.
From S2P Require Import Prelude.

Section queue.
Context {A : Type} `{Countable A}.

Record WorkQueue := mkWorkQueue {
  q_queue : list A;
  q_dirty : gset A;
  q_processing : gset A;
  q_shuttingDown : bool;
  q_waiting : nat;  (* asleep in cond.Wait *)
  q_woken : nat     (* signalled, waiting for the mutex *)
}.

#[export] Instance eta_WorkQueue : Settable WorkQueue := mkSettable (λ x,
mkWorkQueue (q_queue x) (q_dirty x) (q_processing x) (q_shuttingDown x)
    (q_waiting x) (q_woken x)).

Implicit Types q : WorkQueue.

Definition NewWorkQueue : WorkQueue := mkWorkQueue [] ∅ ∅ false 0 0.

(** [cond.Signal] wakes one sleeper, if any; [cond.Broadcast] all. *)
Definition Signal q : WorkQueue :=
  match q_waiting q with
  | O => q
  | S n => q <| q_waiting := n |> <| q_woken := S (q_woken q) |>
  end.

Definition Broadcast q : WorkQueue :=
  q <| q_waiting := 0 |> <| q_woken := q_woken q + q_waiting q |>.

Definition Add (item : A) q : WorkQueue :=
  if q_shuttingDown q then q
  else if bool_decide (item ∈ q_dirty q) then q
  else
    let q := q <| q_dirty := q_dirty q ∪ {[item]} |> in
    if bool_decide (item ∈ q_processing q) then q
    else Signal (q <| q_queue := q_queue q ++ [item] |>).

(** How a call of [Get] leaves the mutex. *)
Inductive get_result :=
| GotItem (item : A)   (* returned (item, false) *)
| GotShutdown          (* returned (nil, true) *)
| Asleep.              (* in cond.Wait *)

(** One pass through [Get]'s loop, from holding the mutex. *)
Definition Get q : get_result * WorkQueue :=
  if q_shuttingDown q then (GotShutdown, q)
  else
    match q_queue q with
    | [] => (Asleep, q <| q_waiting := S (q_waiting q) |>)
    | item :: rest =>
        (GotItem item,
         q <| q_queue := rest |> <| q_dirty := q_dirty q ∖ {[item]} |>
           <| q_processing := q_processing q ∪ {[item]} |>)
    end.

(** A woken sleeper goes around the loop again. *)
Definition resume q : option (get_result * WorkQueue) :=
  match q_woken q with
  | O => None
  | S n => Some (Get (q <| q_woken := n |>))
  end.

Definition Done (item : A) q : WorkQueue :=
  let q := q <| q_processing := q_processing q ∖ {[item]} |> in
  if bool_decide (item ∈ q_dirty q)
  then Signal (q <| q_queue := q_queue q ++ [item] |>)
  else q.

Definition Requeue (item : A) q : WorkQueue :=
  let q := q <| q_processing := q_processing q ∖ {[item]} |> in
  if q_shuttingDown q then q
  else Signal (q <| q_dirty := q_dirty q ∪ {[item]} |>
                 <| q_queue := q_queue q ++ [item] |>).

Definition Len q : nat := length (q_queue q).

Definition ShutDown q : WorkQueue := Broadcast (q <| q_shuttingDown := true |>).

Definition ShuttingDown q : bool := q_shuttingDown q.

(** ** The queue under any sequence of calls *)

Inductive call : WorkQueue → WorkQueue → Prop :=
| call_add x q : call q (Add x q)
| call_get q : call q (Get q).2
| call_resume q r q' : resume q = Some (r, q') → call q q'
| call_done x q : call q (Done x q)
| call_requeue x q : call q (Requeue x q)
| call_shutdown q : call q (ShutDown q).

(** No work is lost while the queue runs: a dirty item is queued, or being
    processed and queued again by the [Done] that ends it. *)
Definition kept q : Prop :=
  q_shuttingDown q = false → ∀ x, x ∈ q_dirty q → x ∈ q_queue q ∨ x ∈ q_processing q.

(** No wakeup is lost: while a worker sleeps, the queue is running and every
    queued item has a woken worker on its way to it. *)
Definition awake q : Prop :=
  0 < q_waiting q → q_shuttingDown q = false ∧ length (q_queue q) ≤ q_woken q.

(** ** The queue under workers

    [running] is the list of the items workers hold, each until its worker
    calls [Done], or [Requeue] in place of [Done]. *)
Inductive worker_step : WorkQueue * list A → WorkQueue * list A → Prop :=
| ws_add x q run : worker_step (q, run) (Add x q, run)
| ws_get q q' r run : Get q = (r, q') →
    worker_step (q, run) (q', match r with GotItem x => x :: run | _ => run end)
| ws_resume q q' r run : resume q = Some (r, q') →
    worker_step (q, run) (q', match r with GotItem x => x :: run | _ => run end)
| ws_done x q l1 l2 : worker_step (q, l1 ++ x :: l2) (Done x q, l1 ++ l2)
| ws_requeue x q l1 l2 : worker_step (q, l1 ++ x :: l2) (Requeue x q, l1 ++ l2)
| ws_shutdown q run : worker_step (q, run) (ShutDown q, run).

(** The queue's invariant while the workers follow that protocol. *)
Definition exclusive (s : WorkQueue * list A) : Prop :=
  let '(q, run) := s in
  NoDup (q_queue q) ∧ NoDup run ∧
  (∀ x, x ∈ run ↔ x ∈ q_processing q) ∧
  (∀ x, x ∈ q_queue q → x ∈ q_dirty q ∧ x ∉ q_processing q) ∧
  kept q.
End queue.

Arguments WorkQueue A {_ _}.
Arguments get_result A : clear implicits.

Section props.
Context {A : Type} `{Countable A}.
Implicit Types (q : WorkQueue A) (x : A).

Lemma Signal_eq q :
  Signal q = q <| q_waiting := pred (q_waiting q) |>
               <| q_woken := if decide (0 < q_waiting q) then S (q_woken q) else q_woken q |>.
Proof. unfold Signal. destruct q as [? ? ? ? [|n] w]; done. Qed.

Lemma Signal_fields q :
  q_queue (Signal q) = q_queue q ∧ q_dirty (Signal q) = q_dirty q ∧
  q_processing (Signal q) = q_processing q ∧ q_shuttingDown (Signal q) = q_shuttingDown q.
Proof. by rewrite Signal_eq. Qed.

(** Appending an item and signalling keeps [awake]. *)
Lemma awake_push x q q' :
  awake q → q_waiting q' = q_waiting q → q_woken q' = q_woken q →
  q_shuttingDown q' = q_shuttingDown q →
  q_queue q' = q_queue q ++ [x] → awake (Signal q').
Proof.
  unfold awake. rewrite Signal_eq. simpl. intros Ha -> -> -> ->.
  rewrite length_app. simpl. case_decide; [|lia].
  intros Hw. destruct (Ha ltac:(lia)). split; [done|]. lia.
Qed.

Lemma Get_awake q : awake q → awake (Get q).2.
Proof.
  unfold awake, Get. intros Ha. destruct (q_shuttingDown q) eqn:Hs; simpl.
  - by rewrite Hs.
  - destruct (q_queue q) eqn:Hq; simpl in *; rewrite ?Hs, ?Hq; simpl; [split; [done|lia]|].
    intros Hw. destruct (Ha Hw). split; [done|lia].
Qed.

Lemma Get_kept q : kept q → kept (Get q).2.
Proof.
  unfold kept, Get. intros Hk. destruct (q_shuttingDown q) eqn:Hs; simpl; [congruence|].
  destruct (q_queue q) as [|y rest] eqn:Hq; simpl.
  - rewrite Hs, ?Hq. auto.
  - intros _ x [Hx Hn]%elem_of_difference. destruct (Hk eq_refl x Hx); set_solver.
Qed.

Lemma resume_inv q r q' :
  resume q = Some (r, q') →
  0 < q_woken q ∧ Get (q <| q_woken := pred (q_woken q) |>) = (r, q').
Proof. unfold resume. destruct (q_woken q) as [|n]; [done|]. intros [=]. split; [lia|done]. Qed.

Lemma resume_snd q r q' :
  resume q = Some (r, q') → q' = (Get (q <| q_woken := pred (q_woken q) |>)).2.
Proof. intros [_ E]%resume_inv. by rewrite E. Qed.

(** Unfold one method and split on the conditions it tests. *)
Ltac run_queue :=
  unfold Add, Done, Requeue, ShutDown, Broadcast; simpl;
  repeat match goal with
  | |- context [if q_shuttingDown ?q then _ else _] => destruct (q_shuttingDown q) eqn:?
  | |- context [bool_decide _] => case_bool_decide
  end;
  rewrite ?Signal_eq; simpl in *.

Lemma call_kept q q' : call q q' → kept q → kept q'.
Proof.
  intros Hc Hk. destruct Hc as [x q|q|q r q' Hr|x q|x q|q].
  - revert Hk. unfold kept. run_queue; set_solver.
  - by apply Get_kept.
  - rewrite (resume_snd _ _ _ Hr). by apply Get_kept.
  - revert Hk. unfold kept. run_queue; intros Hk Hs y Hy;
      pose proof (Hk ltac:(congruence) y); destruct (decide (y = x)) as [->|]; set_solver.
  - revert Hk. unfold kept. run_queue; intros Hk Hs y Hy; [congruence|];
      pose proof (Hk ltac:(congruence) y); destruct (decide (y = x)) as [->|]; set_solver.
  - revert Hk. unfold kept. by run_queue.
Qed.

Lemma call_awake q q' : call q q' → awake q → awake q'.
Proof.
  intros Hc Ha. destruct Hc as [x q|q|q r q' Hr|x q|x q|q].
  - unfold Add. destruct (q_shuttingDown q); [done|].
    repeat (case_bool_decide; [done|]); simpl. by eapply (awake_push x q).
  - by apply Get_awake.
  - apply resume_inv in Hr as [Hw E]. revert E. unfold Get. simpl.
    unfold awake in *. destruct (q_shuttingDown q) eqn:Hs.
    + intros [= <- <-]. simpl. rewrite ?Hs. intros ?. by destruct Ha.
    + destruct (q_queue q) eqn:Hq; intros [= <- <-]; simpl; rewrite ?Hq, ?Hs; simpl.
      * split; [done|lia].
      * intros Hp. destruct (Ha Hp) as [_ Hl]. simpl in Hl. split; [done|lia].
  - unfold Done. simpl. case_bool_decide; [|done]. by eapply (awake_push x q).
  - unfold Requeue. simpl. destruct (q_shuttingDown q) eqn:Hs; [by revert Ha; unfold awake; simpl; rewrite Hs|].
    by eapply (awake_push x q).
  - unfold awake, ShutDown, Broadcast. simpl. lia.
Qed.

(** Only [Get] changes the number of goroutines in [cond.Wait]. *)
Definition tokens q : nat := q_waiting q + q_woken q.

Lemma tokens_Signal q : tokens (Signal q) = tokens q.
Proof. unfold tokens, Signal. destruct (q_waiting q) eqn:E; simpl; lia. Qed.

Lemma tokens_Add x q : tokens (Add x q) = tokens q.
Proof.
  unfold Add. destruct (q_shuttingDown q); [done|].
  repeat (case_bool_decide; [done|]; simpl). by rewrite tokens_Signal.
Qed.

Lemma tokens_Done x q : tokens (Done x q) = tokens q.
Proof. unfold Done. simpl. case_bool_decide; [by rewrite tokens_Signal|done]. Qed.

Lemma tokens_Requeue x q : tokens (Requeue x q) = tokens q.
Proof.
  unfold Requeue. simpl. destruct (q_shuttingDown q); [done|by rewrite tokens_Signal].
Qed.

Lemma tokens_ShutDown q : tokens (ShutDown q) = tokens q.
Proof. unfold tokens, ShutDown, Broadcast. simpl. lia. Qed.

Lemma tokens_Get q :
  tokens (Get q).2 = match (Get q).1 with Asleep => S (tokens q) | _ => tokens q end.
Proof. unfold Get, tokens. destruct (q_shuttingDown q), (q_queue q); simpl; lia. Qed.

Lemma tokens_resume q r q' :
  resume q = Some (r, q') →
  S (tokens q') = match r with Asleep => S (tokens q) | _ => tokens q end.
Proof.
  intros [Hw E]%resume_inv. pose proof (tokens_Get (q <| q_woken := pred (q_woken q) |>)) as Ht.
  rewrite E in Ht. simpl in Ht. rewrite Ht. unfold tokens. simpl. destruct r; lia.
Qed.

Lemma exclusive_new : exclusive (A:=A) (NewWorkQueue, []).
Proof. unfold exclusive, kept. simpl. split_and!; try constructor; set_solver. Qed.

Lemma Get_exclusive q run r q' :
  exclusive (q, run) → Get q = (r, q') →
  exclusive (q', match r with GotItem x => x :: run | _ => run end).
Proof.
  intros (Hnq & Hnr & Hrun & Hq & Hk) E. pose proof (Get_kept q Hk) as Hk'.
  rewrite E in Hk'. simpl in Hk'. unfold exclusive. revert E. unfold Get.
  destruct (q_shuttingDown q) eqn:Hs; [by intros [= <- <-]|].
  destruct (q_queue q) as [|y rest] eqn:Hqq; intros [= <- <-]; simpl in *.
  - rewrite Hqq. by split_and!.
  - apply NoDup_cons in Hnq as [Hy Hnq]. destruct (Hq y ltac:(set_solver)).
    split_and!; [done| | | |done].
    + apply NoDup_cons. by rewrite Hrun.
    + set_solver.
    + intros x Hx. destruct (Hq x ltac:(set_solver)). set_solver.
Qed.

(** Dropping one held item. *)
Lemma run_remove l1 x l2 (X : gset A) :
  NoDup (l1 ++ x :: l2) → (∀ y, y ∈ l1 ++ x :: l2 ↔ y ∈ X) →
  NoDup (l1 ++ l2) ∧ x ∈ X ∧ ∀ y, y ∈ l1 ++ l2 ↔ y ∈ X ∖ {[x]}.
Proof.
  rewrite <- Permutation_middle. intros [Hx Hn]%NoDup_cons Hy.
  split; [done|]. split; [set_solver|]. intros y. specialize (Hy y). set_unfold.
  destruct (decide (y = x)) as [->|]; naive_solver.
Qed.

Lemma NoDup_push x (l : list A) : NoDup l → x ∉ l → NoDup (l ++ [x]).
Proof.
  intros Hl Hx. apply NoDup_app. split_and!; [done| |apply NoDup_singleton].
  intros y Hy ->%list_elem_of_singleton. done.
Qed.

(** Appending an item that is dirty and not processed. *)
Lemma push_dirty x (l : list A) (D D' P P' : gset A) :
  (∀ y, y ∈ l → y ∈ D ∧ y ∉ P) → D ⊆ D' → P' ⊆ P → x ∈ D' → x ∉ P' →
  ∀ y, y ∈ l ++ [x] → y ∈ D' ∧ y ∉ P'.
Proof.
  intros Hq HD HP Hx Hn y [Hy|Hy%list_elem_of_singleton]%elem_of_app; [|by subst].
  destruct (Hq y Hy). split; [by apply HD|]. intros Hp. by apply HP in Hp.
Qed.

Lemma worker_step_exclusive (s s' : WorkQueue A * list A) :
  worker_step s s' → exclusive s → exclusive s'.
Proof.
  intros Hc. destruct Hc as [x q run|q q' r run E|q q' r run Hr|x q l1 l2|x q l1 l2|q run].
  - intros (Hnq & Hnr & Hrun & Hq & Hk).
    pose proof (call_kept _ _ (call_add x q) Hk) as Hk'. revert Hk'.
    unfold exclusive. run_queue; intros Hk'; split_and!; try done.
    + intros y Hy. destruct (Hq y Hy). set_solver.
    + apply NoDup_push; [done|]. intros Hx. by destruct (Hq x Hx).
    + eapply push_dirty; [exact Hq|set_solver..].
  - intros He. by apply (Get_exclusive q).
  - intros He. apply resume_inv in Hr as [_ E]. by eapply Get_exclusive, E.
  - intros (Hnq & Hnr & Hrun & Hq & Hk).
    pose proof (call_kept _ _ (call_done x q) Hk) as Hk'. revert Hk'.
    destruct (run_remove _ _ _ _ Hnr Hrun) as (Hnr' & Hx & Hrun').
    unfold exclusive. run_queue; intros Hk'; split_and!; try done.
    + apply NoDup_push; [done|]. intros Hxq. by destruct (Hq x Hxq).
    + eapply push_dirty; [exact Hq|set_solver..].
    + intros y Hy. destruct (Hq y Hy). set_solver.
  - intros (Hnq & Hnr & Hrun & Hq & Hk).
    pose proof (call_kept _ _ (call_requeue x q) Hk) as Hk'. revert Hk'.
    destruct (run_remove _ _ _ _ Hnr Hrun) as (Hnr' & Hx & Hrun').
    unfold exclusive. run_queue; intros Hk'; split_and!; try done.
    + intros y Hy. destruct (Hq y Hy). set_solver.
    + apply NoDup_push; [done|]. intros Hxq. by destruct (Hq x Hxq).
    + eapply push_dirty; [exact Hq|set_solver..].
  - intros (Hnq & Hnr & Hrun & Hq & Hk).
    pose proof (call_kept _ _ (call_shutdown q) Hk) as Hk'. by split_and!.
Qed.

(** ** Properties *)

(** C3: whatever sequence of calls a queue receives, no work is lost while it
    runs (a dirty item is queued, or held by a worker whose [Done] queues
    it), no wakeup is lost (while a worker sleeps in [Get], every queued item
    has a woken worker coming for it) and nobody sleeps once the queue shuts
    down. *)
Theorem WorkQueue_no_lost_work q :
  rtc call NewWorkQueue q →
  (q_shuttingDown q = false →
     ∀ x, x ∈ q_dirty q → x ∈ q_queue q ∨ x ∈ q_processing q) ∧
  (0 < q_waiting q → q_shuttingDown q = false ∧ length (q_queue q) ≤ q_woken q).
Proof.
  intros Hr. enough (kept q ∧ awake q) by done.
  eapply (rtc_ind_r (λ q, kept q ∧ awake q) NewWorkQueue); [|  |exact Hr].
  - split; [|unfold awake; simpl; lia]. intros _ x Hx. by apply not_elem_of_empty in Hx.
  - intros q1 q2 _ Hc [Hk Ha]. split; [by eapply call_kept|by eapply call_awake].
Qed.

(** When every worker ends an item with [Done], or with [Requeue] instead
    of [Done], no two workers hold the same item at the same time, no item is
    queued twice, and an item that is held is not queued. *)
Theorem WorkQueue_mutual_exclusion q run :
  rtc worker_step (NewWorkQueue, []) (q, run) →
  NoDup run ∧ NoDup (q_queue q) ∧ (∀ x, x ∈ q_queue q → x ∉ run) ∧
  (∀ x, x ∈ run ↔ x ∈ q_processing q).
Proof.
  intros Hr. assert (He : exclusive (q, run)).
  { eapply (rtc_ind_r exclusive (NewWorkQueue, [])); [exact exclusive_new| |exact Hr].
    intros s1 s2 _ Hs He. by eapply worker_step_exclusive. }
  destruct He as (Hnq & Hnr & Hrun & Hq & _). split_and!; [done|done| |done].
  intros x Hx Hin%Hrun. by destruct (Hq x Hx).
Qed.

(** While the queue runs, [Requeue] is [Done] followed by [Add], as its
    comment says: so calling [Done] after [Requeue] ends the item twice. *)
Theorem Requeue_is_Done_then_Add q x :
  q_shuttingDown q = false → Requeue x q = Add x (Done x q).
Proof.
  intros Hs. unfold Requeue, Add, Done. simpl. rewrite Hs.
  destruct (decide (x ∈ q_dirty q)) as [Hx|Hx].
  - rewrite (bool_decide_true (x ∈ q_dirty q)) by done.
    destruct (Signal_fields (q <| q_processing := q_processing q ∖ {[x]} |>
      <| q_queue := q_queue q ++ [x] |>)) as (_ & -> & _ & ->). simpl. rewrite Hs.
    rewrite bool_decide_true by done. rewrite !Signal_eq. simpl.
    replace (q_dirty q ∪ {[x]}) with (q_dirty q) by set_solver. by destruct q.
  - rewrite (bool_decide_false (x ∈ q_dirty q)) by done. simpl. rewrite Hs.
    rewrite bool_decide_false by done. rewrite bool_decide_false by set_solver. done.
Qed.

(** An item is handed out exactly once per burst of [Add]s, in the order
    of the first one: adding a list of items to an idle queue queues each item
    once, in the order of their first occurrences. *)
Theorem Add_all_fifo (l : list A) :
  let q := foldl (λ q x, Add x q) NewWorkQueue l in
  q_queue q = reverse (list.remove_dups (reverse l)) ∧
  (∀ x, x ∈ q_dirty q ↔ x ∈ l).
Proof.
  intros q. enough (q_queue q = reverse (list.remove_dups (reverse l)) ∧
    (∀ x, x ∈ q_dirty q ↔ x ∈ l) ∧ q_processing q = ∅ ∧ q_shuttingDown q = false)
    by naive_solver.
  subst q. induction l as [|x l IH] using rev_ind; simpl.
  { split_and!; [done|set_solver|done|done]. }
  rewrite foldl_snoc, reverse_snoc. simpl. revert IH.
  generalize (foldl (λ q x, Add x q) NewWorkQueue l). intros q (Hq & Hd & Hp & Hs).
  unfold Add. rewrite Hs. simpl. case_bool_decide as Hx.
  - destruct (decide_rel elem_of x (reverse l)) as [Hin|Hin];
      [|by rewrite elem_of_reverse, <- Hd in Hin].
    split_and!; [done| |done|done]. intros y. rewrite Hd. set_solver.
  - destruct (decide_rel elem_of x (reverse l)) as [Hin|Hin];
      [by rewrite elem_of_reverse, <- Hd in Hin|].
    rewrite bool_decide_false by set_solver. rewrite Signal_eq. simpl.
    rewrite reverse_cons, Hq. split_and!; [done|set_solver|done|done].
Qed.
End props.

(** *** Witnesses *)

Lemma WorkQueue_no_lost_work_witness :
  let q : WorkQueue string := Add "a" (Get (Add "a" NewWorkQueue)).2 in
  "a" ∈ q_dirty q ∧ ("a" ∉ q_queue q) ∧ "a" ∈ q_processing q.
Proof.
  intros q. assert (Hr : rtc call NewWorkQueue q).
  { eapply rtc_l; [apply (call_add "a")|]. eapply rtc_l; [apply call_get|].
    eapply rtc_l; [apply (call_add "a")|]. apply rtc_refl. }
  destruct (WorkQueue_no_lost_work q Hr) as [Hk _].
  assert (Hd : "a" ∈ q_dirty q) by (apply (bool_decide_unpack _); vm_compute; exact I).
  assert (Hn : "a" ∉ q_queue q) by (apply (bool_decide_unpack _); vm_compute; exact I).
  split; [exact Hd|]. split; [exact Hn|].
  destruct (Hk eq_refl "a" Hd) as [Hq|Hp]; [destruct (Hn Hq)|exact Hp].
Defined.

Lemma WorkQueue_mutual_exclusion_witness :
  let q : WorkQueue string := Add "a" (Get (Add "a" NewWorkQueue)).2 in
  NoDup ["a"] ∧ NoDup (q_queue q).
Proof.
  intros q. destruct (WorkQueue_mutual_exclusion q ["a"]) as (Hr & Hq & _).
  - eapply rtc_l; [apply (ws_add "a")|]. eapply rtc_l; [eapply ws_get; reflexivity|].
    eapply rtc_l; [apply (ws_add "a")|]. apply rtc_refl.
  - split; [exact Hr|exact Hq].
Defined.

Lemma Requeue_is_Done_then_Add_witness :
  let q : WorkQueue string := (Get (Add "a" NewWorkQueue)).2 in
  Requeue "a" q = Add "a" (Done "a" q) ∧ q_queue (Done "a" (Requeue "a" q)) = ["a"; "a"].
Proof.
  intros q. split; [apply (Requeue_is_Done_then_Add q "a"); reflexivity|].
  vm_compute. reflexivity.
Defined.
