(* ===== verification/Manager.v ===== *)
(** * The controller manager ([internal/daemon/controller/manager.go])

    [Manager] maps resource types to controllers and work queues.  The workers
    [Start] spawns are a pool that takes steps in any order: between two steps
    of a worker any other worker may run, and any caller may [Enqueue].  A
    controller's [Reconcile] is a parameter of the program here: it returns,
    with or without an error. *)

From stdpp Require Import base tactics numbers list strings gmap.
From S2P Require Import Prelude WorkQueue.

Section manager.
Context {C : Type}.

Record Manager := mkManager {
  mg_controllers : gmap string C;
  mg_queues : gmap string (WorkQueue string);
  mg_stopped : bool   (* the stopped channel is closed *)
}.
#[export] Instance eta_Manager : Settable Manager := mkSettable (λ x,
mkManager (mg_controllers x) (mg_queues x) (mg_stopped x)).

Implicit Types m : Manager.

Definition NewManager : Manager := mkManager ∅ ∅ false.

(** Registering a type again replaces its controller and drops its queue. *)
Definition Register (resourceType : string) (ctrl : C) m : Manager :=
  m <| mg_controllers := <[resourceType := ctrl]> (mg_controllers m) |>
    <| mg_queues := <[resourceType := NewWorkQueue]> (mg_queues m) |>.

Definition HasController (resourceType : string) m : bool :=
  bool_decide (is_Some (mg_controllers m !! resourceType)).

(** An unknown type is logged and ignored. *)
Definition Enqueue (resourceType key : string) m : Manager :=
  match mg_queues m !! resourceType with
  | None => m
  | Some queue => m <| mg_queues := <[resourceType := Add key queue]> (mg_queues m) |>
  end.

Definition GetQueue (resourceType : string) m : option (WorkQueue string) :=
  mg_queues m !! resourceType.

(** The first part of [StopWithTimeout], and of the end of [Start]. *)
Definition StopQueues m : Manager := m <| mg_queues := ShutDown <$> mg_queues m |>.

(** [processItem], its deferred [Done] included, when nobody else runs. *)
Definition processItem (err : bool) (key : string) (queue : WorkQueue string)
    : WorkQueue string :=
  let queue := if err then Requeue key queue else queue in
  Done key queue.

(** ** The worker pool *)

(** Where a worker is in [runWorker]. *)
Inductive wstate :=
| WLoop                  (* before queue.Get() *)
| WAsleep                (* in queue.Get(), in cond.Wait *)
| WRunning (key : string)  (* in ctrl.Reconcile(ctx, key) *)
| WDeferred (key : string) (* before the deferred queue.Done(key) *)
| WStopped.              (* returned *)

#[export] Instance wstate_eq_dec : EqDecision wstate.
Proof. solve_decision. Defined.

Definition after_get (r : get_result string) : wstate :=
  match r with
  | GotItem key => WRunning key
  | GotShutdown => WStopped
  | Asleep => WAsleep
  end.

(** The pool: the manager and its workers, each with its resource type. *)
Definition pool : Type := Manager * list (string * wstate).

(** [Start]'s first part: [n] workers for each registered type. *)
Definition Start `{MapRange} (n : nat) m : pool :=
  (m, (range (mg_controllers m)).*1 ≫= λ rt, replicate n (rt, WLoop)).

(** One step of a worker.  With [errs = false] no [Reconcile] fails. *)
Inductive run_step (errs : bool) : pool → pool → Prop :=
| run_get m l1 l2 rt q r q' :
    mg_queues m !! rt = Some q → Get q = (r, q') →
    run_step errs (m, l1 ++ (rt, WLoop) :: l2)
      (m <| mg_queues := <[rt := q']> (mg_queues m) |>, l1 ++ (rt, after_get r) :: l2)
| run_resume m l1 l2 rt q r q' :
    mg_queues m !! rt = Some q → resume q = Some (r, q') →
    run_step errs (m, l1 ++ (rt, WAsleep) :: l2)
      (m <| mg_queues := <[rt := q']> (mg_queues m) |>, l1 ++ (rt, after_get r) :: l2)
| run_reconciled m l1 l2 rt q key (err : bool) :
    mg_queues m !! rt = Some q → (err = true → errs = true) →
    run_step errs (m, l1 ++ (rt, WRunning key) :: l2)
      (m <| mg_queues := <[rt := if err then Requeue key q else q]> (mg_queues m) |>,
       l1 ++ (rt, WDeferred key) :: l2)
| run_done m l1 l2 rt q key :
    mg_queues m !! rt = Some q →
    run_step errs (m, l1 ++ (rt, WDeferred key) :: l2)
      (m <| mg_queues := <[rt := Done key q]> (mg_queues m) |>, l1 ++ (rt, WLoop) :: l2).

(** One step of the pool or of a caller. *)
Inductive pool_step (errs : bool) : pool → pool → Prop :=
| step_run p p' : run_step errs p p' → pool_step errs p p'
| step_enqueue m ws rt key : pool_step errs (m, ws) (Enqueue rt key m, ws)
| step_stop m ws : pool_step errs (m, ws) (StopQueues m, ws).

(** ** Invariants *)

(** The keys the workers of a type hold. *)
Definition held (rt : string) (ws : list (string * wstate)) : list string :=
  omap (λ '(rt', st),
    if bool_decide (rt' = rt) then
      match st with WRunning k | WDeferred k => Some k | _ => None end
    else None) ws.

Definition asleep (rt : string) (ws : list (string * wstate)) : nat :=
  length (filter (λ w, w = (rt, WAsleep)) ws).

(** A queue against the workers of its type: the sleepers are counted by the
    condition variable, and none sleeps for good. *)
Definition queue_ok (rt : string) (q : WorkQueue string) (ws : list (string * wstate)) : Prop :=
  q_waiting q + q_woken q = asleep rt ws ∧ awake q ∧ kept q.

Definition pool_ok (p : pool) : Prop :=
  (∀ rt st, (rt, st) ∈ p.2 → is_Some (mg_queues p.1 !! rt)) ∧
  map_Forall (λ rt q, queue_ok rt q p.2) (mg_queues p.1).

(** A manager whose queues are as [Register] leaves them. *)
Definition registered m : Prop :=
  dom (mg_controllers m) = dom (mg_queues m) ∧
  map_Forall (λ _ q, q = NewWorkQueue) (mg_queues m).

(** Steps a worker still has to take once the queues are shut down. *)
Definition remaining (ws : list (string * wstate)) : nat :=
  sum_list_with (λ w, match w.2 with
    | WRunning _ => 3 | WDeferred _ => 2 | WLoop | WAsleep => 1 | WStopped => 0 end) ws.

Definition all_shut m : Prop := map_Forall (λ _ q, q_shuttingDown q = true) (mg_queues m).

Definition all_stopped (ws : list (string * wstate)) : Prop :=
  Forall (λ w, w.2 = WStopped) ws.
End manager.

Arguments Manager C : clear implicits.
Arguments pool C : clear implicits.

Section props.
Context {C : Type}.
Implicit Types (m : Manager C) (q : WorkQueue string) (ws : list (string * wstate)).

Lemma asleep_mid rt l1 w l2 :
  asleep rt (l1 ++ w :: l2) = asleep rt (l1 ++ l2) + if decide (w = (rt, WAsleep)) then 1 else 0.
Proof.
  unfold asleep. rewrite !filter_app, filter_cons, !length_app.
  case_decide; simpl; lia.
Qed.

Lemma held_mid rt l1 w l2 :
  held rt (l1 ++ w :: l2) = held rt l1 ++ held rt [w] ++ held rt l2.
Proof. unfold held. rewrite omap_app. simpl. repeat case_match; done. Qed.

(** A worker of type [rt] moved and its queue changed. *)
Lemma pool_ok_update m l1 l2 rt st st' q q' :
  pool_ok (m, l1 ++ (rt, st) :: l2) → mg_queues m !! rt = Some q →
  (awake q → kept q → awake q' ∧ kept q') →
  (if decide (st = WAsleep) then 1 else 0) + tokens q' =
    (if decide (st' = WAsleep) then 1 else 0) + tokens q →
  pool_ok (m <| mg_queues := <[rt := q']> (mg_queues m) |>, l1 ++ (rt, st') :: l2).
Proof.
  intros [Hw Hq] Hrt Hinv Ht. split; simpl in *.
  - intros rt' s' Hin. rewrite lookup_insert. destruct (decide (rt = rt')); [eauto|].
    apply (Hw rt' s'). set_solver.
  - intros rt' q1. rewrite lookup_insert. destruct (decide (rt = rt')) as [Hd|Hd].
    + subst rt'. intros [= <-]. destruct (Hq _ _ Hrt) as (Ht1 & Ha & Hk).
      split; [|by apply Hinv]. revert Ht Ht1. unfold tokens. rewrite !asleep_mid.
      repeat case_decide; simplify_eq; lia.
    + intros Hq1. destruct (Hq _ _ Hq1) as (Ht1 & Ha & Hk). split; [|done].
      rewrite Ht1, !asleep_mid. rewrite !decide_False by congruence. done.
Qed.

Lemma pool_ok_map m ws (f : WorkQueue string → WorkQueue string) qs :
  pool_ok (m, ws) →
  (∀ q, awake q → kept q → awake (f q) ∧ kept (f q)) → (∀ q, tokens (f q) = tokens q) →
  (∀ rt, qs !! rt = mg_queues m !! rt ∨ qs !! rt = f <$> mg_queues m !! rt) →
  pool_ok (m <| mg_queues := qs |>, ws).
Proof.
  intros [Hw Hq] Hf Ht Hqs. split; simpl in *.
  - intros rt st Hin. destruct (Hw rt st Hin) as [q Hrt].
    destruct (Hqs rt) as [-> | ->]; rewrite Hrt; eauto.
  - intros rt q Hrt. destruct (Hqs rt) as [E|E]; rewrite E in Hrt; [by apply Hq|].
    apply fmap_Some in Hrt as (q0 & Hq0 & ->). destruct (Hq _ _ Hq0) as (Ht0 & Ha & Hk).
    split; [|by apply Hf]. rewrite <- Ht0. apply Ht.
Qed.

Lemma call_ok q q' : call q q' → awake q → kept q → awake q' ∧ kept q'.
Proof. intros Hc Ha Hk. split; [by eapply call_awake|by eapply call_kept]. Qed.

Lemma after_get_asleep r :
  (if decide (after_get r = WAsleep) then 1 else 0) = match r with Asleep => 1 | _ => 0 end.
Proof. by destruct r. Qed.

Lemma run_step_ok errs (p p' : pool C) : run_step errs p p' → pool_ok p → pool_ok p'.
Proof.
  intros Hs Hp. destruct Hs as [m l1 l2 rt q r q' Hq E|m l1 l2 rt q r q' Hq E
    |m l1 l2 rt q key err Hq _|m l1 l2 rt q key Hq]; eapply pool_ok_update; eauto.
  - replace q' with (Get q).2 by (by rewrite E). apply call_ok, call_get.
  - rewrite after_get_asleep. pose proof (tokens_Get q) as Ht. rewrite E in Ht. simpl in Ht.
    rewrite Ht. destruct r; simpl; lia.
  - by eapply call_ok, call_resume.
  - rewrite after_get_asleep. pose proof (tokens_resume _ _ _ E). simpl. destruct r; lia.
  - destruct err; [apply call_ok, call_requeue|auto].
  - simpl. destruct err; [by rewrite tokens_Requeue|done].
  - apply call_ok, call_done.
  - simpl. by rewrite tokens_Done.
Qed.

Lemma pool_step_ok errs (p p' : pool C) : pool_step errs p p' → pool_ok p → pool_ok p'.
Proof.
  intros Hs Hp. destruct Hs as [p p' Hs|m ws rt key|m ws]; [by eapply run_step_ok| |].
  - unfold Enqueue. destruct (mg_queues m !! rt) as [q|] eqn:Hrt; [|done].
    apply (pool_ok_map m ws (Add key)); [done|intros q0; apply call_ok, call_add|
      apply tokens_Add|].
    intros rt'. rewrite lookup_insert. case_decide; subst; rewrite ?Hrt; auto.
  - apply (pool_ok_map m ws ShutDown); [done|intros q; apply call_ok, call_shutdown|
      apply tokens_ShutDown|]. intros rt. rewrite lookup_fmap. auto.
Qed.

Lemma Start_workers `{MapRange} n m rt st :
  (rt, st) ∈ (Start n m).2 → st = WLoop ∧ is_Some (mg_controllers m !! rt).
Proof.
  simpl. intros (rt' & Hin & Hrt)%list_elem_of_bind.
  apply elem_of_replicate in Hin as [[= -> ->] _]. split; [done|].
  apply list_elem_of_fmap in Hrt as ([k c] & -> & Hk%elem_of_range). eauto.
Qed.

Lemma pool_ok_Start `{MapRange} n m : registered m → pool_ok (Start n m).
Proof.
  intros [Hd Hn]. split.
  - intros rt st [_ Hc]%Start_workers. simpl.
    rewrite <- elem_of_dom, <- Hd. by apply elem_of_dom.
  - intros rt q Hq. simpl in Hq. rewrite (Hn _ _ Hq). split; [|split; [unfold awake; simpl; lia|]].
    + simpl. symmetry. apply length_zero_iff_nil, elem_of_nil_inv.
      intros [rt' st] [[= -> ->] [? _]%Start_workers]%list_elem_of_filter. done.
    + intros _ x Hx. by apply not_elem_of_empty in Hx.
Qed.

Lemma registered_new : registered (@NewManager C).
Proof. split; [done|apply map_Forall_empty]. Qed.

Lemma registered_Register rt c m : registered m → registered (Register rt c m).
Proof.
  intros [Hd Hn]. split; simpl; [by rewrite !dom_insert_L, Hd|].
  by apply map_Forall_insert_2.
Qed.

Lemma reachable_ok `{MapRange} errs n m p :
  registered m → rtc (pool_step errs) (Start n m) p → pool_ok p.
Proof.
  intros Hm Hr. eapply (rtc_ind_r pool_ok (Start n m)); [by apply pool_ok_Start| |exact Hr].
  intros p1 p2 _ Hs Hp. by eapply pool_step_ok.
Qed.

(** *** Termination after shutdown *)

Lemma remaining_mid l1 w l2 :
  remaining (l1 ++ w :: l2) = remaining (l1 ++ l2) + remaining [w].
Proof. unfold remaining. rewrite !sum_list_with_app. simpl. lia. Qed.

Lemma shut_Get q : q_shuttingDown q = true → Get q = (GotShutdown, q).
Proof. intros Hs. unfold Get. by rewrite Hs. Qed.

Lemma shut_step errs (p p' : pool C) :
  run_step errs p p' → all_shut p.1 →
  all_shut p'.1 ∧ S (remaining p'.2) = remaining p.2 ∧ length p'.2 = length p.2.
Proof.
  intros Hs Ha. destruct Hs as [m l1 l2 rt q r q' Hq E|m l1 l2 rt q r q' Hq E
    |m l1 l2 rt q key err Hq _|m l1 l2 rt q key Hq]; simpl in *;
    pose proof (Ha _ _ Hq) as Hsq; simpl in Hsq; rewrite !remaining_mid, !length_app; simpl.
  - rewrite shut_Get in E by done. injection E as <- <-. simpl.
    split; [by apply map_Forall_insert_2|lia].
  - apply resume_inv in E as [_ E]. rewrite shut_Get in E by done. injection E as <- <-.
    split; [by apply map_Forall_insert_2|simpl; lia].
  - split; [|lia]. apply map_Forall_insert_2; [|done].
    destruct err; [|done]. unfold Requeue. simpl. by rewrite Hsq.
  - split; [|lia]. apply map_Forall_insert_2; [|done].
    unfold Done. simpl. case_bool_decide; [|done].
    by destruct (Signal_fields (q <| q_processing := q_processing q ∖ {[key]} |>
      <| q_queue := q_queue q ++ [key] |>)) as (_ & _ & _ & ->).
Qed.

Lemma stopped_or ws : all_stopped ws ∨ ∃ rt st, (rt, st) ∈ ws ∧ st ≠ WStopped.
Proof.
  unfold all_stopped. induction ws as [|[rt st] ws [IH|(rt' & st' & ? & ?)]].
  - by left.
  - destruct (decide (st = WStopped)) as [->|]; [left; by constructor|].
    right. exists rt, st. split; [left|done].
  - right. exists rt', st'. split; [by right|done].
Qed.

Lemma shut_progress (p : pool C) :
  pool_ok p → all_shut p.1 → all_stopped p.2 ∨ ∃ p', run_step false p p'.
Proof.
  intros [Hw Hq] Ha. destruct p as [m ws]. simpl in *.
  destruct (stopped_or ws) as [|(rt & st & Hin & Hst)]; [by left|right].
  destruct (Hw _ _ Hin) as [q Hrt]. pose proof (Ha _ _ Hrt) as Hs. simpl in Hs.
  pose proof (Hq _ _ Hrt) as (Ht & Haw & _).
  apply list_elem_of_split in Hin as (l1 & l2 & ->).
  destruct st as [| |key|key|]; [| | | |done].
  - eexists. eapply run_get; [done|by apply shut_Get].
  - assert (Hwk : 0 < q_woken q).
    { rewrite asleep_mid in Ht. rewrite decide_True in Ht by done.
      destruct (decide (0 < q_waiting q)) as [Hp|]; [|lia].
      destruct (Haw Hp). congruence. }
    destruct (resume q) as [[r q']|] eqn:Hr.
    + eexists. by eapply run_resume.
    + unfold resume in Hr. destruct (q_woken q); [lia|done].
  - eexists. by apply (run_reconciled _ _ _ _ _ q key false).
  - eexists. by eapply run_done.
Qed.

Lemma remaining_bound ws : remaining ws ≤ 3 * length ws.
Proof.
  unfold remaining. induction ws as [|[rt st] ws IH]; simpl; [lia|]. destruct st; simpl; lia.
Qed.

Lemma shut_run errs (p p' : pool C) k :
  nsteps (run_step errs) k p p' → all_shut p.1 →
  all_shut p'.1 ∧ k + remaining p'.2 = remaining p.2.
Proof.
  induction 1 as [p|k p1 p2 p3 Hs Hr IH]; intros Ha; [done|].
  destruct (shut_step _ _ _ Hs Ha) as (Ha2 & Hm & _). destruct (IH Ha2). split; [done|lia].
Qed.

Lemma shut_stops (p : pool C) :
  pool_ok p → all_shut p.1 →
  ∃ p', nsteps (run_step false) (remaining p.2) p p' ∧ all_stopped p'.2.
Proof.
  remember (remaining p.2) as n eqn:Hn. revert p Hn.
  induction n as [|n IH]; intros p Hn Hp Ha.
  - exists p. split; [constructor|].
    destruct (shut_progress p Hp Ha) as [|[p' Hs]]; [done|].
    destruct (shut_step _ _ _ Hs Ha) as (_ & ? & _). lia.
  - destruct (shut_progress p Hp Ha) as [Hall|[p' Hs]].
    + assert (remaining p.2 = 0); [|lia]. clear -Hall. unfold remaining.
      induction Hall as [|[rt st] ws Hst _ IH]; simpl in *; [done|]. by subst.
    + destruct (shut_step _ _ _ Hs Ha) as (Ha' & Hr & _).
      destruct (IH p') as (p2 & Hr2 & Hs2); [lia|by eapply run_step_ok|done|].
      exists p2. split; [by econstructor|done].
Qed.

(** *** Exclusion while no [Reconcile] fails *)

Lemma exclusive_perm q l l' : l ≡ₚ l' → exclusive (q, l) → exclusive (q, l').
Proof.
  intros Hp (Hnq & Hnr & Hrun & Hq & Hk). split_and!; [done|by rewrite <- Hp| |done|done].
  intros x. by rewrite <- Hp.
Qed.

Definition pool_exclusive (p : pool C) : Prop :=
  map_Forall (λ rt q, exclusive (q, held rt p.2)) (mg_queues p.1).

Lemma held_other rt rt' st st' l1 l2 :
  rt ≠ rt' → held rt' (l1 ++ (rt, st) :: l2) = held rt' (l1 ++ (rt, st') :: l2).
Proof. intros Hne. rewrite !held_mid. simpl. by rewrite bool_decide_false. Qed.

Lemma pool_exclusive_update m l1 l2 rt st st' q q' :
  pool_exclusive (m, l1 ++ (rt, st) :: l2) → mg_queues m !! rt = Some q →
  (exclusive (q, held rt (l1 ++ (rt, st) :: l2)) →
   exclusive (q', held rt (l1 ++ (rt, st') :: l2))) →
  pool_exclusive (m <| mg_queues := <[rt := q']> (mg_queues m) |>, l1 ++ (rt, st') :: l2).
Proof.
  intros Hp Hrt Hf rt' q1. simpl. rewrite lookup_insert.
  destruct (decide (rt = rt')) as [<-|Hne].
  - intros [= <-]. by apply Hf, Hp.
  - intros Hq1. rewrite <- (held_other rt rt' st) by done. by apply Hp.
Qed.

Lemma held_got rt l1 l2 r (st : wstate) q q' :
  held rt [(rt, st)] = [] → Get q = (r, q') →
  exclusive (q, held rt (l1 ++ (rt, st) :: l2)) →
  exclusive (q', held rt (l1 ++ (rt, after_get r) :: l2)).
Proof.
  rewrite !held_mid. intros -> E He. simpl in He.
  eapply exclusive_perm; [|eapply Get_exclusive; [exact He|exact E]].
  destruct r; simpl; rewrite ?bool_decide_true by done; simpl; [|done..].
  by rewrite Permutation_middle.
Qed.

Lemma run_step_exclusive (p p' : pool C) :
  run_step false p p' → pool_exclusive p → pool_exclusive p'.
Proof.
  intros Hs Hp. destruct Hs as [m l1 l2 rt q r q' Hq E|m l1 l2 rt q r q' Hq E
    |m l1 l2 rt q key err Hq He|m l1 l2 rt q key Hq];
    eapply pool_exclusive_update; eauto; clear Hp; intros Hx.
  - eapply held_got; [|done|done]. simpl. by case_bool_decide.
  - apply resume_inv in E as [_ E]. eapply held_got; [|exact E|exact Hx].
    simpl. by case_bool_decide.
  - destruct err; [by specialize (He eq_refl)|].
    by rewrite !held_mid in *.
  - rewrite !held_mid in *. simpl in *. rewrite !bool_decide_true in * by done.
    exact (worker_step_exclusive _ (_, held rt l1 ++ held rt l2) (ws_done key q _ _) Hx).
Qed.

Lemma pool_step_exclusive (p p' : pool C) :
  pool_step false p p' → pool_exclusive p → pool_exclusive p'.
Proof.
  intros Hs Hp. destruct Hs as [p p' Hs|m ws rt key|m ws]; [by eapply run_step_exclusive| |].
  - unfold Enqueue. destruct (mg_queues m !! rt) as [q|] eqn:Hrt; [|done].
    apply map_Forall_insert_2; [|done]. eapply worker_step_exclusive; [constructor|].
    by apply Hp.
  - intros rt q. simpl. rewrite lookup_fmap. intros (q0 & Hq0 & ->)%fmap_Some.
    exact (worker_step_exclusive _ _ (ws_shutdown q0 (held rt ws)) (Hp _ _ Hq0)).
Qed.

Lemma pool_exclusive_Start `{MapRange} n m : registered m → pool_exclusive (Start n m).
Proof.
  intros [_ Hn] rt q Hq. rewrite (Hn _ _ Hq).
  replace (held rt (Start n m).2) with (@nil string); [apply exclusive_new|].
  symmetry. apply elem_of_nil_inv. intros k.
  unfold held. rewrite list_elem_of_omap. intros ([rt' st] & Hin & Hk).
  apply Start_workers in Hin as [-> _]. by case_bool_decide.
Qed.

(** ** Properties *)

(** [Stop] terminates: once the queues of a pool started on a registered
    manager are shut down, in whatever state the workers are, every run of
    the workers takes at most three steps per worker ([Reconcile] may still
    fail), and a run exists that ends with every worker returned. *)
Theorem StopQueues_terminates `{MapRange} errs n m (p : pool C) :
  registered m → rtc (pool_step errs) (Start n m) p → all_shut p.1 →
  (∀ k p', nsteps (run_step true) k p p' → k ≤ 3 * length p.2) ∧
  (∃ k p', nsteps (run_step false) k p p' ∧ all_stopped p'.2).
Proof.
  intros Hm Hr Ha. pose proof (reachable_ok _ _ _ _ Hm Hr) as Hp. split.
  - intros k p' Hk. destruct (shut_run _ _ _ _ Hk Ha) as [_ Hrem].
    pose proof (remaining_bound p.2). lia.
  - destruct (shut_stops p Hp Ha) as (p' & ? & ?). eauto.
Qed.

(** C4: in a pool no worker sleeps while work waits: if a worker of a type is
    asleep in [Get] and nobody has been woken for it, the type's queue is
    empty and running; and every key marked dirty is queued or held. *)
Theorem pool_no_lost_wakeup `{MapRange} errs n m m' ws rt q :
  registered m → rtc (pool_step errs) (Start n m) (m', ws) →
  mg_queues m' !! rt = Some q → (rt, WAsleep) ∈ ws → q_woken q = 0 →
  q_queue q = [] ∧ q_shuttingDown q = false ∧
  ∀ key, key ∈ q_dirty q → key ∈ q_processing q.
Proof.
  intros Hm Hr Hq Hw Hz. destruct (reachable_ok _ _ _ _ Hm Hr) as [_ Hok].
  destruct (Hok _ _ Hq) as (Ht & Ha & Hk). simpl in Ht.
  apply list_elem_of_split in Hw as (l1 & l2 & ->).
  rewrite asleep_mid, decide_True in Ht by done.
  destruct (Ha ltac:(lia)) as [Hs Hl]. rewrite Hz in Hl.
  assert (q_queue q = []) as Hnil by (apply length_zero_iff_nil; lia).
  split_and!; [done|done|]. intros key Hd. destruct (Hk Hs key Hd) as [Hin|]; [|done].
  rewrite Hnil in Hin. by apply elem_of_nil in Hin.
Qed.

(** As long as no [Reconcile] returns an error, no two workers of the pool
    hold the same key of the same type, and a key that is held is not in the
    queue. *)
Theorem workers_exclusive_without_errors `{MapRange} n m m' ws rt q :
  registered m → rtc (pool_step false) (Start n m) (m', ws) →
  mg_queues m' !! rt = Some q →
  NoDup (held rt ws) ∧ NoDup (q_queue q) ∧ ∀ key, key ∈ held rt ws → key ∉ q_queue q.
Proof.
  intros Hm Hr Hq. assert (Hx : pool_exclusive (m', ws)).
  { eapply (rtc_ind_r pool_exclusive (Start n m)); [by apply pool_exclusive_Start| |exact Hr].
    intros p1 p2 _ Hs Hp. by eapply pool_step_exclusive. }
  destruct (Hx _ _ Hq) as (Hnq & Hnr & Hrun & Hqd & _). simpl in *.
  split_and!; [done|done|]. intros key Hin%Hrun Hkq. by destruct (Hqd key Hkq).
Qed.

(** [processItem] on a key that was not enqueued again meanwhile: success
    leaves the queue as it was and releases the key; an error queues the key
    twice, because the deferred [Done] runs after [Requeue]. *)
Theorem processItem_outcome key q :
  q_shuttingDown q = false → key ∉ q_dirty q → key ∈ q_processing q →
  q_queue (processItem false key q) = q_queue q ∧
  q_processing (processItem false key q) = q_processing q ∖ {[key]} ∧
  q_queue (processItem true key q) = q_queue q ++ [key; key] ∧
  q_processing (processItem true key q) = q_processing q ∖ {[key]} ∧
  q_dirty (processItem true key q) = q_dirty q ∪ {[key]}.
Proof.
  intros Hs Hd Hp. unfold processItem, Done, Requeue. simpl. rewrite Hs.
  rewrite bool_decide_false by done. rewrite !Signal_eq. simpl.
  rewrite bool_decide_true by set_solver. simpl.
  split_and!; [done|done| | |done].
  - by rewrite <- (assoc_L app).
  - set_solver.
Qed.
End props.

(** *** A run of two workers *)

Definition m1 : Manager unit := Register "devnets" tt NewManager.

Lemma m1_registered : registered m1.
Proof. apply registered_Register, registered_new. Qed.

Definition two (a b : wstate) : list (string * wstate) := [("devnets", a); ("devnets", b)].

Lemma start_two : @Start unit some_order 2 m1 = (m1, two WLoop WLoop).
Proof. by vm_compute. Qed.

Definition with_queue (q : WorkQueue string) : Manager unit :=
  m1 <| mg_queues := <["devnets" := q]> (mg_queues m1) |>.

Lemma with_queue_lookup q : mg_queues (with_queue q) !! "devnets" = Some q.
Proof. simpl. by rewrite lookup_insert_eq. Qed.

Lemma with_queue_set q q' :
  with_queue q <| mg_queues := <["devnets" := q']> (mg_queues (with_queue q)) |> = with_queue q'.
Proof. unfold with_queue, set. simpl. by rewrite !insert_insert_eq. Qed.

(** The steps of one worker of the two, on the queue alone. *)
Lemma step_first errs q st q' st' other :
  (∀ l2, run_step errs (with_queue q, [] ++ ("devnets", st) :: l2)
     (with_queue q <| mg_queues := <["devnets" := q']> (mg_queues (with_queue q)) |>,
      [] ++ ("devnets", st') :: l2)) →
  pool_step errs (with_queue q, two st other) (with_queue q', two st' other).
Proof. intros Hs. apply step_run. specialize (Hs [("devnets", other)]). by rewrite with_queue_set in Hs. Qed.

Lemma step_second errs q st q' st' other :
  (∀ l1, run_step errs (with_queue q, l1 ++ ("devnets", st) :: [])
     (with_queue q <| mg_queues := <["devnets" := q']> (mg_queues (with_queue q)) |>,
      l1 ++ ("devnets", st') :: [])) →
  pool_step errs (with_queue q, two other st) (with_queue q', two other st').
Proof. intros Hs. apply step_run. specialize (Hs [("devnets", other)]). by rewrite with_queue_set in Hs. Qed.

Lemma step_add errs q ws key :
  pool_step errs (with_queue q, ws) (with_queue (Add key q), ws).
Proof.
  pose proof (step_enqueue errs (with_queue q) ws "devnets" key) as Hs. revert Hs.
  unfold Enqueue. by rewrite with_queue_lookup, with_queue_set.
Qed.

Lemma m1_with_queue : m1 = with_queue NewWorkQueue.
Proof. by vm_compute. Qed.

Definition q_added : WorkQueue string := Add "default/d" NewWorkQueue.
Definition q_got : WorkQueue string := (Get q_added).2.
Definition q_failed : WorkQueue string := Done "default/d" (Requeue "default/d" q_got).

(** One key, added once; its first reconcile fails; both workers then get it. *)
Lemma two_failing_run :
  ∃ q, rtc (pool_step true) (@Start unit some_order 2 m1)
    (with_queue q, two (WRunning "default/d") (WRunning "default/d")).
Proof.
  rewrite start_two, m1_with_queue. eexists.
  eapply rtc_l; [apply (step_add _ _ _ "default/d")|]. fold q_added.
  eapply rtc_l; [apply step_first; intros l2;
    eapply (run_get _ _ [] _ _ _ (GotItem "default/d") q_got); [apply with_queue_lookup|done]|].
  eapply rtc_l; [apply step_first; intros l2;
    eapply (run_reconciled _ _ [] _ _ _ _ true); [apply with_queue_lookup|done]|].
  eapply rtc_l; [apply step_first; intros l2;
    eapply run_done; apply with_queue_lookup|]. fold q_failed.
  eapply rtc_l; [apply step_first; intros l2;
    eapply (run_get _ _ [] _ _ _ (GotItem "default/d") (Get q_failed).2);
    [apply with_queue_lookup|by vm_compute]|].
  eapply rtc_l; [apply step_second; intros l1;
    eapply (run_get _ _ l1 _ _ _ (GotItem "default/d") (Get (Get q_failed).2).2);
    [apply with_queue_lookup|by vm_compute]|].
  apply rtc_refl.
Qed.

(** With failing reconciles exclusion is lost: from a fresh manager with two
    workers and one enqueued key there is a run in which, after one failed
    [Reconcile], both workers reconcile that key at the same time. *)
Theorem failed_reconcile_breaks_exclusion :
  ∃ (m : Manager unit) p, registered m ∧
    rtc (pool_step true) (@Start unit some_order 2 m) p ∧
    p.2 = [("devnets", WRunning "default/d"); ("devnets", WRunning "default/d")] ∧
    ¬ NoDup (held "devnets" p.2).
Proof.
  destruct two_failing_run as [q Hr]. exists m1, (with_queue q, two (WRunning "default/d") (WRunning "default/d")).
  split; [apply m1_registered|]. split; [exact Hr|]. split; [done|].
  intros Hn. apply NoDup_cons in Hn as [Hn _].
  apply Hn. by left.
Qed.

(** *** Witnesses *)

Lemma StopQueues_terminates_witness :
  let p := (StopQueues m1, two WLoop WLoop) in
  ∃ k p', nsteps (run_step false) k p p' ∧ all_stopped p'.2.
Proof.
  intros p. destruct (@StopQueues_terminates unit some_order false 2 m1 p) as [_ He];
    [exact m1_registered| | |exact He].
  - rewrite start_two. eapply rtc_l; [apply step_stop|]. apply rtc_refl.
  - intros rt q Hq. simpl in Hq. rewrite lookup_fmap in Hq.
    apply fmap_Some in Hq as (q0 & _ & ->). reflexivity.
Defined.

Lemma one_asleep :
  rtc (pool_step false) (@Start unit some_order 2 m1)
    (with_queue (Get NewWorkQueue).2, two WAsleep WLoop).
Proof.
  rewrite start_two, m1_with_queue. eapply rtc_l; [|apply rtc_refl].
  apply step_first. intros l2.
  eapply (run_get _ _ [] _ _ _ Asleep); [apply with_queue_lookup|done].
Qed.

Lemma pool_no_lost_wakeup_witness : q_queue (Get (A:=string) NewWorkQueue).2 = [].
Proof.
  destruct (@pool_no_lost_wakeup unit some_order false 2 m1 _ _ "devnets"
    (Get NewWorkQueue).2 m1_registered one_asleep) as [Hq _];
    [apply with_queue_lookup|left|reflexivity|exact Hq].
Defined.

Lemma one_running :
  rtc (pool_step false) (@Start unit some_order 2 m1)
    (with_queue q_got, two (WRunning "default/d") WLoop).
Proof.
  rewrite start_two, m1_with_queue.
  eapply rtc_l; [apply (step_add _ _ _ "default/d")|]. eapply rtc_l; [|apply rtc_refl].
  apply step_first. intros l2.
  eapply (run_get _ _ [] _ _ _ (GotItem "default/d") q_got); [apply with_queue_lookup|done].
Qed.

Lemma workers_exclusive_without_errors_witness :
  held "devnets" (two (WRunning "default/d") WLoop) = ["default/d"] ∧
  ("default/d" ∉ q_queue q_got).
Proof.
  destruct (@workers_exclusive_without_errors unit some_order 2 m1 _ _ "devnets" q_got
    m1_registered one_running (with_queue_lookup _)) as (_ & _ & He).
  split; [vm_compute; reflexivity|]. apply He. vm_compute. left.
Defined.

Lemma processItem_outcome_witness :
  q_queue (processItem true "default/d" q_got) = ["default/d"; "default/d"].
Proof.
  destruct (processItem_outcome "default/d" q_got) as (_ & _ & He & _).
  - reflexivity.
  - apply (bool_decide_unpack _). vm_compute. exact I.
  - apply (bool_decide_unpack _). vm_compute. exact I.
  - rewrite He. vm_compute. reflexivity.
Defined.
