(* ===== verification/Subnet.v ===== *)
(** * The subnet allocator ([internal/daemon/subnet/allocator.go])

    Each devnet gets a subnet 127.0.X.0/24 of its own, from a hash of its key and
    the next free one on a collision.  The allocations are kept in memory and in
    a JSON file, written to a temporary file that is then renamed: a save
    replaces the whole file or leaves it.  What the file system answers is an
    argument of each operation. *)

From Stdlib Require Import Ascii.
From stdpp Require Import base tactics numbers list strings gmap.
From S2P Require Import Prelude.

Definition minSubnet : Z := 1.
Definition maxSubnet : Z := 254.

(** The [allocations] field and the file at [path], if it exists, with contents
    of type [F]. *)
Record Allocator (F : Type) := mkAllocator {
  al_allocations : gmap Z string;
  al_file : option F
}.
Arguments mkAllocator {F}.
Arguments al_allocations {F}.
Arguments al_file {F}.
#[export] Instance eta_Allocator {F} : Settable (Allocator F) := mkSettable (λ x,
  mkAllocator (al_allocations x) (al_file x)).

(** [persistedState]. *)
Record persistedState := mkPersistedState { ps_Allocations : gmap string string }.

(** How a save ends. *)
Inductive io :=
| IoOk
| WriteFails (e : error)
| RenameFails (e : error).

Definition devnetKey (namespace devnetName : string) : string :=
  namespace +:+ "/" +:+ devnetName.

(** [hash/fnv]'s 32-bit FNV-1a over the bytes of [s]. *)
Fixpoint fnv32a (s : string) (hash : Z) : Z :=
  match s with
  | EmptyString => hash
  | String c s =>
      fnv32a s ((Z.lxor hash (Z.of_N (N_of_ascii c)) * 16777619) `mod` 2^32)%Z
  end.

Definition hashToSubnet (key : string) : Z :=
  (fnv32a key 2166136261 `mod` (maxSubnet - minSubnet + 1) + minSubnet)%Z.

(** [fmt.Sscanf(s, "%d", &subnet)] into a uint8: blanks are skipped, at least one
    digit is read, and what follows the digits is left unread. *)
Fixpoint scan_blanks (s : string) : string :=
  match s with
  | String c t =>
      let n := N_of_ascii c in
      if bool_decide (n = 32)%N || bool_decide (n = 9)%N || bool_decide (n = 11)%N
         || bool_decide (n = 12)%N || bool_decide (n = 13)%N
      then scan_blanks t else s
  | EmptyString => s
  end.

Fixpoint scan_digits (s : string) : string :=
  match s with
  | String c t =>
      let n := N_of_ascii c in
      if bool_decide (48 ≤ n)%N && bool_decide (n ≤ 57)%N
      then String c (scan_digits t) else EmptyString
  | EmptyString => EmptyString
  end.

Definition sscanf_uint8 (s : string) : result Z :=
  match parse_unsigned (scan_digits (scan_blanks s)) with
  | None => Err (Errorf "expected integer")
  | Some n =>
      if bool_decide (n < 256)%N then Ok (Z.of_N n)
      else Err (Errorf "unsigned integer overflow on token")
  end.

(** [subnet++] on a uint8, wrapped into the range. *)
Definition next_subnet (subnet : Z) : Z :=
  let subnet := ((subnet + 1) `mod` 256)%Z in
  if bool_decide (maxSubnet < subnet)%Z then minSubnet else subnet.

(** The search loop of [Allocate]: [Some (Some s)] a free subnet, [Some None]
    back at the preferred one, [None] out of fuel. *)
Fixpoint probe (fuel : nat) (allocations : gmap Z string) (subnet preferred : Z)
    : option (option Z) :=
  match fuel with
  | O => None
  | S fuel =>
      match allocations !! subnet with
      | None => Some (Some subnet)
      | Some _ =>
          let subnet := next_subnet subnet in
          if bool_decide (subnet = preferred) then Some None
          else probe fuel allocations subnet preferred
      end
  end.

(** [127.0.subnet.nodeIndex+1]. *)
Definition NodeIP (subnet nodeIndex : Z) : string :=
  "127.0." +:+ itoa subnet +:+ "." +:+ itoa (wrap64 (nodeIndex + 1)).

Section allocator.
Context {F : Type} `{Codec F persistedState} `{MapRange}.
Implicit Types (a : Allocator F).

Definition persisted (allocations : gmap Z string) : persistedState :=
  mkPersistedState (list_to_map ((λ '(subnet, key), (itoa subnet, key)) <$> range allocations)).

Definition save (w : io) a : option error * Allocator F :=
  match encode (persisted (al_allocations a)) with
  | Err e => (Some (Wrap "failed to marshal state" e), a)
  | Ok data =>
      match w with
      | WriteFails e => (Some (Wrap "failed to write temp file" e), a)
      | RenameFails e => (Some (Wrap "failed to rename temp file" e), a)
      | IoOk => (None, a <| al_file := Some data |>)
      end
  end.

(** The conversion of the keys, one entry after the other. *)
Fixpoint load_keys (l : list (string * string)) (allocations : gmap Z string)
    : result (gmap Z string) :=
  match l with
  | [] => Ok allocations
  | (subnetStr, key) :: l =>
      match sscanf_uint8 subnetStr with
      | Err e => Err (Wrap ("invalid subnet key " +:+ quote subnetStr) e)
      | Ok subnet => load_keys l (<[subnet := key]> allocations)
      end
  end.

(** [LoadOrCreate] on a path that holds [file]: [read] is the error of reading
    a file that exists, [mkdir] that of creating the directory. *)
Definition LoadOrCreate (read mkdir : option error) (w : io) (file : option F)
    : result (Allocator F) :=
  match file with
  | None =>
      match mkdir with
      | Some e => Err (Wrap "failed to create directory" e)
      | None =>
          let '(err, a) := save w (mkAllocator ∅ None) in
          match err with
          | Some e => Err (Wrap "failed to initialize allocator" e)
          | None => Ok a
          end
      end
  | Some data =>
      match read with
      | Some e => Err (Wrap "failed to read allocator file" e)
      | None =>
          match decode data with
          | Err e => Err (Wrap "failed to parse allocator file" e)
          | Ok state =>
              try allocations := load_keys (range (ps_Allocations state)) ∅ in
              Ok (mkAllocator allocations (Some data))
          end
      end
  end.

(** The first allocation of [key] the loop over the map meets. *)
Definition find_key (key : string) (allocations : gmap Z string) : option Z :=
  head ((filter (λ '(_, existingKey), existingKey = key) (range allocations)).*1).

Definition Allocate (w : io) (namespace devnetName : string) a : result Z * Allocator F :=
  let key := devnetKey namespace devnetName in
  match find_key key (al_allocations a) with
  | Some subnet => (Ok subnet, a)
  | None =>
      let preferred := hashToSubnet key in
      match probe 254 (al_allocations a) preferred preferred with
      | Some (Some subnet) =>
          let a := a <| al_allocations := <[subnet := key]> (al_allocations a) |> in
          let '(err, a) := save w a in
          match err with
          | Some e => (Err (Wrap "failed to persist allocation" e),
                       a <| al_allocations := delete subnet (al_allocations a) |>)
          | None => (Ok subnet, a)
          end
      | _ => (Err (Errorf "no available subnets"), a)
      end
  end.

Definition Release (w : io) (namespace devnetName : string) a : option error * Allocator F :=
  let key := devnetKey namespace devnetName in
  match find_key key (al_allocations a) with
  | None => (None, a)
  | Some subnet =>
      let a := a <| al_allocations := delete subnet (al_allocations a) |> in
      let '(err, a) := save w a in
      match err with
      | Some e => (Some (Wrap "failed to persist release" e),
                   a <| al_allocations := <[subnet := key]> (al_allocations a) |>)
      | None => (None, a)
      end
  end.

Definition GetSubnet (namespace devnetName : string) a : option Z :=
  find_key (devnetKey namespace devnetName) (al_allocations a).

Definition ListAllocations a : gmap Z string := al_allocations a.
End allocator.

(** ** Hashing and probing *)

Example fnv32a_vectors :
  (fnv32a "" 2166136261, fnv32a "a" 2166136261, fnv32a "foobar" 2166136261)
  = (0x811c9dc5, 0xe40c292c, 0xbf9cf968)%Z.
Proof. reflexivity. Qed.

Definition in_range (s : Z) : Prop := (minSubnet ≤ s ≤ maxSubnet)%Z.

Lemma hashToSubnet_range key : in_range (hashToSubnet key).
Proof.
  unfold in_range, hashToSubnet, minSubnet, maxSubnet.
  pose proof (Z.mod_pos_bound (fnv32a key 2166136261) (254 - 1 + 1) ltac:(lia)). lia.
Qed.

(** The subnet [i] places after [p]. *)
Definition after (p : Z) (i : nat) : Z := ((p - 1 + Z.of_nat i) `mod` 254 + 1)%Z.

Lemma after_range p i : in_range (after p i).
Proof.
  unfold in_range, after, minSubnet, maxSubnet.
  pose proof (Z.mod_pos_bound (p - 1 + Z.of_nat i) 254 ltac:(lia)). lia.
Qed.

Lemma after_0 p : in_range p → after p 0 = p.
Proof.
  unfold in_range, after, minSubnet, maxSubnet. intros Hp.
  rewrite Z.mod_small by lia. lia.
Qed.

Lemma next_after p i : next_subnet (after p i) = after p (S i).
Proof.
  unfold next_subnet, after, minSubnet, maxSubnet.
  replace (p - 1 + Z.of_nat (S i))%Z with ((p - 1 + Z.of_nat i) + 1)%Z by lia.
  generalize (p - 1 + Z.of_nat i)%Z. intros z.
  pose proof (Z.mod_pos_bound z 254 ltac:(lia)) as Hz.
  rewrite <- (Z.add_mod_idemp_l z 1) by lia. revert Hz. generalize (z `mod` 254)%Z. intros r Hr.
  rewrite (Z.mod_small (r + 1 + 1)) by lia.
  destruct (decide (r = 253)%Z) as [->|].
  - rewrite bool_decide_true by lia. done.
  - rewrite bool_decide_false by lia. rewrite Z.mod_small by lia. done.
Qed.

Lemma after_inj p i j : i < 254 → j < 254 → after p i = after p j → i = j.
Proof.
  unfold after. intros Hi Hj E.
  assert (Hm : ((p - 1 + Z.of_nat i) `mod` 254 = (p - 1 + Z.of_nat j) `mod` 254)%Z) by lia.
  pose proof (Z.div_mod (p - 1 + Z.of_nat i) 254 ltac:(lia)).
  pose proof (Z.div_mod (p - 1 + Z.of_nat j) 254 ltac:(lia)). lia.
Qed.

Lemma after_all p s : in_range s → ∃ i, i < 254 ∧ after p i = s.
Proof.
  unfold in_range, after, minSubnet, maxSubnet. intros Hs.
  exists (Z.to_nat ((s - p) `mod` 254)).
  pose proof (Z.mod_pos_bound (s - p) 254 ltac:(lia)) as Hm. split; [lia|].
  rewrite Z2Nat.id by lia. rewrite Z.add_mod_idemp_r by lia.
  replace (p - 1 + (s - p))%Z with (s - 1)%Z by lia. rewrite Z.mod_small by lia. lia.
Qed.

(** 254 rounds are enough: the loop finds a free subnet of the range, or has
    looked at all of them. *)
Lemma probe_spec n i p allocations :
  in_range p → i + n = 254 → 0 < n →
  (∀ j, j < i → is_Some (allocations !! after p j)) →
  match probe n allocations (after p i) p with
  | Some (Some s) => in_range s ∧ allocations !! s = None
  | Some None => ∀ s, in_range s → is_Some (allocations !! s)
  | None => False
  end.
Proof.
  intros Hp. revert i; induction n as [|n IH]; intros i Hi Hn Hall; [lia|]. cbn [probe].
  destruct (allocations !! after p i) as [k|] eqn:Hk; [|by split; [apply after_range|]].
  assert (Hall' : ∀ j, j < S i → is_Some (allocations !! after p j)).
  { intros j Hj. destruct (decide (j = i)) as [->|]; [by rewrite Hk|]. apply Hall. lia. }
  cbv zeta. rewrite next_after. case_bool_decide as He.
  - intros s Hs. destruct (after_all p s Hs) as (j & Hj & <-).
    assert (S i = 254).
    { destruct (decide (S i = 254)); [done|].
      pose proof (after_inj p (S i) 0) as Hinj. rewrite (after_0 p Hp) in Hinj.
      specialize (Hinj ltac:(lia) ltac:(lia) He). lia. }
    apply Hall'. lia.
  - destruct n as [|n].
    + exfalso. apply He. replace (S i) with 254 by lia. unfold after.
      replace (p - 1 + Z.of_nat 254)%Z with (p - 1 + 1 * 254)%Z by lia.
      rewrite Z.mod_add by lia. fold (after p 0) in *. unfold in_range, minSubnet, maxSubnet in Hp.
      rewrite Z.mod_small by lia. lia.
    + apply IH; [lia|lia|done].
Qed.

Definition reads_back (n : nat) : bool :=
  match sscanf_uint8 (itoa (Z.of_nat n)) with
  | Ok z => Z.eqb z (Z.of_nat n)
  | Err _ => false
  end.

Lemma all_read_back : forallb reads_back (seq 0 256) = true.
Proof. vm_compute. reflexivity. Qed.

Lemma sscanf_itoa s : (0 ≤ s < 256)%Z → sscanf_uint8 (itoa s) = Ok s.
Proof.
  intros Hs. pose proof all_read_back as Hall. rewrite forallb_forall in Hall.
  specialize (Hall (Z.to_nat s)). unfold reads_back in Hall. rewrite Z2Nat.id in Hall by lia.
  destruct (sscanf_uint8 (itoa s)) as [z|] eqn:E.
  - f_equal. apply Z.eqb_eq, Hall, in_seq. lia.
  - ospecialize* Hall; [apply in_seq; lia|done].
Qed.

Lemma itoa_inj s1 s2 : (0 ≤ s1 < 256)%Z → (0 ≤ s2 < 256)%Z → itoa s1 = itoa s2 → s1 = s2.
Proof.
  intros H1 H2 E. pose proof (sscanf_itoa s1 H1) as E1. rewrite E, sscanf_itoa in E1 by done.
  by injection E1.
Qed.

(** ** The allocations and their file *)

Section laws.
Context {F : Type} `{CodecLaws F persistedState} `{MapRange}.
Implicit Types (a : Allocator F).

Lemma find_key_Some key (m : gmap Z string) s : find_key key m = Some s → m !! s = Some key.
Proof.
  unfold find_key. intros Hh%head_Some_elem_of.
  apply list_elem_of_fmap in Hh as ([s' k] & -> & Hin).
  apply list_elem_of_filter in Hin as [-> Hin]. by apply elem_of_range.
Qed.

Lemma find_key_None key (m : gmap Z string) s : find_key key m = None → m !! s ≠ Some key.
Proof.
  unfold find_key. intros Hh Hs. apply head_None in Hh.
  apply fmap_nil_inv in Hh. eapply not_elem_of_nil. rewrite <- Hh.
  apply list_elem_of_filter. split; [|by apply elem_of_range]. done.
Qed.

(** No devnet has two subnets, and the file holds the allocations. *)
Record alloc_ok a : Prop := {
  ok_inj s1 s2 k : al_allocations a !! s1 = Some k → al_allocations a !! s2 = Some k → s1 = s2;
  ok_range s k : al_allocations a !! s = Some k → in_range s;
  ok_file : ∃ data, al_file a = Some data ∧ encode (persisted (al_allocations a)) = Ok data
}.

Lemma find_key_inj a key s :
  alloc_ok a → al_allocations a !! s = Some key → find_key key (al_allocations a) = Some s.
Proof.
  intros Ha Hs. destruct (find_key key (al_allocations a)) as [s'|] eqn:E.
  - f_equal. by apply (ok_inj a Ha s' s key), Hs; apply find_key_Some.
  - by apply find_key_None with (s := s) in E.
Qed.

Definition entry (x : Z * string) : string * string := (itoa x.1, x.2).

Lemma load_keys_entries (l : list (Z * string)) (acc : gmap Z string) :
  NoDup l.*1 → Forall (λ x, 0 ≤ x.1 < 256)%Z l →
  load_keys (entry <$> l) acc = Ok (list_to_map l ∪ acc).
Proof.
  revert acc; induction l as [|[s k] l IH]; intros acc Hn Hr; simpl.
  - by rewrite map_empty_union.
  - apply NoDup_cons in Hn as [Hs Hn]. apply Forall_cons in Hr as [Hr1 Hr]. simpl in *.
    rewrite sscanf_itoa by done. rewrite IH by done. f_equal.
    rewrite <- insert_union_l. by rewrite insert_union_r by by apply not_elem_of_list_to_map_1.
Qed.

Lemma NoDup_entries (l : list (Z * string)) :
  NoDup l.*1 → Forall (λ x, 0 ≤ x.1 < 256)%Z l → NoDup (entry <$> l).*1.
Proof.
  induction l as [|[s k] l IH]; intros Hn Hr; simpl; [constructor|].
  apply NoDup_cons in Hn as [Hs Hn]. apply Forall_cons in Hr as [Hr1 Hr]. simpl in *.
  apply NoDup_cons. split; [|by apply IH]. intros Hin. apply Hs.
  apply list_elem_of_fmap in Hin as ([? ?] & Hi & Hin).
  apply list_elem_of_fmap in Hin as ([s' k'] & ? & Hin). unfold entry in *. simplify_eq/=.
  apply list_elem_of_fmap. exists (s', k'). split; [|done]. simpl.
  rewrite Forall_forall in Hr. apply itoa_inj; [done|exact (Hr _ Hin)|done].
Qed.

(** Reading a saved state back gives the allocations, whatever the order of the
    two iterations. *)
Lemma load_persisted (m : gmap Z string) :
  (∀ s k, m !! s = Some k → (0 ≤ s < 256)%Z) →
  load_keys (range (ps_Allocations (persisted m))) ∅ = Ok m.
Proof.
  intros Hr. simpl.
  assert (Hn : NoDup (range m).*1) by (rewrite range_perm; apply NoDup_fst_map_to_list).
  assert (Hf : Forall (λ x, 0 ≤ x.1 < 256)%Z (range m)).
  { apply Forall_forall. intros [s k] Hin%elem_of_range. by apply (Hr s k). }
  assert (Hp : range (list_to_map (entry <$> range m) : gmap string string) ≡ₚ entry <$> range m).
  { rewrite range_perm. apply map_to_list_to_map. by apply NoDup_entries. }
  replace ((λ '(s, k), (itoa s, k)) <$> range m) with (entry <$> range m)
    by (apply list_fmap_ext; by intros ? [??]).
  destruct (Permutation_map_inv _ (range m) Hp) as (l' & E & Hp').
  change (map entry l') with (entry <$> l') in E. rewrite E.
  rewrite load_keys_entries by by rewrite <- Hp'.
  f_equal. rewrite (right_id_L ∅ (∪)). rewrite <- (list_to_map_to_list m).
  apply list_to_map_proper; [by rewrite <- Hp'|]. by rewrite <- Hp', range_perm.
Qed.

Lemma subnet_save_cases w a :
  let '(err, a') := save w a in
  match err with
  | Some _ => a' = a ∧ (w ≠ IoOk ∨ ∃ e, encode (persisted (al_allocations a)) = Err e)
  | None => w = IoOk ∧ al_allocations a' = al_allocations a ∧
      ∃ data, al_file a' = Some data ∧ encode (persisted (al_allocations a)) = Ok data
  end.
Proof. unfold save. destruct encode eqn:E, w; naive_solver. Qed.

Lemma subnet_save_ok w a a' :
  save w a = (None, a') →
  (∀ s1 s2 k, al_allocations a !! s1 = Some k → al_allocations a !! s2 = Some k → s1 = s2) →
  (∀ s k, al_allocations a !! s = Some k → in_range s) →
  alloc_ok a' ∧ al_allocations a' = al_allocations a.
Proof.
  intros E Hi Hr. pose proof (subnet_save_cases w a) as Hs. rewrite E in Hs.
  destruct Hs as (_ & Ha & Hf). split; [|done]. split; rewrite Ha; [exact Hi|exact Hr|exact Hf].
Qed.

(** The failure of a save. *)
Definition save_fails w a : Prop :=
  w ≠ IoOk ∨ ∃ e, encode (persisted (al_allocations a)) = Err e.

Lemma alloc_eta a : mkAllocator (al_allocations a) (al_file a) = a.
Proof. by destruct a. Qed.

(** ** Allocating *)

Lemma Allocate_cases w ns d a :
  alloc_ok a →
  let key := devnetKey ns d in
  let '(r, a') := Allocate w ns d a in
  alloc_ok a' ∧
  match r with
  | Ok s => in_range s ∧
      ((al_allocations a !! s = Some key ∧ a' = a) ∨
       (al_allocations a !! s = None ∧ GetSubnet ns d a = None ∧
        al_allocations a' = <[s := key]> (al_allocations a)))
  | Err _ => a' = a ∧ GetSubnet ns d a = None ∧
      ((∀ s, in_range s → is_Some (al_allocations a !! s)) ∨
       ∃ s, al_allocations a !! s = None ∧
         save_fails w (a <| al_allocations := <[s := key]> (al_allocations a) |>))
  end.
Proof.
  intros Ha. cbv zeta. unfold Allocate, GetSubnet. set (key := devnetKey ns d).
  destruct (find_key key (al_allocations a)) as [s|] eqn:Hk.
  { apply find_key_Some in Hk. split; [done|]. split; [by eapply ok_range|]. by left. }
  pose proof (probe_spec 254 0 (hashToSubnet key) (al_allocations a) (hashToSubnet_range key)
                eq_refl ltac:(lia) ltac:(lia)) as Hp.
  rewrite after_0 in Hp by apply hashToSubnet_range.
  destruct (probe _ _ _ _) as [[s|]|]; [|by eauto|done].
  destruct Hp as [Hs Hfree]. pose proof (subnet_save_cases w (a <| al_allocations := <[s := key]> (al_allocations a) |>)) as Hc.
  destruct (save w _) as [[e|] a1] eqn:E.
  - destruct Hc as [-> Hfail]. simpl.
    assert (Hid : delete s (<[s := key]> (al_allocations a)) = al_allocations a)
      by by rewrite delete_insert_id.
    unfold set; simpl. rewrite Hid, alloc_eta. eauto 10.
  - apply subnet_save_ok in E as [Hok Hal]; simpl in *.
    + eauto 10.
    + intros s1 s2 k. rewrite !lookup_insert_Some. intros H1' H2'.
      pose proof (find_key_None key (al_allocations a)) as Hn.
      destruct H1' as [[<- <-]|[? H1']], H2' as [[<- ?]|[? H2']]; try done.
      * by destruct (Hn s2 Hk).
      * subst. by destruct (Hn s1 Hk).
      * by eapply ok_inj.
    + intros s' k. rewrite lookup_insert_Some. intros [[<- _]|[_ ?]]; [done|by eapply ok_range].
Qed.

Lemma Release_cases w ns d a :
  alloc_ok a →
  let key := devnetKey ns d in
  let '(err, a') := Release w ns d a in
  alloc_ok a' ∧
  match err with
  | None => (GetSubnet ns d a = None ∧ a' = a) ∨
      (∃ s, GetSubnet ns d a = Some s ∧ al_allocations a' = delete s (al_allocations a))
  | Some _ => a' = a ∧ ∃ s, GetSubnet ns d a = Some s ∧
      save_fails w (a <| al_allocations := delete s (al_allocations a) |>)
  end.
Proof.
  intros Ha. cbv zeta. unfold Release, GetSubnet. set (key := devnetKey ns d).
  destruct (find_key key (al_allocations a)) as [s|] eqn:Hk; [|by eauto].
  pose proof (subnet_save_cases w (a <| al_allocations := delete s (al_allocations a) |>)) as Hc.
  destruct (save w _) as [[e|] a1] eqn:E.
  - destruct Hc as [-> Hfail].
    assert (Hid : <[s := key]> (delete s (al_allocations a)) = al_allocations a)
      by (rewrite insert_delete_eq; by apply insert_id, find_key_Some).
    unfold set; simpl. rewrite Hid, alloc_eta. eauto 10.
  - apply subnet_save_ok in E as [Hok Hal]; simpl in *.
    + eauto 10.
    + intros s1 s2 k. rewrite !lookup_delete_Some. intros [_ ?] [_ ?]. by eapply ok_inj.
    + intros s' k. rewrite lookup_delete_Some. intros [_ ?]. by eapply ok_range.
Qed.

Lemma LoadOrCreate_reads a read mkdir w :
  alloc_ok a → read = None → LoadOrCreate read mkdir w (al_file a) = Ok a.
Proof.
  intros Ha ->. destruct (ok_file a Ha) as (data & Hf & He).
  unfold LoadOrCreate. rewrite Hf. rewrite (decode_encode _ _ He).
  rewrite load_persisted.
  - simpl. by rewrite <- Hf, alloc_eta.
  - intros s k Hs%ok_range; [|done]. unfold in_range, minSubnet, maxSubnet in Hs. lia.
Qed.

Lemma LoadOrCreate_new read mkdir w a :
  LoadOrCreate read mkdir w None = Ok a → alloc_ok a.
Proof.
  unfold LoadOrCreate. destruct mkdir; [done|]. destruct (save _ _) as [[e|] a1] eqn:E; [done|].
  intros [= <-]. apply subnet_save_ok in E as [Hok _]; [done|..]; simpl; intros; by simplify_map_eq.
Qed.

Lemma devnetKey_inj ns1 d1 ns2 d2 :
  has_char slash ns1 = false → has_char slash ns2 = false →
  devnetKey ns1 d1 = devnetKey ns2 d2 → ns1 = ns2 ∧ d1 = d2.
Proof. intros H1' H2'. unfold devnetKey. by apply sep_inj. Qed.

(** ** A history of an allocator: requests, and restarts of the daemon *)

Inductive alloc_op :=
| OpAllocate (w : io) (namespace devnetName : string)
| OpRelease (w : io) (namespace devnetName : string)
| OpRestart (mkdir : option error) (w : io).

Definition alloc_step (o : alloc_op) a : Allocator F :=
  match o with
  | OpAllocate w ns d => (Allocate w ns d a).2
  | OpRelease w ns d => (Release w ns d a).2
  | OpRestart mkdir w =>
      match LoadOrCreate None mkdir w (al_file a) with Ok a' => a' | Err _ => a end
  end.

Fixpoint alloc_run (ops : list alloc_op) a : Allocator F :=
  match ops with
  | [] => a
  | o :: ops => alloc_run ops (alloc_step o a)
  end.

Lemma alloc_step_ok o a : alloc_ok a → alloc_ok (alloc_step o a).
Proof.
  intros Ha. destruct o as [w ns d|w ns d|mkdir w]; simpl.
  - pose proof (Allocate_cases w ns d a Ha) as Hc. destruct (Allocate w ns d a). apply Hc.
  - pose proof (Release_cases w ns d a Ha) as Hc. destruct (Release w ns d a). apply Hc.
  - by rewrite LoadOrCreate_reads.
Qed.

Lemma alloc_run_ok ops a : alloc_ok a → alloc_ok (alloc_run ops a).
Proof. revert a; induction ops as [|o ops IH]; simpl; eauto using alloc_step_ok. Qed.

(** C36: Under any history from a fresh file, whatever saves fail: subnets are in
    range, two devnets never share one, and a restart finds every allocation. *)
Theorem allocator_is_safe mkdir w ops a0 :
  LoadOrCreate None mkdir w None = Ok a0 →
  let a := alloc_run ops a0 in
  (∀ ns d s, GetSubnet ns d a = Some s → (1 ≤ s ≤ 254)%Z) ∧
  (∀ ns1 d1 ns2 d2 s,
    has_char slash ns1 = false → has_char slash ns2 = false →
    GetSubnet ns1 d1 a = Some s → GetSubnet ns2 d2 a = Some s → ns1 = ns2 ∧ d1 = d2) ∧
  ∀ mkdir' w', LoadOrCreate None mkdir' w' (al_file a) = Ok a.
Proof.
  intros Hnew. cbv zeta.
  pose proof (alloc_run_ok ops a0 (LoadOrCreate_new _ _ _ _ Hnew)) as Ha.
  split_and!.
  - intros ns d s Hs%find_key_Some. by apply (ok_range _ Ha) in Hs.
  - intros ns1 d1 ns2 d2 s H1' H2' E1%find_key_Some E2%find_key_Some.
    apply devnetKey_inj; [done|done|congruence].
  - intros. by apply LoadOrCreate_reads.
Qed.

(** An allocation answers the subnet the devnet has or a free one of the range
    that it has from then on, also after a restart; it fails only when all 254
    are taken or the save fails, and then nothing has changed.  No other devnet
    sees a difference. *)
Theorem Allocate_outcomes w ns d a :
  alloc_ok a → has_char slash ns = false →
  let '(r, a') := Allocate w ns d a in
  alloc_ok a' ∧
  (∀ ns' d', has_char slash ns' = false → (ns', d') ≠ (ns, d) →
    GetSubnet ns' d' a' = GetSubnet ns' d' a) ∧
  match r with
  | Ok s => (1 ≤ s ≤ 254)%Z ∧ GetSubnet ns d a' = Some s ∧
      (GetSubnet ns d a = Some s ∧ a' = a ∨
       GetSubnet ns d a = None ∧ ListAllocations a !! s = None)
  | Err _ => a' = a ∧ GetSubnet ns d a = None ∧
      ((∀ s, (1 ≤ s ≤ 254)%Z → is_Some (ListAllocations a !! s)) ∨
       ∃ s, ListAllocations a !! s = None ∧
         save_fails w (a <| al_allocations := <[s := devnetKey ns d]> (al_allocations a) |>))
  end.
Proof.
  intros Ha Hns. pose proof (Allocate_cases w ns d a Ha) as Hc. cbv zeta in Hc.
  destruct (Allocate w ns d a) as [[s|e] a'].
  - destruct Hc as (Hok & Hr & Hc). split; [done|]. split.
    + intros ns' d' Hns' Hne. destruct Hc as [[_ ->]|(Hs & Hg & Hal)]; [done|].
      assert (Hk : devnetKey ns' d' ≠ devnetKey ns d)
        by (intros E; apply devnetKey_inj in E as [-> ->]; done).
      unfold GetSubnet. destruct (find_key _ (al_allocations a)) as [s'|] eqn:E.
      * apply find_key_inj; [done|]. apply find_key_Some in E. rewrite Hal.
        rewrite lookup_insert_ne; [done|congruence].
      * destruct (find_key _ (al_allocations a')) as [s'|] eqn:E'; [|done]. exfalso.
        apply find_key_Some in E'. rewrite Hal, lookup_insert_Some in E'.
        destruct E' as [[_ ?]|[_ E']]; [congruence|]. by apply find_key_None with (s := s') in E.
    + split; [done|]. destruct Hc as [[Hs ->]|(Hs & Hg & Hal)].
      * split; [by apply find_key_inj|]. left. split; [by apply find_key_inj|done].
      * split; [|by right]. apply find_key_inj; [done|]. by rewrite Hal, lookup_insert_eq.
  - destruct Hc as (Hok & -> & Hg & Hc). eauto.
Qed.

(** A release frees the devnet's subnet, in memory and in the file, and is
    idempotent; a failed one changes nothing.  No other devnet sees a difference. *)
Theorem Release_outcomes w ns d a :
  alloc_ok a → has_char slash ns = false →
  let '(err, a') := Release w ns d a in
  alloc_ok a' ∧
  (∀ ns' d', has_char slash ns' = false → (ns', d') ≠ (ns, d) →
    GetSubnet ns' d' a' = GetSubnet ns' d' a) ∧
  match err with
  | None => GetSubnet ns d a' = None ∧
      (∀ s, GetSubnet ns d a = Some s → ListAllocations a' !! s = None) ∧
      Release w ns d a' = (None, a')
  | Some _ => a' = a ∧ ∃ s, GetSubnet ns d a = Some s ∧
      save_fails w (a <| al_allocations := delete s (al_allocations a) |>)
  end.
Proof.
  intros Ha Hns. pose proof (Release_cases w ns d a Ha) as Hc. cbv zeta in Hc.
  destruct (Release w ns d a) as [[e|] a'].
  { destruct Hc as (Hok & -> & Hc). eauto. }
  destruct Hc as (Hok & Hc). split; [done|].
  assert (Hgone : GetSubnet ns d a' = None ∧ ∀ s, GetSubnet ns d a = Some s → al_allocations a' !! s = None).
  { destruct Hc as [[Hg ->]|(s & Hg & Hal)]; [split; [done|congruence]|]. split.
    - unfold GetSubnet. destruct (find_key _ (al_allocations a')) as [s'|] eqn:E; [|done].
      apply find_key_Some in E. rewrite Hal, lookup_delete_Some in E. destruct E as [Hne E].
      apply (find_key_inj _ _ _ Ha) in E. unfold GetSubnet in Hg. congruence.
    - intros s' Hg'. rewrite Hal. assert (s' = s) as -> by congruence. apply lookup_delete_eq. }
  split.
  - intros ns' d' Hns' Hne. destruct Hc as [[_ ->]|(s & Hg & Hal)]; [done|].
    assert (Hk : devnetKey ns' d' ≠ devnetKey ns d)
      by (intros E; apply devnetKey_inj in E as [-> ->]; done).
    apply find_key_Some in Hg. unfold GetSubnet.
    destruct (find_key _ (al_allocations a)) as [s'|] eqn:E.
    + apply find_key_inj; [done|]. apply find_key_Some in E. rewrite Hal.
      rewrite lookup_delete_ne; [done|congruence].
    + destruct (find_key _ (al_allocations a')) as [s'|] eqn:E'; [|done]. exfalso.
      apply find_key_Some in E'. rewrite Hal, lookup_delete_Some in E'.
      destruct E' as [_ E']. by apply find_key_None with (s := s') in E.
  - destruct Hgone as [Hg Hfree]. split_and!; [done|done|].
    unfold Release. unfold GetSubnet in Hg. by rewrite Hg.
Qed.
End laws.

(** ** Concrete runs *)

#[export] Instance plain_codec : Codec persistedState persistedState :=
  {| encode := Ok; decode := Ok |}.
#[export] Instance plain_codec_laws : CodecLaws persistedState persistedState.
Proof. by intros ?? [= <-]. Qed.

Definition fresh : Allocator persistedState := mkAllocator ∅ (Some (mkPersistedState ∅)).

(** A full history: two devnets, a failed release, a restart. *)
Definition history : list alloc_op :=
  [OpAllocate IoOk "default" "a"; OpAllocate IoOk "default" "b";
   OpRelease (WriteFails (Errorf "disk full")) "default" "a"; OpRestart None IoOk;
   OpRelease IoOk "default" "b"].

Section witnesses.
#[local] Existing Instance some_order.

Lemma fresh_created : LoadOrCreate None None IoOk None = Ok fresh.
Proof. vm_compute. reflexivity. Qed.

Lemma fresh_ok : alloc_ok fresh.
Proof. exact (LoadOrCreate_new _ _ _ _ fresh_created). Qed.

Lemma allocator_is_safe_witness :
  LoadOrCreate None None IoOk None = Ok fresh ∧
  let a := alloc_run history fresh in
  (GetSubnet "default" "a" a = Some 157%Z ∧ GetSubnet "default" "b" a = None) ∧
  LoadOrCreate None None IoOk (al_file a) = Ok a.
Proof.
  split; [exact fresh_created|]. split; [split; vm_compute; reflexivity|].
  apply (allocator_is_safe None IoOk history fresh fresh_created).
Defined.

Lemma Allocate_outcomes_witness :
  let '(r, a') := Allocate IoOk "default" "a" fresh in
  alloc_ok a' ∧ r = Ok 157%Z ∧ GetSubnet "default" "a" a' = Some 157%Z.
Proof.
  pose proof (Allocate_outcomes IoOk "default" "a" fresh fresh_ok eq_refl) as Hw.
  assert (E : (Allocate IoOk "default" "a" fresh).1 = Ok 157%Z) by (vm_compute; reflexivity).
  destruct (Allocate IoOk "default" "a" fresh) as [r a']. simpl in E. subst r.
  destruct Hw as (Hok & _ & _ & Hg & _). split_and!; [exact Hok|reflexivity|exact Hg].
Defined.

Lemma Release_outcomes_witness :
  let a := alloc_run (take 2 history) fresh in
  let '(err, a') := Release IoOk "default" "a" a in
  alloc_ok a' ∧ err = None ∧ GetSubnet "default" "a" a' = None ∧
  GetSubnet "default" "b" a' = GetSubnet "default" "b" a.
Proof.
  cbv zeta. set (a := alloc_run _ _).
  pose proof (Release_outcomes IoOk "default" "a" a (alloc_run_ok _ _ fresh_ok) eq_refl) as Hw.
  assert (E : (Release IoOk "default" "a" a).1 = None) by (vm_compute; reflexivity).
  destruct (Release IoOk "default" "a" a) as [err a']. simpl in E. subst err.
  destruct Hw as (Hok & Hoth & Hg & _). split_and!; [exact Hok|reflexivity|exact Hg|].
  apply Hoth; [reflexivity|congruence].
Defined.
End witnesses.
