(* ===== verification/Auth.v ===== *)
(** * Authentication and namespace access ([internal/auth])

    The interceptor lets local connections through and asks remote ones for an
    API key; what a handler sees of the caller is a [UserInfo], none for a local
    connection.  [FileKeyStore] keeps the keys and a YAML file of them; the random
    bytes, the YAML library and the file system are arguments.  [rpc] is what a
    gRPC method returns. *)

From Stdlib Require Import Ascii.
From stdpp Require Import base tactics numbers list strings gmap.
From S2P Require Import Prelude.

(** ** gRPC answers *)

(** The status codes the services use. *)
Inductive rpc_code :=
| InvalidArgument | NotFound | AlreadyExists | PermissionDenied
| FailedPrecondition | Internal | Unavailable | Unauthenticated.
#[export] Instance rpc_code_eq_dec : EqDecision rpc_code.
Proof. solve_decision. Defined.

(** The name of a code, as [Code.String] prints it. *)
Definition code_name (c : rpc_code) : string :=
  match c with
  | InvalidArgument => "InvalidArgument" | NotFound => "NotFound"
  | AlreadyExists => "AlreadyExists" | PermissionDenied => "PermissionDenied"
  | FailedPrecondition => "FailedPrecondition" | Internal => "Internal"
  | Unavailable => "Unavailable" | Unauthenticated => "Unauthenticated"
  end.

Inductive rpc (A : Type) :=
| RpcOk (a : A)
| RpcErr (code : rpc_code) (msg : string).
Arguments RpcOk {A}.
Arguments RpcErr {A}.

(** ** The caller ([context.go]) *)

Record UserInfo := mkUserInfo {
  ui_Name : string;
  ui_Namespaces : list string
}.

Definition HasAllNamespaceAccess (u : UserInfo) : bool :=
  existsb (λ ns, bool_decide (ns = "*")) (ui_Namespaces u).

Definition CanAccessNamespace (namespace : string) (u : UserInfo) : bool :=
  if HasAllNamespaceAccess u then true
  else existsb (λ ns, bool_decide (ns = namespace)) (ui_Namespaces u).

(** [HasNamespaceAccess]; the context holds at most one [UserInfo]. *)
Definition HasNamespaceAccess (ctx : option UserInfo) (namespace : string) : bool :=
  match ctx with
  | None => true
  | Some info => CanAccessNamespace namespace info
  end.

Definition LocalUserInfo : UserInfo := mkUserInfo "local" ["*"].

(** [WhoAmI] ([server/auth_service.go]). *)
Definition WhoAmI (ctx : option UserInfo) : rpc UserInfo :=
  match ctx with
  | Some info => RpcOk info
  | None => RpcOk (mkUserInfo "local" ["*"])
  end.

(** A peer: the text of its address and its network. *)
Definition IsLocalConnection (peer : option (string * string)) : bool :=
  match peer with
  | None => false
  | Some (addr, network) =>
      if has_prefix "@" addr || has_prefix "/" addr then true
      else if bool_decide (network = "unix") then true
      else false
  end.

(** ** API keys ([keys.go]) *)

Definition KeyPrefix : string := "devnet_".
Definition KeyRandomBytes : nat := 16.

Record APIKey := mkAPIKey {
  ak_Key : string;
  ak_Name : string;
  ak_Namespaces : list string;
  ak_CreatedAt : Time
}.

Record keysFile := mkKeysFile { kf_Keys : list APIKey }.

Record FileKeyStore (F : Type) := mkFileKeyStore {
  fk_keys : gmap string APIKey;
  fk_file : option F  (* the file at [path] *)
}.
Arguments mkFileKeyStore {F}.
Arguments fk_keys {F}.
Arguments fk_file {F}.
#[export] Instance eta_FileKeyStore {F} : Settable (FileKeyStore F) := mkSettable (λ x,
  mkFileKeyStore (fk_keys x) (fk_file x)).

(** [hex.EncodeToString]. *)
Fixpoint hex_encode (bytes : string) : string :=
  match bytes with
  | EmptyString => EmptyString
  | String c bytes =>
      let n := N_of_ascii c in
      String (hex_digit (n / 16)) (String (hex_digit (n `mod` 16)) (hex_encode bytes))
  end.

(** Whether [hex.DecodeString] accepts a string: an even number of digits of
    either case. *)
Definition is_hex (c : ascii) : bool :=
  let n := N_of_ascii c in
  (bool_decide (48 ≤ n)%N && bool_decide (n ≤ 57)%N) ||
  (bool_decide (97 ≤ n)%N && bool_decide (n ≤ 102)%N) ||
  (bool_decide (65 ≤ n)%N && bool_decide (n ≤ 70)%N).
Fixpoint hex_decodes (s : string) : bool :=
  match s with
  | EmptyString => true
  | String a (String b s) => is_hex a && is_hex b && hex_decodes s
  | String _ EmptyString => false
  end.

(** [GenerateAPIKey] with the bytes [rand.Read] fills in. *)
Definition GenerateAPIKey (random : result string) : result string :=
  match random with
  | Err e => Err (Wrap "failed to generate random bytes" e)
  | Ok bytes => Ok (KeyPrefix +:+ hex_encode bytes)
  end.

(** [key[:n]] and [key[n:]]. *)
Definition take_str (n : nat) (s : string) : string := Strings.String.substring 0 n s.
Definition drop_str (n : nat) (s : string) : string :=
  Strings.String.substring n (Strings.String.length s - n) s.

Definition IsValidKeyFormat (key : string) : bool :=
  if bool_decide (Strings.String.length key ≠
                  Strings.String.length KeyPrefix + KeyRandomBytes * 2) then false
  else if bool_decide (take_str (Strings.String.length KeyPrefix) key ≠ KeyPrefix) then false
  else hex_decodes (drop_str (Strings.String.length KeyPrefix) key).

Definition maskKey (key : string) : string :=
  let len := Strings.String.length key in
  if bool_decide (len ≤ 12) then "***"
  else take_str 10 key +:+ "..." +:+ drop_str (len - 4) key.

Section keystore.
Context {F : Type} `{Codec F keysFile} `{MapRange}.
Implicit Types ks : FileKeyStore F.

(** [Load]; [read] is the error of reading a file that exists. *)
Definition Load (read : option error) ks : option error * FileKeyStore F :=
  match fk_file ks with
  | None => (None, ks <| fk_keys := ∅ |>)
  | Some data =>
      match read with
      | Some e => (Some (Wrap "failed to read keys file" e), ks)
      | None =>
          match decode data with
          | Err e => (Some (Wrap "failed to parse keys file" e), ks)
          | Ok kf =>
              (None, ks <| fk_keys :=
                 foldl (λ m key, <[ak_Key key := key]> m) ∅ (kf_Keys kf) |>)
          end
      end
  end.

(** [Save]; [os.WriteFile] truncates first, so that a failed write leaves
    [torn], whatever was written. *)
Definition Save (mkdir write : option error) (torn : option F) ks
    : option error * FileKeyStore F :=
  match mkdir with
  | Some e => (Some (Wrap "failed to create keys directory" e), ks)
  | None =>
      match encode (mkKeysFile (range (fk_keys ks)).*2) with
      | Err e => (Some (Wrap "failed to marshal keys" e), ks)
      | Ok data =>
          match write with
          | Some e => (Some (Wrap "failed to write keys file" e), ks <| fk_file := torn |>)
          | None => (None, ks <| fk_file := Some data |>)
          end
      end
  end.

Definition Create (random : result string) (t : Time) (name : string)
    (namespaces : list string) ks : result APIKey * FileKeyStore F :=
  match GenerateAPIKey random with
  | Err e => (Err (Wrap "failed to generate key" e), ks)
  | Ok key =>
      let apiKey := mkAPIKey key name namespaces t in
      (Ok apiKey, ks <| fk_keys := <[key := apiKey]> (fk_keys ks) |>)
  end.

Definition Get (key : string) ks : option APIKey := fk_keys ks !! key.

Definition List_ ks : list APIKey := (range (fk_keys ks)).*2.

Definition Revoke (key : string) ks : option error * FileKeyStore F :=
  match fk_keys ks !! key with
  | None => (Some (Errorf ("key not found: " +:+ maskKey key)), ks)
  | Some _ => (None, ks <| fk_keys := delete key (fk_keys ks) |>)
  end.
End keystore.

(** ** The interceptor ([interceptor.go]) *)

Definition BearerPrefix : string := "Bearer ".

(** [strings.TrimPrefix]. *)
Definition trim_prefix (p s : string) : string :=
  if has_prefix p s then drop_str (Strings.String.length p) s else s.

Definition ExtractBearerToken (authHeader : string) : string :=
  if has_prefix BearerPrefix authHeader then trim_prefix BearerPrefix authHeader else "".

Definition FormatBearerToken (apiKey : string) : string := BearerPrefix +:+ apiKey.

(** [authenticateRequest]: [md] holds the authorization headers, if there is
    incoming metadata; [get] is the key store's [Get]. *)
Definition authenticateRequest (md : option (list string)) (get : string → option APIKey)
    : rpc UserInfo :=
  match md with
  | None => RpcErr Unauthenticated "missing metadata"
  | Some [] => RpcErr Unauthenticated "missing authorization header"
  | Some (authHeader :: _) =>
      if negb (has_prefix BearerPrefix authHeader) then
        RpcErr Unauthenticated "invalid authorization format, expected 'Bearer <token>'"
      else
        let token := trim_prefix BearerPrefix authHeader in
        if bool_decide (token = "") then RpcErr Unauthenticated "empty authorization token"
        else if negb (IsValidKeyFormat token) then RpcErr Unauthenticated "authentication failed"
        else
          match get token with
          | None => RpcErr Unauthenticated "authentication failed"
          | Some apiKey => RpcOk (mkUserInfo (ak_Name apiKey) (ak_Namespaces apiKey))
          end
  end.

(** [NewAuthInterceptor] around a handler. *)
Definition AuthInterceptor {W A} (get : string → option APIKey) (isLocalConn : bool)
    (md : option (list string)) (handler : option UserInfo → M W (rpc A)) : M W (rpc A) :=
  if isLocalConn then handler None
  else
    match authenticateRequest md get with
    | RpcErr c m => done_with (RpcErr c m)
    | RpcOk userInfo => handler (Some userInfo)
    end.

(** ** Strings and keys *)

Lemma take_str_app s t : take_str (Strings.String.length s) (s +:+ t) = s.
Proof.
  unfold take_str. induction s as [|c s IH]; simpl; [by destruct t|]. by rewrite IH.
Qed.

Lemma drop_str_app s t : drop_str (Strings.String.length s) (s +:+ t) = t.
Proof.
  unfold drop_str. rewrite length_append.
  replace (_ + _ - _) with (Strings.String.length t) by lia.
  induction s as [|c s IH]; simpl; [apply substring_all|done].
Qed.

Lemma trim_prefix_app p s : trim_prefix p (p +:+ s) = s.
Proof. unfold trim_prefix. by rewrite has_prefix_app, drop_str_app. Qed.

Lemma is_hex_digit n : (n < 16)%N → is_hex (hex_digit n) = true.
Proof.
  intros Hn.
  assert (Hall : forallb (λ i, is_hex (hex_digit (N.of_nat i))) (seq 0 16) = true)
    by (vm_compute; reflexivity).
  rewrite forallb_forall in Hall. specialize (Hall (N.to_nat n)). rewrite N2Nat.id in Hall.
  apply Hall, in_seq. lia.
Qed.

Lemma hex_encode_decodes s : hex_decodes (hex_encode s) = true.
Proof.
  induction s as [|c s IH]; simpl; [done|]. rewrite IH, andb_true_r.
  pose proof (N_ascii_bounded c).
  rewrite !is_hex_digit; [done| |].
  - apply N.mod_lt. done.
  - apply N.Div0.div_lt_upper_bound. lia.
Qed.

Lemma hex_encode_length s :
  Strings.String.length (hex_encode s) = 2 * Strings.String.length s.
Proof. induction s as [|c s IH]; simpl; [done|]. rewrite IH. lia. Qed.

Lemma hex_digit_inj a b : (a < 16)%N → (b < 16)%N → hex_digit a = hex_digit b → a = b.
Proof.
  assert (Hv : ∀ n, (n < 16)%N →
    N_of_ascii (hex_digit n) = if bool_decide (n < 10)%N then (48 + n)%N else (87 + n)%N).
  { intros n Hn. unfold hex_digit. apply N_ascii_embedding. case_bool_decide; lia. }
  intros Ha Hb E. apply (f_equal N_of_ascii) in E. rewrite (Hv a Ha), (Hv b Hb) in E.
  repeat case_bool_decide; lia.
Qed.

Lemma hex_encode_inj s1 s2 : hex_encode s1 = hex_encode s2 → s1 = s2.
Proof.
  revert s2; induction s1 as [|c s1 IH]; intros [|c2 s2]; cbn [hex_encode]; try done.
  intros [= E1 E2 E3]. apply IH in E3 as ->. f_equal.
  pose proof (N_ascii_bounded c). pose proof (N_ascii_bounded c2).
  apply hex_digit_inj in E1; [|apply N.Div0.div_lt_upper_bound; lia..].
  apply hex_digit_inj in E2; [|apply N.mod_lt; done..].
  rewrite <- (ascii_N_embedding c), <- (ascii_N_embedding c2). f_equal.
  rewrite (N.div_mod (N_of_ascii c) 16), (N.div_mod (N_of_ascii c2) 16) by done.
  congruence.
Qed.

Lemma generated_valid bytes :
  Strings.String.length bytes = KeyRandomBytes →
  IsValidKeyFormat (KeyPrefix +:+ hex_encode bytes) = true.
Proof.
  intros Hl. unfold IsValidKeyFormat.
  rewrite length_append, hex_encode_length, Hl. rewrite bool_decide_false by (intros Hn; apply Hn; lia).
  rewrite take_str_app, drop_str_app, bool_decide_false by (intros Hn; by apply Hn).
  apply hex_encode_decodes.
Qed.

(** ** Who gets through *)

(** What a remote caller must show: a header with a key of the right form that
    the store holds. *)
Definition shows_key (md : option (list string)) (get : string → option APIKey)
    (k : APIKey) : Prop :=
  ∃ key rest, md = Some (FormatBearerToken key :: rest) ∧
    IsValidKeyFormat key = true ∧ get key = Some k.

Lemma authenticate_cases md get :
  match authenticateRequest md get with
  | RpcOk u => ∃ k, shows_key md get k ∧ u = mkUserInfo (ak_Name k) (ak_Namespaces k)
  | RpcErr c _ => c = Unauthenticated ∧ ∀ k, ¬ shows_key md get k
  end.
Proof.
  unfold authenticateRequest, shows_key. destruct md as [[|h rest]|]; [naive_solver| |naive_solver].
  destruct (has_prefix BearerPrefix h) eqn:Hp; simpl.
  2:{ split; [done|]. intros k (key & rest' & [= ->] & _). unfold FormatBearerToken in Hp.
      by rewrite has_prefix_app in Hp. }
  apply has_prefix_spec in Hp as [key ->]. rewrite trim_prefix_app.
  assert (Hinj : ∀ key' rest', Some ((BearerPrefix +:+ key) :: rest) =
    Some (FormatBearerToken key' :: rest') → key' = key).
  { intros key' rest' [= E]. by apply append_inj in E. }
  case_bool_decide as Hnil.
  { split; [done|]. intros k (key' & rest' & ->%Hinj & Hv & _). by subst. }
  destruct (IsValidKeyFormat key) eqn:Hv; simpl.
  2:{ split; [done|]. intros k (key' & rest' & ->%Hinj & Hv' & _). congruence. }
  destruct (get key) as [k|] eqn:Hk.
  - exists k. split; [|done]. by exists key, rest.
  - split; [done|]. intros k (key' & rest' & ->%Hinj & _ & Hk'). congruence.
Qed.

Section issue.
Context {F : Type} `{CodecLaws F keysFile} `{MapRange}.
Implicit Types ks : FileKeyStore F.

(** Every key is stored under itself. *)
Definition keys_wf ks : Prop := map_Forall (λ k x, k = ak_Key x) (fk_keys ks).

Lemma keys_rebuild (m : gmap string APIKey) :
  map_Forall (λ k x, k = ak_Key x) m →
  foldl (λ m key, <[ak_Key key := key]> m) ∅ (range m).*2 = m.
Proof.
  intros Hm. rewrite <- (fold_insert_range m) at 2. rewrite foldl_fmap.
  assert (Hr : ∀ k x, (k, x) ∈ range m → k = ak_Key x) by (intros k x ?%elem_of_range; by apply Hm).
  revert Hr. generalize (∅ : gmap string APIKey) (range m). intros m0 l. revert m0.
  induction l as [|[k x] l IH]; intros m0 Hr; simpl; [done|].
  rewrite <- (Hr k x) by set_solver. apply IH. set_solver.
Qed.

Lemma Create_wf random t name nss ks : keys_wf ks → keys_wf (Create random t name nss ks).2.
Proof.
  unfold Create. destruct (GenerateAPIKey random); simpl; [|done]. intros Hk.
  by apply map_Forall_insert_2.
Qed.

Lemma Revoke_wf key ks : keys_wf ks → keys_wf (Revoke key ks).2.
Proof. unfold Revoke. destruct (_ !! key); [|done]. by apply map_Forall_delete. Qed.

Lemma Load_wf read ks : keys_wf ks → keys_wf (Load read ks).2.
Proof.
  unfold Load, keys_wf. intros Hk. destruct (fk_file ks) as [data|]; simpl; [|apply map_Forall_empty].
  destruct read; [done|]. destruct (decode data) as [kf|]; [|done]. simpl.
  assert (Hg : ∀ (l : list APIKey) (m : gmap string APIKey), map_Forall (λ k x, k = ak_Key x) m →
    map_Forall (λ k x, k = ak_Key x) (foldl (λ m key, <[ak_Key key := key]> m) m l)).
  { induction l as [|x l IH]; simpl; [done|]. intros m Hm. apply IH. by apply map_Forall_insert_2. }
  apply Hg, map_Forall_empty.
Qed.

(** Histories of a key store: the calls the daemon's commands make. *)
Inductive key_op :=
| KeyCreate (random : result string) (t : Time) (name : string) (namespaces : list string)
| KeyRevoke (key : string)
| KeyLoad (read : option error)
| KeySave (mkdir write : option error) (torn : option F).

Definition key_step (o : key_op) ks : FileKeyStore F :=
  match o with
  | KeyCreate r t n nss => (Create r t n nss ks).2
  | KeyRevoke key => (Revoke key ks).2
  | KeyLoad read => (Load read ks).2
  | KeySave mkdir write torn => (Save mkdir write torn ks).2
  end.

Lemma key_step_wf o ks : keys_wf ks → keys_wf (key_step o ks).
Proof.
  destruct o; simpl; eauto using Create_wf, Revoke_wf, Load_wf.
  unfold Save. destruct mkdir; [done|]. destruct encode; [|done]. by destruct write.
Qed.

Lemma key_steps_wf ops ks : keys_wf ks → keys_wf (foldl (λ ks o, key_step o ks) ks ops).
Proof. revert ks; induction ops; simpl; eauto using key_step_wf. Qed.

(** Saving the keys and loading the file gives the keys back. *)
Lemma Save_Load mkdir write torn ks ks1 :
  keys_wf ks → Save mkdir write torn ks = (None, ks1) →
  fk_keys ks1 = fk_keys ks ∧ Load None (mkFileKeyStore ∅ (fk_file ks1)) = (None, ks1).
Proof.
  intros Hk HS. unfold Save in HS. destruct mkdir; [done|].
  destruct (encode _) as [data|] eqn:He; [|done]. destruct write; [done|].
  injection HS as <-. split; [done|]. unfold Load. simpl. rewrite (decode_encode _ _ He). simpl.
  by rewrite keys_rebuild.
Qed.

(** A save that is not cut short and fails leaves everything as it was. *)
Lemma Save_fails mkdir torn ks e ks1 : Save mkdir None torn ks = (Some e, ks1) → ks1 = ks.
Proof.
  unfold Save. destruct mkdir; [congruence|]. destruct (encode _); [discriminate|congruence].
Qed.

(** The keys a successful save wrote are the keys another process loads, under
    any history of the store, whatever the order of the map's iteration. *)
Theorem saved_keys_are_loaded ops mkdir write torn ks1 :
  let ks := foldl (λ ks o, key_step o ks) (mkFileKeyStore ∅ None) ops in
  Save mkdir write torn ks = (None, ks1) →
  Load None (mkFileKeyStore ∅ (fk_file ks1)) = (None, ks1).
Proof.
  cbv zeta. intros HS. eapply Save_Load; [|exact HS]. apply key_steps_wf, map_Forall_empty.
Qed.
End issue.

(** A header with a key of the right form is decided by the key store. *)
Lemma authenticate_bearer key rest get :
  IsValidKeyFormat key = true →
  authenticateRequest (Some (FormatBearerToken key :: rest)) get =
    match get key with
    | None => RpcErr Unauthenticated "authentication failed"
    | Some apiKey => RpcOk (mkUserInfo (ak_Name apiKey) (ak_Namespaces apiKey))
    end.
Proof.
  intros Hv. unfold authenticateRequest, FormatBearerToken.
  rewrite has_prefix_app, trim_prefix_app, Hv.
  assert (Hne : key ≠ "") by (by intros ->). by rewrite bool_decide_false.
Qed.

(** The interceptor runs the handler for a local connection, without a caller,
    and for a remote one that shows a stored key, with that key's name and
    namespaces; anyone else gets [Unauthenticated] and the handler does not run. *)
Theorem AuthInterceptor_admits {W A} get isLocalConn md (handler : option UserInfo → M W (rpc A)) w :
  let '(r, w') := AuthInterceptor get isLocalConn md handler w in
  if isLocalConn then (r, w') = handler None w
  else
    (∃ k, shows_key md get k ∧
       (r, w') = handler (Some (mkUserInfo (ak_Name k) (ak_Namespaces k))) w) ∨
    ((∀ k, ¬ shows_key md get k) ∧ (∃ msg, r = RpcErr Unauthenticated msg) ∧ w' = w).
Proof.
  unfold AuthInterceptor. destruct isLocalConn; [by destruct (handler None w)|].
  pose proof (authenticate_cases md get) as Hc.
  destruct (authenticateRequest md get) as [u|c msg].
  - destruct Hc as (k & Hk & ->). destruct (handler _ w) as [r w'] eqn:E.
    left. by exists k.
  - destruct Hc as [-> Hn]. right. eauto.
Qed.

(** A caller may act in a namespace iff it is local or its key names the
    namespace or the star. *)
Lemma HasNamespaceAccess_iff ctx namespace :
  HasNamespaceAccess ctx namespace = true ↔
    ∀ u, ctx = Some u → "*" ∈ ui_Namespaces u ∨ namespace ∈ ui_Namespaces u.
Proof.
  destruct ctx as [u|]; simpl; [|naive_solver]. unfold CanAccessNamespace, HasAllNamespaceAccess.
  assert (He : ∀ ns, existsb (λ x, bool_decide (x = ns)) (ui_Namespaces u) = true ↔
    ns ∈ ui_Namespaces u).
  { intros ns. rewrite existsb_exists, list_elem_of_In. split.
    - by intros (x & Hx & ->%bool_decide_eq_true).
    - intros Hx. exists ns. by rewrite bool_decide_true. }
  destruct (existsb _ _) eqn:Ha; rewrite ?He in *; [|split].
  - naive_solver.
  - intros Hn u' [= <-]. by right.
  - intros Hn. destruct (Hn u eq_refl) as [Hs|Hs]; [|done].
    apply He in Hs. congruence.
Qed.

(** ** Concrete runs *)

Section witnesses.
#[local] Existing Instance some_order.
Instance plain_keys : Codec keysFile keysFile := {| encode := Ok; decode := Ok |}.
Instance plain_keys_laws : CodecLaws keysFile keysFile.
Proof. by intros ?? [= <-]. Qed.

Definition ex_bytes : string := "0123456789abcdef".
Definition no_keys : FileKeyStore keysFile := mkFileKeyStore ∅ None.

Definition ex_key_ops : list (@key_op keysFile) :=
  [KeyCreate (Ok ex_bytes) 5%Z "alice" ["team-a"];
   KeyCreate (Ok "fedcba9876543210") 6%Z "bob" ["*"];
   KeyRevoke "unknown"].

Lemma saved_keys_are_loaded_witness :
  let ks := foldl (λ ks o, key_step o ks) no_keys ex_key_ops in
  let '(e, ks1) := Save None None None ks in
  Load None (mkFileKeyStore ∅ (fk_file ks1)) = (None, ks1) ∧ size (fk_keys ks1) = 2.
Proof.
  cbv zeta. set (ks := foldl _ _ _).
  assert (E : Save None None None ks = (None, (Save None None None ks).2))
    by (vm_compute; reflexivity).
  rewrite E. split; [|vm_compute; reflexivity].
  exact (saved_keys_are_loaded ex_key_ops None None None _ E).
Defined.
End witnesses.
