(* ===== verification/Ante.v ===== *)
(** * Request validation ([internal/daemon/server/ante])

    Before a service acts, the ante handler checks the caller's access to the
    namespace, the required fields, the ranges and values of the spec, and the
    resources it refers to, in this order, and stops at the first layer that
    complains.  The records of requests have the fields of the protobuf messages;
    a message or map that may be nil is an option.  The network service is an
    interface: whether it knows a plugin. *)

From stdpp Require Import base tactics numbers list strings gmap.
From S2P Require Import Prelude Types Store Auth.

(** ** Requests *)

Record ProtoDevnetSpec := mkProtoDevnetSpec {
  pd_Plugin : string;
  pd_NetworkType : string;
  pd_Validators : Z;
  pd_FullNodes : Z;
  pd_Mode : string;
  pd_SdkVersion : string;
  pd_GenesisPath : string;
  pd_SnapshotUrl : string;
  pd_RpcUrl : string;
  pd_ForkNetwork : string;
  pd_ChainId : string
}.
#[export] Instance eta_ProtoDevnetSpec : Settable ProtoDevnetSpec := mkSettable (λ x,
  mkProtoDevnetSpec (pd_Plugin x) (pd_NetworkType x) (pd_Validators x) (pd_FullNodes x)
    (pd_Mode x) (pd_SdkVersion x) (pd_GenesisPath x) (pd_SnapshotUrl x) (pd_RpcUrl x)
    (pd_ForkNetwork x) (pd_ChainId x)).

Record ProtoBinarySource := mkProtoBinarySource {
  pb_Type : string;
  pb_Version : string;
  pb_Url : string;
  pb_Path : string
}.

Record ProtoUpgradeSpec := mkProtoUpgradeSpec {
  pu_DevnetRef : string;
  pu_UpgradeName : string;
  pu_TargetHeight : Z;
  pu_NewBinary : option ProtoBinarySource;
  pu_WithExport : bool;
  pu_AutoVote : bool
}.

Record CreateDevnetRequest := mkCreateDevnetRequest {
  cd_Name : string;
  cd_Spec : option ProtoDevnetSpec;
  cd_Labels : option (gmap string string);
  cd_Namespace : string
}.

(** [ApplyDevnetRequest] and [UpdateDevnetRequest] have the same fields. *)
Record ApplyDevnetRequest := mkApplyDevnetRequest {
  ad_Name : string;
  ad_Spec : option ProtoDevnetSpec;
  ad_Labels : option (gmap string string);
  ad_Annotations : option (gmap string string);
  ad_Namespace : string
}.
Definition UpdateDevnetRequest : Type := ApplyDevnetRequest.

Record CreateUpgradeRequest := mkCreateUpgradeRequest {
  cu_Name : string;
  cu_Spec : option ProtoUpgradeSpec;
  cu_Namespace : string
}.

(** What the requests on one node have in common; the index is an int32. *)
Record NodeRequest := mkNodeRequest {
  nr_DevnetName : string;
  nr_Index : Z;
  nr_Namespace : string
}.

(** ** Errors ([errors.go]) *)

Record ValidationError := mkValidationError {
  ve_Field : string;
  ve_Code : string;
  ve_Message : string
}.

Definition CodeRequired : string := "required".
Definition CodeInvalidRange : string := "invalid_range".
Definition CodeInvalidValue : string := "invalid_value".
Definition CodeNotFound : string := "not_found".

(** An error of a layer: a validation error, several, or a gRPC status (from
    the authorization layer). *)
Inductive ante_error :=
| AValidation (e : ValidationError)
| AMulti (errs : list ValidationError)
| AStatus (code : rpc_code) (msg : string).

Definition ValidationError_Error (e : ValidationError) : string :=
  ve_Field e +:+ ": " +:+ ve_Message e.

Definition ValidationError_GRPCCode (e : ValidationError) : rpc_code :=
  if bool_decide (ve_Code e = CodeNotFound) then NotFound else InvalidArgument.

Definition newline : string := String (Ascii.ascii_of_nat 10) EmptyString.

(** [strings.Join]. *)
Fixpoint join (sep : string) (l : list string) : string :=
  match l with
  | [] => ""
  | [s] => s
  | s :: l => s +:+ sep +:+ join sep l
  end.

Definition MultiValidationError_Error (errs : list ValidationError) : string :=
  match errs with
  | [e] => ValidationError_Error e
  | _ => "validation failed:" +:+ newline +:+
         join newline ((λ e, "  - " +:+ ValidationError_Error e) <$> errs)
  end.

(** [ToGRPCError] on an error: what is not a validation error, a status of the
    authorization layer too, becomes [InvalidArgument] with its text. *)
Definition ToGRPCError {A} (err : ante_error) : rpc A :=
  match err with
  | AValidation e => RpcErr (ValidationError_GRPCCode e) (ValidationError_Error e)
  | AMulti errs => RpcErr InvalidArgument (MultiValidationError_Error errs)
  | AStatus code msg =>
      RpcErr InvalidArgument ("rpc error: code = " +:+ code_name code +:+ " desc = " +:+ msg)
  end.

Definition toError (errs : list ValidationError) : option ante_error :=
  match errs with
  | [] => None
  | [e] => Some (AValidation e)
  | _ => Some (AMulti errs)
  end.

(** [if bad { errs = append(errs, ...) }]. *)
Definition when (bad : bool) (field code message : string) : list ValidationError :=
  if bad then [mkValidationError field code message] else [].

(** ** Authorization ([authz.go]) *)

Definition ValidateNamespaceAccess (ctx : option UserInfo) (namespace : string)
    : option ante_error :=
  let namespace := if bool_decide (namespace = "") then DefaultNamespace else namespace in
  if negb (HasNamespaceAccess ctx namespace) then
    match ctx with
    | Some userInfo => Some (AStatus PermissionDenied
        ("user " +:+ quote (ui_Name userInfo) +:+ " does not have access to namespace "
          +:+ quote namespace))
    | None => Some (AStatus PermissionDenied ("access denied to namespace " +:+ quote namespace))
    end
  else None.

(** ** Fields ([field_validator.go]) *)

Definition devnet_fields (name : string) (spec : option ProtoDevnetSpec)
    : list ValidationError :=
  when (bool_decide (name = "")) "name" CodeRequired "name is required" ++
  match spec with
  | None => when true "spec" CodeRequired "spec is required"
  | Some spec =>
      when (bool_decide (pd_Plugin spec = "")) "spec.plugin" CodeRequired "plugin is required" ++
      when (bool_decide (pd_Mode spec = "")) "spec.mode" CodeRequired "mode is required"
  end.

Definition ValidateCreateDevnetRequest (req : CreateDevnetRequest) : option ante_error :=
  toError (devnet_fields (cd_Name req) (cd_Spec req)).

Definition ValidateApplyDevnetRequest (req : ApplyDevnetRequest) : option ante_error :=
  toError (devnet_fields (ad_Name req) (ad_Spec req)).

Definition ValidateUpdateDevnetRequest (req : UpdateDevnetRequest) : option ante_error :=
  toError (when (bool_decide (ad_Name req = "")) "name" CodeRequired "name is required").

Definition ValidateCreateUpgradeRequest (req : CreateUpgradeRequest) : option ante_error :=
  toError (when (bool_decide (cu_Name req = "")) "name" CodeRequired "name is required" ++
    match cu_Spec req with
    | None => when true "spec" CodeRequired "spec is required"
    | Some spec =>
        when (bool_decide (pu_DevnetRef spec = "")) "spec.devnet_ref" CodeRequired
          "devnet_ref is required" ++
        when (bool_decide (pu_UpgradeName spec = "")) "spec.upgrade_name" CodeRequired
          "upgrade_name is required"
    end).

(** The validators of the five requests on a node are the same. *)
Definition ValidateNodeRequest (req : NodeRequest) : option ante_error :=
  toError (when (bool_decide (nr_DevnetName req = "")) "devnet_name" CodeRequired
             "devnet_name is required" ++
           when (bool_decide (nr_Index req < 0)%Z) "index" CodeInvalidRange
             "index must be non-negative").

(** ** Specs ([spec_validator.go]) *)

Definition MaxValidators : Z := 4.
Definition MaxFullNodes : Z := 10.

Definition ValidateDevnetSpec (spec : option ProtoDevnetSpec) : option ante_error :=
  match spec with
  | None => None
  | Some spec => toError
      (when (bool_decide (pd_Mode spec ≠ "") && bool_decide (pd_Mode spec ≠ "docker") &&
             bool_decide (pd_Mode spec ≠ "local"))
         "spec.mode" CodeInvalidValue "mode must be 'docker' or 'local'" ++
       when (bool_decide (MaxValidators < pd_Validators spec)%Z)
         "spec.validators" CodeInvalidRange "validators must be between 0 and 4" ++
       when (bool_decide (MaxFullNodes < pd_FullNodes spec)%Z)
         "spec.full_nodes" CodeInvalidRange "full_nodes must be between 0 and 10" ++
       when (bool_decide (pd_NetworkType spec ≠ "") && bool_decide (pd_NetworkType spec ≠ "mainnet")
             && bool_decide (pd_NetworkType spec ≠ "testnet"))
         "spec.network_type" CodeInvalidValue "network_type must be 'mainnet' or 'testnet'")
  end.

Definition ValidateUpgradeSpec (spec : option ProtoUpgradeSpec) : option ante_error :=
  match spec with
  | None => None
  | Some spec => toError
      (when (bool_decide (pu_TargetHeight spec < 0)%Z)
         "spec.target_height" CodeInvalidRange "target_height must be non-negative")
  end.

(** ** References ([reference_validator.go]) and the handler ([ante.go]) *)

Section handler.
Context {S : Type} `{Store S}.
(** [networkSvc.GetNetworkInfo]: its error on a plugin name. *)
Variable GetNetworkInfo : string → option error.
Implicit Types s : S.

Definition ValidateDevnetReferences (spec : option ProtoDevnetSpec) : option ante_error :=
  match spec with
  | None => None
  | Some spec => toError
      (if bool_decide (pd_Plugin spec ≠ "") then
         match GetNetworkInfo (pd_Plugin spec) with
         | Some _ => when true "spec.plugin" CodeNotFound
             ("network plugin '" +:+ pd_Plugin spec +:+ "' not found")
         | None => []
         end
       else [])
  end.

(** The devnet a request names, if any. *)
Definition devnet_reference (field namespace devnet : string) s : list ValidationError :=
  if bool_decide (devnet ≠ "") then
    match GetDevnet namespace devnet s with
    | Err _ => when true field CodeNotFound ("devnet '" +:+ devnet +:+ "' not found")
    | Ok _ => []
    end
  else [].

Definition ValidateUpgradeReferences (namespace : string) (spec : option ProtoUpgradeSpec) s
    : option ante_error :=
  match spec with
  | None => None
  | Some spec => toError (devnet_reference "spec.devnet_ref" namespace (pu_DevnetRef spec) s)
  end.

Definition ValidateNodeReferences (namespace devnetName : string) s : option ante_error :=
  toError (devnet_reference "devnet_name" namespace devnetName s).

(** One layer after the other, up to the first error. *)
Definition orElse (a b : option ante_error) : option ante_error :=
  match a with Some e => Some e | None => b end.

Definition ValidateCreateDevnet (ctx : option UserInfo) (req : CreateDevnetRequest)
    : option ante_error :=
  orElse (ValidateNamespaceAccess ctx (cd_Namespace req))
    (orElse (ValidateCreateDevnetRequest req)
       (orElse (ValidateDevnetSpec (cd_Spec req)) (ValidateDevnetReferences (cd_Spec req)))).

Definition ValidateApplyDevnet (ctx : option UserInfo) (req : ApplyDevnetRequest)
    : option ante_error :=
  orElse (ValidateNamespaceAccess ctx (ad_Namespace req))
    (orElse (ValidateApplyDevnetRequest req)
       (orElse (ValidateDevnetSpec (ad_Spec req)) (ValidateDevnetReferences (ad_Spec req)))).

Definition ValidateUpdateDevnet (ctx : option UserInfo) (req : UpdateDevnetRequest)
    : option ante_error :=
  orElse (ValidateNamespaceAccess ctx (ad_Namespace req))
    (orElse (ValidateUpdateDevnetRequest req) (ValidateDevnetSpec (ad_Spec req))).

Definition ValidateCreateUpgrade (ctx : option UserInfo) (req : CreateUpgradeRequest) s
    : option ante_error :=
  orElse (ValidateNamespaceAccess ctx (cu_Namespace req))
    (orElse (ValidateCreateUpgradeRequest req)
       (orElse (ValidateUpgradeSpec (cu_Spec req))
          (let namespace := if bool_decide (cu_Namespace req = "") then DefaultNamespace
                            else cu_Namespace req in
           ValidateUpgradeReferences namespace (cu_Spec req) s))).

(** [ValidateStartNode], [ValidateStopNode] and [ValidateRestartNode]. *)
Definition ValidateNodeChange (ctx : option UserInfo) (req : NodeRequest) s
    : option ante_error :=
  orElse (ValidateNamespaceAccess ctx (nr_Namespace req))
    (orElse (ValidateNodeRequest req)
       (let namespace := if bool_decide (nr_Namespace req = "") then DefaultNamespace
                         else nr_Namespace req in
        ValidateNodeReferences namespace (nr_DevnetName req) s)).

(** [ValidateGetNode] and [ValidateGetNodeHealth]. *)
Definition ValidateNodeRead (ctx : option UserInfo) (req : NodeRequest) : option ante_error :=
  orElse (ValidateNamespaceAccess ctx (nr_Namespace req)) (ValidateNodeRequest req).
End handler.

(** [if err := check; err != nil { return nil, ToGRPCError(err) }] in a service. *)
Definition validated {W A} (err : option ante_error) (k : M W (rpc A)) : M W (rpc A) :=
  match err with
  | Some e => done_with (ToGRPCError e)
  | None => k
  end.

(** ** What a request that passes satisfies *)

(** A validated request that is answered Ok passed the validation. *)
Lemma validated_ok {W A} err (k : M W (rpc A)) w r w' :
  validated err k w = (RpcOk r, w') → err = None.
Proof.
  destruct err as [e|]; [|done]. unfold validated, ToGRPCError, done_with. by destruct e.
Qed.

(** A refused one leaves everything as it is. *)
Lemma validated_refused {W A} err (k : M W (rpc A)) w :
  validated err k w = k w ∨ ∃ c m, validated err k w = (RpcErr c m, w).
Proof.
  destruct err as [e|]; [|by left]. right. unfold validated, ToGRPCError, done_with.
  destruct e; eauto.
Qed.

Lemma toError_None errs : toError errs = None ↔ errs = [].
Proof. by destruct errs as [|? []]. Qed.

Lemma when_nil bad f c m : when bad f c m = [] ↔ bad = false.
Proof. by destruct bad. Qed.

Lemma orElse_None a b : orElse a b = None ↔ a = None ∧ b = None.
Proof. destruct a; naive_solver. Qed.

Create Rewrite HintDb ante.
(** [destruct_ante] reads a passed validation layer by layer. *)
#[export] Hint Rewrite orElse_None toError_None when_nil @app_nil andb_false_iff
  bool_decide_eq_false : ante.
Ltac destruct_ante := autorewrite with ante in *.

Lemma ValidateNamespaceAccess_None ctx ns :
  ValidateNamespaceAccess ctx ns = None ↔ HasNamespaceAccess ctx (or_default ns) = true.
Proof.
  unfold ValidateNamespaceAccess.
  change (if bool_decide (ns = "") then DefaultNamespace else ns) with (or_default ns).
  destruct (HasNamespaceAccess ctx (or_default ns)); simpl; [done|]. by destruct ctx.
Qed.

(** The bounds a validated devnet spec is in. *)
Definition devnet_spec_ok (spec : ProtoDevnetSpec) : Prop :=
  (pd_Mode spec = "docker" ∨ pd_Mode spec = "local") ∧
  (pd_Validators spec ≤ 4)%Z ∧ (pd_FullNodes spec ≤ 10)%Z ∧
  (pd_NetworkType spec = "" ∨ pd_NetworkType spec = "mainnet" ∨ pd_NetworkType spec = "testnet").

(** A non-empty value outside two others is what the validators refuse. *)
Lemma not_one_of x a b :
  (¬ x ≠ "" ∨ ¬ x ≠ a) ∨ ¬ x ≠ b ↔ x = "" ∨ x = a ∨ x = b.
Proof.
  destruct (decide (x = "")), (decide (x = a)), (decide (x = b)); tauto.
Qed.

Lemma ValidateDevnetSpec_None spec :
  pd_Mode spec ≠ "" →
  ValidateDevnetSpec (Some spec) = None ↔ devnet_spec_ok spec.
Proof.
  intros Hm. unfold ValidateDevnetSpec, devnet_spec_ok, MaxValidators, MaxFullNodes.
  destruct_ante. rewrite !not_one_of, !Z.nlt_ge. tauto.
Qed.

Section passed.
Context {S : Type} `{StoreSpec S}.
Variable GetNetworkInfo : string → option error.
Implicit Types s : S.

(** A devnet is created only for a caller with access to the namespace, with a
    name, a mode of the two and a known plugin, at most 4 validators and 10 full
    nodes; every such request passes. *)
Theorem ValidateCreateDevnet_passes ctx req :
  ValidateCreateDevnet GetNetworkInfo ctx req = None ↔
    HasNamespaceAccess ctx (or_default (cd_Namespace req)) = true ∧ cd_Name req ≠ "" ∧
    ∃ spec, cd_Spec req = Some spec ∧ devnet_spec_ok spec ∧
      pd_Plugin spec ≠ "" ∧ GetNetworkInfo (pd_Plugin spec) = None.
Proof.
  unfold ValidateCreateDevnet, ValidateCreateDevnetRequest, devnet_fields.
  destruct_ante. rewrite ValidateNamespaceAccess_None.
  destruct (cd_Spec req) as [spec|]; [|naive_solver].
  unfold ValidateDevnetReferences. destruct_ante.
  split.
  - intros (Ha & (Hn & Hp & Hm) & Hs & Hr). rewrite bool_decide_true in Hr by done.
    split_and!; [done|done|]. exists spec. split; [done|].
    split; [by apply ValidateDevnetSpec_None|]. split; [done|].
    by destruct (GetNetworkInfo _).
  - intros (Ha & Hn & ? & [= <-] & Hs & Hp & Hr).
    assert (Hm : pd_Mode spec ≠ "") by (destruct Hs as [[-> | ->] _]; done).
    rewrite bool_decide_true, Hr by done. split_and!; try done.
    by apply ValidateDevnetSpec_None.
Qed.

(** Starting, stopping or restarting a node passes iff the caller has access to
    the namespace, the index is not negative and the named devnet is stored
    there. *)
Theorem ValidateNodeChange_passes ctx req s :
  store_wf s →
  ValidateNodeChange ctx req s = None ↔
    HasNamespaceAccess ctx (or_default (nr_Namespace req)) = true ∧
    nr_DevnetName req ≠ "" ∧ (0 ≤ nr_Index req)%Z ∧
    is_Some (v_devnets (store_view s) !! qualified (nr_Namespace req) (nr_DevnetName req)).
Proof.
  intros Hs. unfold ValidateNodeChange, ValidateNodeRequest, ValidateNodeReferences.
  change (if bool_decide (nr_Namespace req = "") then DefaultNamespace else nr_Namespace req)
    with (or_default (nr_Namespace req)).
  destruct_ante. rewrite ValidateNamespaceAccess_None. unfold devnet_reference.
  pose proof (GetDevnet_spec (or_default (nr_Namespace req)) (nr_DevnetName req) s Hs) as Hg.
  unfold get_spec in Hg. rewrite qualified_default in Hg. rewrite is_Some_alt.
  split.
  - intros (Ha & [Hd Hi] & Hr). rewrite bool_decide_true in Hr by done.
    split_and!; [done|done|lia|]. destruct (_ !! _); [done|].
    destruct Hg as (e & He & _). by rewrite He in Hr.
  - intros (Ha & Hd & Hi & Hr). rewrite bool_decide_true by done. split_and!; [done|done|lia|].
    destruct (_ !! _); [|done]. by rewrite Hg.
Qed.
End passed.

(** A caller without access to the namespace is refused, but with the code
    [InvalidArgument]: [ToGRPCError] does not know the status it is given. *)
Theorem denied_access_is_InvalidArgument {A} GetNetworkInfo ctx req :
  HasNamespaceAccess ctx (or_default (cd_Namespace req)) = false →
  ∃ e msg, ValidateCreateDevnet GetNetworkInfo ctx req = Some e ∧
    (∃ m, e = AStatus PermissionDenied m) ∧
    ToGRPCError (A := A) e = RpcErr InvalidArgument msg.
Proof.
  intros Ha. unfold ValidateCreateDevnet, ValidateNamespaceAccess.
  change (if bool_decide (cd_Namespace req = "") then DefaultNamespace else cd_Namespace req)
    with (or_default (cd_Namespace req)).
  rewrite Ha. simpl. destruct ctx; simpl; eauto 6.
Qed.

Definition ex_alice : UserInfo := mkUserInfo "alice" ["team-a"].
Definition ex_spec : ProtoDevnetSpec := mkProtoDevnetSpec "stable" "" 2 1 "local" "" "" "" "" "" "".

Lemma denied_access_is_InvalidArgument_witness :
  HasNamespaceAccess (Some ex_alice) (or_default "") = false ∧
  ∃ e msg, ValidateCreateDevnet (λ _, None) (Some ex_alice)
      (mkCreateDevnetRequest "a" (Some ex_spec) None "") = Some e ∧
    ToGRPCError (A := unit) e = RpcErr InvalidArgument msg.
Proof.
  assert (Ha : HasNamespaceAccess (Some ex_alice) (or_default "") = false) by reflexivity.
  split; [exact Ha|].
  destruct (denied_access_is_InvalidArgument (A := unit) (λ _, None) (Some ex_alice)
    (mkCreateDevnetRequest "a" (Some ex_spec) None "") Ha) as (e & msg & He & _ & Hc).
  exists e, msg. split; [exact He|exact Hc].
Defined.
