(* ===== verification/Convert.v ===== *)
(** * Protobuf conversion ([server/convert.go], [server/node_service.go])

    What a resource looks like to a client, and back.  A message has the fields of
    its protobuf declaration; a nested message or a timestamp may be nil. *)

From stdpp Require Import base tactics numbers list strings gmap.
From S2P Require Import Prelude Types Store Ante.

(** ** Messages *)

(** [DevnetMetadata]; [UpgradeMetadata] has no labels and no annotations. *)
Record ProtoMetadata := mkProtoMetadata {
  pm_Name : string;
  pm_Namespace : string;
  pm_Generation : Z;
  pm_CreatedAt : option Time;
  pm_UpdatedAt : option Time;
  pm_Labels : gmap string string;
  pm_Annotations : gmap string string
}.

Record ProtoUpgradeMetadata := mkProtoUpgradeMetadata {
  pum_Name : string;
  pum_Namespace : string;
  pum_Generation : Z;
  pum_CreatedAt : option Time;
  pum_UpdatedAt : option Time
}.

Record ProtoCondition := mkProtoCondition {
  pc_Type : string;
  pc_Status : string;
  pc_LastTransitionTime : option Time;
  pc_Reason : string;
  pc_Message : string
}.

Record ProtoEvent := mkProtoEvent {
  pe_Timestamp : option Time;
  pe_Type : string;
  pe_Reason : string;
  pe_Message : string;
  pe_Component : string
}.

Record ProtoDevnetStatus := mkProtoDevnetStatus {
  ps_Phase : string;
  ps_Nodes : Z;
  ps_ReadyNodes : Z;
  ps_CurrentHeight : Z;
  ps_SdkVersion : string;
  ps_LastHealthCheck : option Time;
  ps_Message : string;
  ps_Conditions : list ProtoCondition;
  ps_Events : list ProtoEvent;
  ps_Subnet : Z
}.

Record ProtoDevnet := mkProtoDevnet {
  pd_Metadata : option ProtoMetadata;
  pd_Spec : option ProtoDevnetSpec;
  pd_Status : option ProtoDevnetStatus
}.

Record ProtoUpgradeStatus := mkProtoUpgradeStatus {
  pus_Phase : string;
  pus_ProposalId : Z;
  pus_VotesReceived : Z;
  pus_VotesRequired : Z;
  pus_CurrentHeight : Z;
  pus_PreExportPath : string;
  pus_PostExportPath : string;
  pus_Message : string;
  pus_Error : string
}.

Record ProtoUpgrade := mkProtoUpgrade {
  pup_Metadata : option ProtoUpgradeMetadata;
  pup_Spec : option ProtoUpgradeSpec;
  pup_Status : option ProtoUpgradeStatus
}.

Record ProtoNodeMetadata := mkProtoNodeMetadata {
  pnm_Id : string;
  pnm_DevnetName : string;
  pnm_Index : Z;
  pnm_Generation : Z;
  pnm_CreatedAt : option Time;
  pnm_UpdatedAt : option Time;
  pnm_Namespace : string
}.

(** The fields of [NodeSpec] and [NodeStatus] the conversion writes; it leaves
    the others ([restart_policy], [container_id], [health],
    [observed_generation]) at their zero values. *)
Record ProtoNodeSpec := mkProtoNodeSpec {
  pns_Role : string;
  pns_BinaryPath : string;
  pns_HomeDir : string;
  pns_DesiredPhase : string;
  pns_Address : string
}.

Record ProtoNodeStatus := mkProtoNodeStatus {
  pnt_Phase : string;
  pnt_Pid : Z;
  pnt_BlockHeight : Z;
  pnt_PeerCount : Z;
  pnt_CatchingUp : bool;
  pnt_RestartCount : Z;
  pnt_Message : string
}.

Record ProtoNode := mkProtoNode {
  pn_Metadata : option ProtoNodeMetadata;
  pn_Spec : option ProtoNodeSpec;
  pn_Status : option ProtoNodeStatus
}.

(** ** Zero values *)

(** A Go map that may be nil, read. *)
Definition map_of (m : option (gmap string string)) : gmap string string := default ∅ m.

Definition zero_meta : ResourceMeta := mkResourceMeta "" "" 0 0 0 ∅ ∅.
Definition zero_binary : BinarySource := mkBinarySource "" "" "" "" "" "".
Definition zero_devnet_spec : DevnetSpec :=
  mkDevnetSpec "" "" 0 0 "" zero_binary "" "" "" "" "" (mkPortConfig 0 0 0 0)
    (mkResourceLimits "" "") ∅.
Definition zero_devnet_status : DevnetStatus := mkDevnetStatus "" 0 0 0 0 "" [] 0 [] [] "".
Definition zero_upgrade_spec : UpgradeSpec := mkUpgradeSpec "" "" "" 0 zero_binary false false.
Definition zero_upgrade_status : UpgradeStatus := mkUpgradeStatus "" 0 0 0 0 "" "" "" "".
Definition zero_node_spec : NodeSpec := mkNodeSpec "" "" 0 "" "" "" "" "" "" "".
Definition zero_node_status : NodeStatus := mkNodeStatus "" 0 0 0 false 0 "" "" "" 0 0 0 0.

(** ** Devnets *)

Definition metadataToProto (m : ResourceMeta) : ProtoMetadata :=
  mkProtoMetadata (m_Name m) (m_Namespace m) (m_Generation m) (Some (m_CreatedAt m))
    (Some (m_UpdatedAt m)) (m_Labels m) (m_Annotations m).

Definition metadataFromProto (pb : option ProtoMetadata) : ResourceMeta :=
  match pb with
  | None => zero_meta
  | Some pb => mkResourceMeta (pm_Name pb) (pm_Namespace pb) (pm_Generation pb)
      (default 0%Z (pm_CreatedAt pb)) (default 0%Z (pm_UpdatedAt pb))
      (pm_Labels pb) (pm_Annotations pb)
  end.

Definition specToProto (s : DevnetSpec) : ProtoDevnetSpec :=
  mkProtoDevnetSpec (ds_Plugin s) (ds_NetworkType s) (wrap32 (ds_Validators s))
    (wrap32 (ds_FullNodes s)) (ds_Mode s) (bs_Version (ds_BinarySource s)) (ds_GenesisPath s)
    (ds_SnapshotURL s) (ds_RPCURL s) (ds_ForkNetwork s) (ds_ChainID s).

Definition specFromProto (pb : option ProtoDevnetSpec) : DevnetSpec :=
  match pb with
  | None => zero_devnet_spec
  | Some pb =>
      zero_devnet_spec <| ds_Plugin := pd_Plugin pb |>
        <| ds_NetworkType := pd_NetworkType pb |>
        <| ds_Validators := pd_Validators pb |>
        <| ds_FullNodes := pd_FullNodes pb |>
        <| ds_Mode := pd_Mode pb |>
        <| ds_GenesisPath := pd_GenesisPath pb |>
        <| ds_SnapshotURL := pd_SnapshotUrl pb |>
        <| ds_RPCURL := pd_RpcUrl pb |>
        <| ds_ForkNetwork := pd_ForkNetwork pb |>
        <| ds_ChainID := pd_ChainId pb |>
        <| ds_BinarySource := zero_binary <| bs_Version := pd_SdkVersion pb |> |>
  end.

Definition statusToProto (s : DevnetStatus) : ProtoDevnetStatus :=
  mkProtoDevnetStatus (dst_Phase s) (wrap32 (dst_Nodes s)) (wrap32 (dst_ReadyNodes s))
    (dst_CurrentHeight s) (dst_SDKVersion s) (Some (dst_LastHealthCheck s)) (dst_Message s)
    ((λ c, mkProtoCondition (c_Type c) (c_Status c) (Some (c_LastTransitionTime c))
             (c_Reason c) (c_Message c)) <$> dst_Conditions s)
    ((λ e, mkProtoEvent (Some (e_Timestamp e)) (e_Type e) (e_Reason e) (e_Message e)
             (e_Component e)) <$> dst_Events s)
    (dst_Subnet s).

Definition statusFromProto (pb : option ProtoDevnetStatus) : DevnetStatus :=
  match pb with
  | None => zero_devnet_status
  | Some pb =>
      zero_devnet_status <| dst_Phase := ps_Phase pb |>
        <| dst_Subnet := unsigned 8 (ps_Subnet pb) |>
        <| dst_Nodes := ps_Nodes pb |>
        <| dst_ReadyNodes := ps_ReadyNodes pb |>
        <| dst_CurrentHeight := ps_CurrentHeight pb |>
        <| dst_SDKVersion := ps_SdkVersion pb |>
        <| dst_Message := ps_Message pb |>
        <| dst_Conditions := (λ c, mkCondition (pc_Type c) (pc_Status c)
             (default 0%Z (pc_LastTransitionTime c)) (pc_Reason c) (pc_Message c))
             <$> ps_Conditions pb |>
        <| dst_Events := (λ e, mkEvent (default 0%Z (pe_Timestamp e)) (pe_Type e) (pe_Reason e)
             (pe_Message e) (pe_Component e)) <$> ps_Events pb |>
        <| dst_LastHealthCheck := default 0%Z (ps_LastHealthCheck pb) |>
  end.

Definition DevnetToProto (d : Devnet) : ProtoDevnet :=
  mkProtoDevnet (Some (metadataToProto (d_Metadata d))) (Some (specToProto (d_Spec d)))
    (Some (statusToProto (d_Status d))).

Definition DevnetFromProto (pb : ProtoDevnet) : Devnet :=
  mkDevnet (metadataFromProto (pd_Metadata pb)) (specFromProto (pd_Spec pb))
    (statusFromProto (pd_Status pb)).

(** [devnet.Spec = specFromProto(req.Spec)] if there is one. *)
Definition spec_of_request (spec : option ProtoDevnetSpec) : DevnetSpec :=
  match spec with
  | Some _ => specFromProto spec
  | None => zero_devnet_spec
  end.

Definition CreateRequestToDevnet (now : Time) (req : CreateDevnetRequest) : Devnet :=
  let namespace := if bool_decide (cd_Namespace req = "") then DefaultNamespace
                   else cd_Namespace req in
  mkDevnet (mkResourceMeta (cd_Name req) namespace 1 now now (map_of (cd_Labels req)) ∅)
    (spec_of_request (cd_Spec req)) (zero_devnet_status <| dst_Phase := PhasePending |>).

(** The namespace of the request is not copied. *)
Definition ApplyRequestToDevnet (now : Time) (req : ApplyDevnetRequest) : Devnet :=
  mkDevnet (mkResourceMeta (ad_Name req) "" 1 now now (map_of (ad_Labels req))
              (map_of (ad_Annotations req)))
    (spec_of_request (ad_Spec req)) (zero_devnet_status <| dst_Phase := PhasePending |>).

Definition specsEqual (a : DevnetSpec) (b : option ProtoDevnetSpec) : bool :=
  match b with
  | None => false
  | Some b =>
      bool_decide (ds_Plugin a = pd_Plugin b) &&
      bool_decide (ds_NetworkType a = pd_NetworkType b) &&
      bool_decide (ds_Validators a = pd_Validators b) &&
      bool_decide (ds_FullNodes a = pd_FullNodes b) &&
      bool_decide (ds_Mode a = pd_Mode b) &&
      bool_decide (bs_Version (ds_BinarySource a) = pd_SdkVersion b) &&
      bool_decide (ds_GenesisPath a = pd_GenesisPath b) &&
      bool_decide (ds_SnapshotURL a = pd_SnapshotUrl b) &&
      bool_decide (ds_RPCURL a = pd_RpcUrl b) &&
      bool_decide (ds_ForkNetwork a = pd_ForkNetwork b) &&
      bool_decide (ds_ChainID a = pd_ChainId b)
  end.

(** [b[k]] of a missing key is the empty string. *)
Definition labelsEqual `{MapRange} (a b : gmap string string) : bool :=
  if bool_decide (size a ≠ size b) then false
  else forallb (λ '(k, v), negb (bool_decide (default "" (b !! k) ≠ v))) (range a).

(** ** Upgrades *)

Definition binarySourceToProto (b : BinarySource) : ProtoBinarySource :=
  mkProtoBinarySource (bs_Type b) (bs_Version b) (bs_URL b) (bs_Path b).

Definition binarySourceFromProto (pb : option ProtoBinarySource) : BinarySource :=
  match pb with
  | None => zero_binary
  | Some pb => zero_binary <| bs_Type := pb_Type pb |> <| bs_Version := pb_Version pb |>
                 <| bs_URL := pb_Url pb |> <| bs_Path := pb_Path pb |>
  end.

Definition upgradeMetadataToProto (m : ResourceMeta) : ProtoUpgradeMetadata :=
  mkProtoUpgradeMetadata (m_Name m) (m_Namespace m) (m_Generation m) (Some (m_CreatedAt m))
    (Some (m_UpdatedAt m)).

Definition upgradeMetadataFromProto (pb : option ProtoUpgradeMetadata) : ResourceMeta :=
  match pb with
  | None => zero_meta
  | Some pb => mkResourceMeta (pum_Name pb) (pum_Namespace pb) (pum_Generation pb)
      (default 0%Z (pum_CreatedAt pb)) (default 0%Z (pum_UpdatedAt pb)) ∅ ∅
  end.

Definition upgradeSpecToProto (s : UpgradeSpec) : ProtoUpgradeSpec :=
  mkProtoUpgradeSpec (us_DevnetRef s) (us_UpgradeName s) (us_TargetHeight s)
    (Some (binarySourceToProto (us_NewBinary s))) (us_WithExport s) (us_AutoVote s).

Definition upgradeSpecFromProto (pb : option ProtoUpgradeSpec) : UpgradeSpec :=
  match pb with
  | None => zero_upgrade_spec
  | Some pb => mkUpgradeSpec (pu_DevnetRef pb) "" (pu_UpgradeName pb) (pu_TargetHeight pb)
      (binarySourceFromProto (pu_NewBinary pb)) (pu_WithExport pb) (pu_AutoVote pb)
  end.

Definition upgradeStatusToProto (s : UpgradeStatus) : ProtoUpgradeStatus :=
  mkProtoUpgradeStatus (ust_Phase s) (ust_ProposalID s) (wrap32 (ust_VotesReceived s))
    (wrap32 (ust_VotesRequired s)) (ust_CurrentHeight s) (ust_PreExportPath s)
    (ust_PostExportPath s) (ust_Message s) (ust_Error s).

Definition upgradeStatusFromProto (pb : option ProtoUpgradeStatus) : UpgradeStatus :=
  match pb with
  | None => zero_upgrade_status
  | Some pb => mkUpgradeStatus (pus_Phase pb) (pus_ProposalId pb) (pus_VotesReceived pb)
      (pus_VotesRequired pb) (pus_CurrentHeight pb) (pus_PreExportPath pb)
      (pus_PostExportPath pb) (pus_Message pb) (pus_Error pb)
  end.

Definition UpgradeToProto (u : Upgrade) : ProtoUpgrade :=
  mkProtoUpgrade (Some (upgradeMetadataToProto (u_Metadata u)))
    (Some (upgradeSpecToProto (u_Spec u))) (Some (upgradeStatusToProto (u_Status u))).

Definition UpgradeFromProto (pb : ProtoUpgrade) : Upgrade :=
  mkUpgrade (upgradeMetadataFromProto (pup_Metadata pb)) (upgradeSpecFromProto (pup_Spec pb))
    (upgradeStatusFromProto (pup_Status pb)).

Definition CreateUpgradeRequestToUpgrade (now : Time) (req : CreateUpgradeRequest) : Upgrade :=
  let namespace := if bool_decide (cu_Namespace req = "") then DefaultNamespace
                   else cu_Namespace req in
  mkUpgrade (mkResourceMeta (cu_Name req) namespace 1 now now ∅ ∅)
    (match cu_Spec req with
     | Some _ => upgradeSpecFromProto (cu_Spec req)
     | None => zero_upgrade_spec
     end)
    (zero_upgrade_status <| ust_Phase := UpgradePhasePending |>).

(** ** Nodes *)

Definition NodeToProto (n : Node) : ProtoNode :=
  let m := n_Metadata n in let sp := n_Spec n in let st := n_Status n in
  mkProtoNode
    (Some (mkProtoNodeMetadata (m_Name m) (ns_DevnetRef sp) (wrap32 (ns_Index sp))
             (m_Generation m) (Some (m_CreatedAt m)) (Some (m_UpdatedAt m)) (m_Namespace m)))
    (Some (mkProtoNodeSpec (ns_Role sp) (ns_BinaryPath sp) (ns_HomeDir sp) (ns_Desired sp)
             (ns_Address sp)))
    (Some (mkProtoNodeStatus (nst_Phase st) (wrap32 (nst_PID st)) (nst_BlockHeight st)
             (wrap32 (nst_PeerCount st)) (nst_CatchingUp st) (wrap32 (nst_RestartCount st))
             (nst_Message st))).

(** The three optional parts fill in a zero node. *)
Definition NodeFromProto (pb : ProtoNode) : Node :=
  let n := mkNode zero_meta zero_node_spec zero_node_status in
  let n := match pn_Metadata pb with
    | None => n
    | Some m => n
        <| n_Metadata := mkResourceMeta (pnm_Id m) (pnm_Namespace m) (pnm_Generation m)
             (default 0%Z (pnm_CreatedAt m)) (default 0%Z (pnm_UpdatedAt m)) ∅ ∅ |>
        <| n_Spec; ns_DevnetRef := pnm_DevnetName m |>
        <| n_Spec; ns_Index := pnm_Index m |>
    end in
  let n := match pn_Spec pb with
    | None => n
    | Some s => n <| n_Spec; ns_Role := pns_Role s |>
        <| n_Spec; ns_BinaryPath := pns_BinaryPath s |>
        <| n_Spec; ns_HomeDir := pns_HomeDir s |>
        <| n_Spec; ns_Desired := pns_DesiredPhase s |>
        <| n_Spec; ns_Address := pns_Address s |>
    end in
  match pn_Status pb with
  | None => n
  | Some s => n <| n_Status; nst_Phase := pnt_Phase s |>
      <| n_Status; nst_PID := pnt_Pid s |>
      <| n_Status; nst_BlockHeight := pnt_BlockHeight s |>
      <| n_Status; nst_PeerCount := pnt_PeerCount s |>
      <| n_Status; nst_CatchingUp := pnt_CatchingUp s |>
      <| n_Status; nst_RestartCount := pnt_RestartCount s |>
      <| n_Status; nst_Message := pnt_Message s |>
  end.

(** ** Round trips *)

(** What of a resource survives the wire. *)
Definition carried_spec (s : DevnetSpec) : DevnetSpec :=
  s <| ds_BinarySource := zero_binary <| bs_Version := bs_Version (ds_BinarySource s) |> |>
    <| ds_Ports := mkPortConfig 0 0 0 0 |> <| ds_Resources := mkResourceLimits "" "" |>
    <| ds_Options := ∅ |>.
Definition carried_devnet (d : Devnet) : Devnet :=
  d <| d_Spec := carried_spec (d_Spec d) |> <| d_Status; dst_SDKVersionHistory := [] |>.
Definition carried_upgrade (u : Upgrade) : Upgrade :=
  u <| u_Metadata; m_Labels := ∅ |> <| u_Metadata; m_Annotations := ∅ |>
    <| u_Spec; us_NamespaceRef := "" |>
    <| u_Spec := u_Spec u <| us_NamespaceRef := "" |>
         <| us_NewBinary := us_NewBinary (u_Spec u) <| bs_Owner := "" |> <| bs_Repo := "" |> |> |>.
Definition carried_node (n : Node) : Node :=
  n <| n_Metadata; m_Labels := ∅ |> <| n_Metadata; m_Annotations := ∅ |>
    <| n_Spec; ns_NamespaceRef := "" |> <| n_Spec; ns_ChainID := "" |>
    <| n_Spec; ns_Network := "" |>
    <| n_Status; nst_ValidatorAddress := "" |> <| n_Status; nst_ValidatorPubKey := "" |>
    <| n_Status; nst_LastHealthCheck := 0%Z |> <| n_Status; nst_LastBlockTime := 0%Z |>
    <| n_Status; nst_ConsecutiveFailures := 0%Z |> <| n_Status; nst_NextRestartTime := 0%Z |>.

(** The numbers that are narrowed. *)
Definition devnet_fits (d : Devnet) : Prop :=
  int32_range (ds_Validators (d_Spec d)) ∧ int32_range (ds_FullNodes (d_Spec d)) ∧
  int32_range (dst_Nodes (d_Status d)) ∧ int32_range (dst_ReadyNodes (d_Status d)) ∧
  (0 ≤ dst_Subnet (d_Status d) < 2^8)%Z.

Lemma carried_spec_fixed s :
  int32_range (ds_Validators s) → int32_range (ds_FullNodes s) →
  specFromProto (Some (specToProto s)) = carried_spec s.
Proof.
  intros Hv Hf. unfold specToProto, specFromProto, carried_spec.
  rewrite !wrap32_id by done. by destruct s as [????? []].
Qed.

(** A devnet that goes to a client and back keeps its metadata, its status but
    the version history, and of its spec all but the binary source (of which the
    version stays), ports, resources and options. *)
Theorem devnet_proto_roundtrip d :
  devnet_fits d → DevnetFromProto (DevnetToProto d) = carried_devnet d.
Proof.
  intros (Hv & Hf & Hn & Hr & Hs). unfold DevnetFromProto, DevnetToProto.
  cbn [pd_Metadata pd_Spec pd_Status]. rewrite carried_spec_fixed by done.
  unfold statusToProto, statusFromProto, carried_devnet.
  cbn. rewrite !wrap32_id, unsigned_id by done.
  rewrite <- !list_fmap_compose.
  rewrite (list_fmap_ext _ id (dst_Conditions (d_Status d))) by (by intros ? [] ?).
  rewrite (list_fmap_ext _ id (dst_Events (d_Status d))) by (by intros ? [] ?).
  rewrite !list_fmap_id. by destruct d as [[] ? []].
Qed.

Theorem upgrade_proto_roundtrip u :
  int32_range (ust_VotesReceived (u_Status u)) → int32_range (ust_VotesRequired (u_Status u)) →
  UpgradeFromProto (UpgradeToProto u) = carried_upgrade u.
Proof.
  intros Hv Hr. destruct u as [[] [????[] ??] []]. unfold UpgradeFromProto, UpgradeToProto.
  simpl in *. unfold upgradeStatusToProto. simpl. by rewrite !wrap32_id.
Qed.

Theorem node_proto_roundtrip n :
  int32_range (ns_Index (n_Spec n)) → int32_range (nst_PID (n_Status n)) →
  int32_range (nst_PeerCount (n_Status n)) → int32_range (nst_RestartCount (n_Status n)) →
  NodeFromProto (NodeToProto n) = carried_node n.
Proof.
  intros Hi Hp Hc Hr. destruct n as [[] [] []]. unfold NodeFromProto, NodeToProto.
  cbn in *. by rewrite !wrap32_id.
Qed.

(** ** Comparisons *)

(** [specsEqual] compares the specs as the wire carries them. *)
Theorem specsEqual_iff a b :
  specsEqual a (Some b) = true ↔ specFromProto (Some b) = carried_spec a.
Proof.
  unfold specsEqual. rewrite !andb_true_iff, !bool_decide_eq_true.
  destruct a as [????? []], b; unfold specFromProto, carried_spec; cbn. split.
  - intros H. by destruct_and? H; subst.
  - intros [=]. by subst.
Qed.

(** [labelsEqual] on maps without empty values is equality ... *)
Theorem labelsEqual_iff `{MapRange} (a b : gmap string string) :
  map_Forall (λ _ v, v ≠ "") a →
  labelsEqual a b = true ↔ a = b.
Proof.
  intros Ha. unfold labelsEqual. split; [|intros ->].
  - case_bool_decide as Hs; [done|]. intros Hall. rewrite forallb_forall in Hall.
    assert (Hsub : a ⊆ b).
    { apply map_subseteq_spec. intros k v Hk.
      specialize (Hall (k, v)). simpl in Hall.
      ospecialize* Hall; [by apply list_elem_of_In, elem_of_range|].
      apply negb_true_iff, bool_decide_eq_false in Hall.
      destruct (b !! k) as [v'|] eqn:Hb; simpl in Hall.
      - f_equal. by apply dec_stable.
      - destruct (Ha k v Hk). symmetry. by apply dec_stable. }
    apply map_subseteq_size_eq; [done|]. lia.
  - rewrite bool_decide_false by (intros Hn; by apply Hn).
    apply forallb_forall. intros [k v] Hin%list_elem_of_In%elem_of_range.
    rewrite Hin. simpl. by rewrite bool_decide_false by (intros Hn; by apply Hn).
Qed.

(** ... but an empty value counts as a missing key: two different label maps
    compare equal, and an apply that should change them reports no change. *)
Theorem labelsEqual_takes_empty_for_missing `{MapRange} k k' v :
  k ≠ k' → labelsEqual {[k := ""]} {[k' := v]} = true ∧
  ({[k := ""]} : gmap string string) ≠ {[k' := v]}.
Proof.
  intros Hne. split.
  - unfold labelsEqual. rewrite !map_size_singleton. rewrite bool_decide_false by (intros Hn; by apply Hn).
    apply forallb_forall. intros [k2 v2] Hin%list_elem_of_In%elem_of_range.
    apply lookup_singleton_Some in Hin as [<- <-].
    rewrite lookup_singleton_ne by done. done.
  - intros E. apply (f_equal (.!! k)) in E.
    rewrite lookup_singleton_eq, lookup_singleton_ne in E by done. done.
Qed.

(** ** Concrete conversions *)

Definition ex_meta (ns name : string) : ResourceMeta := mkResourceMeta name ns 1 5 6 ∅ ∅.
Definition ex_wire_devnet : Devnet :=
  mkDevnet (ex_meta "team-a" "net")
    (specFromProto (Some ex_spec) <| ds_Options := {["k" := "v"]} |>)
    (zero_devnet_status <| dst_Phase := PhaseRunning |> <| dst_Subnet := 17%Z |>
       <| dst_Conditions := [mkCondition ConditionTypeReady ConditionTrue 7%Z "r" "m"] |>).
Definition ex_wire_upgrade : Upgrade :=
  mkUpgrade (ex_meta "team-a" "up") (zero_upgrade_spec <| us_DevnetRef := "net" |>)
    (zero_upgrade_status <| ust_VotesReceived := 3%Z |>).
Definition ex_wire_node : Node :=
  mkNode (ex_meta "team-a" "net-node-1") (zero_node_spec <| ns_Index := 1%Z |>)
    (zero_node_status <| nst_PID := 4242%Z |>).

Lemma devnet_proto_roundtrip_witness :
  DevnetFromProto (DevnetToProto ex_wire_devnet) = carried_devnet ex_wire_devnet ∧
  carried_devnet ex_wire_devnet ≠ ex_wire_devnet.
Proof.
  split; [|discriminate]. apply devnet_proto_roundtrip.
  repeat split; vm_compute; congruence.
Defined.

Lemma upgrade_proto_roundtrip_witness :
  UpgradeFromProto (UpgradeToProto ex_wire_upgrade) = ex_wire_upgrade.
Proof. apply (upgrade_proto_roundtrip ex_wire_upgrade); split; vm_compute; congruence. Defined.

Lemma node_proto_roundtrip_witness :
  NodeFromProto (NodeToProto ex_wire_node) = ex_wire_node.
Proof. apply (node_proto_roundtrip ex_wire_node); split; vm_compute; congruence. Defined.

Lemma labelsEqual_iff_witness :
  let order := some_order in
  labelsEqual {["tier" := "gold"]} {["tier" := "silver"]} = false.
Proof.
  intros order. apply not_true_iff_false. intros Hl.
  apply labelsEqual_iff in Hl; [discriminate|]. apply map_Forall_singleton. discriminate.
Defined.

Lemma labelsEqual_takes_empty_for_missing_witness :
  let order := some_order in
  labelsEqual {["a" := ""]} {["b" := "x"]} = true.
Proof.
  intros order.
  apply (labelsEqual_takes_empty_for_missing "a" "b" "x"). discriminate.
Defined.
