(* ===== verification/ProvisionLogs.v ===== *)
(** * Provision log subscriptions ([internal/daemon/controller/provision_logs.go])

    The [logSubscribers] of the devnet controller: channels with a buffer of 100
    entries, by devnet.  A channel is an address in [lg_chans]; the map of
    subscribers lists addresses, as the code compares channels by identity.  A
    call is one step: the race between the two [select] statements of
    [broadcastLog] and a concurrent unsubscription, and the readers that drain a
    buffer, are not modelled. *)

From Stdlib Require Import SpecFloat.
From stdpp Require Import base tactics numbers list strings gmap.
From S2P Require Import Prelude Types Store.

Record ProvisionLogEntry := mkProvisionLogEntry {
  le_Timestamp : Time;
  le_Level : string;
  le_Message : string;
  le_Phase : string;
  le_StepName : string;
  le_StepStatus : string;
  le_ProgressCurrent : Z;
  le_ProgressTotal : Z;
  le_ProgressUnit : string;
  le_StepDetail : string;
  le_Speed : spec_float
}.

Definition logSubscriberBufferSize : nat := 100.

(** [logSubscriber]: the entries in the channel's buffer, and whether [done] is
    closed. *)
Record logSubscriber := mkLogSubscriber {
  ls_ch : list ProvisionLogEntry;
  ls_done : bool
}.
#[export] Instance eta_logSubscriber : Settable logSubscriber := mkSettable (λ x,
  mkLogSubscriber (ls_ch x) (ls_done x)).

(** The subscribers of each devnet, and the channels made so far. *)
Record LogState := mkLogState {
  lg_subs : gmap string (list nat);
  lg_chans : gmap nat logSubscriber;
  lg_next : nat
}.
#[export] Instance eta_LogState : Settable LogState := mkSettable (λ x,
  mkLogState (lg_subs x) (lg_chans x) (lg_next x)).

Definition NoLogs : LogState := mkLogState ∅ ∅ 0.

Definition logSubscriberKey (namespace name : string) : string :=
  let namespace := if bool_decide (namespace = "") then DefaultNamespace else namespace in
  namespace +:+ "/" +:+ name.

Definition subscribers (key : string) (s : LogState) : list nat := default [] (lg_subs s !! key).

Definition SubscribeProvisionLogs (namespace name : string) (s : LogState) : nat * LogState :=
  let key := logSubscriberKey namespace name in
  let sub := lg_next s in
  (sub, mkLogState (<[key := subscribers key s ++ [sub]]> (lg_subs s))
          (<[sub := mkLogSubscriber [] false]> (lg_chans s)) (S sub)).

(** The first subscriber whose channel is [ch] is removed, and its [done]
    closed. *)
Fixpoint remove_first (ch : nat) (subs : list nat) : option (list nat) :=
  match subs with
  | [] => None
  | sub :: subs =>
      if bool_decide (sub = ch) then Some subs
      else (λ l, sub :: l) <$> remove_first ch subs
  end.

Definition UnsubscribeProvisionLogs (namespace name : string) (ch : nat) (s : LogState)
    : LogState :=
  let key := logSubscriberKey namespace name in
  match remove_first ch (subscribers key s) with
  | None => s
  | Some l => s <| lg_subs := <[key := l]> (lg_subs s) |>
                <| lg_chans := alter (λ sub, sub <| ls_done := true |>) ch (lg_chans s) |>
  end.

(** One turn of the loop of [broadcastLog]: nothing for a subscriber that is
    done, and a dropped entry when the buffer is full. *)
Definition send (entry : ProvisionLogEntry) (sub : logSubscriber) : logSubscriber :=
  if ls_done sub then sub
  else if bool_decide (length (ls_ch sub) < logSubscriberBufferSize)
  then sub <| ls_ch := ls_ch sub ++ [entry] |>
  else sub.

Definition broadcastLog (namespace name : string) (entry : ProvisionLogEntry) (s : LogState)
    : LogState :=
  let key := logSubscriberKey namespace name in
  s <| lg_chans := foldl (λ chans sub, alter (send entry) sub chans) (lg_chans s)
                     (subscribers key s) |>.

Definition BroadcastProvisionLog (namespace name : string) (entry : ProvisionLogEntry)
    (s : LogState) : LogState := broadcastLog namespace name entry s.

(** ** Invariant *)

(** Subscribers are channels that exist and are not done, each subscribed
    once. *)
Definition log_wf (s : LogState) : Prop :=
  (∀ k, NoDup (subscribers k s)) ∧
  (∀ k1 k2 ch, ch ∈ subscribers k1 s → ch ∈ subscribers k2 s → k1 = k2) ∧
  (∀ k ch, ch ∈ subscribers k s → ch < lg_next s) ∧
  (∀ ch, lg_next s ≤ ch → lg_chans s !! ch = None).

Lemma subscribers_insert k k' l s (chans : gmap nat logSubscriber) n :
  subscribers k (mkLogState (<[k' := l]> (lg_subs s)) chans n) =
    if decide (k = k') then l else subscribers k s.
Proof.
  unfold subscribers. simpl. rewrite lookup_insert. by repeat case_decide.
Qed.

Lemma remove_first_spec ch l l' :
  NoDup l → remove_first ch l = Some l' →
  NoDup l' ∧ ch ∈ l ∧ ∀ x, x ∈ l' ↔ x ∈ l ∧ x ≠ ch.
Proof.
  revert l'; induction l as [|y l IH]; intros l' Hn; simpl; [done|].
  apply NoDup_cons in Hn as [Hy Hn]. case_bool_decide as Hc.
  - intros [= <-]. subst y. split; [done|]. set_solver.
  - destruct (remove_first ch l) as [l1|] eqn:Hr; [|done]. simpl. intros [= <-].
    destruct (IH l1 Hn eq_refl) as (Hn1 & Hin & Hx).
    split; [|split; [set_solver|]].
    + apply NoDup_cons. split; [|done]. rewrite Hx. naive_solver.
    + intros x. rewrite !elem_of_cons, Hx. naive_solver.
Qed.

Lemma remove_first_none ch l : remove_first ch l = None → ch ∉ l.
Proof.
  induction l as [|y l IH]; simpl; [set_solver|]. case_bool_decide; [done|].
  destruct (remove_first ch l); [done|]. specialize (IH eq_refl). set_solver.
Qed.

(** The channels after a broadcast. *)
Lemma send_all entry l (chans : gmap nat logSubscriber) ch :
  NoDup l →
  foldl (λ chans sub, alter (send entry) sub chans) chans l !! ch =
    if decide (ch ∈ l) then send entry <$> chans !! ch else chans !! ch.
Proof.
  revert chans; induction l as [|x l IH]; intros chans Hn; simpl; [done|].
  apply NoDup_cons in Hn as [Hx Hn]. rewrite IH by done.
  destruct (decide (ch = x)) as [->|Hne].
  - rewrite decide_False by done. rewrite lookup_alter_eq. by rewrite decide_True by set_solver.
  - rewrite lookup_alter_ne by done.
    destruct (decide (ch ∈ l)); [rewrite decide_True by set_solver|rewrite decide_False by set_solver]; done.
Qed.

(** ** Runs *)

Inductive log_op :=
| OpSubscribe (namespace name : string)
| OpUnsubscribe (namespace name : string) (ch : nat)
| OpBroadcast (namespace name : string) (entry : ProvisionLogEntry).

Definition log_step (op : log_op) (s : LogState) : LogState :=
  match op with
  | OpSubscribe namespace name => (SubscribeProvisionLogs namespace name s).2
  | OpUnsubscribe namespace name ch => UnsubscribeProvisionLogs namespace name ch s
  | OpBroadcast namespace name entry => BroadcastProvisionLog namespace name entry s
  end.

Fixpoint log_run (ops : list log_op) (s : LogState) : LogState :=
  match ops with
  | [] => s
  | op :: ops => log_run ops (log_step op s)
  end.

(** The entries broadcast for [key] until [ch] is unsubscribed from it. *)
Fixpoint delivered (key : string) (ch : nat) (ops : list log_op) : list ProvisionLogEntry :=
  match ops with
  | [] => []
  | OpUnsubscribe namespace name ch' :: ops =>
      if bool_decide (logSubscriberKey namespace name = key) && bool_decide (ch' = ch)
      then [] else delivered key ch ops
  | OpBroadcast namespace name entry :: ops =>
      if bool_decide (logSubscriberKey namespace name = key)
      then entry :: delivered key ch ops else delivered key ch ops
  | OpSubscribe _ _ :: ops => delivered key ch ops
  end.

Lemma log_wf_new : log_wf NoLogs.
Proof.
  assert (Hs : ∀ k, subscribers k NoLogs = []) by (intros k; unfold subscribers; simpl; by rewrite lookup_empty).
  split_and!; intros *; rewrite ?Hs, ?elem_of_nil; try done. constructor.
Qed.

Lemma log_wf_step op s : log_wf s → log_wf (log_step op s).
Proof.
  intros (Hn & Hd & Hl & Hc). destruct op as [ns n|ns n ch|ns n e]; simpl.
  - unfold SubscribeProvisionLogs. simpl. set (key := logSubscriberKey ns n).
    assert (Hs : ∀ k ch, ch ∈ subscribers k (mkLogState
      (<[key := subscribers key s ++ [lg_next s]]> (lg_subs s))
      (<[lg_next s := mkLogSubscriber [] false]> (lg_chans s)) (S (lg_next s))) →
      ch ∈ subscribers k s ∨ (k = key ∧ ch = lg_next s)).
    { intros k ch. rewrite subscribers_insert. case_decide as Hk; [|by left].
      subst k. rewrite elem_of_app, list_elem_of_singleton. naive_solver. }
    split_and!.
    + intros k. rewrite subscribers_insert. destruct (decide (k = key)); [|done]. apply NoDup_app.
      split_and!; [done| |apply NoDup_singleton]. intros x Hx ->%list_elem_of_singleton.
      specialize (Hl _ _ Hx). lia.
    + intros k1 k2 ch H1 H2. apply Hs in H1 as [H1|[-> E1]]; apply Hs in H2 as [H2|[-> E2]].
      * by eapply Hd.
      * specialize (Hl _ _ H1). lia.
      * specialize (Hl _ _ H2). lia.
      * done.
    + intros k ch H. apply Hs in H as [H|[_ ->]]; simpl; [specialize (Hl _ _ H); lia|lia].
    + simpl. intros ch Hch. rewrite lookup_insert_ne by lia. apply Hc. lia.
  - unfold UnsubscribeProvisionLogs. set (key := logSubscriberKey ns n).
    destruct (remove_first _ _) as [l|] eqn:Hr; [|done].
    destruct (remove_first_spec _ _ _ (Hn key) Hr) as (Hnl & Hin & Hx).
    assert (Hs : ∀ k, subscribers k (s <| lg_subs := <[key := l]> (lg_subs s) |>
      <| lg_chans := alter (λ sub, sub <| ls_done := true |>) ch (lg_chans s) |>) =
      if decide (k = key) then l else subscribers k s).
    { intros k. apply subscribers_insert. }
    assert (Hsub : ∀ k c, c ∈ (if decide (k = key) then l else subscribers k s) →
      c ∈ subscribers k s).
    { intros k c. case_decide; [|done]. subst. rewrite Hx. naive_solver. }
    split_and!; try setoid_rewrite Hs.
    + intros k. by case_decide.
    + eauto.
    + simpl. eauto.
    + simpl. intros c Hge. rewrite lookup_alter. case_decide; [subst|]; by rewrite Hc.
  - split_and!; [exact Hn|exact Hd|exact Hl|]. simpl. intros c Hge.
    rewrite send_all by done. case_decide; by rewrite Hc.
Qed.

(** A channel no devnet lists is never written again. *)
Lemma dropped_run ops s ch sub :
  log_wf s → ch < lg_next s → lg_chans s !! ch = Some sub →
  (∀ k, ch ∉ subscribers k s) → lg_chans (log_run ops s) !! ch = Some sub.
Proof.
  revert s; induction ops as [|op ops IH]; intros s Hwf Hlt Hch Hno; simpl; [done|].
  pose proof (log_wf_step op s Hwf) as Hwf'. destruct Hwf as (Hn & Hd & Hl & Hc).
  apply IH; [done| | |]; clear IH; destruct op as [ns n|ns n c|ns n e]; simpl.
  - lia.
  - unfold UnsubscribeProvisionLogs. by case_match.
  - done.
  - by rewrite lookup_insert_ne by lia.
  - unfold UnsubscribeProvisionLogs. destruct (remove_first _ _) as [l|] eqn:Hr; [|done].
    simpl. destruct (remove_first_spec _ _ _ (Hn _) Hr) as (_ & Hin & _).
    rewrite lookup_alter_ne; [done|]. intros ->. by eapply Hno.
  - rewrite send_all by done. by rewrite decide_False by apply Hno.
  - intros k. rewrite subscribers_insert. case_decide; [|done].
    rewrite not_elem_of_app, list_elem_of_singleton. split; [done|lia].
  - intros k. unfold UnsubscribeProvisionLogs. destruct (remove_first _ _) as [l|] eqn:Hr; [|done].
    destruct (remove_first_spec _ _ _ (Hn _) Hr) as (_ & _ & Hx).
    set (chans := alter _ c _).
    change (ch ∉ subscribers k (mkLogState
      (<[logSubscriberKey ns n := l]> (lg_subs s)) chans (lg_next s))).
    rewrite subscribers_insert. case_decide; [|done]. rewrite Hx. intros [Hin _]. by eapply Hno.
  - done.
Qed.

(** A subscribed channel receives what is broadcast for its devnet. *)
Lemma subscribed_run ops s key ch acc :
  log_wf s → ch ∈ subscribers key s →
  lg_chans s !! ch = Some (mkLogSubscriber (take logSubscriberBufferSize acc) false) →
  ls_ch <$> lg_chans (log_run ops s) !! ch =
    Some (take logSubscriberBufferSize (acc ++ delivered key ch ops)).
Proof.
  revert s acc; induction ops as [|op ops IH]; intros s acc Hwf Hin Hch; simpl.
  { by rewrite Hch, app_nil_r. }
  pose proof (log_wf_step op s Hwf) as Hwf'. destruct Hwf as (Hn & Hd & Hl & Hc).
  pose proof (Hl _ _ Hin) as Hlt. destruct op as [ns n|ns n c|ns n e]; simpl in *.
  - unfold SubscribeProvisionLogs in *. simpl in *.
    apply IH; [done| |simpl; by rewrite lookup_insert_ne by lia].
    rewrite subscribers_insert. case_decide; [|done]. subst. set_solver.
  - unfold UnsubscribeProvisionLogs in *. set (k := logSubscriberKey ns n) in *.
    destruct (remove_first c (subscribers k s)) as [l|] eqn:Hr.
    + destruct (remove_first_spec _ _ _ (Hn _) Hr) as (_ & Hc' & Hx).
      set (s' := set lg_chans _ _) in *.
      assert (Hs : ∀ k', subscribers k' s' = if decide (k' = k) then l else subscribers k' s)
        by (intros k'; apply subscribers_insert).
      destruct (decide (c = ch)) as [->|Hne].
      * assert (Hk : k = key) by (by eapply Hd). rewrite bool_decide_true, bool_decide_true by done.
        simpl. rewrite app_nil_r.
        rewrite (dropped_run ops s' ch (mkLogSubscriber (take logSubscriberBufferSize acc) true));
          [done|done|done| |].
        -- simpl. rewrite lookup_alter_eq, Hch. done.
        -- intros k'. rewrite Hs. case_decide; [rewrite Hx; naive_solver|].
           intros Hin'. assert (k' = key) by (by eapply Hd). congruence.
      * rewrite (bool_decide_false (c = ch)), andb_false_r by done. apply IH; [done| |].
        -- rewrite Hs. case_decide; [subst; rewrite Hx|]; naive_solver.
        -- simpl. by rewrite lookup_alter_ne.
    + apply remove_first_none in Hr. rewrite (IH s acc) by done.
      case_bool_decide as Hk; [|done]. rewrite bool_decide_false; [done|]. congruence.
  - unfold BroadcastProvisionLog, broadcastLog in *. set (k := logSubscriberKey ns n) in *.
    case_bool_decide as Hk.
    + rewrite (cons_middle e acc), (assoc_L app). apply IH; [done|done|]. simpl. rewrite send_all by done.
      rewrite decide_True by (by rewrite Hk). rewrite Hch. simpl. unfold send. simpl.
      f_equal. rewrite length_take. case_bool_decide as Hlen; simpl.
      * f_equal. rewrite take_app. rewrite !take_ge by lia. f_equal.
        rewrite take_ge; [done|]. simpl. lia.
      * f_equal. rewrite take_app_le by lia. done.
    + apply IH; [done|done|]. simpl. rewrite send_all by done.
      rewrite decide_False; [done|]. intros Hin'. apply Hk. by eapply Hd.
Qed.

(** ** What a subscriber gets *)

(** Whatever else is subscribed, unsubscribed and broadcast, a new
    subscription's channel holds, in order, the entries broadcast for its
    namespace and devnet while it was subscribed, up to the buffer's 100 when
    nobody reads it; entries for other devnets never reach it, an empty
    namespace means the default one, and nothing follows an unsubscription. *)
Theorem subscription_receives pre namespace name ops :
  let s := log_run pre NoLogs in
  let '(ch, s') := SubscribeProvisionLogs namespace name s in
  ls_ch <$> lg_chans (log_run ops s') !! ch =
    Some (take 100 (delivered (logSubscriberKey namespace name) ch ops)).
Proof.
  intros s. assert (Hwf : log_wf s).
  { subst s. generalize log_wf_new. generalize NoLogs. induction pre as [|op pre IH]; [done|].
    intros s0 Hs. apply IH. by apply log_wf_step. }
  pose proof (log_wf_step (OpSubscribe namespace name) s Hwf) as Hwf'.
  unfold SubscribeProvisionLogs in *. simpl in Hwf'.
  apply (subscribed_run ops _ _ _ []); [done| |].
  - rewrite subscribers_insert, decide_True by done. set_solver.
  - simpl. by rewrite lookup_insert_eq.
Qed.
