(* ===== verification/World.v ===== *)
(** * What a controller acts on

    A controller's [Reconcile] reads the clock, calls the store, the runtime or
    provisioner interfaces, and enqueues keys with the manager.  [World] holds
    what these calls change.  The clock is any stream of instants.  An external
    interface answers any function of the calls made so far, so quantifying
    over it covers every behaviour of the environment; the calls are kept in
    [w_trace], in order, with their answers.  Another client's store calls
    between two steps of one [Reconcile] are not modelled here: [BoltSpec]
    shows what the generation check does to them. *)

From stdpp Require Import base tactics numbers list strings gmap.
From S2P Require Import Prelude Types Store.

(** [parseDevnetKey] of [controller/devnet.go]: the keys of devnets, upgrades
    and health checks. *)
Definition parseDevnetKey (key : string) : string * string :=
  match split2 slash key with
  | [namespace; name] => (namespace, name)
  | _ => (DefaultNamespace, key)
  end.

(** The key [namespace/name] a service enqueues is read back. *)
Lemma parse_request_key ns name :
  no_slash ns → parseDevnetKey (qualified ns name) = (or_default ns, name).
Proof.
  intros Hns. unfold parseDevnetKey, qualified.
  change (or_default ns +:+ "/" +:+ name) with (or_default ns +:+ String slash name).
  by rewrite split2_app by by apply no_slash_default.
Qed.

Record World (S T : Type) := mkWorld {
  w_store : S;
  w_clock : nat → Time;
  w_ticks : nat;
  w_trace : list T;
  w_enqueued : list (string * string)  (* manager.Enqueue calls: type, key *)
}.
Arguments mkWorld {S T}.
Arguments w_store {S T}.
Arguments w_clock {S T}.
Arguments w_ticks {S T}.
Arguments w_trace {S T}.
Arguments w_enqueued {S T}.

#[export] Instance eta_World {S T} : Settable (World S T) := mkSettable (λ x,
  mkWorld (w_store x) (w_clock x) (w_ticks x) (w_trace x) (w_enqueued x)).

Section world.
Context {S T : Type} `{Store S}.
Implicit Types w : World S T.

(** [time.Now()]. *)
Definition now : M (World S T) Time :=
  λ w, (w_clock w (w_ticks w), w <| w_ticks := Datatypes.S (w_ticks w) |>).

(** A call to an external interface: its answer, and its place in the trace. *)
Definition call_out {A} (answer : list T → A) (log : A → T) : M (World S T) A :=
  λ w, let a := answer (w_trace w) in (a, w <| w_trace := w_trace w ++ [log a] |>).

(** [manager.Enqueue(resourceType, key)]. *)
Definition enqueue (resourceType key : string) : M (World S T) unit :=
  modifyM (λ w, w <| w_enqueued := w_enqueued w ++ [(resourceType, key)] |>).

(** Store calls that only read. *)
Definition readM {A} (f : S → A) : M (World S T) A := getM (λ w, f (w_store w)).

(** A store update: the error and the resource as the store left it. *)
Definition updateM {R} (upd : Time → R → S → option error * R * S) (r : R)
    : M (World S T) (option error * R) :=
  do! t := now in
  λ w, let '(e, r, s) := upd t r (w_store w) in ((e, r), w <| w_store := s |>).

(** [return store.Update...(r)]. *)
Definition saveM {R} (upd : Time → R → S → option error * R * S) (r : R)
    : M (World S T) (option error) :=
  do! ' (e, _) := updateM upd r in done_with e.
End world.

(** ** What a step may change *)

Section frame.
Context {S T : Type} `{StoreSpec S}.
Implicit Types (w : World S T) (s : S).

(** [w'] differs from [w] at most in clock, trace and queue. *)
Definition same_store w w' : Prop := w_store w' = w_store w.

(** The collection [sel] changed at most at [k], from [o] to [o'], and the
    other collections not at all. *)
Definition only_node (k : string) (v v' : view) : Prop :=
  v_devnets v' = v_devnets v ∧ v_upgrades v' = v_upgrades v ∧ v_txs v' = v_txs v ∧
  ∀ k', k' ≠ k → v_nodes v' !! k' = v_nodes v !! k'.
Definition only_devnet (k : string) (v v' : view) : Prop :=
  v_nodes v' = v_nodes v ∧ v_upgrades v' = v_upgrades v ∧ v_txs v' = v_txs v ∧
  ∀ k', k' ≠ k → v_devnets v' !! k' = v_devnets v !! k'.
Definition only_upgrade (k : string) (v v' : view) : Prop :=
  v_devnets v' = v_devnets v ∧ v_nodes v' = v_nodes v ∧ v_txs v' = v_txs v ∧
  ∀ k', k' ≠ k → v_upgrades v' !! k' = v_upgrades v !! k'.
Definition only_tx (k : string) (v v' : view) : Prop :=
  v_devnets v' = v_devnets v ∧ v_nodes v' = v_nodes v ∧ v_upgrades v' = v_upgrades v ∧
  ∀ k', k' ≠ k → v_txs v' !! k' = v_txs v !! k'.

Lemma only_node_trans k v1 v2 v3 : only_node k v1 v2 → only_node k v2 v3 → only_node k v1 v3.
Proof. unfold only_node. intros (->&->&->&H1) (->&->&->&H2). naive_solver congruence. Qed.
Lemma only_devnet_trans k v1 v2 v3 :
  only_devnet k v1 v2 → only_devnet k v2 v3 → only_devnet k v1 v3.
Proof. unfold only_devnet. intros (->&->&->&H1) (->&->&->&H2). naive_solver congruence. Qed.
Lemma only_upgrade_trans k v1 v2 v3 :
  only_upgrade k v1 v2 → only_upgrade k v2 v3 → only_upgrade k v1 v3.
Proof. unfold only_upgrade. intros (->&->&->&H1) (->&->&->&H2). naive_solver congruence. Qed.
Lemma only_tx_trans k v1 v2 v3 : only_tx k v1 v2 → only_tx k v2 v3 → only_tx k v1 v3.
Proof. unfold only_tx. intros (->&->&->&H1) (->&->&->&H2). naive_solver congruence. Qed.

(** A loop that only enqueues. *)
Lemma eachM_enqueue {A} (l : list A) (f : A → string * string) w :
  eachM l (λ x, enqueue (f x).1 (f x).2) w =
    (tt, w <| w_enqueued := w_enqueued w ++ (f <$> l) |>).
Proof.
  revert w. induction l as [|x l IH]; intros w; simpl.
  - unfold done_with. rewrite app_nil_r. by destruct w.
  - rewrite bindM_eq, IH. simpl. rewrite <- (assoc_L app). by destruct (f x).
Qed.

(** A failed update changes nothing a client sees; a successful one replaces
    the entry. *)
Lemma updateM_eq {R} (upd : Time → R → S → option error * R * S) (r : R) w :
  let out := upd (w_clock w (w_ticks w)) r (w_store w) in
  updateM upd r w =
    (out.1, w <| w_ticks := Datatypes.S (w_ticks w) |> <| w_store := out.2 |>).
Proof. unfold updateM, bindM, now. simpl. by destruct (upd _ r _) as [[e r'] s']. Qed.

Lemma saveM_eq {R} (upd : Time → R → S → option error * R * S) (r : R) w :
  let out := upd (w_clock w (w_ticks w)) r (w_store w) in
  saveM upd r w =
    (out.1.1, w <| w_ticks := Datatypes.S (w_ticks w) |> <| w_store := out.2 |>).
Proof. unfold saveM. rewrite bindM_eq, updateM_eq. simpl. by destruct (upd _ r _) as [[??]?]. Qed.

Lemma UpdateNode_frame now n s e n' s' :
  store_wf s → UpdateNode now n s = (e, n', s') →
  store_wf s' ∧ only_node (node_id n) (store_view s) (store_view s') ∧
  match e with
  | None => same_node n n' ∧ is_Some (v_nodes (store_view s) !! node_id n) ∧
            v_nodes (store_view s') !! node_id n = Some n'
  | Some _ => store_view s' = store_view s
  end.
Proof.
  intros Hs U. pose proof (UpdateNode_wf now n s Hs) as Hw. rewrite U in Hw.
  split; [done|]. pose proof (UpdateNode_spec now n s e n' s' Hs U) as Hu.
  destruct e; [by rewrite Hu|]. destruct Hu as (Hn & Hi & ->). split_and!; [|done|done|].
  - split_and!; [done..|]. intros k' Hk. simpl. by rewrite lookup_insert_ne.
  - simpl. by rewrite lookup_insert_eq.
Qed.

Lemma UpdateDevnet_frame now d s e d' s' :
  store_wf s → UpdateDevnet now d s = (e, d', s') →
  store_wf s' ∧ only_devnet (devnet_id d) (store_view s) (store_view s') ∧
  match e with
  | None => same_devnet d d' ∧ is_Some (v_devnets (store_view s) !! devnet_id d) ∧
            v_devnets (store_view s') !! devnet_id d = Some d'
  | Some _ => store_view s' = store_view s
  end.
Proof.
  intros Hs U. pose proof (UpdateDevnet_wf now d s Hs) as Hw. rewrite U in Hw.
  split; [done|]. pose proof (UpdateDevnet_spec now d s e d' s' Hs U) as Hu.
  destruct e; [by rewrite Hu|]. destruct Hu as (Hn & Hi & ->). split_and!; [|done|done|].
  - split_and!; [done..|]. intros k' Hk. simpl. by rewrite lookup_insert_ne.
  - simpl. by rewrite lookup_insert_eq.
Qed.

Lemma UpdateUpgrade_frame now u s e u' s' :
  store_wf s → UpdateUpgrade now u s = (e, u', s') →
  store_wf s' ∧ only_upgrade (upgrade_id u) (store_view s) (store_view s') ∧
  match e with
  | None => same_upgrade u u' ∧ is_Some (v_upgrades (store_view s) !! upgrade_id u) ∧
            v_upgrades (store_view s') !! upgrade_id u = Some u'
  | Some _ => store_view s' = store_view s
  end.
Proof.
  intros Hs U. pose proof (UpdateUpgrade_wf now u s Hs) as Hw. rewrite U in Hw.
  split; [done|]. pose proof (UpdateUpgrade_spec now u s e u' s' Hs U) as Hu.
  destruct e; [by rewrite Hu|]. destruct Hu as (Hn & Hi & ->). split_and!; [|done|done|].
  - split_and!; [done..|]. intros k' Hk. simpl. by rewrite lookup_insert_ne.
  - simpl. by rewrite lookup_insert_eq.
Qed.

Lemma UpdateTransaction_frame now t s e t' s' :
  store_wf s → UpdateTransaction now t s = (e, t', s') →
  store_wf s' ∧ only_tx (tx_id t) (store_view s) (store_view s') ∧
  match e with
  | None => same_tx t t' ∧ is_Some (v_txs (store_view s) !! tx_id t) ∧
            v_txs (store_view s') !! tx_id t = Some t'
  | Some _ => store_view s' = store_view s
  end.
Proof.
  intros Hs U. pose proof (UpdateTransaction_wf now t s Hs) as Hw. rewrite U in Hw.
  split; [done|]. pose proof (UpdateTransaction_spec now t s e t' s' Hs U) as Hu.
  destruct e; [by rewrite Hu|]. destruct Hu as (Hn & Hi & ->). split_and!; [|done|done|].
  - split_and!; [done..|]. intros k' Hk. simpl. by rewrite lookup_insert_ne.
  - simpl. by rewrite lookup_insert_eq.
Qed.
End frame.

(** ** Calls to the environment *)

Section calls.
Context {S T : Type}.
Implicit Types w : World S T.

(** [w'] follows [w] by calls to external interfaces only. *)
Definition called w w' : Prop :=
  w_store w' = w_store w ∧ ∃ l, w_trace w' = w_trace w ++ l.

Lemma called_refl w : called w w.
Proof. split; [done|]. exists []. by rewrite app_nil_r. Qed.

Lemma called_trans w1 w2 w3 : called w1 w2 → called w2 w3 → called w1 w3.
Proof.
  intros (H1 & l1 & E1) (H2 & l2 & E2). split; [congruence|].
  exists (l1 ++ l2). by rewrite E2, E1, (assoc_L app).
Qed.

Lemma called_out {A} (f : list T → A) log w w' :
  called w w' → called w (call_out f log w').2.
Proof.
  intros (Hs & l & Hl). split; [done|]. eexists. simpl. by rewrite Hl, <- (assoc_L app).
Qed.

Lemma called_tick w w' : called w w' → called w (now w').2.
Proof. done. Qed.

Lemma call_recorded {A} (f : list T → A) log w :
  log (call_out f log w).1 ∈ w_trace (call_out f log w).2.
Proof. simpl. apply elem_of_app. right. by left. Qed.

Lemma called_elem w w' c : called w w' → c ∈ w_trace w → c ∈ w_trace w'.
Proof. intros (_ & l & ->) Hc. apply elem_of_app. by left. Qed.
End calls.

#[export] Hint Resolve called_refl called_out called_tick : devnet.
#[export] Hint Resolve only_node_trans only_devnet_trans only_upgrade_trans
  only_tx_trans : devnet.
