(* ===== verification/NodeController.v ===== *)
(** * The node controller ([internal/daemon/controller/node.go])

    [Reconcile] reads a node by its key and moves its phase one step, starting
    and stopping the process through [NodeRuntime], the interface of
    [internal/daemon/runtime/interface.go] (its implementations are not
    modelled; a runtime answers any function of the calls made so far, and a
    nil error comes with a status).  [node_trans] is the phase machine the code
    implements, each transition with the calls it makes and their answers, and
    [node_step] what one [Reconcile] does of it. *)

From Stdlib Require Import SpecFloat.
From stdpp Require Import base tactics numbers list strings relations gmap.
From S2P Require Import Prelude Types MemStore Store World.

(** ** The runtime's interface *)

(** [runtime.NodeStatus]. *)
Record RtNodeStatus := mkRtNodeStatus {
  rs_Running : bool;
  rs_PID : Z;
  rs_StartedAt : Time;
  rs_ExitCode : Z;
  rs_Restarts : Z;
  rs_LastError : string;
  rs_UpdatedAt : Time
}.

(** [runtime.RestartPolicy]. *)
Record RtRestartPolicy := mkRtRestartPolicy {
  rrp_Policy : string;
  rrp_MaxRestarts : Z;
  rrp_BackoffInitial : Duration;
  rrp_BackoffMax : Duration;
  rrp_BackoffFactor : spec_float;
  rrp_ResetAfter : Duration
}.

(** [runtime.DefaultRestartPolicy]. *)
Definition RtDefaultRestartPolicy : RtRestartPolicy := {|
  rrp_Policy := "on-failure";
  rrp_MaxRestarts := 5;
  rrp_BackoffInitial := 1 * second;
  rrp_BackoffMax := 60 * second;
  rrp_BackoffFactor := S754_finite false (2^52) (-51);
  rrp_ResetAfter := 5 * minute |}.

(** A call of the controller to its runtime, with the answer. *)
Inductive NodeCall :=
| CStartNode (node : Node) (policy : RtRestartPolicy) (answer : option error)
| CStopNode (nodeID : string) (graceful : bool) (answer : option error)
| CGetNodeStatus (nodeID : string) (answer : result RtNodeStatus).

(** The methods of [runtime.NodeRuntime] the controller calls. *)
Record NodeRuntime := {
  StartNode : list NodeCall → Node → RtRestartPolicy → option error;
  StopNode : list NodeCall → string → bool → option error;
  GetNodeStatus : list NodeCall → string → result RtNodeStatus
}.

(** ** Node keys *)

Definition ParseNodeKey (key : string) : result (string * string * Z) :=
  let invalid e := Err (Wrap ("invalid node index in key " +:+ key) e) in
  match split_on slash key with
  | [devnetName; i] =>
      match atoi i with
      | Ok index => Ok (DefaultNamespace, devnetName, index)
      | Err e => invalid e
      end
  | [namespace; devnetName; i] =>
      match atoi i with
      | Ok index => Ok (namespace, devnetName, index)
      | Err e => invalid e
      end
  | _ => Err (Errorf ("invalid node key format: " +:+ key))
  end.

Definition NodeKey (devnetName : string) (index : Z) : string :=
  devnetName +:+ "/" +:+ itoa index.

Definition NodeKeyWithNamespace (namespace devnetName : string) (index : Z) : string :=
  let namespace := if bool_decide (namespace = "") then DefaultNamespace else namespace in
  namespace +:+ "/" +:+ devnetName +:+ "/" +:+ itoa index.

(** ** Reconcile *)

Section controller.
Context {S : Type} `{Store S}.
Variable runtime : option NodeRuntime.

Abbreviation W := (World S NodeCall).

Definition UpdateNodeM (node : Node) : M W (option error * Node) := updateM UpdateNode node.
Definition SaveNode (node : Node) : M W (option error) := saveM UpdateNode node.

Definition start_node (r : NodeRuntime) (node : Node) : M W (option error) :=
  call_out (λ t, StartNode r t node RtDefaultRestartPolicy)
    (CStartNode node RtDefaultRestartPolicy).
Definition stop_node (r : NodeRuntime) (nodeID : string) (graceful : bool)
    : M W (option error) :=
  call_out (λ t, StopNode r t nodeID graceful) (CStopNode nodeID graceful).
Definition node_status (r : NodeRuntime) (nodeID : string) : M W (result RtNodeStatus) :=
  call_out (λ t, GetNodeStatus r t nodeID) (CGetNodeStatus nodeID).

Definition set_phase (phase message : string) (node : Node) : Node :=
  node <| n_Status; nst_Phase := phase |> <| n_Status; nst_Message := message |>.

(** The part of [reconcileStarting] after the runtime accepted the node. *)
Definition started (node : Node) : M W (option error) :=
  SaveNode (set_phase NodePhaseRunning "Node is running" node).

Definition reconcileStarting (node : Node) : M W (option error) :=
  match runtime with
  | None => started node
  | Some r =>
      do! err := start_node r node in
      match err with
      | Some e => SaveNode (set_phase NodePhaseCrashed ("Failed to start: " +:+ Error e) node)
      | None =>
          do! status := node_status r (m_Name (n_Metadata node)) in
          match status with
          | Ok st =>
              if bool_decide (0 < rs_PID st)%Z
              then started (node <| n_Status; nst_PID := rs_PID st |>)
              else started node
          | Err _ => started node
          end
      end
  end.

(** Does the user want the node to run? *)
Definition wants_running (node : Node) : bool :=
  bool_decide (ns_Desired (n_Spec node) = "") ||
  bool_decide (ns_Desired (n_Spec node) = NodePhaseRunning).

Definition reconcilePending (node : Node) : M W (option error) :=
  if wants_running node then
    do! ' (err, node) :=
      UpdateNodeM (set_phase NodePhaseStarting "Starting node" node) in
    match err with
    | Some e => done_with (Some (Wrap "failed to update node phase" e))
    | None => reconcileStarting node
    end
  else SaveNode (set_phase NodePhaseStopped "Node created in stopped state" node).

Definition reconcileRunning (node : Node) : M W (option error) :=
  if bool_decide (ns_Desired (n_Spec node) = NodePhaseStopped) then
    SaveNode (set_phase NodePhaseStopping "Stopping node" node)
  else
    match runtime with
    | None => done_with None
    | Some r =>
        do! status := node_status r (m_Name (n_Metadata node)) in
        match status with
        | Err _ => done_with None
        | Ok st =>
            if rs_Running st then done_with None
            else SaveNode (set_phase NodePhaseCrashed "Node stopped unexpectedly" node
                             <| n_Status; nst_PID := 0%Z |>)
        end
    end.

Definition reconcileStopping (node : Node) : M W (option error) :=
  let finish := SaveNode (set_phase NodePhaseStopped "Node stopped"
                            (node <| n_Status; nst_PID := 0%Z |>)) in
  match runtime with
  | None => finish
  | Some r => run! stop_node r (m_Name (n_Metadata node)) true in finish
  end.

Definition reconcileStopped (node : Node) : M W (option error) :=
  if wants_running node then
    SaveNode (set_phase NodePhasePending "Restarting node" node
      <| n_Status; nst_RestartCount := wrap64 (nst_RestartCount (n_Status node) + 1) |>)
  else done_with None.

Definition reconcileCrashed (node : Node) : M W (option error) :=
  SaveNode (set_phase NodePhaseStopped "Node crashed and stopped" node).

(** The switch on the phase. *)
Definition reconcile_node (node : Node) : M W (option error) :=
  let phase := nst_Phase (n_Status node) in
  if bool_decide (phase = "") || bool_decide (phase = NodePhasePending)
  then reconcilePending node
  else if bool_decide (phase = NodePhaseStarting) then reconcileStarting node
  else if bool_decide (phase = NodePhaseRunning) then reconcileRunning node
  else if bool_decide (phase = NodePhaseStopping) then reconcileStopping node
  else if bool_decide (phase = NodePhaseStopped) then reconcileStopped node
  else if bool_decide (phase = NodePhaseCrashed) then reconcileCrashed node
  else done_with None.

Definition Reconcile (key : string) : M W (option error) :=
  match ParseNodeKey key with
  | Err e => done_with (Some e)
  | Ok (namespace, devnetName, index) =>
      do! r := readM (GetNode namespace devnetName index) in
      match r with
      | Err e => done_with
          (if IsNotFound e then None else Some (Wrap ("failed to get node " +:+ key) e))
      | Ok node => reconcile_node node
      end
  end.

(** Reconciling the same key [n] times. *)
Fixpoint reconciles (n : nat) (key : string) : M W (option error) :=
  match n with
  | O => done_with None
  | Datatypes.S n => run! Reconcile key in reconciles n key
  end.
End controller.

(** ** The phase machine *)

(** What a save of [n] as [n'] leaves alone. *)
Definition same_but_status (n n' : Node) : Prop :=
  same_meta (n_Metadata n) (n_Metadata n') ∧ n_Spec n' = n_Spec n.

Definition phase (n : Node) : string := nst_Phase (n_Status n).
Definition pid (n : Node) : Z := nst_PID (n_Status n).

(** The process identifier a started node has, from what the status call answers. *)
Definition started_pid (n : Node) (answer : result RtNodeStatus) : Z :=
  match answer with
  | Ok st => if bool_decide (0 < rs_PID st)%Z then rs_PID st else pid n
  | Err _ => pid n
  end.

(** The calls of a start that the runtime accepts, and of one that it refuses; without a
    runtime ([rt] is false) every start goes well and calls nothing. *)
Definition accepted_calls (rt : bool) (n : Node) (p : Z) (calls : list NodeCall) : Prop :=
  if rt then ∃ answer, p = started_pid n answer ∧
    calls = [CStartNode n RtDefaultRestartPolicy None; CGetNodeStatus (m_Name (n_Metadata n)) answer]
  else p = pid n ∧ calls = [].

Definition refused_calls (rt : bool) (n : Node) (calls : list NodeCall) : Prop :=
  rt = true ∧ ∃ e, calls = [CStartNode n RtDefaultRestartPolicy (Some e)].

(** A transition from [n] to [n'] with exactly the calls that it makes and their answers. *)
Inductive node_trans (rt : bool) (calls : list NodeCall) (n n' : Node) : Prop :=
| trans_start :
    phase n = "" ∨ phase n = NodePhasePending → wants_running n = true → calls = [] →
    phase n' = NodePhaseStarting → pid n' = pid n → same_but_status n n' → node_trans rt calls n n'
| trans_skip :
    phase n = "" ∨ phase n = NodePhasePending → wants_running n = false → calls = [] →
    phase n' = NodePhaseStopped → pid n' = pid n → same_but_status n n' → node_trans rt calls n n'
| trans_started :
    phase n = NodePhaseStarting → accepted_calls rt n (pid n') calls →
    phase n' = NodePhaseRunning → same_but_status n n' → node_trans rt calls n n'
| trans_start_failed :
    phase n = NodePhaseStarting → refused_calls rt n calls →
    phase n' = NodePhaseCrashed → pid n' = pid n → same_but_status n n' → node_trans rt calls n n'
| trans_stop :
    phase n = NodePhaseRunning → ns_Desired (n_Spec n) = NodePhaseStopped → calls = [] →
    phase n' = NodePhaseStopping → pid n' = pid n → same_but_status n n' → node_trans rt calls n n'
| trans_crash st :
    phase n = NodePhaseRunning → ns_Desired (n_Spec n) ≠ NodePhaseStopped →
    rt = true → calls = [CGetNodeStatus (m_Name (n_Metadata n)) (Ok st)] → rs_Running st = false →
    phase n' = NodePhaseCrashed → pid n' = 0%Z → same_but_status n n' → node_trans rt calls n n'
| trans_stopped :
    phase n = NodePhaseStopping →
    (if rt then ∃ answer, calls = [CStopNode (m_Name (n_Metadata n)) true answer] else calls = []) →
    phase n' = NodePhaseStopped → pid n' = 0%Z → same_but_status n n' → node_trans rt calls n n'
| trans_restart :
    phase n = NodePhaseStopped → wants_running n = true → calls = [] →
    phase n' = NodePhasePending → pid n' = pid n →
    nst_RestartCount (n_Status n') = wrap64 (nst_RestartCount (n_Status n) + 1) →
    same_but_status n n' → node_trans rt calls n n'
| trans_crashed :
    phase n = NodePhaseCrashed → calls = [] → phase n' = NodePhaseStopped →
    pid n' = pid n → same_but_status n n' → node_trans rt calls n n'.

(** Nothing is due: the node runs as far as the runtime can tell, or is stopped and meant to
    be, or is in no phase of the machine. *)
Inductive rests (rt : bool) (calls : list NodeCall) (n : Node) : Prop :=
| rests_running :
    phase n = NodePhaseRunning → ns_Desired (n_Spec n) ≠ NodePhaseStopped →
    (if rt then ∃ answer, calls = [CGetNodeStatus (m_Name (n_Metadata n)) answer] ∧
       (∀ st, answer = Ok st → rs_Running st = true) else calls = []) → rests rt calls n
| rests_stopped :
    phase n = NodePhaseStopped → wants_running n = false → calls = [] → rests rt calls n
| rests_unknown :
    phase n ∉ [""; NodePhasePending; NodePhaseStarting; NodePhaseRunning; NodePhaseStopping;
               NodePhaseStopped; NodePhaseCrashed] → calls = [] → rests rt calls n.

(** What one reconcile that succeeds does to a node: nothing, one transition, or, for a
    pending node, the two of a start. *)
Inductive node_step (rt : bool) (calls : list NodeCall) (n n' : Node) : Prop :=
| step_rest : rests rt calls n → n' = n → node_step rt calls n n'
| step_trans : node_trans rt calls n n' → phase n' ≠ NodePhaseStarting → node_step rt calls n n'
| step_start n1 :
    node_trans rt [] n n1 → phase n1 = NodePhaseStarting → node_trans rt calls n1 n' →
    node_step rt calls n n'.

(** What one that fails leaves: the node as it was, or with the start announced. *)
Definition node_failed_step (rt : bool) (n n' : Node) : Prop :=
  n' = n ∨ (node_trans rt [] n n' ∧ phase n' = NodePhaseStarting).

(** Transitions with any calls. *)
Definition moves (n n' : Node) : Prop := ∃ rt calls, node_trans rt calls n n'.

Lemma node_step_moves rt calls n n' : node_step rt calls n n' → rtc moves n n'.
Proof.
  intros [_ ->|Ht _|n1 H1 _ H2]; [done|apply rtc_once|eapply rtc_l; [|apply rtc_once]];
    by eexists _, _.
Qed.

Lemma node_failed_step_moves rt n n' : node_failed_step rt n n' → rtc moves n n'.
Proof. intros [->|[Ht _]]; [done|]. apply rtc_once. by eexists _, _. Qed.

(** A process identifier is kept only for a process that may be alive. *)
Definition pid_ok (n : Node) : Prop :=
  pid n ≠ 0%Z → phase n = NodePhaseRunning ∨ phase n = NodePhaseStopping.

(** ** Keys *)

Lemma split_node_key a b i :
  has_char slash a = false → has_char slash b = false →
  split_on slash (a +:+ "/" +:+ b +:+ "/" +:+ itoa i) = [a; b; itoa i].
Proof.
  intros Ha Hb. change (a +:+ "/" +:+ ?t) with (a +:+ String slash t).
  rewrite split_on_app by done. change (b +:+ "/" +:+ ?t) with (b +:+ String slash t).
  rewrite split_on_app by done. by rewrite split_on_none by apply slash_itoa.
Qed.

Lemma NodeKey_split d i :
  has_char slash d = false → split_on slash (NodeKey d i) = [d; itoa i].
Proof.
  intros Hd. unfold NodeKey. change (d +:+ "/" +:+ ?t) with (d +:+ String slash t).
  rewrite split_on_app by done. by rewrite split_on_none by apply slash_itoa.
Qed.

Lemma NodeKey_parse d i :
  has_char slash d = false → int64_range i →
  ParseNodeKey (NodeKey d i) = Ok (DefaultNamespace, d, i).
Proof. intros Hd Hi. unfold ParseNodeKey. by rewrite NodeKey_split, atoi_itoa. Qed.

(** ** The refinement *)

Section refinement.
Context {S : Type} `{StoreSpec S}.
Variable runtime : option NodeRuntime.
Implicit Types (w : World S NodeCall) (n : Node).

Definition has_runtime : bool := match runtime with Some _ => true | None => false end.

(** What handling the stored node [n] in the world [w] leaves: [P] holds of the error, of
    the calls made and of the node that is stored in the end. *)
Definition node_after (P : option error → list NodeCall → Node → Prop) n w
    (out : option error * World S NodeCall) : Prop :=
  store_wf (w_store out.2) ∧
  only_node (node_id n) (store_view (w_store w)) (store_view (w_store out.2)) ∧
  ∃ calls n', w_trace out.2 = w_trace w ++ calls ∧
    v_nodes (store_view (w_store out.2)) !! node_id n = Some n' ∧ P out.1 calls n'.

Definition node_outcome n (e : option error) (calls : list NodeCall) (n' : Node) : Prop :=
  match e with
  | None => node_step has_runtime calls n n'
  | Some _ => node_failed_step has_runtime n n'
  end.

Definition node_post n w out : Prop := node_after (node_outcome n) n w out.

(** The same for a node that is starting. *)
Definition start_outcome n (e : option error) (calls : list NodeCall) (n' : Node) : Prop :=
  match e with
  | None => node_trans has_runtime calls n n' ∧ phase n' ≠ NodePhaseStarting
  | Some _ => n' = n
  end.

Definition stored n w : Prop :=
  store_wf (w_store w) ∧ v_nodes (store_view (w_store w)) !! node_id n = Some n.

Lemma node_after_weaken P Q n w out :
  (∀ e calls n', P e calls n' → Q e calls n') → node_after P n w out → node_after Q n w out.
Proof. intros Hi (Hs & Ho & calls & n' & Ht & Hn & HP). split_and!; [done..|]. exists calls, n'. auto. Qed.

Lemma id_same n n' : same_but_status n n' → node_id n' = node_id n.
Proof.
  intros [(_ & Hns & _) Hsp]. unfold node_id. by rewrite Hsp, Hns, node_key_default.
Qed.

(** Saving [n1], which differs from the stored [n] in its status only. *)
Lemma update_post n n1 w :
  stored n w → n_Metadata n1 = n_Metadata n → n_Spec n1 = n_Spec n →
  let out := UpdateNodeM n1 w in
  store_wf (w_store out.2) ∧ w_trace out.2 = w_trace w ∧
  only_node (node_id n) (store_view (w_store w)) (store_view (w_store out.2)) ∧
  match out.1.1 with
  | Some _ => v_nodes (store_view (w_store out.2)) !! node_id n = Some n
  | None => stored out.1.2 out.2 ∧ same_node n1 out.1.2 ∧ node_id out.1.2 = node_id n
  end.
Proof.
  intros [Hs Hn] Hm Hsp. unfold UpdateNodeM. rewrite updateM_eq. simpl.
  destruct (UpdateNode _ n1 (w_store w)) as [[e n'] s'] eqn:U. simpl.
  assert (Hid : node_id n1 = node_id n) by (unfold node_id; by rewrite Hm, Hsp).
  destruct (UpdateNode_frame _ _ _ _ _ _ Hs U) as (Hs' & Ho & He). rewrite Hid in *.
  split_and!; [done..|]. destruct e as [e|]; [by rewrite He|].
  destruct He as (Hsame & _ & Hl).
  assert (Hid' : node_id n' = node_id n) by (rewrite <- Hid; by apply key_same).
  unfold stored. simpl. by rewrite Hid'.
Qed.

(** Saving after the calls [calls]. *)
Lemma node_save_after (P : option error → list NodeCall → Node → Prop) n n1 w w1 calls :
  stored n w → w_store w1 = w_store w → w_trace w1 = w_trace w ++ calls →
  n_Metadata n1 = n_Metadata n → n_Spec n1 = n_Spec n →
  (∀ e, P (Some e) calls n) → (∀ n', same_node n1 n' → P None calls n') →
  node_after P n w (SaveNode n1 w1).
Proof.
  intros Hs E Ht Hm Hsp He Hn. assert (Hs1 : stored n w1) by (unfold stored; by rewrite E).
  pose proof (update_post n n1 w1 Hs1 Hm Hsp) as Hp. unfold UpdateNodeM in Hp. unfold SaveNode.
  rewrite saveM_eq. rewrite updateM_eq in Hp. cbn in *. destruct Hp as (Hw & Htr & Ho & Hr).
  split; [done|]. rewrite <- E. split; [done|]. exists calls. cbn.
  destruct (UpdateNode _ n1 (w_store w1)) as [[e n'] s']. cbn in *. destruct e as [e|].
  - exists n. split_and!; [done..|]. apply He.
  - destruct Hr as ([_ Hl] & Hsame & Hid). exists n'. rewrite <- Hid at 1. split_and!; [done..|]. by apply Hn.
Qed.

Lemma node_rests n w w1 calls :
  stored n w → w_store w1 = w_store w → w_trace w1 = w_trace w ++ calls →
  rests has_runtime calls n → node_post n w (None, w1).
Proof.
  intros [Hs Hn] E Ht Hr. unfold node_post, node_after. simpl. rewrite E.
  split_and!; [done..|]. exists calls, n. split_and!; [done..|]. by apply step_rest.
Qed.

Ltac trans_by rule :=
  intros ? (? & ? & Hst); eapply rule; try done;
  try (split; [done|by simpl in *]); unfold phase, pid in *; rewrite ?Hst; simpl; eauto.

(** A save is one transition of the machine. *)
Lemma node_save_step n n1 w w1 calls :
  stored n w → w_store w1 = w_store w → w_trace w1 = w_trace w ++ calls →
  n_Metadata n1 = n_Metadata n → n_Spec n1 = n_Spec n → phase n1 ≠ NodePhaseStarting →
  (∀ n', same_node n1 n' → node_trans has_runtime calls n n') →
  node_post n w (SaveNode n1 w1).
Proof.
  intros Hs E Ht Hm Hsp Hp Hn. eapply node_save_after; [done..| |].
  - intros e. by left.
  - intros n' Hsame. apply step_trans; [by apply Hn|]. destruct Hsame as (_ & _ & Hst).
    unfold phase in *. by rewrite Hst.
Qed.

Ltac quiet := first [done|by rewrite app_nil_r].

Lemma reconcileStarting_post n w :
  stored n w → phase n = NodePhaseStarting →
  node_after (start_outcome n) n w (reconcileStarting runtime n w).
Proof.
  intros Hs Hp. unfold reconcileStarting, started.
  assert (Hsave : ∀ n1 w1 calls, w_store w1 = w_store w → w_trace w1 = w_trace w ++ calls →
    n_Metadata n1 = n_Metadata n → n_Spec n1 = n_Spec n → phase n1 ≠ NodePhaseStarting →
    (∀ n', same_node n1 n' → node_trans has_runtime calls n n') →
    node_after (start_outcome n) n w (SaveNode n1 w1)).
  { intros n1 w1 calls E Ht Hm Hsp Hp1 Hn. eapply node_save_after; [done..|].
    intros n' Hsame. split; [by apply Hn|]. destruct Hsame as (_ & _ & Hst). unfold phase in *. by rewrite Hst. }
  unfold has_runtime in *. destruct runtime as [r|].
  - unfold start_node, node_status, call_out. rewrite bindM_eq. simpl.
    destruct (StartNode _ _ _ _) as [e|].
    { eapply Hsave; [done..|]. trans_by trans_start_failed. split; [done|]. by exists e. }
    rewrite bindM_eq. simpl. set (answer := GetNodeStatus _ _ _).
    assert (Hpid : started_pid n answer = match answer with
      | Ok st => if bool_decide (0 < rs_PID st)%Z then rs_PID st else pid n | Err _ => pid n end) by done.
    destruct answer as [st|e]; [case_bool_decide|];
      (eapply Hsave; [done|by cbn; rewrite <- (assoc_L app)|done..|]);
      intros n' (? & ? & Hst); (apply trans_started; [done| |by unfold phase; rewrite Hst|done]);
      eexists; (split; [|reflexivity]); rewrite Hpid; unfold pid; by rewrite Hst.
  - eapply Hsave; [quiet..|]. intros n' (? & ? & Hst).
    apply trans_started; [done| |by unfold phase; rewrite Hst|done]. unfold accepted_calls, pid. by rewrite Hst.
Qed.

Lemma node_reconcilePending_post n w :
  stored n w → phase n = "" ∨ phase n = NodePhasePending →
  node_post n w (reconcilePending runtime n w).
Proof.
  intros Hs Hp. unfold reconcilePending. destruct (wants_running n) eqn:Hw.
  2: { eapply node_save_step; [quiet..|]. trans_by trans_skip. }
  set (n1 := set_phase _ _ _).
  destruct (update_post n n1 w) as (Hw2 & Ht2 & Ho2 & Hr); [done..|].
  rewrite bindM_eq. destruct (UpdateNodeM n1 w) as [[e n2] w2]. simpl in *. destruct e as [e|].
  { split_and!; [done..|]. exists [], n. rewrite app_nil_r. split_and!; [done..|]. by left. }
  destruct Hr as (Hs2 & Hsame & Hid).
  assert (Ht : node_trans has_runtime [] n n2).
  { revert Hsame. generalize n2. subst n1. trans_by trans_start. }
  assert (Hp2 : phase n2 = NodePhaseStarting).
  { destruct Hsame as (_ & _ & Hst). unfold phase. by rewrite Hst. }
  destruct (reconcileStarting_post n2 w2 Hs2 Hp2) as (Hs3 & Ho3 & calls & n3 & Htr & Hn3 & Hout).
  rewrite Hid in *. split; [done|]. split; [by eapply only_node_trans|].
  exists calls, n3. rewrite Htr, Ht2. split_and!; [done..|].
  destruct (reconcileStarting runtime n2 w2).1; simpl in *.
  - subst n3. by right.
  - destruct Hout as [H3 _]. by eapply step_start.
Qed.

Lemma reconcileRunning_post n w :
  stored n w → phase n = NodePhaseRunning → node_post n w (reconcileRunning runtime n w).
Proof.
  intros Hs Hp. unfold reconcileRunning. case_bool_decide as Hd.
  { eapply node_save_step; [quiet..|]. trans_by trans_stop. }
  pose proof (node_rests n w) as Hrest. pose proof (node_save_step n) as Hstep.
  unfold has_runtime in *. destruct runtime as [r|].
  - unfold node_status, call_out. rewrite bindM_eq. simpl.
    destruct (GetNodeStatus _ _ _) as [st|e] eqn:Ea.
    + destruct (rs_Running st) eqn:Hr.
      * eapply Hrest; [done..|]. apply rests_running; [done..|]. eexists. split; [done|]. by intros ? [= <-].
      * eapply Hstep; [done..|]. trans_by trans_crash.
    + eapply Hrest; [done..|]. apply rests_running; [done..|]. by eexists.
  - eapply Hrest; [quiet..|]. by apply rests_running.
Qed.

Lemma reconcileStopping_post n w :
  stored n w → phase n = NodePhaseStopping → node_post n w (reconcileStopping runtime n w).
Proof.
  intros Hs Hp. unfold reconcileStopping. pose proof (node_save_step n) as Hstep. unfold has_runtime in Hstep.
  destruct runtime as [r|]; [|eapply Hstep; [quiet..|]; trans_by trans_stopped].
  unfold stop_node, call_out. rewrite bindM_eq. simpl. eapply Hstep; [done..|]. trans_by trans_stopped.
Qed.

Lemma reconcile_node_post n w : stored n w → node_post n w (reconcile_node runtime n w).
Proof.
  intros Hs. unfold reconcile_node. fold (phase n).
  destruct (bool_decide _ || bool_decide _) eqn:Hp.
  { apply node_reconcilePending_post; [done|].
    apply orb_true_iff in Hp as [Hp|Hp]; apply bool_decide_eq_true in Hp; auto. }
  apply orb_false_iff in Hp as [H1%bool_decide_eq_false H2%bool_decide_eq_false].
  case_bool_decide as H3.
  { eapply node_after_weaken; [|by apply reconcileStarting_post]. intros [e|] calls n'; simpl.
    - intros ->. by left.
    - intros [Ht ?]. by apply step_trans. }
  case_bool_decide as H4; [by apply reconcileRunning_post|].
  case_bool_decide as H5; [by apply reconcileStopping_post|].
  case_bool_decide as H6.
  { unfold reconcileStopped. destruct (wants_running n) eqn:?.
    - eapply node_save_step; [quiet..|]. trans_by trans_restart.
    - eapply node_rests; [quiet..|]. by apply rests_stopped. }
  case_bool_decide as H7.
  { unfold reconcileCrashed. eapply node_save_step; [quiet..|]. trans_by trans_crashed. }
  eapply node_rests; [quiet..|]. apply rests_unknown; [|done]. by rewrite !not_elem_of_cons; split_and!; try apply not_elem_of_nil.
Qed.

(** The key names a node, and [Reconcile] handles exactly that one. *)
Lemma node_Reconcile_cases key w :
  store_wf (w_store w) →
  (∃ e, Reconcile runtime key w = (e, w)) ∨
  (∃ n, stored n w ∧ Reconcile runtime key w = reconcile_node runtime n w).
Proof.
  intros Hs. unfold Reconcile. destruct (ParseNodeKey key) as [[[ns d] i]|e]; [|by left; eexists].
  rewrite bindM_eq. simpl. pose proof (GetNode_spec ns d i (w_store w) Hs) as Hg.
  unfold get_spec in Hg. destruct (_ !! _) as [n|] eqn:Hn.
  - rewrite Hg. right. exists n. split; [|done]. split; [done|].
    destruct (store_keys _ Hs) as (_ & Hk & _). by rewrite <- (Hk _ _ Hn).
  - destruct Hg as (e & -> & ->). left. by eexists.
Qed.

(** A [Reconcile] touches no other node than the one of its key. *)
Lemma Reconcile_other key ns d i k w :
  store_wf (w_store w) → ParseNodeKey key = Ok (ns, d, i) → k ≠ node_key ns d i →
  v_nodes (store_view (w_store (Reconcile runtime key w).2)) !! k =
    v_nodes (store_view (w_store w)) !! k.
Proof.
  intros Hs Hk Hne. unfold Reconcile. rewrite Hk, bindM_eq. simpl.
  pose proof (GetNode_spec ns d i (w_store w) Hs) as Hg. unfold get_spec in Hg.
  destruct (_ !! node_key _ _ _) as [n|] eqn:Hn; [|by destruct Hg as (e & -> & ->)].
  rewrite Hg. destruct (store_keys _ Hs) as (_ & Hkeys & _). pose proof (Hkeys _ _ Hn) as Hid.
  rewrite Hid in Hn, Hne.
  destruct (reconcile_node_post n w (conj Hs Hn)) as (_ & (_ & _ & _ & Ho) & _).
  by apply Ho.
Qed.

Lemma node_outcome_moves n e calls n' : node_outcome n e calls n' → rtc moves n n'.
Proof. destruct e; [apply node_failed_step_moves|apply node_step_moves]. Qed.

(** A node has one phase. *)
Ltac phase_conflict :=
  match goal with
  | H1 : phase ?n = _, H2 : phase ?n = _ |- _ => rewrite H1 in H2; discriminate H2
  end.

Lemma rtc_pid_ok n n' : rtc moves n n' → pid_ok n → pid_ok n'.
Proof.
  induction 1 as [n|n n1 n2 (rt & calls & Ht) _ IH]; [done|]. intros Hn. apply IH. clear IH.
  unfold pid_ok in *. destruct Ht; intros Hp'; try lia; auto;
    exfalso; destruct Hn as [Hn|Hn]; try congruence; destruct_or?; phase_conflict.
Qed.

Lemma rtc_same n n' :
  rtc moves n n' → n_Spec n' = n_Spec n ∧ m_Name (n_Metadata n') = m_Name (n_Metadata n).
Proof.
  induction 1 as [n|n n1 n2 (rt & calls & Ht) _ IH]; [done|]. destruct IH as [-> ->].
  destruct Ht; by match goal with Hm : same_but_status _ _ |- _ => destruct Hm as [(-> & _) ->] end.
Qed.
End refinement.

(** ** Convergence *)

(** A runtime that starts what it is asked to start and keeps it running. *)
Definition good_runtime (runtime : option NodeRuntime) : Prop :=
  match runtime with
  | None => True
  | Some r => (∀ t n p, StartNode r t n p = None) ∧
              (∀ t i, ∃ st, GetNodeStatus r t i = Ok st ∧ rs_Running st = true)
  end.

Definition known_phase (p : string) : Prop :=
  p ∈ [""; NodePhasePending; NodePhaseStarting; NodePhaseRunning; NodePhaseStopping;
       NodePhaseStopped; NodePhaseCrashed].

(** A phase of the enumeration and a process identifier. *)
Definition status_typed (n : Node) : Prop := known_phase (phase n) ∧ (0 ≤ pid n)%Z.

(** The phase one reconcile of a good runtime leads to. *)
Definition next_phase (wants : bool) (p : string) : string :=
  if bool_decide (p = "") || bool_decide (p = NodePhasePending)
  then (if wants then NodePhaseRunning else NodePhaseStopped)
  else if bool_decide (p = NodePhaseStarting) then NodePhaseRunning
  else if bool_decide (p = NodePhaseRunning)
       then (if wants then NodePhaseRunning else NodePhaseStopping)
  else if bool_decide (p = NodePhaseStopping) then NodePhaseStopped
  else if bool_decide (p = NodePhaseStopped)
       then (if wants then NodePhasePending else NodePhaseStopped)
  else NodePhaseStopped.

Section convergence.
Context {S : Type} `{StoreLive S}.
Variable runtime : option NodeRuntime.
Hypothesis Hrt : good_runtime runtime.
Implicit Types (w : World S NodeCall) (n : Node).

(** The node stands at [n'] and nothing went wrong. *)
Definition settled n (p : string) (out : option error * World S NodeCall) : Prop :=
  out.1 = None ∧ ∃ n', stored n' out.2 ∧ node_id n' = node_id n ∧
    n_Spec n' = n_Spec n ∧ phase n' = p.

Lemma update_live n n1 w :
  stored n w → n_Metadata n1 = n_Metadata n → n_Spec n1 = n_Spec n →
  ∃ n' w', UpdateNodeM n1 w = ((None, n'), w') ∧ stored n' w' ∧ node_id n' = node_id n ∧
    n_Spec n' = n_Spec n ∧ phase n' = phase n1.
Proof.
  intros [Hs Hn] Hm Hsp. unfold UpdateNodeM. rewrite updateM_eq. simpl.
  assert (Hid : node_id n1 = node_id n) by (unfold node_id; by rewrite Hm, Hsp).
  pose proof (UpdateNode_live (w_clock w (w_ticks w)) n1 n (w_store w) Hs) as Hl.
  rewrite Hid, Hm in Hl. specialize (Hl Hn eq_refl).
  destruct (UpdateNode _ n1 (w_store w)) as [[e n'] s'] eqn:U. simpl in *. subst e.
  destruct (UpdateNode_frame _ _ _ _ _ _ Hs U) as (Hs' & _ & Hsame & _ & Hl').
  assert (Hid' : node_id n' = node_id n) by (rewrite <- Hid; by apply key_same).
  destruct Hsame as (Hm' & Hsp' & Hst').
  eexists _, _. split; [done|]. split; [split|split_and!]; simpl.
  - done.
  - by rewrite Hid', <- Hid.
  - done.
  - by rewrite Hsp', Hsp.
  - unfold phase. by rewrite Hst'.
Qed.

Lemma node_save_live n n1 w p :
  stored n w → n_Metadata n1 = n_Metadata n → n_Spec n1 = n_Spec n → phase n1 = p →
  settled n p (SaveNode n1 w).
Proof.
  intros Hs Hm Hsp <-. destruct (update_live n n1 w Hs Hm Hsp) as (n' & w' & U & Hr).
  unfold SaveNode, saveM. unfold UpdateNodeM in U. rewrite bindM_eq, U. simpl.
  split; [done|]. naive_solver.
Qed.

Lemma reconcileStarting_live n w :
  stored n w → settled n NodePhaseRunning (reconcileStarting runtime n w).
Proof.
  intros Hs. unfold reconcileStarting, started. destruct runtime as [r|]; simpl in Hrt.
  - destruct Hrt as [Hstart Hstat]. unfold start_node, node_status, call_out.
    rewrite bindM_eq. simpl. rewrite Hstart, bindM_eq. simpl.
    destruct (Hstat (w_trace w ++ [CStartNode n RtDefaultRestartPolicy None])
      (m_Name (n_Metadata n))) as (st & -> & _).
    case_bool_decide; by apply node_save_live.
  - by apply node_save_live.
Qed.

Lemma reconcile_node_live n w :
  stored n w → known_phase (phase n) →
  (wants_running n = false → ns_Desired (n_Spec n) = NodePhaseStopped) →
  settled n (next_phase (wants_running n) (phase n)) (reconcile_node runtime n w).
Proof.
  intros Hs Hk Hd. unfold reconcile_node, next_phase. fold (phase n).
  destruct (bool_decide (phase n = "") || bool_decide (phase n = NodePhasePending)) eqn:Hp0.
  { unfold reconcilePending. destruct (wants_running n) eqn:Hw; [|by apply node_save_live].
    set (n1 := set_phase _ _ _).
    destruct (update_live n n1 w Hs eq_refl eq_refl) as (n2 & w2 & U & Hs2 & Hid & Hsp & _).
    rewrite bindM_eq, U. simpl.
    destruct (reconcileStarting_live n2 w2 Hs2) as (He & n3 & Hs3 & Hid3 & Hsp3 & Hp3).
    split; [done|]. exists n3. by rewrite Hid3, Hid, Hsp3, Hsp. }
  destruct (bool_decide (phase n = NodePhaseStarting)) eqn:?; [by apply reconcileStarting_live|].
  destruct (bool_decide (phase n = NodePhaseRunning)) eqn:Hp.
  { apply bool_decide_eq_true in Hp. unfold reconcileRunning.
    destruct (decide (ns_Desired (n_Spec n) = NodePhaseStopped)) as [Hd'|Hd'];
      [rewrite (bool_decide_true _ Hd')|rewrite (bool_decide_false _ Hd')].
    { replace (wants_running n) with false; [by apply node_save_live|].
      unfold wants_running. by rewrite Hd'. }
    destruct (wants_running n) eqn:Hw; [|by specialize (Hd eq_refl)].
    destruct runtime as [r|]; simpl in Hrt.
    - destruct Hrt as [_ Hstat]. unfold node_status, call_out. rewrite bindM_eq. simpl.
      destruct (Hstat (w_trace w) (m_Name (n_Metadata n))) as (st & -> & ->).
      split; [done|]. by exists n.
    - split; [done|]. by exists n. }
  destruct (bool_decide (phase n = NodePhaseStopping)) eqn:?.
  { unfold reconcileStopping. destruct runtime as [r|]; [|by apply node_save_live].
    unfold stop_node, call_out. rewrite bindM_eq. simpl. by apply node_save_live. }
  destruct (bool_decide (phase n = NodePhaseStopped)) eqn:Hp2.
  { apply bool_decide_eq_true in Hp2.
    unfold reconcileStopped. destruct (wants_running n); [by apply node_save_live|].
    split; [done|]. by exists n. }
  destruct (bool_decide (phase n = NodePhaseCrashed)) eqn:?; [by apply node_save_live|].
  repeat match goal with H : bool_decide _ = false |- _ => apply bool_decide_eq_false in H end.
  apply orb_false_iff in Hp0 as [Hp0 Hp1]. apply bool_decide_eq_false in Hp0, Hp1.
  unfold known_phase in Hk. rewrite !elem_of_cons, elem_of_nil in Hk.
  destruct_or! Hk; done.
Qed.

(** Reconciling by key the node that is stored under it. *)
Lemma Reconcile_live key ns d i n w :
  ParseNodeKey key = Ok (ns, d, i) → node_id n = node_key ns d i → stored n w →
  Reconcile runtime key w = reconcile_node runtime n w.
Proof.
  intros Hk Hid [Hs Hn]. unfold Reconcile. rewrite Hk, bindM_eq. simpl.
  pose proof (GetNode_spec ns d i (w_store w) Hs) as Hg. unfold get_spec in Hg.
  by rewrite <- Hid, Hn in Hg; rewrite Hg.
Qed.
End convergence.

(** ** Properties *)

Lemma NodeKeyWithNamespace_parse ns d i :
  has_char slash ns = false → has_char slash d = false → int64_range i →
  ParseNodeKey (NodeKeyWithNamespace ns d i) = Ok (or_default ns, d, i).
Proof.
  intros Hns Hd Hi. unfold ParseNodeKey.
  change (NodeKeyWithNamespace ns d i) with
    (or_default ns +:+ "/" +:+ d +:+ "/" +:+ itoa i).
  rewrite split_node_key; [by rewrite atoi_itoa| |done].
  unfold or_default. by case_bool_decide.
Qed.

(** Node keys round trip: what [NodeKeyWithNamespace] and [NodeKey] build
    from slash-free names and an [int] index, [ParseNodeKey] splits back; a key
    without a namespace is read in the default one. *)
Theorem ParseNodeKey_roundtrip ns d i :
  has_char slash ns = false → has_char slash d = false → int64_range i →
  ParseNodeKey (NodeKeyWithNamespace ns d i) = Ok (or_default ns, d, i) ∧
  ParseNodeKey (NodeKey d i) = Ok (DefaultNamespace, d, i).
Proof.
  intros Hns Hd Hi. split; [by apply NodeKeyWithNamespace_parse|by apply NodeKey_parse].
Qed.

Section properties.
Context {S : Type} `{StoreSpec S}.
Implicit Types (w : World S NodeCall).

(** C5: refinement: on any store, whatever the runtime answers, one [Reconcile] keeps the
    store well formed and changes nothing but the node of its key.  If it succeeds, that node
    did what the machine [node_step] says: it rested, or made one transition, or the two of a
    start, with exactly the calls of that step on the runtime, in order; so a node becomes
    Running only after a start the runtime accepted (or if there is no runtime), becomes
    Crashed only after a refused start or a status that says it does not run, and gets a new
    process identifier only from the status after a start, if that is positive.  If it fails, the node is as before or announced as Starting.  A key that names no
    node calls nothing. *)
Theorem Reconcile_refines_node_trans runtime key w :
  store_wf (w_store w) →
  let v := store_view (w_store w) in
  let '(e, w') := Reconcile runtime key w in
  let v' := store_view (w_store w') in
  store_wf (w_store w') ∧
  v_devnets v' = v_devnets v ∧ v_upgrades v' = v_upgrades v ∧ v_txs v' = v_txs v ∧
  ∃ calls, w_trace w' = w_trace w ++ calls ∧
  match ParseNodeKey key with
  | Err err => e = Some err ∧ calls = [] ∧ v_nodes v' = v_nodes v
  | Ok (ns, d, i) =>
      (∀ k, k ≠ node_key ns d i → v_nodes v' !! k = v_nodes v !! k) ∧
      match v_nodes v !! node_key ns d i with
      | None => e = None ∧ calls = [] ∧ v_nodes v' !! node_key ns d i = None
      | Some n => ∃ n', v_nodes v' !! node_key ns d i = Some n' ∧ n_Spec n' = n_Spec n ∧
          match e with
          | None => node_step (has_runtime runtime) calls n n'
          | Some _ => node_failed_step (has_runtime runtime) n n'
          end
      end
  end.
Proof.
  intros Hs. cbv zeta. unfold Reconcile. destruct (ParseNodeKey key) as [[[ns d] i]|err] eqn:Hkey.
  2: { simpl. split_and!; [done..|]. exists []. by rewrite app_nil_r. }
  rewrite bindM_eq. simpl. pose proof (GetNode_spec ns d i (w_store w) Hs) as Hg. unfold get_spec in Hg.
  destruct (v_nodes (store_view (w_store w)) !! node_key ns d i) as [n|] eqn:Hn.
  - rewrite Hg. destruct (store_keys _ Hs) as (_ & Hk & _). pose proof (Hk _ _ Hn) as Hid. rewrite Hid in Hn |- *.
    destruct (reconcile_node_post runtime n w (conj Hs Hn)) as (Hs' & (Hd & Hu & Ht & Ho) & calls & n' & Htr & Hn' & Hr).
    destruct (reconcile_node runtime n w) as [e w']. simpl in *. split_and!; [done..|].
    exists calls. split_and!; [done..|]. exists n'. split; [done|].
    split; [by apply node_outcome_moves, rtc_same in Hr as [-> _]|by destruct e].
  - destruct Hg as (e & -> & Hnf). rewrite Hnf. simpl. split_and!; [done..|]. exists [].
    rewrite app_nil_r. by split_and!.
Qed.

(** A property of nodes that every transition keeps, every [Reconcile] keeps of
    all stored nodes. *)
Lemma Reconcile_keeps (P : Node → Prop) runtime key w :
  (∀ n n', rtc moves n n' → P n → P n') → store_wf (w_store w) →
  map_Forall (λ _ n, P n) (v_nodes (store_view (w_store w))) →
  map_Forall (λ _ n, P n) (v_nodes (store_view (w_store (Reconcile runtime key w).2))).
Proof.
  intros HP Hs Hall. destruct (node_Reconcile_cases runtime key w Hs) as [[e E]|(n & Hn & E)];
    rewrite E; [done|].
  destruct (reconcile_node_post runtime n w Hn) as (_ & (_ & _ & _ & Ho) & calls & n' & _ & Hn' & Hr).
  apply node_outcome_moves in Hr. destruct Hn as [_ Hn]. intros k n0 Hk.
  destruct (decide (k = node_id n)) as [->|Hne].
  - simplify_eq. eapply HP; [done|]. by apply (Hall (node_id n)).
  - apply (Hall k). by rewrite <- Ho.
Qed.

(** No stale process identifier: if every stored node that keeps a PID is
    Running or Stopping, this still holds after any [Reconcile], whatever the
    runtime answers; so a node that is stopped, pending or crashed is never
    reconnected to a process. *)
Theorem Reconcile_keeps_pid_ok runtime key w :
  store_wf (w_store w) →
  map_Forall (λ _ n, pid_ok n) (v_nodes (store_view (w_store w))) →
  map_Forall (λ _ n, pid_ok n)
    (v_nodes (store_view (w_store (Reconcile runtime key w).2))).
Proof. apply Reconcile_keeps. intros n n'. apply rtc_pid_ok. Qed.

(** C7: The status of every node stays well typed: if the phase of every stored
    node is one of the six phases or empty and no process identifier is
    negative, this still holds after any [Reconcile], whatever the runtime
    answers, a negative identifier included. *)
Theorem Reconcile_keeps_status_typed runtime key w :
  store_wf (w_store w) →
  map_Forall (λ _ n, status_typed n) (v_nodes (store_view (w_store w))) →
  map_Forall (λ _ n, status_typed n)
    (v_nodes (store_view (w_store (Reconcile runtime key w).2))).
Proof.
  apply Reconcile_keeps. induction 1 as [n|n n1 n2 (rt & calls & Ht) _ IH]; [done|].
  intros [_ Hp]. apply IH. unfold status_typed, known_phase.
  assert (Hacc : ∀ p, accepted_calls rt n p calls → (0 ≤ p)%Z).
  { intros p. unfold accepted_calls. destruct rt; [|by intros [-> _]].
    intros ([st|] & -> & _); simpl; [case_bool_decide; lia|done]. }
  destruct Ht; split; solve [by apply Hacc|lia|match goal with H : phase n1 = _ |- _ => rewrite H end; set_solver].
Qed.

(** Three reconciles bring a node where it should be. *)
Lemma reconciles_converge `{!StoreLive S} runtime key ns d i n w :
  good_runtime runtime → ParseNodeKey key = Ok (ns, d, i) → node_id n = node_key ns d i →
  stored n w → known_phase (phase n) →
  (wants_running n = false → ns_Desired (n_Spec n) = NodePhaseStopped) →
  let out := reconciles runtime 3 key w in
  ∃ n', v_nodes (store_view (w_store out.2)) !! node_id n = Some n' ∧
    out.1 = None ∧ n_Spec n' = n_Spec n ∧
    phase n' = if wants_running n then NodePhaseRunning else NodePhaseStopped.
Proof.
  intros Hrt Hk Hid Hs Hph Hd.
  assert (Hstep : ∀ n0 w0, stored n0 w0 → node_id n0 = node_id n → n_Spec n0 = n_Spec n →
    known_phase (phase n0) →
    ∃ n1, stored n1 (Reconcile runtime key w0).2 ∧ node_id n1 = node_id n ∧
      n_Spec n1 = n_Spec n ∧ phase n1 = next_phase (wants_running n) (phase n0) ∧
      (Reconcile runtime key w0).1 = None).
  { intros n0 w0 Hs0 Hid0 Hsp0 Hk0.
    rewrite (Reconcile_live runtime key ns d i n0 w0 Hk ltac:(congruence) Hs0).
    assert (Hw : wants_running n0 = wants_running n) by (unfold wants_running; by rewrite Hsp0).
    destruct (reconcile_node_live runtime Hrt n0 w0 Hs0 Hk0) as (He & n1 & Hs1 & Hid1 & Hsp1 & Hp1).
    { by rewrite Hw, Hsp0. }
    exists n1. rewrite Hid1, Hid0, Hsp1, Hsp0, Hp1, Hw. done. }
  assert (Hnext : ∀ b p, known_phase p → known_phase (next_phase b p)).
  { intros b p Hp. unfold known_phase in *. unfold next_phase.
    destruct b; repeat case_match; rewrite !elem_of_cons; auto 10. }
  destruct (Hstep n w Hs eq_refl eq_refl Hph) as (n1 & Hs1 & Hid1 & Hsp1 & Hp1 & He1).
  destruct (Hstep n1 _ Hs1 Hid1 Hsp1) as (n2 & Hs2 & Hid2 & Hsp2 & Hp2 & He2).
  { rewrite Hp1. auto. }
  destruct (Hstep n2 _ Hs2 Hid2 Hsp2) as (n3 & Hs3 & Hid3 & Hsp3 & Hp3 & He3).
  { rewrite Hp2, Hp1. auto. }
  simpl. unfold done_with. rewrite !bindM_eq. simpl. exists n3.
  destruct Hs3 as [_ Hs3]. rewrite Hid3 in Hs3. split_and!; [done|done|done|].
  rewrite Hp3, Hp2, Hp1. unfold known_phase in Hph.
  rewrite !elem_of_cons, elem_of_nil in Hph.
  destruct (wants_running n); destruct_or! Hph; try done; rewrite Hph; done.
Qed.

(** C6: convergence: on a store that saves what it should and with a runtime
    that starts nodes and keeps them running, three reconciles bring a node
    from any known phase to Running when its desired state is empty or
    Running, and to Stopped when it is Stopped, without an error. *)
Theorem Reconcile_converges `{!StoreLive S} runtime key ns d i n w :
  good_runtime runtime → ParseNodeKey key = Ok (ns, d, i) → node_id n = node_key ns d i →
  stored n w → known_phase (phase n) →
  (wants_running n = false → ns_Desired (n_Spec n) = NodePhaseStopped) →
  let out := reconciles runtime 3 key w in
  ∃ n', v_nodes (store_view (w_store out.2)) !! node_id n = Some n' ∧
    out.1 = None ∧ n_Spec n' = n_Spec n ∧
    phase n' = if wants_running n then NodePhaseRunning else NodePhaseStopped.
Proof. apply reconciles_converge. Qed.
End properties.

(** *** Witnesses *)

Lemma ParseNodeKey_roundtrip_witness :
  ParseNodeKey "default/d/3" = Ok ("default", "d", 3%Z).
Proof.
  destruct (ParseNodeKey_roundtrip "" "d" 3) as [E _];
    [reflexivity|reflexivity|vm_compute; intuition congruence|exact E].
Defined.

Definition ex_node : Node :=
  mkNode (mkResourceMeta "d-0" "" 0 0 0 ∅ ∅)
    (mkNodeSpec "d" "" 0 "validator" "" "" "" "" "" "")
    (mkNodeStatus "" 0 0 0 false 0 "" "" "" 0 0 0 0).

(** The node as the store keeps it, and a store that holds it. *)
Definition ex_node' : Node := ensure_ns ex_node.
Definition ex_store : MemoryStore := (MemStore.CreateNode ex_node NewMemoryStore).2.
Definition ex_world : World MemoryStore NodeCall :=
  mkWorld ex_store (λ n, Z.of_nat n) 0 [] [].

(** A runtime with a process of identifier 7. *)
Definition ex_runtime : NodeRuntime := {|
  StartNode _ _ _ := None;
  StopNode _ _ _ := None;
  GetNodeStatus _ _ := Ok (mkRtNodeStatus true 7 0 0 0 "" 0) |}.

Lemma ex_store_wf : mem_wf ex_store.
Proof.
  split_and!; [apply keyed_empty| |apply keyed_empty|apply keyed_empty].
  apply map_Forall_to_list. vm_compute. repeat constructor.
Qed.

Lemma node_ex_stored : @stored MemoryStore (@MemoryStore_Store some_order)
  (@MemoryStore_spec some_order) ex_node' ex_world.
Proof. split; [exact ex_store_wf|]. by vm_compute. Qed.

#[local] Existing Instance some_order.

Lemma node_ex_world_wf : store_wf (w_store ex_world).
Proof. exact ex_store_wf. Qed.

(** A pending node is started, with the two calls of an accepted start. *)
Lemma Reconcile_refines_node_trans_witness :
  ∃ n, v_nodes (store_view (w_store (Reconcile (Some ex_runtime) "d/0" ex_world).2))
         !! "default/d/0" = Some n ∧
  ∃ calls, w_trace (Reconcile (Some ex_runtime) "d/0" ex_world).2 = calls ∧ length calls = 2 ∧
    node_step true calls ex_node' n.
Proof.
  pose proof (Reconcile_refines_node_trans (S:=MemoryStore) (Some ex_runtime) "d/0" ex_world node_ex_world_wf) as Hr.
  cbv zeta in Hr. destruct (Reconcile (Some ex_runtime) "d/0" ex_world) as [e w'] eqn:E.
  assert (He : e = None) by (apply (f_equal fst) in E; vm_compute in E; by rewrite <- E).
  assert (Hl : length (w_trace w') = 2) by (apply (f_equal snd) in E; simpl in E; rewrite <- E; by vm_compute).
  destruct Hr as (_ & _ & _ & _ & calls & Ht & Hr).
  change (ParseNodeKey "d/0") with (@Ok (string * string * Z) ("default", "d", 0%Z)) in Hr. cbv iota beta in Hr.
  destruct Hr as [_ Hr]. change (node_key "default" "d" 0) with "default/d/0" in Hr.
  replace (v_nodes (store_view (w_store ex_world)) !! "default/d/0") with (Some ex_node') in Hr
    by (vm_compute; reflexivity).
  destruct Hr as (n & Hn & _ & Hr). subst e. exists n. split; [exact Hn|]. exists calls.
  change (w_trace ex_world) with (@nil NodeCall) in Ht. simpl in Ht. subst calls.
  split; [reflexivity|]. split; [exact Hl|exact Hr].
Defined.

Lemma Reconcile_keeps_pid_ok_witness :
  map_Forall (λ _ n, pid_ok n)
    (v_nodes (store_view (w_store (Reconcile (Some ex_runtime) "d/0" ex_world).2))).
Proof.
  apply (Reconcile_keeps_pid_ok (S:=MemoryStore) (Some ex_runtime) "d/0" ex_world node_ex_world_wf).
  intros k n Hk.
  assert (Hf : map_Forall (λ _ n, nst_PID (n_Status n) = 0%Z)
    (v_nodes (store_view (w_store ex_world)))).
  { apply map_Forall_to_list. vm_compute. repeat constructor. }
  intros Hp. destruct (Hp (Hf k n Hk)).
Defined.

Lemma Reconcile_keeps_status_typed_witness :
  map_Forall (λ _ n, status_typed n)
    (v_nodes (store_view (w_store (Reconcile (Some ex_runtime) "d/0" ex_world).2))).
Proof.
  apply (Reconcile_keeps_status_typed (S:=MemoryStore) (Some ex_runtime) "d/0" ex_world
    node_ex_world_wf).
  apply map_Forall_to_list. vm_compute. repeat constructor; discriminate.
Defined.

Lemma Reconcile_converges_witness :
  ∃ n', v_nodes (store_view (w_store (reconciles (Some ex_runtime) 3 "d/0" ex_world).2))
          !! "default/d/0" = Some n' ∧ phase n' = "Running" ∧ pid n' = 7%Z.
Proof.
  destruct (Reconcile_converges (S:=MemoryStore) (Some ex_runtime) "d/0" "default" "d" 0 ex_node' ex_world)
    as (n' & Hn & _ & _ & Hp).
  - split; [intros; reflexivity|intros; eexists; split; reflexivity].
  - vm_compute. reflexivity.
  - vm_compute. reflexivity.
  - exact node_ex_stored.
  - vm_compute. left.
  - intros Hw. vm_compute in Hw. discriminate Hw.
  - exists n'. split; [exact Hn|]. split; [exact Hp|].
    revert Hn. vm_compute. intros [= <-]. reflexivity.
Defined.
