(* ===== verification/Supervisor.v ===== *)
(** * The process supervisor ([internal/daemon/runtime/supervisor.go])

    A supervisor runs one node's process in a goroutine: it starts the process,
    waits for it, and starts it again as its restart policy says.  A supervisor
    and its processes are a state machine: an [Event] is a turn of the goroutine
    ([run] or [runMonitor]), a call of another goroutine ([stop], [forceStop],
    [stopProcess], [detach], the cancellation of the context), or something the
    operating system does (a process exits, a grace period is over).  [step]
    says what an event does, [None] that it cannot happen; any list of events
    that can happen is a behaviour.  Locks make the groups of assignments of
    the source atomic; the assignments after an exit are one turn. *)

From Stdlib Require Import SpecFloat.
From stdpp Require Import base tactics numbers list strings gmap.
From S2P Require Import Prelude Types MemStore Store NodeController Backoff.

(** ** Data *)

Definition SIGKILL : Z := 9.
Definition SIGTERM : Z := 15.

(** The log writer and the logger are left out. *)
Record supervisorConfig := mkSupervisorConfig {
  sc_command : list string;
  sc_workDir : string;
  sc_env : gmap string string;
  sc_policy : RtRestartPolicy;
  sc_stopSignal : Z;
  sc_gracePeriod : Duration;
  sc_detachOnShutdown : bool
}.
#[export] Instance eta_supervisorConfig : Settable supervisorConfig := mkSettable (λ x,
  mkSupervisorConfig (sc_command x) (sc_workDir x) (sc_env x) (sc_policy x) (sc_stopSignal x)
    (sc_gracePeriod x) (sc_detachOnShutdown x)).

(** A process the supervisor started: its exit code once it has exited, and the
    signals it was sent while alive. *)
Record Proc := mkProc {
  pr_pid : Z;
  pr_exit : option Z;
  pr_signals : list Z
}.
#[export] Instance eta_Proc : Settable Proc := mkSettable (λ x,
  mkProc (pr_pid x) (pr_exit x) (pr_signals x)).

(** Where the goroutine is: at the head of the loop, in [cmd.Wait] of a process,
    waiting out a backoff, polling a process it did not start, or returned. *)
Inductive Turn :=
| AtHead
| InWait (proc : nat)
| InBackoff (delay : Duration)
| InMonitor
| Returned.

Record supervisor := mkSupervisor {
  su_config : supervisorConfig;
  su_cmd : option nat;  (* the process started last *)
  su_pid : Z;
  su_running : bool;
  su_startedAt : Time;
  su_lastExitCode : Z;
  su_lastError : string;
  su_restartCount : Z;
  su_stopCh : bool;     (* closed *)
  su_stoppedCh : bool;  (* closed *)
  su_detachMode : bool;
  su_turn : Turn;
  su_ctxDone : bool;
  su_grace : list nat;  (* processes to be killed after the grace period *)
  su_procs : list Proc
}.
#[export] Instance eta_supervisor : Settable supervisor := mkSettable (λ x,
  mkSupervisor (su_config x) (su_cmd x) (su_pid x) (su_running x) (su_startedAt x)
    (su_lastExitCode x) (su_lastError x) (su_restartCount x) (su_stopCh x) (su_stoppedCh x)
    (su_detachMode x) (su_turn x) (su_ctxDone x) (su_grace x) (su_procs x)).

(** The defaults [newSupervisor] fills in. *)
Definition with_defaults (config : supervisorConfig) : supervisorConfig :=
  let config := if bool_decide (sc_command config = [])
                then config <| sc_command := ["/bin/false"] |> else config in
  let config := if bool_decide (sc_stopSignal config = 0%Z)
                then config <| sc_stopSignal := SIGTERM |> else config in
  let config := if bool_decide (sc_gracePeriod config = 0%Z)
                then config <| sc_gracePeriod := (10 * second)%Z |> else config in
  if bool_decide (rrp_BackoffInitial (sc_policy config) = 0%Z)
  then config <| sc_policy := RtDefaultRestartPolicy |> else config.

(** A new supervisor, its goroutine [run] at the head of its loop. *)
Definition newSupervisor (config : supervisorConfig) : supervisor :=
  mkSupervisor (with_defaults config) None 0 false 0 0 "" 0 false false false
    AtHead false [] [].

Definition no_policy : RtRestartPolicy := mkRtRestartPolicy "" 0 0 0 (S754_zero false) 0.

(** A supervisor of a process that is running already, its goroutine
    [runMonitor] polling it; it has no [exec.Cmd]. *)
Definition newMonitoringSupervisor (pid : Z) (t : Time) : supervisor :=
  mkSupervisor (mkSupervisorConfig [] "" ∅ no_policy 0 0 true) None pid true t 0 "" 0
    false false true InMonitor false [] [mkProc pid None []].

(** [status]. *)
Definition status (t : Time) (s : supervisor) : RtNodeStatus :=
  mkRtNodeStatus (su_running s) (su_pid s) (su_startedAt s) (su_lastExitCode s)
    (su_restartCount s) (su_lastError s) t.

(** [shouldRestart]. *)
Definition shouldRestart (exitCode : Z) (s : supervisor) : bool :=
  let policy := sc_policy (su_config s) in
  let exhausted := bool_decide (0 < rrp_MaxRestarts policy)%Z &&
                   bool_decide (rrp_MaxRestarts policy ≤ su_restartCount s)%Z in
  if bool_decide (rrp_Policy policy = "never") then false
  else if bool_decide (rrp_Policy policy = "always") then negb exhausted
  else if bool_decide (rrp_Policy policy = "on-failure")
  then (if bool_decide (exitCode = 0%Z) then false else negb exhausted)
  else false.

(** [calculateBackoff]; the loop leaves at [attempt <= 0]. *)
Definition calculateBackoff (attempt : Z) (policy : RtRestartPolicy) : Duration :=
  backoff_loop (rrp_BackoffFactor policy) (rrp_BackoffMax policy) (Z.to_nat attempt)
    (rrp_BackoffInitial policy).

(** ** Events *)

Inductive Event :=
(* turns of run *)
| EHead (start : result (Z * Time))  (* cmd.Start: the new process, or its error *)
| EReap (message : string) (copied : bool)
    (* cmd.Wait returns; its message if it is an error; was the output copied? *)
| ETimer                             (* the backoff is over *)
| EBackoffStopped                    (* or the stop is seen first *)
(* turns of runMonitor *)
| ETick (dead : option string)       (* the poll; why the process is found dead *)
| EMonitorStopped
(* calls *)
| EStop | EForceStop | EStopProcess | EDetach | ECtxDone
(* the operating system *)
| EExit (proc : nat) (code : Z)
| EGrace (timer : nat).  (* a place in [su_grace] *)

Definition alive (p : Proc) : bool := bool_decide (pr_exit p = None).

(** [process.Signal]: an exited process gets nothing. *)
Definition signal (i : nat) (sig : Z) (s : supervisor) : supervisor :=
  s <| su_procs := alter (λ p, if alive p then p <| pr_signals := pr_signals p ++ [sig] |> else p)
                     i (su_procs s) |>.

(** [stopProcess]: the stop signal now, SIGKILL after the grace period. *)
Definition stopProcess (s : supervisor) : supervisor :=
  match su_cmd s with
  | None => s
  | Some i => signal i (sc_stopSignal (su_config s)) s <| su_grace := i :: su_grace s |>
  end.

Definition detached (s : supervisor) : bool :=
  su_detachMode s || sc_detachOnShutdown (su_config s).

(** [maybeStopProcess]. *)
Definition maybeStopProcess (s : supervisor) : supervisor :=
  if detached s then s else stopProcess s.

(** The goroutine returns: [defer close(s.stoppedCh)]. *)
Definition return_ (s : supervisor) : supervisor :=
  s <| su_turn := Returned |> <| su_stoppedCh := true |>.

(** What [run] does when [startAndWait] has returned. *)
Definition after_exit (exitCode : Z) (err : option string) (s : supervisor) : supervisor :=
  let s := s <| su_running := false |> <| su_lastExitCode := exitCode |> in
  let s := match err with Some e => s <| su_lastError := e |> | None => s end in
  if shouldRestart exitCode s then
    let s := s <| su_restartCount := wrap64 (su_restartCount s + 1) |> in
    s <| su_turn := InBackoff (calculateBackoff (wrap64 (su_restartCount s - 1))
                                 (sc_policy (su_config s))) |>
  else return_ s.

Definition asked_to_stop (s : supervisor) : bool := su_ctxDone s || su_stopCh s.

(** The head of the loop of [run], with what [cmd.Start] answers if it is
    called. *)
Definition run_head (start : result (Z * Time)) (s : supervisor) : supervisor :=
  if asked_to_stop s then return_ (maybeStopProcess s)
  else match start with
  | Err e => after_exit (-1) (Some ("failed to start process: " +:+ Error e)) s
  | Ok (pid, t) =>
      let i := length (su_procs s) in
      s <| su_procs := su_procs s ++ [mkProc pid None []] |>
        <| su_cmd := Some i |> <| su_pid := pid |> <| su_running := true |>
        <| su_startedAt := t |> <| su_turn := InWait i |>
  end.

(** [setProcessDead]. *)
Definition setProcessDead (reason : string) (s : supervisor) : supervisor :=
  s <| su_running := false |> <| su_pid := 0%Z |> <| su_lastError := reason |>.

(** [runMonitor] sees the stop: the process is signalled only if the supervisor
    does not detach, which a monitoring supervisor does. *)
Definition monitor_stop (s : supervisor) : supervisor :=
  if negb (su_ctxDone s) && negb (detached s) && bool_decide (0 < su_pid s)%Z
  then return_ (signal 0 SIGTERM s) else return_ s.

Definition close_stopCh (s : supervisor) : supervisor := s <| su_stopCh := true |>.

Definition forceStop (s : supervisor) : supervisor :=
  close_stopCh (match su_cmd s with Some i => signal i SIGKILL s | None => s end).

Definition step (e : Event) (s : supervisor) : option supervisor :=
  match e, su_turn s with
  | EHead start, AtHead => Some (run_head start s)
  | EReap message copied, InWait i =>
      p ← su_procs s !! i;
      code ← pr_exit p;
      let failed := bool_decide (code ≠ 0%Z) in
      Some (after_exit (if failed then code else if copied then 0%Z else (-1)%Z)
              (if failed || negb copied then Some message else None) s)
  | ETimer, InBackoff _ => Some (s <| su_turn := AtHead |>)
  | EBackoffStopped, InBackoff _ => if asked_to_stop s then Some (return_ s) else None
  | ETick None, InMonitor => Some s
  | ETick (Some reason), InMonitor => Some (return_ (setProcessDead reason s))
  | EMonitorStopped, InMonitor => if asked_to_stop s then Some (monitor_stop s) else None
  | EStop, _ => Some (close_stopCh s)
  | EForceStop, _ => Some (forceStop s)
  | EStopProcess, _ => Some (stopProcess s)
  | EDetach, _ => Some (s <| su_detachMode := true |>)
  | ECtxDone, _ => Some (s <| su_ctxDone := true |>)
  | EExit i code, _ =>
      p ← su_procs s !! i;
      if alive p then Some (s <| su_procs := <[i := p <| pr_exit := Some code |>]> (su_procs s) |>)
      else None
  | EGrace i, _ =>
      p ← su_grace s !! i;
      Some (signal p SIGKILL (s <| su_grace := delete i (su_grace s) |>))
  | _, _ => None
  end.

Fixpoint steps (es : list Event) (s : supervisor) : option supervisor :=
  match es with
  | [] => Some s
  | e :: es => s ← step e s; steps es s
  end.

(** ** Invariants *)

(** What a step does to the processes is to start one, to send signals, or to
    let one exit. *)
Definition kept (l l' : list Proc) : Prop :=
  length l' = length l ∧ ∀ j p', l' !! j = Some p' →
    ∃ p, l !! j = Some p ∧ pr_pid p' = pr_pid p ∧ (alive p' = true → alive p = true).

Lemma kept_refl l : kept l l.
Proof. split; [done|]. eauto. Qed.

Lemma kept_alter f i l :
  (∀ p, pr_pid (f p) = pr_pid p ∧ (alive (f p) = true → alive p = true)) →
  kept l (alter f i l).
Proof.
  intros Hf. split; [apply length_alter|]. intros j p' Hj. destruct (decide (i = j)) as [->|Hne].
  - rewrite list_lookup_alter_eq in Hj. apply fmap_Some in Hj as (p & Hp & ->).
    exists p. split; [done|]. apply Hf.
  - rewrite list_lookup_alter_ne in Hj by done. eauto.
Qed.

Lemma signal_kept i sig s : kept (su_procs s) (su_procs (signal i sig s)).
Proof. apply kept_alter. intros p. destruct (alive p) eqn:Hp; by rewrite ?Hp. Qed.

(** The supervisor of a process it starts itself: at most the process it waits
    for is alive, and that is what [status] reports. *)
Definition run_ok (s : supervisor) : Prop :=
  (su_stoppedCh s = true ↔ su_turn s = Returned) ∧
  match su_turn s with
  | InWait i => su_running s = true ∧ su_cmd s = Some i ∧
      (∃ p, su_procs s !! i = Some p ∧ pr_pid p = su_pid s) ∧
      ∀ j p, su_procs s !! j = Some p → alive p = true → j = i
  | InMonitor => False
  | _ => su_running s = false ∧ ∀ j p, su_procs s !! j = Some p → alive p = false
  end.

(** What the clauses of [run_ok] depend on. *)
Lemma run_ok_kept s s' :
  run_ok s → kept (su_procs s) (su_procs s') →
  su_turn s' = su_turn s → su_stoppedCh s' = su_stoppedCh s → su_running s' = su_running s →
  su_cmd s' = su_cmd s → su_pid s' = su_pid s → run_ok s'.
Proof.
  intros [Hst Hs] [Hlen Hk] Et Ec Er Em Ep. unfold run_ok. rewrite Et, Ec, Er, Em, Ep.
  split; [done|].
  assert (Hal : ∀ j p', su_procs s' !! j = Some p' → alive p' = true →
    ∃ p, su_procs s !! j = Some p ∧ alive p = true).
  { intros j p' Hj Ha. destruct (Hk j p' Hj) as (p & Hp & _ & Hal). eauto. }
  assert (Hdead : (∀ j p, su_procs s !! j = Some p → alive p = false) →
    ∀ j p, su_procs s' !! j = Some p → alive p = false).
  { intros Hd j p Hj. destruct (alive p) eqn:Ha; [|done].
    destruct (Hal j p Hj Ha) as (p0 & Hp0 & Ha0). by rewrite (Hd j p0 Hp0) in Ha0. }
  destruct (su_turn s); try (destruct Hs; split; [done|by apply Hdead]); [|done].
  destruct Hs as (Hr & Hc & (p & Hp & Hpid) & Hone). split_and!; [done|done| |].
  - assert (Hi : proc < length (su_procs s')) by (rewrite Hlen; eapply lookup_lt_Some, Hp).
    apply lookup_lt_is_Some in Hi as [p' Hp']. exists p'. split; [done|].
    destruct (Hk proc p' Hp') as (p0 & Hp0 & -> & _). congruence.
  - intros j p' Hj Ha. destruct (Hal j p' Hj Ha) as (p0 & Hp0 & Ha0). eauto.
Qed.

Lemma stopProcess_fields s :
  let s' := stopProcess s in
  kept (su_procs s) (su_procs s') ∧ su_turn s' = su_turn s ∧
  su_stoppedCh s' = su_stoppedCh s ∧ su_running s' = su_running s ∧
  su_cmd s' = su_cmd s ∧ su_pid s' = su_pid s.
Proof.
  unfold stopProcess. destruct (su_cmd s) as [i|] eqn:E; cbv zeta.
  - split; [apply (signal_kept i _ s)|]. simpl. by rewrite E.
  - split; [apply kept_refl|]. done.
Qed.

(** All processes are dead and the goroutine runs on. *)
Definition all_dead (s : supervisor) : Prop :=
  su_stoppedCh s = false ∧ ∀ j p, su_procs s !! j = Some p → alive p = false.

Lemma after_exit_ok code err s :
  all_dead s → run_ok (after_exit code err s).
Proof.
  intros [Hst Hd]. unfold after_exit, run_ok, return_.
  by destruct err; simpl; destruct (shouldRestart _ _); simpl; rewrite ?Hst; split; auto.
Qed.

Lemma not_stopped s : run_ok s → su_turn s ≠ Returned → su_stoppedCh s = false.
Proof. intros [[Hst _] _] Ht. destruct (su_stoppedCh s); [|done]. by destruct Ht; apply Hst. Qed.

Lemma all_dead_of s : run_ok s → su_turn s = AtHead → all_dead s ∧ su_running s = false.
Proof.
  intros Hs Ht. split; [split; [by apply not_stopped; rewrite ?Ht|]|]; destruct Hs as [_ Hs];
    rewrite Ht in Hs; apply Hs.
Qed.

Lemma return_ok s :
  su_running s = false → (∀ j p, su_procs s !! j = Some p → alive p = false) → run_ok (return_ s).
Proof. intros Hr Hd. unfold run_ok, return_. simpl. split; [done|]. split; [done|exact Hd]. Qed.

Lemma run_head_ok start s : run_ok s → su_turn s = AtHead → run_ok (run_head start s).
Proof.
  intros Hs Ht. destruct (all_dead_of s Hs Ht) as [[Hst Hd] Hr]. unfold run_head.
  destruct (asked_to_stop s).
  - unfold maybeStopProcess. destruct (detached s); [by apply return_ok|].
    destruct (stopProcess_fields s) as ([_ Hk] & _ & _ & Hr' & _).
    apply return_ok; [by rewrite Hr'|]. intros j p Hj. destruct (alive p) eqn:Ha; [|done].
    destruct (Hk j p Hj) as (p0 & Hp0 & _ & Hal). specialize (Hal Ha). by rewrite (Hd j p0 Hp0) in Hal.
  - destruct start as [[pid t]|e]; [|by apply after_exit_ok].
    unfold run_ok. simpl. split; [by rewrite Hst|]. split_and!; [done|done| |].
    + exists (mkProc pid None []). by rewrite lookup_app_r, Nat.sub_diag.
    + intros j p Hj Ha. apply lookup_app_Some in Hj as [Hj|[Hle Hj]].
      * by rewrite (Hd j p Hj) in Ha.
      * apply list_lookup_singleton_Some in Hj as [Hj _]. lia.
Qed.

(** The invariant holds from a new supervisor on. *)
Lemma step_run_ok e s s' : run_ok s → step e s = Some s' → run_ok s'.
Proof.
  intros Hs. destruct e; simpl; intros Hstep.
  - destruct (su_turn s) eqn:Ht; simplify_eq. by apply run_head_ok.
  - destruct (su_turn s) as [|i| | |] eqn:Ht; simplify_eq.
    apply bind_Some in Hstep as (p & Hp & (code & Hc & [= <-])%bind_Some).
    apply after_exit_ok. split; [by apply not_stopped; rewrite ?Ht|].
    destruct Hs as [_ Hs]. rewrite Ht in Hs. destruct Hs as (_ & _ & _ & Hone).
    + intros j q Hj. destruct (alive q) eqn:Ha; [|done].
      rewrite (Hone j q Hj Ha) in Hj. rewrite Hp in Hj. injection Hj as <-.
      unfold alive in Ha. by rewrite Hc in Ha.
  - destruct (su_turn s) eqn:Ht; simplify_eq. unfold run_ok. simpl.
    rewrite (not_stopped s) by (by rewrite ?Ht). destruct Hs as [_ Hs]. by rewrite Ht in Hs.
  - destruct (su_turn s) eqn:Ht; simplify_eq. destruct (asked_to_stop s); simplify_eq.
    destruct Hs as [_ Hs]. rewrite Ht in Hs. apply return_ok; apply Hs.
  - destruct Hs as [_ Hs]. by destruct dead, (su_turn s).
  - destruct Hs as [_ Hs]. by destruct (su_turn s).
  - injection Hstep as <-. by eapply run_ok_kept; [|apply kept_refl|..].
  - injection Hstep as <-. unfold forceStop, close_stopCh. destruct (su_cmd s) as [i|] eqn:E.
    + by eapply run_ok_kept; [exact Hs|apply (signal_kept i SIGKILL s)|..]; simpl; rewrite ?E.
    + by eapply run_ok_kept; [exact Hs|apply kept_refl|..].
  - injection Hstep as <-. destruct (stopProcess_fields s) as (? & ? & ? & ? & ? & ?).
    by eapply run_ok_kept.
  - injection Hstep as <-. by eapply run_ok_kept; [|apply kept_refl|..].
  - injection Hstep as <-. by eapply run_ok_kept; [|apply kept_refl|..].
  - apply bind_Some in Hstep as (p & Hp & Hstep). destruct (alive p); simplify_eq.
    eapply run_ok_kept; [exact Hs| |done..]. simpl. split; [by rewrite length_insert|].
    intros j p' Hj. apply list_lookup_insert_Some in Hj as [(-> & <- & _)|[Hne Hj]]; [|eauto].
    exists p. done.
  - apply bind_Some in Hstep as (p & Hp & [= <-]).
    eapply run_ok_kept; [exact Hs| |done..]. apply (signal_kept p SIGKILL s).
Qed.

Lemma newSupervisor_ok config : run_ok (newSupervisor config).
Proof. unfold run_ok. simpl. split; [done|]. by split. Qed.

Lemma steps_run_ok es s s' : run_ok s → steps es s = Some s' → run_ok s'.
Proof.
  revert s; induction es as [|e es IH]; simpl; intros s Hs; [by intros [= <-]|].
  intros (s1 & H1 & Hr)%bind_Some. eauto using step_run_ok.
Qed.

(** ** What holds of every supervisor *)

Lemma alive_is_waited_for s i p :
  run_ok s → su_procs s !! i = Some p → alive p = true →
  su_turn s = InWait i ∧ su_running s = true ∧ pr_pid p = su_pid s.
Proof.
  intros [_ Hs] Hp Ha.
  assert (Hdead : (∀ j q, su_procs s !! j = Some q → alive q = false) → False).
  { intros Hd. by rewrite (Hd i p Hp) in Ha. }
  destruct (su_turn s) as [|k| | |]; try (destruct Hs as [_ Hd]; destruct (Hdead Hd)); [|done].
  destruct Hs as (Hr & _ & (p0 & Hp0 & Hpid) & Hone). pose proof (Hone i p Hp Ha) as ->.
  split_and!; [done|done|congruence].
Qed.

(** C34: A supervisor has at most one live process, whatever happens, and
    [status] reports it: a live process is Running under its own pid. *)
Theorem one_process_at_a_time config es s t :
  steps es (newSupervisor config) = Some s →
  (∀ i j p q, su_procs s !! i = Some p → su_procs s !! j = Some q →
     alive p = true → alive q = true → i = j) ∧
  ∀ i p, su_procs s !! i = Some p → alive p = true →
    rs_Running (status t s) = true ∧ rs_PID (status t s) = pr_pid p.
Proof.
  intros Hs. pose proof (steps_run_ok _ _ _ (newSupervisor_ok config) Hs) as Hok. split.
  - intros i j p q Hi Hj Ha Hb. destruct (alive_is_waited_for s i p Hok Hi Ha) as (Ti & _).
    destruct (alive_is_waited_for s j q Hok Hj Hb) as (Tj & _). congruence.
  - intros i p Hi Ha. by destruct (alive_is_waited_for s i p Hok Hi Ha) as (_ & Hr & Hp).
Qed.

(** How often the policy lets a process be started again, if that is bounded. *)
Definition restart_limit (policy : RtRestartPolicy) : option Z :=
  if bool_decide (rrp_Policy policy = "always") || bool_decide (rrp_Policy policy = "on-failure")
  then if bool_decide (0 < rrp_MaxRestarts policy)%Z then Some (rrp_MaxRestarts policy) else None
  else Some 0%Z.

(** Starts so far against restarts counted so far. *)
Definition within_budget (limit : Z) (s : supervisor) : Prop :=
  restart_limit (sc_policy (su_config s)) = Some limit ∧
  (0 ≤ su_restartCount s ≤ limit)%Z ∧
  (Z.of_nat (length (su_procs s)) ≤ su_restartCount s +
     match su_turn s with AtHead | InBackoff _ => 0 | _ => 1 end)%Z.

Lemma shouldRestart_budget limit code s :
  restart_limit (sc_policy (su_config s)) = Some limit → shouldRestart code s = true →
  (su_restartCount s < limit)%Z.
Proof.
  unfold restart_limit, shouldRestart. set (policy := sc_policy (su_config s)).
  intros Hl Hr.
  assert (Hb : bool_decide (rrp_Policy policy = "always") ||
    bool_decide (rrp_Policy policy = "on-failure") = true ∧
    bool_decide (0 < rrp_MaxRestarts policy)%Z &&
    bool_decide (rrp_MaxRestarts policy ≤ su_restartCount s)%Z = false).
  { destruct (bool_decide (rrp_Policy policy = "never")); [done|].
    destruct (bool_decide (rrp_Policy policy = "always")); [by apply negb_true_iff in Hr|].
    destruct (bool_decide (rrp_Policy policy = "on-failure")); [|done].
    destruct (bool_decide (code = 0%Z)); [done|]. by apply negb_true_iff in Hr. }
  destruct Hb as [Hb Hex]. rewrite Hb in Hl. case_bool_decide; [|done]. injection Hl as <-.
  simpl in Hex. apply bool_decide_eq_false in Hex. lia.
Qed.

(** Steps that start and count nothing. *)
Lemma budget_kept limit s s' :
  within_budget limit s → su_config s' = su_config s → su_restartCount s' = su_restartCount s →
  length (su_procs s') = length (su_procs s) →
  su_turn s' = su_turn s ∨ su_turn s' = Returned ∨
    (su_turn s' = AtHead ∧ ∃ d, su_turn s = InBackoff d) →
  within_budget limit s'.
Proof.
  intros (Hl & Hc & Hp) Ec Er El Ht. unfold within_budget. rewrite Ec, Er, El.
  split_and!; [done|lia..|]. destruct Ht as [-> | [-> | [-> [d Hd]]]]; [done| |by rewrite Hd in Hp].
  destruct (su_turn s); lia.
Qed.

Lemma after_exit_budget limit code err s :
  int64_range limit → restart_limit (sc_policy (su_config s)) = Some limit →
  (0 ≤ su_restartCount s ≤ limit)%Z →
  (Z.of_nat (length (su_procs s)) ≤ su_restartCount s + 1)%Z →
  within_budget limit (after_exit code err s).
Proof.
  intros Hr Hl Hc Hp. unfold after_exit.
  set (s1 := match err with Some e => _ | None => _ end).
  assert (Hs1 : su_config s1 = su_config s ∧ su_restartCount s1 = su_restartCount s ∧
    su_procs s1 = su_procs s) by (unfold s1; by destruct err).
  destruct Hs1 as (Ec & Er & Ep). destruct (shouldRestart code s1) eqn:Hsr.
  - pose proof (shouldRestart_budget limit code s1 ltac:(by rewrite Ec) Hsr) as Hlt.
    rewrite Er in Hlt. unfold within_budget. simpl. rewrite Ec, Er, Ep.
    unfold int64_range in Hr. rewrite wrap64_id by (unfold int64_range; lia).
    split_and!; [done|lia..].
  - unfold within_budget, return_. simpl. rewrite Ec, Er, Ep. split_and!; [done|lia..].
Qed.

Lemma stopProcess_length s : length (su_procs (stopProcess s)) = length (su_procs s).
Proof. apply (stopProcess_fields s). Qed.

Lemma step_budget limit e s s' :
  int64_range limit → within_budget limit s → step e s = Some s' → within_budget limit s'.
Proof.
  intros Hr Hb. pose proof Hb as (Hl & Hc & Hp). destruct e; simpl; intros Hstep.
  - destruct (su_turn s) eqn:Ht; simplify_eq. unfold run_head. destruct (asked_to_stop s).
    + unfold maybeStopProcess. destruct (detached s);
        (eapply budget_kept; [exact Hb|..]); simpl; auto; try apply stopProcess_length;
        unfold stopProcess; by destruct (su_cmd s).
    + destruct start as [[pid t]|e]; [|apply after_exit_budget; by try lia].
      unfold within_budget. simpl. rewrite length_app. simpl. split_and!; [done|lia..].
  - destruct (su_turn s) eqn:Ht; simplify_eq.
    apply bind_Some in Hstep as (p & _ & (code & _ & [= <-])%bind_Some).
    by apply after_exit_budget.
  - destruct (su_turn s) eqn:Ht; simplify_eq. eapply budget_kept; [exact Hb|done..|].
    right; right. rewrite Ht. split; [done|by eexists].
  - destruct (su_turn s) eqn:Ht; simplify_eq. destruct (asked_to_stop s); simplify_eq.
    eapply budget_kept; [exact Hb|done..|]. by right; left.
  - destruct (su_turn s) eqn:Ht, dead; simplify_eq;
      (eapply budget_kept; [exact Hb|done..|]); [by right; left|by left].
  - destruct (su_turn s) eqn:Ht; simplify_eq. destruct (asked_to_stop s); simplify_eq.
    unfold monitor_stop. destruct (_ && _ && _); (eapply budget_kept; [exact Hb|done|done| |]);
      simpl; auto; apply (signal_kept 0 SIGTERM s).
  - injection Hstep as <-. eapply budget_kept; [exact Hb|done..|by left].
  - injection Hstep as <-. unfold forceStop. destruct (su_cmd s);
      (eapply budget_kept; [exact Hb|done|done| |by left]); [apply (signal_kept n SIGKILL s)|done].
  - injection Hstep as <-. eapply budget_kept; [exact Hb| | |apply stopProcess_length|left];
      unfold stopProcess; by destruct (su_cmd s).
  - injection Hstep as <-. eapply budget_kept; [exact Hb|done..|by left].
  - injection Hstep as <-. eapply budget_kept; [exact Hb|done..|by left].
  - apply bind_Some in Hstep as (p & Hp' & Hstep). destruct (alive p); simplify_eq.
    eapply budget_kept; [exact Hb|done|done|apply length_insert|by left].
  - apply bind_Some in Hstep as (p & Hp' & [= <-]).
    eapply budget_kept; [exact Hb|done|done| |by left]. apply (signal_kept p SIGKILL s).
Qed.

(** A step never takes back the count of restarts. *)
Lemma after_exit_count limit code err s :
  int64_range limit → restart_limit (sc_policy (su_config s)) = Some limit →
  (0 ≤ su_restartCount s ≤ limit)%Z → (su_restartCount s ≤ su_restartCount (after_exit code err s))%Z.
Proof.
  intros Hr Hl Hc. unfold after_exit. set (s1 := match err with Some e => _ | None => _ end).
  assert (Hs1 : su_config s1 = su_config s ∧ su_restartCount s1 = su_restartCount s) by (unfold s1; by destruct err).
  destruct Hs1 as (Ec & Er). destruct (shouldRestart code s1) eqn:Hsr; [|simpl; lia].
  pose proof (shouldRestart_budget limit code s1 ltac:(by rewrite Ec) Hsr) as Hlt.
  unfold int64_range in Hr. simpl. rewrite Er in *. rewrite wrap64_id by (unfold int64_range; lia). lia.
Qed.

Lemma step_count limit e s s' :
  int64_range limit → within_budget limit s → step e s = Some s' →
  (su_restartCount s ≤ su_restartCount s')%Z.
Proof.
  intros Hr (Hl & Hc & _) Hstep.
  assert (Hexit : ∀ code err s1, su_config s1 = su_config s → su_restartCount s1 = su_restartCount s →
    (su_restartCount s ≤ su_restartCount (after_exit code err s1))%Z).
  { intros code err s1 Ec Er. rewrite <- Er. eapply after_exit_count; [done|by rewrite Ec|by rewrite Er]. }
  destruct e; simpl in Hstep.
  - destruct (su_turn s); simplify_eq. unfold run_head. destruct (asked_to_stop s).
    + unfold maybeStopProcess, stopProcess. destruct (detached s); [done|]. by destruct (su_cmd s).
    + destruct start as [[pid t]|err]; [done|by apply Hexit].
  - destruct (su_turn s); simplify_eq.
    apply bind_Some in Hstep as (p & _ & (code & _ & [= <-])%bind_Some). by apply Hexit.
  - by destruct (su_turn s); simplify_eq.
  - destruct (su_turn s); simplify_eq. by destruct (asked_to_stop s); simplify_eq.
  - by destruct (su_turn s), dead; simplify_eq.
  - destruct (su_turn s); simplify_eq. destruct (asked_to_stop s); simplify_eq.
    unfold monitor_stop. by destruct (_ && _ && _).
  - by simplify_eq.
  - simplify_eq. unfold forceStop. by destruct (su_cmd s).
  - simplify_eq. unfold stopProcess. by destruct (su_cmd s).
  - by simplify_eq.
  - by simplify_eq.
  - apply bind_Some in Hstep as (p & _ & Hstep). by destruct (alive p); simplify_eq.
  - by apply bind_Some in Hstep as (p & _ & [= <-]).
Qed.

Lemma steps_budget limit es s s' :
  int64_range limit → within_budget limit s → steps es s = Some s' →
  within_budget limit s' ∧ (su_restartCount s ≤ su_restartCount s')%Z.
Proof.
  intros Hr. revert s. induction es as [|e es IH]; intros s Hb Hs; simpl in Hs; [by injection Hs as <-|].
  apply bind_Some in Hs as (s1 & H1 & Hs).
  destruct (IH s1 (step_budget limit e s s1 Hr Hb H1) Hs) as [Hb' Hc].
  pose proof (step_count limit e s s1 Hr Hb H1). split; [done|lia].
Qed.

(** How many processes a supervisor may start under the policy its caller asks for; a
    policy without an initial backoff counts for nothing, the default one is taken. *)
Definition process_bound (asked : RtRestartPolicy) : option Z :=
  if decide (rrp_BackoffInitial asked = 0%Z) then Some 6%Z
  else if decide (rrp_Policy asked = "always" ∨ rrp_Policy asked = "on-failure") then
    if decide (0 < rrp_MaxRestarts asked)%Z then Some (rrp_MaxRestarts asked + 1)%Z else None
  else Some 1%Z.

Lemma process_bound_limit config n :
  process_bound (sc_policy config) = Some n →
  restart_limit (sc_policy (with_defaults config)) = Some (n - 1)%Z ∧ (1 ≤ n)%Z.
Proof.
  assert (E : sc_policy (with_defaults config) =
    if decide (rrp_BackoffInitial (sc_policy config) = 0%Z) then RtDefaultRestartPolicy else sc_policy config).
  { unfold with_defaults. destruct (bool_decide (sc_command config = [])); simpl;
      (destruct (bool_decide (sc_stopSignal config = 0%Z)); simpl);
      (destruct (bool_decide (sc_gracePeriod config = 0%Z)); simpl);
      (destruct (decide (rrp_BackoffInitial (sc_policy config) = 0%Z));
        [by rewrite bool_decide_true|by rewrite bool_decide_false]). }
  rewrite E. unfold process_bound, restart_limit.
  destruct (decide (rrp_BackoffInitial (sc_policy config) = 0%Z)) as [_|_]; [by intros [= <-]|].
  destruct (decide (_ ∨ _)) as [Hp|Hp].
  - destruct (decide (0 < _)%Z) as [Hm|]; [|done]. intros [= <-]. split; [|lia].
    replace (_ || _) with true by (destruct Hp as [-> | ->]; done).
    rewrite bool_decide_true by done. f_equal. lia.
  - intros [= <-]. rewrite (bool_decide_false (_ = "always")), bool_decide_false by tauto. done.
Qed.

(** C35: The restart policy bounds the processes that a supervisor ever starts, whatever
    the processes do and whoever calls: one under never (and under any unknown policy),
    one more than the maximum under always and on-failure with a positive maximum (that is
    less than the largest int64), and
    six whatever the caller asks for if its policy has no initial backoff, for then the
    default policy (on-failure, five restarts) is taken in its place -- so one that says
    no more than never is restarted ([never_without_backoff_is_restarted]).  There is no
    bound for always and on-failure with a backoff and without a maximum.  The count of
    restarts stays below that bound and is never reset. *)
Theorem restarts_are_bounded config es1 es2 s1 s n :
  process_bound (sc_policy config) = Some n → int64_range n →
  steps es1 (newSupervisor config) = Some s1 → steps es2 s1 = Some s →
  (Z.of_nat (length (su_procs s)) ≤ n)%Z ∧
  (0 ≤ su_restartCount s1 ≤ su_restartCount s)%Z ∧ (su_restartCount s < n)%Z.
Proof.
  intros [Hl Hn]%process_bound_limit Hr H1 H2.
  assert (Hr' : int64_range (n - 1)) by (unfold int64_range in *; lia).
  assert (Hb0 : within_budget (n - 1) (newSupervisor config)) by (split_and!; simpl; [done|lia..]).
  destruct (steps_budget _ _ _ _ Hr' Hb0 H1) as [Hb1 Hc1].
  destruct (steps_budget _ _ _ _ Hr' Hb1 H2) as [Hb2 Hc2].
  destruct Hb1 as (_ & Hk1 & _). destruct Hb2 as (_ & Hk2 & Hp). destruct (su_turn s); simpl in Hp; lia.
Qed.

(** ** Stopping *)

(** All events but [forceStop] and the [stopProcess] of a restart. *)
Definition graceful (e : Event) : Prop :=
  match e with EForceStop | EStopProcess => False | _ => True end.

Definition dead_at (i : nat) (s : supervisor) : Prop :=
  ∃ p, su_procs s !! i = Some p ∧ alive p = false.

(** No process was ever sent a signal, and the pending kills are of dead ones. *)
Definition unsignalled (s : supervisor) : Prop :=
  run_ok s ∧ (∀ i p, su_procs s !! i = Some p → pr_signals p = []) ∧
  (∀ i, i ∈ su_grace s → dead_at i s) ∧
  (∀ i, su_cmd s = Some i → i < length (su_procs s)).

Lemma signal_dead i sig s : dead_at i s → su_procs (signal i sig s) = su_procs s.
Proof.
  intros (p & Hp & Ha). unfold signal. simpl. apply list_eq. intros j.
  destruct (decide (i = j)) as [->|Hne].
  - by rewrite list_lookup_alter_eq, Hp; simpl; rewrite Ha.
  - by rewrite list_lookup_alter_ne.
Qed.

(** Steps that leave the processes alone. *)
Lemma unsignalled_kept s s' :
  unsignalled s → run_ok s' → su_procs s' = su_procs s → su_cmd s' = su_cmd s →
  (∀ i, i ∈ su_grace s' → i ∈ su_grace s ∨ dead_at i s) → unsignalled s'.
Proof.
  intros (_ & Hsig & Hg & Hc) Hok Ep Ec Eg. unfold unsignalled, dead_at. rewrite Ep, Ec.
  split_and!; [done|done| |done]. intros i Hi. destruct (Eg i Hi); [by apply Hg|done].
Qed.

Lemma after_exit_fields code err s :
  let s' := after_exit code err s in
  su_procs s' = su_procs s ∧ su_cmd s' = su_cmd s ∧ su_grace s' = su_grace s ∧
  su_stopCh s' = su_stopCh s.
Proof. unfold after_exit. destruct err; simpl; by destruct (shouldRestart _ _). Qed.

Lemma head_dead s i : unsignalled s → su_turn s = AtHead → su_cmd s = Some i → dead_at i s.
Proof.
  intros ([_ Hok] & _ & _ & Hc) Ht Hi. rewrite Ht in Hok. destruct Hok as [_ Hd].
  specialize (Hc i Hi). apply lookup_lt_is_Some in Hc as [p Hp]. exists p. eauto.
Qed.

Lemma run_head_unsignalled start s :
  unsignalled s → su_turn s = AtHead → run_ok (run_head start s) → unsignalled (run_head start s).
Proof.
  intros Hu Ht. unfold run_head. destruct (asked_to_stop s).
  - unfold maybeStopProcess, stopProcess. destruct (detached s); [|destruct (su_cmd s) as [i|] eqn:Ec].
    all: intros Hok; eapply unsignalled_kept; [exact Hu|exact Hok|..]; simpl; auto.
    + apply signal_dead. by apply head_dead.
    + intros j [->|Hj]%elem_of_cons; [right; by apply head_dead|by left].
  - destruct start as [[pid t]|e]; intros Hok.
    + destruct Hu as (_ & Hsig & Hg & Hc). split_and!; [done| | |]; simpl.
      * intros j p Hj. apply lookup_app_Some in Hj as [Hj|[_ Hj]]; [by eapply Hsig|].
        by apply list_lookup_singleton_Some in Hj as [_ <-].
      * intros j Hj. destruct (Hg j Hj) as (p & Hp & Ha). exists p. split; [|done].
        simpl. by apply lookup_app_l_Some.
      * intros j [= <-]. rewrite length_app. simpl. lia.
    + destruct (after_exit_fields (-1) (Some ("failed to start process: " +:+ Error e)) s)
        as (Ep & Ec & Eg & _).
      eapply unsignalled_kept; [exact Hu|exact Hok|done|done|]. intros j. rewrite Eg. by left.
Qed.

Lemma step_unsignalled e s s' :
  graceful e → unsignalled s → step e s = Some s' → unsignalled s'.
Proof.
  intros He Hu Hstep. pose proof (step_run_ok e s s' (proj1 Hu) Hstep) as Hok.
  destruct e; try done; simpl in Hstep.
  - destruct (su_turn s) eqn:Ht; simplify_eq. by apply run_head_unsignalled.
  - destruct (su_turn s) eqn:Ht; simplify_eq.
    apply bind_Some in Hstep as (p & _ & (code & _ & [= <-])%bind_Some).
    match goal with |- unsignalled (after_exit ?c ?er ?st) =>
      destruct (after_exit_fields c er st) as (Ep & Ec & Eg & _) end.
    eapply unsignalled_kept; [exact Hu|exact Hok|done|done|]. intros j. rewrite Eg. by left.
  - destruct (su_turn s) eqn:Ht; simplify_eq. eapply unsignalled_kept; [exact Hu|..]; auto.
  - destruct (su_turn s) eqn:Ht; simplify_eq. destruct (asked_to_stop s); simplify_eq.
    eapply unsignalled_kept; [exact Hu|..]; auto.
  - destruct Hu as [[_ Hs] _]. by destruct (su_turn s), dead.
  - destruct Hu as [[_ Hs] _]. by destruct (su_turn s).
  - injection Hstep as <-. eapply unsignalled_kept; [exact Hu|..]; auto.
  - injection Hstep as <-. eapply unsignalled_kept; [exact Hu|..]; auto.
  - injection Hstep as <-. eapply unsignalled_kept; [exact Hu|..]; auto.
  - apply bind_Some in Hstep as (p & Hp & Hstep). destruct (alive p); simplify_eq.
    destruct Hu as (_ & Hsig & Hg & Hc). split_and!; [done| | |]; simpl.
    + intros j q Hj. apply list_lookup_insert_Some in Hj as [(-> & <- & _)|[Hne Hj]];
        [by apply (Hsig j p)|by eapply Hsig].
    + intros j Hj. destruct (Hg j Hj) as (q & Hq & Ha). unfold dead_at. simpl.
      destruct (decide (proc = j)) as [->|Hne].
      * rewrite list_lookup_insert_eq by (eapply lookup_lt_Some, Hp). eauto.
      * rewrite list_lookup_insert_ne by done. eauto.
    + intros j Hj. rewrite length_insert. by apply Hc.
  - apply bind_Some in Hstep as (p & Hp & [= <-]). destruct Hu as (H1 & H2 & Hg & H4).
    assert (Hin : p ∈ su_grace s) by (by eapply list_elem_of_lookup_2).
    eapply unsignalled_kept; [split_and!; [exact H1|exact H2|exact Hg|exact H4]|done| |done|].
    + apply (signal_dead p SIGKILL s). by apply Hg.
    + intros j Hj. left. simpl in Hj. apply list_elem_of_lookup in Hj as [k Hk].
      apply list_elem_of_lookup. destruct (decide (k < timer)).
      * exists k. by rewrite list_lookup_delete_lt in Hk.
      * exists (S k). by rewrite list_lookup_delete_ge in Hk by lia.
Qed.

(** A graceful stop does not stop.  However often [stop] is called, the
    context is cancelled or the supervisor detached, no process is sent a signal
    as long as nobody calls [forceStop] or restarts the node, and [stoppedCh],
    which [stop] waits for, is not closed while a process lives: [run] only
    looks at the stop between two processes. *)
Theorem stop_waits_for_exit config es s :
  Forall graceful es → steps es (newSupervisor config) = Some s →
  ∀ i p, su_procs s !! i = Some p →
    pr_signals p = [] ∧ (alive p = true → su_stoppedCh s = false).
Proof.
  intros Hes Hs.
  assert (Hu : unsignalled s).
  { assert (Hu0 : unsignalled (newSupervisor config)).
    { split_and!; [apply newSupervisor_ok| | |]; simpl; set_solver. }
    revert Hu0 Hs. generalize (newSupervisor config) as s0.
    induction Hes as [|e es He Hes IH]; simpl; intros s0 Hu0; [by intros [= <-]|].
    intros (s1 & H1 & Hs)%bind_Some. eauto using step_unsignalled. }
  destruct Hu as (Hok & Hsig & _). intros i p Hp. split; [by eapply Hsig|]. intros Ha.
  destruct (alive_is_waited_for s i p Hok Hp Ha) as (Ht & _).
  apply not_stopped; [done|by rewrite Ht].
Qed.

(** Turns of [run]. *)
Definition turn_event (e : Event) : bool :=
  match e with EHead _ | EReap _ _ | ETimer | EBackoffStopped => true | _ => false end.

(** Turns left to a stopping supervisor. *)
Definition turns_left (s : supervisor) : nat :=
  match su_turn s with InWait _ => 3 | InBackoff _ => 2 | AtHead => 1 | _ => 0 end.

Lemma stopProcess_stopCh s : su_stopCh (stopProcess s) = su_stopCh s.
Proof. unfold stopProcess. by destruct (su_cmd s). Qed.

Lemma after_exit_turn code err s :
  match su_turn (after_exit code err s) with InBackoff _ | Returned => True | _ => False end.
Proof. unfold after_exit. destruct err; simpl; by destruct (shouldRestart _ _). Qed.

(** A supervisor that is asked to stop starts no process and comes nearer to
    its end with every turn. *)
Lemma stopping_step e s s' :
  su_stopCh s = true → run_ok s → step e s = Some s' →
  su_stopCh s' = true ∧ length (su_procs s') = length (su_procs s) ∧
  (if turn_event e then turns_left s' < turns_left s else turns_left s' = turns_left s).
Proof.
  intros Hst Hok. destruct e; simpl; intros Hstep.
  - destruct (su_turn s) eqn:Ht; simplify_eq. unfold run_head, asked_to_stop.
    rewrite Hst, orb_true_r. unfold turns_left. rewrite Ht. unfold maybeStopProcess.
    destruct (detached s); simpl; rewrite ?stopProcess_stopCh, ?stopProcess_length; auto with lia.
  - destruct (su_turn s) eqn:Ht; simplify_eq.
    apply bind_Some in Hstep as (p & _ & (code & _ & [= <-])%bind_Some).
    match goal with |- context [after_exit ?c ?er s] =>
      destruct (after_exit_fields c er s) as (-> & _ & _ & ->);
      pose proof (after_exit_turn c er s) as Htn end.
    split_and!; [done|done|]. unfold turns_left. rewrite Ht.
    destruct (su_turn (after_exit _ _ _)); try done; lia.
  - destruct (su_turn s) eqn:Ht; simplify_eq. unfold turns_left. rewrite Ht. simpl. auto with lia.
  - destruct (su_turn s) eqn:Ht; simplify_eq. destruct (asked_to_stop s); simplify_eq.
    unfold turns_left. rewrite Ht. simpl. auto with lia.
  - destruct Hok as [_ Hok]. by destruct (su_turn s), dead.
  - destruct Hok as [_ Hok]. by destruct (su_turn s).
  - by injection Hstep as <-.
  - injection Hstep as <-. unfold forceStop. destruct (su_cmd s) as [i|]; [|done].
    split_and!; [done|apply (signal_kept i SIGKILL s)|done].
  - injection Hstep as <-. rewrite stopProcess_stopCh, stopProcess_length. split_and!; [done..|].
    unfold stopProcess. by destruct (su_cmd s).
  - by injection Hstep as <-.
  - by injection Hstep as <-.
  - apply bind_Some in Hstep as (p & _ & Hstep). destruct (alive p); simplify_eq.
    split_and!; [done|apply length_insert|done].
  - apply bind_Some in Hstep as (p & _ & [= <-]).
    split_and!; [done|apply (signal_kept p SIGKILL s)|done].
Qed.

(** A supervisor whose stop was asked for starts no further process, and
    once no process lives it returns: in every behaviour from there at most
    three turns of the goroutine happen, and until it has returned one can. *)
Theorem stopped_supervisor_ends config es1 s1 es2 s2 :
  steps es1 (newSupervisor config) = Some s1 → su_stopCh s1 = true →
  steps es2 s1 = Some s2 →
  length (su_procs s2) = length (su_procs s1) ∧
  length (filter (λ e, turn_event e = true) es2) ≤ 3 ∧
  ((∀ i p, su_procs s2 !! i = Some p → alive p = false) →
     su_stoppedCh s2 = true ∨ ∃ e, turn_event e = true ∧ is_Some (step e s2)).
Proof.
  intros H1 Hst H2. pose proof (steps_run_ok _ _ _ (newSupervisor_ok config) H1) as Hok.
  assert (Hrun : ∀ es s, run_ok s → su_stopCh s = true → steps es s = Some s2 →
    length (su_procs s2) = length (su_procs s) ∧
    length (filter (λ e, turn_event e = true) es) ≤ turns_left s ∧ run_ok s2 ∧ su_stopCh s2 = true).
  { clear. induction es as [|e es IH]; simpl; intros s Hok Hst; [intros [= <-]; auto with lia|].
    intros (s' & Hstep & Hs)%bind_Some. destruct (stopping_step e s s' Hst Hok Hstep) as (Hst' & Hl & Ht).
    destruct (IH s' (step_run_ok e s s' Hok Hstep) Hst' Hs) as (Hl' & Hf & Hok' & Hst2).
    split_and!; [congruence| |done|done]. rewrite filter_cons.
    destruct (decide _) as [He|He]; [rewrite He in Ht; simpl; lia|].
    destruct (turn_event e); [done|]. lia. }
  destruct (Hrun es2 s1 Hok Hst H2) as (Hl & Hf & Hok2 & Hst2).
  split_and!; [done| |].
  - etrans; [exact Hf|]. unfold turns_left. destruct (su_turn s1); lia.
  - intros Hdead. destruct (su_turn s2) as [|i|d| |] eqn:Ht.
    + right. exists (EHead (Ok (0, 0)%Z)). simpl. rewrite Ht. split; [done|by eexists].
    + right. destruct Hok2 as [_ Hs]. rewrite Ht in Hs. destruct Hs as (_ & _ & (p & Hp & _) & _).
      exists (EReap "" true). split; [done|]. simpl. rewrite Ht, Hp. simpl.
      specialize (Hdead i p Hp). unfold alive in Hdead. destruct (pr_exit p); [by eexists|done].
    + right. exists ETimer. simpl. rewrite Ht. split; [done|by eexists].
    + destruct Hok2 as [_ Hs]. by rewrite Ht in Hs.
    + left. by apply Hok2.
Qed.

(** [forceStop] does signal: the process that is alive is sent SIGKILL. *)
Theorem forceStop_kills config es s i p :
  steps es (newSupervisor config) = Some s →
  su_procs s !! i = Some p → alive p = true →
  ∃ p', su_procs (forceStop s) !! i = Some p' ∧ pr_signals p' = pr_signals p ++ [SIGKILL] ∧
    su_stopCh (forceStop s) = true.
Proof.
  intros Hs Hp Ha. pose proof (steps_run_ok _ _ _ (newSupervisor_ok config) Hs) as Hok.
  destruct (alive_is_waited_for s i p Hok Hp Ha) as (Ht & _). destruct Hok as [_ Hok].
  rewrite Ht in Hok. destruct Hok as (_ & Hc & _). unfold forceStop, close_stopCh. rewrite Hc.
  simpl. rewrite list_lookup_alter_eq, Hp. simpl. rewrite Ha. by eexists.
Qed.

(** A process the daemon reconnected to is never signalled, neither by a
    graceful stop nor by [forceStop] nor by a restart: its supervisor has no
    command and detaches. *)
Theorem monitored_process_is_never_signalled pid t es s :
  steps es (newMonitoringSupervisor pid t) = Some s →
  ∀ p, p ∈ su_procs s → pr_signals p = [].
Proof.
  intros Hs.
  assert (Hinv : su_cmd s = None ∧ su_detachMode s = true ∧ su_grace s = [] ∧
    (su_turn s = InMonitor ∨ su_turn s = Returned) ∧
    ∀ p, p ∈ su_procs s → pr_signals p = []); [|apply Hinv].
  assert (H0 : let s0 := newMonitoringSupervisor pid t in
    su_cmd s0 = None ∧ su_detachMode s0 = true ∧ su_grace s0 = [] ∧
    (su_turn s0 = InMonitor ∨ su_turn s0 = Returned) ∧
    ∀ p, p ∈ su_procs s0 → pr_signals p = []).
  { cbv zeta. split_and!; try done; [by left|]. by intros p ->%list_elem_of_singleton. }
  revert Hs H0. generalize (newMonitoringSupervisor pid t) as s0.
  induction es as [|e es IH]; simpl; intros s0; [by intros [= <-]|].
  intros (s1 & Hstep & Hs)%bind_Some (Hc & Hd & Hg & Ht & Hsig). apply (IH s1 Hs). clear IH Hs.
  destruct e; simpl in Hstep; try (destruct Ht as [Ht|Ht]; rewrite Ht in Hstep; simplify_eq).
  all: try (destruct dead; simplify_eq; simpl; by auto 10).
  all: try (destruct (asked_to_stop s0); [|done]; injection Hstep as <-;
    unfold monitor_stop, detached; rewrite Hd, andb_false_r; simpl; by auto 10).
  all: try (injection Hstep as <-; unfold forceStop, stopProcess, close_stopCh;
    rewrite ?Hc; simpl; by auto 10).
  - apply bind_Some in Hstep as (p & Hp & Hstep). destruct (alive p); simplify_eq.
    split_and!; try done. intros q [j Hj]%list_elem_of_lookup. simpl in Hj.
    apply list_lookup_insert_Some in Hj as [(_ & <- & _)|[_ Hj]];
      [by apply (Hsig p), (list_elem_of_lookup_2 _ _ _ Hp)|
       by apply (Hsig q), (list_elem_of_lookup_2 _ _ _ Hj)].
  - by rewrite Hg in Hstep.
Qed.

(** ** Backoff *)

(** With the policy the controller uses, the delay before restart [n] (from
    0) is one second doubled [n] times and at most a minute; with any policy
    it never exceeds the maximum, unless the first delay does. *)
Theorem restart_backoff attempt policy :
  calculateBackoff attempt RtDefaultRestartPolicy =
    Z.min (second * 2 ^ Z.max 0 attempt) minute ∧
  (rrp_BackoffInitial policy ≤ rrp_BackoffMax policy →
   calculateBackoff attempt policy ≤ rrp_BackoffMax policy)%Z.
Proof.
  split; [|by intros Hle; apply backoff_le].
  assert (Hz : Z.max 0 attempt = Z.of_nat (Z.to_nat attempt)) by lia.
  rewrite Hz. unfold calculateBackoff. generalize (Z.to_nat attempt). clear.
  intros n. do 6 (destruct n as [|n]; [vm_compute; reflexivity|]).
  assert (Hcap : backoff_loop (rrp_BackoffFactor RtDefaultRestartPolicy)
    (rrp_BackoffMax RtDefaultRestartPolicy) (S (S (S (S (S (S n))))))
    (rrp_BackoffInitial RtDefaultRestartPolicy) = minute) by backoff_eval.
  rewrite Hcap. symmetry. apply Z.min_r.
  replace (Z.of_nat (S (S (S (S (S (S n)))))))%Z with (6 + Z.of_nat n)%Z by lia.
  rewrite Z.pow_add_r by lia. pose proof (Z.pow_pos_nonneg 2 (Z.of_nat n) ltac:(lia) ltac:(lia)).
  unfold minute, second. lia.
Qed.

(** *** Witnesses *)

Definition ex_config : supervisorConfig :=
  mkSupervisorConfig ["stabled"; "start"] "/data" ∅ RtDefaultRestartPolicy SIGTERM (10 * second)
    false.

(** Started, stopped, cancelled and detached, and still running. *)
Definition ex_stopped : list Event :=
  [EHead (Ok (100, 5)%Z); EStop; ECtxDone; EDetach].

(** A crash, a restart. *)
Definition ex_crashes : list Event :=
  [EHead (Ok (100, 5)%Z); EExit 0 1; EReap "exit status 1" true; ETimer; EHead (Ok (101, 9)%Z)].

(** The end of a stopped supervisor once its process has exited. *)
Definition ex_end : list Event := [EExit 0 1; EReap "exit status 1" true; EBackoffStopped].
Definition ex_monitored : list Event := [EStop; EForceStop; EMonitorStopped].

Definition reached (es : list Event) (s : supervisor) : supervisor := default s (steps es s).
Definition after_stop : supervisor := reached ex_stopped (newSupervisor ex_config).
Definition after_crashes : supervisor := reached ex_crashes (newSupervisor ex_config).
Definition after_end : supervisor := reached ex_end after_stop.
Definition after_monitored : supervisor := reached ex_monitored (newMonitoringSupervisor 100 5).

Lemma after_stop_steps : steps ex_stopped (newSupervisor ex_config) = Some after_stop.
Proof. vm_compute. reflexivity. Qed.
Lemma after_crashes_steps : steps ex_crashes (newSupervisor ex_config) = Some after_crashes.
Proof. vm_compute. reflexivity. Qed.
Lemma after_end_steps : steps ex_end after_stop = Some after_end.
Proof. vm_compute. reflexivity. Qed.
Lemma after_monitored_steps :
  steps ex_monitored (newMonitoringSupervisor 100 5) = Some after_monitored.
Proof. vm_compute. reflexivity. Qed.

Lemma stop_waits_for_exit_witness :
  ∃ p, su_procs after_stop !! 0 = Some p ∧
    alive p = true ∧ pr_signals p = [] ∧ su_stoppedCh after_stop = false.
Proof.
  assert (Hp : su_procs after_stop !! 0 = Some (mkProc 100 None [])) by (vm_compute; reflexivity).
  exists (mkProc 100 None []). split; [exact Hp|]. split; [reflexivity|].
  destruct (stop_waits_for_exit ex_config ex_stopped after_stop ltac:(repeat constructor)
    after_stop_steps 0 _ Hp) as [Hsig Hst].
  split; [exact Hsig|exact (Hst eq_refl)].
Defined.

Lemma one_process_at_a_time_witness :
  rs_Running (status 9 after_crashes) = true ∧ rs_PID (status 9 after_crashes) = 101%Z.
Proof.
  assert (Hp : su_procs after_crashes !! 1 = Some (mkProc 101 None []))
    by (vm_compute; reflexivity).
  destruct (one_process_at_a_time ex_config ex_crashes after_crashes 9 after_crashes_steps)
    as [_ Hr].
  exact (Hr 1 _ Hp eq_refl).
Defined.

Lemma restarts_are_bounded_witness :
  (Z.of_nat (length (su_procs after_crashes)) ≤ 6)%Z ∧ (su_restartCount after_crashes < 6)%Z.
Proof.
  assert (Hl : process_bound (sc_policy ex_config) = Some 6%Z) by (vm_compute; reflexivity).
  assert (Hr : int64_range 6) by (vm_compute; split; [discriminate|reflexivity]).
  destruct (restarts_are_bounded ex_config [] ex_crashes _ after_crashes 6 Hl Hr eq_refl after_crashes_steps)
    as (Hp & _ & Hc).
  split; [exact Hp|exact Hc].
Defined.

(** The policy of the tests, [RestartPolicy{Policy: "never"}]: a process that keeps
    failing is started six times. *)
Definition ex_never : supervisorConfig :=
  mkSupervisorConfig ["stabled"; "start"] "/data" ∅ (mkRtRestartPolicy "never" 0 0 0 (S754_zero false) 0)
    SIGTERM (10 * second) false.
Definition ex_round (i : nat) : list Event :=
  [EHead (Ok (Z.of_nat i, 5)%Z); EExit i 1; EReap "exit status 1" true].

Example never_without_backoff_is_restarted :
  (λ s, length (su_procs s)) <$>
    steps (ex_round 0 ++ (seq 1 5 ≫= λ i, ETimer :: ex_round i)) (newSupervisor ex_never) = Some 6.
Proof. vm_compute. reflexivity. Qed.

Lemma stopped_supervisor_ends_witness : length (su_procs after_end) = length (su_procs after_stop).
Proof.
  assert (Hst : su_stopCh after_stop = true) by (vm_compute; reflexivity).
  apply (stopped_supervisor_ends ex_config ex_stopped after_stop ex_end after_end
    after_stop_steps Hst after_end_steps).
Defined.

Lemma monitored_process_is_never_signalled_witness :
  ∀ p, p ∈ su_procs after_monitored → pr_signals p = [].
Proof.
  apply (monitored_process_is_never_signalled 100 5 ex_monitored after_monitored
    after_monitored_steps).
Defined.
