(* ===== verification/ProcessRuntime.v ===== *)
(** * The process runtime ([internal/daemon/runtime/process.go])

    [ProcessRuntime] keeps one supervisor per node identifier.  A supervisor
    taken out of the map keeps its goroutine and its process, so the model keeps
    every supervisor ever created in [rt_all]; the map holds places in it.
    [sup_step] lets one of them take a step of [Supervisor].  The log manager,
    the plugins and what the operating system says about a pid are arguments.
    [Cleanup], which stops the supervisors one after the other, and the reading
    of the log are not modelled. *)

From stdpp Require Import base tactics numbers list strings gmap.
From S2P Require Import Prelude Types MemStore Store NodeController Supervisor.

(** [PluginRuntime]: the methods the process runtime uses. *)
Record PluginRuntime := mkPluginRuntime {
  StartCommand : Node → list string;
  StartEnv : Node → gmap string string;
  StopSignal : Z;
  GracePeriod : Duration
}.

(** [StartOptions]. *)
Record StartOptions := mkStartOptions {
  so_RestartPolicy : RtRestartPolicy;
  so_Env : gmap string string;
  so_PluginRuntime : option PluginRuntime
}.

Record ProcessRuntime := mkProcessRuntime {
  rt_supervisors : gmap string nat;
  rt_cmdOverride : gmap string (list string);
  rt_all : list supervisor
}.
#[export] Instance eta_ProcessRuntime : Settable ProcessRuntime := mkSettable (λ x,
  mkProcessRuntime (rt_supervisors x) (rt_cmdOverride x) (rt_all x)).

Definition NewProcessRuntime : ProcessRuntime := mkProcessRuntime ∅ ∅ [].

Definition SetCommandOverride (nodeID : string) (cmd : list string) (r : ProcessRuntime)
    : ProcessRuntime :=
  r <| rt_cmdOverride := <[nodeID := cmd]> (rt_cmdOverride r) |>.

(** The supervisor under an identifier. *)
Definition managed (nodeID : string) (r : ProcessRuntime) : option (nat * supervisor) :=
  k ← rt_supervisors r !! nodeID; (λ sup, (k, sup)) <$> rt_all r !! k.

Definition nodeID_of (node : Node) : string := m_Name (n_Metadata node).

Section runtime.
(** The configuration, and [readChainIDFromGenesis]. *)
Context `{MapRange}.
Variable provider : option (string → option PluginRuntime).
Variable default_plugin : option PluginRuntime.
Variable readChainIDFromGenesis : string → string.

(** opts, then the provider, then the configuration. *)
Definition plugin_of (node : Node) (opts : StartOptions) : option PluginRuntime :=
  let by_provider := match provider with
                     | Some get => get (ns_Network (n_Spec node))
                     | None => None
                     end in
  match so_PluginRuntime opts with
  | Some p => Some p
  | None => match by_provider with Some p => Some p | None => default_plugin end
  end.

Definition start_command (node : Node) (plugin : option PluginRuntime) (r : ProcessRuntime)
    : list string :=
  let spec := n_Spec node in
  match rt_cmdOverride r !! nodeID_of node with
  | Some cmd => cmd
  | None =>
      match plugin with
      | Some p => ns_BinaryPath spec :: StartCommand p node
      | None =>
          let chainID := if bool_decide (ns_ChainID spec = "")
                         then readChainIDFromGenesis (ns_HomeDir spec) else ns_ChainID spec in
          [ns_BinaryPath spec; "start"; "--home"; ns_HomeDir spec] ++
          (if bool_decide (chainID ≠ "") then ["--chain-id"; chainID] else [])
      end
  end.

(** The environment of the plugin, overridden by that of the options. *)
Definition start_env (node : Node) (opts : StartOptions) (plugin : option PluginRuntime)
    : gmap string string :=
  let add env := foldl (λ env '(k, v), <[k := v]> env) env in
  add (add ∅ (match plugin with Some p => range (StartEnv p node) | None => [] end))
    (range (so_Env opts)).

Definition start_config (node : Node) (opts : StartOptions) (r : ProcessRuntime)
    : supervisorConfig :=
  let plugin := plugin_of node opts in
  mkSupervisorConfig (start_command node plugin r) (ns_HomeDir (n_Spec node))
    (start_env node opts plugin) (so_RestartPolicy opts)
    (match plugin with Some p => StopSignal p | None => SIGTERM end)
    (match plugin with Some p => GracePeriod p | None => (10 * second)%Z end) false.

(** A supervisor with its goroutine, under the identifier. *)
Definition add_supervisor (nodeID : string) (sup : supervisor) (r : ProcessRuntime)
    : ProcessRuntime :=
  r <| rt_supervisors := <[nodeID := length (rt_all r)]> (rt_supervisors r) |>
    <| rt_all := rt_all r ++ [sup] |>.

(** [StartNode]; [writer] is what the log manager answers. *)
Definition StartNode (writer : option error) (node : Node) (opts : StartOptions)
    (r : ProcessRuntime) : option error * ProcessRuntime :=
  let nodeID := nodeID_of node in
  let start r :=
    match writer with
    | Some e => (Some (Wrap "failed to create log writer" e), r)
    | None => (None, add_supervisor nodeID (newSupervisor (start_config node opts r)) r)
    end in
  match managed nodeID r with
  | Some (_, sup) =>
      if su_running sup
      then (Some (Errorf ("node " +:+ nodeID +:+ " is already running")), r)
      else start (r <| rt_supervisors := delete nodeID (rt_supervisors r) |>)
  | None => start r
  end.

(** A step of one supervisor. *)
Definition with_sup (k : nat) (f : supervisor → supervisor) (r : ProcessRuntime)
    : ProcessRuntime :=
  r <| rt_all := alter f k (rt_all r) |>.

(** [StopNode] up to the wait: an error, or the supervisor whose [stoppedCh] it
    then waits for. *)
Definition StopNode (nodeID : string) (graceful : bool) (r : ProcessRuntime)
    : result nat * ProcessRuntime :=
  match rt_supervisors r !! nodeID with
  | None => (Err (Errorf ("node " +:+ nodeID +:+ " not found")), r)
  | Some k => (Ok k, with_sup k (if graceful then close_stopCh else forceStop)
                       (r <| rt_supervisors := delete nodeID (rt_supervisors r) |>))
  end.

(** The wait is over. *)
Definition stop_returns (k : nat) (r : ProcessRuntime) : bool :=
  match rt_all r !! k with Some sup => su_stoppedCh sup | None => false end.

Definition RestartNode (nodeID : string) (r : ProcessRuntime) : option error * ProcessRuntime :=
  match managed nodeID r with
  | None => (Some (Errorf ("node " +:+ nodeID +:+ " not found")), r)
  | Some (k, sup) =>
      if su_running sup then (None, with_sup k stopProcess r)
      else (Some (Errorf ("node " +:+ nodeID +:+ " is not running")), r)
  end.

Definition GetNodeStatus (t : Time) (nodeID : string) (r : ProcessRuntime) : RtNodeStatus :=
  match managed nodeID r with
  | None => mkRtNodeStatus false 0 0 0 0 "" 0
  | Some (_, sup) => status t sup
  end.

(** [Detach]: every managed supervisor is detached and forgotten. *)
Definition Detach (r : ProcessRuntime) : ProcessRuntime :=
  foldl (λ r '(_, k), with_sup k (λ s, s <| su_detachMode := true |>) r) r
    (range (rt_supervisors r))
    <| rt_supervisors := ∅ |>.

(** What the operating system says of processes: [proc.Signal(0)],
    [readProcessCmdline] and the output of ps. *)
Record OS := mkOS {
  os_exists : Z → bool;
  os_cmdline : Z → result (list string);
  os_ps : Z → result string
}.

Definition validateProcessFallback (os : OS) (pid : Z) (node : Node) : bool :=
  match os_ps os pid with
  | Err _ => true
  | Ok cmdline =>
      let path := ns_BinaryPath (n_Spec node) in
      let home := ns_HomeDir (n_Spec node) in
      (bool_decide (path ≠ "") && contains cmdline path) ||
      (bool_decide (home ≠ "") && contains cmdline home)
  end.

Definition validateProcess (os : OS) (pid : Z) (node : Node) : bool :=
  match os_cmdline os pid with
  | Err _ | Ok [] => validateProcessFallback os pid node
  | Ok (arg0 :: args) =>
      let path := ns_BinaryPath (n_Spec node) in
      let home := ns_HomeDir (n_Spec node) in
      (bool_decide (path ≠ "") && contains arg0 path) ||
      (bool_decide (home ≠ "") && existsb (λ arg, contains arg home) (arg0 :: args))
  end.

Definition ReconnectNode (os : OS) (t : Time) (node : Node) (storedPID : Z)
    (r : ProcessRuntime) : bool * ProcessRuntime :=
  let nodeID := nodeID_of node in
  if bool_decide (is_Some (rt_supervisors r !! nodeID)) then (true, r)
  else if os_exists os storedPID && validateProcess os storedPID node
  then (true, add_supervisor nodeID (newMonitoringSupervisor storedPID t) r)
  else (false, r).

(** [ReconnectAll]: how many nodes were reconnected. *)
Definition ReconnectAll (os : OS) (t : Time) (nodes : list Node) (r : ProcessRuntime)
    : nat * ProcessRuntime :=
  foldl (λ '(count, r) node,
    if bool_decide (nst_PID (n_Status node) = 0%Z) ||
       bool_decide (nst_Phase (n_Status node) ≠ NodePhaseRunning)
    then (count, r)
    else let '(ok, r) := ReconnectNode os t node (nst_PID (n_Status node)) r in
         (if ok then S count else count, r)) (0, r) nodes.

(** A step of supervisor [k] among the others. *)
Definition sup_step (k : nat) (e : Event) (r : ProcessRuntime) : option ProcessRuntime :=
  sup ← rt_all r !! k;
  sup ← step e sup;
  Some (r <| rt_all := <[k := sup]> (rt_all r) |>).
End runtime.

Fixpoint sup_steps (l : list (nat * Event)) (r : ProcessRuntime) : option ProcessRuntime :=
  match l with
  | [] => Some r
  | (k, e) :: l => r ← sup_step k e r; sup_steps l r
  end.

(** ** Properties *)

Lemma managed_Some nodeID r k sup :
  managed nodeID r = Some (k, sup) ↔
    rt_supervisors r !! nodeID = Some k ∧ rt_all r !! k = Some sup.
Proof.
  unfold managed. destruct (rt_supervisors r !! nodeID) as [k0|]; simpl; [|naive_solver].
  destruct (rt_all r !! k0) eqn:E; simpl; naive_solver.
Qed.

Lemma managed_added nodeID sup r :
  managed nodeID (add_supervisor nodeID sup r) = Some (length (rt_all r), sup).
Proof.
  apply managed_Some. simpl. rewrite lookup_insert_eq, lookup_app_r, Nat.sub_diag by lia. done.
Qed.

(** Identifiers have supervisors of their own. *)
Definition rt_wf (r : ProcessRuntime) : Prop :=
  (∀ id k, rt_supervisors r !! id = Some k → k < length (rt_all r)) ∧
  ∀ id1 id2 k, rt_supervisors r !! id1 = Some k → rt_supervisors r !! id2 = Some k → id1 = id2.

Lemma rt_wf_add id sup r : rt_wf r → rt_wf (add_supervisor id sup r).
Proof.
  intros [Hlt Hinj]. split; simpl.
  - intros id' k Hk. rewrite length_app. simpl.
    apply lookup_insert_Some in Hk as [[_ <-]|[_ Hk]]; [lia|]. apply Hlt in Hk. lia.
  - intros id1 id2 k H1 H2. apply lookup_insert_Some in H1 as [[<- <-]|[_ H1]];
      apply lookup_insert_Some in H2 as [[<- E]|[_ H2]]; [done| | |by eapply Hinj].
    + apply Hlt in H2. lia.
    + subst k. apply Hlt in H1. lia.
Qed.

Lemma rt_wf_sub id r : rt_wf r → rt_wf (r <| rt_supervisors := delete id (rt_supervisors r) |>).
Proof.
  intros [Hlt Hinj]. split; simpl.
  - intros id' k [_ Hk]%lookup_delete_Some. eauto.
  - intros id1 id2 k [_ H1]%lookup_delete_Some [_ H2]%lookup_delete_Some. eauto.
Qed.

Section properties.
Context `{MapRange}.
Variable provider : option (string → option PluginRuntime).
Variable default_plugin : option PluginRuntime.
Variable readChainID : string → string.

Abbreviation StartNode := (StartNode provider default_plugin readChainID).

(** What a call that accepts the node does. *)
Lemma StartNode_accepts writer node opts r r' :
  rt_wf r → StartNode writer node opts r = (None, r') →
  writer = None ∧ rt_wf r' ∧ length (rt_all r') = S (length (rt_all r)) ∧
  (∀ k sup, managed (nodeID_of node) r = Some (k, sup) → su_running sup = false) ∧
  (∃ config, managed (nodeID_of node) r' = Some (length (rt_all r), newSupervisor config)) ∧
  (∀ j, j < length (rt_all r) → rt_all r' !! j = rt_all r !! j) ∧
  ∀ id, id ≠ nodeID_of node → rt_supervisors r' !! id = rt_supervisors r !! id.
Proof.
  intros Hwf. unfold ProcessRuntime.StartNode.
  destruct (managed (nodeID_of node) r) as [[k sup]|] eqn:Hm.
  - destruct (su_running sup) eqn:Hrun; [done|]. destruct writer as [e|]; [done|].
    intros [= <-]. split_and!; [done|by apply rt_wf_add, rt_wf_sub|simpl; rewrite length_app; simpl; lia|
      naive_solver|
      eexists; exact (managed_added _ _ (r <| rt_supervisors := delete _ (rt_supervisors r) |>))| |].
    + intros j Hj. simpl. by rewrite lookup_app_l.
    + intros id Hid. simpl. by rewrite lookup_insert_ne, lookup_delete_ne.
  - destruct writer as [e|]; [done|]. intros [= <-].
    split_and!; [done|by apply rt_wf_add|simpl; rewrite length_app; simpl; lia|
      done|eexists; apply managed_added| |].
    + intros j Hj. simpl. by rewrite lookup_app_l.
    + intros id Hid. simpl. by rewrite lookup_insert_ne.
Qed.

(** A node whose process runs is not started again: the call is refused and
    nothing changes. *)
Lemma StartNode_running writer node opts r k sup :
  managed (nodeID_of node) r = Some (k, sup) → su_running sup = true →
  StartNode writer node opts r =
    (Some (Errorf ("node " +:+ nodeID_of node +:+ " is already running")), r).
Proof. intros Hm Hr. unfold ProcessRuntime.StartNode. by rewrite Hm, Hr. Qed.

(** A node whose process crashed and waits for its restart is reported as
    not running, and a start accepts it: it takes the supervisor out of the map
    and leaves it waiting, so that its restart and the new supervisor run two
    processes of the node at once, of which only the new one can be reached. *)
Theorem StartNode_in_backoff_runs_two node opts r k sup d :
  rt_wf r → managed (nodeID_of node) r = Some (k, sup) → run_ok sup →
  su_turn sup = InBackoff d → asked_to_stop sup = false →
  (∀ t, rs_Running (GetNodeStatus t (nodeID_of node) r) = false) ∧
  ∃ r1 k', StartNode None node opts r = (None, r1) ∧ k' ≠ k ∧
  ∀ pid pid' t, ∃ r2 s s',
    sup_steps [(k', EHead (Ok (pid', t))); (k, ETimer); (k, EHead (Ok (pid, t)))] r1 = Some r2 ∧
    rt_supervisors r2 !! nodeID_of node = Some k' ∧
    (∀ id, rt_supervisors r2 !! id ≠ Some k) ∧
    rt_all r2 !! k = Some s ∧ su_running s = true ∧ su_pid s = pid ∧
    rt_all r2 !! k' = Some s' ∧ su_running s' = true ∧ su_pid s' = pid'.
Proof.
  intros Hwf Hm Hok Ht Hstop. pose proof Hm as [Hid Hk]%managed_Some.
  assert (Hrun : su_running sup = false).
  { destruct Hok as [_ Hok]. rewrite Ht in Hok. apply Hok. }
  split; [intros t; unfold GetNodeStatus; by rewrite Hm|].
  destruct (StartNode None node opts r) as [e r1] eqn:Hst.
  assert (e = None) as -> by (unfold ProcessRuntime.StartNode in Hst; rewrite Hm, Hrun in Hst;
    by injection Hst).
  destruct (StartNode_accepts _ _ _ _ _ Hwf Hst)
    as (_ & [Hlt1 Hinj1] & _ & _ & (config & [Hid1 Hk1]%managed_Some) & Hold & Hother).
  pose proof (lookup_lt_Some _ _ _ Hk) as Hlt. rewrite <- (Hold k Hlt) in Hk.
  exists r1, (length (rt_all r)). split; [done|]. split; [lia|]. intros pid pid' t.
  simpl. unfold sup_step. rewrite Hk1. simpl. rewrite list_lookup_insert_ne by lia.
  rewrite Hk. simpl. rewrite Ht. simpl. rewrite list_lookup_insert_eq by (by rewrite length_insert;
    eapply lookup_lt_Some, Hk). simpl.
  unfold run_head. change (asked_to_stop (sup <| su_turn := AtHead |>)) with (asked_to_stop sup).
  rewrite Hstop. simpl. eexists _, _, _. split; [reflexivity|]. simpl. split; [done|].
  split.
  { intros id Hid2. destruct (decide (id = nodeID_of node)) as [->|Hne]; [simplify_eq; lia|].
    rewrite Hother in Hid2 by done. destruct Hwf as [_ Hinj]. by apply Hne, (Hinj _ _ k). }
  rewrite list_lookup_insert_eq by (rewrite !length_insert; eapply lookup_lt_Some, Hk).
  rewrite !(list_lookup_insert_ne _ k) by lia. rewrite list_lookup_insert_eq by
    (eapply lookup_lt_Some, Hk1). split_and!; try done.
Qed.

(** A graceful stop forgets the node before its process has ended: while
    the stop still waits, the process lives on without a signal, the node is
    reported as not running, another stop is refused, a forced one included,
    and a start is accepted. *)
Theorem StopNode_forgets_before_exit nodeID r k sup i p :
  managed nodeID r = Some (k, sup) → run_ok sup → su_turn sup = InWait i →
  su_procs sup !! i = Some p → alive p = true →
  let '(answer, r') := StopNode nodeID true r in
  answer = Ok k ∧ stop_returns k r' = false ∧
  (∃ sup', rt_all r' !! k = Some sup' ∧ su_procs sup' = su_procs sup) ∧
  (∀ t, rs_Running (GetNodeStatus t nodeID r') = false) ∧
  (∀ graceful, StopNode nodeID graceful r' = (Err (Errorf ("node " +:+ nodeID +:+ " not found")), r')) ∧
  ∀ node opts, nodeID_of node = nodeID → (StartNode None node opts r').1 = None.
Proof.
  intros Hm Hok Ht Hp Ha. pose proof Hm as [Hid Hk]%managed_Some. unfold StopNode at 1. rewrite Hid.
  set (r' := with_sup _ _ _).
  assert (Hgone : rt_supervisors r' !! nodeID = None) by (simpl; by rewrite lookup_delete_eq).
  assert (Hk' : rt_all r' !! k = Some (close_stopCh sup))
    by (simpl; by rewrite list_lookup_alter_eq, Hk).
  assert (Hman : managed nodeID r' = None) by (unfold managed; by rewrite Hgone).
  split_and!.
  - done.
  - unfold stop_returns. rewrite Hk'. simpl. apply not_stopped; [done|by rewrite Ht].
  - by eexists.
  - intros t. unfold GetNodeStatus. by rewrite Hman.
  - intros g. unfold StopNode. by rewrite Hgone.
  - intros node opts <-. unfold ProcessRuntime.StartNode. by rewrite Hman.
Qed.

(** What reconnecting one node does. *)
Lemma ReconnectNode_wf os t node pid r :
  rt_wf r → rt_wf (ReconnectNode os t node pid r).2.
Proof.
  intros Hwf. unfold ReconnectNode. case_bool_decide; [done|].
  destruct (_ && _); [by apply rt_wf_add|done].
Qed.

(** The check against reused process identifiers does not tell the nodes of
    a network apart.  A node whose stored identifier now belongs to the process
    of another node that runs the same binary is reconnected to that process:
    the runtime then reports it as running with the other node's process. *)
Theorem reconnects_to_other_node os t node other pid r args :
  ns_BinaryPath (n_Spec node) = ns_BinaryPath (n_Spec other) →
  ns_BinaryPath (n_Spec other) ≠ "" →
  os_exists os pid = true → os_cmdline os pid = Ok (ns_BinaryPath (n_Spec other) :: args) →
  rt_supervisors r !! nodeID_of node = None →
  let '(ok, r') := ReconnectNode os t node pid r in
  ok = true ∧ ∀ t', rs_Running (GetNodeStatus t' (nodeID_of node) r') = true ∧
    rs_PID (GetNodeStatus t' (nodeID_of node) r') = pid.
Proof.
  intros Hpath Hne Hex Hcmd Hnone. unfold ReconnectNode.
  rewrite bool_decide_false by (rewrite Hnone; apply is_Some_None).
  assert (Hc : validateProcess os pid node = true).
  { unfold validateProcess. rewrite Hcmd, Hpath, bool_decide_true by done.
    by rewrite contains_self. }
  rewrite Hex, Hc. simpl. split; [done|]. intros t'. unfold GetNodeStatus.
  by rewrite managed_added.
Qed.
End properties.

(** *** Witnesses *)

#[local] Existing Instance some_order.

Definition ex_waiting : supervisor :=
  reached [EHead (Ok (100, 5)%Z); EExit 0 1; EReap "exit status 1" true] (newSupervisor ex_config).
Definition ex_up : supervisor := reached [EHead (Ok (100, 5)%Z)] (newSupervisor ex_config).
Definition ex_managing (sup : supervisor) : ProcessRuntime :=
  add_supervisor "d-0" sup NewProcessRuntime.
Definition ex_opts : StartOptions := mkStartOptions RtDefaultRestartPolicy ∅ None.

Lemma ex_waiting_steps :
  steps [EHead (Ok (100, 5)%Z); EExit 0 1; EReap "exit status 1" true] (newSupervisor ex_config) =
    Some ex_waiting.
Proof. vm_compute. reflexivity. Qed.
Lemma ex_up_steps : steps [EHead (Ok (100, 5)%Z)] (newSupervisor ex_config) = Some ex_up.
Proof. vm_compute. reflexivity. Qed.

Lemma ex_waiting_ok : run_ok ex_waiting.
Proof. exact (steps_run_ok _ _ _ (newSupervisor_ok ex_config) ex_waiting_steps). Qed.
Lemma ex_up_ok : run_ok ex_up.
Proof. exact (steps_run_ok _ _ _ (newSupervisor_ok ex_config) ex_up_steps). Qed.

Lemma ex_managing_wf sup : rt_wf (ex_managing sup).
Proof. apply rt_wf_add. split; simpl; [intros ?? H|intros ??? H]; by rewrite lookup_empty in H. Qed.

Lemma ex_managing_managed sup : managed "d-0" (ex_managing sup) = Some (0, sup).
Proof. exact (managed_added "d-0" sup NewProcessRuntime). Qed.

Lemma StartNode_in_backoff_runs_two_witness :
  ∃ r1 k', StartNode None None (λ _, "") None ex_node ex_opts (ex_managing ex_waiting) = (None, r1) ∧
  ∃ r2 s s', sup_steps [(k', EHead (Ok (102, 9)%Z)); (0, ETimer); (0, EHead (Ok (101, 9)%Z))] r1 = Some r2 ∧
    rt_all r2 !! 0 = Some s ∧ su_running s = true ∧
    rt_all r2 !! k' = Some s' ∧ su_running s' = true.
Proof.
  destruct (StartNode_in_backoff_runs_two None None (λ _, "") ex_node ex_opts
    (ex_managing ex_waiting) 0 ex_waiting (calculateBackoff 0 RtDefaultRestartPolicy)
    (ex_managing_wf _) (ex_managing_managed _) ex_waiting_ok ltac:(vm_compute; reflexivity)
    ltac:(vm_compute; reflexivity)) as (_ & r1 & k' & Hs & _ & Hrun).
  exists r1, k'. split; [exact Hs|].
  destruct (Hrun 101%Z 102%Z 9%Z) as (r2 & s & s' & Hst & _ & _ & Hk & Hr & _ & Hk' & Hr' & _).
  exists r2, s, s'. repeat (split; [assumption|]). exact Hr'.
Defined.

Lemma StopNode_forgets_before_exit_witness :
  let '(answer, r') := StopNode "d-0" true (ex_managing ex_up) in
  answer = Ok 0 ∧ stop_returns 0 r' = false ∧
  (StartNode None None (λ _, "") None ex_node ex_opts r').1 = None.
Proof.
  pose proof (StopNode_forgets_before_exit None None (λ _, "") "d-0" (ex_managing ex_up) 0 ex_up 0
    (mkProc 100 None []) (ex_managing_managed _) ex_up_ok ltac:(vm_compute; reflexivity)
    ltac:(vm_compute; reflexivity) eq_refl) as Ho.
  destruct (StopNode "d-0" true (ex_managing ex_up)) as [answer r'].
  destruct Ho as (Ha & Hr & _ & _ & _ & Hs).
  split; [exact Ha|]. split; [exact Hr|]. apply (Hs ex_node ex_opts). reflexivity.
Defined.

(** The process of d-1 has the identifier that d-0 had before. *)
Definition ex_os : OS :=
  mkOS (λ _, true) (λ _, Ok ["stabled"; "start"; "--home"; "/data/d-1"]) (λ _, Ok "").
Definition ex_d (i : string) : Node :=
  ex_node <| n_Metadata; m_Name := "d-" +:+ i |> <| n_Spec; ns_BinaryPath := "stabled" |>
          <| n_Spec; ns_HomeDir := "/data/d-" +:+ i |>.

Lemma reconnects_to_other_node_witness :
  let '(ok, r') := ReconnectNode ex_os 3 (ex_d "0") 7 NewProcessRuntime in
  ok = true ∧ rs_Running (GetNodeStatus 4 "d-0" r') = true.
Proof.
  pose proof (reconnects_to_other_node ex_os 3 (ex_d "0") (ex_d "1") 7 NewProcessRuntime
    ["start"; "--home"; "/data/d-1"] eq_refl ltac:(discriminate) eq_refl eq_refl
    ltac:(apply lookup_empty)) as Ho.
  destruct (ReconnectNode ex_os 3 (ex_d "0") 7 NewProcessRuntime) as [ok r'].
  split; [apply Ho|apply Ho].
Defined.
