(* ===== verification/DevnetController.v ===== *)
(** * The devnet controller ([internal/daemon/controller/devnet.go])

    [Reconcile] provisions a new devnet and follows its health.  The devnet it
    works on is an object it shares with the provisioner and with the progress
    callback, which write it while [Provision] runs: [ds_devnet] is that object,
    and the controller's steps are computations on [DState].  The provisioner is
    an interface ([Provisioner]), given the callback as an argument. *)

From stdpp Require Import base tactics numbers list strings gmap.
From S2P Require Import Prelude Types MemStore Store World NodeController ProvisionLogs.

(** Calls of the provisioner, with their answers. *)
Inductive DevnetCall :=
| CProvision (answer : option error)
| CGetStatus (answer : result DevnetStatus).

Record DState (S : Type) := mkDState {
  ds_world : World S DevnetCall;
  ds_devnet : Devnet;
  ds_logs : LogState
}.
Arguments mkDState {S}.
Arguments ds_world {S}.
Arguments ds_devnet {S}.
Arguments ds_logs {S}.
#[export] Instance eta_DState {S} : Settable (DState S) := mkSettable (λ x,
  mkDState (ds_world x) (ds_devnet x) (ds_logs x)).

(** [Provisioner], and [ProgressProvisioner] when [takes_callback]: what the
    controller calls of it. *)
Record Provisioner (S : Type) := mkProvisioner {
  Provision : option (string → string → M (DState S) unit) → M (DState S) (option error);
  GetStatus : M (DState S) (result DevnetStatus);
  takes_callback : bool
}.
Arguments Provision {S}.
Arguments GetStatus {S}.
Arguments takes_callback {S}.

Definition component : string := "devnet-controller".

(** [classifyProvisioningError]. *)
Definition classifyProvisioningError (err : error) : string * string :=
  let errStr := Error err in
  if contains errStr "image" && contains errStr "not found"
  then (ReasonImageNotFound, "Docker image not found: " +:+ errStr)
  else if contains errStr "credentials"
  then (ReasonCredentialsNotFound, "Credentials not found: " +:+ errStr)
  else if contains errStr "mode" && contains errStr "not supported"
  then (ReasonModeNotSupported, "Execution mode not supported: " +:+ errStr)
  else if contains errStr "binary" && contains errStr "not found"
  then (ReasonBinaryNotFound, "Binary not found: " +:+ errStr)
  else if contains errStr "container"
  then (ReasonContainerFailed, "Container operation failed: " +:+ errStr)
  else if contains errStr "network" || contains errStr "connection"
  then (ReasonNetworkError, "Network error: " +:+ errStr)
  else (ReasonProvisionFailed, "Provisioning failed: " +:+ errStr).

(** The reason and default message of a provisioning phase, if it has an
    event. *)
Definition progress_event (phase : string) : option (string * string) :=
  if bool_decide (phase = "Building")
  then Some (ReasonBinaryBuilding, "Building binary from source")
  else if bool_decide (phase = "Forking")
  then Some (ReasonGenesisFork, "Forking genesis from source")
  else if bool_decide (phase = "Initializing")
  then Some (ReasonNodesConfiguring, "Configuring node directories")
  else if bool_decide (phase = "Starting")
  then Some (ReasonNodesConfigured, "Node configuration complete, starting nodes")
  else None.

Section controller.
Context {S : Type} `{Store S}.
Variable provisioner : option (Provisioner S).
Variable has_manager : bool.

Abbreviation D := (M (DState S)).

(** A step on the store, clock, trace and queue. *)
Definition onW {A} (m : M (World S DevnetCall) A) : D A :=
  λ st, let '(a, w) := m (ds_world st) in (a, st <| ds_world := w |>).

Definition timeNow : D Time := onW now.

(** A write to the shared devnet. *)
Definition modify (f : Devnet → Devnet) : D unit :=
  modifyM (λ st, st <| ds_devnet := f (ds_devnet st) |>).

(** [devnet.Status.Conditions = types.SetCondition(...)]. *)
Definition set_condition (ty status reason message : string) : D unit :=
  do! t := timeNow in
  modify (λ d, d <| d_Status; dst_Conditions :=
    SetCondition t (dst_Conditions (d_Status d)) ty status reason message |>).

(** [devnet.Status.Events = append(..., types.NewEvent(...))]. *)
Definition add_event (eventType reason message : string) : D unit :=
  do! t := timeNow in
  modify (λ d, d <| d_Status; dst_Events :=
    dst_Events (d_Status d) ++ [NewEvent t eventType reason message component] |>).

Definition set_phase (phase message : string) : D unit :=
  modify (λ d, d <| d_Status; dst_Phase := phase |> <| d_Status; dst_Message := message |>).

(** [devnet.Metadata.UpdatedAt = time.Now()]. *)
Definition touch : D unit :=
  do! t := timeNow in modify (λ d, d <| d_Metadata; m_UpdatedAt := t |>).

(** [c.store.UpdateDevnet(ctx, devnet)]: the store writes the metadata of the
    shared devnet. *)
Definition save : D (option error) :=
  λ st, let '((e, d), w) := updateM UpdateDevnet (ds_devnet st) (ds_world st) in
        (e, st <| ds_world := w |> <| ds_devnet := d |>).

(** [broadcastLog] to the devnet's subscribers. *)
Definition broadcast (message phase : string) : D unit :=
  do! t := timeNow in
  modifyM (λ st, let m := d_Metadata (ds_devnet st) in
    st <| ds_logs := broadcastLog (m_Namespace m) (m_Name m)
            (mkProvisionLogEntry t "info" message phase "" "" 0 0 "" ""
               (SpecFloat.S754_zero false)) (ds_logs st) |>).

(** [handleProvisioningProgress]. *)
Definition handleProvisioningProgress (phase message : string) : D unit :=
  match progress_event phase with
  | None => done_with tt
  | Some (eventReason, eventMessage) =>
      let eventMessage := if bool_decide (message ≠ "") then message else eventMessage in
      run! add_event EventTypeNormal eventReason eventMessage in
      run! modify (λ d, d <| d_Status; dst_Message := eventMessage |>) in
      run! broadcast eventMessage phase in
      run! save in
      done_with tt
  end.

Definition emitNodeReadyEvent (nodeIndex : Z) : D unit :=
  let message := "Node " +:+ itoa nodeIndex +:+ " is ready" in
  run! add_event EventTypeNormal ReasonNodeReady message in
  broadcast message "NodeReady".

(** [provisioner.Provision], with the callback wired if it takes one. *)
Definition provision (p : Provisioner S) : D (option error) :=
  λ st, let '(e, st) := Provision p
          (if takes_callback p then Some handleProvisioningProgress else None) st in
        onW (call_out (λ _, e) CProvision) st.

Definition get_status (p : Provisioner S) : D (result DevnetStatus) :=
  λ st, let '(r, st) := GetStatus p st in onW (call_out (λ _, r) CGetStatus) st.

(** The nodes of the devnet are enqueued for the node controller. *)
Definition enqueue_nodes : D unit :=
  if has_manager then
    λ st,
      let m := d_Metadata (ds_devnet st) in
      let namespace := or_default (m_Namespace m) in
      onW (do! l := readM (ListNodes namespace (m_Name m)) in
           match l with
           | Err _ => done_with tt
           | Ok nodes => eachM nodes (λ node, enqueue "nodes"
               (NodeKeyWithNamespace namespace (ns_DevnetRef (n_Spec node))
                  (ns_Index (n_Spec node))))
           end) st
  else done_with tt.

(** [reconcileProvisioning] when [Provision] fails, up to the save. *)
Definition mark_failed (err : error) : D unit :=
  let '(reason, message) := classifyProvisioningError err in
  run! set_condition ConditionTypeProgressing ConditionFalse reason message in
  run! set_condition ConditionTypeDegraded ConditionTrue reason message in
  run! add_event EventTypeWarning reason message in
  run! set_phase PhaseDegraded ("Provisioning failed: " +:+ Error err) in
  touch.

Definition provisioning_failed (err : error) : D (option error) :=
  run! mark_failed err in save.

(** [n] of [n] nodes, in a message. *)
Definition of_total (n total : Z) (what : string) : string :=
  itoa n +:+ "/" +:+ itoa total +:+ what.

(** The rest of [reconcileProvisioning], up to the enqueueing. *)
Definition mark_running : D unit :=
  run! modify (λ d, d <| d_Status; dst_Nodes :=
    wrap64 (ds_Validators (d_Spec d) + ds_FullNodes (d_Spec d)) |>) in
  run! modify (λ d, d <| d_Status; dst_ReadyNodes := dst_Nodes (d_Status d) |>) in
  run! set_condition ConditionTypeProgressing ConditionFalse "ProvisioningComplete"
         "Provisioning completed successfully" in
  do! nodes := (λ st, (dst_Nodes (d_Status (ds_devnet st)), st)) in
  run! set_condition ConditionTypeNodesCreated ConditionTrue ReasonAllNodesReady
         (of_total nodes nodes " nodes created") in
  run! set_condition ConditionTypeReady ConditionTrue ReasonAllNodesReady
         (of_total nodes nodes " nodes ready") in
  run! add_event EventTypeNormal "ProvisioningComplete"
         ("Successfully provisioned " +:+ itoa nodes +:+ " nodes") in
  run! set_phase PhaseRunning "Devnet is running" in
  do! t := timeNow in
  run! modify (λ d, d <| d_Status; dst_LastHealthCheck := t |>) in
  touch.

Definition provisioning_done : D (option error) :=
  run! mark_running in
  run! enqueue_nodes in
  save.

Definition reconcileProvisioning : D (option error) :=
  match provisioner with
  | None => provisioning_done
  | Some p =>
      do! err := provision p in
      match err with
      | Some err => provisioning_failed err
      | None => provisioning_done
      end
  end.

(** [reconcilePending] goes on to [reconcileProvisioning]. *)
Definition reconcilePending : D (option error) :=
  run! set_condition ConditionTypeProgressing ConditionTrue ReasonProvisioning
         "Starting provisioning" in
  run! set_condition ConditionTypeReady ConditionFalse ReasonNodesNotReady
         "Waiting for nodes to be created" in
  do! validators := (λ st, (ds_Validators (d_Spec (ds_devnet st)), st)) in
  run! add_event EventTypeNormal ReasonProvisioning
         ("Starting provisioning for " +:+ itoa validators +:+ " validators") in
  run! set_phase PhaseProvisioning "Starting provisioning" in
  run! touch in
  do! err := save in
  match err with
  | Some e => done_with (Some (Wrap "failed to update devnet phase" e))
  | None => reconcileProvisioning
  end.

Definition reconcileRunning : D (option error) :=
  match provisioner with
  | None => done_with None
  | Some p =>
      do! r := get_status p in
      match r with
      | Err _ => done_with None
      | Ok status =>
          if bool_decide (dst_ReadyNodes status < dst_Nodes status)%Z then
            run! set_phase PhaseDegraded "Some nodes unhealthy" in
            run! modify (λ d, d <| d_Status; dst_ReadyNodes := dst_ReadyNodes status |>) in
            run! touch in
            save
          else
            do! t := timeNow in
            run! modify (λ d,
              d <| d_Status; dst_CurrentHeight := dst_CurrentHeight status |>
                <| d_Status; dst_ReadyNodes := dst_ReadyNodes status |>
                <| d_Status; dst_LastHealthCheck := t |>) in
            done_with None
      end
  end.

Definition reconcileDegraded : D (option error) :=
  match provisioner with
  | None => done_with None
  | Some p =>
      do! r := get_status p in
      match r with
      | Err _ => done_with None
      | Ok status =>
          if bool_decide (dst_Nodes status ≤ dst_ReadyNodes status)%Z then
            run! set_phase PhaseRunning "Devnet is running" in
            do! t := timeNow in
            run! modify (λ d, d <| d_Status; dst_ReadyNodes := dst_ReadyNodes status |>
                                <| d_Status; dst_LastHealthCheck := t |>) in
            run! touch in
            save
          else done_with None
      end
  end.

Definition reconcileStopped : D (option error) := done_with None.

(** The switch of [Reconcile] on the devnet's phase. *)
Definition reconcile_phase (phase : string) : D (option error) :=
  if bool_decide (phase = "") || bool_decide (phase = PhasePending) then reconcilePending
  else if bool_decide (phase = PhaseProvisioning) then reconcileProvisioning
  else if bool_decide (phase = PhaseRunning) then reconcileRunning
  else if bool_decide (phase = PhaseDegraded) then reconcileDegraded
  else if bool_decide (phase = PhaseStopped) then reconcileStopped
  else done_with None.

(** [Reconcile], on the store and on the controller's log subscribers. *)
Definition Reconcile (key : string) : M (World S DevnetCall * LogState) (option error) :=
  λ '(w, logs),
    let '(namespace, name) := parseDevnetKey key in
    match GetDevnet namespace name (w_store w) with
    | Err e => (if IsNotFound e then None else Some e, (w, logs))
    | Ok devnet =>
        let '(e, st) := reconcile_phase (dst_Phase (d_Status devnet))
                          (mkDState w devnet logs) in
        (e, (ds_world st, ds_logs st))
    end.
End controller.

(** ** What is asked of a provisioner *)

Section laws.
Context {S : Type} `{StoreSpec S}.
Implicit Types (st : DState S).

Definition dview st : view := store_view (w_store (ds_world st)).
Definition dphase (d : Devnet) : string := dst_Phase (d_Status d).

(** A step of the provisioner: it may change nodes, and the status of the
    shared devnet but its phase. *)
Definition env_step st st' : Prop :=
  (store_wf (w_store (ds_world st)) →
     store_wf (w_store (ds_world st')) ∧ v_devnets (dview st') = v_devnets (dview st) ∧
     v_upgrades (dview st') = v_upgrades (dview st) ∧ v_txs (dview st') = v_txs (dview st)) ∧
  d_Metadata (ds_devnet st') = d_Metadata (ds_devnet st) ∧
  d_Spec (ds_devnet st') = d_Spec (ds_devnet st) ∧
  dphase (ds_devnet st') = dphase (ds_devnet st) ∧
  w_trace (ds_world st') = w_trace (ds_world st) ∧
  w_enqueued (ds_world st') = w_enqueued (ds_world st).

(** [Provision] is made of such steps and of calls of the callback; [GetStatus]
    is such a step. *)
Class ProvisionerLaws (p : Provisioner S) := {
  Provision_inv : ∀ cb (I : DState S → Prop),
    (∀ st st', env_step st st' → I st → I st') →
    (∀ f phase message st, cb = Some f → I st → I (f phase message st).2) →
    ∀ st, I st → I (Provision p cb st).2;
  GetStatus_env : ∀ st, env_step st (GetStatus p st).2
}.
End laws.

(** ** The phase machine *)

(** The steps of a devnet's phase, each with exactly the calls it makes and the answer that
    justifies it; [pr] tells whether there is a provisioner. *)
Inductive devnet_trans (pr : bool) (calls : list DevnetCall) : string → string → Prop :=
| dt_start p : p = "" ∨ p = PhasePending → calls = [] → devnet_trans pr calls p PhaseProvisioning
| dt_provisioned : calls = (if pr then [CProvision None] else []) →
    devnet_trans pr calls PhaseProvisioning PhaseRunning
| dt_failed e : pr = true → calls = [CProvision (Some e)] →
    devnet_trans pr calls PhaseProvisioning PhaseDegraded
| dt_degraded s : pr = true → calls = [CGetStatus (Ok s)] → (dst_ReadyNodes s < dst_Nodes s)%Z →
    devnet_trans pr calls PhaseRunning PhaseDegraded
| dt_recovered s : pr = true → calls = [CGetStatus (Ok s)] → (dst_Nodes s ≤ dst_ReadyNodes s)%Z →
    devnet_trans pr calls PhaseDegraded PhaseRunning.

(** Nothing is due: the status, if there is a provisioner to ask, is an error or agrees with
    the phase; or the phase is Stopped or none of the machine. *)
Inductive devnet_rests (pr : bool) (calls : list DevnetCall) : string → Prop :=
| dr_alone p : pr = false → p = PhaseRunning ∨ p = PhaseDegraded → calls = [] → devnet_rests pr calls p
| dr_unanswered p e : pr = true → p = PhaseRunning ∨ p = PhaseDegraded →
    calls = [CGetStatus (Err e)] → devnet_rests pr calls p
| dr_running s : pr = true → calls = [CGetStatus (Ok s)] → (dst_Nodes s ≤ dst_ReadyNodes s)%Z →
    devnet_rests pr calls PhaseRunning
| dr_degraded s : pr = true → calls = [CGetStatus (Ok s)] → (dst_ReadyNodes s < dst_Nodes s)%Z →
    devnet_rests pr calls PhaseDegraded
| dr_other p : p ∉ [""; PhasePending; PhaseProvisioning; PhaseRunning; PhaseDegraded] → calls = [] →
    devnet_rests pr calls p.

(** What one reconcile that succeeds does to the phase. *)
Inductive devnet_step (pr : bool) (calls : list DevnetCall) (p p' : string) : Prop :=
| ds_rest : devnet_rests pr calls p → p' = p → devnet_step pr calls p p'
| ds_trans : devnet_trans pr calls p p' → p' ≠ PhaseProvisioning → devnet_step pr calls p p'
| ds_start : devnet_trans pr [] p PhaseProvisioning → devnet_trans pr calls PhaseProvisioning p' →
    devnet_step pr calls p p'.

(** What one that fails leaves: the phase as it was, or provisioning announced. *)
Definition devnet_failed_step (pr : bool) (p p' : string) : Prop :=
  p' = p ∨ (devnet_trans pr [] p PhaseProvisioning ∧ p' = PhaseProvisioning).

(** ** Reasoning about steps *)

Section hoare.
Context {S : Type} `{StoreSpec S}.
Implicit Types (st : DState S).

(** Each run from a state with [P] ends, with [a], in a state with [Q a]. *)
Definition hoare {A} (P : DState S → Prop) (m : M (DState S) A)
    (Q : A → DState S → Prop) : Prop :=
  ∀ st, P st → Q (m st).1 (m st).2.

Lemma hoare_bind {A B} P Q R (m : M (DState S) A) (k : A → M (DState S) B) :
  hoare P m Q → (∀ a, hoare (Q a) (k a) R) → hoare P (bindM m k) R.
Proof. intros Hm Hk st Hst. rewrite bindM_eq. apply Hk, Hm, Hst. Qed.

Lemma hoare_done {A} (a : A) (Q : A → DState S → Prop) : hoare (Q a) (done_with a) Q.
Proof. by intros st. Qed.

Lemma hoare_post {A} P (m : M (DState S) A) (Q Q' : A → DState S → Prop) :
  hoare P m Q → (∀ a st, Q a st → Q' a st) → hoare P m Q'.
Proof. intros Hm HQ st Hst. apply HQ, Hm, Hst. Qed.

(** The stored devnet [k] is in phase [p] and the shared object, of the same
    devnet, in phase [q]; the rest of the store is as in [v0] but for nodes.
    With [g], the object has the stored generation. *)
Definition held (v0 : view) (k : string) (sp : DevnetSpec) (g : bool)
    (tr : list DevnetCall) (p q : string) st : Prop :=
  store_wf (w_store (ds_world st)) ∧ w_trace (ds_world st) = tr ∧
  (devnet_id (ds_devnet st) = k ∧ d_Spec (ds_devnet st) = sp ∧ dphase (ds_devnet st) = q) ∧
  (v_upgrades (dview st) = v_upgrades v0 ∧ v_txs (dview st) = v_txs v0 ∧
   ∀ k', k' ≠ k → v_devnets (dview st) !! k' = v_devnets v0 !! k') ∧
  ∃ d, v_devnets (dview st) !! k = Some d ∧ d_Spec d = sp ∧ dphase d = p ∧
    (g = true → m_Generation (d_Metadata d) = m_Generation (d_Metadata (ds_devnet st))).

(** Steps that keep this. *)
Definition keeps {A} (m : M (DState S) A) : Prop :=
  ∀ v0 k sp g tr p q, hoare (held v0 k sp g tr p q) m (λ _, held v0 k sp g tr p q).

Lemma keeps_done {A} (a : A) : keeps (done_with a).
Proof. by intros v0 k sp g tr p q st Hst. Qed.

Lemma keeps_bind {A B} (m : M (DState S) A) (k : A → M (DState S) B) :
  keeps m → (∀ a, keeps (k a)) → keeps (bindM m k).
Proof. intros Hm Hk v0 k0 sp g tr p q. eapply hoare_bind; [apply Hm|intros a; apply Hk]. Qed.

Lemma keeps_onW {A} (m : M (World S DevnetCall) A) :
  (∀ w, w_store (m w).2 = w_store w ∧ w_trace (m w).2 = w_trace w) → keeps (onW m).
Proof.
  intros Hm v0 k sp g tr p q st (Hs & Ht & Hr). unfold onW.
  destruct (Hm (ds_world st)) as [E1 E2]. destruct (m (ds_world st)) as [a w].
  simpl in *. unfold held, dview in *. simpl. by rewrite E1, E2.
Qed.

Lemma keeps_read {A} (f : DState S → A) : keeps (λ st, (f st, st)).
Proof. by intros v0 k sp g tr p q st Hst. Qed.

(** Writes that keep the phase. *)
Lemma keeps_modify f :
  (∀ d, devnet_id (f d) = devnet_id d ∧ d_Spec (f d) = d_Spec d ∧ dphase (f d) = dphase d ∧
        m_Generation (d_Metadata (f d)) = m_Generation (d_Metadata d)) →
  keeps (modify f).
Proof.
  intros Hf v0 k sp g tr p q st (Hs & Ht & Hd & Hr). unfold modify, modifyM, held, dview in *.
  simpl. by destruct (Hf (ds_devnet st)) as (-> & -> & -> & ->).
Qed.

Lemma keeps_timeNow : keeps timeNow.
Proof. by apply keeps_onW. Qed.

Ltac keeps_go :=
  repeat first
    [ apply keeps_done | apply keeps_timeNow | apply keeps_read
    | apply keeps_bind; [|intros ?]
    | apply keeps_modify; by intros [] ].

Lemma keeps_set_condition ty s r m : keeps (set_condition ty s r m).
Proof. unfold set_condition. keeps_go. Qed.
Lemma keeps_add_event t r m : keeps (add_event t r m).
Proof. unfold add_event. keeps_go. Qed.
Lemma keeps_touch : keeps touch.
Proof. unfold touch. keeps_go. Qed.
Lemma keeps_broadcast m ph : keeps (broadcast m ph).
Proof. unfold broadcast. keeps_go. Qed.

Lemma eachM_store {A} (l : list A) (f : A → string * string) (w : World S DevnetCall) :
  let w' := (eachM l (λ x, enqueue (f x).1 (f x).2) w).2 in
  w_store w' = w_store w ∧ w_trace w' = w_trace w ∧
  w_enqueued w' = w_enqueued w ++ (f <$> l).
Proof.
  cbv zeta. rewrite eachM_enqueue. done.
Qed.

Lemma keeps_enqueue_nodes b : keeps (enqueue_nodes b).
Proof.
  unfold enqueue_nodes. destruct b; [|apply keeps_done].
  intros v0 k sp g tr p q st Hst. eapply keeps_onW; [|exact Hst].
  intros w. rewrite bindM_eq. simpl. destruct (ListNodes _ _ _) as [l|]; [|done].
  set (f := λ node, ("nodes", NodeKeyWithNamespace
    (or_default (m_Namespace (d_Metadata (ds_devnet st)))) (ns_DevnetRef (n_Spec node))
    (ns_Index (n_Spec node)))).
  by destruct (eachM_store l f w) as (? & ? & _).
Qed.

Lemma hoare_set_phase v0 k sp g tr p q ph msg :
  hoare (held v0 k sp g tr p q) (set_phase ph msg) (λ _, held v0 k sp g tr p ph).
Proof.
  intros st (Hs & Ht & (Hi & Hp & _) & Hr).
  exact (conj Hs (conj Ht (conj (conj Hi (conj Hp eq_refl)) Hr))).
Qed.

(** A save moves the stored phase to the object's, or fails and moves
    nothing. *)
Definition saves (g : bool) : Prop := ∀ v0 k sp tr p q,
  hoare (held v0 k sp g tr p q) save
    (λ e, held v0 k sp g tr (match e with None => q | Some _ => p end) q).

Lemma save_cases v0 k sp g tr p q st :
  held v0 k sp g tr p q st →
  let '(e, st') := save st in
  held v0 k sp (match e with None => true | Some _ => false end) tr
    (match e with None => q | Some _ => p end) q st' ∧
  d_Status (ds_devnet st') = d_Status (ds_devnet st) ∧
  w_enqueued (ds_world st') = w_enqueued (ds_world st) ∧
  (e = None → v_devnets (dview st') !! k = Some (ds_devnet st')).
Proof.
  intros (Hs & Ht & (Hi & Hp & Hq) & (Hu & Hx & Ho) & d & Hd & Hdp & Hdq & Hg).
  unfold save. rewrite updateM_eq. set (tm := w_clock _ _).
  pose proof (UpdateDevnet_same tm (ds_devnet st) (w_store (ds_world st))) as Hsame.
  destruct (UpdateDevnet tm _ _) as [[e d'] s'] eqn:U. simpl in *.
  destruct (UpdateDevnet_frame _ _ _ _ _ _ Hs U) as (Hs' & (Hn' & Hu' & Hx' & Ho') & He).
  assert (Hid : devnet_id d' = k) by (rewrite <- Hi; by apply key_same).
  destruct Hsame as (_ & Hsp & Hst). rewrite Hi in *.
  assert (Hheld : ∀ b, (∃ d, v_devnets (store_view s') !! k = Some d ∧ d_Spec d = sp ∧
      dphase d = (match e with None => q | Some _ => p end) ∧
      (b = true → m_Generation (d_Metadata d) = m_Generation (d_Metadata d'))) →
    held v0 k sp b tr (match e with None => q | Some _ => p end) q
      (st <| ds_world := ds_world st
            <| w_ticks := Datatypes.S (w_ticks (ds_world st)) |> <| w_store := s' |> |>
          <| ds_devnet := d' |>)).
  { intros b Hb. unfold held, dview in *. simpl.
    split_and!; [done|done|done|by rewrite Hsp|by unfold dphase; rewrite Hst|..|done];
      [congruence|congruence|]. intros k' Hk'. by rewrite Ho', Ho. }
  destruct e as [e|].
  - split_and!; [apply Hheld|done|done|done]. exists d. unfold dview in Hd. by rewrite He.
  - destruct He as (_ & _ & He).
    split_and!; [apply Hheld|done|done|done]. exists d'.
    split_and!; [done|by rewrite Hsp|by unfold dphase; rewrite Hst|done].
Qed.

Lemma saves_false : saves false.
Proof.
  intros v0 k sp tr p q st Hst. pose proof (save_cases _ _ _ _ _ _ _ _ Hst) as Hc.
  destruct (save st) as [[e|] st']; destruct Hc as [Hc _]; [done|].
  destruct Hc as (?&?&?&?& d &?&?&?&_). simpl. split_and!; naive_solver.
Qed.
End hoare.

#[export] Hint Resolve keeps_done keeps_bind keeps_timeNow keeps_read keeps_set_condition
  keeps_add_event keeps_touch keeps_broadcast keeps_enqueue_nodes : devnet.

(** Reason about the first step of a sequence. *)
Ltac hstep tac := eapply hoare_bind; [tac|intros ?; cbv beta].

Section rules.
Context {S : Type} `{StoreSpec S}.
Variable provisioner : option (Provisioner S).
Variable has_manager : bool.
Hypothesis Hprov : ∀ p, provisioner = Some p → ProvisionerLaws p.
Implicit Types (st : DState S).

Definition has_prov : bool := match provisioner with Some _ => true | None => false end.

(** Progress reports keep a devnet that is being provisioned. *)
Lemma hoare_progress g v0 k sp tr p phase msg :
  saves g → hoare (held v0 k sp g tr p p) (handleProvisioningProgress phase msg)
    (λ _, held v0 k sp g tr p p).
Proof.
  intros Hsv. unfold handleProvisioningProgress. destruct (progress_event phase) as [[r m]|];
    [|by apply keeps_done].
  hstep ltac:(apply keeps_add_event).
  hstep ltac:(apply keeps_modify; by intros []).
  hstep ltac:(apply keeps_broadcast).
  eapply hoare_bind; [apply Hsv|intros e]. intros st. by destruct e.
Qed.

Lemma held_env g v0 k sp tr p st st' :
  env_step st st' → held v0 k sp g tr p p st → held v0 k sp g tr p p st'.
Proof.
  intros (Hs' & Hm & Hsp & Hph & Ht & _) (Hs & Htr & (Hi & Hp & Hq) & (Hu & Hx & Ho) & d & Hd & Hr).
  destruct (Hs' Hs) as (Hwf & E1 & E2 & E3). unfold held.
  split; [done|]. split; [congruence|]. split.
  { unfold devnet_id in *. rewrite Hm. split_and!; [done|congruence|congruence]. }
  rewrite E1, E2, E3. split; [done|]. exists d. by rewrite Hm.
Qed.

Lemma hoare_provision g v0 k sp tr p prov `{!ProvisionerLaws prov} :
  saves g →
  hoare (held v0 k sp g tr p p) (provision prov)
    (λ e, held v0 k sp g (tr ++ [CProvision e]) p p).
Proof.
  intros Hsv st Hst. unfold provision.
  set (cb := if takes_callback prov then _ else None).
  assert (Hst' : held v0 k sp g tr p p (Provision prov cb st).2).
  { apply Provision_inv; [|intros f ph m st0 Hf|done].
    - intros st1 st2. apply held_env.
    - intros Hst0. subst cb. destruct (takes_callback prov); [|done]. injection Hf as Hf.
      rewrite <- Hf. by apply hoare_progress. }
  destruct (Provision prov cb st) as [e st']. simpl in *.
  destruct Hst' as (Hs & <- & Hr). exact (conj Hs (conj eq_refl Hr)).
Qed.

Lemma hoare_get_status g v0 k sp tr p prov `{!ProvisionerLaws prov} :
  hoare (held v0 k sp g tr p p) (get_status prov)
    (λ r, held v0 k sp g (tr ++ [CGetStatus r]) p p).
Proof.
  intros st Hst. unfold get_status.
  pose proof (held_env _ _ _ _ _ _ _ _ (GetStatus_env st) Hst) as Hst'.
  destruct (GetStatus prov st) as [r st']. simpl in *.
  destruct Hst' as (Hs & <- & Hr). exact (conj Hs (conj eq_refl Hr)).
Qed.

(** The end of each branch: the object goes to phase [ph] and is saved. *)
Lemma hoare_to_phase {A} g v0 k sp tr p q ph msg (rest : M (DState S) A) :
  saves g → keeps rest →
  hoare (held v0 k sp g tr p q)
    (run! set_phase ph msg in run! rest in run! touch in save)
    (λ e, held v0 k sp g tr (match e with None => ph | Some _ => p end) ph).
Proof.
  intros Hsv Hr. hstep ltac:(apply hoare_set_phase).
  hstep ltac:(apply Hr). hstep ltac:(apply keeps_touch).
  apply Hsv.
Qed.

Lemma hoare_mark_failed g v0 k sp tr p q err :
  hoare (held v0 k sp g tr p q) (mark_failed err) (λ _, held v0 k sp g tr p PhaseDegraded).
Proof.
  unfold mark_failed. destruct (classifyProvisioningError err) as [reason message].
  do 2 hstep ltac:(apply keeps_set_condition). hstep ltac:(apply keeps_add_event).
  hstep ltac:(apply hoare_set_phase). apply keeps_touch.
Qed.

Lemma hoare_mark_running g v0 k sp tr p q :
  hoare (held v0 k sp g tr p q) mark_running (λ _, held v0 k sp g tr p PhaseRunning).
Proof.
  unfold mark_running. do 2 hstep ltac:(apply keeps_modify; by intros []).
  hstep ltac:(apply keeps_set_condition). hstep ltac:(apply keeps_read).
  do 2 hstep ltac:(apply keeps_set_condition). hstep ltac:(apply keeps_add_event).
  hstep ltac:(apply hoare_set_phase). hstep ltac:(apply keeps_timeNow).
  hstep ltac:(apply keeps_modify; by intros []). apply keeps_touch.
Qed.

Lemma hoare_failed g v0 k sp tr p q err :
  saves g →
  hoare (held v0 k sp g tr p q) (provisioning_failed err)
    (λ e, held v0 k sp g tr (match e with None => PhaseDegraded | Some _ => p end)
            PhaseDegraded).
Proof. intros Hsv. hstep ltac:(apply hoare_mark_failed). apply Hsv. Qed.

Lemma hoare_done_running g v0 k sp tr p q :
  saves g →
  hoare (held v0 k sp g tr p q) (provisioning_done has_manager)
    (λ e, held v0 k sp g tr (match e with None => PhaseRunning | Some _ => p end)
            PhaseRunning).
Proof.
  intros Hsv. hstep ltac:(apply hoare_mark_running).
  hstep ltac:(apply keeps_enqueue_nodes). apply Hsv.
Qed.

(** Where a run from the trace [tr] ends: after one transition, or, with an error, in the
    phase it began in. *)
Definition ended v0 k sp tr p (e : option error) st : Prop := ∃ calls p' q,
  held v0 k sp false (tr ++ calls) p' q st ∧
  match e with
  | None => devnet_trans has_prov calls p p' ∧ p' ≠ PhaseProvisioning
  | Some _ => p' = p
  end.

(** The same along the whole machine. *)
Definition moved v0 k sp tr p (e : option error) st : Prop := ∃ calls p' q,
  held v0 k sp false (tr ++ calls) p' q st ∧
  match e with
  | None => devnet_step has_prov calls p p'
  | Some _ => devnet_failed_step has_prov p p'
  end.

Lemma ended_one v0 k sp tr calls p p' q (e : option error) st :
  held v0 k sp false (tr ++ calls) (match e with None => p' | Some _ => p end) q st →
  devnet_trans has_prov calls p p' → p' ≠ PhaseProvisioning → ended v0 k sp tr p e st.
Proof. intros Hst Ht Hp. eexists _, _, _. split; [exact Hst|]. by destruct e. Qed.

Lemma ended_moved v0 k sp tr p e st : ended v0 k sp tr p e st → moved v0 k sp tr p e st.
Proof.
  intros (calls & p' & q & Hst & He). exists calls, p', q. split; [done|].
  destruct e; [by left|]. destruct He. by apply ds_trans.
Qed.

Lemma moved_rest v0 k sp tr calls p q st :
  held v0 k sp false (tr ++ calls) p q st → devnet_rests has_prov calls p → moved v0 k sp tr p None st.
Proof. intros Hst Hr. eexists _, _, _. split; [exact Hst|]. by apply ds_rest. Qed.

Lemma hoare_provisioning v0 k sp tr :
  hoare (held v0 k sp false tr PhaseProvisioning PhaseProvisioning)
    (reconcileProvisioning provisioner has_manager)
    (ended v0 k sp tr PhaseProvisioning).
Proof.
  pose proof (saves_false (S:=S)) as Hsv. unfold reconcileProvisioning. pose proof Hprov as Hlaws.
  destruct provisioner as [prov|] eqn:Hp.
  - assert (Hpr : has_prov = true) by (unfold has_prov; by rewrite Hp).
    pose proof (Hlaws prov eq_refl). eapply hoare_bind; [by apply hoare_provision|intros [err|]].
    + eapply hoare_post; [by apply hoare_failed|]. intros e st Hst.
      eapply ended_one; [exact Hst|by eapply dt_failed|done].
    + eapply hoare_post; [by apply hoare_done_running|]. intros e st Hst.
      eapply ended_one; [exact Hst|apply dt_provisioned; by rewrite Hpr|done].
  - assert (Hpr : has_prov = false) by (unfold has_prov; by rewrite Hp).
    eapply hoare_post; [by apply hoare_done_running|]. intros e st Hst.
    rewrite <- (app_nil_r tr) in Hst. eapply ended_one; [exact Hst|apply dt_provisioned; by rewrite Hpr|done].
Qed.

Lemma hoare_pending v0 k sp tr p :
  p = "" ∨ p = PhasePending →
  hoare (held v0 k sp false tr p p) (reconcilePending provisioner has_manager)
    (moved v0 k sp tr p).
Proof.
  intros Hp. pose proof (saves_false (S:=S)) as Hsv. unfold reconcilePending.
  do 2 hstep ltac:(apply keeps_set_condition).
  eapply hoare_bind; [apply keeps_read|intros nodes].
  hstep ltac:(apply keeps_add_event).
  hstep ltac:(apply hoare_set_phase).
  hstep ltac:(apply keeps_touch).
  assert (Hstart : devnet_trans has_prov [] p PhaseProvisioning) by by apply dt_start.
  eapply hoare_bind; [apply Hsv|intros [e|]].
  - intros st Hst. exists [], p, PhaseProvisioning. rewrite app_nil_r. split; [done|]. by left.
  - eapply hoare_post; [apply hoare_provisioning|].
    intros e st (calls & p' & q & Hst & He). exists calls, p', q. split; [done|].
    destruct e as [e|]; [subst p'; by right|]. destruct He. by apply ds_start.
Qed.

Lemma hoare_running v0 k sp tr :
  hoare (held v0 k sp false tr PhaseRunning PhaseRunning) (reconcileRunning provisioner)
    (moved v0 k sp tr PhaseRunning).
Proof.
  pose proof (saves_false (S:=S)) as Hsv. unfold reconcileRunning. pose proof Hprov as Hlaws.
  destruct provisioner as [prov|] eqn:Hp.
  2: { intros st Hst. rewrite <- (app_nil_r tr) in Hst. eapply moved_rest; [exact Hst|].
       apply dr_alone; auto. unfold has_prov. by rewrite Hp. }
  assert (Hpr : has_prov = true) by (unfold has_prov; by rewrite Hp).
  pose proof (Hlaws prov eq_refl).
  eapply hoare_bind; [by apply hoare_get_status|intros [s|e]].
  2: { intros st Hst. eapply moved_rest; [exact Hst|]. eapply dr_unanswered; auto. }
  case_bool_decide as Hr.
  - eapply hoare_post; [apply hoare_to_phase; [done|]; apply keeps_modify; by intros []|].
    intros e st Hst. apply ended_moved. eapply ended_one; [exact Hst|by eapply dt_degraded|done].
  - eapply hoare_bind; [apply keeps_timeNow|intros t].
    hstep ltac:(apply keeps_modify; by intros []).
    intros st Hst. eapply moved_rest; [exact Hst|]. eapply dr_running; [done..|lia].
Qed.

Lemma hoare_degraded v0 k sp tr :
  hoare (held v0 k sp false tr PhaseDegraded PhaseDegraded) (reconcileDegraded provisioner)
    (moved v0 k sp tr PhaseDegraded).
Proof.
  pose proof (saves_false (S:=S)) as Hsv. unfold reconcileDegraded. pose proof Hprov as Hlaws.
  destruct provisioner as [prov|] eqn:Hp.
  2: { intros st Hst. rewrite <- (app_nil_r tr) in Hst. eapply moved_rest; [exact Hst|].
       apply dr_alone; auto. unfold has_prov. by rewrite Hp. }
  assert (Hpr : has_prov = true) by (unfold has_prov; by rewrite Hp).
  pose proof (Hlaws prov eq_refl).
  eapply hoare_bind; [by apply hoare_get_status|intros [s|e]].
  2: { intros st Hst. eapply moved_rest; [exact Hst|]. eapply dr_unanswered; auto. }
  case_bool_decide as Hr.
  2: { intros st Hst. eapply moved_rest; [exact Hst|]. eapply dr_degraded; [done..|lia]. }
  hstep ltac:(apply hoare_set_phase).
  eapply hoare_bind; [apply keeps_timeNow|intros t].
  hstep ltac:(apply keeps_modify; by intros []).
  hstep ltac:(apply keeps_touch).
  eapply hoare_post; [apply Hsv|]. intros e st Hst. apply ended_moved.
  eapply ended_one; [exact Hst|by eapply dt_recovered|done].
Qed.

Lemma hoare_phase v0 k sp tr p :
  hoare (held v0 k sp false tr p p) (reconcile_phase provisioner has_manager p)
    (moved v0 k sp tr p).
Proof.
  unfold reconcile_phase.
  destruct (bool_decide (p = "") || bool_decide (p = PhasePending)) eqn:Hp.
  { apply hoare_pending. rewrite orb_true_iff, !bool_decide_eq_true in Hp. done. }
  apply orb_false_iff in Hp as [H1%bool_decide_eq_false H2%bool_decide_eq_false].
  case_bool_decide as H3.
  { subst p. eapply hoare_post; [apply hoare_provisioning|]. intros e st. apply ended_moved. }
  case_bool_decide as H4; [subst p; apply hoare_running|].
  case_bool_decide as H5; [subst p; apply hoare_degraded|].
  assert (Hr : devnet_rests has_prov [] p).
  { apply dr_other; [|done]. rewrite !not_elem_of_cons. split_and!; [done..|]. apply not_elem_of_nil. }
  unfold reconcileStopped.
  case_bool_decide; intros st Hst; (eapply moved_rest; [|exact Hr]); by rewrite app_nil_r.
Qed.
End rules.

(** ** What provisioning leaves *)

(** The devnet a successful provisioning saves. *)
Definition provisioned (d : Devnet) : Prop :=
  dphase d = PhaseRunning ∧
  dst_Nodes (d_Status d) = wrap64 (ds_Validators (d_Spec d) + ds_FullNodes (d_Spec d)) ∧
  dst_ReadyNodes (d_Status d) = dst_Nodes (d_Status d) ∧
  IsConditionFalse (dst_Conditions (d_Status d)) ConditionTypeProgressing = true ∧
  IsConditionTrue (dst_Conditions (d_Status d)) ConditionTypeNodesCreated = true ∧
  IsConditionTrue (dst_Conditions (d_Status d)) ConditionTypeReady = true.

(** The devnet saved after a provisioning error. *)
Definition failed_with (err : error) (d : Devnet) : Prop :=
  dphase d = PhaseDegraded ∧
  dst_Message (d_Status d) = "Provisioning failed: " +:+ Error err ∧
  IsConditionFalse (dst_Conditions (d_Status d)) ConditionTypeProgressing = true ∧
  IsConditionTrue (dst_Conditions (d_Status d)) ConditionTypeDegraded = true ∧
  (c_Reason <$> GetCondition (dst_Conditions (d_Status d)) ConditionTypeDegraded) =
    Some (classifyProvisioningError err).1.

Section objects.
Context {S : Type} `{StoreSpec S}.
Implicit Types (st : DState S).

Ltac conditions :=
  unfold IsConditionTrue, IsConditionFalse;
  repeat (rewrite SetCondition_get_ne by discriminate);
  rewrite SetCondition_get; reflexivity.

Lemma mark_running_object st :
  let st' := (mark_running st).2 in
  provisioned (ds_devnet st') ∧ d_Spec (ds_devnet st') = d_Spec (ds_devnet st) ∧
  FullName (d_Metadata (ds_devnet st')) = FullName (d_Metadata (ds_devnet st)) ∧
  m_Namespace (d_Metadata (ds_devnet st')) = m_Namespace (d_Metadata (ds_devnet st)) ∧
  m_Name (d_Metadata (ds_devnet st')) = m_Name (d_Metadata (ds_devnet st)).
Proof.
  destruct st as [w [m sp s] l]. unfold provisioned. simpl. split_and!; try reflexivity; conditions.
Qed.

Lemma mark_failed_object err st :
  let st' := (mark_failed err st).2 in
  failed_with err (ds_devnet st').
Proof.
  destruct st as [w [m sp s] l]. unfold failed_with, mark_failed.
  destruct (classifyProvisioningError err) as [reason message]. simpl.
  split_and!; try reflexivity; try conditions.
Qed.

(** The keys of the devnet's nodes are enqueued. *)
Lemma enqueue_nodes_spec ns name nodes st :
  m_Namespace (d_Metadata (ds_devnet st)) = ns → m_Name (d_Metadata (ds_devnet st)) = name →
  ListNodes (or_default ns) name (w_store (ds_world st)) = Ok nodes →
  let st' := (enqueue_nodes true st).2 in
  w_enqueued (ds_world st') = w_enqueued (ds_world st) ++
    ((λ n, ("nodes", NodeKeyWithNamespace (or_default ns) (ns_DevnetRef (n_Spec n))
                       (ns_Index (n_Spec n)))) <$> nodes).
Proof.
  intros <- <- Hl. unfold enqueue_nodes, onW. rewrite bindM_eq. simpl. rewrite Hl.
  pose proof (eachM_store nodes (λ n, ("nodes", NodeKeyWithNamespace
    (or_default (m_Namespace (d_Metadata (ds_devnet st)))) (ns_DevnetRef (n_Spec n))
    (ns_Index (n_Spec n)))) (ds_world st)) as (_ & _ & E). simpl in E.
  destruct (eachM _ _ _) as [u w]. exact E.
Qed.

Lemma enqueue_nodes_object b st : ds_devnet (enqueue_nodes b st).2 = ds_devnet st.
Proof.
  unfold enqueue_nodes, onW. destruct b; [|done]. by destruct (bindM _ _ _).
Qed.
End objects.

(** A save on a live store succeeds when the object has the stored
    generation. *)
Lemma devnet_save_live {S : Type} `{StoreLive S} v0 k sp tr p q (st : DState S) :
  held v0 k sp true tr p q st → (save st).1 = None.
Proof.
  intros (Hs & _ & (Hi & _) & _ & d & Hd & _ & _ & Hg). unfold save. rewrite updateM_eq.
  pose proof (UpdateDevnet_live (w_clock (ds_world st) (w_ticks (ds_world st)))
    (ds_devnet st) d (w_store (ds_world st)) Hs) as Hl.
  rewrite Hi in Hl. specialize (Hl Hd (Hg eq_refl)). simpl in *.
  by destruct (UpdateDevnet _ _ _) as [[e d'] s'].
Qed.

Lemma saves_true {S : Type} `{StoreLive S} : saves (S:=S) true.
Proof.
  intros v0 k sp tr p q st Hst. pose proof (devnet_save_live _ _ _ _ _ _ _ Hst) as He.
  pose proof (save_cases _ _ _ _ _ _ _ _ Hst) as Hc.
  destruct (save st) as [e st']. simpl in *. subst e. by destruct Hc as [Hc _].
Qed.

(** The last save of a run on a live store. *)
Lemma save_last {S : Type} `{StoreLive S} v0 k sp tr p q (st : DState S) :
  held v0 k sp true tr p q st →
  let '(e, st') := save st in
  e = None ∧ held v0 k sp true tr q q st' ∧
  v_devnets (dview st') !! k = Some (ds_devnet st') ∧
  d_Status (ds_devnet st') = d_Status (ds_devnet st) ∧
  d_Spec (ds_devnet st') = d_Spec (ds_devnet st) ∧
  w_enqueued (ds_world st') = w_enqueued (ds_world st).
Proof.
  intros Hst. pose proof (devnet_save_live _ _ _ _ _ _ _ Hst) as He.
  pose proof (save_cases _ _ _ _ _ _ _ _ Hst) as Hc.
  assert (Hsp : d_Spec (ds_devnet (save st).2) = d_Spec (ds_devnet st)).
  { unfold save. rewrite updateM_eq. simpl.
    pose proof (UpdateDevnet_same (w_clock (ds_world st) (w_ticks (ds_world st)))
      (ds_devnet st) (w_store (ds_world st))) as (_ & Hsp & _).
    by destruct (UpdateDevnet _ _ _) as [[e d'] s']. }
  destruct (save st) as [e st']. simpl in *. subst e.
  destruct Hc as (Hh & Hst' & He & Hd). split_and!; auto.
Qed.

(** ** What the devnet controller guarantees *)

Section properties.
Context {S : Type} `{StoreSpec S}.
Variable provisioner : option (Provisioner S).
Variable has_manager : bool.
Hypothesis Hprov : ∀ p, provisioner = Some p → ProvisionerLaws p.
Implicit Types (w : World S DevnetCall) (logs : LogState).

(** The state a reconcile of the stored devnet [d] starts from. *)
Lemma held_start k d w logs :
  store_wf (w_store w) → v_devnets (store_view (w_store w)) !! k = Some d →
  held (store_view (w_store w)) k (d_Spec d) true (w_trace w) (dphase d) (dphase d)
    (mkDState w d logs).
Proof.
  intros Hs Hd. destruct (store_keys _ Hs) as (Hk & _).
  unfold held, dview. simpl. split_and!; [done|done|by rewrite (Hk _ _ Hd)|done..|].
  by exists d.
Qed.

Lemma held_weaken v0 k sp g tr p q (st : DState S) :
  held v0 k sp g tr p q st → held v0 k sp false tr p q st.
Proof. intros (?&?&?&?& d &?&?&?&_). unfold held. split_and!; naive_solver. Qed.

(** C10: refinement: with a provisioner that touches nodes only, one [Reconcile], on any
    store, whatever the provisioner answers, keeps the store well formed and changes no
    devnet but the one of its key, and never its spec.  If it succeeds, the phase of that
    devnet did what [devnet_step] says, with exactly the calls of that step on the
    provisioner: a devnet that was to be provisioned becomes Running only after a [Provision]
    without an error, or if there is no provisioner, and Degraded only after one with an
    error; a Running one becomes
    Degraded, and a Degraded one Running, on a status that counts fewer ready nodes than
    nodes, or not fewer.  If it fails, the phase is as before or Provisioning. *)
Theorem Reconcile_refines_devnet_trans key w logs :
  store_wf (w_store w) →
  let '(e, (w', _)) := Reconcile provisioner has_manager key (w, logs) in
  let v := store_view (w_store w) in
  let v' := store_view (w_store w') in
  let k := qualified (parseDevnetKey key).1 (parseDevnetKey key).2 in
  store_wf (w_store w') ∧ v_upgrades v' = v_upgrades v ∧ v_txs v' = v_txs v ∧
  (∀ k', k' ≠ k → v_devnets v' !! k' = v_devnets v !! k') ∧
  ∃ calls, w_trace w' = w_trace w ++ calls ∧
  match v_devnets v !! k with
  | None => v_devnets v' !! k = None ∧ calls = []
  | Some d => ∃ d', v_devnets v' !! k = Some d' ∧ d_Spec d' = d_Spec d ∧
      match e with
      | None => devnet_step (has_prov provisioner) calls (dphase d) (dphase d')
      | Some _ => devnet_failed_step (has_prov provisioner) (dphase d) (dphase d')
      end
  end.
Proof.
  intros Hs. unfold Reconcile.
  destruct (parseDevnetKey key) as [ns name]. cbn [fst snd].
  pose proof (GetDevnet_spec ns name (w_store w) Hs) as Hg. unfold get_spec in Hg.
  destruct (v_devnets _ !! qualified ns name) as [d|] eqn:Hd; rewrite ?Hg.
  2: { destruct Hg as (e & -> & _). simpl. split_and!; [done..|]. exists [].
       by rewrite app_nil_r. }
  pose proof (hoare_phase provisioner has_manager Hprov _ _ _ _ _ _
    (held_weaken _ _ _ _ _ _ _ _ (held_start _ _ _ logs Hs Hd))) as Hm.
  change (dst_Phase (d_Status d)) with (dphase d).
  destruct (reconcile_phase _ _ _ _) as [e st]. simpl in *.
  destruct Hm as (calls & p' & q & (Hs' & Ht & _ & (Hu & Hx & Ho) & d' & Hd' & Hsp & <- & _) & Hr).
  unfold dview in *. split_and!; [done..|]. exists calls. split; [done|].
  by exists d'.
Qed.
End properties.

Section live.
Context {S : Type} `{StoreLive S}.
Variable provisioner : option (Provisioner S).
Variable has_manager : bool.
Hypothesis Hprov : ∀ p, provisioner = Some p → ProvisionerLaws p.
Implicit Types (w : World S DevnetCall) (logs : LogState).

(** What [Provision] answered, [None] if there is no provisioner. *)
Definition answered (tr tr' : list DevnetCall) (r : option error) : Prop :=
  match provisioner with
  | None => tr' = tr ∧ r = None
  | Some _ => tr' = tr ++ [CProvision r]
  end.

(** The devnet stored at the end. *)
Definition provision_result (r : option error) (d : Devnet) : Prop :=
  match r with None => provisioned d | Some err => failed_with err d end.

Lemma status_result r d d' :
  d_Status d' = d_Status d → d_Spec d' = d_Spec d →
  provision_result r d → provision_result r d'.
Proof.
  intros Hst Hsp. unfold provision_result, provisioned, failed_with, dphase.
  rewrite Hst, Hsp. by destruct r.
Qed.

(** The end of a provisioning. *)
Definition settled v0 k sp tr0 (out : option error * DState S) : Prop :=
  out.1 = None ∧ ∃ r d', v_devnets (dview out.2) !! k = Some d' ∧ d_Spec d' = sp ∧
    answered tr0 (w_trace (ds_world out.2)) r ∧ provision_result r d' ∧
    (∀ k', k' ≠ k → v_devnets (dview out.2) !! k' = v_devnets v0 !! k').

Lemma save_settled v0 k sp tr0 tr p q r (st : DState S) :
  held v0 k sp true tr p q st → answered tr0 tr r → provision_result r (ds_devnet st) →
  settled v0 k sp tr0 (save st).
Proof.
  intros Hst Ha Hr. pose proof (save_last _ _ _ _ _ _ _ Hst) as Hl.
  destruct (save st) as [e st']. destruct Hl as (-> & Hh & Hd & Hst' & Hsp & _).
  destruct Hh as (_ & Ht & (_ & Hsp' & _) & (_ & _ & Ho) & _).
  split; [done|]. exists r, (ds_devnet st'). simpl. rewrite Ht.
  split_and!; [done|done|done| |done]. by apply (status_result r (ds_devnet st)).
Qed.

Lemma provisioning_settled v0 k sp tr (st : DState S) :
  held v0 k sp true tr PhaseProvisioning PhaseProvisioning st →
  settled v0 k sp tr (reconcileProvisioning provisioner has_manager st).
Proof.
  assert (Hdone : ∀ tr' (st : DState S),
    held v0 k sp true tr' PhaseProvisioning PhaseProvisioning st → answered tr tr' None →
    settled v0 k sp tr (provisioning_done has_manager st)).
  { intros tr' st0 Hst0 Ha. unfold provisioning_done. rewrite !bindM_eq.
    eapply save_settled; [|exact Ha|].
    - eapply keeps_enqueue_nodes. by eapply hoare_mark_running.
    - rewrite enqueue_nodes_object. exact (proj1 (mark_running_object _)). }
  intros Hst. unfold reconcileProvisioning. pose proof Hprov as Hlaws.
  unfold answered in *. unfold settled, answered in *.
  destruct provisioner as [prov|] eqn:Hp; [|by apply (Hdone tr)].
  pose proof (Hlaws prov eq_refl). rewrite bindM_eq.
  pose proof (hoare_provision true _ _ _ _ _ prov saves_true st Hst) as Hpr.
  destruct (provision prov st) as [[err|] st1]; cbn [fst snd] in *; [|by eapply Hdone].
  unfold provisioning_failed. rewrite bindM_eq.
  pose proof (save_settled v0 k sp tr (tr ++ [CProvision (Some err)]) PhaseProvisioning
    PhaseDegraded (Some err) (mark_failed err st1).2) as Hsv.
  unfold settled, answered in Hsv. rewrite Hp in Hsv. apply Hsv; [|done|].
  - by eapply hoare_mark_failed.
  - apply mark_failed_object.
Qed.

(** Reconciling a devnet that is not provisioned settles it. *)
Lemma reconcile_provisions key ns name d w logs :
  store_wf (w_store w) → parseDevnetKey key = (ns, name) →
  v_devnets (store_view (w_store w)) !! qualified ns name = Some d →
  dphase d ∈ [""; PhasePending; PhaseProvisioning] →
  let '(e, (w', _)) := Reconcile provisioner has_manager key (w, logs) in
  e = None ∧ ∃ r d',
    v_devnets (store_view (w_store w')) !! qualified ns name = Some d' ∧
    d_Spec d' = d_Spec d ∧ answered (w_trace w) (w_trace w') r ∧ provision_result r d' ∧
    ∀ k, k ≠ qualified ns name → v_devnets (store_view (w_store w')) !! k =
                                 v_devnets (store_view (w_store w)) !! k.
Proof.
  intros Hs Hk Hd Hp. unfold Reconcile. rewrite Hk.
  pose proof (GetDevnet_spec ns name (w_store w) Hs) as Hg. unfold get_spec in Hg.
  rewrite Hd in Hg. rewrite Hg.
  pose proof (held_start _ _ _ logs Hs Hd) as Hst. change (dst_Phase (d_Status d)) with (dphase d).
  assert (Hend : settled (store_view (w_store w)) (qualified ns name) (d_Spec d) (w_trace w)
    (reconcile_phase provisioner has_manager (dphase d) (mkDState w d logs))).
  { rewrite !elem_of_cons, elem_of_nil in Hp.
    assert (Hpend : dphase d = "" ∨ dphase d = PhasePending ∨ dphase d = PhaseProvisioning)
      by tauto. unfold reconcile_phase.
    destruct (bool_decide (dphase d = "") || bool_decide (dphase d = PhasePending)) eqn:Hb.
    - unfold reconcilePending. rewrite !bindM_eq. cbn [fst snd].
      match goal with |- settled _ _ _ _ (match (save ?s).1 with _ => _ end _) =>
        assert (Hh : held (store_view (w_store w)) (qualified ns name) (d_Spec d) true
          (w_trace w) (dphase d) PhaseProvisioning s) end.
      { apply keeps_touch. eapply hoare_set_phase. apply keeps_add_event.
        apply keeps_set_condition. apply keeps_set_condition. exact Hst. }
      pose proof (save_last _ _ _ _ _ _ _ Hh) as Hl.
      destruct (save _) as [e st1]. destruct Hl as (-> & Hl & _). by apply provisioning_settled.
    - destruct Hpend as [Hph|[Hph|Hph]]; rewrite Hph in *; [done|done|].
      by apply provisioning_settled. }
  destruct (reconcile_phase _ _ _ _) as [e st]. exact Hend.
Qed.

(** On a live store, reconciling a stored devnet that is new, Pending or
    Provisioning finishes in that one call without an error: the stored devnet
    is Running with its conditions Ready and NodesCreated True and
    Validators+FullNodes nodes when [Provision] succeeded, and Degraded with
    the classified reason and the error in its message when it failed; no
    other devnet changes. *)
Theorem Reconcile_provisions key ns name d w logs :
  store_wf (w_store w) → parseDevnetKey key = (ns, name) →
  v_devnets (store_view (w_store w)) !! qualified ns name = Some d →
  dphase d ∈ [""; PhasePending; PhaseProvisioning] →
  let '(e, (w', _)) := Reconcile provisioner has_manager key (w, logs) in
  e = None ∧ ∃ r d',
    v_devnets (store_view (w_store w')) !! qualified ns name = Some d' ∧
    d_Spec d' = d_Spec d ∧ answered (w_trace w) (w_trace w') r ∧ provision_result r d' ∧
    ∀ k, k ≠ qualified ns name → v_devnets (store_view (w_store w')) !! k =
                                 v_devnets (store_view (w_store w)) !! k.
Proof. apply reconcile_provisions. Qed.
End live.

Section unsaved.
Context {S : Type} `{StoreSpec S}.

(** When a Running devnet is found healthy, the status the provisioner
    reported is written to the object and dropped: no devnet of the store
    changes, so a block height is never recorded. *)
Theorem healthy_status_is_not_saved (prov : Provisioner S) `{!ProvisionerLaws prov}
    has_manager key ns name d w logs :
  store_wf (w_store w) → parseDevnetKey key = (ns, name) →
  v_devnets (store_view (w_store w)) !! qualified ns name = Some d →
  dphase d = PhaseRunning →
  (∀ st, ∃ s, (GetStatus prov st).1 = Ok s ∧ (dst_Nodes s ≤ dst_ReadyNodes s)%Z) →
  let '(e, (w', _)) := Reconcile (Some prov) has_manager key (w, logs) in
  e = None ∧ v_devnets (store_view (w_store w')) = v_devnets (store_view (w_store w)).
Proof.
  intros Hs Hk Hd Hp Hgs. unfold Reconcile. rewrite Hk.
  pose proof (GetDevnet_spec ns name (w_store w) Hs) as Hg. unfold get_spec in Hg.
  rewrite Hd in Hg. rewrite Hg. change (dst_Phase (d_Status d)) with (dphase d). rewrite Hp.
  unfold reconcile_phase. cbn [orb]. do 4 (rewrite ?bool_decide_false by discriminate).
  cbn [orb]. rewrite bool_decide_true by done. unfold reconcileRunning, get_status, bindM at 1.
  set (st0 := mkDState w d logs). pose proof (GetStatus_env st0) as (Henv & _).
  destruct (Hgs st0) as (s & Hok & Hle). destruct (GetStatus prov st0) as [r st1].
  simpl in Hok. subst r. cbn [onW call_out]. simpl. rewrite bool_decide_false by lia.
  destruct (Henv Hs) as (_ & E & _). split; [done|exact E].
Qed.
End unsaved.

(** *** Witnesses *)

#[local] Existing Instance some_order.

(** A provisioner that reports one phase and succeeds; its devnets have a ready
    node. *)
Definition ex_provisioner : Provisioner MemoryStore := {|
  Provision cb :=
    match cb with
    | Some report => run! report "Building" "" in done_with None
    | None => done_with None
    end;
  GetStatus := done_with (Ok (mkDevnetStatus PhaseRunning 0 1 1 7 "" [] 0 [] [] ""));
  takes_callback := true |}.

#[local] Instance ex_provisioner_laws : ProvisionerLaws ex_provisioner.
Proof.
  split.
  - intros [f|] I He Hf st Hst; [|exact Hst]. simpl. rewrite bindM_eq. by apply Hf.
  - intros st. by split_and!.
Qed.

Lemma ex_provisioner_ok p : Some ex_provisioner = Some p → ProvisionerLaws p.
Proof. intros [= <-]. apply _. Qed.

Definition ex_devnet (phase : string) : Devnet :=
  example_devnet "default" "a" <| d_Status; dst_Phase := phase |>.

Definition ex_world (phase : string) : World MemoryStore DevnetCall :=
  mkWorld (MemStore.CreateDevnet (ex_devnet phase) NewMemoryStore).2 (λ n, Z.of_nat n) 0 [] [].

Lemma devnet_ex_world_wf phase : store_wf (w_store (ex_world phase)).
Proof. split_and!; apply map_Forall_to_list; vm_compute; repeat constructor. Qed.

(** A new devnet is provisioned, with one call of [Provision]. *)
Lemma Reconcile_refines_devnet_trans_witness :
  let w' := (Reconcile (Some ex_provisioner) true "a" (ex_world "", NoLogs)).2.1 in
  store_wf (w_store w') ∧ ∃ d', v_devnets (store_view (w_store w')) !! "default/a" = Some d' ∧
    devnet_step true (w_trace w') "" (dphase d') ∧ length (w_trace w') = 1.
Proof.
  pose proof (Reconcile_refines_devnet_trans (S:=MemoryStore) (Some ex_provisioner) true
    ex_provisioner_ok "a" (ex_world "") NoLogs (devnet_ex_world_wf "")) as Hr.
  destruct (Reconcile (Some ex_provisioner) true "a" (ex_world "", NoLogs)) as [e [w' logs]] eqn:E.
  assert (He : e = None) by (apply (f_equal fst) in E; vm_compute in E; by rewrite <- E).
  assert (Hl : length (w_trace w') = 1) by (apply (f_equal (λ x, x.2.1)) in E; simpl in E; rewrite <- E; by vm_compute).
  destruct Hr as (Hwf & _ & _ & _ & calls & Ht & Hk). cbv zeta. split; [exact Hwf|].
  change (qualified (parseDevnetKey "a").1 (parseDevnetKey "a").2) with "default/a" in Hk.
  replace (v_devnets (store_view (w_store (ex_world ""))) !! "default/a")
    with (Some (ex_devnet "")) in Hk by (vm_compute; reflexivity).
  destruct Hk as (d' & Hd & _ & Hr). subst e. exists d'. split; [exact Hd|].
  split; [|exact Hl]. change (w_trace (ex_world "")) with (@nil DevnetCall) in Ht. simpl in Ht |- *.
  rewrite Ht. exact Hr.
Defined.

Lemma Reconcile_provisions_witness :
  let '(e, (w', _)) := Reconcile (Some ex_provisioner) true "a" (ex_world "", NoLogs) in
  e = None ∧ ∃ d', v_devnets (store_view (w_store w')) !! "default/a" = Some d' ∧
    dphase d' = PhaseRunning ∧ dst_Nodes (d_Status d') = 3%Z.
Proof.
  pose proof (Reconcile_provisions (S:=MemoryStore) (Some ex_provisioner) true
    ex_provisioner_ok "a" "default" "a" (ex_devnet "") (ex_world "") NoLogs (devnet_ex_world_wf "")
    eq_refl ltac:(vm_compute; reflexivity) ltac:(vm_compute; left)) as Hr.
  destruct (Reconcile _ _ _ _) as [e [w' logs]] eqn:E.
  destruct Hr as (He & r & d' & Hd & Hsp & Ha & Hres & _).
  split; [exact He|]. exists d'. split; [exact Hd|].
  revert E. vm_compute. intros [= _ <- _]. revert Hd. vm_compute. intros [= <-].
  split; reflexivity.
Defined.

Lemma healthy_status_is_not_saved_witness :
  (Reconcile (Some ex_provisioner) true "a" (ex_world PhaseRunning, NoLogs)).1 = None.
Proof.
  pose proof (healthy_status_is_not_saved (S:=MemoryStore) ex_provisioner true
    "a" "default" "a" (ex_devnet PhaseRunning) (ex_world PhaseRunning) NoLogs
    (devnet_ex_world_wf PhaseRunning) eq_refl ltac:(vm_compute; reflexivity) eq_refl) as Hr.
  destruct (Reconcile _ _ _ _) as [e [w' logs]]. simpl. apply Hr.
  intros st. eexists. split; [reflexivity|]. vm_compute. discriminate.
Defined.
