(* ===== verification/ProvisionTypes.v ===== *)
(** * The data of provisioning
    ([internal/plugin/types/genesis.go], [internal/application/ports])

    What the devnet provisioner, the orchestrator and the genesis forker pass to
    each other. *)

From stdpp Require Import base tactics numbers list strings.
From S2P Require Import Prelude Types.

(** ** Genesis *)

Definition GenesisModeRPC : string := "rpc".
Definition GenesisModeSnapshot : string := "snapshot".
Definition GenesisModeLocal : string := "local".
Definition GenesisModeFresh : string := "fresh".

Record GenesisSource := mkGenesisSource {
  gs_Mode : string;
  gs_RPCURL : string;
  gs_SnapshotURL : string;
  gs_LocalPath : string;
  gs_NetworkType : string
}.

(** [plugintypes.ValidatorInfo] and [GenesisPatchOptions]. *)
Record ValidatorInfo := mkValidatorInfo {
  vi_Moniker : string;
  vi_ConsPubKey : string;
  vi_OperatorAddress : string;
  vi_SelfDelegation : string
}.

Record GenesisPatchOptions := mkGenesisPatchOptions {
  gp_ChainID : string;
  gp_VotingPeriod : Duration;
  gp_UnbondingTime : Duration;
  gp_InflationRate : string;
  gp_MinGasPrice : string;
  gp_BinaryVersion : string;
  gp_Validators : list ValidatorInfo
}.
#[export] Instance eta_GenesisPatchOptions : Settable GenesisPatchOptions := mkSettable (λ x,
  mkGenesisPatchOptions (gp_ChainID x) (gp_VotingPeriod x) (gp_UnbondingTime x)
    (gp_InflationRate x) (gp_MinGasPrice x) (gp_BinaryVersion x) (gp_Validators x)).

(** The zero value. *)
Definition noPatchOptions : GenesisPatchOptions := mkGenesisPatchOptions "" 0 0 "" "" "" [].

Definition DefaultDevnetPatchOptions (chainID : string) : GenesisPatchOptions :=
  mkGenesisPatchOptions chainID (30 * second) (60 * second) "0.0" "0" "" [].

(** The fields of [StateExportOptions] that the forker sets. *)
Record StateExportOptions := mkStateExportOptions {
  se_HomeDir : string;
  se_BinaryPath : string;
  se_RpcGenesis : string;
  se_CacheKey : string;
  se_SnapshotURL : string;
  se_SnapshotFromCache : bool
}.

(** [ForkOptions] and [ForkResult]. *)
Record ForkOptions := mkForkOptions {
  fo_Source : GenesisSource;
  fo_PatchOpts : GenesisPatchOptions;
  fo_BinaryPath : string;
  fo_NoCache : bool
}.

Record ForkResult := mkForkResult {
  fr_Genesis : string;
  fr_SourceChainID : string;
  fr_NewChainID : string;
  fr_SourceMode : string;
  fr_FetchedAt : Time
}.

(** ** Provisioning *)

Record ProvisionOptions := mkProvisionOptions {
  po_DevnetName : string;
  po_ChainID : string;
  po_Network : string;
  po_NumValidators : Z;
  po_NumFullNodes : Z;
  po_GenesisSource : GenesisSource;
  po_GenesisPatchOpts : GenesisPatchOptions;
  po_BinaryVersion : string;
  po_BinaryPath : string;
  po_DataDir : string;
  po_HealthCheckTimeout : Duration;
  po_SkipStart : bool;
  po_Subnet : Z
}.
#[export] Instance eta_ProvisionOptions : Settable ProvisionOptions := mkSettable (λ x,
  mkProvisionOptions (po_DevnetName x) (po_ChainID x) (po_Network x) (po_NumValidators x)
    (po_NumFullNodes x) (po_GenesisSource x) (po_GenesisPatchOpts x) (po_BinaryVersion x) (po_BinaryPath x) (po_DataDir x)
    (po_HealthCheckTimeout x) (po_SkipStart x) (po_Subnet x)).

Record ProvisionResult := mkProvisionResult {
  pr_DevnetName : string;
  pr_ChainID : string;
  pr_BinaryPath : string;
  pr_GenesisPath : string;
  pr_NodeCount : Z;
  pr_ValidatorCount : Z;
  pr_FullNodeCount : Z;
  pr_DataDir : string
}.
