(* ===== verification/Trace.v ===== *)
(** * Operations that call outside

    Programs that read and write files, talk to a chain or run other programs are
    modelled over a trace: what the outside answers is any function of the calls
    made so far, which [es_calls] keeps in order with their answers, and the clock
    is a function of the number of its readings.  An operation returns a value,
    fails with an error, panics, or is still running when its fuel is spent;
    [bindE] stops at the first failure, as the [if err != nil] of the source does.
    The lemmas say what an operation calls ([emits]), where a value came from
    ([yields]) and that an operation ends ([finishes]). *)

From stdpp Require Import base tactics numbers list strings.
From S2P Require Import Prelude.

(** ** Operations that fail or panic *)

Inductive outcome (A : Type) : Type :=
| Returns (a : A)
| Fails (e : error)
| Panics
| Unfinished.
Arguments Returns {A} a.
Arguments Fails {A} e.
Arguments Panics {A}.
Arguments Unfinished {A}.

(** The calls so far, and the number of readings of the clock. *)
Record Trace (C : Type) := mkEState {
  es_calls : list C;
  es_ticks : nat
}.
Arguments mkEState {C} es_calls es_ticks.
Arguments es_calls {C} t.
Arguments es_ticks {C} t.

Definition Ext (C A : Type) : Type := M (Trace C) (outcome A).

Definition ret {W A} (a : A) : M W (outcome A) := done_with (Returns a).
Definition fail {W A} (e : error) : M W (outcome A) := done_with (Fails e).
Definition panic {W A} : M W (outcome A) := done_with Panics.

(** The failure of an operation is the failure of one with another type. *)
Definition stop {A B} (r : outcome A) : outcome B :=
  match r with Fails e => Fails e | Unfinished => Unfinished | _ => Panics end.

Definition bindE {W A B} (m : M W (outcome A)) (k : A → M W (outcome B)) : M W (outcome B) :=
  do! r := m in
  match r with Returns a => k a | r => done_with (stop r) end.

Notation "'try!' x := m 'in' k" := (bindE m (λ x, k))
  (at level 10, x name, m at level 100, k at level 200) : devnet_scope.
Notation "'try!' ' p := m 'in' k" := (bindE m (λ x, match x with p => k end))
  (at level 10, p pattern, m at level 100, k at level 200) : devnet_scope.
Notation "'check!' m 'in' k" := (bindE m (λ _, k))
  (at level 10, m at level 100, k at level 200) : devnet_scope.

(** [fmt.Errorf("msg: %w", err)] around a call. *)
Definition wrapping {W A} (msg : string) (m : M W (outcome A)) : M W (outcome A) :=
  do! r := m in
  done_with (match r with Fails e => Fails (Wrap msg e) | r => r end).

(** Calls outside: with a plain answer, an error, or a value or an error. *)
Definition ask_env {C A} (answer : list C → A) (log : A → C) : M (Trace C) A :=
  λ st, let a := answer (es_calls st) in (a, mkEState (es_calls st ++ [log a]) (es_ticks st)).

Definition call_err {C} (answer : list C → option error) (log : option error → C) : Ext C unit :=
  do! e := ask_env answer log in
  done_with (match e with Some e => Fails e | None => Returns tt end).

Definition call {C A} (answer : list C → result A) (log : result A → C) : Ext C A :=
  do! r := ask_env answer log in
  done_with (match r with Ok a => Returns a | Err e => Fails e end).

(** A note in the trace, and a reading of the clock. *)
Definition note {C} (c : C) : M (Trace C) unit := ask_env (λ _, tt) (λ _, c).

Definition now_at {C} (clock : nat → Time) : M (Trace C) Time :=
  λ st, (clock (es_ticks st), mkEState (es_calls st) (Datatypes.S (es_ticks st))).

(** Something that cannot fail. *)
Definition lift {C A} (m : M (Trace C) A) : Ext C A := do! a := m in ret a.

(** A loop over a list, stopping at the first failure. *)
Fixpoint each {W A} (l : list A) (body : A → M W (outcome unit)) : M W (outcome unit) :=
  match l with
  | [] => ret tt
  | x :: l => check! body x in each l body
  end.

(** The same for a loop that collects a value per element. *)
Fixpoint collect {W A B} (l : list A) (body : A → M W (outcome B)) : M W (outcome (list B)) :=
  match l with
  | [] => ret []
  | x :: l => try! y := body x in try! ys := collect l body in ret (y :: ys)
  end.

(** ** What an operation calls *)

(** Every call that [m] makes satisfies [φ]. *)
Definition emits {C A} (φ : C → Prop) (m : M (Trace C) A) : Prop :=
  ∀ st, ∃ l, es_calls (m st).2 = es_calls st ++ l ∧ Forall φ l.

Create HintDb emits.

Section emits.
Context {C : Type} (φ : C → Prop).

Lemma emits_done {A} (a : A) : emits φ (done_with a).
Proof. intros st. exists []. by rewrite app_nil_r. Qed.

Lemma emits_bind {A B} (m : M (Trace C) A) (k : A → M (Trace C) B) :
  emits φ m → (∀ a, emits φ (k a)) → emits φ (bindM m k).
Proof.
  intros Hm Hk st. rewrite bindM_eq. destruct (Hm st) as (l & El & Hl).
  destruct (Hk (m st).1 (m st).2) as (l' & El' & Hl').
  exists (l ++ l'). rewrite El', El, (assoc_L app). by rewrite Forall_app.
Qed.

Lemma emits_bindE {A B} (m : Ext C A) (k : A → Ext C B) :
  emits φ m → (∀ a, emits φ (k a)) → emits φ (bindE m k).
Proof. intros Hm Hk. apply emits_bind; [done|]. intros [a| | |]; auto using emits_done. Qed.

Lemma emits_wrapping {A} msg (m : Ext C A) : emits φ m → emits φ (wrapping msg m).
Proof. intros Hm. apply emits_bind; auto using emits_done. Qed.

Lemma emits_ask {A} (f : list C → A) log : (∀ a, φ (log a)) → emits φ (ask_env f log).
Proof. intros Hl st. eexists. split; [done|]. by constructor. Qed.

Lemma emits_call_err f log : (∀ a, φ (log a)) → emits φ (call_err f log).
Proof. intros Hl. apply emits_bind; auto using emits_done, emits_ask. Qed.

Lemma emits_call {A} (f : list C → result A) log : (∀ a, φ (log a)) → emits φ (call f log).
Proof. intros Hl. apply emits_bind; auto using emits_done, emits_ask. Qed.

Lemma emits_lift {A} (m : M (Trace C) A) : emits φ m → emits φ (lift m).
Proof. intros Hm. apply emits_bind; auto using emits_done. intros. apply emits_done. Qed.

Lemma emits_note c : φ c → emits φ (note c).
Proof. intros Hc. by apply emits_ask. Qed.

Lemma emits_now clock : emits φ (now_at clock).
Proof. intros st. exists []. by rewrite app_nil_r. Qed.

Lemma emits_each {A} (l : list A) body : (∀ x, x ∈ l → emits φ (body x)) → emits φ (each l body).
Proof.
  induction l as [|x l IH]; intros Hb; simpl; [apply emits_done|].
  apply emits_bindE; [apply Hb; by left|]. intros _. apply IH. intros y Hy. apply Hb. by right.
Qed.

Lemma emits_collect {A B} (l : list A) (body : A → Ext C B) :
  (∀ x, x ∈ l → emits φ (body x)) → emits φ (collect l body).
Proof.
  induction l as [|x l IH]; intros Hb; simpl; [apply emits_done|].
  apply emits_bindE; [apply Hb; by left|]. intros y.
  apply emits_bindE; [|intros; apply emits_done]. apply IH. intros z Hz. apply Hb. by right.
Qed.
End emits.

Lemma emits_weaken {C A} (φ ψ : C → Prop) (m : M (Trace C) A) :
  (∀ c, φ c → ψ c) → emits φ m → emits ψ m.
Proof.
  intros Hi Hm st. destruct (Hm st) as (l & El & Hl). exists l. split; [done|].
  by eapply Forall_impl.
Qed.

#[export] Hint Resolve emits_done emits_bind emits_bindE emits_wrapping emits_ask emits_call_err
  emits_call emits_lift emits_note emits_now emits_each emits_collect : emits.

Definition any_call {C} (_ : C) : Prop := True.

#[export] Hint Extern 1 (any_call _) => exact I : emits.

(** Operations whose calls are all of a kind. *)
Ltac emit :=
  repeat (intros; simpl;
    first [ apply emits_bindE | apply emits_bind | apply emits_wrapping | apply emits_lift
          | apply emits_done | apply emits_now | apply emits_note | apply emits_call_err
          | apply emits_call | apply emits_ask | apply emits_each | apply emits_collect
          | case_match; simplify_eq | progress unfold ret, fail, panic ]);
  intros; simpl; auto with emits.

Lemma bindE_eq {W A B} (m : M W (outcome A)) (k : A → M W (outcome B)) st :
  bindE m k st = match m st with
                 | (Returns a, st') => k a st'
                 | (r, st') => (stop r, st')
                 end.
Proof. unfold bindE, bindM. by destruct (m st) as [[| | |] st']. Qed.

(** What went well in a sequence. *)
Lemma bindE_Returns {W A B} (m : M W (outcome A)) (k : A → M W (outcome B)) st b st' :
  bindE m k st = (Returns b, st') ↔
  ∃ a st1, m st = (Returns a, st1) ∧ k a st1 = (Returns b, st').
Proof.
  rewrite bindE_eq. destruct (m st) as [[a| | |] st1]; naive_solver.
Qed.

Lemma wrapping_Returns {W A} msg (m : M W (outcome A)) st a st' :
  wrapping msg m st = (Returns a, st') ↔ m st = (Returns a, st').
Proof.
  unfold wrapping, bindM, done_with. destruct (m st) as [[a'| | |] st1]; naive_solver.
Qed.

Lemma lift_Returns {C A} (m : M (Trace C) A) st a st' :
  lift m st = (Returns a, st') ↔ m st = (a, st').
Proof. unfold lift, bindM, ret, done_with. destruct (m st). naive_solver. Qed.

Lemma call_Returns {C A} (f : list C → result A) log st a st' :
  call f log st = (Returns a, st') ↔
  f (es_calls st) = Ok a ∧ st' = mkEState (es_calls st ++ [log (Ok a)]) (es_ticks st).
Proof.
  unfold call, bindM, ask_env, done_with. destruct (f (es_calls st)) eqn:Ef; naive_solver.
Qed.

Lemma call_err_Returns {C} (f : list C → option error) log st u st' :
  call_err f log st = (Returns u, st') ↔
  f (es_calls st) = None ∧ st' = mkEState (es_calls st ++ [log None]) (es_ticks st).
Proof.
  unfold call_err, bindM, ask_env, done_with. destruct u.
  destruct (f (es_calls st)) eqn:Ef; naive_solver.
Qed.

Lemma each_Returns_cons {W A} (x : A) l (body : A → M W (outcome unit)) st u st' :
  each (x :: l) body st = (Returns u, st') ↔
  ∃ v st1, body x st = (Returns v, st1) ∧ each l body st1 = (Returns u, st').
Proof. apply bindE_Returns. Qed.

(** ** Where a value came from *)

(** Whenever [m] returns, it made a call that [P] relates to the value. *)
Definition yields {C A} (P : C → A → Prop) (m : Ext C A) : Prop :=
  ∀ st a st', m st = (Returns a, st') →
    ∃ l c, es_calls st' = es_calls st ++ l ∧ c ∈ l ∧ P c a.

Section yields.
Context {C A : Type} (P : C → A → Prop).

Lemma yields_fail e : yields P (fail e).
Proof. intros st a st'. unfold fail, done_with. done. Qed.

Lemma yields_panic : yields P panic.
Proof. intros st a st'. unfold panic, done_with. done. Qed.

(** What is known of the value that the first part returns may be used. *)
Lemma yields_then_post {B} (Q : B → Prop) (m : Ext C B) (k : B → Ext C A) :
  emits any_call m → (∀ st b st', m st = (Returns b, st') → Q b) →
  (∀ b, Q b → yields P (k b)) → yields P (bindE m k).
Proof.
  intros Hm HQ Hk st a st' (b & st1 & H1 & H2)%bindE_Returns.
  destruct (Hm st) as (l & El & _). rewrite H1 in El. simpl in El.
  destruct (Hk b (HQ _ _ _ H1) st1 a st' H2) as (l' & c & El' & Hc & HP).
  exists (l ++ l'), c. rewrite El', El, (assoc_L app). split_and!; [done| |done].
  apply elem_of_app. by right.
Qed.

Lemma yields_then {B} (m : Ext C B) (k : B → Ext C A) :
  emits any_call m → (∀ b, yields P (k b)) → yields P (bindE m k).
Proof. intros Hm Hk. by apply (yields_then_post (λ _, True)). Qed.

Lemma yields_call (f : list C → result A) log :
  (∀ a, P (log (Ok a)) a) → yields P (call f log).
Proof. intros HP st a st' [Ha ->]%call_Returns. eexists _, _. split; [done|]. split; [by left|done]. Qed.

Lemma yields_wrapping msg m : yields P m → yields P (wrapping msg m).
Proof. intros Hm st a st' Hr%wrapping_Returns. by eapply Hm. Qed.

(** More calls may follow, and a check of the value. *)
Lemma yields_more (m : Ext C A) st1 st2 a l2 :
  yields P m → m st1 = (Returns a, st2) →
  ∃ l c, es_calls st2 ++ l2 = es_calls st1 ++ l ∧ c ∈ l ∧ P c a.
Proof.
  intros Hm Hr. destruct (Hm st1 a st2 Hr) as (l & c & -> & Hc & HP).
  exists (l ++ l2), c. rewrite (assoc_L app). split_and!; [done| |done].
  apply elem_of_app. by left.
Qed.
End yields.

Lemma emits_any {C A} (φ : C → Prop) (m : M (Trace C) A) : emits φ m → emits any_call m.
Proof. by apply emits_weaken. Qed.

Lemma emits_grows {C A} (φ : C → Prop) (m : M (Trace C) A) st a st' :
  emits φ m → m st = (a, st') → ∃ l, es_calls st' = es_calls st ++ l ∧ Forall φ l.
Proof. intros Hm Hr. destruct (Hm st) as (l & Hl). rewrite Hr in Hl. by exists l. Qed.

(** Taking a successful run apart. *)
Ltac returns :=
  repeat match goal with
  | Hr : bindE _ _ _ = (Returns _, _) |- _ => apply bindE_Returns in Hr as (? & ? & ? & Hr)
  | Hr : wrapping _ _ _ = (Returns _, _) |- _ => apply (proj1 (wrapping_Returns _ _ _ _ _)) in Hr
  | Hr : call _ _ _ = (Returns _, _) |- _ => apply call_Returns in Hr as [? ->]
  | Hr : call_err _ _ _ = (Returns _, _) |- _ => apply call_err_Returns in Hr as [? ->]
  | Hr : lift _ _ = (Returns _, _) |- _ => apply (proj1 (lift_Returns _ _ _ _)) in Hr
  | Hr : ret _ _ = (Returns _, _) |- _ => injection Hr as ? ?; subst
  | Hr : fail _ _ = (Returns _, _) |- _ => discriminate Hr
  | Hr : now_at _ _ = _ |- _ => injection Hr as ? ?; subst
  end.

(** A call of an explicit list. *)
Ltac in_calls := solve [repeat first [apply list_elem_of_here | apply list_elem_of_further]].

(** ** Operations that end *)

Definition finishes {W A} (m : M W (outcome A)) : Prop := ∀ st, (m st).1 ≠ Unfinished.

Section finishes.
Context {W : Type}.

Lemma finishes_done {A} (r : outcome A) : r ≠ Unfinished → finishes (W:=W) (done_with r).
Proof. by intros Hr st. Qed.

Lemma finishes_bindM {A B} (m : M W A) (k : A → M W (outcome B)) :
  (∀ a, finishes (k a)) → finishes (bindM m k).
Proof. intros Hk st. rewrite bindM_eq. apply Hk. Qed.

(** A case analysis on the outcome of an operation that ends. *)
Lemma finishes_case {A B} (m : M W (outcome A)) (k : outcome A → M W (outcome B)) :
  finishes m → (∀ r, r ≠ Unfinished → finishes (k r)) → finishes (bindM m k).
Proof. intros Hm Hk st. rewrite bindM_eq. by apply Hk. Qed.

Lemma finishes_bindE {A B} (m : M W (outcome A)) (k : A → M W (outcome B)) :
  finishes m → (∀ a, finishes (k a)) → finishes (bindE m k).
Proof. intros Hm Hk. apply finishes_case; [done|]. by intros [a|e| |] Hr; [|apply finishes_done..]. Qed.

Lemma finishes_wrapping {A} msg (m : M W (outcome A)) : finishes m → finishes (wrapping msg m).
Proof. intros Hm. apply finishes_case; [done|]. by intros [a|e| |] Hr; apply finishes_done. Qed.
End finishes.

Lemma finishes_call {C A} (f : list C → result A) log : finishes (call f log).
Proof. apply finishes_bindM. intros [a|e]; by apply finishes_done. Qed.

Lemma finishes_call_err {C} (f : list C → option error) log : finishes (call_err f log).
Proof. apply finishes_bindM. intros [e|]; by apply finishes_done. Qed.

Lemma finishes_lift {C A} (m : M (Trace C) A) : finishes (lift m).
Proof. apply finishes_bindM. intros a. by apply finishes_done. Qed.

Lemma finishes_each {W A} (l : list A) (body : A → M W (outcome unit)) : (∀ x, finishes (body x)) → finishes (each l body).
Proof.
  intros Hb. induction l as [|x l IH]; simpl; [by apply finishes_done|].
  by apply finishes_bindE.
Qed.

Lemma finishes_collect {W A B} (l : list A) (body : A → M W (outcome B)) :
  (∀ x, finishes (body x)) → finishes (collect l body).
Proof.
  intros Hb. induction l as [|x l IH]; simpl; [by apply finishes_done|].
  apply finishes_bindE; [done|]. intros y. apply finishes_bindE; [done|].
  intros ys. by apply finishes_done.
Qed.

Ltac finish :=
  repeat (intros; simpl;
    first [ apply finishes_bindE | apply finishes_wrapping | apply finishes_call
          | apply finishes_call_err | apply finishes_lift | apply finishes_each
          | apply finishes_collect | (apply finishes_done; done) | case_match; simplify_eq
          | progress unfold ret, fail, panic | done ]).
