(* ===== verification/ProvisionEnv.v ===== *)
(** * What provisioning acts on

    The forker, the configuration editor and the orchestrator read and write
    files, download, build, and call plugins.  [Env] holds what the outside
    answers, over the traces of [Trace]. *)

From stdpp Require Import base tactics numbers list strings gmap.
From S2P Require Import Prelude Types ProvisionTypes NodeController.
From S2P Require Export Trace.

(** ** Calls and answers *)

(** An answer to an HTTP request; reading the body may fail. *)
Record Response := mkResponse {
  http_StatusCode : Z;
  http_Status : string;
  http_Body : result string
}.

Inductive Call :=
| CCtxErr (answer : option error)
| CWait (answer : option error)
| CReport (phase message : string)
| CStep (name status detail : string)
| CMkdirAll (path : string) (answer : option error)
| CWriteFile (path data : string) (answer : option error)
| CReadFile (path : string) (answer : result string)
| CRemoveAll (path : string)
| CBuild (GitRef PluginName : string) (answer : result string)
| CSetBinaryPath (path : string)
| CInitialize (nodeDir moniker chainID : string) (answer : option error)
| CGetNodeID (nodeDir : string) (answer : result string)
| CStartNode (node : Node) (policy : RtRestartPolicy) (answer : option error)
| CCheckHealth (node : Node) (answer : result HealthCheckResult)
| CFetchFromRPC (url : string) (answer : result string)
| CHTTPGet (url : string) (answer : result Response)
| CDownload (url cacheKey : string) (noCache : bool) (answer : result (string * bool))
| CExtract (archive dest : string) (answer : option error)
| CExport (opts : StateExportOptions) (answer : result string)
| CValidateGenesis (genesis : string) (answer : option error)
| CPatchGenesis (genesis : string) (opts : GenesisPatchOptions) (answer : result string)
| CPatchGenesisFile (input output : string) (opts : GenesisPatchOptions) (answer : result Z).

Record Env := mkEnv {
  clock : nat → Time;
  ctx_err : list Call → option error;
  wait_tick : list Call → option error;
  MkdirAll : list Call → string → option error;
  WriteFile : list Call → string → string → option error;
  ReadFile : list Call → string → result string;
  Build : list Call → string → string → result string;
  Initialize : list Call → string → string → string → option error;
  GetNodeID : list Call → string → result string;
  StartNode : list Call → Node → RtRestartPolicy → option error;
  CheckHealth : list Call → Node → result HealthCheckResult;
  FetchFromRPC : list Call → string → result string;
  HTTPGet : list Call → string → result Response;
  DownloadWithCache : list Call → string → string → bool → result (string * bool);
  Extract : list Call → string → string → option error;
  ExportFromSnapshot : list Call → StateExportOptions → result string
}.

(** [PluginGenesis]; [PatchGenesisFile] is there when the value also implements
    [FileBasedPluginGenesis]. *)
Record PluginGenesis := mkPluginGenesis {
  GetRPCEndpoint : string → string;
  GetSnapshotURL : string → string;
  BinaryName : string;
  ValidateGenesis : list Call → string → option error;
  PatchGenesis : list Call → string → GenesisPatchOptions → result string;
  PatchGenesisFile : option (list Call → string → string → GenesisPatchOptions → result Z)
}.

Abbreviation EState := (Trace Call).
Abbreviation E := (Ext Call).
Abbreviation now_env env := (now_at (clock env)).

(** Calls that neither report a phase nor touch running nodes. *)
Definition quiet (c : Call) : Prop :=
  match c with
  | CReport _ _ | CStartNode _ _ _ | CCheckHealth _ _ => False
  | _ => True
  end.
#[export] Hint Extern 1 (quiet _) => exact I : emits.

(** ** Files *)

(** What was last written to a path. *)
Definition written (p : string) (calls : list Call) : option string :=
  foldl (λ w c, match c with
                | CWriteFile p' data None => if bool_decide (p' = p) then Some data else w
                | _ => w
                end) None calls.

Lemma written_app p l l' :
  written p (l ++ l') = match written p l' with Some g => Some g | None => written p l end.
Proof.
  unfold written. rewrite foldl_app. generalize (foldl (λ w c, match c with
    | CWriteFile p' data None => if bool_decide (p' = p) then Some data else w
    | _ => w end) None l). intros w.
  induction l' as [|c l' IH] using rev_ind; simpl; [done|]. rewrite !foldl_app. simpl.
  rewrite IH. destruct c; try done. destruct answer; [done|]. by case_bool_decide.
Qed.

Lemma written_write p p' g :
  written p [CWriteFile p' g None] = if bool_decide (p' = p) then Some g else None.
Proof. done. Qed.

(** A file system that stores: files read as they were last written, and writing
    succeeds. *)
Definition stores_files (env : Env) (files : string → result string) : Prop :=
  ∀ calls p,
    ReadFile env calls p = match written p calls with Some g => Ok g | None => files p end ∧
    ∀ g, WriteFile env calls p g = None.

(** Everything succeeds; files read as they were last written. *)
Definition store_env (files : string → result string) : Env := {|
  clock := λ n, (Z.of_nat n * second)%Z;
  ctx_err := λ _, None;
  wait_tick := λ _, None;
  MkdirAll := λ _ _, None;
  WriteFile := λ _ _ _, None;
  ReadFile := λ t p, match written p t with Some g => Ok g | None => files p end;
  Build := λ _ _ _, Ok "/cache/chaind";
  Initialize := λ _ _ _ _, None;
  GetNodeID := λ _ _, Ok "id";
  StartNode := λ _ _ _, None;
  CheckHealth := λ _ _, Err (Errorf "down");
  FetchFromRPC := λ _ _, Ok "genesis";
  HTTPGet := λ _ _, Err (Errorf "no route");
  DownloadWithCache := λ _ _ _ _, Ok ("/cache/snapshot", true);
  Extract := λ _ _ _, None;
  ExportFromSnapshot := λ _ _, Ok "exported"
|}.

Lemma store_env_stores files : stores_files (store_env files) files.
Proof. done. Qed.
