(* ===== verification/NodeConfig.v ===== *)
(** * Node configuration files
    ([internal/infrastructure/nodeconfig/config.go], [types/ports.go])

    [ConfigEditor] changes config.toml and app.toml line by line: it reads the
    file, replaces the first line of a section (or of the file) that sets a key,
    and writes the file back.  Here are the editors over the file system of
    [ProvisionEnv], and what a reader of the file finds afterwards.

    [strings.TrimSpace] is modelled for ASCII white space. *)

From Stdlib Require Import Ascii.
From stdpp Require Import base tactics numbers list strings sets.
From S2P Require Import Prelude Types Paths ProvisionTypes NodeController ProvisionEnv.

(** ** Ports *)

Definition DefaultRPCPort : Z := 26657.
Definition DefaultP2PPort : Z := 26656.
Definition DefaultProxyPort : Z := 26658.
Definition DefaultGRPCPort : Z := 9090.
Definition DefaultGRPCWebPort : Z := 9091.
Definition DefaultAPIPort : Z := 1317.
Definition DefaultEVMRPCPort : Z := 8545.
Definition DefaultEVMWSPort : Z := 8546.
Definition DefaultPProfPort : Z := 6060.
Definition DefaultRosettaPort : Z := 8080.

Record PortConfig := mkPortConfig {
  pc_RPC : Z;
  pc_P2P : Z;
  pc_Proxy : Z;
  pc_GRPC : Z;
  pc_GRPCWeb : Z;
  pc_API : Z;
  pc_EVMRPC : Z;
  pc_EVMWS : Z;
  pc_PProf : Z;
  pc_Rosetta : Z
}.

Definition DefaultPortConfig : PortConfig :=
  mkPortConfig DefaultRPCPort DefaultP2PPort DefaultProxyPort DefaultGRPCPort DefaultGRPCWebPort
    DefaultAPIPort DefaultEVMRPCPort DefaultEVMWSPort DefaultPProfPort DefaultRosettaPort.

Definition PortConfigForNode (index : Z) : PortConfig := DefaultPortConfig.

Definition WithOffset (offset : Z) (p : PortConfig) : PortConfig :=
  let add x := wrap64 (x + offset) in
  mkPortConfig (add (pc_RPC p)) (add (pc_P2P p)) (add (pc_Proxy p)) (add (pc_GRPC p))
    (add (pc_GRPCWeb p)) (add (pc_API p)) (add (pc_EVMRPC p)) (add (pc_EVMWS p))
    (add (pc_PProf p)) (add (pc_Rosetta p)).

Definition AllPorts (p : PortConfig) : list Z :=
  [pc_RPC p; pc_P2P p; pc_Proxy p; pc_GRPC p; pc_GRPCWeb p; pc_API p; pc_EVMRPC p; pc_EVMWS p;
   pc_PProf p; pc_Rosetta p].

(** ** Lines *)

Definition newline : ascii := ascii_of_nat 10.

Definition lines (content : string) : list string := split_on newline content.
Definition unlines (l : list string) : string := String.concat (String newline EmptyString) l.

Definition is_space (c : ascii) : bool :=
  let n := nat_of_ascii c in
  (bool_decide (9 ≤ n) && bool_decide (n ≤ 13)) || bool_decide (n = 32).

Fixpoint trim_left (s : string) : string :=
  match s with
  | EmptyString => ""
  | String c rest => if is_space c then trim_left rest else s
  end.

Fixpoint trim_right (s : string) : string :=
  match s with
  | EmptyString => ""
  | String c rest =>
      let rest := trim_right rest in
      if is_space c && bool_decide (rest = "") then "" else String c rest
  end.

Definition TrimSpace (s : string) : string := trim_right (trim_left s).

(** The white space of a regular expression's [\s] at the start, and the rest. *)
Fixpoint span_space (s : string) : string * string :=
  match s with
  | EmptyString => ("", "")
  | String c rest =>
      if is_space c && negb (bool_decide (nat_of_ascii c = 11))
      then let '(ws, rest) := span_space rest in (String c ws, rest) else ("", s)
  end.

(** The white space a line has before its key, if it matches the regular
    expression: white space, the key, white space, an equals sign.  No key in the
    source begins with white space. *)
Definition key_pattern (key line : string) : option string :=
  let '(ws, rest) := span_space line in
  match strip_prefix key rest with
  | Some rest => if has_prefix "=" (span_space rest).2 then Some ws else None
  | None => None
  end.

Definition show_bool (b : bool) : string := if b then "true" else "false".
Definition quoted (key value : string) : string :=
  key +:+ " = " +:+ String dquote (value +:+ String dquote EmptyString).

(** The loop of the section editors: the first line of the section whose trimmed
    text [matches] becomes [line]. *)
Fixpoint edit_section (header : string) (matches : string → bool) (line : string)
    (inSection : bool) (lines : list string) : list string :=
  match lines with
  | [] => []
  | l :: rest =>
      let trimmed := TrimSpace l in
      if bool_decide (trimmed = header) then l :: edit_section header matches line true rest
      else
        let inSection := if has_prefix "[" trimmed then false else inSection in
        if inSection && matches trimmed then line :: rest
        else l :: edit_section header matches line inSection rest
  end.

(** The loop of [setConfigValue]: the first line of the file. *)
Fixpoint edit_line (key value : string) (lines : list string) : list string :=
  match lines with
  | [] => []
  | l :: rest =>
      match key_pattern key l with
      | Some ws => (ws +:+ quoted key value) :: rest
      | None => l :: edit_line key value rest
      end
  end.

Definition in_section (section : string) (matches : string → bool) (line content : string)
    : string :=
  unlines (edit_section ("[" +:+ section +:+ "]") matches line false (lines content)).

Definition sets_key (key trimmed : string) : bool :=
  has_prefix (key +:+ " ") trimmed || has_prefix (key +:+ "=") trimmed.

(** [setConfigValue] on the contents of a file. *)
Definition set_value (key value content : string) : string :=
  unlines (edit_line key value (lines content)).

(** ** The editors *)

Section editor.
Variable env : Env.
Variable nodeDir : string.

Definition ConfigPath : string := Join [nodeDir; "config"; "config.toml"].
Definition AppConfigPath : string := Join [nodeDir; "config"; "app.toml"].

(** Reading a file and writing it back. *)
Definition edit_file (filePath : string) (edit : string → string) : E unit :=
  try! content := call (λ t, ReadFile env t filePath) (CReadFile filePath) in
  call_err (λ t, WriteFile env t filePath (edit content)) (CWriteFile filePath (edit content)).

Definition setConfigValue (filePath key value : string) : E unit :=
  edit_file filePath (set_value key value).

Definition setP2PConfigBool (filePath key : string) (value : bool) : E unit :=
  edit_file filePath (in_section "p2p" (has_prefix key) (key +:+ " = " +:+ show_bool value)).

Definition laddr (port : Z) (host : string) : string :=
  quoted "laddr" ("tcp://" +:+ host +:+ ":" +:+ itoa port).

Definition setP2PLaddrWithHost (filePath : string) (port : Z) (host : string) : E unit :=
  edit_file filePath (in_section "p2p" (has_prefix "laddr") (laddr port host)).

Definition setRPCLaddrWithHost (filePath : string) (port : Z) (host : string) : E unit :=
  edit_file filePath (in_section "rpc" (has_prefix "laddr") (laddr port host)).

Definition setSectionValue (filePath section key value : string) : E unit :=
  edit_file filePath (in_section section (sets_key key) (quoted key value)).

Definition setAppConfigBool (filePath section key : string) (value : bool) : E unit :=
  edit_file filePath
    (in_section section (sets_key key) (key +:+ " = " +:+ show_bool value)).

Definition setGRPCAddressWithHost (filePath : string) (port : Z) (host : string) : E unit :=
  setSectionValue filePath "grpc" "address" (host +:+ ":" +:+ itoa port).
Definition setAPIAddressWithHost (filePath : string) (port : Z) (host : string) : E unit :=
  setSectionValue filePath "api" "address" ("tcp://" +:+ host +:+ ":" +:+ itoa port).
Definition setEVMRPCAddressWithHost (filePath : string) (port : Z) (host : string) : E unit :=
  setSectionValue filePath "json-rpc" "address" (host +:+ ":" +:+ itoa port).
Definition setEVMWSAddressWithHost (filePath : string) (port : Z) (host : string) : E unit :=
  setSectionValue filePath "json-rpc" "ws-address" (host +:+ ":" +:+ itoa port).

Definition SetPersistentPeers (peers : string) : E unit :=
  setConfigValue ConfigPath "persistent_peers" peers.

Definition SetMoniker (moniker : string) : E unit := setConfigValue ConfigPath "moniker" moniker.

Definition SetPortsWithHost (nodeIndex : Z) (host : string) : E unit :=
  let ports := PortConfigForNode nodeIndex in
  let host := if bool_decide (host = "") then "0.0.0.0" else host in
  check! wrapping "failed to set p2p laddr" (setP2PLaddrWithHost ConfigPath (pc_P2P ports) host) in
  check! wrapping "failed to set rpc laddr" (setRPCLaddrWithHost ConfigPath (pc_RPC ports) host) in
  check! wrapping "failed to set proxy_app" (setConfigValue ConfigPath "proxy_app"
           ("tcp://" +:+ host +:+ ":" +:+ itoa (pc_Proxy ports))) in
  check! wrapping "failed to set pprof_laddr" (setConfigValue ConfigPath "pprof_laddr"
           (host +:+ ":" +:+ itoa (pc_PProf ports))) in
  check! wrapping "failed to set grpc address"
           (setGRPCAddressWithHost AppConfigPath (pc_GRPC ports) host) in
  check! wrapping "failed to set api address"
           (setAPIAddressWithHost AppConfigPath (pc_API ports) host) in
  check! wrapping "failed to set evm rpc address"
           (setEVMRPCAddressWithHost AppConfigPath (pc_EVMRPC ports) host) in
  wrapping "failed to set evm ws address"
           (setEVMWSAddressWithHost AppConfigPath (pc_EVMWS ports) host).

Definition EnableNode0Services : E unit :=
  let enable section key := setAppConfigBool AppConfigPath section key true in
  check! wrapping "failed to enable api" (enable "api" "enable") in
  check! wrapping "failed to enable grpc" (enable "grpc" "enable") in
  check! wrapping "failed to enable json-rpc" (enable "json-rpc" "enable") in
  wrapping "failed to enable api cors" (enable "api" "enabled-unsafe-cors").

Definition DisableServices : E unit :=
  let disable section := setAppConfigBool AppConfigPath section "enable" false in
  check! wrapping "failed to disable api" (disable "api") in
  check! wrapping "failed to disable grpc" (disable "grpc") in
  wrapping "failed to disable json-rpc" (disable "json-rpc").

Definition SetConsensusParams : E unit :=
  check! setConfigValue ConfigPath "timeout_propose" "1s" in
  check! setConfigValue ConfigPath "timeout_prevote" "500ms" in
  check! setConfigValue ConfigPath "timeout_precommit" "500ms" in
  setConfigValue ConfigPath "timeout_commit" "1s".

Definition SetP2PLocalDevnet : E unit :=
  check! setP2PConfigBool ConfigPath "addr_book_strict" false in
  setP2PConfigBool ConfigPath "allow_duplicate_ip" true.

Definition ConfigureNodeWithHost (nodeIndex : Z) (peers : string) (isNode0 : bool)
    (host : string) : E unit :=
  check! wrapping "failed to set ports" (SetPortsWithHost nodeIndex host) in
  check! wrapping "failed to set persistent peers" (SetPersistentPeers peers) in
  check! wrapping "failed to set moniker" (SetMoniker ("node" +:+ itoa nodeIndex)) in
  check! wrapping "failed to set P2P local devnet config" SetP2PLocalDevnet in
  check! (if isNode0 then wrapping "failed to enable services" EnableNode0Services
          else ret tt) in
  wrapping "failed to set consensus params" SetConsensusParams.
End editor.

(** ** Lines of a file *)

Lemma split_on_elem c s x : x ∈ split_on c s → has_char c x = false.
Proof.
  revert x. induction s as [|a s IH]; simpl; intros x; [by intros ->%list_elem_of_singleton|].
  case_bool_decide as Ha.
  - intros [->|Hx]%elem_of_cons; auto.
  - pose proof (split_on_ne c s) as Hne. destruct (split_on c s) as [|y l]; [done|].
    intros [->|Hx]%elem_of_cons; [|apply IH; by right]. simpl.
    rewrite bool_decide_false by done. apply IH. by left.
Qed.

Lemma concat_split_on c s : String.concat (String c EmptyString) (split_on c s) = s.
Proof.
  induction s as [|a s IH]; simpl; [done|]. pose proof (split_on_ne c s) as Hne.
  case_bool_decide as Ha.
  - subst a. destruct (split_on c s) as [|y l]; [done|].
    change (String c (String.concat (String c EmptyString) (y :: l)) = String c s). by rewrite IH.
  - destruct (split_on c s) as [|y l]; [done|].
    destruct l; [by simpl in *; rewrite IH|]. exact (f_equal (String a) IH).
Qed.

Lemma split_on_concat c l :
  l ≠ [] → Forall (λ x, has_char c x = false) l →
  split_on c (String.concat (String c EmptyString) l) = l.
Proof.
  induction l as [|x l IH]; intros Hne Hl; [done|]. apply Forall_cons in Hl as [Hx Hl].
  destruct l as [|y l]; [by apply split_on_none|].
  change (split_on c (x +:+ String c (String.concat (String c EmptyString) (y :: l))) = x :: y :: l).
  by rewrite split_on_app, IH.
Qed.

Definition one_line (s : string) : Prop := has_char newline s = false.

Lemma lines_one_line content : Forall one_line (lines content).
Proof. apply Forall_forall. intros x Hx. by eapply split_on_elem. Qed.

Lemma lines_unlines l : l ≠ [] → Forall one_line l → lines (unlines l) = l.
Proof. apply split_on_concat. Qed.

Lemma unlines_lines content : unlines (lines content) = content.
Proof. apply concat_split_on. Qed.

#[local] Arguments has_prefix : simpl never.
#[local] Arguments TrimSpace : simpl never.

(** ** What a reader finds *)

(** The first line of a section that [matches]. *)
Fixpoint get_section (header : string) (matches : string → bool) (inSection : bool)
    (lines : list string) : option string :=
  match lines with
  | [] => None
  | l :: rest =>
      let trimmed := TrimSpace l in
      if bool_decide (trimmed = header) then get_section header matches true rest
      else
        let inSection := if has_prefix "[" trimmed then false else inSection in
        if inSection && matches trimmed then Some l
        else get_section header matches inSection rest
  end.

Definition section_line (section : string) (matches : string → bool) (content : string)
    : option string :=
  get_section ("[" +:+ section +:+ "]") matches false (lines content).

(** The first line of the file that sets the key, without white space before it. *)
Fixpoint get_line (key : string) (lines : list string) : option string :=
  match lines with
  | [] => None
  | l :: rest =>
      match key_pattern key l with
      | Some _ => Some (span_space l).2
      | None => get_line key rest
      end
  end.

Definition file_line (key content : string) : option string := get_line key (lines content).

(** A line that starts no section. *)
Definition entry (line : string) : Prop := has_prefix "[" (TrimSpace line) = false.

Lemma header_bracket section : has_prefix "[" ("[" +:+ section +:+ "]") = true.
Proof. done. Qed.

Lemma entry_not_header line section : entry line → TrimSpace line ≠ "[" +:+ section +:+ "]".
Proof. unfold entry. intros He E. by rewrite E in He. Qed.

Section edit.
Context (section : string) (matches : string → bool) (line : string).
Let header := "[" +:+ section +:+ "]".

(** The edit replaces one line, or none if no line matches. *)
Lemma edit_section_one b l :
  edit_section header matches line b l = l ∧ get_section header matches b l = None ∨
  ∃ l1 x l2, l = l1 ++ x :: l2 ∧ edit_section header matches line b l = l1 ++ line :: l2 ∧
    get_section header matches b l = Some x.
Proof.
  revert b. induction l as [|y l IH]; intros b; simpl; [by left|].
  assert (Hnext : ∀ b', (y :: edit_section header matches line b' l = y :: l ∧
        get_section header matches b' l = None) ∨
      ∃ l1 x l2, y :: l = l1 ++ x :: l2 ∧
        y :: edit_section header matches line b' l = l1 ++ line :: l2 ∧
        get_section header matches b' l = Some x).
  { intros b'. destruct (IH b') as [[-> ->]|(l1 & x & l2 & -> & -> & ->)]; [by left|].
    right. by exists (y :: l1), x, l2. }
  case_bool_decide; [apply Hnext|]. case_match; [|apply Hnext].
  right. by exists [], y, l.
Qed.

Hypothesis Hentry : entry line.

(** A reader of the same key finds the new line where it found one before. *)
Lemma get_edited b l :
  matches (TrimSpace line) = true →
  get_section header matches b (edit_section header matches line b l) =
    (λ _, line) <$> get_section header matches b l.
Proof.
  intros Hm. revert b. induction l as [|y l IH]; intros b; simpl; [done|].
  case_bool_decide as Hh; simpl; [by rewrite bool_decide_true|].
  destruct (_ && matches (TrimSpace y)) eqn:Hy; simpl.
  - rewrite bool_decide_false by by apply entry_not_header. rewrite Hentry, Hm.
    destruct (has_prefix "[" _); [done|]. simpl in Hy. apply andb_true_iff in Hy as [-> _]. done.
  - rewrite bool_decide_false by done. by rewrite Hy.
Qed.

(** A reader of another section finds what it found before. *)
Lemma get_other_section section' matches' b b' l :
  section' ≠ section → b && b' = false →
  get_section ("[" +:+ section' +:+ "]") matches' b' (edit_section header matches line b l) =
    get_section ("[" +:+ section' +:+ "]") matches' b' l.
Proof.
  intros Hne. assert (Hh : "[" +:+ section' +:+ "]" ≠ header).
  { unfold header. intros [= E]. apply Hne.
    revert E. clear. revert section. induction section' as [|c s IH]; intros [|c' s']; simpl.
    - done.
    - intros [= <- E]. by destruct s'.
    - intros [= -> E]. by destruct s.
    - intros [= -> E]. f_equal. by apply IH. }
  revert b b'. induction l as [|y l IH]; intros b b' Hb; simpl; [done|].
  case_bool_decide as Hy; simpl.
  - rewrite Hy. rewrite (bool_decide_false (header = _)) by done. simpl. apply IH. done.
  - destruct (_ && matches (TrimSpace y)) eqn:Hm; simpl.
    + rewrite bool_decide_false by by apply entry_not_header. rewrite Hentry.
      apply andb_true_iff in Hm as [Hm _]. destruct (has_prefix "[" (TrimSpace y)) eqn:Hp; [done|].
      subst b. simpl in Hb. subst b'. simpl. rewrite bool_decide_false; [done|].
      intros E. rewrite E in Hp. done.
    + case_bool_decide as Hs; [rewrite Hs; by apply IH|].
      destruct (has_prefix "[" _); simpl; [by apply IH|]. case_match; [done|]. by apply IH.
Qed.

(** A reader of another key finds what it found before. *)
Lemma get_other_key header' matches' b b' l :
  matches' (TrimSpace line) = false → (∀ t, matches t = true → matches' t = false) →
  has_prefix "[" header' = true →
  get_section header' matches' b' (edit_section header matches line b l) =
    get_section header' matches' b' l.
Proof.
  intros Hl Hm Hh'. revert b b'. induction l as [|y l IH]; intros b b'; simpl; [done|].
  case_bool_decide as Hy; simpl; [by rewrite !IH|].
  destruct (_ && matches (TrimSpace y)) eqn:Hmy; simpl.
  - apply andb_true_iff in Hmy as [Hb Hmy]. rewrite Hl, (Hm _ Hmy), !andb_false_r, Hentry.
    destruct (has_prefix "[" (TrimSpace y)) eqn:Hp; [done|].
    rewrite !bool_decide_false; [done|intros E; by rewrite E, Hh' in Hp|].
    intros E. unfold entry in Hentry. by rewrite E, Hh' in Hentry.
  - by rewrite !IH.
Qed.
End edit.

(** ** Keys *)

Definition key_char (c : ascii) : bool :=
  negb (is_space c) && negb (bool_decide (c = "="%char)) && negb (bool_decide (c = "["%char)).

Fixpoint all_chars (f : ascii → bool) (s : string) : bool :=
  match s with EmptyString => true | String c s => f c && all_chars f s end.

(** A key without white space, equals signs and brackets. *)
Definition plain_key (key : string) : bool :=
  negb (bool_decide (key = "")) && all_chars key_char key.

Lemma plain_key_cons key :
  plain_key key = true →
  ∃ c rest, key = String c rest ∧ key_char c = true ∧ all_chars key_char key = true.
Proof.
  unfold plain_key. intros [Hne Hall]%andb_true_iff.
  destruct key as [|c rest]; [done|]. exists c, rest. split_and!; [done| |done].
  by apply andb_true_iff in Hall as [? _].
Qed.

Lemma all_chars_not f s c : all_chars f s = true → f c = false → has_char c s = false.
Proof.
  intros Hs Hc. induction s as [|a s IH]; simpl in *; [done|].
  apply andb_true_iff in Hs as [Ha Hs]. rewrite bool_decide_false by congruence. auto.
Qed.

(** The first of two separators in a string. *)
Lemma first_separator f a b c d x y :
  all_chars f a = true → all_chars f b = true → f c = false → f d = false →
  a +:+ String c x = b +:+ String d y → a = b ∧ c = d.
Proof.
  intros Ha Hb Hc Hd. revert b Hb. induction a as [|a1 a IH]; intros [|b1 b] Hb; simpl in *.
  - by intros [= -> _].
  - intros [= -> _]. apply andb_true_iff in Hb as [Hb _]. congruence.
  - intros [= -> _]. apply andb_true_iff in Ha as [Ha _]. congruence.
  - apply andb_true_iff in Ha as [_ Ha]. apply andb_true_iff in Hb as [_ Hb].
    intros [= -> E]. by destruct (IH Ha b Hb E) as [-> ->].
Qed.

Lemma sets_key_spec key t :
  sets_key key t = true ↔ ∃ c u, (c = " "%char ∨ c = "="%char) ∧ t = key +:+ String c u.
Proof.
  unfold sets_key. rewrite orb_true_iff, !has_prefix_spec. split.
  - intros [[u ->]|[u ->]]; [exists " "%char, u|exists "="%char, u];
      rewrite <- append_assoc; auto.
  - intros (c & u & [-> | ->] & ->); [left|right]; exists u; by rewrite <- append_assoc.
Qed.

Lemma sets_key_inj key key' t :
  all_chars key_char key = true → all_chars key_char key' = true →
  sets_key key t = true → sets_key key' t = true → key = key'.
Proof.
  intros Hk Hk' (c & u & Hc & ->)%sets_key_spec (d & v & Hd & E)%sets_key_spec.
  by eapply first_separator in E as [-> _]; [done..| |]; destruct_or?; subst.
Qed.

Lemma trim_right_app a b : trim_right b ≠ "" → trim_right (a +:+ b) = a +:+ trim_right b.
Proof.
  intros Hb. induction a as [|c a IH]; [done|].
  change (trim_right (String c (a +:+ b)) = String c (a +:+ trim_right b)). simpl. rewrite IH.
  rewrite bool_decide_false; [by rewrite andb_false_r|]. intros E. by destruct a.
Qed.

(** A line that sets a key keeps it when it is trimmed. *)
Lemma TrimSpace_key key rest :
  plain_key key = true → ∃ u, TrimSpace (key +:+ " = " +:+ rest) = key +:+ String " "%char u.
Proof.
  intros (c & k & -> & Hc & _)%plain_key_cons.
  unfold TrimSpace. assert (Hl : trim_left (String c k +:+ " = " +:+ rest) =
    String c k +:+ " = " +:+ rest).
  { change (trim_left (String c (k +:+ " = " +:+ rest)) = String c (k +:+ " = " +:+ rest)).
    simpl. unfold key_char in Hc. by destruct (is_space c). }
  rewrite Hl. change (" = " +:+ rest) with (" " +:+ String "="%char (String " "%char rest)).
  rewrite (assoc_L String.append), trim_right_app by done.
  eexists. rewrite <- (assoc_L String.append). done.
Qed.

Lemma set_line key rest :
  plain_key key = true →
  let line := key +:+ " = " +:+ rest in
  entry line ∧ sets_key key (TrimSpace line) = true.
Proof.
  intros Hk line. destruct (TrimSpace_key key rest Hk) as [u Hu]. fold line in Hu. split.
  - unfold entry. rewrite Hu. apply plain_key_cons in Hk as (c & k & -> & Hc & _).
    unfold has_prefix. simpl. unfold key_char in Hc. rewrite !andb_true_iff in Hc.
    destruct Hc as [_ Hc]. rewrite bool_decide_false; [done|]. by intros <-.
  - apply sets_key_spec. rewrite Hu. eauto.
Qed.

(** ** The editors set what they are to set *)

Lemma edit_section_ne header matches line b l : l ≠ [] → edit_section header matches line b l ≠ [].
Proof. destruct l; simpl; [done|]. intros _. by repeat case_match. Qed.

Lemma lines_in_section section matches line content :
  one_line line →
  lines (in_section section matches line content) =
    edit_section ("[" +:+ section +:+ "]") matches line false (lines content).
Proof.
  intros Hline. unfold in_section. pose proof (lines_one_line content) as Hl.
  apply lines_unlines; [apply edit_section_ne, split_on_ne|].
  destruct (edit_section_one section matches line false (lines content))
    as [[-> _]|(l1 & x & l2 & E & -> & _)]; [done|].
  rewrite E in Hl. rewrite !Forall_app, !Forall_cons in *. tauto.
Qed.

(** What an edit of one key does to a file. *)
Record sets (section key line content content' : string) : Prop := {
  set_found : section_line section (sets_key key) content' =
    (λ _, line) <$> section_line section (sets_key key) content;
  set_absent : section_line section (sets_key key) content = None → content' = content;
  set_others : ∀ section' key', plain_key key' = true → (section', key') ≠ (section, key) →
    section_line section' (sets_key key') content' = section_line section' (sets_key key') content;
  set_length : length (lines content') = length (lines content)
}.

Lemma in_section_sets section key rest content :
  plain_key key = true → one_line rest →
  let line := key +:+ " = " +:+ rest in
  sets section key line content (in_section section (sets_key key) line content).
Proof.
  intros Hk Hr line. pose proof (set_line key rest Hk) as [He Hs].
  assert (Hline : one_line line).
  { unfold one_line, line. rewrite !has_char_app, Hr. apply andb_true_iff in Hk as [_ Hk].
    by rewrite (all_chars_not key_char key newline). }
  destruct (plain_key_cons key Hk) as (_ & _ & _ & _ & Hkc).
  split; unfold section_line; rewrite ?lines_in_section by done.
  - by apply get_edited.
  - intros Hn. unfold in_section.
    destruct (edit_section_one section (sets_key key) line false (lines content))
      as [[-> _]|(? & ? & ? & _ & _ & Hx)]; [apply unlines_lines|congruence].
  - intros section' key' Hk' Hne. destruct (plain_key_cons key' Hk') as (_ & _ & _ & _ & Hkc').
    destruct (decide (section' = section)) as [->|Hsec]; [|by apply get_other_section].
    assert (Hkk : key ≠ key') by congruence.
    apply get_other_key; [done| | |done].
    + destruct (sets_key key' _) eqn:E; [|done]. destruct Hkk. by eapply sets_key_inj.
    + intros t Ht. destruct (sets_key key' t) eqn:E; [|done]. destruct Hkk. by eapply sets_key_inj.
  - destruct (edit_section_one section (sets_key key) line false (lines content))
      as [[-> _]|(l1 & x & l2 & -> & -> & _)]; [done|]. by rewrite !length_app.
Qed.

(** Setting a value in a section reads the file once and writes it once, and
    fails with what these answer.  In the file that is written, a reader of the key
    in the section finds the new line exactly when it found one before, and a key
    the section does not have leaves the file as it is; every other key of every
    section reads as before. *)
Theorem setSectionValue_outcomes env filePath section key value st :
  plain_key key = true → one_line value →
  let '(r, st') := setSectionValue env filePath section key value st in
  match ReadFile env (es_calls st) filePath with
  | Err e => r = Fails e ∧ es_calls st' = es_calls st ++ [CReadFile filePath (Err e)]
  | Ok content =>
      ∃ content' answer,
        es_calls st' = es_calls st ++ [CReadFile filePath (Ok content);
                                       CWriteFile filePath content' answer] ∧
        r = match answer with Some e => Fails e | None => Returns tt end ∧
        sets section key (quoted key value) content content'
  end.
Proof.
  intros Hk Hv. unfold setSectionValue, edit_file. rewrite bindE_eq.
  unfold call, bindM, ask_env, done_with. cbn [fst snd].
  destruct (ReadFile env (es_calls st) filePath) as [content|e]; [|done].
  unfold call_err, bindM, ask_env, done_with. cbn [es_calls].
  eexists _, _. split; [by rewrite <- (assoc_L app)|]. split; [done|].
  apply in_section_sets; [done|]. unfold one_line in *.
  change (has_char newline (String dquote (value +:+ String dquote "")) = false). simpl.
  by rewrite has_char_app, Hv.
Qed.

(** ** Editing the two files of a node *)

(** [m] succeeds where both files of the node can be read, changes their contents
    by [F] and [G], and leaves every other file as it is. *)
Definition edits (env : Env) (nodeDir : string) (m : E unit) (F G : string → string) : Prop :=
  ∀ st c a,
    ReadFile env (es_calls st) (ConfigPath nodeDir) = Ok c →
    ReadFile env (es_calls st) (AppConfigPath nodeDir) = Ok a →
    ∃ st', m st = (Returns tt, st') ∧
      ReadFile env (es_calls st') (ConfigPath nodeDir) = Ok (F c) ∧
      ReadFile env (es_calls st') (AppConfigPath nodeDir) = Ok (G a) ∧
      ∀ q, q ≠ ConfigPath nodeDir → q ≠ AppConfigPath nodeDir →
        ReadFile env (es_calls st') q = ReadFile env (es_calls st) q.

Section edits.
Context (env : Env) (files : string → result string) (Hfiles : stores_files env files).
Context (nodeDir : string) (Hpaths : ConfigPath nodeDir ≠ AppConfigPath nodeDir).

Lemma read_written calls p c :
  written p calls = Some c → ReadFile env calls p = Ok c.
Proof. intros Hw. destruct (Hfiles calls p) as [-> _]. by rewrite Hw. Qed.

Lemma edit_file_stores p f st c :
  ReadFile env (es_calls st) p = Ok c →
  ∃ st', edit_file env p f st = (Returns tt, st') ∧
    ReadFile env (es_calls st') p = Ok (f c) ∧
    ∀ q, q ≠ p → ReadFile env (es_calls st') q = ReadFile env (es_calls st) q.
Proof.
  intros Hr. unfold edit_file. rewrite bindE_eq. unfold call, bindM, ask_env, done_with.
  rewrite Hr. unfold call_err, bindM, ask_env, done_with. cbn [es_calls].
  destruct (Hfiles (es_calls st ++ [CReadFile p (Ok c)]) p) as [_ ->].
  eexists. split; [done|]. cbn [es_calls]. split.
  - apply read_written. by rewrite written_app, written_write, bool_decide_true.
  - intros q Hq. destruct (Hfiles (es_calls st) q) as [-> _].
    destruct (Hfiles ((es_calls st ++ [CReadFile p (Ok c)]) ++ [CWriteFile p (f c) None]) q)
      as [-> _]. by rewrite !written_app, written_write, bool_decide_false.
Qed.

Lemma edits_config f : edits env nodeDir (edit_file env (ConfigPath nodeDir) f) f id.
Proof.
  intros st c a Hc Ha. destruct (edit_file_stores _ f st c Hc) as (st' & Hr & H1 & H2).
  exists st'. split_and!; [done|done|by rewrite H2|auto].
Qed.

Lemma edits_app f : edits env nodeDir (edit_file env (AppConfigPath nodeDir) f) id f.
Proof.
  intros st c a Hc Ha. destruct (edit_file_stores _ f st a Ha) as (st' & Hr & H1 & H2).
  exists st'. split_and!; [done|by rewrite H2|done|auto].
Qed.

Lemma edits_seq m m' F G F' G' :
  edits env nodeDir m F G → edits env nodeDir m' F' G' →
  edits env nodeDir (check! m in m') (F' ∘ F) (G' ∘ G).
Proof.
  intros Hm Hm' st c a Hc Ha. destruct (Hm st c a Hc Ha) as (st1 & Hr & Hc1 & Ha1 & Hq).
  destruct (Hm' st1 _ _ Hc1 Ha1) as (st2 & Hr' & Hc2 & Ha2 & Hq').
  exists st2. rewrite bindE_eq, Hr. split_and!; [done..|].
  intros q H1 H2. by rewrite Hq', Hq.
Qed.

(** When the first edit is of config.toml only, or both are of app.toml only. *)
Lemma edits_config_then m m' F F' G' :
  edits env nodeDir m F id → edits env nodeDir m' F' G' →
  edits env nodeDir (check! m in m') (F' ∘ F) G'.
Proof. apply edits_seq. Qed.

Lemma edits_app_then m m' G G' :
  edits env nodeDir m id G → edits env nodeDir m' id G' →
  edits env nodeDir (check! m in m') id (G' ∘ G).
Proof. apply edits_seq. Qed.

Lemma edits_wrapping msg m F G :
  edits env nodeDir m F G → edits env nodeDir (wrapping msg m) F G.
Proof.
  intros Hm st c a Hc Ha. destruct (Hm st c a Hc Ha) as (st1 & Hr & Hq).
  exists st1. split; [by apply wrapping_Returns|done].
Qed.

Lemma edits_ret : edits env nodeDir (ret tt) id id.
Proof. intros st c a Hc Ha. exists st. done. Qed.
End edits.

(** ** Lines of the whole file *)

Definition re_space (c : ascii) : bool := is_space c && negb (bool_decide (nat_of_ascii c = 11)).

Lemma span_space_spec s :
  s = (span_space s).1 +:+ (span_space s).2 ∧ all_chars re_space (span_space s).1 = true.
Proof.
  induction s as [|c s [IH1 IH2]]; [done|]. simpl. fold (re_space c).
  destruct (re_space c) eqn:Hc; [|done]. destruct (span_space s) as [ws rest] eqn:E.
  cbn [fst snd] in *. subst s. split; [done|]. simpl. by rewrite Hc.
Qed.

Lemma span_space_app ws rest :
  all_chars re_space ws = true →
  match rest with String c _ => re_space c = false | EmptyString => True end →
  span_space (ws +:+ rest) = (ws, rest).
Proof.
  intros Hws Hr. induction ws as [|c ws IH].
  - destruct rest as [|c rest]; [done|]. simpl. fold (re_space c). by rewrite Hr.
  - simpl in Hws. apply andb_true_iff in Hws as [Hc Hws].
    change (span_space (String c (ws +:+ rest)) = (String c ws, rest)). simpl. fold (re_space c).
    by rewrite Hc, IH.
Qed.

Lemma strip_prefix_spec p s t : strip_prefix p s = Some t ↔ s = p +:+ t.
Proof.
  revert s. induction p as [|c p IH]; intros s; simpl.
  - change ("" +:+ t) with t. split; [by intros [= ->]|by intros ->].
  - destruct s as [|c' s]; [done|]. case_bool_decide as Hc.
    + subst c'. change (String c p +:+ t) with (String c (p +:+ t)). rewrite IH.
      split; [by intros ->|by intros [= ->]].
    + change (String c p +:+ t) with (String c (p +:+ t)). split; [done|by intros [= -> _]].
Qed.

Lemma re_space_is_space c : re_space c = true → is_space c = true.
Proof. unfold re_space. by intros [? _]%andb_true_iff. Qed.

Lemma key_char_not_space c : key_char c = true → is_space c = false.
Proof. unfold key_char. by destruct (is_space c). Qed.

(** The shape of a line that sets a key. *)
Lemma key_pattern_spec key l ws :
  plain_key key = true →
  key_pattern key l = Some ws ↔
  ∃ ws' rest, l = ws +:+ key +:+ ws' +:+ String "="%char rest ∧
    all_chars re_space ws = true ∧ all_chars re_space ws' = true.
Proof.
  intros Hk. pose proof (plain_key_cons key Hk) as (c & k & Ek & Hc & _). unfold key_pattern. split.
  - destruct (span_space_spec l) as [E Hws]. destruct (span_space l) as [ws0 r]. simpl in *.
    destruct (strip_prefix key r) as [r'|] eqn:Hs; [|done]. apply strip_prefix_spec in Hs.
    destruct (has_prefix "=" _) eqn:He; [|done]. intros [= <-].
    destruct (span_space_spec r') as [E' Hws']. apply has_prefix_spec in He as [t Ht].
    exists (span_space r').1, t. split_and!; [|done|done]. subst l r. by rewrite E' at 1; rewrite Ht.
  - intros (ws' & rest & -> & Hws & Hws').
    rewrite span_space_app; [|done|].
    + assert (Hs : strip_prefix key (key +:+ ws' +:+ String "="%char rest) =
        Some (ws' +:+ String "="%char rest)) by by apply strip_prefix_spec.
      rewrite Hs, span_space_app by done. done.
    + subst key. simpl. unfold re_space. by rewrite (key_char_not_space c).
Qed.

Lemma trim_left_app ws rest :
  all_chars is_space ws = true → trim_left (ws +:+ rest) = trim_left rest.
Proof.
  induction ws as [|c ws IH]; [done|]. simpl. intros [Hc Hws]%andb_true_iff.
  change (trim_left (String c (ws +:+ rest)) = trim_left rest). simpl. rewrite Hc. auto.
Qed.

Lemma all_chars_impl (f g : ascii → bool) s :
  (∀ c, f c = true → g c = true) → all_chars f s = true → all_chars g s = true.
Proof.
  intros Hi. induction s as [|c s IH]; simpl; [done|].
  intros [Hc Hs]%andb_true_iff. by rewrite Hi, IH.
Qed.

(** Trimmed, it starts with the key. *)
Lemma key_pattern_trim key l ws :
  plain_key key = true → key_pattern key l = Some ws → has_prefix key (TrimSpace l) = true.
Proof.
  intros Hk (ws' & rest & -> & Hws & _)%key_pattern_spec; [|done].
  pose proof (plain_key_cons key Hk) as (c & k & Ek & Hc & _).
  unfold TrimSpace. rewrite trim_left_app by (eapply all_chars_impl; [apply re_space_is_space|done]).
  assert (Ht : trim_left (key +:+ ws' +:+ String "="%char rest) =
    key +:+ ws' +:+ String "="%char rest).
  { subst key. change (trim_left (String c (k +:+ ws' +:+ String "="%char rest)) =
      String c (k +:+ ws' +:+ String "="%char rest)). simpl. by rewrite key_char_not_space. }
  rewrite Ht. assert (Hne : trim_right (String "="%char rest) ≠ "") by done.
  rewrite (assoc_L String.append), trim_right_app by done. rewrite <- append_assoc.
  apply has_prefix_app.
Qed.

(** A line has one key. *)
Lemma key_pattern_inj key key' l ws ws' :
  plain_key key = true → plain_key key' = true →
  key_pattern key l = Some ws → key_pattern key' l = Some ws' → key = key'.
Proof.
  intros Hk Hk' H1 H2. pose proof H1 as Hp. unfold key_pattern in H1, H2.
  destruct (span_space l) as [ws0 r].
  destruct (strip_prefix key r) as [r1|] eqn:Hs1; [|done].
  destruct (strip_prefix key' r) as [r2|] eqn:Hs2; [|done].
  apply strip_prefix_spec in Hs1, Hs2.
  assert (Hsep : ∀ r, has_prefix "=" (span_space r).2 = true →
    ∃ c t, r = String c t ∧ key_char c = false).
  { intros r0 Hr. destruct (span_space_spec r0) as [E Hw]. apply has_prefix_spec in Hr as [t Ht].
    rewrite Ht in E. destruct (span_space r0).1 as [|c w]; [by exists "="%char, t|].
    exists c, (w +:+ ("=" +:+ t)). split; [exact E|]. simpl in Hw.
    apply andb_true_iff in Hw as [Hc _]. apply re_space_is_space in Hc.
    unfold key_char. by rewrite Hc. }
  destruct (has_prefix "=" (span_space r1).2) eqn:E1; [|done].
  destruct (has_prefix "=" (span_space r2).2) eqn:E2; [|done].
  apply Hsep in E1 as (c & t & -> & Hc), E2 as (d & u & -> & Hd).
  rewrite Hs1 in Hs2. apply plain_key_cons in Hk as (_ & _ & _ & _ & Hk).
  apply plain_key_cons in Hk' as (_ & _ & _ & _ & Hk').
  by eapply first_separator in Hs2 as [-> _].
Qed.

(** ** Readers *)

(** [F] changes nothing the reader [R] sees; [F] puts [line] where [R] found
    something. *)
Definition keeps (R : string → option string) (F : string → string) : Prop :=
  ∀ content, R (F content) = R content.
Definition puts (R : string → option string) (line : string) (F : string → string) : Prop :=
  ∀ content, R (F content) = (λ _, line) <$> R content.

Lemma keeps_id R : keeps R id.
Proof. done. Qed.
Lemma keeps_compose R F G : keeps R F → keeps R G → keeps R (G ∘ F).
Proof. intros HF HG c. unfold compose. by rewrite HG, HF. Qed.
Lemma puts_keeps R line F G : puts R line F → keeps R G → puts R line (G ∘ F).
Proof. intros HF HG c. unfold compose. by rewrite HG, HF. Qed.
Lemma keeps_puts R line F G : keeps R F → puts R line G → puts R line (G ∘ F).
Proof. intros HF HG c. unfold compose. by rewrite HG, HF. Qed.

#[export] Hint Resolve keeps_id keeps_compose puts_keeps keeps_puts : devnet.

(** The reader of [laddr] in a section. *)
Definition read_laddr (section : string) : string → option string :=
  section_line section (has_prefix "laddr").

Lemma has_prefix_disjoint p q t :
  has_prefix p t = true → has_prefix p q = false → has_prefix q p = false →
  has_prefix q t = false.
Proof.
  intros [u ->]%has_prefix_spec Hpq Hqp. revert p Hpq Hqp.
  induction q as [|c q IH]; intros [|d p] Hpq Hqp; try done.
  change (String d p +:+ u) with (String d (p +:+ u)).
  unfold has_prefix in *. fold has_prefix in *. case_bool_decide as Hc; [|done]. subst d.
  rewrite bool_decide_true in Hpq by done. simpl in *. by apply IH.
Qed.

Lemma key_line_one key rest : plain_key key = true → one_line rest → one_line (key +:+ " = " +:+ rest).
Proof.
  intros Hk Hr. unfold one_line. rewrite !has_char_app, Hr. apply andb_true_iff in Hk as [_ Hk].
  by rewrite (all_chars_not key_char key newline).
Qed.

Lemma key_prefix key rest : plain_key key = true → has_prefix key (TrimSpace (key +:+ " = " +:+ rest)) = true.
Proof. intros Hk. destruct (TrimSpace_key key rest Hk) as [u ->]. apply has_prefix_app. Qed.

Lemma get_section_matches header matches b l x :
  get_section header matches b l = Some x → matches (TrimSpace x) = true.
Proof.
  revert b. induction l as [|y l IH]; intros b; simpl; [done|].
  case_bool_decide; [apply IH|]. destruct (_ && matches (TrimSpace y)) eqn:E; [|apply IH].
  intros [= <-]. by apply andb_true_iff in E as [_ ?].
Qed.

(** Section edits, as their readers see them. *)
Lemma in_section_puts section key rest :
  plain_key key = true → one_line rest →
  puts (section_line section (has_prefix key)) (key +:+ " = " +:+ rest)
    (in_section section (has_prefix key) (key +:+ " = " +:+ rest)).
Proof.
  intros Hk Hr content. unfold section_line. rewrite lines_in_section by by apply key_line_one.
  apply get_edited; [by apply set_line|by apply key_prefix].
Qed.

Lemma in_section_keeps section section' matches matches' key rest :
  plain_key key = true → one_line rest →
  section' ≠ section ∨
  (matches' (TrimSpace (key +:+ " = " +:+ rest)) = false ∧
   ∀ t, matches t = true → matches' t = false) →
  keeps (section_line section' matches') (in_section section matches (key +:+ " = " +:+ rest)).
Proof.
  intros Hk Hr Hor content. unfold section_line.
  rewrite lines_in_section by by apply key_line_one.
  pose proof (set_line key rest Hk) as [He _]. destruct Hor as [Hne|[H1 H2]].
  - by apply get_other_section.
  - by apply get_other_key.
Qed.

Lemma edit_section_keeps_line section matches key rest key' :
  plain_key key = true → one_line rest → plain_key key' = true → key' ≠ key →
  (∀ l, matches (TrimSpace l) = true → key_pattern key' l = None) →
  keeps (file_line key') (in_section section matches (key +:+ " = " +:+ rest)).
Proof.
  intros Hk Hr Hk' Hne Hm content. unfold file_line.
  rewrite lines_in_section by by apply key_line_one.
  assert (Hnew : key_pattern key' (key +:+ " = " +:+ rest) = None).
  { destruct (key_pattern key' _) eqn:E; [|done]. destruct Hne.
    eapply key_pattern_inj; [done|done|exact E|].
    apply (key_pattern_spec key _ ""); [done|]. by exists " ", (String " "%char rest). }
  destruct (edit_section_one section matches (key +:+ " = " +:+ rest) false (lines content))
    as [[-> _]|(l1 & x & l2 & -> & -> & Hx)]; [done|].
  assert (Hold : key_pattern key' x = None).
  { by eapply Hm, get_section_matches. }
  clear Hx. induction l1 as [|y l1 IH]; simpl; [by rewrite Hnew, Hold|]. by destruct (key_pattern key' y).
Qed.

Lemma quoted_one_line key value : plain_key key = true → one_line value → one_line (quoted key value).
Proof.
  intros Hk Hv. apply key_line_one; [done|]. unfold one_line in *.
  change (has_char newline (String dquote (value +:+ String dquote "")) = false). simpl.
  by rewrite has_char_app, Hv.
Qed.

Lemma lines_set_value key value content :
  plain_key key = true → one_line value →
  lines (set_value key value content) = edit_line key value (lines content).
Proof.
  intros Hk Hv. pose proof (quoted_one_line key value Hk Hv) as Hq.
  apply lines_unlines.
  - pose proof (split_on_ne newline content). unfold lines.
    destruct (split_on newline content); simpl; [done|]. by case_match.
  - pose proof (lines_one_line content) as Hl. induction (lines content) as [|l rest IH]; [done|].
    apply Forall_cons in Hl as [Hl Hrest]. simpl. destruct (key_pattern key l) as [ws|] eqn:E.
    + constructor; [|done]. apply key_pattern_spec in E as (ws' & r & -> & _); [|done].
      unfold one_line in *. rewrite has_char_app in *. by apply orb_false_iff in Hl as [-> _].
    + constructor; auto.
Qed.

(** The new line is one that sets the key. *)
Lemma key_pattern_quoted key value ws :
  plain_key key = true → all_chars re_space ws = true →
  key_pattern key (ws +:+ quoted key value) = Some ws ∧
  (span_space (ws +:+ quoted key value)).2 = quoted key value.
Proof.
  intros Hk Hws. split.
  - apply key_pattern_spec; [done|]. unfold quoted. by eexists " ", _.
  - pose proof (plain_key_cons key Hk) as (c & k & -> & Hc & _).
    rewrite span_space_app; [done|done|]. simpl. unfold re_space. by rewrite key_char_not_space.
Qed.

Lemma set_value_puts key value :
  plain_key key = true → one_line value →
  puts (file_line key) (quoted key value) (set_value key value).
Proof.
  intros Hk Hv content. unfold file_line. rewrite lines_set_value by done.
  induction (lines content) as [|l rest IH]; [done|]. simpl.
  destruct (key_pattern key l) as [ws|] eqn:E; simpl.
  - assert (Hws : all_chars re_space ws = true) by
      (by apply key_pattern_spec in E as (ws' & r & -> & ? & _)).
    destruct (key_pattern_quoted key value ws Hk Hws) as [-> ->]. done.
  - by rewrite E.
Qed.

Lemma set_value_keeps_line key value key' :
  plain_key key = true → one_line value → plain_key key' = true → key' ≠ key →
  keeps (file_line key') (set_value key value).
Proof.
  intros Hk Hv Hk' Hne content. unfold file_line. rewrite lines_set_value by done.
  induction (lines content) as [|l rest IH]; [done|]. simpl.
  destruct (key_pattern key l) as [ws|] eqn:E; simpl; [|by rewrite IH].
  assert (Hws : all_chars re_space ws = true) by
    (by apply key_pattern_spec in E as (ws' & r & -> & ? & _)).
  destruct (key_pattern key' (ws +:+ _)) eqn:E1.
  { destruct Hne. eapply key_pattern_inj; [done|done|exact E1|]. by apply key_pattern_quoted. }
  destruct (key_pattern key' l) eqn:E2; [|done].
  destruct Hne. by eapply key_pattern_inj.
Qed.

Lemma set_value_keeps_section key value section matches :
  plain_key key = true → one_line value →
  (∀ t, has_prefix key t = true → matches t = false) →
  keeps (section_line section matches) (set_value key value).
Proof.
  intros Hk Hv Hm content. unfold section_line. rewrite lines_set_value by done.
  assert (Hb : ∀ l ws, key_pattern key l = Some ws →
    has_prefix "[" (TrimSpace l) = false ∧ matches (TrimSpace l) = false).
  { intros l ws Hl. apply key_pattern_trim in Hl; [|done]. split; [|by apply Hm].
    apply has_prefix_spec in Hl as [u ->]. apply plain_key_cons in Hk as (c & k & -> & Hc & _).
    change (has_prefix "[" (String c (k +:+ u)) = false). unfold has_prefix.
    unfold key_char in Hc. rewrite !andb_true_iff in Hc. destruct Hc as [_ Hc].
    rewrite bool_decide_false; [done|]. by intros <-. }
  assert (Hall : ∀ ls b, get_section ("[" +:+ section +:+ "]") matches b (edit_line key value ls) =
    get_section ("[" +:+ section +:+ "]") matches b ls); [|apply Hall].
  induction ls as [|l rest IH]; intros b; [done|]. simpl.
  destruct (key_pattern key l) as [ws|] eqn:E; simpl; [|by rewrite !IH].
  assert (Hws : all_chars re_space ws = true) by
    (by apply key_pattern_spec in E as (ws' & r & -> & ? & _)).
  destruct (Hb _ _ E) as [H1 H2].
  destruct (Hb _ _ (proj1 (key_pattern_quoted key value ws Hk Hws))) as [H3 H4].
  rewrite H1, H2, H3, H4, !andb_false_r.
  rewrite !bool_decide_false; [done|intros Eh; by rewrite Eh in H1|intros Eh; by rewrite Eh in H3].
Qed.

(** ** What the editors do to a node's configuration *)

(** The readers of what other nodes need to find this one, and of whom it dials. *)
Definition neutral (F : string → string) : Prop :=
  keeps (read_laddr "p2p") F ∧ keeps (file_line "persistent_peers") F.

Lemma neutral_compose F G : neutral F → neutral G → neutral (G ∘ F).
Proof. intros [H1 H2] [H3 H4]. split; by apply keeps_compose. Qed.

Lemma set_value_neutral key value :
  plain_key key = true → one_line value → key ≠ "persistent_peers" →
  has_prefix key "laddr" = false → has_prefix "laddr" key = false → neutral (set_value key value).
Proof.
  intros Hk Hv Hne H1 H2. split.
  - apply set_value_keeps_section; [done..|]. intros t Ht. by eapply has_prefix_disjoint.
  - by apply set_value_keeps_line.
Qed.

(** A section edit of another key than [laddr], or in another section. *)
Lemma in_section_neutral section matches key key' rest :
  plain_key key = true → one_line rest → plain_key key' = true → key ≠ "persistent_peers" →
  (∀ t, matches t = true → has_prefix key' t = true) →
  has_prefix key' "persistent_peers" = false → has_prefix "persistent_peers" key' = false →
  section ≠ "p2p" ∨
    has_prefix key' "laddr" = false ∧ has_prefix "laddr" key' = false ∧
    has_prefix key "laddr" = false ∧ has_prefix "laddr" key = false →
  neutral (in_section section matches (key +:+ " = " +:+ rest)).
Proof.
  intros Hk Hr Hk' Hne Hm Hp1 Hp2 Hor. split.
  - apply in_section_keeps; [done|done|]. destruct Hor as [Hs|(H1 & H2 & H3 & H4)]; [by left|right].
    split; [|intros t Ht; eapply has_prefix_disjoint; [by apply Hm|done..]].
    eapply has_prefix_disjoint; [by apply key_prefix|done..].
  - apply edit_section_keeps_line; [done..|]. intros l Hl.
    destruct (key_pattern "persistent_peers" l) as [ws|] eqn:E; [|done].
    apply key_pattern_trim in E; [|done].
    rewrite (has_prefix_disjoint key' "persistent_peers") in E; [done|by apply Hm|done..].
Qed.

Lemma show_bool_one_line b : one_line (show_bool b).
Proof. by destruct b. Qed.

Lemma one_line_app a b : one_line a → one_line b → one_line (a +:+ b).
Proof. unfold one_line. intros Ha Hb. by rewrite has_char_app, Ha, Hb. Qed.

Lemma itoa_one_line z : one_line (itoa z).
Proof. by apply has_char_itoa; [vm_compute; auto|]. Qed.

Lemma quoted_rest_one_line value :
  one_line value → one_line (String dquote (value +:+ String dquote EmptyString)).
Proof.
  intros Hv. unfold one_line in *. simpl. by rewrite has_char_app, Hv.
Qed.

#[export] Hint Resolve show_bool_one_line one_line_app itoa_one_line quoted_rest_one_line : devnet.
#[export] Hint Extern 1 (one_line (String _ _)) => reflexivity : devnet.

Section node.
Context (env : Env) (files : string → result string) (Hfiles : stores_files env files).
Context (nodeDir : string) (Hpaths : ConfigPath nodeDir ≠ AppConfigPath nodeDir).

Lemma SetPersistentPeers_edits peers :
  one_line peers →
  ∃ F, edits env nodeDir (SetPersistentPeers env nodeDir peers) F id ∧
    puts (file_line "persistent_peers") (quoted "persistent_peers" peers) F ∧
    keeps (read_laddr "p2p") F.
Proof.
  intros Hp. exists (set_value "persistent_peers" peers). split_and!.
  - apply (edits_config env files Hfiles nodeDir Hpaths).
  - by apply set_value_puts.
  - apply set_value_keeps_section; [done..|]. intros t Ht. by eapply has_prefix_disjoint.
Qed.

Lemma SetP2PLocalDevnet_edits :
  ∃ F, edits env nodeDir (SetP2PLocalDevnet env nodeDir) F id ∧ neutral F.
Proof.
  eexists. split.
  - eapply (edits_config_then env nodeDir); apply (edits_config env files Hfiles nodeDir Hpaths).
  - apply neutral_compose;
      [apply (in_section_neutral _ _ _ "addr_book_strict")|apply (in_section_neutral _ _ _ "allow_duplicate_ip")];
      auto with devnet.
Qed.

Lemma SetConsensusParams_edits :
  ∃ F, edits env nodeDir (SetConsensusParams env nodeDir) F id ∧ neutral F.
Proof.
  eexists. split.
  - do 3 (eapply (edits_config_then env nodeDir); [apply (edits_config env files Hfiles nodeDir Hpaths)|]).
    apply (edits_config env files Hfiles nodeDir Hpaths).
  - do 3 (apply neutral_compose; [by apply set_value_neutral|]). by apply set_value_neutral.
Qed.

Lemma EnableNode0Services_edits :
  ∃ G, edits env nodeDir (EnableNode0Services env nodeDir) id G.
Proof.
  eexists. do 3 (eapply (edits_app_then env nodeDir);
    [apply edits_wrapping; apply (edits_app env files Hfiles nodeDir Hpaths)|]).
  apply edits_wrapping. apply (edits_app env files Hfiles nodeDir Hpaths).
Qed.

(** The address a node listens on for its peers. *)
Definition listen_host (host : string) : string :=
  if bool_decide (host = "") then "0.0.0.0" else host.

Lemma SetPortsWithHost_edits nodeIndex host :
  one_line host →
  ∃ F G, edits env nodeDir (SetPortsWithHost env nodeDir nodeIndex host) F G ∧
    puts (read_laddr "p2p") (laddr DefaultP2PPort (listen_host host)) F ∧
    keeps (file_line "persistent_peers") F.
Proof.
  intros Hh. assert (Hl : one_line (listen_host host)) by (unfold listen_host; by case_bool_decide).
  eexists _, _. split.
  - do 4 (eapply (edits_config_then env nodeDir);
      [apply edits_wrapping; apply (edits_config env files Hfiles nodeDir Hpaths)|]).
    do 3 (eapply (edits_app_then env nodeDir);
      [apply edits_wrapping; apply (edits_app env files Hfiles nodeDir Hpaths)|]).
    apply edits_wrapping. apply (edits_app env files Hfiles nodeDir Hpaths).
  - fold (listen_host host).
    assert (Hr : one_line (String dquote (("tcp://" +:+ listen_host host +:+ ":" +:+
      itoa DefaultP2PPort) +:+ String dquote ""))) by auto 10 with devnet.
    assert (Hn : neutral (
      (set_value "pprof_laddr" (listen_host host +:+ ":" +:+ itoa DefaultPProfPort)
       ∘ set_value "proxy_app" ("tcp://" +:+ listen_host host +:+ ":" +:+ itoa DefaultProxyPort))
      ∘ in_section "rpc" (has_prefix "laddr") (laddr DefaultRPCPort (listen_host host)))).
    { apply neutral_compose.
      - apply (in_section_neutral _ _ _ "laddr"); auto 10 with devnet.
      - apply neutral_compose; apply set_value_neutral; auto 10 with devnet. }
    destruct Hn as [Hn1 Hn2]. split.
    + apply (puts_keeps _ _ (in_section "p2p" (has_prefix "laddr") (laddr DefaultP2PPort (listen_host host))));
        [by apply in_section_puts|exact Hn1].
    + apply (keeps_compose _ (in_section "p2p" (has_prefix "laddr") (laddr DefaultP2PPort (listen_host host))));
        [|exact Hn2].
      apply edit_section_keeps_line; [done..|]. intros l Ht.
      destruct (key_pattern "persistent_peers" l) as [ws|] eqn:E; [|done].
      apply key_pattern_trim in E; [|done].
      by rewrite (has_prefix_disjoint "laddr" "persistent_peers") in E.
Qed.
End node.

(** ** An example *)

Definition ex_app : string :=
  unlines ["[api]"; "enable = false"; "address = 1317"; "[grpc]"; "address = 9090"].

Lemma setSectionValue_outcomes_witness :
  ∃ content', sets "grpc" "address" (quoted "address" "127.0.4.1:9090") ex_app content'.
Proof.
  pose proof (setSectionValue_outcomes (store_env (λ _, Ok ex_app)) "/n/config/app.toml" "grpc"
    "address" "127.0.4.1:9090" (mkEState [] 0) eq_refl eq_refl) as Ho.
  destruct (setSectionValue _ _ _ _ _ _) as [r st']. simpl in Ho.
  destruct Ho as (content' & _ & _ & _ & Hs). exists content'. exact Hs.
Defined.

Example in_section_example :
  section_line "grpc" (sets_key "address")
    (in_section "grpc" (sets_key "address") (quoted "address" "127.0.4.1:9090") ex_app) =
    Some (quoted "address" "127.0.4.1:9090") ∧
  section_line "api" (sets_key "address")
    (in_section "grpc" (sets_key "address") (quoted "address" "127.0.4.1:9090") ex_app) =
    Some "address = 1317".
Proof. vm_compute. done. Qed.
