(* ===== verification/Forker.v ===== *)
(** * The genesis forker ([internal/daemon/provisioner/genesis_forker.go])

    [Fork] obtains a genesis from an RPC endpoint, a snapshot or a local file,
    validates it, sets its chain ID and lets the plugin patch it, through files
    when it is too large for a message.  encoding/json is the interface [JSON];
    the rest of the outside is in [ProvisionEnv]. *)

From stdpp Require Import base tactics numbers list strings pretty gmap.
From S2P Require Import Prelude Types Store Paths ProvisionTypes NodeController ProvisionEnv.

(** [json.Unmarshal] and [json.Marshal] at the types the forker uses: an object
    as a map ([None] is the nil map that [null] leaves), and the structs of
    [extractChainID] and of an RPC answer ([""] where the field is absent). *)
Class JSON := {
  J : Type;
  J_string : string → J;
  unmarshal_object : string → result (option (gmap string J));
  marshal_object : gmap string J → result string;
  unmarshal_chain_id : string → result string;
  unmarshal_rpc_genesis : string → result string
}.

Class JSONLaws `{JSON} := {
  unmarshal_marshal : ∀ m s, marshal_object m = Ok s → unmarshal_object s = Ok (Some m);
  chain_id_marshal : ∀ m s c, marshal_object m = Ok s →
    m !! "chain_id" = Some (J_string c) → unmarshal_chain_id s = Ok c
}.

(** Which of the optional services the forker was given. *)
Record GenesisForkerConfig := mkGenesisForkerConfig {
  fk_DataDir : string;
  fk_PluginGenesis : option PluginGenesis;
  fk_GenesisFetcher : bool;
  fk_SnapshotFetcher : bool;
  fk_StateExportService : bool
}.

Definition largeGenesisThreshold : Z := 2^30.

Section forker.
Context `{JSON}.
Variable env : Env.
Variable config : GenesisForkerConfig.

Definition reportStep (progress : bool) (name status detail : string) : E unit :=
  if progress then lift (note (CStep name status detail)) else ret tt.

(** A step between its reports; [msg] is what its error is wrapped in. *)
Definition reporting {A} (progress : bool) (name detail msg : string) (done_detail : A → string)
    (m : E A) : E A :=
  check! reportStep progress name "running" detail in
  do! r := m in
  match r with
  | Returns a => check! reportStep progress name "completed" (done_detail a) in ret a
  | Fails e => check! reportStep progress name "failed" (Error e) in fail (Wrap msg e)
  | r => done_with (stop r)
  end.

(** [defer os.RemoveAll(dir)]. *)
Definition removing {A} (dir : string) (m : E A) : E A :=
  do! r := m in run! note (CRemoveAll dir) in done_with r.

Definition work_dir (kind : string) (t : Time) : string :=
  Join [fk_DataDir config; "genesis-work"; kind +:+ "-" +:+ itoa t].

Definition extractChainID (genesis : string) : result string := unmarshal_chain_id genesis.

Definition applyPatches (genesis : string) (opts : GenesisPatchOptions) : outcome string :=
  if bool_decide (gp_ChainID opts = "") then Returns genesis
  else
    match unmarshal_object genesis with
    | Err e => Fails (Wrap "failed to parse genesis" e)
    | Ok None => Panics
    | Ok (Some gen) =>
        match marshal_object (<["chain_id" := J_string (gp_ChainID opts)]> gen) with
        | Ok s => Returns s
        | Err e => Fails e
        end
    end.

(** The endpoint to use: the one given, or else the plugin's. *)
Definition or_plugin (url : string) (of_plugin : PluginGenesis → string) : string :=
  match fk_PluginGenesis config with
  | Some p => if bool_decide (url = "") then of_plugin p else url
  | None => url
  end.

Definition rpc_url (opts : ForkOptions) : string :=
  or_plugin (gs_RPCURL (fo_Source opts))
    (λ p, GetRPCEndpoint p (gs_NetworkType (fo_Source opts))).

Definition snapshot_url (opts : ForkOptions) : string :=
  or_plugin (gs_SnapshotURL (fo_Source opts))
    (λ p, GetSnapshotURL p (gs_NetworkType (fo_Source opts))).

Definition fetch_rpc (url : string) : E string :=
  call (λ t, FetchFromRPC env t url) (CFetchFromRPC url).

Definition fetchGenesisHTTP (url : string) : E string :=
  try! resp := call (λ t, HTTPGet env t url) (CHTTPGet url) in
  if bool_decide (http_StatusCode resp ≠ 200)%Z
  then fail (Errorf ("HTTP " +:+ itoa (http_StatusCode resp) +:+ ": " +:+ http_Status resp))
  else
    match http_Body resp with
    | Err e => fail e
    | Ok body =>
        ret (match unmarshal_rpc_genesis body with
             | Ok g => if bool_decide (g ≠ "") then g else body
             | Err _ => body
             end)
    end.

Definition forkFromRPC (opts : ForkOptions) : E string :=
  let rpcURL := rpc_url opts in
  if bool_decide (rpcURL = "") then fail (Errorf "no RPC URL specified")
  else if fk_GenesisFetcher config then fetch_rpc rpcURL
  else fetchGenesisHTTP (rpcURL +:+ "/genesis").

Definition cache_key (opts : ForkOptions) : string :=
  match fk_PluginGenesis config with
  | Some p => BinaryName p +:+ "-" +:+ gs_NetworkType (fo_Source opts)
  | None => ""
  end.

(** The genesis that the export reads the chain's parameters from. *)
Definition fetchRPCGenesis (rpcURL : string) (progress : bool) : E string :=
  let step := reportStep progress "Fetching RPC genesis" in
  check! step "running" rpcURL in
  do! r := fetch_rpc rpcURL in
  match r with
  | Fails e => check! step "failed" (Error e) in
               fail (Wrap ("failed to fetch RPC genesis from " +:+ rpcURL) e)
  | Returns rpcGenesis =>
      if bool_decide (rpcGenesis = "")
      then check! step "failed" "empty response" in
           fail (Errorf ("RPC genesis is empty: fetched from " +:+ rpcURL
                         +:+ " but received no data"))
      else check! step "completed" "" in ret rpcGenesis
  | r => done_with (stop r)
  end.

Definition forkFromSnapshotInfra (opts : ForkOptions) (snapshotURL : string) (progress : bool)
    : E string :=
  try! t := lift (now_env env) in
  let workDir := work_dir "fork" t in
  check! wrapping "failed to create work dir"
    (call_err (λ t, MkdirAll env t workDir) (CMkdirAll workDir)) in
  removing workDir (
    let cacheKey := cache_key opts in
    try! ' (snapshotPath, fromCache) :=
      reporting progress "Downloading snapshot" snapshotURL "failed to download snapshot"
        (λ '(_, fromCache), if fromCache : bool then "from cache" else "")
        (call (λ t, DownloadWithCache env t snapshotURL cacheKey (fo_NoCache opts))
              (CDownload snapshotURL cacheKey (fo_NoCache opts))) in
    check! reporting progress "Extracting snapshot" "" "failed to extract snapshot" (λ _, "")
      (call_err (λ t, Extract env t snapshotPath workDir) (CExtract snapshotPath workDir)) in
    let rpcURL := rpc_url opts in
    if bool_decide (rpcURL = "")
    then fail (Errorf ("no RPC URL available for network type "
                       +:+ quote (gs_NetworkType (fo_Source opts)) +:+
                       ": plugin must implement GetRPCEndpoint() or provide RPCURL in source options"))
    else if negb (fk_GenesisFetcher config)
    then fail (Errorf ("genesis fetcher not configured: cannot fetch RPC genesis from " +:+ rpcURL))
    else
      try! rpcGenesis := fetchRPCGenesis rpcURL progress in
      let exportOpts := mkStateExportOptions workDir (fo_BinaryPath opts) rpcGenesis
                          cacheKey snapshotURL fromCache in
      reporting progress "Exporting state from snapshot" ""
        "failed to export genesis from snapshot" (λ _, "")
        (call (λ t, ExportFromSnapshot env t exportOpts) (CExport exportOpts))).

Definition forkFromSnapshot (opts : ForkOptions) (progress : bool) : E string :=
  if bool_decide (fo_BinaryPath opts = "")
  then fail (Errorf "binary path required for snapshot export")
  else
    let snapshotURL := snapshot_url opts in
    if bool_decide (snapshotURL = "") then fail (Errorf "no snapshot URL specified")
    else if fk_SnapshotFetcher config && fk_StateExportService config
    then forkFromSnapshotInfra opts snapshotURL progress
    else fail (Errorf "snapshot forking requires SnapshotFetcher and StateExportService").

Definition forkFromLocal (opts : ForkOptions) : E string :=
  let path := gs_LocalPath (fo_Source opts) in
  if bool_decide (path = "") then fail (Errorf "local path required for local mode")
  else
    let cleanPath := Clean path in
    if negb (rooted cleanPath) then fail (Errorf ("local path must be absolute: " +:+ path))
    else wrapping "failed to read local genesis"
           (call (λ t, ReadFile env t cleanPath) (CReadFile cleanPath)).

Definition fork_result (opts : ForkOptions) (sourceChainID genesis : string) : E ForkResult :=
  try! t := lift (now_env env) in
  ret (mkForkResult genesis sourceChainID (gp_ChainID (fo_PatchOpts opts))
         (gs_Mode (fo_Source opts)) t).

Definition lift_outcome {A} (o : outcome A) : E A := done_with o.

Definition patchLargeGenesis (genesis sourceChainID : string) (opts : ForkOptions)
    : E ForkResult :=
  match fk_PluginGenesis config ≫= PatchGenesisFile with
  | None => fail (Errorf ("genesis size (" +:+ itoa (Z.of_nat (String.length genesis)) +:+
      " bytes) exceeds gRPC limit but plugin does not support file-based patching"))
  | Some patch_file =>
      try! t := lift (now_env env) in
      let workDir := work_dir "patch" t in
      let write msg path data :=
        wrapping msg (call_err (λ t, WriteFile env t path data) (CWriteFile path data)) in
      check! wrapping "failed to create work dir for large genesis"
        (call_err (λ t, MkdirAll env t workDir) (CMkdirAll workDir)) in
      removing workDir (
        check! write "failed to write genesis to temp file"
                 (Join [workDir; "genesis-input.json"]) genesis in
        try! patched := wrapping "failed to apply patches"
                          (lift_outcome (applyPatches genesis (fo_PatchOpts opts))) in
        let patchedInputPath := Join [workDir; "genesis-patched.json"] in
        check! write "failed to write patched genesis" patchedInputPath patched in
        let outputPath := Join [workDir; "genesis-output.json"] in
        try! _ := wrapping "file-based plugin patch failed"
          (call (λ t, patch_file t patchedInputPath outputPath (fo_PatchOpts opts))
                (CPatchGenesisFile patchedInputPath outputPath (fo_PatchOpts opts))) in
        try! result := wrapping "failed to read patched genesis"
          (call (λ t, ReadFile env t outputPath) (CReadFile outputPath)) in
        fork_result opts sourceChainID result)
  end.

(** The genesis of [Fork], by the mode of the source. *)
Definition fetch (opts : ForkOptions) (progress : bool) : E string :=
  let source := fo_Source opts in
  let step name detail :=
    reporting progress name detail "failed to fetch genesis" (λ _, "") in
  if bool_decide (gs_Mode source = GenesisModeRPC)
  then step "Fetching genesis from RPC" (gs_RPCURL source) (forkFromRPC opts)
  else if bool_decide (gs_Mode source = GenesisModeSnapshot)
  then step "Forking from snapshot" (gs_SnapshotURL source) (forkFromSnapshot opts progress)
  else if bool_decide (gs_Mode source = GenesisModeLocal)
  then step "Loading genesis from local file" (gs_LocalPath source) (forkFromLocal opts)
  else fail (Errorf ("unsupported genesis mode: " +:+ gs_Mode source)).

(** A failure of the patch step, reported. *)
Definition patch_failing {A} (progress : bool) (msg : string) (m : E A) : E A :=
  do! r := m in
  match r with
  | Fails e => check! reportStep progress "Applying genesis patches" "failed" (Error e) in
               fail (Wrap msg e)
  | r => done_with r
  end.

(** Setting the chain ID and letting the plugin patch, between their reports. *)
Definition patch (genesis : string) (opts : ForkOptions) (progress : bool) : E string :=
  let step := reportStep progress "Applying genesis patches" in
  check! step "running" "" in
  try! patched := patch_failing progress "failed to apply patches"
                    (lift_outcome (applyPatches genesis (fo_PatchOpts opts))) in
  try! patched :=
    (match fk_PluginGenesis config with
     | Some p => patch_failing progress "plugin patch failed"
         (call (λ t, PatchGenesis p t patched (fo_PatchOpts opts))
               (CPatchGenesis patched (fo_PatchOpts opts)))
     | None => ret patched
     end) in
  check! step "completed" "" in
  ret patched.

Definition Fork (opts : ForkOptions) (progress : bool) : E ForkResult :=
  try! genesis := fetch opts progress in
  let sourceChainID := match extractChainID genesis with Ok c => c | Err _ => "" end in
  if bool_decide (largeGenesisThreshold < Z.of_nat (String.length genesis))%Z
  then patchLargeGenesis genesis sourceChainID opts
  else
    check! (match fk_PluginGenesis config with
            | Some p => wrapping "genesis validation failed"
                (call_err (λ t, ValidateGenesis p t genesis) (CValidateGenesis genesis))
            | None => ret tt
            end) in
    try! patched := patch genesis opts progress in
    fork_result opts sourceChainID patched.
End forker.

(** ** The helpers only add calls *)

Section emits.
Context (φ : Call → Prop) (env : Env) (config : GenesisForkerConfig) `{JSON}.

Lemma emits_reportStep progress name status detail :
  φ (CStep name status detail) → emits φ (reportStep progress name status detail).
Proof. intros Hs. unfold reportStep. destruct progress; emit. Qed.

Lemma emits_reporting {A} progress name detail msg d (m : E A) :
  (∀ s x, φ (CStep name s x)) → emits φ m → emits φ (reporting progress name detail msg d m).
Proof.
  intros Hs Hm. unfold reporting. apply emits_bindE; [by apply emits_reportStep|].
  intros _. apply emits_bind; [done|]. intros [a|e| |].
  - apply emits_bindE; [by apply emits_reportStep|]. emit.
  - apply emits_bindE; [by apply emits_reportStep|]. emit.
  - emit.
  - emit.
Qed.

Lemma emits_removing {A} dir (m : E A) :
  φ (CRemoveAll dir) → emits φ m → emits φ (removing dir m).
Proof.
  intros Hd Hm. unfold removing. apply emits_bind; [done|]. intros r.
  apply emits_bind; [by apply emits_note|]. intros _. apply emits_done.
Qed.
End emits.

Lemma reporting_Returns {A} progress name detail msg d (m : E A) st a st' :
  reporting progress name detail msg d m st = (Returns a, st') →
  ∃ st1 st2, m st1 = (Returns a, st2) ∧
    (∃ l, es_calls st1 = es_calls st ++ l) ∧ ∃ l, es_calls st' = es_calls st2 ++ l.
Proof.
  unfold reporting. intros (u & st1 & H1 & H2)%bindE_Returns. unfold bindM in H2.
  destruct (m st1) as [[b|e| |] st2] eqn:Hm; [| |done|done].
  - apply bindE_Returns in H2 as (v & st3 & H3 & H4). unfold ret, done_with in H4. simplify_eq.
    exists st1, st2. split; [done|]. split.
    + eapply (emits_grows any_call) in H1 as (l & El & _); [by exists l|by apply emits_reportStep].
    + eapply (emits_grows any_call) in H3 as (l & El & _); [by exists l|by apply emits_reportStep].
  - apply bindE_Returns in H2 as (v & st3 & _ & H4). unfold fail, done_with in H4. done.
Qed.

Lemma yields_reporting {A} (P : Call → A → Prop) progress name detail msg d m :
  yields P m → yields P (reporting progress name detail msg d m).
Proof.
  intros Hm st a st' (st1 & st2 & Hr & [l1 E1] & [l2 E2])%reporting_Returns.
  destruct (yields_more P m st1 st2 a l2 Hm Hr) as (l & c & E & Hc & HP).
  exists (l1 ++ l), c. rewrite E2, E, E1, (assoc_L app). split_and!; [done| |done].
  apply elem_of_app. by right.
Qed.

Lemma yields_removing {A} (P : Call → A → Prop) dir m : yields P m → yields P (removing dir m).
Proof.
  intros Hm st a st' Hr. unfold removing, bindM, note, ask_env, done_with in Hr.
  destruct (m st) as [r st1] eqn:E. injection Hr as -> <-. simpl.
  by eapply yields_more.
Qed.

(** ** Where the genesis comes from *)

Section spec.
Context `{JSONLaws}.
Context (env : Env) (config : GenesisForkerConfig) (opts : ForkOptions).
Let mode := gs_Mode (fo_Source opts).

(** The call whose answer is the source genesis. *)
Inductive origin : Call → string → Prop :=
| origin_local g :
    mode = GenesisModeLocal → rooted (Clean (gs_LocalPath (fo_Source opts))) = true →
    origin (CReadFile (Clean (gs_LocalPath (fo_Source opts))) (Ok g)) g
| origin_fetched g :
    mode = GenesisModeRPC → rpc_url config opts ≠ "" →
    origin (CFetchFromRPC (rpc_url config opts) (Ok g)) g
| origin_http g status body :
    mode = GenesisModeRPC → rpc_url config opts ≠ "" →
    (g = body ∨ unmarshal_rpc_genesis body = Ok g) →
    origin (CHTTPGet (rpc_url config opts +:+ "/genesis")
              (Ok (mkResponse 200 status (Ok body)))) g
| origin_exported g export :
    mode = GenesisModeSnapshot → se_RpcGenesis export ≠ "" →
    se_BinaryPath export = fo_BinaryPath opts → se_SnapshotURL export = snapshot_url config opts →
    origin (CExport export (Ok g)) g.

Lemma forkFromLocal_origin :
  mode = GenesisModeLocal → yields origin (forkFromLocal env opts).
Proof.
  intros Hm. unfold forkFromLocal. case_bool_decide; [apply yields_fail|].
  destruct (negb _) eqn:Hr; [apply yields_fail|]. apply negb_false_iff in Hr.
  apply yields_wrapping, yields_call. intros g. by constructor.
Qed.

Lemma forkFromRPC_origin :
  mode = GenesisModeRPC → yields origin (forkFromRPC env config opts).
Proof.
  intros Hm. unfold forkFromRPC. case_bool_decide as Hu; [apply yields_fail|].
  destruct (fk_GenesisFetcher config).
  - apply yields_call. intros g. by constructor.
  - unfold fetchGenesisHTTP. intros st g st' (resp & st1 & [Ha ->]%call_Returns & Hk)%bindE_Returns.
    case_bool_decide as Hs; [done|]. destruct resp as [code status [body|e]]; [|done].
    simpl in *. unfold ret, done_with in Hk. injection Hk as <- <-. simpl.
    eexists _, _. split; [done|]. split; [by left|].
    assert (code = 200%Z) as -> by (destruct (decide (code = 200%Z)); [done|by destruct Hs]).
    constructor; [done..|]. destruct (unmarshal_rpc_genesis body) eqn:E; [|by left].
    case_bool_decide; [by right|by left].
Qed.

Lemma emits_fetchRPCGenesis url progress : emits quiet (fetchRPCGenesis env url progress).
Proof.
  unfold fetchRPCGenesis, fetch_rpc. apply emits_bindE; [by apply emits_reportStep|]. intros _.
  apply emits_bind; [emit|]. intros [rpc|e| |]; [case_bool_decide| |emit|emit];
    (apply emits_bindE; [by apply emits_reportStep|emit]).
Qed.

Lemma fetchRPCGenesis_ne url progress st g st' :
  fetchRPCGenesis env url progress st = (Returns g, st') → g ≠ "".
Proof.
  unfold fetchRPCGenesis. intros (u & st1 & _ & H2)%bindE_Returns. unfold bindM in H2.
  destruct (fetch_rpc env url st1) as [[rpc|e| |] st2]; [case_bool_decide| |done|done].
  - by apply bindE_Returns in H2 as (v & st3 & _ & H4).
  - apply bindE_Returns in H2 as (v & st3 & _ & H4). unfold ret, done_with in H4. by simplify_eq.
  - by apply bindE_Returns in H2 as (v & st3 & _ & H4).
Qed.

Lemma forkFromSnapshot_origin progress :
  mode = GenesisModeSnapshot → yields origin (forkFromSnapshot env config opts progress).
Proof.
  intros Hm. unfold forkFromSnapshot. case_bool_decide; [apply yields_fail|].
  case_bool_decide; [apply yields_fail|]. destruct (_ && _); [|apply yields_fail].
  unfold forkFromSnapshotInfra. apply yields_then; [emit|]. intros t.
  apply yields_then; [emit|]. intros _. apply yields_removing.
  apply yields_then; [by apply emits_reporting; [|emit]|]. intros [path cached].
  apply yields_then; [by apply emits_reporting; [|emit]|]. intros _.
  case_bool_decide; [apply yields_fail|]. destruct (negb _); [apply yields_fail|].
  apply (yields_then_post _ (λ g, g ≠ "")); [eapply emits_any, emits_fetchRPCGenesis|apply fetchRPCGenesis_ne|].
  intros rpc Hrpc. apply yields_reporting, yields_call. intros g. by constructor.
Qed.

(** What fetching returned is the answer to such a call. *)
Lemma fetch_origin progress :
  yields (λ c g, origin c g) (fetch env config opts progress).
Proof.
  unfold fetch. case_bool_decide; [by apply yields_reporting, forkFromRPC_origin|].
  case_bool_decide; [by apply yields_reporting, forkFromSnapshot_origin|].
  case_bool_decide; [by apply yields_reporting, forkFromLocal_origin|]. apply yields_fail.
Qed.

(** ** What the patches do *)

(** Setting the chain ID changes that field of the object and nothing else. *)
Lemma applyPatches_object genesis patched patches :
  applyPatches genesis patches = Returns patched → gp_ChainID patches ≠ "" →
  ∃ m, unmarshal_object genesis = Ok (Some m) ∧
    unmarshal_object patched = Ok (Some (<["chain_id" := J_string (gp_ChainID patches)]> m)) ∧
    extractChainID patched = Ok (gp_ChainID patches).
Proof.
  unfold applyPatches, extractChainID. intros Hr Hc. rewrite bool_decide_false in Hr by done.
  destruct (unmarshal_object genesis) as [[m|]|] eqn:Hm; [|done|done].
  destruct (marshal_object _) as [s|] eqn:Hs; [|done]. injection Hr as <-.
  exists m. split_and!; [done|by apply unmarshal_marshal|].
  eapply chain_id_marshal; [done|]. apply lookup_insert_eq.
Qed.

(** How the plugin's calls turn the patched source into the result. *)
Inductive plugin_patched (source patched : string) (l : list Call) (g : string) : Prop :=
| no_plugin : fk_PluginGenesis config = None → g = patched → plugin_patched source patched l g
| by_message :
    is_Some (fk_PluginGenesis config) →
    (Z.of_nat (String.length source) ≤ largeGenesisThreshold)%Z →
    CValidateGenesis source None ∈ l →
    CPatchGenesis patched (fo_PatchOpts opts) (Ok g) ∈ l →
    plugin_patched source patched l g
| by_file (input output : string) (size : Z) :
    (largeGenesisThreshold < Z.of_nat (String.length source))%Z →
    CWriteFile input patched None ∈ l →
    CPatchGenesisFile input output (fo_PatchOpts opts) (Ok size) ∈ l →
    CReadFile output (Ok g) ∈ l →
    plugin_patched source patched l g.

Lemma removing_Returns {A} dir (m : E A) st a st' :
  removing dir m st = (Returns a, st') →
  ∃ st1, m st = (Returns a, st1) ∧ es_calls st' = es_calls st1 ++ [CRemoveAll dir].
Proof.
  unfold removing, bindM, note, ask_env, done_with. destruct (m st) as [r st1].
  intros [= -> <-]. exists st1. split; reflexivity.
Qed.

Lemma emits_fetch progress : emits quiet (fetch env config opts progress).
Proof.
  unfold fetch. repeat case_bool_decide; [| | |emit];
    (apply emits_reporting; [done|]); unfold forkFromRPC, fetchGenesisHTTP, fetch_rpc,
    forkFromSnapshot, forkFromSnapshotInfra, forkFromLocal.
  1, 3: by repeat case_match; emit; repeat case_match; emit.
  case_bool_decide; [emit|]. case_bool_decide; [emit|]. case_match; [|emit].
  apply emits_bindE; [emit|]. intros t. apply emits_bindE; [emit|]. intros _.
  apply emits_removing; [done|]. apply emits_bindE; [by apply emits_reporting; [|emit]|].
  intros [path cached]. apply emits_bindE; [by apply emits_reporting; [|emit]|]. intros _.
  case_bool_decide; [emit|]. case_match; [emit|].
  apply emits_bindE; [apply emits_fetchRPCGenesis|]. intros rpc.
  by apply emits_reporting; [|emit].
Qed.

Lemma patch_failing_Returns {A} progress msg (m : E A) st a st' :
  patch_failing progress msg m st = (Returns a, st') → m st = (Returns a, st').
Proof.
  unfold patch_failing, bindM, done_with. destruct (m st) as [[b|e| |] st1]; [done| |done|done].
  intros (u & st2 & _ & Hr)%bindE_Returns. done.
Qed.

Lemma reportStep_grows progress name status detail st u st' :
  reportStep progress name status detail st = (Returns u, st') →
  ∃ l, es_calls st' = es_calls st ++ l.
Proof.
  intros Hr. eapply (emits_grows any_call) in Hr as (l & El & _); [by exists l|].
  by apply emits_reportStep.
Qed.

Lemma patch_Returns genesis progress st g st' :
  patch config genesis opts progress st = (Returns g, st') →
  ∃ patched l, applyPatches genesis (fo_PatchOpts opts) = Returns patched ∧
    es_calls st' = es_calls st ++ l ∧
    match fk_PluginGenesis config with
    | None => g = patched
    | Some _ => CPatchGenesis patched (fo_PatchOpts opts) (Ok g) ∈ l
    end.
Proof.
  unfold patch. intros (? & st1 & [l1 E1]%reportStep_grows & Hr)%bindE_Returns.
  apply bindE_Returns in Hr as (patched & st2 & H2 & Hr).
  apply patch_failing_Returns in H2. unfold lift_outcome, done_with in H2.
  injection H2 as Hp ->. apply bindE_Returns in Hr as (g' & st3 & H3 & Hr).
  apply bindE_Returns in Hr as (? & st4 & [l4 E4]%reportStep_grows & Hr). returns.
  exists patched. destruct (fk_PluginGenesis config) as [p|].
  - apply patch_failing_Returns in H3. returns. simpl in E4.
    eexists. rewrite E4, E1, <- !(assoc_L app). split_and!; [exact Hp|reflexivity|]. set_solver.
  - returns. eexists. by rewrite E4, E1, <- (assoc_L app).
Qed.

Lemma fork_result_Returns chainID g st r st' :
  fork_result env opts chainID g st = (Returns r, st') →
  es_calls st' = es_calls st ∧ fr_Genesis r = g ∧ fr_SourceChainID r = chainID ∧
  fr_NewChainID r = gp_ChainID (fo_PatchOpts opts) ∧ fr_SourceMode r = mode.
Proof.
  unfold fork_result. intros (t & st1 & Ht%lift_Returns & Hr)%bindE_Returns.
  injection Ht as <- <-. injection Hr as <- <-. done.
Qed.

Lemma patchLargeGenesis_Returns source chainID st r st' :
  (largeGenesisThreshold < Z.of_nat (String.length source))%Z →
  patchLargeGenesis env config source chainID opts st = (Returns r, st') →
  ∃ patched l, applyPatches source (fo_PatchOpts opts) = Returns patched ∧
    es_calls st' = es_calls st ++ l ∧ plugin_patched source patched l (fr_Genesis r) ∧
    fr_SourceChainID r = chainID ∧
    fr_NewChainID r = gp_ChainID (fo_PatchOpts opts) ∧ fr_SourceMode r = mode.
Proof.
  intros Hlarge. unfold patchLargeGenesis.
  destruct (fk_PluginGenesis config ≫= PatchGenesisFile) as [patch_file|]; [|by intros ?; returns].
  intros Hr. returns. apply removing_Returns in Hr as (st3 & Hr & E3). returns.
  match goal with Hp : lift_outcome _ _ = _ |- _ => injection Hp as Hp <- end.
  apply fork_result_Returns in Hr as (E9 & Hg & Hrest). cbn [es_calls] in *.
  eexists _, _. split; [eassumption|]. split; [by rewrite E3, E9, <- !(assoc_L app)|].
  split; [|done]. rewrite Hg. eapply by_file; [done|in_calls..].
Qed.

(** C26: when [Fork] returns, the mode is one it supports and the result was made
    from one source: the answer of the endpoint, of the export or of the local
    file, with the chain ID of the options set and then given to the plugin, by
    message up to a gigabyte and through files above.  Setting the chain ID
    changes that field of the genesis object and no other. *)
Theorem Fork_patches_source progress st r st' :
  Fork env config opts progress st = (Returns r, st') →
  ∃ source patched l,
    es_calls st' = es_calls st ++ l ∧
    (∃ c, c ∈ l ∧ origin c source) ∧
    applyPatches source (fo_PatchOpts opts) = Returns patched ∧
    plugin_patched source patched l (fr_Genesis r) ∧
    fr_NewChainID r = gp_ChainID (fo_PatchOpts opts) ∧ fr_SourceMode r = mode ∧
    (gp_ChainID (fo_PatchOpts opts) ≠ "" → ∃ m,
       unmarshal_object source = Ok (Some m) ∧
       unmarshal_object patched =
         Ok (Some (<["chain_id" := J_string (gp_ChainID (fo_PatchOpts opts))]> m)) ∧
       extractChainID patched = Ok (gp_ChainID (fo_PatchOpts opts))).
Proof.
  unfold Fork. intros (source & st1 & H1 & Hr)%bindE_Returns.
  pose proof (fetch_origin progress _ _ _ H1) as (l1 & c & E1 & Hc & Ho).
  assert (Hrest : ∃ patched l, applyPatches source (fo_PatchOpts opts) = Returns patched ∧
    es_calls st' = es_calls st1 ++ l ∧ plugin_patched source patched l (fr_Genesis r) ∧
    fr_NewChainID r = gp_ChainID (fo_PatchOpts opts) ∧ fr_SourceMode r = mode).
  { case_bool_decide as Hlarge.
    - apply patchLargeGenesis_Returns in Hr; naive_solver.
    - apply bindE_Returns in Hr as (? & st2 & H2 & Hr).
      apply bindE_Returns in Hr as (g & st3 & (patched & l3 & Hp & E3 & Hg)%patch_Returns & Hr).
      apply fork_result_Returns in Hr as (E4 & Hrg & _ & Hid & Hmode).
      exists patched. destruct (fk_PluginGenesis config) as [p|] eqn:Hpl; returns.
      + eexists. split; [done|]. split; [by rewrite E4, E3; simpl; rewrite <- (assoc_L app)|].
        split; [|done]. apply by_message; [by rewrite Hpl|lia|in_calls|].
        apply elem_of_app. right. by rewrite Hrg.
      + exists l3. split; [done|]. split; [by rewrite E4|]. split; [|done].
        apply no_plugin; congruence. }
  destruct Hrest as (patched & l & Hp & El & Hpl & Hid & Hmode).
  exists source, patched, (l1 ++ l). rewrite El, E1, (assoc_L app).
  split_and!; [done|exists c; split; [apply elem_of_app; by left|done]|done| |done|done|].
  - destruct Hpl; [by apply no_plugin|eapply by_message|eapply by_file];
      eauto; apply elem_of_app; by right.
  - intros Hne. by apply applyPatches_object.
Qed.

(** A mode that is none of the three is refused before anything is called. *)
Lemma Fork_unsupported progress st :
  mode ∉ [GenesisModeRPC; GenesisModeSnapshot; GenesisModeLocal] →
  Fork env config opts progress st =
    (Fails (Errorf ("unsupported genesis mode: " +:+ mode)), st).
Proof.
  intros Hm. rewrite !not_elem_of_cons in Hm. destruct Hm as (H1 & H2 & H3 & _).
  unfold Fork. rewrite bindE_eq. unfold fetch. fold mode.
  by rewrite !bool_decide_false by done.
Qed.

(** Forking reports no phase and touches no running node. *)
Lemma emits_patch_failing {A} progress msg (m : E A) :
  emits quiet m → emits quiet (patch_failing progress msg m).
Proof.
  intros Hm. unfold patch_failing. apply emits_bind; [done|].
  intros [a|e| |]; [emit| |emit|emit]. apply emits_bindE; [by apply emits_reportStep|emit].
Qed.

Lemma emits_Fork progress : emits quiet (Fork env config opts progress).
Proof.
  unfold Fork. apply emits_bindE; [apply emits_fetch|]. intros g. case_bool_decide.
  - unfold patchLargeGenesis. case_match; [|emit]. apply emits_bindE; [emit|]. intros t.
    apply emits_bindE; [emit|]. intros _. apply emits_removing; [done|].
    unfold fork_result, lift_outcome. emit.
  - apply emits_bindE; [emit|]. intros _. apply emits_bindE; [|unfold fork_result; emit].
    unfold patch, lift_outcome. apply emits_bindE; [by apply emits_reportStep|]. intros _.
    apply emits_bindE; [apply emits_patch_failing; emit|]. intros p.
    apply emits_bindE; [case_match; [apply emits_patch_failing|]; emit|]. intros q.
    apply emits_bindE; [by apply emits_reportStep|]. emit.
Qed.

(** ... and ends. *)
Lemma finishes_reportStep progress name status detail :
  finishes (reportStep progress name status detail).
Proof. unfold reportStep. finish. Qed.

Lemma finishes_reporting {A} progress name detail msg d (m : E A) :
  finishes m → finishes (reporting progress name detail msg d m).
Proof.
  intros Hm. apply finishes_bindE; [apply finishes_reportStep|]. intros _.
  apply finishes_case; [done|]. intros [a|e| |] Hr; try by apply finishes_done.
  all: apply finishes_bindE; [apply finishes_reportStep|finish].
Qed.

Lemma finishes_removing {A} dir (m : E A) : finishes m → finishes (removing dir m).
Proof.
  intros Hm. apply finishes_case; [done|]. intros r Hr. apply finishes_bindM. intros _.
  by apply finishes_done.
Qed.

Lemma finishes_patch_failing {A} progress msg (m : E A) :
  finishes m → finishes (patch_failing progress msg m).
Proof.
  intros Hm. apply finishes_case; [done|]. intros [a|e| |] Hr; try by apply finishes_done.
  apply finishes_bindE; [apply finishes_reportStep|finish].
Qed.

Lemma finishes_applyPatches genesis patches : finishes (lift_outcome (applyPatches genesis patches)).
Proof. apply finishes_done. unfold applyPatches. by repeat case_match. Qed.

Lemma finishes_fetch progress : finishes (fetch env config opts progress).
Proof.
  unfold fetch. repeat case_bool_decide; [| | |by apply finishes_done]; apply finishes_reporting.
  - unfold forkFromRPC, fetchGenesisHTTP, fetch_rpc. finish.
  - unfold forkFromSnapshot. case_bool_decide; [by apply finishes_done|].
    case_bool_decide; [by apply finishes_done|]. destruct (_ && _); [|by apply finishes_done].
    unfold forkFromSnapshotInfra. apply finishes_bindE; [finish|]. intros t.
    apply finishes_bindE; [finish|]. intros _. apply finishes_removing.
    apply finishes_bindE; [apply finishes_reporting; finish|]. intros [path cached].
    apply finishes_bindE; [apply finishes_reporting; finish|]. intros _.
    case_bool_decide; [by apply finishes_done|]. destruct (negb _); [by apply finishes_done|].
    apply finishes_bindE; [|intros rpc; apply finishes_reporting; finish].
    unfold fetchRPCGenesis, fetch_rpc. apply finishes_bindE; [apply finishes_reportStep|].
    intros _. apply finishes_case; [finish|]. intros [rpc|e| |] Hr; try by apply finishes_done.
    + case_bool_decide; (apply finishes_bindE; [apply finishes_reportStep|finish]).
    + apply finishes_bindE; [apply finishes_reportStep|finish].
  - unfold forkFromLocal. finish.
Qed.

Lemma finishes_Fork progress : finishes (Fork env config opts progress).
Proof.
  unfold Fork, fork_result. apply finishes_bindE; [apply finishes_fetch|]. intros g. case_bool_decide.
  - unfold patchLargeGenesis, fork_result. case_match; [|by apply finishes_done].
    apply finishes_bindE; [finish|]. intros t. apply finishes_bindE; [finish|]. intros _.
    apply finishes_removing. apply finishes_bindE; [finish|]. intros _.
    apply finishes_bindE; [apply finishes_wrapping, finishes_applyPatches|finish].
  - apply finishes_bindE; [finish|]. intros _. apply finishes_bindE; [|finish].
    unfold patch. apply finishes_bindE; [apply finishes_reportStep|]. intros _.
    apply finishes_bindE; [apply finishes_patch_failing, finishes_applyPatches|]. intros p.
    apply finishes_bindE; [case_match; [apply finishes_patch_failing|]; finish|]. intros q.
    apply finishes_bindE; [apply finishes_reportStep|finish].
Qed.

(** The genesis [null] is a nil map: setting a field of it panics. *)
Lemma applyPatches_null genesis patches :
  unmarshal_object genesis = Ok None → gp_ChainID patches ≠ "" →
  applyPatches genesis patches = Panics.
Proof. intros Hn Hc. unfold applyPatches. by rewrite bool_decide_false, Hn. Qed.
End spec.

(** ** A concrete JSON, and an example *)

(** Objects of strings, as the decimal number that encodes them. *)
Definition number_marshal (m : gmap string string) : string := pretty (Npos (countable.encode m)).

Definition number_unmarshal (s : string) : option (gmap string string) :=
  match parse_unsigned s with
  | Some (Npos p) => countable.decode p
  | _ => None
  end.

Lemma number_roundtrip m : number_unmarshal (number_marshal m) = Some m.
Proof.
  unfold number_unmarshal, number_marshal.
  destruct (pretty_N_parse (Npos (countable.encode m))) as (c & t & E & Hp & _).
  by rewrite E, Hp, countable.decode_encode.
Qed.

#[export] Instance number_JSON : JSON := {|
  J := string;
  J_string := id;
  unmarshal_object s :=
    if bool_decide (s = "null") then Ok None
    else match number_unmarshal s with
         | Some m => Ok (Some m)
         | None => Err (Errorf "invalid character")
         end;
  marshal_object m := Ok (number_marshal m);
  unmarshal_chain_id s :=
    match number_unmarshal s with
    | Some m => Ok (default "" (m !! "chain_id"))
    | None => Err (Errorf "invalid character")
    end;
  unmarshal_rpc_genesis _ := Err (Errorf "invalid character")
|}.

#[export] Instance number_JSON_laws : JSONLaws.
Proof.
  split.
  - intros m s [= <-]. cbn [unmarshal_object number_JSON]. rewrite number_roundtrip.
    rewrite bool_decide_false; [done|]. intros En. pose proof (number_roundtrip m) as Hr.
    rewrite En in Hr. vm_compute in Hr. done.
  - intros m s c [= <-] Hc. cbn [unmarshal_chain_id number_JSON J_string id] in *.
    rewrite number_roundtrip. exact (f_equal (λ o, Ok (default EmptyString o)) Hc).
Qed.

Definition ex_source : string := number_marshal {["chain_id" := "stable-1"; "app_state" := "big"]}.

Definition ex_fork_opts : ForkOptions :=
  mkForkOptions (mkGenesisSource GenesisModeLocal "" "" "/genesis/../g.json" "")
    (noPatchOptions <| gp_ChainID := "dev-1" |>) "/bin/chaind" false.

Definition ex_fork_config : GenesisForkerConfig := mkGenesisForkerConfig "/data" None true true true.

Lemma Fork_patches_source_witness :
  ∃ r st', Fork (store_env (λ _, Ok ex_source)) ex_fork_config ex_fork_opts true (mkEState [] 0) =
      (Returns r, st') ∧
    extractChainID (fr_Genesis r) = Ok "dev-1" ∧
    CReadFile "/g.json" (Ok ex_source) ∈ es_calls st'.
Proof.
  destruct (Fork (store_env (λ _, Ok ex_source)) ex_fork_config ex_fork_opts true (mkEState [] 0))
    as [[r|e| |] st'] eqn:E; [|vm_compute in E; discriminate E..].
  destruct (Fork_patches_source _ _ _ true _ _ _ E)
    as (source & patched & l & El & (c & Hc & Ho) & _ & Hpl & _ & _ & Hm).
  exists r, st'. split; [reflexivity|]. destruct Hpl as [_ Hg|[p Hp] _ _ _|]; [|discriminate Hp|].
  - destruct (Hm ltac:(discriminate)) as (m & _ & _ & Hid). split; [rewrite Hg; exact Hid|].
    rewrite El. simpl. destruct Ho as [g _ _|g Hx|g s b Hx|g x Hx]; [|discriminate Hx..].
    assert (Hg' : g = ex_source); [|rewrite <- Hg'; exact Hc].
    clear - E El Hc. revert El Hc. vm_compute in E. injection E as _ <-. simpl.
    intros <- Hc. repeat (apply elem_of_cons in Hc as [Hc|Hc]; [try discriminate Hc|]).
    + injection Hc as Hc. exact Hc.
    + by apply elem_of_nil in Hc.
  - vm_compute in E. injection E as <- <-. split; [reflexivity|]. simpl. in_calls.
Defined.
