(* ===== verification/Orchestrator.v ===== *)
(** * The provisioning orchestrator ([internal/daemon/provisioner/orchestrator.go])

    [Execute] takes a devnet through the phases building, forking, initializing,
    starting and health checking; in the daemon it stops before starting.  The
    forker is an interface, [GenesisForker], which the forker of [Forker] fills;
    the editors of node configurations are those of [NodeConfig].  Logging is left
    out, and so is exhausted memory. *)

From Stdlib Require Import Ascii.
From stdpp Require Import base tactics numbers list strings gmap.
From S2P Require Import Prelude Types Store Paths Subnet ProvisionTypes NodeController.
From S2P Require Import ProvisionEnv NodeConfig Forker.

(** ** Phases *)

Definition PhasePending : string := "Pending".
Definition PhaseBuilding : string := "Building".
Definition PhaseForking : string := "Forking".
Definition PhaseInitializing : string := "Initializing".
Definition PhaseStarting : string := "Starting".
Definition PhaseHealthChecking : string := "HealthChecking".
Definition PhaseRunning : string := "Running".
Definition PhaseDegraded : string := "Degraded".
Definition PhaseFailed : string := "Failed".

Definition DefaultHealthCheckTimeout : Duration := (2 * minute)%Z.

(** ** Interfaces and configuration *)

(** What the orchestrator asks of a forker. *)
Class GenesisForker := {
  fork : ForkOptions → bool → E ForkResult;
  fork_quiet : ∀ opts progress, emits quiet (fork opts progress);
  fork_finishes : ∀ opts progress, finishes (fork opts progress)
}.

#[export] Instance the_forker `{JSON} (env : Env) (config : GenesisForkerConfig) : GenesisForker :=
  {| fork := Fork env config; fork_quiet := emits_Fork env config;
     fork_finishes := finishes_Fork env config |}.

(** Third-party code: the bech32 encoding, and encoding/json at the key file
    (address and value of the public key). *)
Record Codecs := mkCodecs {
  unmarshal_key_file : string → result (string * string);
  bech32_ConvertAndEncode : string → string → result string
}.

(** The optional dependencies; [oc_Updater] says whether the initializer takes the
    binary path later. *)
Record OrchestratorConfig := mkOrchestratorConfig {
  oc_Updater : bool;
  oc_NodeRuntime : bool;
  oc_HealthChecker : bool;
  oc_PluginGenesis : option PluginGenesis;
  oc_Bech32Prefix : string;
  oc_Codecs : Codecs
}.

Record HealthPhaseResult := mkHealthPhaseResult {
  AllHealthy : bool;
  HealthyCount : Z;
  TotalCount : Z;
  TimedOut : bool
}.

(** The orchestrator, with the outside; whether callbacks are set. *)
Record OState := mkOState {
  o_env : EState;
  o_phase : string;
  o_lastErr : option error;
  o_progress : bool;
  o_stepReporter : bool
}.
#[export] Instance eta_OState : Settable OState := mkSettable (λ x,
  mkOState (o_env x) (o_phase x) (o_lastErr x) (o_progress x) (o_stepReporter x)).

Definition NewProvisioningOrchestrator (env : EState) : OState :=
  mkOState env PhasePending None false false.

Definition OnProgress : M OState unit := modifyM (λ o, o <| o_progress := true |>).
Definition SetStepProgressReporter : M OState unit :=
  modifyM (λ o, o <| o_stepReporter := true |>).
Definition CurrentPhase : M OState string := getM o_phase.
Definition GetError : M OState (option error) := getM o_lastErr.

(** ** Helpers *)

(** [hex.DecodeString]; the messages do not name the byte. *)
Definition hex_value (c : ascii) : option N :=
  let n := N_of_ascii c in
  if bool_decide (48 ≤ n)%N && bool_decide (n ≤ 57)%N then Some (n - 48)%N
  else if bool_decide (97 ≤ n)%N && bool_decide (n ≤ 102)%N then Some (n - 87)%N
  else if bool_decide (65 ≤ n)%N && bool_decide (n ≤ 70)%N then Some (n - 55)%N
  else None.

Fixpoint hex_decode (s : string) : result string :=
  match s with
  | EmptyString => Ok ""
  | String a EmptyString =>
      match hex_value a with
      | Some _ => Err (Errorf "encoding/hex: odd length hex string")
      | None => Err (Errorf "encoding/hex: invalid byte")
      end
  | String a (String b s) =>
      match hex_value a, hex_value b with
      | Some x, Some y =>
          try rest := hex_decode s in Ok (String (ascii_of_N (16 * x + y)) rest)
      | _, _ => Err (Errorf "encoding/hex: invalid byte")
      end
  end.

Definition SelfDelegation : string := "1000000000000000000000".

Definition node_name (node : Node) : string := m_Name (n_Metadata node).
Definition genesis_path (node : Node) : string :=
  Join [ns_HomeDir (n_Spec node); "config"; "genesis.json"].

(** How the other nodes dial a node, by its position. *)
Definition peer (i : Z) (nodeID : string) (node : Node) : string :=
  let address := ns_Address (n_Spec node) in
  if bool_decide (address ≠ "")
  then nodeID +:+ "@" +:+ address +:+ ":" +:+ itoa DefaultP2PPort
  else nodeID +:+ "@127.0.0.1:" +:+ itoa (wrap64 (DefaultP2PPort + wrap64 (i * 10000))).

Definition peers_from (nodeIDs : list string) (nodes : list Node) : list (Z * (string * Node)) :=
  imap (λ i p, (Z.of_nat i, p)) (zip nodeIDs nodes).

Definition buildPeersExcludingSelf (nodeIDs : list string) (nodes : list Node)
    (excludeIndex : Z) : string :=
  String.concat ","
    ((λ '(i, (nodeID, node)), peer i nodeID node) <$>
       filter (λ p, p.1 ≠ excludeIndex) (peers_from nodeIDs nodes)).

Section orchestrator.
Context `{GenesisForker}.
Variable env : Env.
Variable config : OrchestratorConfig.

(** ** The phases' work, outside the orchestrator's state *)

Definition check_ctx (msg : string) : E unit :=
  wrapping msg (call_err (ctx_err env) CCtxErr).

Definition write_file (msg path data : string) : E unit :=
  wrapping msg (call_err (λ t, WriteFile env t path data) (CWriteFile path data)).

Definition executeBuildPhase (opts : ProvisionOptions) : E string :=
  wrapping "binary build failed"
    (call (λ t, Build env t (po_BinaryVersion opts) (po_Network opts))
          (CBuild (po_BinaryVersion opts) (po_Network opts))).

Definition fork_options (opts : ProvisionOptions) (binaryPath : string) : ForkOptions :=
  let patches := po_GenesisPatchOpts opts in
  let patches := if bool_decide (gp_ChainID patches = "")
                 then patches <| gp_ChainID := po_ChainID opts |> else patches in
  let patches := if bool_decide (gp_BinaryVersion patches = "")
                 then patches <| gp_BinaryVersion := po_BinaryVersion opts |> else patches in
  mkForkOptions (po_GenesisSource opts) patches binaryPath false.

Definition master_path (opts : ProvisionOptions) : string :=
  Join [po_DataDir opts; "genesis.json"].

Definition executeForkPhase (opts : ProvisionOptions) (binaryPath : string) (progress : bool)
    : E ForkResult :=
  try! result := wrapping "genesis fork failed"
                   (fork (fork_options opts binaryPath) progress) in
  check! wrapping "failed to create data directory"
    (call_err (λ t, MkdirAll env t (po_DataDir opts)) (CMkdirAll (po_DataDir opts))) in
  check! write_file "failed to write genesis file" (master_path opts) (fr_Genesis result) in
  ret result.

Definition node_dir (opts : ProvisionOptions) (role : string) (index : Z) : string :=
  Join [po_DataDir opts; "nodes"; po_DevnetName opts +:+ "-" +:+ role +:+ "-" +:+ itoa index].

Definition initialized_node (opts : ProvisionOptions) (binaryPath : string) (index : Z)
    (role : string) : Node :=
  let moniker := po_DevnetName opts +:+ "-" +:+ role +:+ "-" +:+ itoa index in
  let nodeAddress := if bool_decide (0 < po_Subnet opts)%Z then NodeIP (po_Subnet opts) index
                     else "" in
  mkNode (mkResourceMeta moniker "" 0 0 0 ∅ ∅)
    (mkNodeSpec (po_DevnetName opts) "" index role binaryPath (node_dir opts role index)
       nodeAddress NodePhaseRunning (po_ChainID opts) (po_Network opts))
    (mkNodeStatus NodePhasePending 0 0 0 false 0 "" "" "" 0 0 0 0).

Definition initializeNode (opts : ProvisionOptions) (binaryPath : string) (index : Z)
    (role : string) : E Node :=
  let moniker := po_DevnetName opts +:+ "-" +:+ role +:+ "-" +:+ itoa index in
  let nodeDir := node_dir opts role index in
  check! wrapping "failed to create node directory"
    (call_err (λ t, MkdirAll env t nodeDir) (CMkdirAll nodeDir)) in
  check! wrapping "node initialization failed"
    (call_err (λ t, Initialize env t nodeDir moniker (po_ChainID opts))
              (CInitialize nodeDir moniker (po_ChainID opts))) in
  ret (initialized_node opts binaryPath index role).

(** Writing one genesis to every node, and to the data directory. *)
Definition distribute (msg genesis : string) (nodes : list Node) : E unit :=
  each nodes (λ node, write_file (msg +:+ node_name node) (genesis_path node) genesis).

Definition redistribute (opts : ProvisionOptions) (genesis : string) (nodes : list Node) : E unit :=
  check! distribute "failed to redistribute genesis to " genesis nodes in
  write_file "failed to update master genesis" (master_path opts) genesis.

Definition read_validator (node : Node) : E ValidatorInfo :=
  let keyPath := Join [ns_HomeDir (n_Spec node); "config"; "priv_validator_key.json"] in
  let pure {A} msg (r : result A) : E A :=
    done_with (match r with Ok a => Returns a | Err e => Fails (Wrap (msg +:+ node_name node) e) end) in
  try! keyData := wrapping ("failed to read validator key for " +:+ node_name node)
                    (call (λ t, ReadFile env t keyPath) (CReadFile keyPath)) in
  try! ' (address, pubKey) := pure "failed to parse validator key for "
                                (unmarshal_key_file (oc_Codecs config) keyData) in
  try! addressBytes := pure "failed to decode address for " (hex_decode address) in
  try! operatorAddress := pure "failed to encode operator address for "
    (bech32_ConvertAndEncode (oc_Codecs config) (oc_Bech32Prefix config +:+ "valoper")
                             addressBytes) in
  ret (mkValidatorInfo (node_name node) pubKey operatorAddress SelfDelegation).

Definition readValidatorKeys (nodes : list Node) : E (list ValidatorInfo) :=
  collect (filter (λ node, ns_Role (n_Spec node) = "validator") nodes) read_validator.

(** The configuration of the node at a position. *)
Definition configure_node (nodeIDs : list string) (nodes : list Node) (i : Z) (node : Node)
    : E unit :=
  let dir := ns_HomeDir (n_Spec node) in
  let peers := buildPeersExcludingSelf nodeIDs nodes i in
  let step {A} msg (m : E A) : E A := wrapping (msg +:+ " for " +:+ node_name node) m in
  check! step "failed to set peers" (SetPersistentPeers env dir peers) in
  check! step "failed to set P2P config" (SetP2PLocalDevnet env dir) in
  check! step "failed to set consensus params" (SetConsensusParams env dir) in
  check! step "failed to set ports"
           (SetPortsWithHost env dir (ns_Index (n_Spec node)) (ns_Address (n_Spec node))) in
  if bool_decide (i = 0)%Z
  then step "failed to enable services" (EnableNode0Services env dir) else ret tt.

Definition configureNodeNetworking (nodes : list Node) : E unit :=
  if bool_decide (nodes = []) then ret tt
  else
    try! nodeIDs := collect nodes (λ node,
      wrapping ("failed to get node ID for " +:+ node_name node)
        (call (λ t, GetNodeID env t (ns_HomeDir (n_Spec node)))
              (CGetNodeID (ns_HomeDir (n_Spec node))))) in
    each (imap (λ i node, (Z.of_nat i, node)) nodes)
      (λ '(i, node), configure_node nodeIDs nodes i node).

(** Putting the validators into the genesis of all nodes before [k], which is the
    rest of the phase: the working directory is removed when the phase ends. *)
Definition with_validators (opts : ProvisionOptions) (nodes : list Node)
    (k : E (list Node)) : E (list Node) :=
  match oc_PluginGenesis config with
  | None => k
  | Some plugin =>
      if bool_decide (po_NumValidators opts ≤ 0)%Z then k
      else
        try! validators := wrapping "failed to read validator keys" (readValidatorKeys nodes) in
        match validators, nodes with
        | [], _ => k
        | _, [] => panic
        | _, first :: _ =>
            let patchOpts := noPatchOptions <| gp_ChainID := po_ChainID opts |>
                               <| gp_Validators := validators |> in
            let source := genesis_path first in
            match PatchGenesisFile plugin with
            | Some patch_file =>
                try! t := lift (now_env env) in
                let workDir := Join [po_DataDir opts; "genesis-work";
                                     "validator-patch-" +:+ itoa t] in
                check! wrapping "failed to create work dir for validator patch"
                  (call_err (λ t, MkdirAll env t workDir) (CMkdirAll workDir)) in
                removing workDir (
                  let outputPath := Join [workDir; "genesis-output.json"] in
                  try! _ := wrapping "failed to re-patch genesis with validators (file-based)"
                    (call (λ t, patch_file t source outputPath patchOpts)
                          (CPatchGenesisFile source outputPath patchOpts)) in
                  try! patched := wrapping "failed to read patched genesis"
                    (call (λ t, ReadFile env t outputPath) (CReadFile outputPath)) in
                  check! redistribute opts patched nodes in
                  k)
            | None =>
                try! genesis := wrapping "failed to read genesis for re-patching"
                  (call (λ t, ReadFile env t source) (CReadFile source)) in
                try! patched := wrapping "failed to re-patch genesis with validators"
                  (call (λ t, PatchGenesis plugin t genesis patchOpts)
                        (CPatchGenesis genesis patchOpts)) in
                check! redistribute opts patched nodes in
                k
            end
        end
  end.

(** One of the two loops that initialize nodes. *)
Definition initialize_all (opts : ProvisionOptions) (binaryPath role what : string)
    (first count : Z) : E (list Node) :=
  collect (seqZ 0 count) (λ i,
    check! check_ctx "context cancelled during initialization" in
    wrapping ("failed to initialize " +:+ what +:+ " " +:+ itoa i)
      (initializeNode opts binaryPath (wrap64 (first + i)) role)).

Definition executeInitPhase (opts : ProvisionOptions) (binaryPath genesis : string)
    : E (list Node) :=
  if bool_decide (wrap64 (po_NumValidators opts + po_NumFullNodes opts) < 0)%Z then panic
  else
    try! validators := initialize_all opts binaryPath "validator" "validator" 0
                         (po_NumValidators opts) in
    try! fullnodes := initialize_all opts binaryPath "fullnode" "fullnode"
                        (po_NumValidators opts) (po_NumFullNodes opts) in
    let nodes := validators ++ fullnodes in
    check! (if bool_decide (genesis ≠ "")
            then distribute "failed to write genesis to node " genesis nodes else ret tt) in
    with_validators opts nodes (
      check! wrapping "failed to configure node networking" (configureNodeNetworking nodes) in
      ret nodes).

Definition executeStartPhase (nodes : list Node) : E unit :=
  each nodes (λ node,
    check! check_ctx "context cancelled during startup" in
    if oc_NodeRuntime config
    then wrapping ("failed to start node " +:+ node_name node)
           (call_err (λ t, StartNode env t node RtDefaultRestartPolicy)
                     (CStartNode node RtDefaultRestartPolicy))
    else panic).

(** How many of the nodes answer that they are healthy and caught up. *)
Fixpoint count_healthy (nodes : list Node) : M EState Z :=
  match nodes with
  | [] => done_with 0%Z
  | node :: nodes =>
      do! r := ask_env (λ t, CheckHealth env t node) (CCheckHealth node) in
      do! n := count_healthy nodes in
      done_with (match r with
        | Ok health => if hr_Healthy health && negb (hr_CatchingUp health) then (n + 1)%Z else n
        | Err _ => n
        end)
  end.

(** ** The state machine *)

Definition onE {A} (m : M EState A) : M OState A :=
  λ o, let '(a, st) := m (o_env o) in (a, o <| o_env := st |>).

Definition report (phase message : string) : M OState unit :=
  λ o, if o_progress o then onE (note (CReport phase message)) o else (tt, o).

Definition setPhase (phase message : string) : M OState unit :=
  run! modifyM (λ o, o <| o_phase := phase |>) in
  report phase message.

Definition setError (err : error) : M OState unit :=
  run! modifyM (λ o, o <| o_lastErr := Some err |> <| o_phase := PhaseFailed |>) in
  report PhaseFailed (Error err).

(** [o.setError(err); return nil, o.lastErr]. *)
Definition abandon {A} (err : error) : M OState (outcome A) :=
  run! setError err in
  do! e := GetError in
  done_with (match e with Some e => Fails e | None => Panics end).

Definition stage {A} (msg : string) (m : M OState (outcome A)) : M OState (outcome A) :=
  do! r := m in
  match r with Fails e => abandon (Wrap msg e) | r => done_with r end.

Definition guard_ctx : M OState (outcome unit) :=
  stage "context cancelled" (onE (call_err (ctx_err env) CCtxErr)).

(** Entering a phase. *)
Definition enter (phase message : string) : M OState (outcome unit) :=
  check! guard_ctx in
  run! setPhase phase message in
  ret tt.

(** The polls of [executeHealthPhase], at most [fuel]. *)
Fixpoint poll (fuel : nat) (nodes : list Node) (deadline : Time)
    : M OState (outcome HealthPhaseResult) :=
  match fuel with
  | O => done_with Unfinished
  | S fuel =>
      check! onE (check_ctx "context cancelled during health check") in
      do! healthy := onE (count_healthy nodes) in
      let total := Z.of_nat (length nodes) in
      if bool_decide (healthy = total) then ret (mkHealthPhaseResult true healthy total false)
      else
        do! t := onE (now_env env) in
        if bool_decide (deadline < t)%Z
        then ret (mkHealthPhaseResult false healthy total true)
        else
          run! setPhase PhaseHealthChecking ("Waiting for nodes to become healthy ("
                 +:+ itoa healthy +:+ "/" +:+ itoa total +:+ ")") in
          check! onE (wrapping "context cancelled during health check"
                        (call_err (wait_tick env) CWait)) in
          poll fuel nodes deadline
  end.

Definition executeHealthPhase (fuel : nat) (nodes : list Node) (timeout : Duration)
    : M OState (outcome HealthPhaseResult) :=
  let total := Z.of_nat (length nodes) in
  if negb (oc_HealthChecker config) then ret (mkHealthPhaseResult true total total false)
  else
    let timeout := if bool_decide (timeout ≤ 0)%Z then DefaultHealthCheckTimeout else timeout in
    do! t := onE (now_env env) in
    poll fuel nodes (t + timeout)%Z.

(** The last phase of a run that starts the nodes. *)
Definition check_health (fuel : nat) (nodes : list Node) (timeout : Duration)
    : M OState (outcome unit) :=
  check! guard_ctx in
  if bool_decide (0 ≤ timeout)%Z then
    run! setPhase PhaseHealthChecking "Verifying node health" in
    try! health := stage "health checking phase failed" (executeHealthPhase fuel nodes timeout) in
    run! (if AllHealthy health then setPhase PhaseRunning "Devnet is operational"
          else setPhase PhaseDegraded ("Devnet running but degraded (" +:+
                 itoa (HealthyCount health) +:+ "/" +:+ itoa (TotalCount health) +:+
                 " nodes healthy)")) in
    ret tt
  else
    run! setPhase PhaseRunning "Devnet is operational (health check skipped)" in
    ret tt.

(** Building, unless a binary is given. *)
Definition obtain_binary (opts : ProvisionOptions) : M OState (outcome string) :=
  if bool_decide (po_BinaryPath opts = "") then
    check! enter PhaseBuilding "Building binary from source" in
    stage "building phase failed" (onE (executeBuildPhase opts))
  else ret (po_BinaryPath opts).

Definition provision_result (opts : ProvisionOptions) (binaryPath : string) : ProvisionResult :=
  mkProvisionResult (po_DevnetName opts) (po_ChainID opts) binaryPath (master_path opts)
    (wrap64 (po_NumValidators opts + po_NumFullNodes opts)) (po_NumValidators opts)
    (po_NumFullNodes opts) (po_DataDir opts).

(** Starting the nodes and waiting for them, unless the daemon does it. *)
Definition start_nodes (fuel : nat) (opts : ProvisionOptions) (nodes : list Node)
    : M OState (outcome unit) :=
  if po_SkipStart opts then
    run! setPhase PhasePending "Provisioning complete (nodes will be started by controller)" in
    ret tt
  else
    check! enter PhaseStarting "Starting node processes" in
    check! stage "starting phase failed" (onE (executeStartPhase nodes)) in
    check_health fuel nodes (po_HealthCheckTimeout opts).

Definition set_binary (binaryPath : string) : M OState unit :=
  if oc_Updater config then onE (note (CSetBinaryPath binaryPath)) else done_with tt.

Definition Execute (fuel : nat) (opts : ProvisionOptions) : M OState (outcome ProvisionResult) :=
  check! guard_ctx in
  try! binaryPath := obtain_binary opts in
  run! set_binary binaryPath in
  check! enter PhaseForking "Forking genesis from source" in
  do! progress := getM o_stepReporter in
  try! forked := stage "forking phase failed"
                   (onE (executeForkPhase opts binaryPath progress)) in
  check! enter PhaseInitializing "Initializing node directories" in
  try! nodes := stage "initializing phase failed"
                  (onE (executeInitPhase opts binaryPath (fr_Genesis forked))) in
  check! start_nodes fuel opts nodes in
  ret (provision_result opts binaryPath).
End orchestrator.

(** ** The phases a run reports *)

Definition phases_of (calls : list Call) : list string :=
  omap (λ c, match c with CReport phase _ => Some phase | _ => None end) calls.

Lemma phases_of_app l l' : phases_of (l ++ l') = phases_of l ++ phases_of l'.
Proof. apply omap_app. Qed.

(** Calls that report nothing. *)
Definition silent (c : Call) : Prop := ∀ phase message, c ≠ CReport phase message.

Lemma phases_of_silent l : Forall silent l → phases_of l = [].
Proof.
  induction 1 as [|c l Hc _ IH]; [done|]. destruct c; try done. by destruct (Hc phase message).
Qed.

Definition calls_of (o : OState) : list Call := es_calls (o_env o).

(** The phases in order, for a run of [n] unsuccessful polls that ends in [final]. *)
Definition plan (opts : ProvisionOptions) (n : nat) (final : string) : list string :=
  (if bool_decide (po_BinaryPath opts = "") then [PhaseBuilding] else []) ++
  [PhaseForking; PhaseInitializing] ++
  (if po_SkipStart opts then [PhasePending]
   else PhaseStarting ::
     (if bool_decide (0 ≤ po_HealthCheckTimeout opts)%Z
      then PhaseHealthChecking :: replicate n PhaseHealthChecking ++ [final]
      else [PhaseRunning])).

Definition planned (opts : ProvisionOptions) (phases : list string) : Prop :=
  ∃ n final, final ∈ [PhaseRunning; PhaseDegraded] ∧ phases = plan opts n final.

(** Sets of phase sequences. *)
Definition language := list string → Prop.
Definition only (ps : list string) : language := λ qs, qs = ps.
Definition cat (L L' : language) : language := λ ps, ∃ a b, ps = a ++ b ∧ L a ∧ L' b.
Definition begins (L : language) (ps : list string) : Prop := ∃ rest, L (ps ++ rest).

(** Every run of [m] reports a sequence of [L], or the beginning of one when it
    does not return.  With [top], a failure is recorded as the last thing done:
    the phase is Failed, and so is the last report.  All calls satisfy [φ]. *)
Definition tracks {A} (top : bool) (φ : Call → Prop) (m : M OState (outcome A)) (L : language)
    : Prop :=
  (∃ ps, L ps) ∧
  ∀ o r o', o_progress o = true → m o = (r, o') →
    o_progress o' = true ∧
    ∃ l, calls_of o' = calls_of o ++ l ∧ Forall φ l ∧
      o_phase o' = default (o_phase o) (last (phases_of l)) ∧
      match r with
      | Returns _ => L (phases_of l) ∧ o_lastErr o' = o_lastErr o
      | Fails e =>
          if top then ∃ l0, l = l0 ++ [CReport PhaseFailed (Error e)] ∧
                        begins L (phases_of l0) ∧ o_lastErr o' = Some e
          else begins L (phases_of l) ∧ o_lastErr o' = o_lastErr o
      | _ => begins L (phases_of l) ∧ o_lastErr o' = o_lastErr o
      end.

Lemma default_last_app {A} (x : A) l l' :
  default x (last (l ++ l')) = default (default x (last l)) (last l').
Proof. rewrite last_app. by destruct (last l'). Qed.

Lemma begins_cat L L' ps : (∃ qs, L' qs) → begins L ps → begins (cat L L') ps.
Proof. intros [qs Hq] [rest Hr]. exists (rest ++ qs), (ps ++ rest), qs. by rewrite (assoc_L app). Qed.

Lemma begins_cat_r L L' ps qs : L ps → begins L' qs → begins (cat L L') (ps ++ qs).
Proof. intros HL [rest Hr]. exists rest, ps, (qs ++ rest). by rewrite (assoc_L app). Qed.

Section tracks.
Context (φ : Call → Prop) (Hreport : ∀ p m, φ (CReport p m)).

Lemma tracks_ret {A} top (a : A) : tracks top φ (ret a) (only []).
Proof.
  split; [by exists []|]. intros o r o' Hp [= <- <-]. split; [done|]. exists [].
  by rewrite app_nil_r.
Qed.

Lemma tracks_bind {A B} top (m : M OState (outcome A)) (k : A → M OState (outcome B)) L L' :
  tracks top φ m L → (∀ a, tracks top φ (k a) L') → (∃ ps, L' ps) →
  tracks top φ (bindE m k) (cat L L').
Proof.
  intros [[ps HL] Hm] Hk [qs HL']. split; [by exists (ps ++ qs), ps, qs|].
  intros o r o' Hp Hr. rewrite bindE_eq in Hr. destruct (m o) as [r1 o1] eqn:E1.
  destruct (Hm _ _ _ Hp E1) as (Hp1 & l1 & El1 & Hl1 & Hph1 & Hcase).
  assert (Hfull : ∃ ps, L' ps) by eauto.
  destruct r1 as [a|e| |].
  - destruct Hcase as [HL1 He1]. destruct (Hk a) as [_ Hk'].
    destruct (Hk' _ _ _ Hp1 Hr) as (Hp2 & l2 & El2 & Hl2 & Hph2 & Hcase2).
    split; [done|]. exists (l1 ++ l2). rewrite phases_of_app.
    split; [by rewrite El2, El1, (assoc_L app)|]. split; [by apply Forall_app|].
    split; [by rewrite Hph2, Hph1, default_last_app|].
    destruct r as [b|e| |].
    + destruct Hcase2 as [? He2]. split; [by exists (phases_of l1), (phases_of l2)|congruence].
    + destruct top.
      * destruct Hcase2 as (l0 & -> & Hb & He2). exists (l1 ++ l0).
        rewrite (assoc_L app), phases_of_app. split_and!; [done|by apply begins_cat_r|done].
      * destruct Hcase2 as [Hb He2]. split; [by apply begins_cat_r|congruence].
    + destruct Hcase2 as [Hb He2]. split; [by apply begins_cat_r|congruence].
    + destruct Hcase2 as [Hb He2]. split; [by apply begins_cat_r|congruence].
  - injection Hr as <- <-. split; [done|]. exists l1. split_and!; [done..|]. simpl. destruct top.
    + destruct Hcase as (l0 & -> & Hb & He). exists l0. split_and!; [done|by apply begins_cat|done].
    + destruct Hcase as [Hb He]. split; [by apply begins_cat|done].
  - injection Hr as <- <-. split; [done|]. exists l1. destruct Hcase.
    split_and!; [done..|by apply begins_cat|done].
  - injection Hr as <- <-. split; [done|]. exists l1. destruct Hcase.
    split_and!; [done..|by apply begins_cat|done].
Qed.

(** Work outside the state machine reports nothing. *)
Lemma tracks_onE {A} (m : M EState (outcome A)) :
  emits (λ c, φ c ∧ silent c) m → tracks false φ (onE m) (only []).
Proof.
  intros Hm. split; [by exists []|]. intros o r o' Hp Hr. unfold onE in Hr.
  destruct (m (o_env o)) as [r1 st] eqn:E1. injection Hr as <- <-.
  destruct (Hm (o_env o)) as (l & El & Hl). rewrite E1 in El. simpl in El.
  apply Forall_and in Hl as [Hl Hsilent]. pose proof (phases_of_silent l Hsilent) as Hps.
  split; [done|]. exists l. split; [done|]. split; [done|].
  rewrite Hps. simpl. split; [done|]. destruct r1; split; try done; by exists [].
Qed.

(** A stage turns a failure into the state Failed. *)
Lemma tracks_stage {A} msg (m : M OState (outcome A)) L :
  tracks false φ m L → tracks true φ (stage msg m) L.
Proof.
  intros [HL Hm]. split; [done|]. intros o r o' Hp Hr. unfold stage, bindM in Hr.
  destruct (m o) as [r1 o1] eqn:E1.
  destruct (Hm _ _ _ Hp E1) as (Hp1 & l1 & El1 & Hl1 & Hph1 & Hcase).
  destruct r1 as [a|e| |]; try (injection Hr as <- <-; split; [done|]; by exists l1).
  unfold abandon, setError, report, modifyM, GetError, getM, done_with, bindM in Hr.
  simpl in Hr. rewrite Hp1 in Hr. injection Hr as <- <-. split; [done|].
  exists (l1 ++ [CReport PhaseFailed (Error (Wrap msg e))]). unfold calls_of in *. simpl.
  rewrite El1, (assoc_L app), phases_of_app. simpl. rewrite last_snoc.
  split; [done|]. split; [apply Forall_app; by repeat constructor|]. split; [done|].
  exists l1. split; [done|]. by destruct Hcase.
Qed.

(** Entering a phase. *)
Lemma tracks_setPhase {A} top phase message (m : M OState (outcome A)) L :
  tracks top φ m L → tracks top φ (run! setPhase phase message in m) (cat (only [phase]) L).
Proof.
  intros [[ps HL] Hm]. split; [by exists ([phase] ++ ps), [phase], ps|].
  intros o r o' Hp Hr. unfold setPhase, report, modifyM, bindM in Hr. simpl in Hr.
  rewrite Hp in Hr. simpl in Hr.
  apply Hm in Hr as (Hp' & l & El & Hl & Hph & Hcase); [|done].
  split; [done|]. exists (CReport phase message :: l). unfold calls_of in *. simpl in El.
  split; [by rewrite El, <- (assoc_L app)|]. split; [by constructor|].
  change (phases_of (CReport phase message :: l)) with ([phase] ++ phases_of l).
  split; [by rewrite Hph, default_last_app|].
  destruct r as [a|e| |].
  - destruct Hcase. split; [by exists [phase], (phases_of l)|done].
  - destruct top.
    + destruct Hcase as (l0 & -> & Hb & He). exists (CReport phase message :: l0).
      split; [done|]. split; [|done]. by apply (begins_cat_r _ _ [phase]).
    + destruct Hcase. split; [by apply (begins_cat_r _ _ [phase])|done].
  - destruct Hcase. split; [by apply (begins_cat_r _ _ [phase])|done].
  - destruct Hcase. split; [by apply (begins_cat_r _ _ [phase])|done].
Qed.
End tracks.

Lemma tracks_weaken {A} top φ (m : M OState (outcome A)) (L L' : language) :
  tracks top φ m L → (∀ ps, L ps → L' ps) → tracks top φ m L'.
Proof.
  intros [[ps HL] Hm] Hi. split; [by exists ps; auto|]. intros o r o' Hp Hr.
  destruct (Hm _ _ _ Hp Hr) as (Hp' & l & El & Hl & Hph & Hcase). split; [done|].
  exists l. split_and!; [done..|].
  assert (Hb : ∀ ps, begins L ps → begins L' ps) by (intros qs [rest Hq]; exists rest; auto).
  destruct r; [naive_solver| |naive_solver|naive_solver].
  destruct top; naive_solver.
Qed.

(** ** What each phase calls *)

Section quiet.
Context `{GenesisForker}.
Context (env : Env) (config : OrchestratorConfig).

(** Editing configurations only reads and writes these files. *)
Definition edits_only (c : Call) : Prop :=
  match c with
  | CReadFile _ _ => True
  | CWriteFile p _ _ => ∃ dir, p = ConfigPath dir ∨ p = AppConfigPath dir
  | CGetNodeID _ _ => True
  | _ => False
  end.

Lemma emits_edit_file dir p f :
  p = ConfigPath dir ∨ p = AppConfigPath dir → emits edits_only (edit_file env p f).
Proof. intros Hp. unfold edit_file. emit. by exists dir. Qed.

Lemma emits_configure_node nodeIDs nodes i node :
  emits edits_only (configure_node env nodeIDs nodes i node).
Proof.
  unfold configure_node, SetPersistentPeers, SetP2PLocalDevnet, SetConsensusParams,
    SetPortsWithHost, EnableNode0Services.
  repeat first [apply emits_bindE; [|intros _] | apply emits_wrapping | case_bool_decide
    | by eapply emits_edit_file; left | by eapply emits_edit_file; right | apply emits_done].
Qed.

Lemma emits_configureNodeNetworking nodes :
  emits edits_only (configureNodeNetworking env nodes).
Proof.
  unfold configureNodeNetworking. case_bool_decide; [emit|].
  apply emits_bindE; [emit|]. intros ids. apply emits_each. intros [i node] _.
  apply emits_configure_node.
Qed.

Lemma edits_only_quiet c : edits_only c → quiet c.
Proof. by destruct c. Qed.

Lemma emits_initialize_all opts bp role what first count :
  emits quiet (initialize_all env opts bp role what first count).
Proof. unfold initialize_all, check_ctx, initializeNode. emit. Qed.

Lemma emits_distribute msg g nodes : emits quiet (distribute env msg g nodes).
Proof. unfold distribute, write_file. emit. Qed.

Lemma emits_redistribute opts g nodes : emits quiet (redistribute env opts g nodes).
Proof.
  unfold redistribute. apply emits_bindE; [apply emits_distribute|]. unfold write_file. emit.
Qed.

Lemma emits_readValidatorKeys nodes : emits quiet (readValidatorKeys env config nodes).
Proof. unfold readValidatorKeys, read_validator. emit. Qed.

Lemma emits_with_validators opts nodes k :
  emits quiet k → emits quiet (with_validators env config opts nodes k).
Proof.
  intros Hk. unfold with_validators. case_match; [|done]. case_bool_decide; [done|].
  apply emits_bindE; [apply emits_wrapping, emits_readValidatorKeys|]. intros vs.
  case_match; [done|]. case_match; [emit|]. case_match.
  - apply emits_bindE; [emit|]. intros t. apply emits_bindE; [emit|]. intros _.
    apply emits_removing; [done|]. apply emits_bindE; [emit|]. intros _.
    apply emits_bindE; [emit|]. intros patched.
    apply emits_bindE; [apply emits_redistribute|]. done.
  - apply emits_bindE; [emit|]. intros g'. apply emits_bindE; [emit|]. intros patched.
    apply emits_bindE; [apply emits_redistribute|]. done.
Qed.

Lemma emits_executeInitPhase opts bp g : emits quiet (executeInitPhase env config opts bp g).
Proof.
  unfold executeInitPhase. case_bool_decide; [emit|].
  apply emits_bindE; [apply emits_initialize_all|]. intros vs.
  apply emits_bindE; [apply emits_initialize_all|]. intros fs.
  apply emits_bindE; [case_bool_decide; [apply emits_distribute|emit]|]. intros _.
  apply emits_with_validators. apply emits_bindE; [|emit].
  apply emits_wrapping. eapply emits_weaken; [apply edits_only_quiet|].
  apply emits_configureNodeNetworking.
Qed.

Lemma emits_executeForkPhase opts bp progress :
  emits quiet (executeForkPhase env opts bp progress).
Proof.
  unfold executeForkPhase. apply emits_bindE; [apply emits_wrapping, fork_quiet|].
  unfold write_file. emit.
Qed.

Lemma emits_executeBuildPhase opts : emits quiet (executeBuildPhase env opts).
Proof. unfold executeBuildPhase. emit. Qed.

Lemma emits_executeStartPhase nodes : emits silent (executeStartPhase env config nodes).
Proof. unfold executeStartPhase, check_ctx. emit; done. Qed.

Lemma emits_count_healthy nodes : emits silent (count_healthy env nodes).
Proof.
  induction nodes as [|n nodes IH]; simpl; [emit|].
  apply emits_bind; [by apply emits_ask|]. intros r. apply emits_bind; [done|]. emit.
Qed.

(** ** The phases of a whole run *)

(** In the daemon nodes are neither started nor checked here. *)
Definition allowed (skip : bool) (c : Call) : Prop :=
  skip = true → match c with CStartNode _ _ _ | CCheckHealth _ _ => False | _ => True end.

Lemma quiet_allowed skip c : quiet c → allowed skip c ∧ silent c.
Proof. by destruct c. Qed.

Lemma tracks_quiet {A} skip (m : E A) :
  emits quiet m → tracks false (allowed skip) (onE m) (only []).
Proof. intros Hm. apply tracks_onE. eapply emits_weaken; [|exact Hm]. apply quiet_allowed. Qed.

Lemma tracks_silent {A} (m : E A) :
  emits silent m → tracks false (allowed false) (onE m) (only []).
Proof. intros Hm. apply tracks_onE. eapply emits_weaken; [|exact Hm]. by intros c Hc. Qed.

Lemma only_ex ps : ∃ qs, only ps qs.
Proof. by exists ps. Qed.

Lemma tracks_guard skip : tracks true (allowed skip) (guard_ctx env) (only []).
Proof. apply tracks_stage; [done|]. apply tracks_quiet. emit. Qed.

Lemma tracks_enter skip phase message :
  tracks true (allowed skip) (enter env phase message) (only [phase]).
Proof.
  eapply tracks_weaken.
  - apply tracks_bind; [apply tracks_guard| |].
    + intros _. apply tracks_setPhase; [done|]. apply tracks_ret.
    + by exists [phase], [phase], [].
  - intros ps (a & b & -> & -> & c & d & -> & -> & ->). done.
Qed.

(** Effects that report nothing, before the rest. *)
Lemma tracks_run {A B} top φ (m : M EState B) (k : B → M OState (outcome A)) L :
  emits (λ c, φ c ∧ silent c) m → (∃ ps, L ps) → (∀ b, tracks top φ (k b) L) →
  tracks top φ (do! b := onE m in k b) L.
Proof.
  intros Hm HL Hk'. split; [done|]. intros o r o' Hp Hr. unfold bindM, onE in Hr.
  destruct (m (o_env o)) as [b st] eqn:E1. destruct (Hk' b) as [_ Hk]. destruct (Hm (o_env o)) as (l1 & El1 & Hl1).
  rewrite E1 in El1. simpl in El1.
  apply Hk in Hr as (Hp' & l & El & Hl & Hph & Hcase); [|done]. split; [done|].
  apply Forall_and in Hl1 as [Hl1 Hsilent]. pose proof (phases_of_silent l1 Hsilent) as Hps.
  exists (l1 ++ l). unfold calls_of in *. simpl in *. rewrite phases_of_app, Hps. simpl.
  split; [by rewrite El, El1, (assoc_L app)|].
  split; [by apply Forall_app|].
  split; [done|]. destruct r; try done. destruct top; [|done].
  destruct Hcase as (l0 & -> & Hb & He). exists (l1 ++ l0).
  by rewrite (assoc_L app), phases_of_app, Hps.
Qed.
End quiet.

Section phases.
Context `{GenesisForker}.
Context (env : Env) (config : OrchestratorConfig).

Definition polling : language := λ ps, ∃ n, ps = replicate n PhaseHealthChecking.

Lemma tracks_unfinished {A} top φ : tracks top φ (done_with (@Unfinished A)) (only []).
Proof.
  split; [by exists []|]. intros o r o' Hp [= <- <-]. split; [done|]. exists [].
  rewrite app_nil_r. split_and!; [done..|by exists []|done].
Qed.

Lemma tracks_poll fuel nodes deadline :
  tracks false (allowed false) (poll env fuel nodes deadline) polling.
Proof.
  assert (Hnil : ∀ ps, only [] ps → polling ps) by (intros ps ->; by exists 0).
  induction fuel as [|fuel IH]; simpl.
  { eapply tracks_weaken; [apply tracks_unfinished|exact Hnil]. }
  assert (Hrest : ∀ h t, tracks false (allowed false)
    (run! setPhase PhaseHealthChecking ("Waiting for nodes to become healthy ("
                 +:+ itoa h +:+ "/" +:+ itoa t +:+ ")") in
     check! onE (wrapping "context cancelled during health check"
                        (call_err (wait_tick env) CWait)) in
     poll env fuel nodes deadline) polling).
  { intros h t. eapply tracks_weaken.
    - apply tracks_setPhase; [done|]. apply tracks_bind; [|intros _; exact IH|by exists [], 0].
      apply tracks_quiet. emit.
    - intros ps (a & b & -> & -> & c & d & -> & -> & n & ->). by exists (Datatypes.S n). }
  eapply tracks_weaken.
  - apply (tracks_bind _ false _ _ (only []) polling);
      [apply tracks_quiet; unfold check_ctx; emit| |by exists [], 0].
    intros _. apply tracks_run; [eapply emits_weaken; [|apply emits_count_healthy]; by intros c Hc
      |by exists [], 0|].
    intros healthy. case_bool_decide; [eapply tracks_weaken; [apply tracks_ret|exact Hnil]|].
    apply tracks_run; [apply emits_now|by exists [], 0|]. intros t.
    case_bool_decide; [eapply tracks_weaken; [apply tracks_ret|exact Hnil]|apply Hrest].
  - intros ps (a & b & -> & -> & Hb). done.
Qed.

Lemma tracks_health fuel nodes timeout :
  tracks false (allowed false) (executeHealthPhase env config fuel nodes timeout) polling.
Proof.
  unfold executeHealthPhase. case_match.
  - eapply tracks_weaken; [apply tracks_ret|]. intros ps ->. by exists 0.
  - apply tracks_run; [apply emits_now|by exists [], 0|]. intros t. apply tracks_poll.
Qed.

Definition finishing (timeout : Duration) : language := λ ps,
  ∃ n final, final ∈ [PhaseRunning; PhaseDegraded] ∧
    ps = if bool_decide (0 ≤ timeout)%Z
         then PhaseHealthChecking :: replicate n PhaseHealthChecking ++ [final]
         else [PhaseRunning].

Lemma finishing_ex timeout : ∃ ps, finishing timeout ps.
Proof. eexists _, 0, PhaseRunning. split; [by left|done]. Qed.

Lemma tracks_final phase message :
  tracks true (allowed false) (run! setPhase phase message in ret tt) (only [phase]).
Proof.
  eapply tracks_weaken; [apply tracks_setPhase; [done|apply tracks_ret]|].
  by intros ps (a & b & -> & -> & ->).
Qed.

Lemma tracks_check_health fuel nodes timeout :
  tracks true (allowed false) (check_health env config fuel nodes timeout) (finishing timeout).
Proof.
  unfold check_health. eapply tracks_weaken.
  - apply tracks_bind; [apply tracks_guard| |apply (finishing_ex timeout)]. intros _.
    unfold finishing. case_bool_decide as Ht.
    + eapply tracks_weaken.
      * apply tracks_setPhase; [done|]. apply (tracks_bind _ _ _ _ polling
          (λ ps, ∃ final, final ∈ [PhaseRunning; PhaseDegraded] ∧ ps = [final])).
        -- apply tracks_stage; [done|]. apply tracks_health.
        -- intros health. case_match.
           ++ eapply tracks_weaken; [apply tracks_final|]. intros ps ->. exists PhaseRunning. set_solver.
           ++ eapply tracks_weaken; [apply tracks_final|]. intros ps ->. exists PhaseDegraded. set_solver.
        -- exists [PhaseRunning], PhaseRunning. set_solver.
      * intros ps (a & b & -> & -> & c & d & -> & [n ->] & final & Hf & ->). by exists n, final.
    + eapply tracks_weaken; [apply tracks_final|]. intros ps ->. exists 0, PhaseRunning. set_solver.
  - by intros ps (a & b & -> & -> & Hb).
Qed.
Definition building (opts : ProvisionOptions) : list string :=
  if bool_decide (po_BinaryPath opts = "") then [PhaseBuilding] else [].

Lemma tracks_obtain_binary skip opts :
  tracks true (allowed skip) (obtain_binary env opts) (only (building opts)).
Proof.
  unfold obtain_binary, building. case_bool_decide; [|apply tracks_ret].
  eapply tracks_weaken.
  - eapply (tracks_bind _ _ _ _ _ (only [])); [apply tracks_enter| |apply only_ex]. intros _.
    apply tracks_stage; [done|]. apply tracks_quiet, emits_executeBuildPhase.
  - by intros ps (a & b & -> & -> & ->).
Qed.

Lemma cat_ex (L L' : language) : (∃ ps, L ps) → (∃ ps, L' ps) → ∃ ps, cat L L' ps.
Proof. intros [a Ha] [b Hb]. by exists (a ++ b), a, b. Qed.

Lemma tracks_get {A B} top φ (f : OState → B) (k : B → M OState (outcome A)) L :
  (∃ ps, L ps) → (∀ b, tracks top φ (k b) L) → tracks top φ (do! b := getM f in k b) L.
Proof.
  intros HL Hk. split; [done|]. intros o r o' Hp Hr. unfold bindM, getM in Hr.
  destruct (Hk (f o)) as [_ Hk']. by apply Hk'.
Qed.

Lemma tracks_set_binary {A} top skip bp (k : M OState (outcome A)) L :
  tracks top (allowed skip) k L →
  tracks top (allowed skip) (run! set_binary config bp in k) L.
Proof.
  intros Hk. pose proof Hk as [HL _]. unfold set_binary. destruct (oc_Updater config).
  - apply tracks_run; [apply emits_note; by split|done|done].
  - exact Hk.
Qed.

Definition starting (opts : ProvisionOptions) : language :=
  if po_SkipStart opts then only [PhasePending]
  else cat (only [PhaseStarting]) (finishing (po_HealthCheckTimeout opts)).

Lemma starting_ex opts : ∃ ps, starting opts ps.
Proof.
  unfold starting. destruct (po_SkipStart opts); [apply only_ex|].
  apply cat_ex; [apply only_ex|apply finishing_ex].
Qed.

Lemma tracks_start_nodes fuel opts nodes :
  tracks true (allowed (po_SkipStart opts)) (start_nodes env config fuel opts nodes)
    (starting opts).
Proof.
  unfold start_nodes, starting. destruct (po_SkipStart opts).
  - eapply tracks_weaken; [apply tracks_setPhase; [done|apply tracks_ret]|].
    by intros ps (a & b & -> & -> & ->).
  - apply tracks_bind; [apply tracks_enter| |apply finishing_ex]. intros _.
    eapply tracks_weaken.
    + apply tracks_bind; [apply tracks_stage; [done|]| |apply (finishing_ex (po_HealthCheckTimeout opts))].
      * apply tracks_silent, emits_executeStartPhase.
      * intros _. apply tracks_check_health.
    + by intros ps (a & b & -> & -> & Hb).
Qed.

Lemma starting_planned opts ps :
  starting opts ps → planned opts (building opts ++ [PhaseForking; PhaseInitializing] ++ ps).
Proof.
  unfold starting, planned, plan, building. destruct (po_SkipStart opts).
  - intros ->. exists 0, PhaseRunning. split; [by left|done].
  - intros (a & b & -> & -> & n & final & Hf & ->). exists n, final. by case_match.
Qed.

Lemma tracks_Execute fuel opts :
  tracks true (allowed (po_SkipStart opts)) (Execute env config fuel opts) (planned opts).
Proof.
  eapply (tracks_weaken _ _ _ (cat (only []) (cat (only (building opts)) (cat (only [PhaseForking])
    (cat (only []) (cat (only [PhaseInitializing]) (cat (only []) (cat (starting opts) (only [])))))))));
    [|by intros ps (? & ? & -> & -> & ? & ? & -> & -> & ? & ? & -> & -> & ? & ? & -> & -> & ? & ? &
        -> & -> & ? & ? & -> & -> & ? & ? & -> & Hs & ->); rewrite app_nil_r; by apply starting_planned].
  assert (Hs := starting_ex opts). unfold Execute.
  apply tracks_bind; [apply tracks_guard| |auto 10 using only_ex, cat_ex]. intros _.
  apply tracks_bind; [apply tracks_obtain_binary| |auto 10 using only_ex, cat_ex]. intros bp.
  apply tracks_set_binary.
  apply tracks_bind; [apply tracks_enter| |auto 10 using only_ex, cat_ex]. intros _.
  apply tracks_get; [auto 10 using only_ex, cat_ex|]. intros progress.
  apply tracks_bind; [apply tracks_stage; [done|]| |auto 10 using only_ex, cat_ex].
  { apply tracks_quiet, emits_executeForkPhase. }
  intros forked.
  apply tracks_bind; [apply tracks_enter| |auto 10 using only_ex, cat_ex]. intros _.
  apply tracks_bind; [apply tracks_stage; [done|]| |auto 10 using only_ex, cat_ex].
  { apply tracks_quiet, emits_executeInitPhase. }
  intros nodes. apply tracks_bind; [apply tracks_start_nodes| |apply only_ex].
  intros _. apply tracks_ret.
Qed.

(** C22: a run reports its phases in the order of the plan: building unless a binary
    is given, forking, initializing, and then either Pending, when the daemon
    starts the nodes, or starting, health checks and Running or Degraded.  A run
    that returns has reported the whole plan and leaves the last error as it was;
    a run that fails has reported a beginning of it and ends, with nothing called
    afterwards, by reporting Failed with its error, which it keeps.  With
    [SkipStart] no node is started or checked. *)
Theorem Execute_phases fuel opts o :
  o_progress o = true →
  let '(r, o') := Execute env config fuel opts o in
  ∃ l, calls_of o' = calls_of o ++ l ∧
    Forall (allowed (po_SkipStart opts)) l ∧
    o_phase o' = default (o_phase o) (last (phases_of l)) ∧
    match r with
    | Returns _ => planned opts (phases_of l) ∧ o_lastErr o' = o_lastErr o
    | Fails e => ∃ l0, l = l0 ++ [CReport PhaseFailed (Error e)] ∧
        (∃ rest, planned opts (phases_of l0 ++ rest)) ∧ o_lastErr o' = Some e
    | Panics | Unfinished =>
        (∃ rest, planned opts (phases_of l ++ rest)) ∧ o_lastErr o' = o_lastErr o
    end.
Proof.
  intros Hp. destruct (Execute env config fuel opts o) as [r o'] eqn:E.
  destruct (tracks_Execute fuel opts) as [_ Ht].
  destruct (Ht o r o' Hp E) as (_ & l & El & Hl & Hph & Hcase).
  exists l. split_and!; [done..|]. destruct r; exact Hcase.
Qed.
End phases.

(** ** The genesis the nodes are left with *)

(** Calls that write no file; calls that write no genesis. *)
Definition no_write (c : Call) : Prop := match c with CWriteFile _ _ _ => False | _ => True end.
#[local] Hint Extern 1 (no_write _) => exact I : emits.

Lemma written_none p l : Forall (λ c, ∀ g, c ≠ CWriteFile p g None) l → written p l = None.
Proof.
  induction l as [|c l IH] using rev_ind; [done|]. rewrite Forall_app, Forall_singleton.
  intros [Hl Hc]. rewrite written_app, IH by done.
  destruct c; try done. destruct answer; [done|]. rewrite written_write.
  rewrite bool_decide_false; [done|]. intros ->. by eapply Hc.
Qed.

Lemma written_no_write p l : Forall no_write l → written p l = None.
Proof. intros Hl. apply written_none. eapply Forall_impl; [exact Hl|]. by intros c Hc g ->. Qed.

Definition genesis_file (p : string) : Prop := base p = Some "genesis.json".

Lemma genesis_path_file node : genesis_file (genesis_path node).
Proof. by apply Join3_base. Qed.

Lemma master_path_file opts : genesis_file (master_path opts).
Proof. by apply Join_base. Qed.

Lemma written_edits p l : genesis_file p → Forall edits_only l → written p l = None.
Proof.
  intros Hp Hl. apply written_none. eapply Forall_impl; [exact Hl|].
  intros c Hc g ->. destruct Hc as (dir & [-> | ->]); unfold genesis_file in Hp.
  - unfold ConfigPath in Hp. by rewrite Join3_base in Hp.
  - unfold AppConfigPath in Hp. by rewrite Join3_base in Hp.
Qed.

Lemma collect_Returns {A B} (l : list A) (body : A → E B) (g : A → B) st ys st' :
  (∀ x st y st', x ∈ l → body x st = (Returns y, st') → y = g x) →
  collect l body st = (Returns ys, st') → ys = g <$> l.
Proof.
  revert st ys. induction l as [|x l IH]; intros st ys Hb; simpl; [by intros [= <- _]|].
  intros (y & st1 & H1 & Hr)%bindE_Returns. apply bindE_Returns in Hr as (zs & st2 & H2 & Hr).
  injection Hr as <- <-. f_equal; [eapply Hb; [by left|done]|].
  eapply IH; [|done]. intros z s w s' Hz. apply Hb. by right.
Qed.

Section genesis.
Context `{GenesisForker}.
Context (env : Env) (config : OrchestratorConfig) (opts : ProvisionOptions).

(** The nodes of a run with this binary. *)
Definition planned_nodes (binaryPath : string) : list Node :=
  ((λ i, initialized_node opts binaryPath (wrap64 (0 + i)) "validator") <$>
     seqZ 0 (po_NumValidators opts)) ++
  ((λ i, initialized_node opts binaryPath (wrap64 (po_NumValidators opts + i)) "fullnode") <$>
     seqZ 0 (po_NumFullNodes opts)).

Lemma initialize_all_Returns bp role what first count st ns st' :
  initialize_all env opts bp role what first count st = (Returns ns, st') →
  ns = (λ i, initialized_node opts bp (wrap64 (first + i)) role) <$> seqZ 0 count.
Proof.
  unfold initialize_all. apply collect_Returns. intros i s n s' _.
  unfold check_ctx, initializeNode. intros Hr. by returns.
Qed.

Lemma distribute_writes msg g nodes st u st' :
  distribute env msg g nodes st = (Returns u, st') →
  es_calls st' = es_calls st ++ ((λ n, CWriteFile (genesis_path n) g None) <$> nodes).
Proof.
  unfold distribute. revert st. induction nodes as [|n nodes IH]; intros st; simpl.
  - intros [= _ <-]. by rewrite app_nil_r.
  - intros (v & st1 & H1 & Hr)%bindE_Returns. unfold write_file in H1. returns.
    rewrite (IH _ Hr). simpl. by rewrite <- (assoc_L app).
Qed.

Lemma written_distributed p g nodes :
  written p ((λ n, CWriteFile (genesis_path n) g None) <$> nodes) =
    if bool_decide (p ∈ genesis_path <$> nodes) then Some g else None.
Proof.
  induction nodes as [|n nodes IH] using rev_ind; [done|].
  rewrite !fmap_app, written_app. simpl. rewrite written_write, IH.
  repeat case_bool_decide; set_solver.
Qed.

(** A list of calls leaves every node, and the data directory, with [g]. *)
Definition leaves (nodes : list Node) (l : list Call) (g : string) : Prop :=
  written (master_path opts) l = Some g ∧
  (g ≠ "" → ∀ n, n ∈ nodes → written (genesis_path n) l = Some g).

Lemma leaves_redistributed g nodes st u st' :
  redistribute env opts g nodes st = (Returns u, st') →
  ∃ l, es_calls st' = es_calls st ++ l ∧ ∀ l0, leaves nodes (l0 ++ l) g.
Proof.
  unfold redistribute. intros (v & st1 & Hd%distribute_writes & Hr)%bindE_Returns.
  unfold write_file in Hr. returns. eexists. split; [simpl; by rewrite Hd, <- (assoc_L app)|].
  intros l0. split.
  - by rewrite !written_app, written_write, bool_decide_true.
  - intros _ n Hn. rewrite !written_app, written_write, written_distributed.
    case_bool_decide; [done|]. rewrite bool_decide_true; [done|].
    apply list_elem_of_fmap. eauto.
Qed.

(** Later calls that write no genesis leave it. *)
Lemma leaves_app nodes l l' g :
  leaves nodes l g → (∀ p, genesis_file p → written p l' = None) → leaves nodes (l ++ l') g.
Proof.
  intros [Hm Hn] Hl'. split.
  - by rewrite written_app, Hl' by apply master_path_file.
  - intros Hg n Hin. rewrite written_app, Hl' by apply genesis_path_file. auto.
Qed.

Lemma with_validators_Returns nodes k st ns st' :
  with_validators env config opts nodes k st = (Returns ns, st') →
  ∃ st1 st2 l1 l3, k st1 = (Returns ns, st2) ∧
    es_calls st1 = es_calls st ++ l1 ∧ es_calls st' = es_calls st2 ++ l3 ∧ Forall no_write l3 ∧
    (Forall no_write l1 ∨ ∃ g, ∀ l0, leaves nodes (l0 ++ l1) g).
Proof.
  unfold with_validators. destruct (oc_PluginGenesis config) as [plugin|];
    [|intros Hk; exists st, st', [], []; rewrite !app_nil_r; split_and!; auto].
  case_bool_decide; [intros Hk; exists st, st', [], []; rewrite !app_nil_r; split_and!; auto|].
  intros (vs & st1 & H1 & Hr)%bindE_Returns.
  assert (Hl : ∃ l, es_calls st1 = es_calls st ++ l ∧ Forall no_write l).
  { eapply emits_grows; [|exact H1]. apply emits_wrapping.
    unfold readValidatorKeys, read_validator. emit. }
  destruct Hl as (l1 & E1 & Hl1).
  destruct vs as [|v vs]; [by exists st1, st', l1, []; rewrite !app_nil_r; split_and!; auto|].
  destruct nodes as [|n nodes]; [done|].
  destruct (PatchGenesisFile plugin) as [patch_file|].
  - returns. apply removing_Returns in Hr as (st4 & Hr & E4). returns.
    match goal with Hw : redistribute _ _ _ _ _ = _ |- _ =>
      apply leaves_redistributed in Hw as (l & El & Hlv) end. cbn [es_calls] in *.
    eexists _, st4, _, _. split; [exact Hr|].
    split; [rewrite El, E1, <- !(assoc_L app); reflexivity|]. split; [exact E4|].
    split; [by repeat constructor|]. right. eexists. intros l0. rewrite !(assoc_L app). apply Hlv.
  - returns.
    match goal with Hw : redistribute _ _ _ _ _ = _ |- _ =>
      apply leaves_redistributed in Hw as (l & El & Hlv) end. cbn [es_calls] in *.
    eexists _, st', _, []. split; [exact Hr|].
    split; [rewrite El, E1, <- !(assoc_L app); reflexivity|]. split; [by rewrite app_nil_r|].
    split; [done|]. right. eexists. intros l0. rewrite !(assoc_L app). apply Hlv.
Qed.

Lemma init_writes_no_genesis bp role what first count :
  emits no_write (initialize_all env opts bp role what first count).
Proof. unfold initialize_all, check_ctx, initializeNode. emit. Qed.

(** Initializing leaves the nodes with one genesis: the forked one, or the one with
    the validators. *)
Lemma executeInitPhase_leaves bp g0 st ns st' l0 :
  executeInitPhase env config opts bp g0 st = (Returns ns, st') →
  written (master_path opts) l0 = Some g0 →
  ∃ l g, es_calls st' = es_calls st ++ l ∧ ns = planned_nodes bp ∧ leaves ns (l0 ++ l) g.
Proof.
  intros Hr Hmaster. unfold executeInitPhase in Hr. case_bool_decide; [done|].
  apply bindE_Returns in Hr as (vs & st1 & H1 & Hr).
  apply bindE_Returns in Hr as (fs & st2 & H2 & Hr).
  pose proof (initialize_all_Returns _ _ _ _ _ _ _ _ H1) as Hvs.
  pose proof (initialize_all_Returns _ _ _ _ _ _ _ _ H2) as Hfs.
  eapply (emits_grows no_write) in H1 as (l1 & E1 & Hl1); [|apply init_writes_no_genesis].
  eapply (emits_grows no_write) in H2 as (l2 & E2 & Hl2); [|apply init_writes_no_genesis].
  apply bindE_Returns in Hr as (u & st3 & H3 & Hr). set (nodes := vs ++ fs) in *.
  assert (Hd : ∃ l3, es_calls st3 = es_calls st2 ++ l3 ∧
    leaves nodes (l0 ++ (l1 ++ l2) ++ l3) g0).
  { assert (Hl : written (master_path opts) (l0 ++ l1 ++ l2) = Some g0).
    { rewrite written_app, written_no_write; [done|by apply Forall_app]. }
    case_bool_decide as Hg.
    - apply distribute_writes in H3. eexists. split; [exact H3|].
      rewrite (assoc_L app). unfold leaves. split.
      + rewrite written_app, written_distributed. by case_bool_decide.
      + intros _ n Hn. rewrite written_app, written_distributed, bool_decide_true; [done|].
        apply list_elem_of_fmap. eauto.
    - injection H3 as _ <-. exists []. rewrite !app_nil_r. split; [done|]. split; [done|].
      intros Hg'. by destruct Hg. }
  destruct Hd as (l3 & E3 & Hlv3).
  apply with_validators_Returns in Hr as (st4 & st5 & l4 & l6 & Hk & E4 & E6 & Hl6 & Hor).
  apply bindE_Returns in Hk as (u' & st6 & H6 & Hk). injection Hk as <- <-.
  apply (proj1 (wrapping_Returns _ _ _ _ _)) in H6.
  eapply (emits_grows edits_only) in H6 as (l5 & E5 & Hl5); [|apply emits_configureNodeNetworking].
  assert (Hlater : ∀ p, genesis_file p → written p (l5 ++ l6) = None).
  { intros p Hp. rewrite written_app, (written_no_write p l6), (written_edits p l5); done. }
  assert (Hex : ∃ g, leaves nodes ((l0 ++ (l1 ++ l2) ++ l3) ++ l4) g).
  { destruct Hor as [Hl4|[g Hg]]; [exists g0|exists g; apply Hg].
    apply leaves_app; [done|]. intros p _. by apply written_no_write. }
  destruct Hex as [g Hg]. exists (((l1 ++ l2) ++ l3) ++ l4 ++ l5 ++ l6), g.
  split; [by rewrite E6, E5, E4, E3, E2, E1, <- !(assoc_L app)|].
  split; [unfold nodes; by rewrite Hvs, Hfs|].
  rewrite !(assoc_L app), <- (assoc_L app _ l5 l6). apply leaves_app; [|exact Hlater].
  by rewrite !(assoc_L app) in Hg.
Qed.

(** ** A whole run *)

Definition o_emits (φ : Call → Prop) {A} (m : M OState A) : Prop :=
  ∀ o, ∃ l, calls_of (m o).2 = calls_of o ++ l ∧ Forall φ l.

Lemma o_emits_done φ {A} (a : A) : o_emits φ (done_with a).
Proof. intros o. exists []. by rewrite app_nil_r. Qed.

Lemma o_emits_bind φ {A B} (m : M OState A) (k : A → M OState B) :
  o_emits φ m → (∀ a, o_emits φ (k a)) → o_emits φ (bindM m k).
Proof.
  intros Hm Hk o. rewrite bindM_eq. destruct (Hm o) as (l & El & Hl).
  destruct (Hk (m o).1 (m o).2) as (l' & El' & Hl').
  exists (l ++ l'). rewrite El', El, (assoc_L app). by rewrite Forall_app.
Qed.

Lemma o_emits_bindE φ {A B} (m : M OState (outcome A)) (k : A → M OState (outcome B)) :
  o_emits φ m → (∀ a, o_emits φ (k a)) → o_emits φ (bindE m k).
Proof. intros Hm Hk. apply o_emits_bind; [done|]. intros [a| | |]; auto using o_emits_done. Qed.

Lemma o_emits_onE φ {A} (m : M EState A) : emits φ m → o_emits φ (onE m).
Proof.
  intros Hm o. destruct (Hm (o_env o)) as (l & El & Hl). exists l.
  unfold onE, calls_of. by destruct (m (o_env o)).
Qed.

Lemma o_emits_setPhase φ phase message :
  φ (CReport phase message) → o_emits φ (setPhase phase message).
Proof.
  intros Hc o. unfold setPhase, modifyM, report, bindM, calls_of. simpl.
  destruct (o_progress o); simpl;
    [eexists; split; [reflexivity|repeat constructor; auto]|]. exists []. by rewrite app_nil_r.
Qed.

Lemma o_emits_stage φ {A} msg (m : M OState (outcome A)) :
  (∀ p x, φ (CReport p x)) → o_emits φ m → o_emits φ (stage msg m).
Proof.
  intros Hc Hm. apply o_emits_bind; [done|]. intros [a|e| |]; try apply o_emits_done.
  unfold abandon. apply o_emits_bind; [|intros _; apply o_emits_bind].
  - intros o. unfold setError, modifyM, report, bindM, calls_of. simpl.
    destruct (o_progress o); simpl;
    [eexists; split; [reflexivity|repeat constructor; auto]|]. exists []. by rewrite app_nil_r.
  - intros o. exists []. by rewrite app_nil_r.
  - intros. apply o_emits_done.
Qed.

Lemma start_nodes_no_write fuel nodes :
  o_emits no_write (start_nodes env config fuel opts nodes).
Proof.
  assert (Hguard : o_emits no_write (guard_ctx env)).
  { apply o_emits_stage; [done|]. apply o_emits_onE. emit. }
  assert (Hfinal : ∀ p x, o_emits no_write (run! setPhase p x in ret tt)).
  { intros p x. apply o_emits_bind; [by apply o_emits_setPhase|]. intros _. apply o_emits_done. }
  assert (Hpoll : ∀ deadline, o_emits no_write (poll env fuel nodes deadline)).
  { intros deadline. induction fuel as [|n IH]; simpl; [apply o_emits_done|].
    apply o_emits_bindE; [apply o_emits_onE; unfold check_ctx; emit|]. intros _.
    apply o_emits_bind.
    { apply o_emits_onE. clear. induction nodes; simpl; emit. }
    intros h. case_bool_decide; [apply o_emits_done|].
    apply o_emits_bind; [by apply o_emits_onE, emits_now|]. intros t.
    case_bool_decide; [apply o_emits_done|].
    apply o_emits_bind; [by apply o_emits_setPhase|]. intros _.
    apply o_emits_bindE; [apply o_emits_onE; emit|]. done. }
  unfold start_nodes. case_match; [apply Hfinal|].
  apply o_emits_bindE.
  { unfold enter. apply o_emits_bindE; [done|]. intros _. apply Hfinal. }
  intros _. apply o_emits_bindE.
  { apply o_emits_stage; [done|]. apply o_emits_onE. unfold executeStartPhase, check_ctx. emit. }
  intros _. unfold check_health. apply o_emits_bindE; [done|]. intros _.
  case_bool_decide; [|apply Hfinal].
  apply o_emits_bind; [by apply o_emits_setPhase|]. intros _. apply o_emits_bindE.
  - apply o_emits_stage; [done|]. unfold executeHealthPhase. case_match; [apply o_emits_done|].
    apply o_emits_bind; [by apply o_emits_onE, emits_now|]. done.
  - intros health. destruct (AllHealthy health); apply Hfinal.
Qed.

Lemma stage_Returns {A} msg (m : M OState (outcome A)) o a o' :
  stage msg m o = (Returns a, o') → m o = (Returns a, o').
Proof.
  unfold stage, bindM, done_with. destruct (m o) as [[b|e| |] o1]; try done.
  unfold abandon, setError, bindM, modifyM, report, GetError, getM, done_with. simpl.
  by destruct (o_progress o1).
Qed.

Lemma onE_Returns {A} (m : E A) o a o' :
  onE m o = (Returns a, o') →
  ∃ st, m (o_env o) = (Returns a, st) ∧ calls_of o' = es_calls st.
Proof.
  unfold onE. destruct (m (o_env o)) as [r st]. intros [= -> <-]. by exists st.
Qed.

Lemma o_emits_grows φ {A} (m : M OState A) o a o' :
  o_emits φ m → m o = (a, o') → ∃ l, calls_of o' = calls_of o ++ l ∧ Forall φ l.
Proof. intros Hm Hr. destruct (Hm o) as (l & Hl). rewrite Hr in Hl. by exists l. Qed.

Lemma enter_no_write phase message : o_emits no_write (enter env phase message).
Proof.
  apply o_emits_bindE; [apply o_emits_stage; [done|]; apply o_emits_onE; emit|]. intros _.
  apply o_emits_bind; [by apply o_emits_setPhase|]. intros _. apply o_emits_done.
Qed.

Lemma executeForkPhase_Returns bp progress st r st' :
  executeForkPhase env opts bp progress st = (Returns r, st') →
  ∃ l, es_calls st' = es_calls st ++ l ∧ written (master_path opts) l = Some (fr_Genesis r).
Proof.
  unfold executeForkPhase, write_file. intros (fr & st1 & H1 & Hr)%bindE_Returns.
  eapply (emits_grows quiet) in H1 as (l & E1 & _); [|apply emits_wrapping, fork_quiet].
  returns. cbn [es_calls]. rewrite E1. eexists. split; [by rewrite <- !(assoc_L app)|].
  by rewrite !written_app, written_write, bool_decide_true.
Qed.

(** Up to the forked genesis. *)
Lemma set_binary_emits bp : o_emits no_write (set_binary config bp).
Proof.
  unfold set_binary. case_match; [apply o_emits_onE; by apply emits_note|apply o_emits_done].
Qed.

Lemma obtain_binary_emits : o_emits no_write (obtain_binary env opts).
Proof.
  unfold obtain_binary. case_bool_decide; [|apply o_emits_done].
  apply o_emits_bindE; [apply enter_no_write|]. intros _.
  apply o_emits_stage; [done|]. apply o_emits_onE. unfold executeBuildPhase. emit.
Qed.

Lemma o_emits_then φ {A B} (m : M OState A) (k : A → M OState B) o out :
  o_emits φ m → bindM m k o = out →
  ∃ a o1 l, k a o1 = out ∧ m o = (a, o1) ∧ calls_of o1 = calls_of o ++ l ∧ Forall φ l.
Proof.
  intros Hm. rewrite bindM_eq. destruct (Hm o) as (l & El & Hl).
  intros Hk. exists (m o).1, (m o).2, l. split_and!; [done| |done|done]. by destruct (m o).
Qed.

(** C23: a run that returns leaves one genesis: the bytes last written to the data
    directory are, unless they are empty, the bytes last written to the
    configuration directory of every node, also when the validators were put into
    it and it was distributed a second time. *)
Theorem Execute_same_genesis fuel o r o' :
  Execute env config fuel opts o = (Returns r, o') →
  ∃ l genesis, calls_of o' = calls_of o ++ l ∧
    written (master_path opts) l = Some genesis ∧
    (genesis ≠ "" → ∀ n, n ∈ planned_nodes (pr_BinaryPath r) →
       written (genesis_path n) l = Some genesis).
Proof.
  unfold Execute. intros (? & o1 & H1 & Hr)%bindE_Returns.
  eapply o_emits_grows in H1 as (l1 & E1 & _);
    [|apply (o_emits_stage no_write); [done|]; apply o_emits_onE; emit].
  apply bindE_Returns in Hr as (bp & o2 & H2 & Hr).
  eapply o_emits_grows in H2 as (l2 & E2 & _); [|apply obtain_binary_emits].
  eapply o_emits_then in Hr as (? & o3 & l3 & Hr & _ & E3 & _); [|apply set_binary_emits].
  apply bindE_Returns in Hr as (? & o4 & H4 & Hr).
  eapply o_emits_grows in H4 as (l4 & E4 & _); [|apply enter_no_write].
  unfold bindM at 1, getM at 1 in Hr.
  apply bindE_Returns in Hr as (fr & o5 & (st5 & H5 & C5)%stage_Returns%onE_Returns & Hr).
  apply executeForkPhase_Returns in H5 as (l5 & E5 & Hw). rewrite <- C5 in E5.
  apply bindE_Returns in Hr as (? & o6 & H6 & Hr).
  eapply o_emits_grows in H6 as (l6 & E6 & Hl6); [|apply enter_no_write].
  apply bindE_Returns in Hr as (ns & o7 & (st7 & H7 & C7)%stage_Returns%onE_Returns & Hr).
  eapply (executeInitPhase_leaves _ _ _ _ _ ((l1 ++ l2 ++ l3 ++ l4) ++ l5 ++ l6)) in H7
    as (l7 & g & E7 & -> & Hlv);
    [|by rewrite !(written_app _ (l1 ++ _)), !(written_app _ l5), (written_no_write _ l6), Hw].
  rewrite <- C7 in E7. apply bindE_Returns in Hr as (? & o8 & H8 & Hr).
  eapply o_emits_grows in H8 as (l8 & E8 & Hl8); [|apply start_nodes_no_write].
  injection Hr as <- <-. exists ((((l1 ++ l2 ++ l3 ++ l4) ++ l5 ++ l6) ++ l7) ++ l8), g.
  split.
  { rewrite E8, E7. change (es_calls (o_env o6)) with (calls_of o6).
    rewrite E6, E5. change (es_calls (o_env o4)) with (calls_of o4).
    by rewrite E4, E3, E2, E1, <- !(assoc_L app). }
  apply leaves_app; [exact Hlv|]. intros p _. by apply written_no_write.
Qed.
End genesis.

(** ** A run ends *)

Section ends.
Context `{GenesisForker}.
Context (env : Env) (config : OrchestratorConfig).

Lemma finishes_onE {A} (m : E A) : finishes m → finishes (onE m).
Proof. intros Hm o. unfold onE. pose proof (Hm (o_env o)). by destruct (m (o_env o)). Qed.

Lemma finishes_stage {A} msg (m : M OState (outcome A)) : finishes m → finishes (stage msg m).
Proof.
  intros Hm. apply finishes_case; [done|]. intros [a|e| |] Hr; try by apply finishes_done.
  unfold abandon. apply finishes_bindM. intros _. apply finishes_bindM. intros [e'|];
    by apply finishes_done.
Qed.

Lemma finishes_enter phase message : finishes (enter env phase message).
Proof.
  apply finishes_bindE; [apply finishes_stage, finishes_onE; finish|]. intros _.
  apply finishes_bindM. intros _. by apply finishes_done.
Qed.

Lemma finishes_redistribute opts g nodes : finishes (redistribute env opts g nodes).
Proof. unfold redistribute, distribute, write_file. finish. Qed.

Lemma finishes_configureNodeNetworking nodes : finishes (configureNodeNetworking env nodes).
Proof.
  unfold configureNodeNetworking, configure_node, SetPersistentPeers, SetP2PLocalDevnet,
    SetConsensusParams, SetPortsWithHost, EnableNode0Services, setConfigValue, setP2PConfigBool,
    setP2PLaddrWithHost, setRPCLaddrWithHost, setGRPCAddressWithHost, setAPIAddressWithHost,
    setEVMRPCAddressWithHost, setEVMWSAddressWithHost, setSectionValue, setAppConfigBool, edit_file.
  finish.
Qed.

Lemma finishes_readValidatorKeys nodes : finishes (readValidatorKeys env config nodes).
Proof. unfold readValidatorKeys, read_validator. finish. Qed.

Lemma finishes_with_validators opts nodes k :
  finishes k → finishes (with_validators env config opts nodes k).
Proof.
  intros Hk. unfold with_validators. destruct (oc_PluginGenesis config); [|done].
  case_bool_decide; [done|].
  apply finishes_bindE; [apply finishes_wrapping, finishes_readValidatorKeys|]. intros [|v vs]; [done|].
  destruct nodes as [|n nodes]; [by apply finishes_done|]. destruct (PatchGenesisFile _).
  - apply finishes_bindE; [finish|]. intros t. apply finishes_bindE; [finish|]. intros _.
    apply finishes_removing. apply finishes_bindE; [finish|]. intros size.
    apply finishes_bindE; [finish|]. intros g. apply finishes_bindE; [apply finishes_redistribute|done].
  - apply finishes_bindE; [finish|]. intros g. apply finishes_bindE; [finish|]. intros g'.
    apply finishes_bindE; [apply finishes_redistribute|done].
Qed.

Lemma finishes_executeInitPhase opts bp g : finishes (executeInitPhase env config opts bp g).
Proof.
  unfold executeInitPhase, initialize_all, check_ctx, initializeNode.
  case_bool_decide; [by apply finishes_done|].
  apply finishes_bindE; [finish|]. intros vs. apply finishes_bindE; [finish|]. intros fs.
  apply finishes_bindE; [unfold distribute, write_file; finish|]. intros _.
  apply finishes_with_validators. apply finishes_bindE; [|finish].
  apply finishes_wrapping, finishes_configureNodeNetworking.
Qed.

(** Only polls read the clock. *)
Definition ticks (o : OState) : nat := es_ticks (o_env o).

Lemma onE_ticks {A} (m : M EState A) o r o' :
  (∀ st, es_ticks (m st).2 = es_ticks st) → onE m o = (r, o') → ticks o' = ticks o.
Proof.
  intros Hm. unfold onE, ticks. pose proof (Hm (o_env o)) as Ht.
  destruct (m (o_env o)) as [a st]. by intros [= <- <-].
Qed.

Lemma count_healthy_ticks nodes st : es_ticks (count_healthy env nodes st).2 = es_ticks st.
Proof.
  revert st. induction nodes as [|n nodes IH]; intros st; [done|]. simpl.
  rewrite bindM_eq, bindM_eq. simpl. by rewrite IH.
Qed.

Lemma wrapping_err_ticks msg f log (st : EState) :
  es_ticks (wrapping msg (call_err f log) st).2 = es_ticks st.
Proof. done. Qed.

Lemma setPhase_ticks phase message o : ticks (setPhase phase message o).2 = ticks o.
Proof.
  unfold setPhase, modifyM, report, bindM, ticks. simpl. by destruct (o_progress o).
Qed.

(** A poll after the deadline is the last one. *)
Lemma poll_ends fuel nodes deadline n o :
  n < fuel → (deadline < clock env (ticks o + n))%Z → (poll env fuel nodes deadline o).1 ≠ Unfinished.
Proof.
  revert n o. induction fuel as [|fuel IH]; intros n o Hn Hd; [lia|]. cbn [poll].
  assert (Hctx : finishes (onE (check_ctx env "context cancelled during health check")))
    by (apply finishes_onE; unfold check_ctx; finish).
  rewrite bindE_eq. specialize (Hctx o). destruct (onE (check_ctx _ _) o) as [r o1] eqn:E1.
  apply onE_ticks in E1; [|apply wrapping_err_ticks]. destruct r; [|done..].
  rewrite bindM_eq. destruct (onE (count_healthy env nodes) o1) as [healthy o2] eqn:E2.
  apply onE_ticks in E2; [|apply count_healthy_ticks]. cbn [fst snd]. case_bool_decide; [done|].
  rewrite bindM_eq. destruct (onE (now_env env) o2) as [t o3] eqn:E3. cbn [fst snd].
  unfold onE, now_at in E3. injection E3 as <- <-.
  change (es_ticks (o_env o2)) with (ticks o2). rewrite E2, E1.
  case_bool_decide as Hlate; [done|].
  destruct n as [|n]; [by rewrite Nat.add_0_r in Hd|]. rewrite bindM_eq.
  assert (Hwait : finishes (onE (wrapping "context cancelled during health check"
    (call_err (wait_tick env) CWait)))) by (apply finishes_onE; finish).
  rewrite bindE_eq. match goal with |- context [onE (wrapping _ _) ?o4] =>
    specialize (Hwait o4); destruct (onE (wrapping _ _) o4) as [r o5] eqn:E5 end.
  apply onE_ticks in E5; [|apply wrapping_err_ticks]. destruct r; [|done..].
  apply (IH n); [lia|]. rewrite E5, setPhase_ticks. unfold ticks in *. simpl.
  by rewrite Nat.add_succ_r in Hd.
Qed.

(** The time the health checks may take. *)
Definition health_timeout (timeout : Duration) : Duration :=
  if bool_decide (timeout ≤ 0)%Z then DefaultHealthCheckTimeout else timeout.

(** A clock that advances by at least [d] between two readings. *)
Definition advances (d : Duration) : Prop := (0 < d)%Z ∧ ∀ k, (clock env k + d ≤ clock env (Datatypes.S k))%Z.

Lemma advances_by d k n : advances d → (clock env k + d * Z.of_nat n ≤ clock env (k + n))%Z.
Proof.
  intros [_ Ha]. induction n as [|n IH]; [rewrite Nat.add_0_r; lia|].
  specialize (Ha (k + n)). rewrite Nat.add_succ_r. lia.
Qed.

Lemma finishes_health fuel nodes timeout d :
  advances d → (health_timeout timeout / d < Z.of_nat fuel)%Z →
  finishes (executeHealthPhase env config fuel nodes timeout).
Proof.
  intros Ha Hf o. unfold executeHealthPhase. fold (health_timeout timeout).
  destruct (negb _); [done|]. rewrite bindM_eq. unfold onE at 1 2, now_at. cbn [fst snd].
  pose proof Ha as [Hd _]. assert (Ht : (0 ≤ health_timeout timeout)%Z).
  { unfold health_timeout, DefaultHealthCheckTimeout, minute, second. case_bool_decide; lia. }
  pose proof (Z.div_pos (health_timeout timeout) d Ht Hd) as Hq.
  pose proof (Z.mul_succ_div_gt (health_timeout timeout) d Hd) as Hgt.
  apply (poll_ends _ _ _ (Z.to_nat (health_timeout timeout / d))); [lia|].
  unfold ticks. cbn [o_env es_ticks].
  pose proof (advances_by d (es_ticks (o_env o))
    (Datatypes.S (Z.to_nat (health_timeout timeout / d))) Ha) as Hadv.
  rewrite Nat.add_succ_r in Hadv. simpl plus. lia.
Qed.

(** C24: a run ends: with a clock that advances by [d] between readings, as many
    polls as [d] fits into the timeout of the health checks, and one more, are
    enough for it to return, fail or panic, whatever the outside answers. *)
Theorem Execute_terminates fuel opts d :
  advances d → (health_timeout (po_HealthCheckTimeout opts) / d < Z.of_nat fuel)%Z →
  ∀ o, (Execute env config fuel opts o).1 ≠ Unfinished.
Proof.
  intros Ha Hf. change (finishes (Execute env config fuel opts)).
  assert (Hfinal : ∀ p x, finishes (run! setPhase p x in ret tt)).
  { intros p x. apply finishes_bindM. intros _. by apply finishes_done. }
  assert (Hguard : finishes (guard_ctx env)) by (apply finishes_stage, finishes_onE; finish).
  assert (Hstart : ∀ nodes, finishes (start_nodes env config fuel opts nodes)).
  { intros nodes. unfold start_nodes. destruct (po_SkipStart opts); [apply Hfinal|].
    apply finishes_bindE; [apply finishes_enter|]. intros _.
    apply finishes_bindE.
    { apply finishes_stage, finishes_onE. unfold executeStartPhase, check_ctx. finish. }
    intros _. unfold check_health. apply finishes_bindE; [done|]. intros _.
    case_bool_decide; [|apply Hfinal]. apply finishes_bindM. intros _. apply finishes_bindE.
    - apply finishes_stage. by eapply finishes_health.
    - intros health. destruct (AllHealthy health); apply Hfinal. }
  unfold Execute. apply finishes_bindE; [done|]. intros _. apply finishes_bindE.
  { unfold obtain_binary, executeBuildPhase. case_bool_decide; [|by apply finishes_done].
    apply finishes_bindE; [apply finishes_enter|]. intros _. apply finishes_stage, finishes_onE. finish. }
  intros bp. apply finishes_bindM. intros _.
  apply finishes_bindE; [apply finishes_enter|]. intros _. apply finishes_bindM. intros progress.
  apply finishes_bindE.
  { apply finishes_stage, finishes_onE. unfold executeForkPhase, write_file.
    apply finishes_bindE; [apply finishes_wrapping, fork_finishes|finish]. }
  intros forked. apply finishes_bindE; [apply finishes_enter|]. intros _. apply finishes_bindE.
  { apply finishes_stage, finishes_onE, finishes_executeInitPhase. }
  intros nodes. apply finishes_bindE; [apply Hstart|]. intros _. by apply finishes_done.
Qed.
End ends.
