(* ===== verification/OrchestratorSpec.v ===== *)
(** * Nodes that find each other, and plugins

    What [configureNodeNetworking] of the orchestrator writes into the
    configurations of the nodes, over the editors of [NodeConfig]; the adapter
    through which the daemon gives the orchestrator a network module
    ([internal/daemon/server/wiring.go]); and runs of the theorems of
    [Orchestrator] on concrete outsides. *)

From Stdlib Require Import Ascii.
From stdpp Require Import base tactics numbers list strings gmap.
From S2P Require Import Prelude Types Store Paths Subnet ProvisionTypes NodeController.
From S2P Require Import ProvisionEnv NodeConfig Forker Orchestrator.

(** ** The configuration of one node *)

Section network.
Context (env : Env) (files : string → result string) (Hfiles : stores_files env files).

Definition home (node : Node) : string := ns_HomeDir (n_Spec node).
Definition address (node : Node) : string := ns_Address (n_Spec node).

Lemma paths_differ d d' : ConfigPath d ≠ AppConfigPath d'.
Proof.
  intros E. apply (f_equal base) in E. unfold ConfigPath, AppConfigPath in E.
  by rewrite !Join3_base in E.
Qed.

Lemma configure_node_edits nodeIDs nodes i node :
  one_line (address node) → one_line (buildPeersExcludingSelf nodeIDs nodes i) →
  ∃ F G, edits env (home node) (configure_node env nodeIDs nodes i node) F G ∧
    puts (read_laddr "p2p") (laddr DefaultP2PPort (listen_host (address node))) F ∧
    puts (file_line "persistent_peers")
      (quoted "persistent_peers" (buildPeersExcludingSelf nodeIDs nodes i)) F.
Proof.
  intros Ha Hp. pose proof (paths_differ (home node) (home node)) as Hpaths.
  destruct (SetPersistentPeers_edits env files Hfiles _ Hpaths _ Hp) as (F1 & E1 & P1 & K1).
  destruct (SetP2PLocalDevnet_edits env files Hfiles _ Hpaths) as (F2 & E2 & K2 & K2').
  destruct (SetConsensusParams_edits env files Hfiles _ Hpaths) as (F3 & E3 & K3 & K3').
  destruct (SetPortsWithHost_edits env files Hfiles _ Hpaths (ns_Index (n_Spec node)) _ Ha)
    as (F4 & G4 & E4 & P4 & K4).
  destruct (EnableNode0Services_edits env files Hfiles _ Hpaths) as (G5 & E5).
  assert (Hlast : ∃ G, edits env (home node)
    (if bool_decide (i = 0)%Z
     then wrapping ("failed to enable services" +:+ " for " +:+ node_name node)
            (EnableNode0Services env (ns_HomeDir (n_Spec node))) else ret tt) id G).
  { case_bool_decide; [exists G5; by apply edits_wrapping|].
    exists id. intros st c a Hc Ha'. by exists st. }
  destruct Hlast as [G6 E6].
  exists (((id ∘ F4) ∘ F3) ∘ F2 ∘ F1), (G6 ∘ G4). split.
  - unfold configure_node. fold (home node).
    eapply edits_config_then; [by apply edits_wrapping|].
    eapply edits_config_then; [by apply edits_wrapping|].
    eapply edits_config_then; [by apply edits_wrapping|].
    apply (edits_seq env (home node) _ _ F4 G4 id G6); [by apply edits_wrapping|exact E6].
  - split.
    + apply (keeps_puts _ _ F1); [done|]. apply (keeps_puts _ _ F2); [done|].
      apply (keeps_puts _ _ F3); [done|]. exact P4.
    + apply (puts_keeps _ _ F1); [done|]. apply (keeps_compose _ F2); [done|].
      apply (keeps_compose _ F3); [done|]. exact K4.
Qed.

(** ** The configurations of all *)

(** The two files of a node can be read, and config.toml has the lines to edit. *)
Definition configurable (calls : list Call) (node : Node) : Prop :=
  (∃ c l p, ReadFile env calls (ConfigPath (home node)) = Ok c ∧
     read_laddr "p2p" c = Some l ∧ file_line "persistent_peers" c = Some p) ∧
  ∃ a, ReadFile env calls (AppConfigPath (home node)) = Ok a.

(** ... and says where the node listens and whom it dials. *)
Definition configured (calls : list Call) (peers : string) (node : Node) : Prop :=
  ∃ c, ReadFile env calls (ConfigPath (home node)) = Ok c ∧
    read_laddr "p2p" c = Some (laddr DefaultP2PPort (listen_host (address node))) ∧
    file_line "persistent_peers" c = Some (quoted "persistent_peers" peers).

(** Nodes with files of their own. *)
Definition apart (node node' : Node) : Prop :=
  ConfigPath (home node) ≠ ConfigPath (home node') ∧
  AppConfigPath (home node) ≠ AppConfigPath (home node').

Lemma configurable_keep calls calls' node :
  (∀ q, q = ConfigPath (home node) ∨ q = AppConfigPath (home node) →
     ReadFile env calls' q = ReadFile env calls q) →
  configurable calls node → configurable calls' node.
Proof. intros Hq [(c & l & p & Hc & Hl) [a Ha]]. split; [|exists a]; rewrite ?Hq; eauto 10. Qed.

Lemma each_configured nodeIDs nodes (l : list (Z * Node)) st :
  ForallOrdPairs (λ x y, apart x.2 y.2) l →
  (∀ i n, (i, n) ∈ l → configurable (es_calls st) n ∧ one_line (address n) ∧
     one_line (buildPeersExcludingSelf nodeIDs nodes i)) →
  ∃ st', each l (λ '(i, node), configure_node env nodeIDs nodes i node) st = (Returns tt, st') ∧
    (∀ i n, (i, n) ∈ l → configured (es_calls st') (buildPeersExcludingSelf nodeIDs nodes i) n) ∧
    ∀ q, (∀ i n, (i, n) ∈ l → q ≠ ConfigPath (home n) ∧ q ≠ AppConfigPath (home n)) →
      ReadFile env (es_calls st') q = ReadFile env (es_calls st) q.
Proof.
  revert st. induction l as [|[i n] l IH]; intros st Hl Hn; simpl.
  { exists st. split_and!; [done|by intros i n Hin%elem_of_nil|done]. }
  inversion Hl as [|x y Hap Hl']; subst.
  destruct (Hn i n ltac:(by left)) as ([(c & la & p & Hc & Hla & Hp) [a Ha]] & H1 & H2).
  destruct (configure_node_edits nodeIDs nodes i n H1 H2) as (F & G & HE & HP & HQ).
  destruct (HE st c a Hc Ha) as (st1 & Hr & Hc1 & Ha1 & Hq1).
  assert (Hother : ∀ j m, (j, m) ∈ l → apart n m).
  { intros j m Hin. rewrite Forall_forall in Hap. by apply (Hap (j, m)). }
  assert (Hkeep : ∀ j m, (j, m) ∈ l → ∀ q, q = ConfigPath (home m) ∨ q = AppConfigPath (home m) →
    ReadFile env (es_calls st1) q = ReadFile env (es_calls st) q).
  { intros j m Hin q Hq. destruct (Hother j m Hin) as [A1 A2]. apply Hq1; destruct Hq as [-> | ->];
      auto using paths_differ; intros E; by apply (paths_differ (home n) (home m)). }
  destruct (IH st1 Hl') as (st' & Hr' & Hdone & Hq').
  { intros j m Hin. destruct (Hn j m ltac:(by right)) as (Hcf & ? & ?). split; [|done].
    eapply configurable_keep; [|exact Hcf]. by eapply Hkeep. }
  exists st'. rewrite bindE_eq, Hr, Hr'. split; [done|]. split.
  - intros j m [[= -> ->]|Hin]%elem_of_cons; [|by apply Hdone]. exists (F c).
    rewrite Hq'; [split; [done|]; by rewrite HP, HQ, Hla, Hp|].
    intros j' m' Hin. destruct (Hother j' m' Hin) as [A1 A2].
    split; [done|apply paths_differ].
  - intros q Hq. rewrite Hq' by (intros j m Hin; apply (Hq j); by right).
    apply Hq1; apply (Hq i n); by left.
Qed.

(** ** Who dials whom *)

Lemma elem_of_peers_from ids nodes j id n :
  (j, (id, n)) ∈ peers_from ids nodes ↔
    ∃ k : nat, j = Z.of_nat k ∧ ids !! k = Some id ∧ nodes !! k = Some n.
Proof.
  unfold peers_from. rewrite elem_of_lookup_imap. split.
  - intros (k & [id' n'] & [= -> -> ->] & Hk). exists k. split; [done|].
    apply lookup_zip_with_Some in Hk as (? & ? & [= -> ->] & ? & ?). done.
  - intros (k & -> & H1 & H2). exists k, (id, n). split; [done|].
    by rewrite lookup_zip_with, H1; simpl; rewrite H2.
Qed.

(** The entries of the persistent peers of the node at a position. *)
Definition entries (nodeIDs : list string) (nodes : list Node) (i : Z) : list string :=
  (λ '(j, (nodeID, node)), peer j nodeID node) <$>
    filter (λ p, p.1 ≠ i) (peers_from nodeIDs nodes).

Lemma elem_of_entries (nodeID : string → string) nodes (i : nat) x :
  x ∈ entries ((λ n, nodeID (home n)) <$> nodes) nodes (Z.of_nat i) ↔
    ∃ (j : nat) m, j ≠ i ∧ nodes !! j = Some m ∧ x = peer (Z.of_nat j) (nodeID (home m)) m.
Proof.
  unfold entries. rewrite list_elem_of_fmap. split.
  - intros ([j [id m]] & -> & [Hj Hin]%list_elem_of_filter).
    apply elem_of_peers_from in Hin as (k & -> & Hk & Hm). simpl in Hj.
    rewrite list_lookup_fmap, Hm in Hk. injection Hk as <-. exists k, m. split_and!; [lia|done|done].
  - intros (j & m & Hj & Hm & ->). exists (Z.of_nat j, (nodeID (home m), m)). split; [done|].
    apply list_elem_of_filter. split; [simpl; lia|]. apply elem_of_peers_from. exists j.
    by rewrite list_lookup_fmap, Hm.
Qed.

Lemma apart_imap (f : nat → Node → Z * Node) nodes :
  (∀ i n, (f i n).2 = n) → ForallOrdPairs apart nodes →
  ForallOrdPairs (λ x y, apart x.2 y.2) (imap f nodes).
Proof.
  intros Hf Ha. revert f Hf. induction Ha as [|n l Hn Hl IH]; intros f Hf; [constructor|].
  simpl. constructor.
  - apply Forall_forall. intros y (k & m & -> & Hk)%elem_of_lookup_imap.
    change (apart (f 0 n).2 (f (Datatypes.S k) m).2). rewrite !Hf.
    rewrite Forall_forall in Hn. apply Hn. by eapply list_elem_of_lookup_2.
  - apply IH. intros k m. apply Hf.
Qed.

Lemma one_line_peer j id n : one_line id → one_line (address n) → one_line (peer j id n).
Proof.
  intros H1 H2. unfold peer. cbv zeta. fold (address n).
  case_bool_decide; auto 10 with devnet.
Qed.

Lemma one_line_concat sep l :
  one_line sep → (∀ x, x ∈ l → one_line x) → one_line (String.concat sep l).
Proof.
  intros Hs. induction l as [|x l IH]; intros Hl; [done|]. destruct l as [|y l]; [apply Hl; by left|].
  change (one_line (x +:+ sep +:+ String.concat sep (y :: l))).
  apply one_line_app; [apply Hl; by left|]. apply one_line_app; [done|].
  apply IH. intros z Hz. apply Hl. by right.
Qed.

Lemma collect_ids (nodeID : string → string) nodes st :
  (∀ calls dir, GetNodeID env calls dir = Ok (nodeID dir)) →
  ∃ st', collect nodes (λ node, wrapping ("failed to get node ID for " +:+ node_name node)
        (call (λ t, GetNodeID env t (ns_HomeDir (n_Spec node)))
              (CGetNodeID (ns_HomeDir (n_Spec node))))) st =
      (Returns ((λ n, nodeID (home n)) <$> nodes), st') ∧
    ∀ p, written p (es_calls st') = written p (es_calls st).
Proof.
  intros Hid. revert st. induction nodes as [|n nodes IH]; intros st; [by exists st|].
  simpl. rewrite bindE_eq. unfold wrapping at 1, call at 1, bindM at 1 2, ask_env at 1, done_with at 1 2.
  rewrite Hid. cbn [fst snd]. destruct (IH (mkEState (es_calls st ++ [CGetNodeID
    (ns_HomeDir (n_Spec n)) (Ok (nodeID (ns_HomeDir (n_Spec n))))]) (es_ticks st)))
    as (st' & Hr & Hw).
  exists st'. rewrite bindE_eq, Hr. split; [done|]. intros p. rewrite Hw. simpl.
  by rewrite written_app.
Qed.

(** C25: on a file system that stores what is written, configuring the network of
    nodes that have files of their own succeeds and leaves every node listening on
    its address, or on 0.0.0.0, always on port 26656, and dialing every other node,
    by its identifier, and no one else.  A node with an address is dialed where it
    listens; without addresses the node at position [j] is dialed on port
    26656 + 10000 j, where only the first one listens. *)
Theorem peers_dial_listeners (nodeID : string → string) nodes st :
  (∀ calls dir, GetNodeID env calls dir = Ok (nodeID dir)) →
  (∀ dir, one_line (nodeID dir)) → (∀ n, n ∈ nodes → one_line (address n)) →
  ForallOrdPairs apart nodes →
  (∀ n, n ∈ nodes → configurable (es_calls st) n) →
  ∃ st', configureNodeNetworking env nodes st = (Returns tt, st') ∧
    ∀ (i : nat) n, nodes !! i = Some n →
      ∃ c L, ReadFile env (es_calls st') (ConfigPath (home n)) = Ok c ∧
        read_laddr "p2p" c = Some (quoted "laddr" ("tcp://" +:+ listen_host (address n) +:+ ":"
                                                     +:+ itoa 26656)) ∧
        file_line "persistent_peers" c = Some (quoted "persistent_peers" (String.concat "," L)) ∧
        ∀ x, x ∈ L ↔ ∃ (j : nat) m, j ≠ i ∧ nodes !! j = Some m ∧
          x = nodeID (home m) +:+ "@" +:+
              (if bool_decide (address m = "")
               then "127.0.0.1:" +:+ itoa (wrap64 (26656 + wrap64 (Z.of_nat j * 10000)))
               else address m +:+ ":" +:+ itoa 26656).
Proof.
  intros Hid Hone Haddr Hapart Hconf. unfold configureNodeNetworking. case_bool_decide as Hnil.
  { subst nodes. exists st. by split. }
  set (ids := (λ n, nodeID (home n)) <$> nodes).
  destruct (collect_ids nodeID nodes st Hid) as (st1 & Hr & Hw). fold ids in Hr.
  pose proof (elem_of_entries nodeID nodes) as Hentries. fold ids in Hentries.
  destruct (each_configured ids nodes (imap (λ i node, (Z.of_nat i, node)) nodes) st1)
    as (st' & Hr' & Hdone & _).
  { by apply apart_imap. }
  { intros j n (k & m & [= -> ->] & Hk)%elem_of_lookup_imap.
    assert (Hin : m ∈ nodes) by by eapply list_elem_of_lookup_2. split_and!; [|by apply Haddr|].
    - eapply configurable_keep; [|by apply Hconf]. intros q _.
      destruct (Hfiles (es_calls st1) q) as [-> _]. destruct (Hfiles (es_calls st) q) as [-> _].
      by rewrite Hw.
    - change (one_line (String.concat "," (entries ids nodes (Z.of_nat k)))).
      apply one_line_concat; [done|]. intros x (j & n' & _ & Hn' & ->)%Hentries.
      apply one_line_peer; [done|]. apply Haddr. by eapply list_elem_of_lookup_2. }
  exists st'. rewrite bindE_eq, Hr. split; [exact Hr'|]. intros i n Hi.
  destruct (Hdone (Z.of_nat i) n) as (c & Hc & Hl & Hp).
  { apply elem_of_lookup_imap. by exists i, n. }
  exists c, (entries ids nodes (Z.of_nat i)). split_and!; [done|done|done|].
  intros x. rewrite Hentries. clear. split; intros (j & m & Hj & Hm & ->); exists j, m;
    (split_and!; [done|done|]); unfold peer; cbv zeta; fold (address m); unfold DefaultP2PPort;
    repeat case_bool_decide; done.
Qed.
End network.

(** ** Network modules *)

(** The part of a network module that genesis operations use;
    [ModifyGenesisFile] is there when the module also implements
    [FileBasedGenesisModifier].  The options are the chain ID and the validators. *)
Record NetworkModule := mkNetworkModule {
  nm_RPCEndpoint : string → string;
  nm_SnapshotURL : string → string;
  nm_BinaryName : string;
  nm_ModifyGenesis : list Call → string → string * list ValidatorInfo → result string;
  nm_ModifyGenesisFile :
    option (list Call → string → string → string * list ValidatorInfo → result Z)
}.

(** [moduleGenesisAdapter]; [header] decodes the chain ID of a genesis. *)
Definition adapter_ValidateGenesis (header : string → result string) (genesis : string)
    : option error :=
  match header genesis with
  | Err e => Some (Wrap "invalid genesis JSON" e)
  | Ok chainID =>
      if bool_decide (chainID = "") then Some (Errorf "genesis missing chain_id") else None
  end.

Definition adapter_PatchGenesisFile (m : NetworkModule) (calls : list Call)
    (input output : string) (opts : GenesisPatchOptions) : result Z :=
  match nm_ModifyGenesisFile m with
  | None => Err (Errorf "plugin does not support file-based genesis modification")
  | Some modify => modify calls input output (gp_ChainID opts, gp_Validators opts)
  end.

Definition moduleGenesisAdapter (header : string → result string) (m : NetworkModule)
    : PluginGenesis := {|
  GetRPCEndpoint := nm_RPCEndpoint m;
  GetSnapshotURL := nm_SnapshotURL m;
  BinaryName := nm_BinaryName m;
  ValidateGenesis := λ _, adapter_ValidateGenesis header;
  PatchGenesis := λ calls genesis opts,
    nm_ModifyGenesis m calls genesis (gp_ChainID opts, gp_Validators opts);
  PatchGenesisFile := Some (adapter_PatchGenesisFile m)
|}.

Section adapter.
Context `{GenesisForker}.
Context (env : Env) (config : OrchestratorConfig) (opts : ProvisionOptions).

Lemma collect_length {A B} (l : list A) (body : A → E B) st ys st' :
  collect l body st = (Returns ys, st') → length ys = length l.
Proof.
  revert st ys st'. induction l as [|x l IH]; intros st ys st'; simpl; [by intros [= <- _]|].
  intros (y & st1 & _ & Hr)%bindE_Returns. apply bindE_Returns in Hr as (zs & st2 & H2 & Hr).
  injection Hr as <- _. simpl. by rewrite (IH _ _ _ H2).
Qed.

(** The orchestrator means to patch a small genesis by message when the plugin
    has no file-based patching, but the daemon's adapter always claims to have it:
    with a module that has not, no run with a validator ever returns, although the
    module could patch by message. *)
Theorem adapter_always_patches_files header m fuel o r :
  oc_PluginGenesis config = Some (moduleGenesisAdapter header m) →
  nm_ModifyGenesisFile m = None → (0 < po_NumValidators opts)%Z →
  (Execute env config fuel opts o).1 ≠ Returns r.
Proof.
  intros Hplugin Hm Hv E. destruct (Execute env config fuel opts o) as [out o'] eqn:Hr.
  simpl in E. subst out. unfold Execute in Hr.
  apply bindE_Returns in Hr as (? & o1 & _ & Hr). apply bindE_Returns in Hr as (bp & o2 & _ & Hr).
  rewrite bindM_eq in Hr. apply bindE_Returns in Hr as (? & o4 & _ & Hr).
  unfold bindM at 1, getM at 1 in Hr. apply bindE_Returns in Hr as (fr & o5 & _ & Hr).
  apply bindE_Returns in Hr as (? & o6 & _ & Hr).
  apply bindE_Returns in Hr as (ns & o7 & (st7 & H7 & _)%stage_Returns%onE_Returns & _).
  unfold executeInitPhase in H7. case_bool_decide; [done|].
  apply bindE_Returns in H7 as (vs & st1 & Hvs%initialize_all_Returns & H7).
  apply bindE_Returns in H7 as (fs & st2 & _ & H7).
  apply bindE_Returns in H7 as (? & st3 & _ & H7).
  unfold with_validators in H7. rewrite Hplugin in H7. rewrite bool_decide_false in H7 by lia.
  apply bindE_Returns in H7 as (infos & st4 & Hi & H7).
  apply (proj1 (wrapping_Returns _ _ _ _ _)) in Hi. apply collect_length in Hi.
  rewrite seqZ_cons in Hvs by lia. rewrite Hvs in Hi, H7. simpl in Hi, H7.
  destruct infos as [|i infos]; [done|].
  apply bindE_Returns in H7 as (t & st5 & _ & H7). apply bindE_Returns in H7 as (? & st6 & _ & H7).
  apply removing_Returns in H7 as (st8 & H7 & _).
  apply bindE_Returns in H7 as (size & st9 & H9 & _).
  apply (proj1 (wrapping_Returns _ _ _ _ _)) in H9. apply call_Returns in H9 as [H9 _].
  unfold adapter_PatchGenesisFile in H9. by rewrite Hm in H9.
Qed.
End adapter.

(** ** Runs *)

Definition ex_config_toml : string :=
  unlines ["proxy_app = 1"; "[rpc]"; "laddr = 1"; "[p2p]"; "laddr = 2"; "persistent_peers = 3";
           "addr_book_strict = true"; "[consensus]"; "timeout_commit = 5s"].

(** The genesis to fork, and the configurations that initializing leaves. *)
Definition ex_files (p : string) : result string :=
  if bool_decide (base p = Some "config.toml") then Ok ex_config_toml
  else if bool_decide (base p = Some "app.toml") then Ok ex_app
  else Ok ex_source.

Definition ex_env : Env := store_env ex_files.

#[export] Instance ex_forker : GenesisForker :=
  the_forker ex_env (mkGenesisForkerConfig "/data" None true true true).

Definition ex_codecs : Codecs := mkCodecs (λ _, Ok ("AB12", "key")) (λ hrp _, Ok (hrp +:+ "1xyz")).

Definition ex_orchestrator : OrchestratorConfig :=
  mkOrchestratorConfig true true true None "stable" ex_codecs.

Definition ex_run_opts : ProvisionOptions :=
  mkProvisionOptions "dev" "dev-1" "stable" 2 1
    (mkGenesisSource GenesisModeLocal "" "" "/genesis.json" "") noPatchOptions "v1" "" "/data/dev"
    0 true 7.

Definition ex_start : OState := NewProvisioningOrchestrator (mkEState [] 0) <| o_progress := true |>.

Lemma Execute_phases_witness :
  ∃ r o' l, Execute ex_env ex_orchestrator 1 ex_run_opts ex_start = (Returns r, o') ∧
    calls_of o' = l ∧ phases_of l = ["Building"; "Forking"; "Initializing"; "Pending"].
Proof.
  pose proof (Execute_phases ex_env ex_orchestrator 1 ex_run_opts ex_start eq_refl) as Hp.
  destruct (Execute ex_env ex_orchestrator 1 ex_run_opts ex_start) as [[r|e| |] o'] eqn:E;
    [|vm_compute in E; discriminate E..].
  destruct Hp as (l & Hl & _ & _ & (n & final & _ & Hph) & _).
  exists r, o', l. split; [reflexivity|]. split; [exact Hl|exact Hph].
Defined.

Lemma Execute_same_genesis_witness :
  ∃ r o' g, Execute ex_env ex_orchestrator 1 ex_run_opts ex_start = (Returns r, o') ∧
    written "/data/dev/genesis.json" (calls_of o') = Some g ∧
    (g ≠ "" → written "/data/dev/nodes/dev-fullnode-2/config/genesis.json" (calls_of o') = Some g).
Proof.
  destruct (Execute ex_env ex_orchestrator 1 ex_run_opts ex_start) as [[r|e| |] o'] eqn:E;
    [|vm_compute in E; discriminate E..].
  destruct (Execute_same_genesis ex_env ex_orchestrator ex_run_opts 1 ex_start r o' E)
    as (l & g & Hl & Hm & Hn).
  exists r, o', g. split; [reflexivity|]. rewrite Hl. split; [exact Hm|]. intros Hg.
  apply (Hn Hg (initialized_node ex_run_opts (pr_BinaryPath r) 2 "fullnode")).
  apply elem_of_app. right. apply list_elem_of_fmap. exists 0%Z. split; [reflexivity|].
  apply elem_of_seqZ. vm_compute. split; [discriminate|reflexivity].
Defined.

Lemma Execute_terminates_witness :
  (Execute ex_env ex_orchestrator 121 (ex_run_opts <| po_SkipStart := false |>) ex_start).1 ≠
    Unfinished.
Proof.
  apply (Execute_terminates ex_env ex_orchestrator 121 _ second).
  - split; [reflexivity|]. intros k. cbn [clock ex_env store_env]. lia.
  - reflexivity.
Defined.

Lemma adapter_always_patches_files_witness :
  (Execute ex_env
    (mkOrchestratorConfig true true true (Some (moduleGenesisAdapter (λ _, Ok "stable-1")
       (mkNetworkModule id id "stabled" (λ _ g _, Ok g) None))) "stable" ex_codecs)
    1 ex_run_opts ex_start).1 ≠ Returns (provision_result ex_run_opts "/cache/chaind").
Proof.
  eapply adapter_always_patches_files; [reflexivity|reflexivity|reflexivity].
Defined.

Definition ex_nodes : list Node := planned_nodes ex_run_opts "/cache/chaind".

Lemma peers_dial_listeners_witness :
  ∃ st' c L, configureNodeNetworking ex_env ex_nodes (mkEState [] 0) = (Returns tt, st') ∧
    file_line "persistent_peers" c = Some (quoted "persistent_peers" (String.concat "," L)) ∧
    "id@127.0.7.3:26656" ∈ L.
Proof.
  destruct (peers_dial_listeners ex_env ex_files (store_env_stores ex_files) (λ _, "id") ex_nodes
    (mkEState [] 0)) as (st' & Hr & Hn).
  - reflexivity.
  - reflexivity.
  - intros n Hn. repeat (apply elem_of_cons in Hn as [->|Hn]; [reflexivity|]).
    by apply elem_of_nil in Hn.
  - repeat constructor; vm_compute; discriminate.
  - intros n Hn. repeat (apply elem_of_cons in Hn as [->|Hn]; [split;
      [eexists _, _, _; split; [reflexivity|split; reflexivity]|eexists; reflexivity]|]).
    by apply elem_of_nil in Hn.
  - destruct (Hn 0 _ eq_refl) as (c & L & _ & _ & Hp & HL). exists st', c, L.
    split; [exact Hr|]. split; [exact Hp|]. apply HL.
    exists 2, (initialized_node ex_run_opts "/cache/chaind" 2 "fullnode").
    split; [discriminate|]. split; reflexivity.
Defined.
