(* ===== verification/Provisioner.v ===== *)
(** * The devnet provisioner ([internal/daemon/provisioner/devnet.go])

    [DevnetProvisioner] is the implementation of the interface [Provisioner] of
    the devnet controller: it erases the devnet's directory, allocates its
    subnet, has an orchestrator build and initialise the chain, and creates the
    node resources that the node controller then starts.  The file system and
    the orchestrators answer any function of the calls made so far.  The step
    reporter, which streams progress to clients, is left out. *)

From stdpp Require Import base tactics numbers list strings gmap.
From S2P Require Import Prelude Types MemStore Store World Subnet Paths ProvisionTypes.
From S2P Require Import NodeController ProvisionLogs DevnetController.
From S2P Require Supervisor ProcessRuntime.

(** ** Data *)

Record NetworkDefaults := mkNetworkDefaults {
  nd_RPCURL : string;
  nd_SnapshotURL : string;
  nd_AvailableNetworks : list string
}.

(** The calls outside, with their answers. *)
Inductive ProvCall :=
| CStat (path : string) (missing : bool)
| CRemoveAll (path : string) (answer : option error)
| CSaveAllocations (answer : io)
| CNetworkDefaults (plugin networkType : string) (answer : result NetworkDefaults)
| CCreateOrchestrator (network : string) (answer : option error)
| CExecute (opts : ProvisionOptions) (answer : list (string * string) * result ProvisionResult).

(** What the file system answers, and an orchestrator factory; executing reports
    phases with messages, in order, and then answers. *)
Record Files := mkFiles {
  stat_missing : list ProvCall → string → bool;
  RemoveAll : list ProvCall → string → option error;
  save_answer : list ProvCall → io
}.

Record OrchestratorFactory := mkOrchestratorFactory {
  CreateOrchestrator : list ProvCall → string → option error;
  GetNetworkDefaults : list ProvCall → string → string → result NetworkDefaults;
  Execute : list ProvCall → ProvisionOptions → list (string * string) * result ProvisionResult
}.

(** ** The conversion to options *)

Definition mapGenesisSource (devnet : Devnet) (networkDefaults : option NetworkDefaults)
    : GenesisSource :=
  let spec := d_Spec devnet in
  if bool_decide (ds_GenesisPath spec ≠ "")
  then mkGenesisSource GenesisModeLocal "" "" (ds_GenesisPath spec) ""
  else
    let or_plugin url of_plugin :=
      match networkDefaults with
      | Some d => if bool_decide (url = "") then of_plugin d else url
      | None => url
      end in
    let snapshotURL := or_plugin (ds_SnapshotURL spec) nd_SnapshotURL in
    if bool_decide (snapshotURL ≠ "")
    then mkGenesisSource GenesisModeSnapshot "" snapshotURL "" (ds_ForkNetwork spec)
    else
      let rpcURL := or_plugin (ds_RPCURL spec) nd_RPCURL in
      if bool_decide (rpcURL ≠ "")
      then mkGenesisSource GenesisModeRPC rpcURL "" "" (ds_ForkNetwork spec)
      else mkGenesisSource GenesisModeFresh "" "" "" "".

(** The first line of the message; advice follows it in the source. *)
Definition SnapshotVersionRequiredError (devnetName : string) : error :=
  Errorf ("snapshot mode requires explicit binary version for devnet " +:+ quote devnetName).

(** [BinaryPath] and [BinaryVersion] by the type of the source. *)
Definition binary_options (source : BinarySource) : string * string :=
  if bool_decide (bs_Type source = "local") then (bs_Path source, bs_Version source)
  else if bool_decide (bs_Type source = "cache") || bool_decide (bs_Type source = "github") ||
          bool_decide (bs_Type source = "url") || bool_decide (bs_Type source = "")
  then ("", bs_Version source)
  else ("", "").

Definition devnetToProvisionOptions (devnet : Devnet) (dataDir : string)
    (networkDefaults : option NetworkDefaults) (allocatedSubnet : Z) : result ProvisionOptions :=
  let name := m_Name (d_Metadata devnet) in
  let spec := d_Spec devnet in
  let chainID := if bool_decide (ds_ChainID spec = "") then name +:+ "-1" else ds_ChainID spec in
  let '(binaryPath, binaryVersion) := binary_options (ds_BinarySource spec) in
  let source := mapGenesisSource devnet networkDefaults in
  if bool_decide (gs_Mode source = GenesisModeSnapshot) && bool_decide (binaryVersion = "")
  then Err (SnapshotVersionRequiredError name)
  else Ok (mkProvisionOptions name chainID (ds_Plugin spec) (ds_Validators spec)
    (ds_FullNodes spec) source noPatchOptions binaryVersion binaryPath (Join [dataDir; name]) 0 false
    allocatedSubnet).

(** ** The node resources *)

(** [createNodeSpec], with the two readings of the clock. *)
Definition createNodeSpec (created updated : Time) (devnet : Devnet) (index : Z)
    (role devnetDataDir builtBinaryPath : string) (allocatedSubnet : Z) : Node :=
  let name := m_Name (d_Metadata devnet) in
  let spec := d_Spec devnet in
  let source := ds_BinarySource spec in
  let binaryPath :=
    if bool_decide (builtBinaryPath = "") then
      let path := if bool_decide (bs_Type source = "local") then bs_Path source else "" in
      if bool_decide (ds_Mode spec = "docker") && bool_decide (bs_URL source ≠ "")
      then bs_URL source else path
    else builtBinaryPath in
  let namespace := if bool_decide (m_Namespace (d_Metadata devnet) = "") then DefaultNamespace
                   else m_Namespace (d_Metadata devnet) in
  let nodeAddress := if bool_decide (0 < allocatedSubnet)%Z then NodeIP allocatedSubnet index
                     else "" in
  let moniker := name +:+ "-" +:+ role +:+ "-" +:+ itoa index in
  mkNode (mkResourceMeta (name +:+ "-node-" +:+ itoa index) namespace 0 created updated ∅ ∅)
    (mkNodeSpec name "" index role binaryPath (Join [devnetDataDir; "nodes"; moniker])
       nodeAddress NodePhaseRunning (ds_ChainID spec) (ds_Plugin spec))
    (mkNodeStatus NodePhasePending 0 0 0 false 0 "" "" "Node created, awaiting start" 0 0 0 0).

(** ** The provisioner *)

Section provisioner.
Context {S F : Type} `{Store S} `{Codec F persistedState} `{MapRange}.
Variable dataDir : string.
Variable fs : Files.
Variable orchestratorFactory : option OrchestratorFactory.

(** The state of the controller's call, the subnet allocator, and the calls
    outside so far. *)
Record PState := mkPState {
  ps_d : DState S;
  ps_alloc : option (Allocator F);
  ps_calls : list ProvCall
}.
#[local] Instance eta_PState : Settable PState := mkSettable (λ x,
  mkPState (ps_d x) (ps_alloc x) (ps_calls x)).

Abbreviation P := (M PState).

Definition onD {A} (m : M (DState S) A) : P A :=
  λ st, let '(a, d) := m (ps_d st) in (a, st <| ps_d := d |>).
Definition onStore {A} (m : M (World S DevnetCall) A) : P A := onD (onW m).

Definition ask {A} (answer : list ProvCall → A) (log : A → ProvCall) : P A :=
  λ st, let a := answer (ps_calls st) in (a, st <| ps_calls := ps_calls st ++ [log a] |>).

Definition the_devnet : P Devnet := getM (λ st, ds_devnet (ps_d st)).

Definition devnet_namespace (devnet : Devnet) : string :=
  if bool_decide (m_Namespace (d_Metadata devnet) = "") then DefaultNamespace
  else m_Namespace (d_Metadata devnet).

Definition EraseDevnetDir (devnetName : string) : P (option error) :=
  let devnetDataDir := Join [dataDir; devnetName] in
  do! missing := ask (λ t, stat_missing fs t devnetDataDir) (CStat devnetDataDir) in
  if missing : bool then done_with None
  else
    do! err := ask (λ t, RemoveAll fs t devnetDataDir) (CRemoveAll devnetDataDir) in
    done_with (match err with
      | Some e => Some (Wrap ("failed to erase devnet directory " +:+ devnetDataDir) e)
      | None => None
      end).

(** The subnet of [Provision]; 0 without an allocator. *)
Definition allocate_subnet (devnet : Devnet) : P (result Z) :=
  λ st,
    match ps_alloc st with
    | None => (Ok 0%Z, st)
    | Some a =>
        let '(answer, st) := ask (save_answer fs) CSaveAllocations st in
        let '(r, a) := Allocate answer (devnet_namespace devnet) (m_Name (d_Metadata devnet)) a in
        let st := st <| ps_alloc := Some a |> in
        match r with
        | Err e => (Err (Wrap "failed to allocate subnet" e), st)
        | Ok allocated =>
            (Ok allocated, (onD (modify (λ d, d <| d_Status; dst_Subnet := allocated |>)) st).2)
        end
    end.

(** [provisionWithOrchestrator]: the path of the built binary. *)
Definition provisionWithOrchestrator (f : OrchestratorFactory)
    (onProgress : option (string → string → M (DState S) unit)) (devnet : Devnet)
    (allocatedSubnet : Z) : P (result string) :=
  let name := m_Name (d_Metadata devnet) in
  let spec := d_Spec devnet in
  let network := ds_Plugin spec in
  if bool_decide (network = "")
  then done_with (Err (Errorf ("devnet " +:+ name +:+ " has no plugin/network specified")))
  else
    do! defaults :=
      (if bool_decide (ds_ForkNetwork spec ≠ "") then
         do! r := ask (λ t, GetNetworkDefaults f t network (ds_ForkNetwork spec))
                      (CNetworkDefaults network (ds_ForkNetwork spec)) in
         done_with (ok_of r)
       else done_with None) in
    do! err := ask (λ t, CreateOrchestrator f t network) (CCreateOrchestrator network) in
    match err with
    | Some e => done_with (Err (Wrap ("failed to create orchestrator for network "
                                        +:+ quote network) e))
    | None =>
        match devnetToProvisionOptions devnet dataDir defaults allocatedSubnet with
        | Err e => done_with (Err e)
        | Ok opts =>
            let opts := opts <| po_SkipStart := true |> in
            do! ' (reports, r) := ask (λ t, Execute f t opts) (CExecute opts) in
            run! (match onProgress with
                  | Some callback => eachM reports (λ '(phase, message),
                                       onD (callback phase message))
                  | None => done_with tt
                  end) in
            done_with (match r with
              | Err e => Err (Wrap "orchestrator execution failed" e)
              | Ok result => Ok (pr_BinaryPath result)
              end)
        end
    end.

Definition createNodeIfNotExists (node : Node) : P (option error) :=
  do! r := onStore (readM (GetNode (m_Namespace (n_Metadata node)) (ns_DevnetRef (n_Spec node))
                             (ns_Index (n_Spec node)))) in
  match r with
  | Ok _ => done_with None
  | Err _ => onStore (saveM CreateNode node)
  end.

(** The body of the two loops. *)
Definition create_node (devnet : Devnet) (role builtBinaryPath : string) (allocatedSubnet : Z)
    (message : string) (i : Z) : P (option error) :=
  do! created := onStore now in
  do! updated := onStore now in
  do! err := createNodeIfNotExists (createNodeSpec created updated devnet i role
    (Join [dataDir; m_Name (d_Metadata devnet)]) builtBinaryPath allocatedSubnet) in
  done_with (match err with
    | Some e => Some (Wrap ("failed to create " +:+ message +:+ " " +:+ itoa i) e)
    | None => None
    end).

Definition createNodeResources (devnet : Devnet) (builtBinaryPath : string)
    (allocatedSubnet : Z) : P (option error) :=
  let validators := ds_Validators (d_Spec devnet) in
  let totalNodes := wrap64 (validators + ds_FullNodes (d_Spec devnet)) in
  do! err := forM (Z.to_nat validators) 0
    (create_node devnet "validator" builtBinaryPath allocatedSubnet "validator node") in
  match err with
  | Some e => done_with (Some e)
  | None => forM (Z.to_nat (totalNodes - validators)) validators
      (create_node devnet "fullnode" builtBinaryPath allocatedSubnet "fullnode")
  end.

(** [Provision] up to the node resources: the binary and the subnet. *)
Definition prepare (onProgress : option (string → string → M (DState S) unit))
    : P (result (string * Z)) :=
  do! devnet := the_devnet in
  do! err := EraseDevnetDir (m_Name (d_Metadata devnet)) in
  match err with
  | Some e => done_with (Err (Wrap "failed to erase devnet directory" e))
  | None =>
      do! r := allocate_subnet devnet in
      match r with
      | Err e => done_with (Err e)
      | Ok allocatedSubnet =>
          do! built := (match orchestratorFactory with
                        | None => done_with (Ok "")
                        | Some f => provisionWithOrchestrator f onProgress devnet allocatedSubnet
                        end) in
          done_with (result_map (λ path, (path, allocatedSubnet)) built)
      end
  end.

Definition Provision_ (onProgress : option (string → string → M (DState S) unit))
    : P (option error) :=
  do! r := prepare onProgress in
  match r with
  | Err e => done_with (Some e)
  | Ok (builtBinaryPath, allocatedSubnet) =>
      do! devnet := the_devnet in
      createNodeResources devnet builtBinaryPath allocatedSubnet
  end.

Definition Deprovision (devnet : Devnet) : P (option error) :=
  onStore (λ w,
    let '(err, s) := DeleteNodesByDevnet (devnet_namespace devnet) (m_Name (d_Metadata devnet))
                       (w_store w) in
    (match err with Some e => Some (Wrap "failed to delete nodes" e) | None => None end,
     w <| w_store := s |>)).

(** [Start] and [Stop]: every node that does not want it yet is to be [desired]. *)
Fixpoint set_desired (desired : string) (nodes : list Node) : P (option error) :=
  match nodes with
  | [] => done_with None
  | node :: nodes =>
      if bool_decide (ns_Desired (n_Spec node) ≠ desired) then
        do! t := onStore now in
        do! err := onStore (saveM UpdateNode
          (node <| n_Spec; ns_Desired := desired |> <| n_Metadata; m_UpdatedAt := t |>)) in
        match err with
        | Some e => done_with (Some (Wrap
            ("failed to update node " +:+ itoa (ns_Index (n_Spec node))) e))
        | None => set_desired desired nodes
        end
      else set_desired desired nodes
  end.

Definition list_nodes {A} (devnet : Devnet) (k : list Node → P A) (failed : error → A) : P A :=
  do! r := onStore (readM (ListNodes (devnet_namespace devnet) (m_Name (d_Metadata devnet)))) in
  match r with
  | Err e => done_with (failed (Wrap "failed to list nodes" e))
  | Ok nodes => k nodes
  end.

Definition Start (devnet : Devnet) : P (option error) :=
  list_nodes devnet (set_desired NodePhaseRunning) Some.
Definition Stop (devnet : Devnet) : P (option error) :=
  list_nodes devnet (set_desired NodePhaseStopped) Some.

(** The loop of [GetStatus]: ready nodes and the greatest height. *)
Definition aggregate (nodes : list Node) : Z * Z :=
  foldl (λ '(ready, height) node,
    ((if bool_decide (nst_Phase (n_Status node) = NodePhaseRunning) then ready + 1 else ready)%Z,
     if bool_decide (height < nst_BlockHeight (n_Status node))%Z
     then nst_BlockHeight (n_Status node) else height)) (0%Z, 0%Z) nodes.

Definition status_phase (ready total : Z) : string * string :=
  if bool_decide (ready = 0)%Z && bool_decide (0 < total)%Z
  then (PhaseDegraded, "All nodes are down")
  else if bool_decide (ready < total)%Z
  then (PhaseDegraded, itoa ready +:+ "/" +:+ itoa total +:+ " nodes ready")
  else if bool_decide (ready = total)%Z && bool_decide (0 < total)%Z
  then (PhaseRunning, "All nodes healthy")
  else (PhasePending, "No nodes").

Definition GetStatus_ (devnet : Devnet) : P (result DevnetStatus) :=
  list_nodes devnet (λ nodes,
    do! t := onStore now in
    let '(ready, height) := aggregate nodes in
    let total := Z.of_nat (length nodes) in
    let '(phase, message) := status_phase ready total in
    done_with (Ok (mkDevnetStatus phase 0 total ready height "" [] t [] [] message))) Err.

(** The interface the controller calls, on the allocator and the calls as they
    are when it does. *)
Definition DevnetProvisioner (a : option (Allocator F)) (calls : list ProvCall)
    : Provisioner S := {|
  Provision cb := λ d, let '(e, st) := Provision_ cb (mkPState d a calls) in (e, ps_d st);
  GetStatus := λ d, let '(r, st) := GetStatus_ (ds_devnet d) (mkPState d a calls) in (r, ps_d st);
  takes_callback := true |}.
End provisioner.

(** ** The provisioner keeps what the controller relies on *)

Section laws.
Context {S F : Type} `{StoreChanges S} `{Codec F persistedState} `{MapRange}.
Variable dataDir : string.
Variable fs : Files.
Variable factory : option OrchestratorFactory.
Implicit Types (st : DState S) (ps : PState (S:=S) (F:=F)).

(** [m] keeps [I] of the controller's state. *)
Definition keepsI {A} (I : DState S → Prop) (m : M (PState (S:=S) (F:=F)) A) : Prop :=
  ∀ ps, I (ps_d ps) → I (ps_d (m ps).2).

Lemma keepsI_done {A} I (a : A) : keepsI I (done_with a).
Proof. by intros ps. Qed.

Lemma keepsI_bind {A B} I m (k : A → M PState B) :
  keepsI I m → (∀ a, keepsI I (k a)) → keepsI I (bindM m k).
Proof. intros Hm Hk ps Hps. rewrite bindM_eq. by apply Hk, Hm. Qed.

Lemma keepsI_ask {A} I (answer : list ProvCall → A) log : keepsI I (ask answer log).
Proof. by intros ps. Qed.

Lemma keepsI_onD {A} (I : DState S → Prop) (m : M (DState S) A) :
  (∀ st, I st → I (m st).2) → keepsI I (onD m).
Proof.
  intros Hm ps Hps. unfold onD. specialize (Hm _ Hps). by destruct (m (ps_d ps)).
Qed.

Lemma keepsI_read {A} I (f : PState → A) : keepsI I (getM f).
Proof. by intros ps. Qed.

Lemma keepsI_eachM {A} I (l : list A) body :
  (∀ x, keepsI I (body x)) → keepsI I (eachM l body).
Proof.
  intros Hb. induction l as [|x l IH]; simpl; [apply keepsI_done|].
  apply keepsI_bind; [apply Hb|intros _; exact IH].
Qed.

Lemma keepsI_forM {R} I n i (body : Z → M PState (option R)) :
  (∀ j, keepsI I (body j)) → keepsI I (forM n i body).
Proof.
  intros Hb. revert i. induction n as [|n IH]; intros i; simpl; [apply keepsI_done|].
  apply keepsI_bind; [apply Hb|intros [r|]; [apply keepsI_done|apply IH]].
Qed.

Ltac keepsI_go :=
  repeat first
    [ apply keepsI_done | apply keepsI_ask | apply keepsI_read
    | apply keepsI_bind; [|intros ?] | apply keepsI_eachM; intros ? | apply keepsI_forM; intros ?
    | case_match ].

Definition set_subnet (subnet : Z) (d : Devnet) : Devnet := d <| d_Status; dst_Subnet := subnet |>.

(** Before the node resources only the subnet is written, and progress
    reported. *)
Lemma prepare_keeps I cb :
  (∀ subnet st, I st → I (modify (set_subnet subnet) st).2) →
  (∀ f phase message st, cb = Some f → I st → I (f phase message st).2) →
  keepsI I (prepare dataDir fs factory cb).
Proof.
  intros Hsub Hcb. unfold prepare, EraseDevnetDir, the_devnet. keepsI_go.
  - intros ps Hps. unfold allocate_subnet. destruct (ps_alloc ps) as [al|]; [|done].
    simpl. destruct (Allocate _ _ _ al) as [[subnet|e] al']; [|done].
    apply (Hsub subnet (ps_d ps) Hps).
  - unfold provisionWithOrchestrator. keepsI_go. apply keepsI_onD. intros st. by apply Hcb.
Qed.

(** A write that a store call makes to the nodes only is a step the controller
    allows. *)
Lemma env_onW {A} (m : M (World S DevnetCall) A) :
  (∀ w, w_trace (m w).2 = w_trace w ∧ w_enqueued (m w).2 = w_enqueued w ∧
    (store_wf (w_store w) → store_wf (w_store (m w).2) ∧
       v_devnets (store_view (w_store (m w).2)) = v_devnets (store_view (w_store w)) ∧
       v_upgrades (store_view (w_store (m w).2)) = v_upgrades (store_view (w_store w)) ∧
       v_txs (store_view (w_store (m w).2)) = v_txs (store_view (w_store w)))) →
  ∀ st, env_step st (onW m st).2.
Proof.
  intros Hm st. unfold onW. destruct (Hm (ds_world st)) as (Ht & Hq & Hs).
  destruct (m (ds_world st)) as [a w]. by split_and!.
Qed.

Lemma env_now st : env_step st (onW now st).2.
Proof. by apply env_onW. Qed.

Lemma env_create node st : env_step st (onW (saveM CreateNode node) st).2.
Proof.
  apply env_onW. intros w. rewrite saveM_eq. simpl. split; [done|]. split; [done|].
  intros Hs. pose proof (CreateNode_spec (w_clock w (w_ticks w)) node (w_store w) Hs) as Hc.
  destruct (CreateNode _ node (w_store w)) as [[e n'] s']. destruct Hc as (Hs' & _ & Hc).
  simpl. split; [done|]. destruct e; [destruct Hc as [-> _]|destruct Hc as [_ ->]]; done.
Qed.

Lemma createNodeResources_keeps I devnet path subnet :
  (∀ st st', env_step st st' → I st → I st') →
  keepsI I (createNodeResources dataDir devnet path subnet).
Proof.
  intros HI. assert (Hnow : keepsI I (onStore now)).
  { apply keepsI_onD. intros st. apply HI, env_now. }
  unfold createNodeResources, create_node, createNodeIfNotExists.
  keepsI_go; try exact Hnow; apply keepsI_onD; intros st; apply HI;
    first [apply env_create|by apply env_onW].
Qed.

(** The devnet provisioner satisfies the laws the devnet controller's theorems
    ask of a provisioner, whatever the file system, the allocator and the
    orchestrators answer: [Provision] and [GetStatus] change nothing of the
    store but nodes, and of the devnet only its status, not its phase. *)
Lemma DevnetProvisioner_laws a calls :
  ProvisionerLaws (DevnetProvisioner (F := F) dataDir fs factory a calls).
Proof.
  split.
  - intros cb I He Hcb st Hst. simpl.
    assert (Hk : keepsI I (Provision_ dataDir fs factory cb)).
    { unfold Provision_, the_devnet. apply keepsI_bind.
      - apply prepare_keeps; [|exact Hcb]. intros subnet st0. apply He. by split_and!.
      - intros [[path subnet]|e]; [|apply keepsI_done].
        apply keepsI_bind; [apply keepsI_read|intros d]. by apply createNodeResources_keeps. }
    specialize (Hk (mkPState st a calls) Hst). by destruct (Provision_ _ _ _ _ _).
  - intros st. simpl. unfold GetStatus_, list_nodes, onStore, onD. rewrite bindM_eq. simpl.
    assert (Henv : env_step st st) by (by split_and!).
    destruct (ListNodes _ _ _) as [nodes|e]; [|exact Henv]. rewrite bindM_eq. simpl.
    destruct (aggregate nodes) as [ready height]. destruct (status_phase _ _). apply env_now.
Qed.
End laws.

(** ** The nodes of a devnet *)

Section nodes.
Context {S F : Type} `{StoreChanges S} `{Codec F persistedState} `{MapRange}.
Variable dataDir : string.
Implicit Types (devnet : Devnet) (n : Node) (v : view) (ps : PState (S:=S) (F:=F)).

Definition pview ps : view := dview (ps_d ps).

Definition role_of devnet (i : Z) : string :=
  if bool_decide (i < ds_Validators (d_Spec devnet))%Z then "validator" else "fullnode".

(** [n] is the node [createNodeSpec] makes for place [i], as stored. *)
Definition node_of devnet path subnet (i : Z) n : Prop := ∃ created updated,
  same_node (createNodeSpec created updated devnet i (role_of devnet i)
               (Join [dataDir; m_Name (d_Metadata devnet)]) path subnet) n.

Definition key_of devnet (i : Z) : string :=
  node_key (m_Namespace (d_Metadata devnet)) (m_Name (d_Metadata devnet)) i.

(** From [v] to [v'] the missing nodes of the places from [lo] to [hi] were
    made, and nothing else. *)
Definition made devnet path subnet (lo hi : Z) v v' : Prop :=
  (∀ k n, v_nodes v !! k = Some n → v_nodes v' !! k = Some n) ∧
  (∀ i, (lo ≤ i < hi)%Z → is_Some (v_nodes v' !! key_of devnet i)) ∧
  (∀ k n, v_nodes v' !! k = Some n → v_nodes v !! k = Some n ∨
     ∃ i, (lo ≤ i < hi)%Z ∧ k = key_of devnet i ∧ node_of devnet path subnet i n).

Lemma made_refl devnet path subnet i v : made devnet path subnet i i v v.
Proof. split_and!; [done|lia|auto]. Qed.

Lemma made_trans devnet path subnet lo i hi v v1 v2 :
  (lo ≤ i ≤ hi)%Z → made devnet path subnet lo i v v1 → made devnet path subnet i hi v1 v2 →
  made devnet path subnet lo hi v v2.
Proof.
  intros Hi (Ha1 & Hb1 & Hc1) (Ha2 & Hb2 & Hc2). split_and!.
  - auto.
  - intros j Hj. destruct (decide (j < i)%Z); [|apply Hb2; lia].
    destruct (Hb1 j) as [n Hn]; [lia|]. eauto.
  - intros k n Hk. destruct (Hc2 k n Hk) as [Hk1|(j & Hj & Hr)].
    + destruct (Hc1 k n Hk1) as [?|(j & Hj & Hr)]; [by left|right; exists j; split; [lia|done]].
    + right. exists j. split; [lia|done].
Qed.

(** What the making of nodes leaves alone. *)
Definition aside ps ps' : Prop :=
  store_wf (w_store (ds_world (ps_d ps'))) ∧ ds_devnet (ps_d ps') = ds_devnet (ps_d ps) ∧
  w_trace (ds_world (ps_d ps')) = w_trace (ds_world (ps_d ps)) ∧
  ps_alloc ps' = ps_alloc ps ∧ ps_calls ps' = ps_calls ps.

Lemma aside_trans ps1 ps2 ps3 : aside ps1 ps2 → aside ps2 ps3 → aside ps1 ps3.
Proof. unfold aside. intros (_ & -> & -> & -> & ->) Hr. exact Hr. Qed.

Lemma createNodeSpec_id created updated devnet i role path subnet dir :
  node_id (createNodeSpec created updated devnet i role dir path subnet) = key_of devnet i.
Proof.
  unfold node_id, key_of. simpl.
  exact (node_key_default (m_Namespace (d_Metadata devnet)) (m_Name (d_Metadata devnet)) i).
Qed.

Definition world_of ps : World S DevnetCall := ds_world (ps_d ps).
Definition with_world (w : World S DevnetCall) ps : PState :=
  mkPState (ps_d ps <| ds_world := w |>) (ps_alloc ps) (ps_calls ps).

Lemma onStore_eq {A} (m : M (World S DevnetCall) A) ps :
  onStore m ps = ((m (world_of ps)).1, with_world (m (world_of ps)).2 ps).
Proof. unfold onStore, onD, onW, world_of. by destruct (m _). Qed.

(** Creating the node of place [i] unless it is there. *)
Lemma createNodeIfNotExists_step devnet path subnet created updated i ps :
  store_wf (w_store (world_of ps)) →
  let node := createNodeSpec created updated devnet i (role_of devnet i)
                (Join [dataDir; m_Name (d_Metadata devnet)]) path subnet in
  let '(e, ps') := createNodeIfNotExists node ps in
  aside ps ps' ∧ (e = None → made devnet path subnet i (i + 1) (pview ps) (pview ps')) ∧
  (StoreCreates S → e = None).
Proof.
  intros Hs node. unfold createNodeIfNotExists. rewrite bindM_eq, onStore_eq. cbn [fst snd readM getM].
  pose proof (GetNode_spec (m_Namespace (n_Metadata node)) (ns_DevnetRef (n_Spec node))
    (ns_Index (n_Spec node)) (w_store (world_of ps)) Hs) as Hg. unfold get_spec in Hg.
  change (node_key _ _ _) with (node_id node) in Hg. unfold node in Hg at 1.
  rewrite createNodeSpec_id in Hg.
  destruct (v_nodes _ !! key_of devnet i) as [n|] eqn:Hk.
  - rewrite Hg. split; [by split_and!|]. split; [|done]. intros _. split_and!; [done| |auto].
    intros j Hj. assert (j = i) as -> by lia. eexists. exact Hk.
  - destruct Hg as (e & -> & _). rewrite onStore_eq, saveM_eq. cbn [fst snd].
    set (t := w_clock _ _).
    change (w_store (world_of (with_world (world_of ps) ps))) with (w_store (world_of ps)).
    pose proof (CreateNode_spec t node (w_store (world_of ps)) Hs) as Hc. cbv beta in Hc.
    assert (Hlive : StoreCreates S → (CreateNode t node (w_store (world_of ps))).1.1 = None).
    { intros Hl. apply CreateNode_live; [done|]. unfold node. by rewrite createNodeSpec_id. }
    destruct (CreateNode t node (w_store (world_of ps))) as [[e' n] s']. cbn [fst snd] in *.
    destruct Hc as (Hs' & Hsame & Hc). split; [by split_and!|]. split; [|exact Hlive].
    intros ->. destruct Hc as [_ Hv]. unfold node in Hv at 1. rewrite createNodeSpec_id in Hv.
    unfold made, pview, dview. cbn [ps_d ds_world with_world w_store]. simpl. rewrite Hv. simpl.
    split_and!.
    + intros k n0 Hn0. rewrite lookup_insert_ne; [done|]. intros <-. unfold world_of in Hk. congruence.
    + intros j Hj. assert (j = i) as -> by lia. rewrite lookup_insert_eq. by eexists.
    + intros k n0 Hn0. apply lookup_insert_Some in Hn0 as [[<- <-]|[_ Hn0]]; [|by left].
      right. exists i. split; [lia|]. split; [done|]. by exists created, updated.
Qed.

Lemma create_node_step devnet path subnet message i ps :
  store_wf (w_store (world_of ps)) →
  let '(e, ps') := create_node dataDir devnet (role_of devnet i) path subnet message i ps in
  aside ps ps' ∧ (e = None → made devnet path subnet i (i + 1) (pview ps) (pview ps')) ∧
  (StoreCreates S → e = None).
Proof.
  intros Hs. unfold create_node. rewrite bindM_eq, onStore_eq, bindM_eq, onStore_eq, bindM_eq.
  cbn [fst snd].
  match goal with |- context [createNodeIfNotExists ?n ?p] =>
    pose proof (createNodeIfNotExists_step devnet path subnet
      (m_CreatedAt (n_Metadata n)) (m_UpdatedAt (n_Metadata n)) i p Hs) as Hc; cbv zeta in Hc;
    cbn [createNodeSpec n_Metadata m_CreatedAt m_UpdatedAt] in Hc;
    destruct (createNodeIfNotExists n p) as [e ps'] end.
  destruct Hc as (Ha & Hm & Hl). cbn [fst snd done_with]. split; [exact Ha|].
  split; [by destruct e; intros; auto|]. intros Hc. by rewrite Hl.
Qed.

(** The loop over the places from [lo], all of one role. *)
Lemma create_nodes_loop devnet path subnet message role cnt lo ps :
  store_wf (w_store (world_of ps)) →
  (∀ i, (lo ≤ i < lo + Z.of_nat cnt)%Z → role_of devnet i = role) →
  let '(e, ps') := forM cnt lo (create_node dataDir devnet role path subnet message) ps in
  aside ps ps' ∧
  (e = None → made devnet path subnet lo (lo + Z.of_nat cnt) (pview ps) (pview ps')) ∧
  (StoreCreates S → e = None).
Proof.
  intros Hs Hrole.
  pose proof (forM_inv (λ i ps', aside ps ps' ∧ (lo ≤ i)%Z ∧
      made devnet path subnet lo i (pview ps) (pview ps'))
    (λ _ ps', aside ps ps' ∧ (StoreCreates S → False)) cnt lo
    (create_node dataDir devnet role path subnet message) ps) as Hf.
  destruct (forM _ _ _ _) as [e ps'].
  assert (Hstart : aside ps ps ∧ (lo ≤ lo)%Z ∧ made devnet path subnet lo lo (pview ps) (pview ps)).
  { split; [by split_and!|]. split; [lia|apply made_refl]. }
  assert (Hstep : ∀ j ps1, (lo ≤ j < lo + Z.of_nat cnt)%Z →
    aside ps ps1 ∧ (lo ≤ j)%Z ∧ made devnet path subnet lo j (pview ps) (pview ps1) →
    match create_node dataDir devnet role path subnet message j ps1 with
    | (Some _, ps2) => aside ps ps2 ∧ (StoreCreates S → False)
    | (None, ps2) => aside ps ps2 ∧ (lo ≤ j + 1)%Z ∧
        made devnet path subnet lo (j + 1) (pview ps) (pview ps2)
    end).
  { intros j ps1 Hj (Ha & Hlo & Hm). rewrite <- (Hrole j Hj).
    pose proof (create_node_step devnet path subnet message j ps1 (proj1 Ha)) as Hc.
    destruct (create_node _ _ _ _ _ _ _ ps1) as [[e1|] ps2]; destruct Hc as (Ha2 & Hm2 & Hl).
    - split; [by eapply aside_trans|]. intros Hc. by specialize (Hl Hc).
    - split; [by eapply aside_trans|]. split; [lia|]. eapply made_trans; [|exact Hm|by apply Hm2]. lia. }
  specialize (Hf Hstep Hstart).
  destruct e as [e|]; destruct Hf as [Ha Hf]; (split; [exact Ha|]).
  - split; [done|]. intros Hc. destruct (Hf Hc).
  - split; [|done]. intros _. apply Hf.
Qed.

(** The counts of nodes make sense. *)
Definition counts_ok devnet : Prop :=
  (0 ≤ ds_Validators (d_Spec devnet))%Z ∧ (0 ≤ ds_FullNodes (d_Spec devnet))%Z ∧
  int64_range (ds_Validators (d_Spec devnet) + ds_FullNodes (d_Spec devnet)).

Definition total_nodes devnet : Z :=
  (ds_Validators (d_Spec devnet) + ds_FullNodes (d_Spec devnet))%Z.

(** A place that was free holds the node made for it. *)
Lemma made_new devnet path subnet v v' i :
  counts_ok devnet → made devnet path subnet 0 (total_nodes devnet) v v' →
  (0 ≤ i < total_nodes devnet)%Z → v_nodes v !! key_of devnet i = None →
  ∃ n, v_nodes v' !! key_of devnet i = Some n ∧ node_of devnet path subnet i n.
Proof.
  intros (? & ? & Ht) (_ & Hall & Hnew) Hi Hfree. destruct (Hall i Hi) as [n Hn]. exists n.
  split; [done|]. destruct (Hnew _ n Hn) as [Hold|(j & Hj & Ej & Hof)]; [by rewrite Hfree in Hold|].
  assert (j = i) as ->; [|done]. unfold key_of, node_key in Ej. apply append_inj, append_inj in Ej.
  apply (f_equal atoi) in Ej. unfold total_nodes, int64_range in *.
  rewrite !atoi_itoa in Ej by (unfold int64_range; lia). congruence.
Qed.

Lemma createNodeResources_step devnet path subnet ps :
  store_wf (w_store (world_of ps)) → counts_ok devnet →
  let '(e, ps') := createNodeResources dataDir devnet path subnet ps in
  aside ps ps' ∧
  (e = None → made devnet path subnet 0 (total_nodes devnet) (pview ps) (pview ps')) ∧
  (StoreCreates S → e = None).
Proof.
  intros Hs (Hv & Hf & Ht). unfold createNodeResources. rewrite wrap64_id by done. rewrite bindM_eq.
  pose proof (create_nodes_loop devnet path subnet "validator node" "validator"
    (Z.to_nat (ds_Validators (d_Spec devnet))) 0 ps Hs) as HL1.
  rewrite Z2Nat.id, Z.add_0_l in HL1 by done.
  destruct (forM _ 0 _ ps) as [e1 ps1].
  destruct HL1 as (Ha1 & Hm1 & Hl1).
  { intros i Hi. unfold role_of. by rewrite bool_decide_true by lia. }
  cbn [fst snd]. destruct e1 as [e1|]; [split; [done|]; split; [done|exact Hl1]|].
  pose proof (create_nodes_loop devnet path subnet "fullnode" "fullnode"
    (Z.to_nat (ds_Validators (d_Spec devnet) + ds_FullNodes (d_Spec devnet) -
       ds_Validators (d_Spec devnet))) (ds_Validators (d_Spec devnet)) ps1 (proj1 Ha1)) as HL2.
  rewrite Z2Nat.id in HL2 by lia.
  destruct (forM _ (ds_Validators _) _ ps1) as [e2 ps2].
  destruct HL2 as (Ha2 & Hm2 & Hl2).
  { intros i Hi. unfold role_of. by rewrite bool_decide_false by lia. }
  split; [by eapply aside_trans|]. split; [|done]. intros He.
  eapply made_trans; [|by apply Hm1|]; [unfold total_nodes; lia|].
  unfold total_nodes. replace (ds_Validators (d_Spec devnet) + ds_FullNodes (d_Spec devnet))%Z with
    (ds_Validators (d_Spec devnet) + (ds_Validators (d_Spec devnet) +
       ds_FullNodes (d_Spec devnet) - ds_Validators (d_Spec devnet)))%Z by lia.
  by apply Hm2.
Qed.
End nodes.

(** ** A devnet that is reconciled comes up *)

Section composed.
Context {S F : Type} `{StoreChanges S} `{Codec F persistedState} `{MapRange}.
Variable dataDir : string.
Variable fs : Files.
Variable factory : option OrchestratorFactory.
Implicit Types (st : DState S) (ps : PState (S:=S) (F:=F)).

(** What the controller's own steps leave alone: the nodes, the trace, and of
    the devnet its name, namespace and spec. *)
Definition calm st st' : Prop :=
  (store_wf (w_store (ds_world st)) →
     store_wf (w_store (ds_world st')) ∧ v_nodes (dview st') = v_nodes (dview st)) ∧
  m_Name (d_Metadata (ds_devnet st')) = m_Name (d_Metadata (ds_devnet st)) ∧
  or_default (m_Namespace (d_Metadata (ds_devnet st'))) =
    or_default (m_Namespace (d_Metadata (ds_devnet st))) ∧
  d_Spec (ds_devnet st') = d_Spec (ds_devnet st) ∧
  w_trace (ds_world st') = w_trace (ds_world st).

#[local] Instance calm_pre : PreOrder calm.
Proof.
  split; [by intros st; split_and!|].
  intros s1 s2 s3 (Hs12 & Hn1 & Hns1 & Hsp1 & Ht1) (Hs23 & Hn2 & Hns2 & Hsp2 & Ht2).
  split_and!; [|congruence..]. intros Hs. destruct (Hs12 Hs) as [Hs2 E].
  destruct (Hs23 Hs2) as [Hs3 E']. split; [done|congruence].
Qed.

Definition calmM {A} (m : M (DState S) A) : Prop := ∀ st, calm st (m st).2.

Lemma calm_done {A} (a : A) : calmM (done_with a).
Proof. by intros st; split_and!. Qed.

Lemma calm_bind {A B} (m : M (DState S) A) (k : A → M (DState S) B) :
  calmM m → (∀ a, calmM (k a)) → calmM (bindM m k).
Proof. intros Hm Hk st. rewrite bindM_eq. etrans; [apply Hm|apply Hk]. Qed.

Lemma calm_onW {A} (m : M (World S DevnetCall) A) :
  (∀ w, w_store (m w).2 = w_store w ∧ w_trace (m w).2 = w_trace w) → calmM (onW m).
Proof.
  intros Hm st. unfold onW. destruct (Hm (ds_world st)) as [E1 E2].
  destruct (m (ds_world st)) as [a w]. simpl in *. unfold calm, dview. simpl. by rewrite E1.
Qed.

Lemma calm_modify f :
  (∀ d, m_Name (d_Metadata (f d)) = m_Name (d_Metadata d) ∧
        m_Namespace (d_Metadata (f d)) = m_Namespace (d_Metadata d) ∧ d_Spec (f d) = d_Spec d) →
  calmM (modify f).
Proof.
  intros Hf st. unfold modify, modifyM, calm, dview. simpl.
  destruct (Hf (ds_devnet st)) as (-> & -> & ->). by split_and!.
Qed.

Lemma calm_read {A} (f : DState S → A) : calmM (λ st, (f st, st)).
Proof. by intros st; split_and!. Qed.

Lemma calm_save : calmM save.
Proof.
  intros st. unfold save. rewrite updateM_eq.
  set (t := w_clock _ _). pose proof (UpdateDevnet_same t (ds_devnet st) (w_store (ds_world st)))
    as Hsame.
  destruct (UpdateDevnet t _ _) as [[e d'] s'] eqn:U. simpl in *.
  destruct Hsame as ((Hn & Hns & _) & Hsp & _). unfold calm, dview. simpl.
  rewrite Hn, Hns, or_default_idem, Hsp. split_and!; try done. intros Hs.
  by destruct (UpdateDevnet_frame _ _ _ _ _ _ Hs U) as (Hs' & (-> & _) & _).
Qed.

Lemma calm_timeNow : calmM timeNow.
Proof. by apply calm_onW. Qed.

Ltac calm_go :=
  repeat first
    [ apply calm_done | apply calm_timeNow | apply calm_save | apply calm_read
    | apply calm_bind; [|intros ?] | apply calm_modify; by intros [] ].

Lemma calm_set_condition ty s r m : calmM (set_condition ty s r m).
Proof. unfold set_condition. calm_go. Qed.
Lemma calm_add_event t r m : calmM (add_event t r m).
Proof. unfold add_event. calm_go. Qed.
Lemma calm_set_phase p m : calmM (set_phase p m).
Proof. unfold set_phase. calm_go. Qed.
Lemma calm_touch : calmM touch.
Proof. unfold touch. calm_go. Qed.
Lemma calm_broadcast m ph : calmM (broadcast m ph).
Proof. unfold broadcast. calm_go. Qed.

(** The first step of a sequence. *)
Ltac calm_step tac := apply calm_bind; [tac|intros ?].

Lemma calm_progress phase message : calmM (handleProvisioningProgress phase message).
Proof.
  unfold handleProvisioningProgress. destruct (progress_event phase) as [[r m]|];
    [|apply calm_done].
  calm_step ltac:(apply calm_add_event). calm_step ltac:(apply calm_modify; by intros []).
  calm_step ltac:(apply calm_broadcast). calm_step ltac:(apply calm_save). apply calm_done.
Qed.

Lemma calm_mark_running : calmM mark_running.
Proof.
  unfold mark_running. do 2 calm_step ltac:(apply calm_modify; by intros []).
  calm_step ltac:(apply calm_set_condition). calm_step ltac:(apply calm_read).
  do 2 calm_step ltac:(apply calm_set_condition). calm_step ltac:(apply calm_add_event).
  calm_step ltac:(apply calm_set_phase). calm_step ltac:(apply calm_timeNow).
  calm_step ltac:(apply calm_modify; by intros []). apply calm_touch.
Qed.

Lemma calm_enqueue_nodes b : calmM (enqueue_nodes b).
Proof.
  unfold enqueue_nodes. destruct b; [|apply calm_done]. intros st. apply calm_onW.
  intros w. rewrite bindM_eq. simpl. destruct (ListNodes _ _ _) as [l|]; [|done].
  set (f := λ node, ("nodes", NodeKeyWithNamespace
    (or_default (m_Namespace (d_Metadata (ds_devnet st)))) (ns_DevnetRef (n_Spec node))
    (ns_Index (n_Spec node)))).
  by destruct (eachM_store l f w) as (? & ? & _).
Qed.

(** [Provision] makes the missing nodes, of the devnet as it stands by then. *)
Lemma Provision_makes cb ps :
  (∀ f phase message, cb = Some f → calmM (f phase message)) →
  store_wf (w_store (ds_world (ps_d ps))) → counts_ok (ds_devnet (ps_d ps)) →
  let '(e, ps') := Provision_ dataDir fs factory cb ps in
  store_wf (w_store (ds_world (ps_d ps'))) ∧
  w_trace (ds_world (ps_d ps')) = w_trace (ds_world (ps_d ps)) ∧
  m_Name (d_Metadata (ds_devnet (ps_d ps'))) = m_Name (d_Metadata (ds_devnet (ps_d ps))) ∧
  or_default (m_Namespace (d_Metadata (ds_devnet (ps_d ps')))) =
    or_default (m_Namespace (d_Metadata (ds_devnet (ps_d ps)))) ∧
  d_Spec (ds_devnet (ps_d ps')) = d_Spec (ds_devnet (ps_d ps)) ∧
  (∀ err, (prepare dataDir fs factory cb ps).1 = Err err →
     e = Some err ∧ v_nodes (pview ps') = v_nodes (pview ps)) ∧
  (e = None → ∃ path subnet, (prepare dataDir fs factory cb ps).1 = Ok (path, subnet) ∧
     made dataDir (ds_devnet (ps_d ps')) path subnet 0
       (total_nodes (ds_devnet (ps_d ps'))) (pview ps) (pview ps')) ∧
  (StoreCreates S → is_Some (ok_of (prepare dataDir fs factory cb ps).1) → e = None).
Proof.
  intros Hcb Hs Hc. unfold Provision_. rewrite bindM_eq.
  assert (Hp : calm (ps_d ps) (ps_d (prepare dataDir fs factory cb ps).2)).
  { apply (prepare_keeps dataDir fs factory (calm (ps_d ps)) cb); [| |done].
    - intros subnet st Hst. etrans; [exact Hst|]. by apply calm_modify.
    - intros f phase message st Hf Hst. etrans; [exact Hst|]. by eapply Hcb. }
  destruct (prepare dataDir fs factory cb ps) as [r ps1]. cbn [fst snd] in *.
  destruct Hp as (Hp & Hn & Hns & Hsp & Ht). destruct (Hp Hs) as [Hs1 Hv1].
  destruct r as [[path subnet]|e].
  - unfold the_devnet, getM. rewrite bindM_eq. cbn [fst snd].
    set (d := ds_devnet (ps_d ps1)).
    assert (Hcd : counts_ok d) by (unfold counts_ok, d; by rewrite Hsp).
    pose proof (createNodeResources_step dataDir d path subnet ps1 Hs1 Hcd) as Hm.
    destruct (createNodeResources _ _ _ _ ps1) as [e ps2].
    destruct Hm as ((Hs2 & Hd2 & Ht2 & _) & Hm & Hl). rewrite Hd2. fold d.
    split_and!; [done|congruence|done|done|done|done| |by intros ? _; apply Hl].
    intros He. exists path, subnet. split; [done|]. specialize (Hm He). unfold made, pview in *.
    by rewrite Hv1 in Hm.
  - split_and!; try done; [|by intros _ [? ?]].
    by intros err [= ->].
Qed.

(** The keys that [enqueue_nodes] adds. *)
Lemma enqueue_nodes_all st n :
  store_wf (w_store (ds_world st)) →
  v_nodes (dview st) !! node_id n = Some n →
  node_belongs (m_Namespace (d_Metadata (ds_devnet st))) (m_Name (d_Metadata (ds_devnet st))) n →
  ("nodes", NodeKeyWithNamespace (or_default (m_Namespace (d_Metadata (ds_devnet st))))
     (ns_DevnetRef (n_Spec n)) (ns_Index (n_Spec n)))
    ∈ w_enqueued (ds_world (enqueue_nodes true st).2).
Proof.
  intros Hs Hn [Hb1 Hb2]. unfold enqueue_nodes, onW. rewrite bindM_eq. cbn [fst snd readM getM].
  destruct (ListNodes_total (or_default (m_Namespace (d_Metadata (ds_devnet st))))
    (m_Name (d_Metadata (ds_devnet st))) (w_store (ds_world st)) Hs) as [nodes Hl].
  rewrite Hl. destruct (ListNodes_spec _ _ _ _ Hs Hl n) as [_ Hin].
  set (f := λ node : Node, ("nodes", NodeKeyWithNamespace
    (or_default (m_Namespace (d_Metadata (ds_devnet st)))) (ns_DevnetRef (n_Spec node))
    (ns_Index (n_Spec node)))).
  pose proof (eachM_enqueue nodes f (ds_world st)) as E. unfold f in E at 1 2. cbn [fst snd] in E.
  rewrite E. simpl. apply elem_of_app. right. apply (list_elem_of_fmap_2 f nodes n).
  apply Hin; [done| |done]. by rewrite or_default_idem.
Qed.

(** The same devnet for the making of nodes. *)
Definition same_target (d d' : Devnet) : Prop :=
  m_Name (d_Metadata d') = m_Name (d_Metadata d) ∧
  or_default (m_Namespace (d_Metadata d')) = or_default (m_Namespace (d_Metadata d)) ∧
  d_Spec d' = d_Spec d.

Lemma key_of_same d d' i : same_target d d' → key_of d' i = key_of d i.
Proof.
  intros (Hn & Hns & _). unfold key_of. rewrite Hn.
  rewrite <- node_key_default, Hns. apply node_key_default.
Qed.

Lemma node_of_same d d' path subnet i n :
  same_target d d' → node_of dataDir d' path subnet i n → node_of dataDir d path subnet i n.
Proof.
  intros (Hn & Hns & Hsp) (c & u & Hs). exists c, u.
  assert (E : ∀ role dir, createNodeSpec c u d' i role dir path subnet =
    createNodeSpec c u d i role dir path subnet).
  { intros role dir. unfold createNodeSpec. unfold or_default in Hns. by rewrite Hn, Hns, Hsp. }
  rewrite E in Hs. unfold role_of in *. by rewrite Hn, Hsp in Hs.
Qed.

Lemma made_same d d' path subnet v v' :
  same_target d d' → made dataDir d' path subnet 0 (total_nodes d') v v' →
  made dataDir d path subnet 0 (total_nodes d) v v'.
Proof.
  intros Ht (Ha & Hb & Hc). unfold total_nodes in *. destruct Ht as (Hn & Hns & Hsp).
  assert (Ht : same_target d d') by (by split_and!). rewrite Hsp in *. split_and!; [done| |].
  - intros i Hi. rewrite <- (key_of_same d d' i Ht). by apply Hb.
  - intros k n Hk. destruct (Hc k n Hk) as [?|(i & Hi & -> & Hnode)]; [by left|right].
    exists i. rewrite (key_of_same d d' i Ht). split; [done|]. split; [done|].
    by eapply node_of_same.
Qed.

(** [reconcileProvisioning] with this provisioner. *)
Lemma provisioning_makes a calls has_manager st :
  store_wf (w_store (ds_world st)) → counts_ok (ds_devnet st) →
  let out := reconcileProvisioning (Some (DevnetProvisioner dataDir fs factory a calls))
               has_manager st in
  store_wf (w_store (ds_world out.2)) ∧
  ∃ r, w_trace (ds_world out.2) = w_trace (ds_world st) ++ [CProvision r] ∧
    (r = None → ∃ path subnet, made dataDir (ds_devnet st) path subnet 0
       (total_nodes (ds_devnet st)) (dview st) (dview out.2) ∧
     (has_manager = true → ∀ n, v_nodes (dview out.2) !! node_id n = Some n →
        node_belongs (m_Namespace (d_Metadata (ds_devnet st)))
          (m_Name (d_Metadata (ds_devnet st))) n →
        ("nodes", NodeKeyWithNamespace (or_default (m_Namespace (d_Metadata (ds_devnet st))))
           (ns_DevnetRef (n_Spec n)) (ns_Index (n_Spec n))) ∈ w_enqueued (ds_world out.2))) ∧
    (StoreCreates S → (∀ cb, is_Some (ok_of (prepare dataDir fs factory cb
       (mkPState st a calls)).1)) → r = None).
Proof.
  intros Hs Hc. cbv zeta. unfold reconcileProvisioning. rewrite bindM_eq.
  unfold provision. cbn [takes_callback DevnetProvisioner Provision].
  pose proof (Provision_makes (Some handleProvisioningProgress) (mkPState st a calls)) as Hp.
  cbn [ps_d] in Hp. destruct (Provision_ _ _ _ _ _) as [r ps1].
  destruct Hp as (Hs1 & Ht1 & Hn1 & Hns1 & Hsp1 & _ & Hm1 & Hl1);
    [intros f ph m [= <-]; apply calm_progress|done|done|].
  assert (Htgt : same_target (ds_devnet st) (ds_devnet (ps_d ps1))) by (by split_and!).
  unfold onW, call_out. cbn [fst snd].
  set (st1 := ps_d ps1 <| ds_world := _ |>).
  assert (Hst1 : store_wf (w_store (ds_world st1)) ∧ dview st1 = dview (ps_d ps1) ∧
    ds_devnet st1 = ds_devnet (ps_d ps1) ∧
    w_trace (ds_world st1) = w_trace (ds_world st) ++ [CProvision r]).
  { unfold st1. simpl. by rewrite Ht1. }
  destruct Hst1 as (Hs1' & Hv1 & Hd1 & Ht1').
  destruct r as [err|].
  - assert (Hcalm : calm st1 (provisioning_failed err st1).2).
    { unfold provisioning_failed. apply calm_bind; [|intros _; apply calm_save].
      unfold mark_failed. destruct (classifyProvisioningError err).
      do 2 calm_step ltac:(apply calm_set_condition). calm_step ltac:(apply calm_add_event).
      calm_step ltac:(apply calm_set_phase). apply calm_touch. }
    destruct Hcalm as (Hw & _ & _ & _ & Ht). split; [by apply Hw|]. exists (Some err).
    rewrite Ht. split; [done|]. split; [done|]. intros Hcr Hprep. by apply Hl1.
  - unfold provisioning_done. rewrite !bindM_eq.
    set (st2 := (mark_running st1).2). set (st3 := (enqueue_nodes has_manager st2).2).
    destruct (calm_mark_running st1) as (Hw2 & Hn2 & Hns2 & Hsp2 & Ht2).
    destruct (Hw2 Hs1') as [Hs2 Hv2]. fold st2 in Hs2, Hv2, Hn2, Hns2, Ht2.
    destruct (calm_enqueue_nodes has_manager st2) as (Hw3 & _ & _ & _ & Ht3).
    destruct (Hw3 Hs2) as [Hs3 Hv3]. fold st3 in Hs3, Hv3, Ht3.
    destruct (calm_save st3) as (Hw4 & _ & _ & _ & Ht4). destruct (Hw4 Hs3) as [Hs4 Hv4].
    split; [done|]. exists None. rewrite Ht4, Ht3, Ht2. split; [done|]. split; [|done].
    intros _. destruct (Hm1 eq_refl) as (path & subnet & _ & Hm). exists path, subnet.
    assert (Hv : v_nodes (dview (save st3).2) = v_nodes (pview ps1))
      by (rewrite Hv4, Hv3, Hv2; unfold pview; by rewrite Hv1).
    split.
    + apply (made_same _ _ path subnet _ _ Htgt). unfold made in *. by rewrite Hv.
    + intros -> n Hn [Hb1 Hb2].
      assert (Hq : w_enqueued (ds_world (save st3).2) = w_enqueued (ds_world st3)).
      { unfold save. rewrite updateM_eq. simpl. by destruct (UpdateDevnet _ _ _) as [[??]?]. }
      rewrite Hq. rewrite Hd1 in *.
      assert (Hns : or_default (m_Namespace (d_Metadata (ds_devnet st2))) =
        or_default (m_Namespace (d_Metadata (ds_devnet st)))) by congruence.
      rewrite <- Hns. apply enqueue_nodes_all; [done| |].
      * rewrite Hv4, Hv3 in Hn. exact Hn.
      * split; [congruence|]. rewrite Hb2. congruence.
Qed.

(** Reconciling a devnet that is not provisioned makes its nodes. *)
Lemma Reconcile_makes a calls has_manager key ns name d w logs :
  store_wf (w_store w) → parseDevnetKey key = (ns, name) →
  v_devnets (store_view (w_store w)) !! qualified ns name = Some d →
  dphase d ∈ [""; PhasePending; PhaseProvisioning] → counts_ok d →
  let '(e, (w', _)) := Reconcile (Some (DevnetProvisioner dataDir fs factory a calls))
                         has_manager key (w, logs) in
  store_wf (w_store w') ∧ ∀ r, w_trace w' = w_trace w ++ [CProvision r] →
    (r = None → ∃ path subnet, made dataDir d path subnet 0 (total_nodes d)
       (store_view (w_store w)) (store_view (w_store w')) ∧
     (has_manager = true → ∀ n, v_nodes (store_view (w_store w')) !! node_id n = Some n →
        node_belongs (m_Namespace (d_Metadata d)) (m_Name (d_Metadata d)) n →
        ("nodes", NodeKeyWithNamespace (or_default (m_Namespace (d_Metadata d)))
           (ns_DevnetRef (n_Spec n)) (ns_Index (n_Spec n))) ∈ w_enqueued w')) ∧
    (StoreCreates S → (∀ cb st, d_Spec (ds_devnet st) = d_Spec d →
       is_Some (ok_of (prepare dataDir fs factory cb (mkPState st a calls)).1)) → r = None).
Proof.
  intros Hs Hk Hd Hp Hc. unfold Reconcile. rewrite Hk.
  pose proof (GetDevnet_spec ns name (w_store w) Hs) as Hg. unfold get_spec in Hg.
  rewrite Hd in Hg. rewrite Hg. change (dst_Phase (d_Status d)) with (dphase d).
  set (prov := DevnetProvisioner dataDir fs factory a calls).
  set (st0 := mkDState w d logs).
  assert (Hfrom : ∀ st, calm st0 st →
    let out := reconcileProvisioning (Some prov) has_manager st in
    store_wf (w_store (ds_world out.2)) ∧ ∀ r,
      w_trace (ds_world out.2) = w_trace w ++ [CProvision r] →
      (r = None → ∃ path subnet, made dataDir d path subnet 0 (total_nodes d)
         (store_view (w_store w)) (store_view (w_store (ds_world out.2))) ∧
       (has_manager = true → ∀ n, v_nodes (store_view (w_store (ds_world out.2))) !! node_id n = Some n →
          node_belongs (m_Namespace (d_Metadata d)) (m_Name (d_Metadata d)) n →
          ("nodes", NodeKeyWithNamespace (or_default (m_Namespace (d_Metadata d)))
             (ns_DevnetRef (n_Spec n)) (ns_Index (n_Spec n))) ∈ w_enqueued (ds_world out.2))) ∧
      (StoreCreates S → (∀ cb st, d_Spec (ds_devnet st) = d_Spec d →
         is_Some (ok_of (prepare dataDir fs factory cb (mkPState st a calls)).1)) → r = None)).
  { intros st (Hw & Hn & Hns & Hsp & Ht). destruct (Hw Hs) as [Hs1 Hv1].
    unfold st0 in *. cbn [ds_devnet ds_world] in Hn, Hns, Hsp, Ht.
    assert (Htgt : same_target d (ds_devnet st)) by (by split_and!).
    pose proof (provisioning_makes a calls has_manager st Hs1) as Hm. cbv zeta in Hm |- *.
    fold prov in Hm. destruct Hm as (Hs2 & r0 & Ht2 & Hm & Hl);
      [unfold counts_ok; by rewrite Hsp|]. split; [done|]. intros r Hr.
    rewrite Ht2, Ht in Hr. apply app_inv_head in Hr as [= ->]. split.
    - intros ->. destruct (Hm eq_refl) as (path & subnet & Hmade & Hq). exists path, subnet. split.
      + apply (made_same _ _ path subnet _ _ Htgt). unfold made, dview in *. rewrite Hv1 in Hmade.
        exact Hmade.
      + intros Hmgr n Hn' [Hb1 Hb2]. rewrite <- Hns. apply Hq; [done|done|].
        split; congruence.
    - intros Hcr Hprep. apply Hl; [done|]. intros cb. by apply Hprep. }
  unfold reconcile_phase. rewrite !elem_of_cons, elem_of_nil in Hp.
  destruct (bool_decide (dphase d = "") || bool_decide (dphase d = PhasePending)) eqn:Hb.
  - unfold reconcilePending. rewrite !bindM_eq. cbn [fst snd].
    match goal with |- context [save ?s] => assert (Hcalm : calm st0 s); [|set (st1 := s) in *] end.
    { etrans; [|apply calm_touch]. etrans; [|apply calm_set_phase].
      etrans; [|apply calm_add_event]. etrans; [|apply calm_set_condition].
      apply calm_set_condition. }
    pose proof (calm_save st1) as Hsv. destruct (save st1) as [e st2]. cbn [fst snd] in *.
    assert (Hcalm2 : calm st0 st2) by (by etrans).
    destruct e as [e|]; [|specialize (Hfrom st2 Hcalm2); cbv zeta in Hfrom;
      destruct (reconcileProvisioning _ _ _); exact Hfrom].
    cbn. destruct Hcalm2 as (Hw & _ & _ & _ & Ht). split; [by apply Hw|]. intros r Hr.
    rewrite Ht in Hr. simpl in Hr. by apply (f_equal length) in Hr; rewrite length_app in Hr;
      simpl in Hr; lia.
  - assert (Hph : dphase d = PhaseProvisioning).
    { apply orb_false_iff in Hb as [Hb1 Hb2]. apply bool_decide_eq_false in Hb1, Hb2. tauto. }
    rewrite Hph. specialize (Hfrom st0 ltac:(reflexivity)). cbv zeta in Hfrom.
    change (bool_decide (PhaseProvisioning = PhaseProvisioning)) with true. cbv iota.
    destruct (reconcileProvisioning _ _ _). exact Hfrom.
Qed.
End composed.

(** ** The status *)

Definition ready_count (nodes : list Node) : Z :=
  Z.of_nat (length (filter (λ n, phase n = NodePhaseRunning) nodes)).

Lemma aggregate_counts nodes :
  ∃ height, aggregate nodes = (ready_count nodes, height) ∧
    ∀ n, n ∈ nodes → (nst_BlockHeight (n_Status n) ≤ height)%Z.
Proof.
  unfold aggregate, ready_count.
  assert (Hg : ∀ l r h, ∃ height,
    foldl (λ '(ready, height) node,
      ((if bool_decide (nst_Phase (n_Status node) = NodePhaseRunning) then ready + 1 else ready)%Z,
       if bool_decide (height < nst_BlockHeight (n_Status node))%Z
       then nst_BlockHeight (n_Status node) else height)) (r, h) l =
    ((r + Z.of_nat (length (filter (λ n, phase n = NodePhaseRunning) l)))%Z, height) ∧
    (h ≤ height)%Z ∧ ∀ n, n ∈ l → (nst_BlockHeight (n_Status n) ≤ height)%Z).
  { induction l as [|x l IH]; intros r h.
    - exists h. simpl. split; [f_equal; lia|]. split; [lia|]. intros n Hn. by apply elem_of_nil in Hn.
    - simpl foldl. match goal with |- context [foldl _ (?r', ?h') l] =>
        destruct (IH r' h') as (height & -> & Hle & Hall) end.
      exists height. rewrite filter_cons. fold (phase x).
      split; [f_equal; destruct (decide (phase x = NodePhaseRunning)) as [E|E];
        [rewrite (bool_decide_true _ E)|rewrite (bool_decide_false _ E)]; simpl; lia|].
      assert (Hx : (nst_BlockHeight (n_Status x) ≤ height ∧ h ≤ height)%Z)
        by (revert Hle; case_bool_decide; lia).
      split; [lia|]. intros n [->|Hn]%elem_of_cons; [lia|by apply Hall]. }
  destruct (Hg nodes 0%Z 0%Z) as (height & E & _ & Hall). by exists height.
Qed.

Lemma ready_count_le nodes :
  (0 ≤ ready_count nodes ≤ Z.of_nat (length nodes))%Z ∧
  (ready_count nodes = Z.of_nat (length nodes) ↔
     ∀ n, n ∈ nodes → phase n = NodePhaseRunning).
Proof.
  unfold ready_count. induction nodes as [|x l IH]; simpl.
  - split; [lia|]. split; [|done]. intros _ n Hn. by apply elem_of_nil in Hn.
  - rewrite filter_cons. destruct (decide (phase x = NodePhaseRunning)) as [Hx|Hx]; simpl.
    + destruct IH as [Hle IH]. split; [lia|].
      rewrite Nat2Z.inj_succ, Nat2Z.inj_succ, Z.succ_inj_wd, IH. split.
      * intros Hall n [->|Hn]%elem_of_cons; auto.
      * intros Hall n Hn. apply Hall. by right.
    + destruct IH as [Hle _]. split; [lia|]. split; [intros; exfalso; lia|].
      intros Hall. destruct Hx. apply Hall. by left.
Qed.

(** The phase by the counts. *)
Lemma status_phase_counts ready total :
  (0 ≤ ready ≤ total)%Z →
  let p := (status_phase ready total).1 in
  (p = PhaseRunning ↔ 0 < total ∧ ready = total)%Z ∧
  (p = PhaseDegraded ↔ (ready < total)%Z) ∧ (p = PhasePending ↔ ¬ (0 < total)%Z).
Proof.
  intros H. cbv zeta. unfold status_phase. repeat case_bool_decide; cbn [fst andb];
    (split_and!; split; intros; first [discriminate|reflexivity|lia]).
Qed.

Lemma status_phase_cases nodes :
  let p := (status_phase (ready_count nodes) (Z.of_nat (length nodes))).1 in
  (p = PhaseRunning ↔ nodes ≠ [] ∧ ∀ n, n ∈ nodes → phase n = NodePhaseRunning) ∧
  (p = PhaseDegraded ↔ ∃ n, n ∈ nodes ∧ phase n ≠ NodePhaseRunning) ∧
  (p = PhasePending ↔ nodes = []).
Proof.
  destruct (ready_count_le nodes) as [Hle Hall].
  assert (Hne : nodes ≠ [] ↔ (0 < Z.of_nat (length nodes))%Z).
  { destruct nodes; simpl; split; try done; lia. }
  assert (Hex : (∃ n, n ∈ nodes ∧ phase n ≠ NodePhaseRunning) ↔
    (ready_count nodes < Z.of_nat (length nodes))%Z).
  { assert (Hd : (ready_count nodes < Z.of_nat (length nodes))%Z ↔
      ¬ (ready_count nodes = Z.of_nat (length nodes))) by lia.
    rewrite Hd, Hall. clear. induction nodes as [|x l IH].
    - split; [intros (n & Hn & _); by apply elem_of_nil in Hn|].
      intros Hn. destruct Hn. intros n Hn. by apply elem_of_nil in Hn.
    - setoid_rewrite elem_of_cons. destruct (decide (phase x = NodePhaseRunning)).
      + split; [intros (n & [->|Hn] & Hp) Hno; [done|by apply Hp, Hno; right]|].
        intros Hno. destruct IH as [_ IH]. destruct IH as (n & Hn & Hp); [|by exists n; auto].
        intros Hno'. apply Hno. intros n [->|Hn]; auto.
      + split; [intros _ Hno; auto|]. intros _. exists x. auto. }
  assert (Hnil : nodes = [] ↔ ¬ nodes ≠ []) by (destruct nodes; naive_solver).
  cbv zeta. rewrite Hex, <- Hall, Hne. destruct (status_phase_counts _ _ Hle) as (Hr & Hd & Hp).
  split_and!; [exact Hr|exact Hd|]. rewrite Hp, Hnil. by rewrite Hne.
Qed.

(** ** The options *)

Lemma mapGenesisSource_mode devnet defaults :
  let spec := d_Spec devnet in
  let plugin_url f := match defaults with Some p => f p | None => "" end in
  let mode := gs_Mode (mapGenesisSource devnet defaults) in
  (mode = GenesisModeLocal ↔ ds_GenesisPath spec ≠ "") ∧
  (mode = GenesisModeSnapshot ↔ ds_GenesisPath spec = "" ∧
     (ds_SnapshotURL spec ≠ "" ∨ plugin_url nd_SnapshotURL ≠ "")) ∧
  (mode = GenesisModeRPC ↔ ds_GenesisPath spec = "" ∧
     ds_SnapshotURL spec = "" ∧ plugin_url nd_SnapshotURL = "" ∧
     (ds_RPCURL spec ≠ "" ∨ plugin_url nd_RPCURL ≠ "")).
Proof.
  cbv zeta. unfold mapGenesisSource. destruct defaults as [p|];
    repeat case_bool_decide; simpl; naive_solver.
Qed.

Lemma binary_options_version source :
  (binary_options source).2 = "" →
  bs_Version source = "" ∨ bs_Type source ∉ ["local"; "cache"; "github"; "url"; ""].
Proof.
  unfold binary_options. repeat case_bool_decide; simpl; auto. right. set_solver.
Qed.

Lemma chain_id_ne (id name : string) : (if bool_decide (id = "") then name +:+ "-1" else id) ≠ "".
Proof. case_bool_decide; [by destruct name|done]. Qed.

(** ** Properties *)

Section properties.
Context {S F : Type} `{StoreSpec S} `{!StoreChanges S} `{Codec F persistedState} `{MapRange}.
Variable dataDir : string.
Variable fs : Files.
Variable factory : option OrchestratorFactory.

(** The devnet's metadata is that of its key. *)
Lemma stored_devnet_key ns name d (v : view) :
  map_Forall (λ k d, k = devnet_id d) (v_devnets v) →
  v_devnets v !! qualified ns name = Some d → no_slash ns → no_slash name →
  or_default (m_Namespace (d_Metadata d)) = or_default ns ∧ m_Name (d_Metadata d) = name.
Proof.
  intros Hk Hd Hns Hn. pose proof (Hk _ _ Hd) as E. unfold devnet_id in E.
  rewrite FullName_qualified in E. unfold qualified in E. symmetry in E.
  apply (sep_parts slash) in E as [-> ->]; [done|by apply no_slash_default|done].
Qed.

(** In an environment without failures, and without an allocator, everything is
    prepared. *)
Lemma prepare_succeeds cb (st : DState S) calls :
  (∀ t path, RemoveAll fs t path = None) →
  (∀ f, factory = Some f → ds_Plugin (d_Spec (ds_devnet st)) ≠ "" ∧
     (∀ t network, CreateOrchestrator f t network = None) ∧
     (∀ t opts, is_Some (ok_of (Execute f t opts).2)) ∧
     ∀ defaults, is_Some (ok_of (devnetToProvisionOptions (ds_devnet st) dataDir defaults 0))) →
  is_Some (ok_of (prepare (F:=F) dataDir fs factory cb (mkPState st None calls)).1).
Proof.
  intros Hrm Hf. unfold prepare, the_devnet, getM. rewrite !bindM_eq. cbn [fst snd ps_d].
  set (d := ds_devnet st). set (name := m_Name (d_Metadata d)).
  assert (He : ∃ calls', EraseDevnetDir (S:=S) (F:=F) dataDir fs name (mkPState st None calls) =
    (None, mkPState st None calls')).
  { unfold EraseDevnetDir, ask. rewrite bindM_eq. cbn [fst snd ps_calls].
    destruct (stat_missing fs calls _); [by eexists|]. rewrite bindM_eq. cbn [fst snd ps_calls].
    rewrite Hrm. by eexists. }
  destruct He as [calls' ->]. cbn [fst snd]. unfold allocate_subnet. rewrite !bindM_eq.
  cbn [ps_alloc fst snd]. rewrite !bindM_eq. destruct factory as [f|]; [|by eexists].
  destruct (Hf f eq_refl) as (Hp & Hc & Hx & Ho). fold d in Hp, Ho. unfold provisionWithOrchestrator.
  rewrite bool_decide_false by done.
  match goal with |- context [bindM (if ?b then ?m1 else ?m2)] =>
    set (defs := if b then m1 else m2) end.
  assert (Hdefs : ∃ o calls2, defs (mkPState st None calls') = (o, mkPState st None calls2)).
  { unfold defs, ask. case_bool_decide; [rewrite bindM_eq|]; by eexists _, _. }
  destruct Hdefs as (o & calls2 & Ed). rewrite bindM_eq, Ed. cbn [fst snd].
  unfold ask. rewrite bindM_eq. cbn [fst snd ps_calls]. rewrite Hc.
  destruct (Ho o) as [opts Hopts]. destruct (devnetToProvisionOptions _ _ _ _) as [opts'|]; [|done].
  rewrite bindM_eq. cbn [fst snd ps_calls].
  match goal with |- context [Execute f ?t ?op] =>
    destruct (Hx t op) as [res Hres]; destruct (Execute f t op) as [reports r] end.
  simpl in Hres. destruct r as [r|]; [|done]. rewrite bindM_eq.
  by eexists.
Qed.

(** C11: a devnet comes up.  On a live store, when a pending devnet whose node
    places are free is reconciled with this provisioner and the directory, the
    subnet and the chain can be prepared, the call ends without an error, the
    devnet is Running, and for each of its Validators+FullNodes places the key is
    enqueued for the node controller, whose reconciles, three of them, bring the
    node of that place, of the right role, to Running, given a runtime that
    starts nodes. *)
Theorem devnet_comes_up `{!StoreLive S} `{!StoreCreates S} (a : option (Allocator F)) calls
    key ns name d w logs :
  store_wf (w_store w) → parseDevnetKey key = (ns, name) → no_slash ns → no_slash name →
  v_devnets (store_view (w_store w)) !! qualified ns name = Some d →
  dphase d ∈ [""; PhasePending; PhaseProvisioning] → counts_ok d →
  (∀ i, (0 ≤ i < total_nodes d)%Z → v_nodes (store_view (w_store w)) !! node_key ns name i = None) →
  (∀ cb (st : DState S), d_Spec (ds_devnet st) = d_Spec d →
     is_Some (ok_of (prepare dataDir fs factory cb (mkPState st a calls)).1)) →
  let '(e, (w', _)) := Reconcile (Some (DevnetProvisioner dataDir fs factory a calls)) true key
                         (w, logs) in
  e = None ∧
  (∃ d', v_devnets (store_view (w_store w')) !! qualified ns name = Some d' ∧
     dphase d' = PhaseRunning) ∧
  ∀ i, (0 ≤ i < total_nodes d)%Z →
    ("nodes", NodeKeyWithNamespace (or_default ns) name i) ∈ w_enqueued w' ∧
    ∀ runtime (wn : World S NodeCall), good_runtime runtime → w_store wn = w_store w' →
      let out := reconciles runtime 3 (NodeKeyWithNamespace (or_default ns) name i) wn in
      out.1 = None ∧ ∃ n, v_nodes (store_view (w_store out.2)) !! node_key ns name i = Some n ∧
        phase n = NodePhaseRunning ∧ ns_Role (n_Spec n) = role_of d i.
Proof.
  intros Hs Hk Hns Hnm Hd Hp Hc Hfree Hprep.
  destruct (store_keys _ Hs) as (Hdk & _).
  destruct (stored_devnet_key ns name d _ Hdk Hd Hns Hnm) as [Ens Enm].
  pose proof (reconcile_provisions (Some (DevnetProvisioner dataDir fs factory a calls)) true
    ltac:(intros p [= <-]; apply DevnetProvisioner_laws) key ns name d w logs Hs Hk Hd Hp) as Hr.
  pose proof (Reconcile_makes dataDir fs factory a calls true key ns name d w logs Hs Hk Hd Hp Hc)
    as Hm.
  destruct (Reconcile _ _ _ _) as [e [w' logs']].
  destruct Hr as (He & r & d' & Hd' & _ & Ha & Hres & _). destruct Hm as [Hs' Hm].
  destruct (Hm r Ha) as [Hmade Hok]. assert (r = None) as -> by (by apply Hok).
  destruct (Hmade eq_refl) as (path & subnet & Hmd & Hq).
  split; [done|]. split; [exists d'; split; [done|apply Hres]|]. intros i Hi.
  assert (Hkey : key_of d i = node_key ns name i).
  { unfold key_of. rewrite Enm, <- (node_key_default (m_Namespace _)), Ens. apply node_key_default. }
  destruct (made_new dataDir d path subnet _ _ i Hc Hmd Hi) as (n & Hn & c & u & Hsm);
    [rewrite Hkey; by apply Hfree|]. rewrite Hkey in Hn.
  destruct (store_keys _ Hs') as (_ & Hnk & _). pose proof (Hnk _ _ Hn) as Hid.
  assert (Hir : ∀ i, (0 ≤ i < total_nodes d)%Z → int64_range i).
  { destruct Hc as (? & ? & Ht). unfold total_nodes. intros i0 Hi0. unfold int64_range in *. lia. }
  destruct Hsm as ((_ & Hmns & _) & Hsp & Hst).
  assert (Hbel : node_belongs (m_Namespace (d_Metadata d)) (m_Name (d_Metadata d)) n).
  { split; [rewrite Hmns; etrans; apply or_default_idem|by rewrite Hsp]. }
  split.
  - rewrite <- Ens, <- Enm. rewrite Hid in Hn. specialize (Hq eq_refl n Hn Hbel).
    by rewrite Hsp in Hq.
  - intros runtime wn Hrt Hw.
    destruct (reconciles_converge runtime (NodeKeyWithNamespace (or_default ns) name i)
      (or_default ns) name i n wn Hrt) as (n' & Hn' & He' & Hsp' & Hp').
    + rewrite NodeKeyWithNamespace_parse, or_default_idem; [done|by apply no_slash_default|done|by apply Hir].
    + by rewrite node_key_default.
    + split; rewrite Hw; [done|]. by rewrite <- Hid.
    + unfold phase, known_phase. rewrite Hst. simpl. set_solver.
    + unfold wants_running. by rewrite Hsp.
    + split; [done|]. exists n'. rewrite Hid. split; [done|].
      unfold wants_running in Hp'. rewrite Hsp in Hp'. by rewrite Hsp', Hsp.
Qed.

(** The status of a devnet counts its nodes: all of them, the running ones,
    and the greatest block height.  It is Running when there are nodes and all
    run, Degraded when one does not, and Pending when there are none. *)
Theorem GetStatus_outcomes devnet (ps : PState (S:=S) (F:=F)) :
  store_wf (w_store (world_of ps)) →
  ∃ nodes status, (GetStatus_ devnet ps).1 = Ok status ∧
    (∀ n, v_nodes (pview ps) !! node_id n = Some n →
       node_belongs (m_Namespace (d_Metadata devnet)) (m_Name (d_Metadata devnet)) n → n ∈ nodes) ∧
    NoDup (node_id <$> nodes) ∧
    dst_Nodes status = Z.of_nat (length nodes) ∧
    dst_ReadyNodes status =
      Z.of_nat (length (filter (λ n, phase n = NodePhaseRunning) nodes)) ∧
    (∀ n, n ∈ nodes → nst_BlockHeight (n_Status n) ≤ dst_CurrentHeight status)%Z ∧
    (dst_Phase status = PhaseRunning ↔ nodes ≠ [] ∧ ∀ n, n ∈ nodes → phase n = NodePhaseRunning) ∧
    (dst_Phase status = PhaseDegraded ↔ ∃ n, n ∈ nodes ∧ phase n ≠ NodePhaseRunning) ∧
    (dst_Phase status = PhasePending ↔ nodes = []).
Proof.
  intros Hs. unfold GetStatus_, list_nodes. rewrite bindM_eq, onStore_eq. cbn [fst snd readM getM].
  destruct (ListNodes_total (devnet_namespace devnet) (m_Name (d_Metadata devnet))
    (w_store (world_of ps)) Hs) as [nodes Hl].
  rewrite Hl, bindM_eq. cbn [fst snd].
  destruct (aggregate_counts nodes) as (height & Hagg & Hh). rewrite Hagg.
  pose proof (status_phase_cases nodes) as Hph. destruct (status_phase _ _) as [ph msg].
  exists nodes. eexists. split; [reflexivity|]. split.
  { intros n Hn [Hb1 Hb2]. destruct (ListNodes_spec _ _ _ _ Hs Hl n) as [_ Hin].
    apply Hin; [exact Hn| |done]. rewrite Hb1. symmetry. apply or_default_idem. }
  split; [by eapply ListNodes_NoDup|]. cbn. split_and!; try done; apply Hph.
Qed.

(** The directory that is erased for a plain name is the one of that name
    directly below the data directory.  But the name is not checked: for the name
    of two dots everything in the directory above the data directory is removed. *)
Theorem EraseDevnetDir_path name (ps : PState (S:=S) (F:=F)) :
  rooted dataDir = true → name ≠ "" →
  let erased := Join [dataDir; name] in
  let '(e, ps') := EraseDevnetDir dataDir fs name ps in
  ps_d ps' = ps_d ps ∧ ps_alloc ps' = ps_alloc ps ∧
  (∃ missing answer, ps_calls ps' = ps_calls ps ++ CStat erased missing ::
     (if missing : bool then [] else [CRemoveAll erased answer]) ∧
     (is_Some e ↔ missing = false ∧ is_Some answer)) ∧
  (plain name → erased = absolute (name :: clean_stack dataDir)) ∧
  (name = ".." → erased = absolute (tail (clean_stack dataDir))).
Proof.
  intros Hr Hne. cbv zeta. unfold EraseDevnetDir. rewrite bindM_eq. unfold ask at 1. cbn [fst snd].
  set (erased := Join [dataDir; name]).
  assert (Hp : (plain name → erased = absolute (name :: clean_stack dataDir)) ∧
    (name = ".." → erased = absolute (tail (clean_stack dataDir)))).
  { assert (Hd : dataDir ≠ "") by (intros ->; discriminate Hr).
    assert (Hj : erased = absolute (clean_stack (dataDir +:+ "/" +:+ name))).
    { unfold erased. simpl. rewrite bool_decide_false by done. apply Clean_rooted.
      by rewrite rooted_app. }
    rewrite Hj. split; [intros Hpl; by rewrite clean_stack_plain|].
    intros ->. by rewrite clean_stack_up. }
  clearbody erased. destruct (stat_missing fs (ps_calls ps) erased) eqn:Hm; cbn [fst snd].
  - split; [done|]. split; [done|]. split; [|exact Hp]. exists true, None. split; [unfold ask; cbn; by rewrite Hm|].
    split; [by intros [? ?]|by intros [? _]].
  - rewrite bindM_eq. unfold ask. cbn. split; [done|]. split; [done|]. split; [|exact Hp].
    exists false, (RemoveAll fs (ps_calls ps ++ [CStat erased false]) erased).
    rewrite Hm, <- (assoc_L app). split; [done|].
    unfold is_Some. destruct (RemoveAll fs _ erased); naive_solver.
Qed.

(** Devnets of one name in two namespaces share everything but the store:
    their nodes of one place have different keys, but the same name, which the
    runtime identifies processes by, and for one role the same home directory.
    While the first one's process runs, the runtime refuses to start the second
    one's. *)
Theorem same_name_shares_nodes d1 d2 c1 u1 c2 u2 i role path1 path2 s1 s2 :
  m_Name (d_Metadata d1) = m_Name (d_Metadata d2) →
  no_slash (m_Namespace (d_Metadata d1)) → no_slash (m_Namespace (d_Metadata d2)) →
  or_default (m_Namespace (d_Metadata d1)) ≠ or_default (m_Namespace (d_Metadata d2)) →
  let dir := Join [dataDir; m_Name (d_Metadata d1)] in
  let n1 := createNodeSpec c1 u1 d1 i role dir path1 s1 in
  let n2 := createNodeSpec c2 u2 d2 i role dir path2 s2 in
  node_id n1 ≠ node_id n2 ∧ ns_HomeDir (n_Spec n1) = ns_HomeDir (n_Spec n2) ∧
  ∀ provider default_plugin readChainID opts r k sup,
    ProcessRuntime.managed (m_Name (n_Metadata n1)) r = Some (k, sup) →
    Supervisor.su_running sup = true →
    ∃ e, ProcessRuntime.StartNode provider default_plugin readChainID None n2 opts r = (Some e, r).
Proof.
  intros Hn Hns1 Hns2 Hne dir n1 n2. split_and!.
  - unfold n1, n2. rewrite !createNodeSpec_id. unfold key_of, node_key. rewrite Hn. intros E.
    apply Hne. unfold qualified in E. rewrite <- !(assoc_L String.append) in E.
    by apply (sep_inj slash) in E as [E _]; [..|apply no_slash_default|apply no_slash_default].
  - unfold n1, n2. simpl. by rewrite Hn.
  - intros provider default_plugin readChainID opts r k sup Hm Hrun.
    assert (Hid : ProcessRuntime.nodeID_of n2 = m_Name (n_Metadata n1))
      by (unfold ProcessRuntime.nodeID_of, n1, n2; simpl; by rewrite Hn).
    eexists. unfold ProcessRuntime.StartNode. by rewrite Hid, Hm, Hrun.
Qed.

(** The counts are not checked: with a negative number of validators and at
    least one full node, provisioning makes a node of a negative place. *)
Theorem negative_validators_negative_place devnet path subnet (ps : PState (S:=S) (F:=F)) :
  store_wf (w_store (world_of ps)) →
  let validators := ds_Validators (d_Spec devnet) in
  (validators < 0 < ds_FullNodes (d_Spec devnet))%Z → int64_range (total_nodes devnet) →
  let '(e, ps') := createNodeResources dataDir devnet path subnet ps in
  e = None → is_Some (v_nodes (pview ps') !! key_of devnet validators).
Proof.
  intros Hs validators [Hv Hf] Ht. unfold createNodeResources. fold validators.
  assert (E0 : Z.to_nat validators = 0) by lia. rewrite E0. simpl forM. rewrite bindM_eq.
  cbn [fst snd done_with]. unfold total_nodes in Ht. rewrite wrap64_id by done.
  pose proof (create_nodes_loop dataDir devnet path subnet "fullnode" "fullnode"
    (Z.to_nat (validators + ds_FullNodes (d_Spec devnet) - validators)) validators ps Hs) as Hl.
  destruct (forM _ validators _ ps) as [e ps'].
  destruct Hl as (_ & Hm & _).
  { intros i Hi. unfold role_of. by rewrite bool_decide_false by (fold validators; lia). }
  intros He. destruct (Hm He) as (_ & Hall & _). apply Hall. lia.
Qed.

(** The genesis is taken from the file the spec names, else from a snapshot,
    else from an RPC endpoint, else it is new; a URL of the plugin stands for one
    that the spec does not give, so a snapshot of the plugin comes before an
    endpoint of the spec.  The options are refused exactly for a snapshot without
    a version of the binary; otherwise they carry the spec. *)
Theorem provision_options_outcomes devnet defaults subnet :
  let spec := d_Spec devnet in
  let plugin_url f := match defaults with Some p => f p | None => "" end in
  let source := mapGenesisSource devnet defaults in
  (gs_Mode source = GenesisModeLocal ↔ ds_GenesisPath spec ≠ "") ∧
  (gs_Mode source = GenesisModeSnapshot ↔ ds_GenesisPath spec = "" ∧
     (ds_SnapshotURL spec ≠ "" ∨ plugin_url nd_SnapshotURL ≠ "")) ∧
  (gs_Mode source = GenesisModeRPC ↔ ds_GenesisPath spec = "" ∧
     ds_SnapshotURL spec = "" ∧ plugin_url nd_SnapshotURL = "" ∧
     (ds_RPCURL spec ≠ "" ∨ plugin_url nd_RPCURL ≠ "")) ∧
  match devnetToProvisionOptions devnet dataDir defaults subnet with
  | Err _ => gs_Mode source = GenesisModeSnapshot ∧
      (bs_Version (ds_BinarySource spec) = "" ∨
       bs_Type (ds_BinarySource spec) ∉ ["local"; "cache"; "github"; "url"; ""])
  | Ok opts => po_GenesisSource opts = source ∧
      po_NumValidators opts = ds_Validators spec ∧ po_NumFullNodes opts = ds_FullNodes spec ∧
      po_Subnet opts = subnet ∧ po_ChainID opts ≠ "" ∧
      (gs_Mode source = GenesisModeSnapshot → po_BinaryVersion opts ≠ "")
  end.
Proof.
  cbv zeta. set (source := mapGenesisSource devnet defaults).
  assert (Hsrc : let spec := d_Spec devnet in
    let plugin_url f := match defaults with Some p => f p | None => "" end in
    (gs_Mode source = GenesisModeLocal ↔ ds_GenesisPath spec ≠ "") ∧
    (gs_Mode source = GenesisModeSnapshot ↔ ds_GenesisPath spec = "" ∧
       (ds_SnapshotURL spec ≠ "" ∨ plugin_url nd_SnapshotURL ≠ "")) ∧
    (gs_Mode source = GenesisModeRPC ↔ ds_GenesisPath spec = "" ∧
       ds_SnapshotURL spec = "" ∧ plugin_url nd_SnapshotURL = "" ∧
       (ds_RPCURL spec ≠ "" ∨ plugin_url nd_RPCURL ≠ ""))) by apply mapGenesisSource_mode.
  cbv zeta in Hsrc. destruct Hsrc as (Hl & Hs & Hr). split_and!; [exact Hl|exact Hs|exact Hr|].
  unfold devnetToProvisionOptions. fold source.
  pose proof (binary_options_version (ds_BinarySource (d_Spec devnet))) as Hv.
  destruct (binary_options _) as [path version]. simpl in Hv.
  destruct (bool_decide (gs_Mode source = GenesisModeSnapshot)) eqn:Hm; simpl.
  - apply bool_decide_eq_true in Hm. case_bool_decide as He; [by split; [|apply Hv]|].
    split_and!; try done. simpl. by apply chain_id_ne.
  - apply bool_decide_eq_false in Hm. split_and!; try done. simpl. by apply chain_id_ne.
Qed.
End properties.

(** *** Witnesses *)

#[local] Existing Instance some_order.

(** Directories can be removed, allocations saved, chains built. *)
Definition ex_files : Files := mkFiles (λ _ _, false) (λ _ _, None) (λ _, IoOk).
Definition ex_factory : OrchestratorFactory :=
  mkOrchestratorFactory (λ _ _, None) (λ _ _ _, Err (Errorf "unknown"))
    (λ _ opts, ([("Building", "")],
       Ok (mkProvisionResult (po_DevnetName opts) (po_ChainID opts) "/bin/stabled" "" 3 2 1
             (po_DataDir opts)))).
Definition ex_plugin_devnet : Devnet :=
  ex_devnet PhasePending <| d_Spec; ds_Plugin := "stable" |>
    <| d_Spec; ds_BinarySource := mkBinarySource "cache" "" "v1.0.0" "" "" "" |>.
Definition ex_prov_world : World MemoryStore DevnetCall :=
  mkWorld (MemStore.CreateDevnet ex_plugin_devnet NewMemoryStore).2 (λ n, Z.of_nat n) 0 [] [].
Definition ex_prov : Provisioner MemoryStore :=
  DevnetProvisioner (F := persistedState) "/data" ex_files (Some ex_factory) None [].
Definition ex_reconciled := Reconcile (Some ex_prov) true "a" (ex_prov_world, NoLogs).

Lemma ex_prov_wf : store_wf (w_store ex_prov_world).
Proof. split_and!; apply map_Forall_to_list; vm_compute; repeat constructor. Qed.

Lemma ex_prepared cb (st : DState MemoryStore) :
  d_Spec (ds_devnet st) = d_Spec ex_plugin_devnet →
  is_Some (ok_of (prepare (F := persistedState) "/data" ex_files (Some ex_factory) cb
                    (mkPState st None [])).1).
Proof.
  intros Hsp. apply prepare_succeeds; [done|]. rewrite Hsp. intros f [= <-].
  split; [discriminate|]. split; [done|]. split; [intros t o; by eexists|].
  intros defaults. unfold devnetToProvisionOptions. rewrite Hsp.
  destruct (binary_options _) as [path version] eqn:E. vm_compute in E. injection E as <- <-.
  rewrite (bool_decide_false ("v1.0.0" = "")) by discriminate. rewrite andb_false_r. by eexists.
Qed.

Lemma ex_prov_free i :
  (0 ≤ i < total_nodes ex_plugin_devnet)%Z →
  v_nodes (store_view (w_store ex_prov_world)) !! node_key "default" "a" i = None.
Proof. intros _. exact (lookup_empty (M := gmap string) _). Qed.

Lemma devnet_comes_up_witness :
  ex_reconciled.1 = None ∧
  ("nodes", "default/a/2") ∈ w_enqueued ex_reconciled.2.1 ∧
  ∃ n, v_nodes (store_view (w_store (reconciles (Some ex_runtime) 3 "default/a/2"
      (mkWorld (w_store ex_reconciled.2.1) (λ n, Z.of_nat n) 0 [] [])).2)) !! "default/a/2" = Some n ∧
    phase n = NodePhaseRunning ∧ ns_Role (n_Spec n) = "fullnode".
Proof.
  pose proof (devnet_comes_up (S:=MemoryStore) "/data" ex_files (Some ex_factory) None [] "a"
    "default" "a" ex_plugin_devnet ex_prov_world NoLogs ex_prov_wf eq_refl eq_refl eq_refl
    ltac:(vm_compute; reflexivity) ltac:(vm_compute; right; left)
    ltac:(vm_compute; intuition discriminate) ex_prov_free ex_prepared) as Ho.
  unfold ex_reconciled, ex_prov. destruct (Reconcile _ _ _ _) as [e [w' logs]].
  destruct Ho as (He & _ & Hall). split; [exact He|].
  destruct (Hall 2%Z ltac:(vm_compute; intuition discriminate)) as [Hq Hn]. split; [exact Hq|].
  destruct (Hn (Some ex_runtime) (mkWorld (w_store w') (λ n, Z.of_nat n) 0 [] [])) as (_ & n & Hk & Hp & Hr).
  - split; [intros t n p; reflexivity|]. intros t i. eexists. split; reflexivity.
  - reflexivity.
  - exists n. split; [exact Hk|]. split; [exact Hp|exact Hr].
Defined.

Definition ex_pstate (s : MemoryStore) : PState (S:=MemoryStore) (F:=persistedState) :=
  mkPState (mkDState (mkWorld s (λ n, Z.of_nat n) 0 [] []) ex_plugin_devnet NoLogs) None [].

Lemma GetStatus_outcomes_witness :
  ∃ status, (GetStatus_ ex_plugin_devnet (ex_pstate (w_store ex_prov_world))).1 = Ok status ∧
    dst_Phase status = PhasePending.
Proof.
  destruct (GetStatus_outcomes (S:=MemoryStore) (F:=persistedState) ex_plugin_devnet
    (ex_pstate (w_store ex_prov_world)) ex_prov_wf)
    as (nodes & status & Hs & _ & _ & Hn & _ & _ & _ & _ & Hp).
  exists status. split; [exact Hs|]. apply Hp. apply length_zero_iff_nil, Nat2Z.inj. rewrite <- Hn.
  revert Hs. vm_compute. intros [= <-]. reflexivity.
Defined.

Lemma EraseDevnetDir_path_witness :
  Join ["/var/lib/devnet"; ".."] = "/var/lib" ∧
  ∃ missing answer, ps_calls (EraseDevnetDir (S:=MemoryStore) (F:=persistedState) "/var/lib/devnet"
      ex_files ".." (ex_pstate NewMemoryStore)).2 =
    [] ++ CStat "/var/lib" missing :: (if missing : bool then [] else [CRemoveAll "/var/lib" answer]).
Proof.
  pose proof (EraseDevnetDir_path (S:=MemoryStore) (F:=persistedState) "/var/lib/devnet" ex_files
    ".." (ex_pstate NewMemoryStore) eq_refl ltac:(discriminate)) as Ho. cbv zeta in Ho.
  destruct (EraseDevnetDir _ _ _ _) as [e ps'].
  destruct Ho as (_ & _ & (missing & answer & Hc & _) & _ & Hup).
  assert (E : Join ["/var/lib/devnet"; ".."] = "/var/lib") by exact (Hup eq_refl).
  split; [exact E|]. exists missing, answer. rewrite E in Hc. exact Hc.
Defined.

Lemma same_name_shares_nodes_witness :
  let d ns := ex_plugin_devnet <| d_Metadata; m_Namespace := ns |> in
  let n ns := createNodeSpec 0 0 (d ns) 0 "validator" "/data/a" "/bin/stabled" 0 in
  node_id (n "team-a") ≠ node_id (n "team-b") ∧
  ns_HomeDir (n_Spec (n "team-a")) = ns_HomeDir (n_Spec (n "team-b")).
Proof.
  intros d n.
  destruct (same_name_shares_nodes "/data" (d "team-a") (d "team-b") 0 0 0 0 0 "validator"
    "/bin/stabled" "/bin/stabled" 0 0 eq_refl eq_refl eq_refl ltac:(discriminate)) as (Hk & Hh & _).
  split; [exact Hk|exact Hh].
Defined.

Lemma new_prov_wf : store_wf (w_store (world_of (ex_pstate NewMemoryStore))).
Proof. split_and!; apply map_Forall_to_list; vm_compute; repeat constructor. Qed.

Lemma negative_validators_negative_place_witness :
  let d := ex_plugin_devnet <| d_Spec; ds_Validators := (-1)%Z |> <| d_Spec; ds_FullNodes := 2%Z |> in
  is_Some (v_nodes (pview (createNodeResources "/data" d "" 0 (ex_pstate NewMemoryStore)).2)
             !! "default/a/-1").
Proof.
  intros d.
  pose proof (negative_validators_negative_place (S:=MemoryStore) "/data" d "" 0
    (ex_pstate NewMemoryStore) new_prov_wf ltac:(vm_compute; intuition discriminate)
    ltac:(vm_compute; intuition discriminate)) as Ho.
  destruct (createNodeResources _ _ _ _ _) as [e ps'] eqn:E. apply Ho.
  apply (f_equal fst) in E. vm_compute in E. symmetry. exact E.
Defined.
