(* ===== verification/ProvisionFlow.v ===== *)
(** * From a devnet to initialised nodes

    The devnet provisioner ([Provisioner]) drives a provisioning orchestrator
    ([Orchestrator]) through the factory of [internal/daemon/provisioner/devnet.go]
    and afterwards creates the node resources on its own, from the same devnet.
    This file relates the two: the node resources name the directories, binaries
    and addresses of the nodes that the orchestrator initialised, and a devnet whose
    genesis has no source is refused by the forker. *)

From stdpp Require Import base tactics numbers list strings gmap.
From S2P Require Import Prelude Types MemStore Store World Subnet Paths ProvisionTypes ProvisionEnv.
From S2P Require Import NodeController ProvisionLogs DevnetController Provisioner.
From S2P Require Forker Orchestrator OrchestratorSpec.

(** ** Factories of orchestrators *)

(** The results of the factory's orchestrators are those of runs. *)
Definition runs `{Orchestrator.GenesisForker} (env : Env) (config : Orchestrator.OrchestratorConfig)
    (f : OrchestratorFactory) : Prop :=
  ∀ calls opts r, (Execute f calls opts).2 = Ok r →
    ∃ fuel o o', Orchestrator.Execute env config fuel opts o = (Returns r, o').

(** ** What [prepare] asked of the orchestrator *)

Section prepared.
Context {S F : Type} `{Store S} `{Codec F persistedState} `{MapRange}.
Variable dataDir : string.
Variable fs : Files.
Variable f : OrchestratorFactory.
Implicit Types ps : PState (S:=S) (F:=F).

Lemma provisionWithOrchestrator_Ok cb devnet subnet ps path :
  (provisionWithOrchestrator dataDir f cb devnet subnet ps).1 = Ok path →
  ∃ defaults opts calls r,
    (ds_ForkNetwork (d_Spec devnet) = "" → defaults = None) ∧
    devnetToProvisionOptions devnet dataDir defaults subnet = Ok opts ∧
    (Execute f calls (opts <| po_SkipStart := true |>)).2 = Ok r ∧ path = pr_BinaryPath r.
Proof.
  unfold provisionWithOrchestrator. case_bool_decide; [done|]. rewrite bindM_eq.
  match goal with |- context [(if ?b then ?m1 else ?m2) ps] =>
    destruct ((if b then m1 else m2) ps) as [defaults ps1] eqn:Hd end.
  assert (Hn : ds_ForkNetwork (d_Spec devnet) = "" → defaults = None).
  { intros E. rewrite E in Hd. by injection Hd as <- _. }
  clear Hd. cbn [fst snd]. rewrite bindM_eq. unfold ask at 1. cbn [fst snd].
  destruct (CreateOrchestrator f _ _); [done|].
  destruct (devnetToProvisionOptions _ _ _ _) as [opts|e] eqn:Ho; [|done].
  rewrite bindM_eq. unfold ask at 1. cbn [fst snd].
  match goal with |- context [Execute f ?t ?o] =>
    destruct (Execute f t o) as [reports [r|e]] eqn:Hx end; rewrite bindM_eq; [|done].
  intros [= <-]. eexists defaults, opts, _, r. by rewrite Hx.
Qed.

Lemma prepare_Ok cb ps path subnet :
  (prepare dataDir fs (Some f) cb ps).1 = Ok (path, subnet) →
  ∃ defaults opts calls r,
    (ds_ForkNetwork (d_Spec (ds_devnet (ps_d ps))) = "" → defaults = None) ∧
    devnetToProvisionOptions (ds_devnet (ps_d ps)) dataDir defaults subnet = Ok opts ∧
    (Execute f calls (opts <| po_SkipStart := true |>)).2 = Ok r ∧ path = pr_BinaryPath r.
Proof.
  unfold prepare, the_devnet, getM. rewrite !bindM_eq. cbn [fst snd].
  destruct (EraseDevnetDir _ _ _ ps) as [[e|] ps1]; [done|]. cbn [fst snd].
  rewrite bindM_eq. destruct (allocate_subnet _ _ ps1) as [[s|e] ps2]; [|done]. cbn [fst snd].
  rewrite bindM_eq. cbn [fst snd].
  destruct (provisionWithOrchestrator _ _ _ _ _ ps2) as [[p|e] ps3] eqn:Hp; [|done].
  intros [= -> ->]. eapply provisionWithOrchestrator_Ok. by rewrite Hp.
Qed.
End prepared.

(** ** The nodes of a run *)

Section options.
Implicit Types devnet : Devnet.

(** What the options copy from the devnet. *)
Lemma options_of devnet dataDir defaults subnet opts :
  devnetToProvisionOptions devnet dataDir defaults subnet = Ok opts →
  po_DevnetName opts = m_Name (d_Metadata devnet) ∧ po_Subnet opts = subnet ∧
  po_NumValidators opts = ds_Validators (d_Spec devnet) ∧
  po_NumFullNodes opts = ds_FullNodes (d_Spec devnet) ∧
  po_DataDir opts = Join [dataDir; m_Name (d_Metadata devnet)] ∧
  po_GenesisSource opts = mapGenesisSource devnet defaults.
Proof.
  unfold devnetToProvisionOptions. destruct (binary_options _) as [bp bv].
  case_match; [done|]. by intros [= <-].
Qed.

(** The node of a place is planned. *)
Lemma planned_place devnet opts bp i :
  counts_ok devnet → (0 ≤ i < total_nodes devnet)%Z →
  po_NumValidators opts = ds_Validators (d_Spec devnet) →
  po_NumFullNodes opts = ds_FullNodes (d_Spec devnet) →
  Orchestrator.initialized_node opts bp i (role_of devnet i) ∈ Orchestrator.planned_nodes opts bp.
Proof.
  intros (Hv & Hf & Ht) Hi Ev Ef. unfold Orchestrator.planned_nodes, role_of, total_nodes in *.
  rewrite Ev, Ef. assert (Hw : wrap64 i = i) by (apply wrap64_id; unfold int64_range in *; lia).
  apply elem_of_app. case_bool_decide; [left|right]; apply list_elem_of_fmap.
  - exists i. rewrite Z.add_0_l, Hw. split; [done|]. apply elem_of_seqZ. lia.
  - exists (i - ds_Validators (d_Spec devnet))%Z. rewrite Zplus_minus, Hw. split; [done|].
    apply elem_of_seqZ. lia.
Qed.

Lemma node_of_planned devnet dataDir path subnet opts i n :
  node_of dataDir devnet path subnet i n →
  po_DevnetName opts = m_Name (d_Metadata devnet) → po_Subnet opts = subnet →
  po_DataDir opts = Join [dataDir; m_Name (d_Metadata devnet)] →
  let m := Orchestrator.initialized_node opts path i (role_of devnet i) in
  ns_HomeDir (n_Spec n) = ns_HomeDir (n_Spec m) ∧ ns_Address (n_Spec n) = ns_Address (n_Spec m) ∧
  ns_Role (n_Spec n) = ns_Role (n_Spec m) ∧ ns_Index (n_Spec n) = ns_Index (n_Spec m) ∧
  (path ≠ "" → ns_BinaryPath (n_Spec n) = ns_BinaryPath (n_Spec m)).
Proof.
  intros (c & u & _ & Hsp & _) En Es Ed. rewrite Hsp. unfold Orchestrator.initialized_node,
    Orchestrator.node_dir, createNodeSpec. cbn [n_Spec ns_HomeDir ns_Address ns_Role ns_Index ns_BinaryPath].
  rewrite En, Es, Ed. split_and!; try done. intros Hp. by rewrite bool_decide_false.
Qed.
End options.

Section flow.
Context {S F : Type} `{StoreSpec S} `{!StoreChanges S} `{Codec F persistedState} `{MapRange}.
Context `{Orchestrator.GenesisForker} (env : Env) (config : Orchestrator.OrchestratorConfig).
Context (dataDir : string) (fs : Files) (f : OrchestratorFactory).
Implicit Types ps : PState (S:=S) (F:=F).

(** C12: the provisioner makes the node resources from the devnet and not from the
    nodes the orchestrator initialised, and they agree.  When provisioning with a
    factory of orchestrators ends without an error and the places of the devnet
    were free, there was a run of the orchestrator that returned, and the resource
    at each place names the home directory, address, role, index and (unless it is
    empty) binary of a node of that run; the genesis in that directory is the one
    of the data directory, unless that is empty. *)
Theorem provisioned_nodes_are_initialized cb ps :
  runs env config f →
  (∀ callback phase message, cb = Some callback → calmM (callback phase message)) →
  store_wf (w_store (ds_world (ps_d ps))) → counts_ok (ds_devnet (ps_d ps)) →
  (∀ i, (0 ≤ i < total_nodes (ds_devnet (ps_d ps)))%Z →
     v_nodes (pview ps) !! key_of (ds_devnet (ps_d ps)) i = None) →
  (Provision_ dataDir fs (Some f) cb ps).1 = None →
  ∃ fuel opts o r o' l genesis,
    Orchestrator.Execute env config fuel opts o = (Returns r, o') ∧
    Orchestrator.calls_of o' = Orchestrator.calls_of o ++ l ∧
    written (Orchestrator.master_path opts) l = Some genesis ∧
    ∀ i, (0 ≤ i < total_nodes (ds_devnet (ps_d ps)))%Z → ∃ n m,
      v_nodes (pview (Provision_ dataDir fs (Some f) cb ps).2) !! key_of (ds_devnet (ps_d ps)) i
        = Some n ∧
      m ∈ Orchestrator.planned_nodes opts (pr_BinaryPath r) ∧
      ns_HomeDir (n_Spec n) = ns_HomeDir (n_Spec m) ∧ ns_Address (n_Spec n) = ns_Address (n_Spec m) ∧
      ns_Role (n_Spec n) = ns_Role (n_Spec m) ∧ ns_Index (n_Spec n) = ns_Index (n_Spec m) ∧
      (pr_BinaryPath r ≠ "" → ns_BinaryPath (n_Spec n) = ns_BinaryPath (n_Spec m)) ∧
      (genesis ≠ "" →
       written (Join [ns_HomeDir (n_Spec n); "config"; "genesis.json"]) l = Some genesis).
Proof.
  intros Hruns Hcb Hs Hc Hfree Hok.
  pose proof (Provision_makes dataDir fs (Some f) cb ps Hcb Hs Hc) as Hp.
  destruct (Provision_ dataDir fs (Some f) cb ps) as [e ps']. cbn [fst snd] in *. subst e.
  destruct Hp as (_ & _ & En & Ens & Esp & _ & Hm & _).
  destruct (Hm eq_refl) as (path & subnet & Hprep & Hmade). clear Hm.
  set (d := ds_devnet (ps_d ps)) in *.
  assert (Hmd : made dataDir d path subnet 0 (total_nodes d) (pview ps) (pview ps')).
  { apply (made_same dataDir d (ds_devnet (ps_d ps'))); [by split_and!|done]. }
  destruct (prepare_Ok dataDir fs f cb ps path subnet Hprep)
    as (defaults & opts & calls & r & _ & Ho & Hx & ->).
  destruct (options_of _ _ _ _ _ Ho) as (E1 & E2 & E3 & E4 & E5 & _). fold d in E1, E3, E4, E5.
  destruct (Hruns _ _ _ Hx) as (fuel & o & o' & Hrun).
  destruct (Orchestrator.Execute_same_genesis env config _ fuel o r o' Hrun)
    as (l & g & Hl & Hg & Hall).
  exists fuel, (opts <| po_SkipStart := true |>), o, r, o', l, g. split_and!; try done.
  intros i Hi. destruct (made_new dataDir d _ subnet _ _ i Hc Hmd Hi (Hfree i Hi)) as (n & Hn & Hof).
  pose proof (planned_place d (opts <| po_SkipStart := true |>) (pr_BinaryPath r) i Hc Hi E3 E4) as Hin.
  destruct (node_of_planned d dataDir _ subnet (opts <| po_SkipStart := true |>) i n Hof E1 E2 E5)
    as (Hh & ? & ? & ? & ?).
  eexists n, _. do 2 (split; [done|]). do 5 (split; [done|]). intros Hne.
  rewrite Hh. by apply (Hall Hne _ Hin).
Qed.
End flow.

(** ** A devnet without a source *)

(** The devnet's spec names no genesis: no file, no snapshot, no node, no network
    to fork. *)
Definition no_source (devnet : Devnet) : Prop :=
  ds_GenesisPath (d_Spec devnet) = "" ∧ ds_SnapshotURL (d_Spec devnet) = "" ∧
  ds_RPCURL (d_Spec devnet) = "" ∧ ds_ForkNetwork (d_Spec devnet) = "".

Section fresh.
Context `{Forker.JSON} (env fenv : Env) (fconfig : Forker.GenesisForkerConfig).
Context (config : Orchestrator.OrchestratorConfig).
#[local] Existing Instance Orchestrator.the_forker.

(** No run with the real forker returns for a mode it does not know. *)
Lemma Execute_unsupported fuel opts o r o' :
  gs_Mode (po_GenesisSource opts) ∉ [GenesisModeRPC; GenesisModeSnapshot; GenesisModeLocal] →
  @Orchestrator.Execute (Orchestrator.the_forker fenv fconfig) env config fuel opts o
    ≠ (Returns r, o').
Proof.
  intros Hm Hr. unfold Orchestrator.Execute in Hr.
  apply bindE_Returns in Hr as (? & o1 & _ & Hr). apply bindE_Returns in Hr as (bp & o2 & _ & Hr).
  rewrite bindM_eq in Hr. apply bindE_Returns in Hr as (? & o4 & _ & Hr).
  unfold bindM at 1, getM at 1 in Hr.
  apply bindE_Returns in Hr
    as (fr & o5 & (st & Hf & _)%Orchestrator.stage_Returns%Orchestrator.onE_Returns & _).
  unfold Orchestrator.executeForkPhase in Hf. apply bindE_Returns in Hf as (fr1 & st1 & Hf & _).
  apply (proj1 (wrapping_Returns _ _ _ _ _)) in Hf. simpl in Hf.
  rewrite Forker.Fork_unsupported in Hf; [done|exact Hm].
Qed.

Context {S F : Type} `{StoreSpec S} `{!StoreChanges S} `{Codec F persistedState} `{MapRange}.
Context (dataDir : string) (fs : Files) (f : OrchestratorFactory).

(** The provisioner maps a devnet without any genesis source to the mode fresh,
    which the forker does not know: with a factory whose orchestrators have this
    forker, provisioning such a devnet always ends with an error, and the nodes in
    the store are what they were. *)
Theorem fresh_devnet_is_never_provisioned cb (ps : PState (S:=S) (F:=F)) :
  @runs (Orchestrator.the_forker fenv fconfig) env config f →
  (∀ callback phase message, cb = Some callback → calmM (callback phase message)) →
  store_wf (w_store (ds_world (ps_d ps))) → counts_ok (ds_devnet (ps_d ps)) →
  no_source (ds_devnet (ps_d ps)) →
  gs_Mode (mapGenesisSource (ds_devnet (ps_d ps)) None) = GenesisModeFresh ∧
  let '(e, ps') := Provision_ dataDir fs (Some f) cb ps in
  e ≠ None ∧ v_nodes (pview ps') = v_nodes (pview ps).
Proof.
  intros Hruns Hcb Hs Hc (Hg & Hsn & Hrpc & Hfork).
  assert (Hmode : gs_Mode (mapGenesisSource (ds_devnet (ps_d ps)) None) = GenesisModeFresh).
  { unfold mapGenesisSource. by rewrite Hg, Hsn, Hrpc. }
  split; [done|].
  pose proof (Provision_makes dataDir fs (Some f) cb ps Hcb Hs Hc) as Hp.
  destruct (Provision_ dataDir fs (Some f) cb ps) as [e ps'].
  destruct Hp as (_ & _ & _ & _ & _ & Herr & _).
  destruct (prepare dataDir fs (Some f) cb ps) as [[[path subnet]|err] ps1] eqn:Hprep.
  - exfalso. destruct (prepare_Ok dataDir fs f cb ps path subnet)
      as (defaults & opts & calls & r & Hn & Ho & Hx & _); [by rewrite Hprep|].
    rewrite (Hn Hfork) in Ho. destruct (options_of _ _ _ _ _ Ho) as (_ & _ & _ & _ & _ & Es).
    destruct (Hruns _ _ _ Hx) as (fuel & o & o' & Hr).
    eapply Execute_unsupported; [|exact Hr]. simpl. rewrite Es, Hmode. compute_done.
  - destruct (Herr err eq_refl) as [-> ?]. done.
Qed.
End fresh.

(** ** Witnesses *)

#[local] Existing Instances some_order Forker.number_JSON OrchestratorSpec.ex_forker.

(** A factory that runs the orchestrator of [OrchestratorSpec]. *)
Definition ex_runner : OrchestratorFactory :=
  mkOrchestratorFactory (λ _ _, None) (λ _ _ _, Err (Errorf "unknown"))
    (λ _ opts,
       ([], match (Orchestrator.Execute OrchestratorSpec.ex_env OrchestratorSpec.ex_orchestrator 1
                     opts OrchestratorSpec.ex_start).1 with
            | Returns r => Ok r
            | Fails e => Err e
            | _ => Err (Errorf "panic")
            end)).

Lemma ex_runs : runs OrchestratorSpec.ex_env OrchestratorSpec.ex_orchestrator ex_runner.
Proof.
  intros calls opts r. unfold ex_runner. cbn [Execute snd].
  destruct (Orchestrator.Execute OrchestratorSpec.ex_env _ 1 opts _) as [[r'|e| |] o'] eqn:E;
    try discriminate.
  intros [= ->]. exists 1, OrchestratorSpec.ex_start, o'. exact E.
Qed.

Definition ex_local_devnet : Devnet :=
  ex_plugin_devnet <| d_Spec; ds_GenesisPath := "/genesis.json" |>.

Definition ex_provisioned (devnet : Devnet) : PState (S:=MemoryStore) (F:=persistedState) :=
  mkPState (mkDState (mkWorld NewMemoryStore (λ n, Z.of_nat n) 0 [] []) devnet NoLogs) None [].

Lemma ex_empty_wf devnet : store_wf (w_store (ds_world (ps_d (ex_provisioned devnet)))).
Proof. split_and!; apply map_Forall_to_list; vm_compute; repeat constructor. Qed.

Lemma provisioned_nodes_are_initialized_witness :
  let ps := ex_provisioned ex_local_devnet in
  ∃ n, v_nodes (pview (Provision_ "/data" ex_files (Some ex_runner) None ps).2) !! "default/a/2"
      = Some n ∧
    ∃ fuel opts o r o' m, Orchestrator.Execute OrchestratorSpec.ex_env
        OrchestratorSpec.ex_orchestrator fuel opts o = (Returns r, o') ∧
      m ∈ Orchestrator.planned_nodes opts (pr_BinaryPath r) ∧
      ns_HomeDir (n_Spec n) = ns_HomeDir (n_Spec m).
Proof.
  intros ps.
  destruct (provisioned_nodes_are_initialized (S:=MemoryStore) (F:=persistedState)
    OrchestratorSpec.ex_env OrchestratorSpec.ex_orchestrator "/data" ex_files ex_runner None ps)
    as (fuel & opts & o & r & o' & l & g & Hr & _ & _ & Hall).
  - exact ex_runs.
  - discriminate.
  - apply ex_empty_wf.
  - vm_compute. intuition discriminate.
  - intros i _. exact (lookup_empty (M := gmap string) _).
  - vm_compute. reflexivity.
  - destruct (Hall 2%Z ltac:(vm_compute; intuition discriminate)) as (n & m & Hn & Hm & Hh & _).
    exists n. split; [exact Hn|]. exists fuel, opts, o, r, o', m.
    split; [exact Hr|]. split; [exact Hm|exact Hh].
Defined.

Lemma fresh_devnet_is_never_provisioned_witness :
  (Provision_ "/data" ex_files (Some ex_runner) None (ex_provisioned ex_plugin_devnet)).1 ≠ None.
Proof.
  destruct (fresh_devnet_is_never_provisioned (S:=MemoryStore) (F:=persistedState)
    OrchestratorSpec.ex_env OrchestratorSpec.ex_env
    (Forker.mkGenesisForkerConfig "/data" None true true true)
    OrchestratorSpec.ex_orchestrator "/data" ex_files ex_runner None
    (ex_provisioned ex_plugin_devnet) ex_runs) as [_ Ho].
  - discriminate.
  - apply ex_empty_wf.
  - vm_compute. intuition discriminate.
  - vm_compute. intuition discriminate.
  - destruct (Provision_ _ _ _ _ _) as [e ps']. apply Ho.
Defined.
