(* ===== verification/DevnetService.v ===== *)
(** * The devnet service ([internal/daemon/server/devnet_service.go])

    The requests on devnets: validation, the store calls, the keys enqueued for
    the controllers.  [DeleteDevnet] also releases the devnet's subnet and erases
    its directory: the state then includes the allocator, and what the disk
    answers is a function of the calls made so far.  [ante] is the ante handler's
    network service, if the service has an ante handler. *)

From Stdlib Require Import Ascii.
From stdpp Require Import base tactics numbers list strings gmap.
From S2P Require Import Prelude Types MemStore Store Subnet Auth Ante Convert World NodeController.

(** ** Label selectors *)

Definition isSpace (c : ascii) : bool :=
  let n := N_of_ascii c in
  bool_decide (n = 32)%N || bool_decide (n = 9)%N || bool_decide (n = 10)%N ||
  bool_decide (n = 13)%N.

(** [for start < len(s) && isSpace(s[start])]. *)
Fixpoint trim_start (s : string) : string :=
  match s with
  | String c t => if isSpace c then trim_start t else s
  | EmptyString => EmptyString
  end.
(** [for end > start && isSpace(s[end-1])]. *)
Fixpoint trim_end (s : string) : string :=
  match s with
  | String c t =>
      match trim_end t with
      | EmptyString => if isSpace c then EmptyString else String c EmptyString
      | t => String c t
      end
  | EmptyString => EmptyString
  end.
Definition trimSpace (s : string) : string := trim_end (trim_start s).

(** The first place at which [s] has [sep]; [None] for -1. *)
Fixpoint indexOf (s sep : string) : option nat :=
  if has_prefix sep s then Some 0
  else match s with
       | EmptyString => None
       | String _ s => S <$> indexOf s sep
       end.

(** The loop runs once per separator: [None] is out of fuel. *)
Fixpoint splitString (fuel : nat) (s sep : string) : option (list string) :=
  match fuel with
  | O => None
  | S fuel =>
      match indexOf s sep with
      | None => Some [s]
      | Some i =>
          (take_str i s ::.) <$>
            splitString fuel (drop_str (i + Strings.String.length sep) s) sep
      end
  end.

(** [splitTrimmed] on a separator that is not empty. *)
Definition splitTrimmed (s sep : string) : list string :=
  trimSpace <$> default [] (splitString (S (Strings.String.length s)) s sep).

Definition parseLabelSelector (selector : string) : gmap string string :=
  if bool_decide (selector = "") then ∅
  else foldl (λ result pair,
      if bool_decide (pair = "") then result
      else match splitTrimmed pair "=" with
           | [k; v] => if bool_decide (k ≠ "") then <[k := v]> result else result
           | _ => result
           end)
    ∅ (splitTrimmed selector ",").

(** An empty label map is nil, as protobuf and JSON decode it. *)
Definition matchesLabels `{MapRange} (resourceLabels filter : gmap string string) : bool :=
  forallb (λ '(k, v), negb (bool_decide (resourceLabels = ∅) ||
                            bool_decide (default "" (resourceLabels !! k) ≠ v)))
    (range filter).

(** ** The requests *)

(** Calls outside the daemon, with their answers. *)
Inductive SvcCall :=
| CSave (answer : io)
| CErase (devnetName : string) (answer : option error).

Section service.
Context {S : Type} `{Store S} `{MapRange}.
Variable ante : option (string → option error).
Variable has_manager : bool.

Abbreviation W := (World S SvcCall).

Definition name_required {A} (name : string) (k : M W (rpc A)) : M W (rpc A) :=
  if bool_decide (name = "") then done_with (RpcErr InvalidArgument "name is required") else k.

Definition enqueue_devnet (namespace name : string) : M W unit :=
  if has_manager then enqueue "devnets" (namespace +:+ "/" +:+ name) else done_with tt.

Definition not_found {A} (name : string) : rpc A :=
  RpcErr NotFound ("devnet " +:+ quote name +:+ " not found").

(** What a failed [GetDevnet] is answered with. *)
Definition get_failed {A} (name : string) (e : error) : rpc A :=
  if IsNotFound e then not_found name
  else RpcErr Internal ("failed to get devnet: " +:+ Error e).

Definition create_devnet (namespace : string) (req : CreateDevnetRequest)
    : M W (rpc ProtoDevnet) :=
  do! t := now in
  do! ' (err, devnet) := updateM CreateDevnet (CreateRequestToDevnet t req) in
  match err with
  | Some e => done_with
      (if IsAlreadyExists e
       then RpcErr AlreadyExists ("devnet " +:+ quote (cd_Name req) +:+ " already exists")
       else RpcErr Internal ("failed to create devnet: " +:+ Error e))
  | None =>
      run! enqueue_devnet namespace (cd_Name req) in
      done_with (RpcOk (DevnetToProto devnet))
  end.

Definition CreateDevnet_req (ctx : option UserInfo) (req : CreateDevnetRequest)
    : M W (rpc ProtoDevnet) :=
  let namespace := if bool_decide (cd_Namespace req = "") then DefaultNamespace
                   else cd_Namespace req in
  match ante with
  | Some g => validated (ValidateCreateDevnet g ctx req) (create_devnet namespace req)
  | None => name_required (cd_Name req) (create_devnet namespace req)
  end.

Definition GetDevnet_req (namespace name : string) : M W (rpc ProtoDevnet) :=
  name_required name (
    do! r := readM (GetDevnet namespace name) in
    match r with
    | Err e => done_with (get_failed name e)
    | Ok devnet => done_with (RpcOk (DevnetToProto devnet))
    end).

Definition ListDevnets_req (namespace labelSelector : string) : M W (rpc (list ProtoDevnet)) :=
  do! r := readM (ListDevnets namespace) in
  match r with
  | Err e => done_with (RpcErr Internal ("failed to list devnets: " +:+ Error e))
  | Ok devnets =>
      let labelFilter := parseLabelSelector labelSelector in
      done_with (RpcOk (DevnetToProto <$>
        filter (λ d, matchesLabels (m_Labels (d_Metadata d)) labelFilter) devnets))
  end.

(** The loop of [StartDevnet]: the first failed update ends the request. *)
Fixpoint start_nodes (nodes : list Node) : M W (option (rpc ProtoDevnet)) :=
  match nodes with
  | [] => done_with None
  | node :: nodes =>
      if bool_decide (nst_Phase (n_Status node) = NodePhaseRunning) ||
         bool_decide (nst_Phase (n_Status node) = NodePhaseStarting)
      then start_nodes nodes
      else
        do! t := now in
        do! ' (err, _) := updateM UpdateNode
          (node <| n_Spec; ns_Desired := NodePhaseRunning |>
                <| n_Status; nst_Phase := NodePhasePending |>
                <| n_Status; nst_Message := "Starting node" |>
                <| n_Metadata; m_UpdatedAt := t |>) in
        match err with
        | Some e => done_with (Some (RpcErr Internal
            ("failed to update node " +:+ itoa (ns_Index (n_Spec node)) +:+ ": " +:+ Error e)))
        | None => start_nodes nodes
        end
  end.

Definition start_devnet (namespace name : string) (devnet : Devnet) (nodes : list Node)
    : M W (rpc ProtoDevnet) :=
  do! failed := start_nodes nodes in
  match failed with
  | Some r => done_with r
  | None =>
      do! t := now in
      do! ' (err, devnet) := updateM UpdateDevnet
        (devnet <| d_Status; dst_Phase := PhaseRunning |>
                <| d_Status; dst_Message := "Starting nodes" |>
                <| d_Metadata; m_UpdatedAt := t |>) in
      match err with
      | Some e => done_with (RpcErr Internal ("failed to update devnet: " +:+ Error e))
      | None =>
          run! (if has_manager
                then eachM nodes (λ node, enqueue "nodes"
                       (NodeKeyWithNamespace namespace name (ns_Index (n_Spec node))))
                else done_with tt) in
          done_with (RpcOk (DevnetToProto devnet))
      end
  end.

Definition StartDevnet_req (namespace name : string) : M W (rpc ProtoDevnet) :=
  name_required name (
    let namespace := if bool_decide (namespace = "") then DefaultNamespace else namespace in
    do! r := readM (GetDevnet namespace name) in
    match r with
    | Err e => done_with (get_failed name e)
    | Ok devnet =>
        do! l := readM (ListNodes namespace name) in
        match l with
        | Err e => done_with (RpcErr Internal ("failed to list nodes: " +:+ Error e))
        | Ok [] => done_with (RpcErr FailedPrecondition ("devnet " +:+ quote name +:+
            " has no nodes; use 'dvb provision' to create it first"))
        | Ok nodes => start_devnet namespace name devnet nodes
        end
    end).

Definition StopDevnet_req (namespace name : string) : M W (rpc ProtoDevnet) :=
  name_required name (
    let namespace := if bool_decide (namespace = "") then DefaultNamespace else namespace in
    do! r := readM (GetDevnet namespace name) in
    match r with
    | Err e => done_with (get_failed name e)
    | Ok devnet =>
        do! t := now in
        do! ' (err, devnet) := updateM UpdateDevnet
          (devnet <| d_Status; dst_Phase := PhaseStopped |>
                  <| d_Status; dst_Message := "Devnet stopped" |>
                  <| d_Status; dst_ReadyNodes := 0%Z |>
                  <| d_Metadata; m_UpdatedAt := t |>) in
        match err with
        | Some e => done_with (RpcErr Internal ("failed to update devnet: " +:+ Error e))
        | None =>
            run! enqueue_devnet namespace name in
            done_with (RpcOk (DevnetToProto devnet))
        end
    end).

(** The three conditional assignments of an update. *)
Definition apply_request (req : ApplyDevnetRequest) (existing : Devnet) : Devnet :=
  let existing := match ad_Spec req with
    | Some _ => existing <| d_Spec := specFromProto (ad_Spec req) |>
    | None => existing end in
  let existing := match ad_Labels req with
    | Some labels => existing <| d_Metadata; m_Labels := labels |>
    | None => existing end in
  match ad_Annotations req with
  | Some annotations => existing <| d_Metadata; m_Annotations := annotations |>
  | None => existing
  end.

(** [UpdateDevnet] of the store, the enqueueing, the answer. *)
Definition update_devnet (namespace : string) (req : ApplyDevnetRequest) (existing : Devnet)
    : M W (rpc ProtoDevnet) :=
  do! ' (err, devnet) := updateM UpdateDevnet (apply_request req existing) in
  match err with
  | Some e => done_with (RpcErr Internal ("failed to update devnet: " +:+ Error e))
  | None =>
      run! enqueue_devnet namespace (ad_Name req) in
      done_with (RpcOk (DevnetToProto devnet))
  end.

(** [Action] of the response. *)
Definition with_action (action : string) (r : rpc ProtoDevnet) : rpc (ProtoDevnet * string) :=
  match r with
  | RpcOk d => RpcOk (d, action)
  | RpcErr c m => RpcErr c m
  end.

Definition apply_devnet (namespace : string) (req : ApplyDevnetRequest)
    : M W (rpc (ProtoDevnet * string)) :=
  do! r := readM (GetDevnet namespace (ad_Name req)) in
  match r with
  | Err e =>
      if IsNotFound e then
        do! t := now in
        do! ' (err, devnet) := updateM CreateDevnet (ApplyRequestToDevnet t req) in
        match err with
        | Some e => done_with (RpcErr Internal ("failed to create devnet: " +:+ Error e))
        | None =>
            run! enqueue_devnet namespace (ad_Name req) in
            done_with (RpcOk (DevnetToProto devnet, "created"))
        end
      else done_with (RpcErr Internal ("failed to get devnet: " +:+ Error e))
  | Ok existing =>
      if specsEqual (d_Spec existing) (ad_Spec req) &&
         labelsEqual (m_Labels (d_Metadata existing)) (map_of (ad_Labels req)) &&
         labelsEqual (m_Annotations (d_Metadata existing)) (map_of (ad_Annotations req))
      then done_with (RpcOk (DevnetToProto existing, "unchanged"))
      else
        do! r := update_devnet namespace req existing in
        done_with (with_action "configured" r)
  end.

Definition ApplyDevnet_req (ctx : option UserInfo) (req : ApplyDevnetRequest)
    : M W (rpc (ProtoDevnet * string)) :=
  let namespace := if bool_decide (ad_Namespace req = "") then DefaultNamespace
                   else ad_Namespace req in
  match ante with
  | Some g => validated (ValidateApplyDevnet g ctx req) (apply_devnet namespace req)
  | None => name_required (ad_Name req) (apply_devnet namespace req)
  end.

Definition update_existing (namespace : string) (req : UpdateDevnetRequest)
    : M W (rpc ProtoDevnet) :=
  do! r := readM (GetDevnet namespace (ad_Name req)) in
  match r with
  | Err e => done_with
      (if IsNotFound e
       then RpcErr NotFound ("devnet " +:+ quote (ad_Name req) +:+ " not found in namespace "
                             +:+ quote namespace)
       else RpcErr Internal ("failed to get devnet: " +:+ Error e))
  | Ok existing => update_devnet namespace req existing
  end.

Definition UpdateDevnet_req (ctx : option UserInfo) (req : UpdateDevnetRequest)
    : M W (rpc ProtoDevnet) :=
  let namespace := if bool_decide (ad_Namespace req = "") then DefaultNamespace
                   else ad_Namespace req in
  match ante with
  | Some _ => validated (ValidateUpdateDevnet ctx req) (update_existing namespace req)
  | None => name_required (ad_Name req) (update_existing namespace req)
  end.

(** *** Deletion *)

Context {F : Type} `{Codec F persistedState}.
Variable save_answer : list SvcCall → io.
Variable dirEraser : option (string → list SvcCall → option error).

Abbreviation WA := (W * option (Allocator F))%type.

Definition on_world {A} (m : M W A) : M WA A :=
  λ '(w, a), let '(x, w) := m w in (x, (w, a)).

(** A cascade whose error is only logged. *)
Definition cascade (del : S → option error * S) : M W unit :=
  modifyM (λ w, w <| w_store := (del (w_store w)).2 |>).

(** [s.subnetAllocator.Release], its error only logged. *)
Definition release_subnet (namespace name : string) : M WA unit :=
  λ '(w, a),
    match a with
    | None => (tt, (w, None))
    | Some a =>
        let '(answer, w) := call_out save_answer CSave w in
        (tt, (w, Some (Release answer namespace name a).2))
    end.

Definition erase_dir (name : string) : M W unit :=
  match dirEraser with
  | None => done_with tt
  | Some erase => run! call_out (erase name) (CErase name) in done_with tt
  end.

Definition delete_devnet (namespace name : string) : M W (rpc bool) :=
  λ w,
    let '(err, s) := DeleteDevnet namespace name (w_store w) in
    let w := w <| w_store := s |> in
    match err with
    | Some e =>
        (if IsNotFound e then not_found name
         else RpcErr Internal ("failed to delete devnet: " +:+ Error e), w)
    | None => (run! enqueue_devnet namespace name in done_with (RpcOk true)) w
    end.

Definition DeleteDevnet_req (namespace name : string) : M WA (rpc bool) :=
  if bool_decide (name = "") then done_with (RpcErr InvalidArgument "name is required")
  else
    let namespace := if bool_decide (namespace = "") then DefaultNamespace else namespace in
    run! on_world (cascade (DeleteNodesByDevnet namespace name)) in
    run! on_world (cascade (DeleteUpgradesByDevnet namespace name)) in
    run! release_subnet namespace name in
    run! on_world (erase_dir name) in
    on_world (delete_devnet namespace name).
End service.

(** ** Label selectors read back *)

Definition one (c : ascii) : string := String c EmptyString.

Lemma indexOf_char c s :
  match indexOf s (one c) with
  | None => has_char c s = false
  | Some i => s = take_str i s +:+ String c (drop_str (i + 1) s) ∧
              has_char c (take_str i s) = false ∧
              Strings.String.length (drop_str (i + 1) s) < Strings.String.length s
  end.
Proof.
  induction s as [|a s IH]; [done|]. cbn [indexOf has_prefix one].
  destruct (decide (c = a)) as [->|Hne].
  - rewrite bool_decide_true by done. cbn. unfold drop_str. cbn.
    rewrite Nat.sub_0_r, substring_all. auto with lia.
  - rewrite bool_decide_false by done. cbn [andb].
    fold (one c). destruct (indexOf s (one c)) as [i|]; cbn [fmap option_fmap option_map].
    + destruct IH as (E & Hc & Hl).
      change (take_str (Datatypes.S i) (String a s)) with (String a (take_str i s)).
      change (drop_str (Datatypes.S i + 1) (String a s)) with (drop_str (i + 1) s).
      split_and!; [by rewrite E at 1| |simpl; lia].
      cbn [has_char]. by rewrite bool_decide_false.
    + cbn [has_char]. by rewrite bool_decide_false.
Qed.

(** The loop of [splitString] ends, in as many rounds as there are bytes at
    most, and cuts like [split_on]. *)
Lemma splitString_split_on c fuel s :
  Strings.String.length s < fuel → splitString fuel s (one c) = Some (split_on c s).
Proof.
  revert s; induction fuel as [|fuel IH]; intros s Hl; [lia|]. cbn [splitString].
  pose proof (indexOf_char c s) as Hi. destruct (indexOf s (one c)) as [i|].
  - destruct Hi as (E & Hc & Hd). cbn [Strings.String.length one].
    rewrite IH by lia. cbn. rewrite E at 3. by rewrite split_on_app.
  - by rewrite split_on_none.
Qed.

Definition no_space (s : string) : Prop := ∀ c, isSpace c = true → has_char c s = false.

Lemma trimSpace_id s : no_space s → trimSpace s = s.
Proof.
  unfold trimSpace. intros Hs.
  assert (H1 : trim_start s = s).
  { destruct s as [|c s]; [done|]. simpl. destruct (isSpace c) eqn:Hc; [|done].
    specialize (Hs c Hc). simpl in Hs. by rewrite bool_decide_true in Hs. }
  rewrite H1. clear H1. induction s as [|c s IH]; [done|]. simpl. rewrite IH.
  - destruct s; [|done]. destruct (isSpace c) eqn:Hc; [|done].
    specialize (Hs c Hc). simpl in Hs. by rewrite bool_decide_true in Hs.
  - intros c' Hc'. specialize (Hs c' Hc'). simpl in Hs. by apply orb_false_iff in Hs as [_ Hs].
Qed.

Lemma splitTrimmed_clean c s :
  no_space s → isSpace c = false → splitTrimmed s (one c) = split_on c s.
Proof.
  intros Hs Hc. unfold splitTrimmed. rewrite splitString_split_on by lia. cbn.
  rewrite <- (list_fmap_id (split_on c s)) at 2. apply list_fmap_ext.
  intros i x Hx%list_elem_of_lookup_2. apply trimSpace_id. intros c' Hc'.
  specialize (Hs c' Hc'). revert x Hx. clear i.
  assert (Hne : c' ≠ c) by congruence. revert Hs.
  induction s as [|a s IH]; simpl; intros Hs x Hx.
  - apply list_elem_of_singleton in Hx as ->. done.
  - apply orb_false_iff in Hs as [Ha Hs]. specialize (IH Hs).
    case_bool_decide.
    + apply elem_of_cons in Hx as [->|Hx]; [done|by apply IH].
    + destruct (split_on c s) as [|y l]; [by apply elem_of_nil in Hx|].
      apply elem_of_cons in Hx as [->|Hx]; [|apply IH; by right].
      simpl. rewrite Ha. apply IH. by left.
Qed.

Definition comma : ascii := ","%char.
Definition equals : ascii := "="%char.

(** A label a selector can name. *)
Definition plain_label (kv : string * string) : Prop :=
  kv.1 ≠ "" ∧
  ∀ s, s = kv.1 ∨ s = kv.2 → no_space s ∧ has_char comma s = false ∧ has_char equals s = false.

Definition label_pair (kv : string * string) : string := kv.1 +:+ String equals kv.2.
Definition format_selector (labels : list (string * string)) : string :=
  join (one comma) (label_pair <$> labels).

Lemma join_no_char c sep (l : list string) :
  has_char c sep = false → Forall (λ s, has_char c s = false) l → has_char c (join sep l) = false.
Proof.
  intros Hsep. induction 1 as [|s l Hs Hl IH]; [done|]. destruct l as [|t l]; [done|].
  change (join sep (s :: t :: l)) with (s +:+ sep +:+ join sep (t :: l)).
  by rewrite !has_char_app, Hs, Hsep, IH.
Qed.

Lemma join_not_empty sep s l : s ≠ "" → join sep (s :: l) ≠ "".
Proof. intros Hs. destruct s; [done|]. by destruct l. Qed.

Lemma split_join c (l : list string) :
  l ≠ [] → Forall (λ s, has_char c s = false) l → split_on c (join (one c) l) = l.
Proof.
  intros Hne. induction 1 as [|s l Hs Hl IH]; [done|]. destruct l as [|t l].
  - by apply split_on_none.
  - change (join (one c) (s :: t :: l)) with (s +:+ String c (join (one c) (t :: l))).
    rewrite split_on_app by done. by rewrite IH.
Qed.

Lemma label_pair_char c kv :
  c ≠ equals → has_char c kv.1 = false → has_char c kv.2 = false →
  has_char c (label_pair kv) = false.
Proof.
  intros Hc H1 H2. unfold label_pair. rewrite has_char_app, H1. simpl. by rewrite bool_decide_false.
Qed.

Lemma label_pair_split kv :
  plain_label kv → splitTrimmed (label_pair kv) (one equals) = [kv.1; kv.2] ∧ label_pair kv ≠ "".
Proof.
  intros [Hk Hp]. destruct (Hp kv.1 (or_introl eq_refl)) as (Hs1 & _ & He1).
  destruct (Hp kv.2 (or_intror eq_refl)) as (Hs2 & _ & He2). split.
  - rewrite splitTrimmed_clean; [|intros c Hc|done].
    + unfold label_pair. rewrite split_on_app by done. by rewrite split_on_none.
    + apply label_pair_char; [by intros ->|by apply Hs1|by apply Hs2].
  - unfold label_pair. by destruct kv.1.
Qed.

(** A selector written from labels without blanks, commas and equal signs is
    parsed back to them. *)
Theorem label_selector_roundtrip (labels : list (string * string)) :
  Forall plain_label labels → NoDup labels.*1 →
  parseLabelSelector (format_selector labels) = list_to_map labels.
Proof.
  intros Hl Hn. unfold parseLabelSelector, format_selector.
  destruct (decide (labels = [])) as [->|Hne]; [done|].
  assert (Hcomma : Forall (λ s, has_char comma s = false) (label_pair <$> labels)).
  { apply Forall_fmap. eapply Forall_impl; [exact Hl|]. intros kv [_ Hp]. simpl.
    apply label_pair_char; [done|apply Hp; by left|apply Hp; by right]. }
  assert (Hclean : no_space (join (one comma) (label_pair <$> labels))).
  { intros c Hc. apply join_no_char.
    - cbn [has_char one]. rewrite bool_decide_false; [done|]. by intros <-.
    - apply Forall_fmap. eapply Forall_impl; [exact Hl|]. intros kv [_ Hp]. simpl.
      apply label_pair_char; [intros ->; done|..]; apply Hp; auto. }
  rewrite bool_decide_false.
  2:{ destruct labels as [|kv labels]; [done|]. apply Forall_cons in Hl as [Hkv _].
      apply join_not_empty, label_pair_split, Hkv. }
  rewrite (splitTrimmed_clean comma) by done.
  rewrite (split_join comma); [|by destruct labels|done].
  rewrite foldl_fmap, <- (right_id_L ∅ (∪) (list_to_map labels)).
  rewrite <- fold_insert by done. generalize (∅ : gmap string string) as m. clear Hne Hcomma Hclean Hn.
  induction Hl as [|[k v] l Hkv Hl IH]; intros m; [done|]. simpl.
  destruct (label_pair_split (k, v) Hkv) as [Hs Hp]. rewrite bool_decide_false by done.
  change "=" with (one equals). rewrite Hs. cbn [fst snd]. destruct Hkv as [Hk _].
  rewrite bool_decide_true by done. apply IH.
Qed.

(** A filter without empty values selects the resources that have its labels. *)
Theorem matchesLabels_iff `{MapRange} (labels filter : gmap string string) :
  map_Forall (λ _ v, v ≠ "") filter →
  matchesLabels labels filter = true ↔ filter ⊆ labels.
Proof.
  intros Hf. unfold matchesLabels. rewrite forallb_forall, map_subseteq_spec. split.
  - intros Hall k v Hk. specialize (Hall (k, v)). simpl in Hall.
    ospecialize* Hall; [by apply list_elem_of_In, elem_of_range|].
    apply negb_true_iff, orb_false_iff in Hall as [_ Hv%bool_decide_eq_false].
    apply dec_stable in Hv. destruct (labels !! k); simpl in Hv; [by subst|].
    by destruct (Hf k v Hk).
  - intros Hsub [k v] Hin%list_elem_of_In%elem_of_range. apply Hsub in Hin. rewrite Hin. simpl.
    rewrite bool_decide_false by (intros ->; by rewrite lookup_empty in Hin).
    by rewrite bool_decide_false by (intros Hn; by apply Hn).
Qed.
