(* ===== verification/DevnetServiceSpec.v ===== *)
(** * What the devnet requests do

    Theorems on [DevnetService]: what each request leaves in the store and in
    the queue, and, with the controllers, what becomes of it.  Creating a devnet
    is followed to the Running devnet; deleting and stopping are followed to
    what they leave running. *)

From Stdlib Require Import Ascii.
From stdpp Require Import base tactics numbers list strings gmap.
From S2P Require Import Prelude Types MemStore Store Subnet Auth Ante Convert World.
From S2P Require Import NodeController ProvisionLogs DevnetController DevnetService.

(** The key [namespace/name] of the requests is the devnet's full name. *)
Lemma request_key ns name :
  (if bool_decide (ns = "") then DefaultNamespace else ns) +:+ "/" +:+ name = qualified ns name.
Proof. done. Qed.

Lemma devnet_id_key ns name d :
  m_Name (d_Metadata d) = name → or_default (m_Namespace (d_Metadata d)) = or_default ns →
  devnet_id d = qualified ns name.
Proof.
  intros <- Hns. unfold devnet_id. rewrite FullName_qualified. unfold qualified. by rewrite Hns.
Qed.

(** What the manager was asked to reconcile. *)
Definition asked {S T} (has_manager : bool) (ty key : string) (w w' : World S T) : Prop :=
  w_enqueued w' = w_enqueued w ++ (if has_manager then [(ty, key)] else []).

(** ** Creation *)

Section create.
Context {S : Type} `{StoreChanges S} `{MapRange}.
Variable ante : option (string → option error).
Variable has_manager : bool.
Implicit Types w : World S SvcCall.

(** The request passes the validation the service was built with. *)
Definition create_accepted (ctx : option UserInfo) (req : CreateDevnetRequest) : Prop :=
  match ante with
  | Some g => ValidateCreateDevnet g ctx req = None
  | None => cd_Name req ≠ ""
  end.

Definition new_devnet (req : CreateDevnetRequest) (d : Devnet) : Prop :=
  devnet_id d = qualified (cd_Namespace req) (cd_Name req) ∧
  m_Labels (d_Metadata d) = map_of (cd_Labels req) ∧
  d_Spec d = spec_of_request (cd_Spec req) ∧
  d_Status d = zero_devnet_status <| dst_Phase := PhasePending |>.

Lemma create_devnet_outcomes req w :
  store_wf (w_store w) →
  let v := store_view (w_store w) in
  let k := qualified (cd_Namespace req) (cd_Name req) in
  let '(r, w') := create_devnet has_manager (or_default (cd_Namespace req)) req w in
  store_wf (w_store w') ∧
  match r with
  | RpcOk pb => ∃ d, new_devnet req d ∧ pb = DevnetToProto d ∧ v_devnets v !! k = None ∧
      store_view (w_store w') = v <| v_devnets := <[k := d]> (v_devnets v) |> ∧
      asked has_manager "devnets" k w w'
  | RpcErr c _ => store_view (w_store w') = v ∧ w_enqueued w' = w_enqueued w ∧
      (is_Some (v_devnets v !! k) → c = AlreadyExists)
  end.
Proof.
  intros Hs v k. unfold create_devnet, now. rewrite !bindM_eq, updateM_eq. cbn [fst snd].
  set (t := w_clock w _). set (d0 := CreateRequestToDevnet t req).
  assert (Hk : devnet_id d0 = k).
  { apply devnet_id_key; [done|]. simpl.
    change (or_default (or_default (cd_Namespace req)) = or_default (cd_Namespace req)).
    apply or_default_idem. }
  cbn [w_clock w_ticks w_store].
  match goal with |- context [CreateDevnet ?t' d0 _] =>
    pose proof (CreateDevnet_spec t' d0 (w_store w) Hs) as Hc end. simpl in Hc |- *.
  destruct (CreateDevnet _ d0 (w_store w)) as [[e d] s] eqn:E. destruct Hc as (Hs' & Hsm & Hc).
  cbn [fst snd]. rewrite Hk in Hc. destruct e as [e|].
  - destruct Hc as [Hv Ha]. cbn. split; [done|].
    destruct (IsAlreadyExists e) eqn:Ee; (split_and!; [done|done|]); [done|].
    intros Hi. by specialize (Ha Hi).
  - destruct Hc as [Hn Hv]. unfold enqueue_devnet, asked. destruct has_manager; simpl;
      (split; [done|]; exists d; split_and!; [|done|done|done|by rewrite ?app_nil_r]).
    all: destruct Hsm as (Hm & Hsp & Hst); split_and!;
      [by transitivity (devnet_id d0); [apply same_meta_FullName|]| |done|done];
      by destruct Hm as (_ & _ & -> & _).
Qed.

Lemma CreateDevnet_accepted ctx req w r w' :
  CreateDevnet_req ante has_manager ctx req w = (RpcOk r, w') →
  create_devnet has_manager (or_default (cd_Namespace req)) req w = (RpcOk r, w').
Proof.
  unfold CreateDevnet_req. destruct ante as [g|].
  - intros Hr. by rewrite (validated_ok _ _ _ _ _ Hr) in Hr.
  - unfold name_required. by case_bool_decide.
Qed.

(** A create request is answered with a devnet exactly when it is valid and
    its name is free in its namespace and the store saves it: then the devnet
    of the request is stored, Pending, under namespace/name, nothing else
    changes, and that key is enqueued once.  A refused request changes nothing
    and enqueues nothing, and a name that is taken is answered AlreadyExists. *)
Theorem CreateDevnet_req_outcomes ctx req w :
  store_wf (w_store w) →
  let v := store_view (w_store w) in
  let k := qualified (cd_Namespace req) (cd_Name req) in
  let '(r, w') := CreateDevnet_req ante has_manager ctx req w in
  store_wf (w_store w') ∧
  match r with
  | RpcOk pb => create_accepted ctx req ∧ v_devnets v !! k = None ∧
      ∃ d, new_devnet req d ∧ pb = DevnetToProto d ∧
        store_view (w_store w') = v <| v_devnets := <[k := d]> (v_devnets v) |> ∧
        asked has_manager "devnets" k w w'
  | RpcErr c _ => store_view (w_store w') = v ∧ w_enqueued w' = w_enqueued w ∧
      (create_accepted ctx req → is_Some (v_devnets v !! k) → c = AlreadyExists)
  end.
Proof.
  intros Hs v k. unfold CreateDevnet_req, create_accepted, name_required, validated.
  change (if bool_decide (cd_Namespace req = "") then DefaultNamespace else cd_Namespace req)
    with (or_default (cd_Namespace req)).
  pose proof (create_devnet_outcomes req w Hs) as Hc. cbv zeta in Hc.
  destruct (create_devnet _ _ _ w) as [r w'] eqn:E.
  destruct ante as [g|].
  - destruct (ValidateCreateDevnet g ctx req) as [e|] eqn:V.
    + unfold ToGRPCError, done_with. by repeat case_match; split_and!.
    + rewrite E. destruct Hc as [Hs' Hc]. split; [done|].
      destruct r as [pb|c m]; [naive_solver|]. naive_solver.
  - case_bool_decide as Hn.
    + by split_and!.
    + rewrite E. destruct Hc as [Hs' Hc]. split; [done|]. destruct r as [pb|c m]; naive_solver.
Qed.
End create.

(** ** From the request to the Running devnet *)

Section provisioned.
Context {S : Type} `{StoreChanges S} `{!StoreLive S} `{MapRange}.
Variable ante : option (string → option error).
Variable provisioner : option (Provisioner S).
Hypothesis Hprov : ∀ p, provisioner = Some p → ProvisionerLaws p.

(** C33: Creating a devnet, then reconciling the key the request enqueued,
    provisions it: whenever the request is accepted (in a namespace without a
    slash), the first reconcile of its key calls [Provision] once and leaves the
    devnet with the requested spec Running with all its nodes, or Degraded with
    the error when [Provision] failed. *)
Theorem created_devnet_is_provisioned ctx req (w : World S SvcCall) pb w'
    (w2 : World S DevnetCall) logs :
  store_wf (w_store w) → no_slash (cd_Namespace req) →
  CreateDevnet_req ante true ctx req w = (RpcOk pb, w') →
  w_store w2 = w_store w' →
  ∃ key, asked true "devnets" key w w' ∧
    let '(e, (w3, _)) := Reconcile provisioner true key (w2, logs) in
    e = None ∧ ∃ r d, v_devnets (store_view (w_store w3)) !! key = Some d ∧
      d_Spec d = spec_of_request (cd_Spec req) ∧
      answered provisioner (w_trace w2) (w_trace w3) r ∧ provision_result r d.
Proof.
  intros Hs Hns Hr%CreateDevnet_accepted Hw.
  pose proof (create_devnet_outcomes true req w Hs) as Ho. cbv zeta in Ho. rewrite Hr in Ho.
  destruct Ho as (Hs' & d & (Hid & _ & Hsp & Hst) & _ & _ & Hv & Ha).
  exists (qualified (cd_Namespace req) (cd_Name req)). split; [done|].
  rewrite <- Hw in Hs', Hv.
  pose proof (reconcile_provisions provisioner true Hprov
    (qualified (cd_Namespace req) (cd_Name req)) (or_default (cd_Namespace req)) (cd_Name req)
    d w2 logs Hs' (parse_request_key _ _ Hns)) as Hp.
  destruct (Reconcile _ _ _ _) as [e [w3 logs']].
  rewrite qualified_default, Hv in Hp. simpl in Hp. rewrite lookup_insert_eq in Hp.
  specialize (Hp eq_refl). unfold dphase in Hp. rewrite Hst in Hp.
  specialize (Hp ltac:(set_solver)).
  destruct Hp as (He & r & d' & Hd & Hsp' & Ha' & Hr' & _).
  split; [done|]. exists r, d'. split_and!; [done|by rewrite Hsp', Hsp|done|done].
Qed.
End provisioned.

(** ** Apply *)

Section apply.
Context {S : Type} `{StoreChanges S} `{MapRange}.
Variable ante : option (string → option error).
Variable has_manager : bool.
Implicit Types w : World S SvcCall.

(** A key the store does not have is reconciled without any effect. *)
Lemma reconcile_absent provisioner key ns name (w : World S DevnetCall) logs :
  store_wf (w_store w) → parseDevnetKey key = (ns, name) →
  v_devnets (store_view (w_store w)) !! qualified ns name = None →
  Reconcile provisioner has_manager key (w, logs) = (None, (w, logs)).
Proof.
  intros Hs Hk Hn. unfold Reconcile. rewrite Hk.
  pose proof (GetDevnet_spec ns name (w_store w) Hs) as Hg. unfold get_spec in Hg.
  rewrite Hn in Hg. destruct Hg as (e & -> & He). by rewrite He.
Qed.

(** What [apply_devnet] does when it creates. *)
Lemma apply_created ns req w pb w' :
  store_wf (w_store w) →
  apply_devnet has_manager ns req w = (RpcOk (pb, "created"), w') →
  let v := store_view (w_store w) in
  v_devnets v !! qualified ns (ad_Name req) = None ∧ store_wf (w_store w') ∧
  asked has_manager "devnets" (ns +:+ "/" +:+ ad_Name req) w w' ∧
  ∃ t d, same_devnet (ApplyRequestToDevnet t req) d ∧ pb = DevnetToProto d ∧
    devnet_id d = qualified "" (ad_Name req) ∧
    v_devnets v !! qualified "" (ad_Name req) = None ∧
    store_view (w_store w') =
      v <| v_devnets := <[qualified "" (ad_Name req) := d]> (v_devnets v) |>.
Proof.
  intros Hs. unfold apply_devnet, readM, getM. rewrite bindM_eq. cbn [fst snd].
  pose proof (GetDevnet_spec ns (ad_Name req) (w_store w) Hs) as Hg. unfold get_spec in Hg.
  destruct (v_devnets (store_view (w_store w)) !! qualified ns (ad_Name req)) as [x|] eqn:Hx.
  { rewrite Hg. destruct (_ && _ && _) eqn:Hb; [intros [=]|].
    rewrite bindM_eq. cbn. destruct (update_devnet _ _ _ _ _) as [[?|??] w1]; by intros [=]. }
  destruct Hg as (e & -> & ->). unfold now. rewrite !bindM_eq, updateM_eq. cbn [fst snd].
  set (t := w_clock w _). cbn [w_clock w_ticks w_store].
  match goal with |- context [CreateDevnet ?t' (ApplyRequestToDevnet t req) _] =>
    pose proof (CreateDevnet_spec t' (ApplyRequestToDevnet t req) (w_store w) Hs) as Hc end.
  simpl in Hc |- *.
  destruct (CreateDevnet _ _ (w_store w)) as [[e1 d] s] eqn:E. destruct Hc as (Hs' & Hsm & Hc).
  cbn [fst snd]. destruct e1 as [e1|]; [by intros [=]|].
  destruct Hc as [Hn Hv]. unfold enqueue_devnet, asked.
  intros Heq. assert (Hw' : store_wf (w_store w') ∧ pb = DevnetToProto d ∧
    store_view (w_store w') = store_view s ∧
    w_enqueued w' = w_enqueued w ++
      (if has_manager then [("devnets", ns +:+ "/" +:+ ad_Name req)] else [])).
  { destruct has_manager; cbn in Heq; injection Heq as <- <-; by rewrite ?app_nil_r. }
  destruct Hw' as (Hs1 & -> & Hv' & Hq). split_and!; [done|done|done|].
  exists t, d. split_and!; [done|done| |done|by rewrite Hv', Hv].
  exact (devnet_id_key _ _ _ (proj1 (proj1 Hsm)) ltac:(destruct Hsm as ((_ & -> & _) & _); done)).
Qed.

(** [ApplyDevnet] of an accepted request. *)
Lemma ApplyDevnet_accepted ctx req w r w' :
  ApplyDevnet_req ante has_manager ctx req w = (RpcOk r, w') →
  ∀ w1, ApplyDevnet_req ante has_manager ctx req w1 =
        apply_devnet has_manager (or_default (ad_Namespace req)) req w1.
Proof.
  unfold ApplyDevnet_req. destruct ante as [g|].
  - intros Hr w1. by rewrite (validated_ok _ _ _ _ _ Hr).
  - unfold name_required. by case_bool_decide.
Qed.

(** An apply that creates a devnet creates it in the default namespace,
    whatever namespace the request names: with another namespace (without a
    slash) the devnet default/name is stored, the enqueued key namespace/name
    names no devnet, and the devnet controller does nothing for it. *)
Theorem ApplyDevnet_ignores_namespace ctx req w pb w' :
  store_wf (w_store w) → no_slash (ad_Namespace req) →
  or_default (ad_Namespace req) ≠ DefaultNamespace →
  ApplyDevnet_req ante has_manager ctx req w = (RpcOk (pb, "created"), w') →
  let key := qualified (ad_Namespace req) (ad_Name req) in
  asked has_manager "devnets" key w w' ∧
  (∃ d, store_view (w_store w') = store_view (w_store w) <| v_devnets :=
     <[DefaultNamespace +:+ "/" +:+ ad_Name req := d]> (v_devnets (store_view (w_store w))) |>) ∧
  ∀ provisioner (w2 : World S DevnetCall) logs, w_store w2 = w_store w' →
    Reconcile provisioner has_manager key (w2, logs) = (None, (w2, logs)).
Proof.
  intros Hs Hns Hd Hr. rewrite (ApplyDevnet_accepted _ _ _ _ _ Hr) in Hr.
  apply apply_created in Hr; [|done]. destruct Hr as (Hn & Hs' & Ha & t & d & _ & _ & _ & _ & Hv). rewrite qualified_default in Hn.
  split_and!; [done|by exists d|]. intros provisioner w2 logs Hw2.
  eapply reconcile_absent; [by rewrite Hw2|by apply parse_request_key|].
  rewrite qualified_default, Hw2, Hv. simpl. rewrite lookup_insert_ne; [done|].
  intros E. apply (qualified_inj "" (ad_Name req) (ad_Namespace req)) in E as [E _]; [|done|done].
  by apply Hd.
Qed.

Lemma labelsEqual_refl (m : gmap string string) : labelsEqual m m = true.
Proof.
  unfold labelsEqual. rewrite bool_decide_false by auto. apply forallb_forall.
  intros [k v] Hin%list_elem_of_In%elem_of_range. rewrite Hin. simpl.
  by rewrite bool_decide_false by auto.
Qed.

(** The devnet holds what the request asks for. *)
Definition as_requested (req : ApplyDevnetRequest) (d : Devnet) : Prop :=
  d_Spec d = specFromProto (ad_Spec req) ∧
  m_Labels (d_Metadata d) = map_of (ad_Labels req) ∧
  m_Annotations (d_Metadata d) = map_of (ad_Annotations req).

Lemma apply_stable ns req w d :
  store_wf (w_store w) → is_Some (ad_Spec req) → as_requested req d →
  v_devnets (store_view (w_store w)) !! qualified ns (ad_Name req) = Some d →
  apply_devnet has_manager ns req w = (RpcOk (DevnetToProto d, "unchanged"), w).
Proof.
  intros Hs [spec Hsp] (Hd & Hl & Ha) Hk. unfold apply_devnet, readM, getM. rewrite bindM_eq.
  cbn [fst snd]. pose proof (GetDevnet_spec ns (ad_Name req) (w_store w) Hs) as Hg.
  unfold get_spec in Hg. rewrite Hk in Hg. rewrite Hg, Hl, Ha, !labelsEqual_refl, Hsp.
  assert (specsEqual (d_Spec d) (Some spec) = true) as ->; [|done].
  apply specsEqual_iff. by rewrite Hd, Hsp.
Qed.

(** What [update_devnet] leaves of a stored devnet. *)
Lemma update_devnet_outcomes ns req d w :
  store_wf (w_store w) →
  let '(r, w') := update_devnet has_manager ns req d w in
  store_wf (w_store w') ∧
  match r with
  | RpcOk pb => ∃ d', same_devnet (apply_request req d) d' ∧ pb = DevnetToProto d' ∧
      only_devnet (devnet_id d) (store_view (w_store w)) (store_view (w_store w')) ∧
      v_devnets (store_view (w_store w')) !! devnet_id d = Some d' ∧
      asked has_manager "devnets" (ns +:+ "/" +:+ ad_Name req) w w'
  | RpcErr c _ => c = Internal ∧ store_view (w_store w') = store_view (w_store w) ∧
      w_enqueued w' = w_enqueued w
  end.
Proof.
  intros Hs. unfold update_devnet. rewrite bindM_eq, updateM_eq. cbn [fst snd].
  destruct (UpdateDevnet _ (apply_request req d) (w_store w)) as [[e d'] s] eqn:U.
  destruct (UpdateDevnet_frame _ _ _ _ _ _ Hs U) as (Hs' & Ho & He).
  assert (Hid : devnet_id (apply_request req d) = devnet_id d)
    by (unfold apply_request; by destruct (ad_Spec req), (ad_Labels req), (ad_Annotations req)).
  rewrite Hid in *. cbn [fst snd]. destruct e as [e|].
  - by split_and!.
  - destruct He as (Hsm & _ & Hl). unfold enqueue_devnet, asked.
    destruct has_manager; simpl; (split; [done|]); exists d';
      split_and!; try done; by rewrite app_nil_r.
Qed.

Lemma apply_request_as_requested req d d' :
  is_Some (ad_Spec req) → is_Some (ad_Labels req) → is_Some (ad_Annotations req) →
  same_devnet (apply_request req d) d' → as_requested req d'.
Proof.
  intros [sp Hsp] [l Hl] [an Ha] ((_ & _ & El & Ea) & Es & _). unfold as_requested.
  rewrite Es, El, Ea. unfold apply_request. by rewrite Hsp, Hl, Ha.
Qed.

(** Applying a request again leaves everything as it is and answers
    unchanged, when the request is for the default namespace, has a spec, and
    the first apply created the devnet or the request has labels and
    annotations. *)
Theorem ApplyDevnet_idempotent ctx req w pb act w' :
  store_wf (w_store w) → or_default (ad_Namespace req) = DefaultNamespace →
  is_Some (ad_Spec req) →
  act = "created" ∨ (is_Some (ad_Labels req) ∧ is_Some (ad_Annotations req)) →
  ApplyDevnet_req ante has_manager ctx req w = (RpcOk (pb, act), w') →
  ∃ pb', ApplyDevnet_req ante has_manager ctx req w' = (RpcOk (pb', "unchanged"), w').
Proof.
  intros Hs Hd Hsp Hact Hr. pose proof (ApplyDevnet_accepted _ _ _ _ _ Hr) as Heq.
  rewrite Heq, Hd in *. clear Heq.
  assert (Hend : ∀ d, store_wf (w_store w') → as_requested req d →
    v_devnets (store_view (w_store w')) !! qualified DefaultNamespace (ad_Name req) = Some d →
    ∃ pb', apply_devnet has_manager DefaultNamespace req w' = (RpcOk (pb', "unchanged"), w')).
  { intros d Hs' Hreq Hk. eexists. by apply apply_stable. }
  destruct (decide (act = "created")) as [->|Hne].
  { apply apply_created in Hr as (_ & Hs' & _ & t & d & Hsm & _ & _ & _ & Hv); [|done].
    apply (Hend d); [done| |by rewrite Hv; simpl; rewrite lookup_insert_eq].
    destruct Hsm as ((_ & _ & El & Ea) & Es & _). unfold as_requested.
    rewrite Es, El, Ea. simpl. by destruct Hsp as [sp ->]. }
  destruct Hact as [|[Hl Ha]]; [done|]. pose proof Hr as Hun. revert Hr.
  unfold apply_devnet, readM, getM. rewrite bindM_eq. cbn [fst snd].
  pose proof (GetDevnet_spec DefaultNamespace (ad_Name req) (w_store w) Hs) as Hg.
  unfold get_spec in Hg.
  destruct (v_devnets (store_view (w_store w)) !! qualified DefaultNamespace (ad_Name req))
    as [d|] eqn:Hk.
  - rewrite Hg. destruct (_ && _ && _) eqn:Hb.
    + intros [= <- <- <-]. eauto.
    + rewrite bindM_eq. pose proof (update_devnet_outcomes DefaultNamespace req d w Hs) as Ho.
      destruct (update_devnet _ _ _ _ _) as [[pb1|c m] w1]; intros [= <- <- <-].
      destruct Ho as (Hs' & d' & Hsm & _ & _ & Hk' & _).
      apply (Hend d'); [done|by eapply apply_request_as_requested|].
      destruct (store_keys (w_store w) Hs) as (Hkeys & _). by rewrite (Hkeys _ _ Hk).
  - destruct Hg as (e & -> & ->). rewrite !bindM_eq, updateM_eq. cbn [fst snd].
    destruct (CreateDevnet _ _ _) as [[[?|] ?] ?]; cbn [fst snd]; [by intros [=]|].
    rewrite bindM_eq. intros [=]. by subst.
Qed.

(** But an apply without labels to a devnet that has some never ends: each
    accepted apply saves the devnet again, with its old labels, answers
    configured and enqueues the devnet's key once more. *)
Theorem ApplyDevnet_without_labels ctx req d w pb act w' :
  store_wf (w_store w) → ad_Labels req = None →
  v_devnets (store_view (w_store w)) !! qualified (ad_Namespace req) (ad_Name req) = Some d →
  m_Labels (d_Metadata d) ≠ ∅ →
  ApplyDevnet_req ante has_manager ctx req w = (RpcOk (pb, act), w') →
  act = "configured" ∧ asked has_manager "devnets"
    (qualified (ad_Namespace req) (ad_Name req)) w w' ∧
  ∃ d', v_devnets (store_view (w_store w')) !! qualified (ad_Namespace req) (ad_Name req)
          = Some d' ∧ m_Labels (d_Metadata d') = m_Labels (d_Metadata d).
Proof.
  intros Hs Hl Hk Hne Hr. rewrite (ApplyDevnet_accepted _ _ _ _ _ Hr) in Hr. revert Hr.
  unfold apply_devnet, readM, getM. rewrite bindM_eq. cbn [fst snd].
  pose proof (GetDevnet_spec (or_default (ad_Namespace req)) (ad_Name req) (w_store w) Hs) as Hg.
  unfold get_spec in Hg. rewrite qualified_default, Hk in Hg. rewrite Hg, Hl. change (map_of None) with (∅ : gmap string string).
  assert (labelsEqual (m_Labels (d_Metadata d)) ∅ = false) as ->.
  { unfold labelsEqual. rewrite bool_decide_true; [done|].
    rewrite map_size_empty. by apply map_size_non_empty_iff. }
  rewrite andb_false_r. cbn [andb]. rewrite bindM_eq.
  pose proof (update_devnet_outcomes (or_default (ad_Namespace req)) req d w Hs) as Ho.
  destruct (update_devnet _ _ _ _ _) as [[pb1|c m] w1]; intros [= <- <- <-].
  destruct Ho as (_ & d' & ((_ & _ & El & _) & _) & _ & _ & Hk' & Ha).
  destruct (store_keys (w_store w) Hs) as (Hkeys & _). rewrite <- (Hkeys _ _ Hk) in Hk'.
  split_and!; [done|done|]. exists d'. split; [done|]. rewrite El.
  unfold apply_request. rewrite Hl. by destruct (ad_Spec req), (ad_Annotations req).
Qed.
End apply.

(** ** Deletion *)

Section delete.
Context {S : Type} `{StoreChanges S} `{MapRange} {F : Type} `{Codec F persistedState}.
Variable has_manager : bool.
Variable save_answer : list SvcCall → io.
Variable dirEraser : option (string → list SvcCall → option error).
Implicit Types w : World S SvcCall.

(** What the two cascades leave: nothing of another devnet goes, and all of
    this devnet goes when the store answers without an error. *)
Definition cascaded {R} (m m' : gmap string R) (belongs clear : R → Prop) (ok : Prop) : Prop :=
  m' ⊆ m ∧ ∀ k r, m !! k = Some r →
    (clear r → m' !! k = Some r) ∧ (ok → belongs r → m' !! k = None).

Lemma cascaded_spec {R} (sel : view → gmap string R) put belongs clear
    (del : S → option error * S) s :
  (∀ m v, sel (put m v) = m) →
  cascade_spec store_wf store_view sel put belongs clear del → store_wf s →
  store_wf (del s).2 ∧ (∃ m, store_view (del s).2 = put m (store_view s) ∨
                             store_view (del s).2 = store_view s) ∧
  cascaded (sel (store_view s)) (sel (store_view (del s).2)) belongs clear ((del s).1 = None).
Proof.
  intros Hput Hc Hs. specialize (Hc s Hs). destruct (del s) as [[e|] s']; simpl.
  - destruct Hc as [Hs' Hv]. rewrite Hv. split; [done|]. split; [by exists ∅; right|].
    split; [done|]. naive_solver.
  - destruct Hc as (Hs' & m & Hv & Hsub & Hm). rewrite Hv, Hput. split; [done|].
    split; [by exists m; left|]. split; [done|]. naive_solver.
Qed.

(** The world before the devnet itself is deleted. *)
Definition cleared (ns name : string) w w' : Prop :=
  let v := store_view (w_store w) in let v' := store_view (w_store w') in
  store_wf (w_store w') ∧ v_devnets v' = v_devnets v ∧ v_txs v' = v_txs v ∧
  cascaded (v_nodes v) (v_nodes v') (node_belongs ns name) (node_clear ns name)
    (∀ s : S, store_wf s → (DeleteNodesByDevnet ns name s).1 = None) ∧
  cascaded (v_upgrades v) (v_upgrades v') (upgrade_belongs ns name)
    (λ u, ¬ upgrade_belongs ns name u)
    (∀ s : S, store_wf s → (DeleteUpgradesByDevnet ns name s).1 = None).

Lemma cascades_clear ns name w :
  store_wf (w_store w) →
  cleared ns name w (cascade (DeleteUpgradesByDevnet ns name)
    (cascade (DeleteNodesByDevnet ns name) w).2).2.
Proof.
  intros Hs. unfold cleared. simpl.
  destruct (cascaded_spec v_nodes (λ m v, v <| v_nodes := m |>) _ _ _ (w_store w) ltac:(done)
    (DeleteNodesByDevnet_spec ns name) Hs) as (Hs1 & [m1 E1] & Hsub1 & Hc1).
  destruct (cascaded_spec v_upgrades (λ m v, v <| v_upgrades := m |>) _ _ _ _ ltac:(done)
    (DeleteUpgradesByDevnet_spec ns name) Hs1) as (Hs2 & [m2 E2] & Hsub2 & Hc2).
  set (s1 := (DeleteNodesByDevnet ns name (w_store w)).2) in *.
  set (s2 := (DeleteUpgradesByDevnet ns name s1).2) in *.
  assert (Ed : v_devnets (store_view s2) = v_devnets (store_view (w_store w)) ∧
    v_txs (store_view s2) = v_txs (store_view (w_store w)) ∧
    v_nodes (store_view s2) = v_nodes (store_view s1) ∧
    v_upgrades (store_view s1) = v_upgrades (store_view (w_store w))).
  { by destruct E1 as [E1|E1], E2 as [E2|E2]; rewrite ?E2, ?E1. }
  destruct Ed as (Ed & Et & En & Eu). rewrite Ed, Et, En. rewrite Eu in Hsub2, Hc2.
  unfold cascaded. split_and!; [done|done|done|done| |done|].
  - intros k n Hn. destruct (Hc1 k n Hn) as [Ha Hb]. split; [done|]. intros Hok.
    apply Hb, Hok, Hs.
  - intros k u Hu. destruct (Hc2 k u Hu) as [Ha Hb]. split; [done|]. intros Hok.
    apply Hb, Hok, Hs1.
Qed.

(** The subnet is released and the directory erased; the store stays. *)
Definition cleaned_up (ns name : string) w (a : option (Allocator F)) w' a' : Prop :=
  w_store w' = w_store w ∧ w_enqueued w' = w_enqueued w ∧
  match a with
  | None => a' = None
  | Some al => ∃ answer, a' = Some (Release answer ns name al).2
  end ∧
  (is_Some dirEraser → ∃ answer, CErase name answer ∈ w_trace w').

Lemma clean_up ns name w a :
  let '(_, (w1, a1)) := release_subnet save_answer ns name (w, a) in
  let '(_, w2) := erase_dir dirEraser name w1 in
  cleaned_up ns name w a w2 a1.
Proof.
  unfold release_subnet, erase_dir, cleaned_up.
  destruct a as [al|], dirEraser as [erase|]; simpl;
    split_and!; eauto; try by intros [? [=]].
  all: intros _; eexists; apply elem_of_app; right; by left.
Qed.

Lemma delete_devnet_outcomes ns name w :
  store_wf (w_store w) →
  let v := store_view (w_store w) in
  let k := qualified ns name in
  let '(r, w') := delete_devnet has_manager (or_default ns) name w in
  store_wf (w_store w') ∧ w_trace w' = w_trace w ∧
  match r with
  | RpcOk b => b = true ∧ is_Some (v_devnets v !! k) ∧
      store_view (w_store w') = v <| v_devnets := delete k (v_devnets v) |> ∧
      asked has_manager "devnets" k w w'
  | RpcErr c _ => store_view (w_store w') = v ∧ w_enqueued w' = w_enqueued w ∧
      (v_devnets v !! k = None → c = NotFound)
  end.
Proof.
  intros Hs v k. unfold delete_devnet.
  pose proof (DeleteDevnet_spec (or_default ns) name (w_store w) Hs) as Hd.
  rewrite qualified_default in Hd. simpl in Hd.
  destruct (DeleteDevnet _ name (w_store w)) as [[e|] s]; destruct Hd as [Hs' Hd].
  - destruct Hd as [Hv Hn]. unfold not_found. destruct (IsNotFound e) eqn:He; simpl;
      split_and!; try done. intros Hk. by specialize (Hn Hk).
  - destruct Hd as [Hk Hv]. unfold enqueue_devnet, asked. destruct has_manager; simpl;
      split_and!; try done; by rewrite app_nil_r.
Qed.

(** [DeleteDevnet] in its steps. *)
Lemma DeleteDevnet_req_eq ns name w a :
  name ≠ "" →
  DeleteDevnet_req has_manager save_answer dirEraser ns name (w, a) =
    let ns := or_default ns in
    let w1 := (cascade (DeleteUpgradesByDevnet ns name)
                (cascade (DeleteNodesByDevnet ns name) w).2).2 in
    let '(_, (w2, a2)) := release_subnet save_answer ns name (w1, a) in
    let '(_, w3) := erase_dir dirEraser name w2 in
    let '(r, w4) := delete_devnet has_manager ns name w3 in (r, (w4, a2)).
Proof.
  intros Hn. unfold DeleteDevnet_req. rewrite bool_decide_false by done.
  change (if bool_decide (ns = "") then DefaultNamespace else ns) with (or_default ns).
  cbv zeta. unfold bindM, on_world.
  destruct (cascade (DeleteNodesByDevnet _ _) w) as [[] wa]. cbn [fst snd].
  destruct (cascade (DeleteUpgradesByDevnet _ _) wa) as [[] wb]. cbn [fst snd].
  destruct (release_subnet _ _ _ _) as [[] [w2 a2]].
  destruct (erase_dir _ _ _) as [[] w3]. done.
Qed.

(** What a delete leaves, with the worlds after the cascades and the cleanup. *)
Lemma DeleteDevnet_req_cases ns name w a :
  store_wf (w_store w) → name ≠ "" →
  let v := store_view (w_store w) in
  let k := qualified ns name in
  let '(r, (w', a')) := DeleteDevnet_req has_manager save_answer dirEraser ns name (w, a) in
  let v' := store_view (w_store w') in
  (∃ w1 w2, cleared (or_default ns) name w w1 ∧
     cleaned_up (or_default ns) name w1 a w2 a' ∧
     v_nodes v' = v_nodes (store_view (w_store w1)) ∧
     v_upgrades v' = v_upgrades (store_view (w_store w1)) ∧
     w_trace w' = w_trace w2) ∧
  store_wf (w_store w') ∧ v_txs v' = v_txs v ∧
  match r with
  | RpcOk b => b = true ∧ is_Some (v_devnets v !! k) ∧ v_devnets v' = delete k (v_devnets v) ∧
      asked has_manager "devnets" k w w'
  | RpcErr c _ => v_devnets v' = v_devnets v ∧ w_enqueued w' = w_enqueued w ∧
      (v_devnets v !! k = None → c = NotFound)
  end.
Proof.
  intros Hs Hn v k. rewrite DeleteDevnet_req_eq by done. cbv zeta.
  set (w1 := (cascade (DeleteUpgradesByDevnet (or_default ns) name) _).2).
  pose proof (cascades_clear (or_default ns) name w Hs) as Hc. fold w1 in Hc.
  pose proof (clean_up (or_default ns) name w1 a) as Hu.
  destruct (release_subnet save_answer (or_default ns) name (w1, a)) as [[] [w2 a2]].
  destruct (erase_dir dirEraser name w2) as [[] w3].
  pose proof Hu as (E3 & Eq & _). pose proof Hc as (Hs1 & Hd1 & Ht1 & _).
  rewrite <- E3 in Hs1. pose proof (delete_devnet_outcomes ns name w3 Hs1) as Hd.
  destruct (delete_devnet has_manager (or_default ns) name w3) as [r w4].
  destruct Hd as (Hs4 & Ht4 & Hd). rewrite E3 in Hd, Hs1. cbv zeta in *. rewrite Hd1 in Hd. fold v k in Hd.
  assert (Hv : v_nodes (store_view (w_store w4)) = v_nodes (store_view (w_store w1)) ∧
    v_upgrades (store_view (w_store w4)) = v_upgrades (store_view (w_store w1)) ∧
    v_txs (store_view (w_store w4)) = v_txs (store_view (w_store w1))).
  { destruct r; [destruct Hd as (_ & _ & -> & _)|destruct Hd as [-> _]]; done. }
  destruct Hv as (Hvn & Hvu & Hvt). split.
  { exists w1, w3. by split_and!. }
  split; [done|]. split; [by rewrite Hvt, Ht1|]. destruct r as [b|c m].
  - destruct Hd as (-> & Hk & Hv & Ha). split_and!; [done|done|by rewrite Hv|].
    unfold asked in *. by rewrite Ha, Eq.
  - destruct Hd as (Hv & Hq & Hk). split_and!; [by rewrite Hv|by rewrite Hq, Eq|done].
Qed.

(** Deleting a devnet.  Nodes and upgrades of the devnet go, also when the
    devnet itself is not there; those of other devnets and all transactions
    stay.  The devnet goes exactly when the answer is Ok, and only then its key
    is enqueued; a devnet that is not stored is answered NotFound.  In either
    case the subnet is released and the directory of that name erased. *)
Theorem DeleteDevnet_req_outcomes ns name w a :
  store_wf (w_store w) → name ≠ "" →
  let v := store_view (w_store w) in
  let k := qualified ns name in
  let '(r, (w', a')) := DeleteDevnet_req has_manager save_answer dirEraser ns name (w, a) in
  let v' := store_view (w_store w') in
  store_wf (w_store w') ∧ v_txs v' = v_txs v ∧
  cascaded (v_nodes v) (v_nodes v') (node_belongs (or_default ns) name)
    (node_clear (or_default ns) name)
    (∀ s : S, store_wf s → (DeleteNodesByDevnet (or_default ns) name s).1 = None) ∧
  cascaded (v_upgrades v) (v_upgrades v') (upgrade_belongs (or_default ns) name)
    (λ u, ¬ upgrade_belongs (or_default ns) name u)
    (∀ s : S, store_wf s → (DeleteUpgradesByDevnet (or_default ns) name s).1 = None) ∧
  (∀ al, a = Some al → ∃ answer, a' = Some (Release answer (or_default ns) name al).2) ∧
  (is_Some dirEraser → ∃ answer, CErase name answer ∈ w_trace w') ∧
  match r with
  | RpcOk b => b = true ∧ is_Some (v_devnets v !! k) ∧ v_devnets v' = delete k (v_devnets v) ∧
      asked has_manager "devnets" k w w'
  | RpcErr c _ => v_devnets v' = v_devnets v ∧ w_enqueued w' = w_enqueued w ∧
      (v_devnets v !! k = None → c = NotFound)
  end.
Proof.
  intros Hs Hn. pose proof (DeleteDevnet_req_cases ns name w a Hs Hn) as Ho. cbv zeta in *.
  destruct (DeleteDevnet_req _ _ _ _ _ _) as [r [w' a']].
  destruct Ho as ((w1 & w2 & Hc & (_ & _ & Ha & Her) & Hvn & Hvu & Ht) & Hs' & Htx & Hr).
  destruct Hc as (_ & _ & _ & Hcn & Hcu). rewrite Hvn, Hvu, Ht.
  do 4 (split; [done|]). split; [|done]. by intros al ->.
Qed.

(** Deleting a devnet that is not stored in the namespace still erases the
    directory of that name, which a devnet of that name in another namespace
    uses: that devnet stays stored. *)
Theorem DeleteDevnet_erases_by_name ns ns' name d w a :
  store_wf (w_store w) → name ≠ "" → is_Some dirEraser →
  v_devnets (store_view (w_store w)) !! qualified ns name = None →
  v_devnets (store_view (w_store w)) !! qualified ns' name = Some d →
  let '(r, (w', _)) := DeleteDevnet_req has_manager save_answer dirEraser ns name (w, a) in
  (∃ msg, r = RpcErr NotFound msg) ∧
  (∃ answer, CErase name answer ∈ w_trace w') ∧
  v_devnets (store_view (w_store w')) !! qualified ns' name = Some d.
Proof.
  intros Hs Hn He Hk Hd. pose proof (DeleteDevnet_req_cases ns name w a Hs Hn) as Ho.
  cbv zeta in Ho. destruct (DeleteDevnet_req _ _ _ _ _ _) as [r [w' a']].
  destruct Ho as ((w1 & w2 & _ & (_ & _ & _ & Hc) & _ & _ & Ht) & _ & _ & Hr).
  rewrite Ht. destruct r as [b|c m].
  - destruct Hr as (_ & [x Hx] & _). congruence.
  - destruct Hr as (-> & _ & Hc'). split_and!; [|by apply Hc|done].
    exists m. by rewrite Hc'.
Qed.

(** After a successful delete no controller stops the devnet's processes:
    reconciling the enqueued key of the devnet, or the key of any node it had,
    makes no call of the provisioner or the runtime and changes nothing. *)
Theorem deleted_devnet_keeps_running ns name w a b w' a' :
  store_wf (w_store w) → no_slash ns → no_slash name → name ≠ "" →
  (∀ s : S, store_wf s → (DeleteNodesByDevnet (or_default ns) name s).1 = None) →
  DeleteDevnet_req has_manager save_answer dirEraser ns name (w, a) = (RpcOk b, (w', a')) →
  (∀ provisioner (wd : World S DevnetCall) logs, w_store wd = w_store w' →
    Reconcile provisioner has_manager (qualified ns name) (wd, logs) = (None, (wd, logs))) ∧
  ∀ n, node_belongs ns name n → int64_range (ns_Index (n_Spec n)) →
    v_nodes (store_view (w_store w)) !! node_id n = Some n →
    ∀ runtime (wn : World S NodeCall), w_store wn = w_store w' →
      NodeController.Reconcile runtime
        (NodeKeyWithNamespace ns name (ns_Index (n_Spec n))) wn = (None, wn).
Proof.
  intros Hs Hns Hname Hn Hok Hr. pose proof (DeleteDevnet_req_cases ns name w a Hs Hn) as Ho.
  cbv zeta in Ho. rewrite Hr in Ho.
  destruct Ho as ((w1 & w2 & (_ & _ & _ & [_ Hc] & _) & _ & Hvn & _) & Hs' & _ & _ & _ & Hd & _).
  split.
  - intros provisioner wd logs Hwd. eapply reconcile_absent; [by rewrite Hwd|
      by apply parse_request_key|].
    by rewrite qualified_default, Hwd, Hd, lookup_delete_eq.
  - intros n [Hbn Hbd] Hi Hk runtime wn Hwn. unfold NodeController.Reconcile.
    rewrite NodeKeyWithNamespace_parse by done. rewrite bindM_eq. unfold readM, getM. cbn [fst snd].
    pose proof (GetNode_spec (or_default ns) name (ns_Index (n_Spec n)) (w_store w') Hs') as Hg.
    unfold get_spec in Hg. destruct (Hc _ _ Hk) as [_ Hgone].
    assert (Hid : node_key (or_default ns) name (ns_Index (n_Spec n)) = node_id n).
    { unfold node_id. by rewrite Hbd, <- Hbn, node_key_default. }
    rewrite Hid, Hvn, Hgone in Hg; [|done|split; [by rewrite or_default_idem|done]].
    destruct Hg as (e & He & Hnf). by rewrite Hwn, He, Hnf.
Qed.
End delete.

(** ** Starting *)

Section start.
Context {S : Type} `{StoreSpec S} `{!StoreLive S}.
Implicit Types w : World S SvcCall.

Definition up (n : Node) : bool :=
  bool_decide (phase n = NodePhaseRunning) || bool_decide (phase n = NodePhaseStarting).

(** What the loop makes of a node: one that is up stays, another is Pending
    with desired state Running. *)
Definition start_result (n n' : Node) : Prop :=
  if up n then n' = n
  else phase n' = NodePhasePending ∧ n_Spec n' = n_Spec n <| ns_Desired := NodePhaseRunning |>.

(** The store after the loop. *)
Definition all_started (nodes : list Node) w w' : Prop :=
  let v := store_view (w_store w) in let v' := store_view (w_store w') in
  store_wf (w_store w') ∧ v_devnets v' = v_devnets v ∧ v_upgrades v' = v_upgrades v ∧
  v_txs v' = v_txs v ∧ w_enqueued w' = w_enqueued w ∧
  (∀ n, n ∈ nodes → ∃ n', v_nodes v' !! node_id n = Some n' ∧ node_id n' = node_id n ∧
     start_result n n') ∧
  (∀ k, k ∉ node_id <$> nodes → v_nodes v' !! k = v_nodes v !! k).

Lemma all_started_nil w : store_wf (w_store w) → all_started [] w w.
Proof. intros Hs. split_and!; try done. intros n Hn%elem_of_nil. done. Qed.

(** One node, then the rest. *)
Lemma all_started_cons n n' nodes w w1 w' :
  store_wf (w_store w1) → only_node (node_id n) (store_view (w_store w)) (store_view (w_store w1)) →
  w_enqueued w1 = w_enqueued w → v_nodes (store_view (w_store w1)) !! node_id n = Some n' →
  node_id n' = node_id n → start_result n n' → node_id n ∉ node_id <$> nodes →
  all_started nodes w1 w' → all_started (n :: nodes) w w'.
Proof.
  intros Hs1 (Ed & Eu & Et & Eo) Eq Hn' Hid Hr Hnot (Hs' & Ed' & Eu' & Et' & Eq' & Hall & Hk).
  split_and!; [done|congruence..| |].
  - intros m [->|Hm]%elem_of_cons; [|by apply Hall]. exists n'. by rewrite Hk.
  - intros k [Hne Hm]%not_elem_of_cons. by rewrite Hk, Eo.
Qed.

Lemma start_nodes_live nodes w :
  store_wf (w_store w) → NoDup (node_id <$> nodes) →
  (∀ n, n ∈ nodes → v_nodes (store_view (w_store w)) !! node_id n = Some n) →
  let '(r, w') := start_nodes nodes w in r = None ∧ all_started nodes w w'.
Proof.
  revert w. induction nodes as [|n nodes IH]; intros w Hs Hnd Hst.
  { split; [done|]. by apply all_started_nil. }
  apply NoDup_cons in Hnd as [Hn Hnd]. fold (node_id <$> nodes) in Hn, Hnd.
  cbn [start_nodes]. pose proof (Hst n ltac:(by left)) as Hin.
  change (bool_decide (nst_Phase (n_Status n) = NodePhaseRunning) ||
          bool_decide (nst_Phase (n_Status n) = NodePhaseStarting)) with (up n).
  destruct (up n) eqn:Hup.
  - specialize (IH w Hs Hnd ltac:(set_solver)). destruct (start_nodes nodes w) as [r w'].
    destruct IH as [-> IH]. split; [done|].
    eapply all_started_cons; try done. unfold start_result. by rewrite Hup.
  - unfold now. rewrite !bindM_eq, updateM_eq. cbn [fst snd]. set (t := w_clock w _).
    match goal with |- context [UpdateNode ?t' ?m _] => set (n1 := m); set (t1 := t') end.
    assert (Hid : node_id n1 = node_id n) by done.
    pose proof (UpdateNode_live t1 n1 n (w_store w) Hs Hin eq_refl) as Hl.
    cbn [w_store set eta_World]. simpl w_store in *.
    destruct (UpdateNode t1 n1 (w_store w)) as [[e n'] s] eqn:U. simpl in Hl. subst e.
    destruct (UpdateNode_frame _ _ _ _ _ _ Hs U) as (Hs1 & Ho & Hsm & _ & Hn').
    rewrite Hid in *. cbn [fst snd].
    match goal with |- context [start_nodes nodes ?x] => set (w1 := x) end.
    specialize (IH w1 Hs1 Hnd). ospecialize (IH _).
    { intros m Hm. destruct Ho as (_ & _ & _ & Ho). simpl. rewrite Ho; [apply Hst; by right|].
      intros E. apply Hn. rewrite <- E. by apply list_elem_of_fmap_2. }
    destruct (start_nodes nodes w1) as [r w']. destruct IH as [-> IH]. split; [done|].
    apply (all_started_cons n n' nodes w w1); [done|done|done|done| | |done|done].
    + rewrite <- Hid. by apply (key_same (R:=Node) (key:=node_id)).
    + unfold start_result. rewrite Hup. destruct Hsm as (_ & Hsp & Hss).
      unfold phase. by rewrite Hsp, Hss.
Qed.

(** The devnet and the enqueued keys, after the loop. *)
Lemma start_devnet_live ns name d nodes w :
  store_wf (w_store w) → v_devnets (store_view (w_store w)) !! devnet_id d = Some d →
  NoDup (node_id <$> nodes) →
  (∀ n, n ∈ nodes → v_nodes (store_view (w_store w)) !! node_id n = Some n) →
  ∃ d' w0 w', start_devnet true ns name d nodes w = (RpcOk (DevnetToProto d'), w') ∧
    all_started nodes w w0 ∧ store_wf (w_store w') ∧
    only_devnet (devnet_id d) (store_view (w_store w0)) (store_view (w_store w')) ∧
    v_devnets (store_view (w_store w')) !! devnet_id d = Some d' ∧ dphase d' = PhaseRunning ∧
    w_enqueued w' = w_enqueued w ++ ((λ n, ("nodes",
      NodeKeyWithNamespace ns name (ns_Index (n_Spec n)))) <$> nodes).
Proof.
  intros Hs Hd Hnd Hst. unfold start_devnet. rewrite bindM_eq.
  pose proof (start_nodes_live nodes w Hs Hnd Hst) as Hn.
  destruct (start_nodes nodes w) as [r w0]. destruct Hn as [-> Hn]. cbn [fst snd].
  pose proof Hn as (Hs0 & Ed & _ & _ & Eq & _). rewrite <- Ed in Hd.
  unfold now. rewrite !bindM_eq, updateM_eq. cbn [fst snd]. set (t := w_clock w0 _).
  match goal with |- context [UpdateDevnet ?t' ?m _] => set (d1 := m); set (t1 := t') end.
  pose proof (UpdateDevnet_live t1 d1 d (w_store w0) Hs0 Hd eq_refl) as Hl.
  change (w_store (w0 <| w_ticks := Datatypes.S (w_ticks w0) |>)) with (w_store w0).
  destruct (UpdateDevnet t1 d1 (w_store w0)) as [[e d'] s] eqn:U.
  simpl in Hl. subst e. cbn [fst snd].
  destruct (UpdateDevnet_frame _ _ _ _ _ _ Hs0 U) as (Hs1 & Ho & Hsm & _ & Hd').
  rewrite bindM_eq, (eachM_enqueue nodes (λ n, ("nodes",
    NodeKeyWithNamespace ns name (ns_Index (n_Spec n))))).
  exists d', w0. eexists. split; [reflexivity|].
  split_and!; [done|done|apply Ho..|done| |by rewrite <- Eq].
  destruct Hsm as (_ & _ & Hss). unfold dphase. by rewrite Hss.
Qed.
End start.

Section started.
Context {S : Type} `{StoreChanges S} `{!StoreLive S}.
Implicit Types w : World S SvcCall.

Lemma start_result_phase n n' :
  known_phase (phase n) → up n = false ∨ wants_running n = true → start_result n n' →
  known_phase (phase n') ∧ wants_running n' = true.
Proof.
  unfold start_result. destruct (up n).
  - by intros ? [?|?] ->.
  - intros _ _ [Hp Hsp]. rewrite Hp. split; [unfold known_phase; set_solver|].
    unfold wants_running. by rewrite Hsp.
Qed.

(** Starting a devnet starts its nodes.  On a live store, for a stored
    devnet with nodes, the request succeeds, the devnet is Running, and the key
    of every node is enqueued; and for every node of the devnet (with a key that
    can be parsed, in a known phase, and not up with a wish to stop), three
    reconciles of its key bring it to Running, given a runtime that starts
    nodes and keeps them running. *)
Theorem StartDevnet_starts_nodes ns name d nodes w :
  store_wf (w_store w) → name ≠ "" → no_slash ns → no_slash name →
  v_devnets (store_view (w_store w)) !! qualified ns name = Some d →
  ListNodes (or_default ns) name (w_store w) = Ok nodes → nodes ≠ [] →
  let key n := NodeKeyWithNamespace (or_default ns) name (ns_Index (n_Spec n)) in
  ∃ pb w', StartDevnet_req true ns name w = (RpcOk pb, w') ∧
    w_enqueued w' = w_enqueued w ++ ((λ n, ("nodes", key n)) <$> nodes) ∧
    (∃ d', v_devnets (store_view (w_store w')) !! qualified ns name = Some d' ∧
       dphase d' = PhaseRunning) ∧
    ∀ n, n ∈ nodes → node_belongs ns name n → int64_range (ns_Index (n_Spec n)) →
      known_phase (phase n) → up n = false ∨ wants_running n = true →
      ∀ runtime (wn : World S NodeCall), good_runtime runtime → w_store wn = w_store w' →
        let out := reconciles runtime 3 (key n) wn in
        out.1 = None ∧ ∃ n', v_nodes (store_view (w_store out.2)) !! node_id n = Some n' ∧
          phase n' = NodePhaseRunning.
Proof.
  intros Hs Hne Hns Hname Hd Hl Hnodes key. unfold StartDevnet_req, name_required.
  rewrite bool_decide_false by done.
  change (if bool_decide (ns = "") then DefaultNamespace else ns) with (or_default ns).
  unfold readM, getM. rewrite !bindM_eq. cbn [fst snd].
  pose proof (GetDevnet_spec (or_default ns) name (w_store w) Hs) as Hg. unfold get_spec in Hg.
  rewrite qualified_default, Hd in Hg. rewrite Hg, bindM_eq. cbn [fst snd]. rewrite Hl.
  assert (Hin : ∀ n, n ∈ nodes → v_nodes (store_view (w_store w)) !! node_id n = Some n).
  { intros n. by apply (ListNodes_spec _ _ _ _ Hs Hl). }
  destruct (store_keys (w_store w) Hs) as (Hkeys & _). pose proof (Hkeys _ _ Hd) as Hid.
  rewrite Hid in Hd.
  destruct (start_devnet_live (or_default ns) name d nodes w Hs Hd
    (ListNodes_NoDup _ _ _ _ Hs Hl) Hin)
    as (d' & w0 & w' & Hr & (_ & _ & _ & _ & _ & Hall & _) & Hs' & Ho & Hd' & Hp & Hq).
  exists (DevnetToProto d'), w'. split; [by destruct nodes|].
  split; [done|]. split; [by exists d'; rewrite Hid|].
  intros n Hn [Hbn Hbd] Hi Hk Hup runtime wn Hrt Hw. destruct (Hall n Hn) as (n' & Hn' & Hid' & Hres).
  destruct Ho as (Evn & _). rewrite <- Evn, <- Hw in Hn'. rewrite <- Hw in Hs'.
  destruct (start_result_phase n n' Hk Hup Hres) as [Hk' Hw'].
  destruct (reconciles_converge runtime (key n) (or_default ns) name (ns_Index (n_Spec n)) n' wn)
    as (n'' & Hn'' & He & _ & Hp'').
  - done.
  - unfold key. rewrite NodeKeyWithNamespace_parse, or_default_idem;
      [done|by apply no_slash_default|done|done].
  - rewrite Hid'. unfold node_id. by rewrite Hbd, <- Hbn, node_key_default.
  - split; [done|]. by rewrite Hid'.
  - done.
  - by rewrite Hw'.
  - cbv zeta. split; [done|]. exists n''. rewrite <- Hid'. split; [done|]. by rewrite Hp'', Hw'.
Qed.

(** Stopping a devnet stops no node: after the request the devnet is Stopped,
    its nodes are as they were, only the devnet's key is enqueued, and
    reconciling that key does nothing. *)
Theorem StopDevnet_stops_no_node ns name w pb w' :
  store_wf (w_store w) → no_slash ns →
  StopDevnet_req true ns name w = (RpcOk pb, w') →
  v_nodes (store_view (w_store w')) = v_nodes (store_view (w_store w)) ∧
  asked true "devnets" (qualified ns name) w w' ∧
  ∀ provisioner (wd : World S DevnetCall) logs, w_store wd = w_store w' →
    Reconcile provisioner true (qualified ns name) (wd, logs) = (None, (wd, logs)).
Proof.
  intros Hs Hns. unfold StopDevnet_req, name_required. case_bool_decide; [done|].
  change (if bool_decide (ns = "") then DefaultNamespace else ns) with (or_default ns).
  unfold readM, getM. rewrite !bindM_eq. cbn [fst snd].
  pose proof (GetDevnet_spec (or_default ns) name (w_store w) Hs) as Hg. unfold get_spec in Hg.
  rewrite qualified_default in Hg.
  destruct (v_devnets (store_view (w_store w)) !! qualified ns name) as [d|] eqn:Hd.
  2:{ destruct Hg as (e & -> & He). unfold get_failed. by rewrite He. }
  rewrite Hg. unfold now. rewrite !bindM_eq, updateM_eq. cbn [fst snd]. set (t := w_clock w _).
  match goal with |- context [UpdateDevnet ?t' ?m _] => set (d1 := m); set (t1 := t') end.
  change (w_store (w <| w_ticks := Datatypes.S (w_ticks w) |>)) with (w_store w).
  destruct (UpdateDevnet t1 d1 (w_store w)) as [[e d'] s] eqn:U. cbn [fst snd].
  destruct (UpdateDevnet_frame _ _ _ _ _ _ Hs U) as (Hs1 & (Evn & _) & He).
  destruct e as [e|]; [done|]. destruct He as (Hsm & _ & Hd'). intros [= _ <-].
  split_and!; [done|done|]. intros provisioner wd logs Hwd. simpl in Hwd.
  destruct (store_keys (w_store w) Hs) as (Hkeys & _). pose proof (Hkeys _ _ Hd) as Hid.
  unfold Reconcile. rewrite (parse_request_key ns name Hns).
  pose proof (GetDevnet_spec (or_default ns) name s Hs1) as Hg1. unfold get_spec in Hg1.
  rewrite qualified_default, Hid in Hg1. change (devnet_id d1) with (devnet_id d) in Hd'.
  rewrite Hd' in Hg1. rewrite Hwd, Hg1. destruct Hsm as (_ & _ & ->). simpl. done.
Qed.
End started.

(** *** Witnesses *)

#[local] Existing Instance some_order.

Definition svc_world (s : MemoryStore) : World MemoryStore SvcCall :=
  mkWorld s (λ n, Z.of_nat n) 0 [] [].

Lemma new_store_wf : store_wf NewMemoryStore.
Proof. split_and!; apply keyed_empty. Qed.

Definition ex_create : CreateDevnetRequest := mkCreateDevnetRequest "a" (Some ex_spec) None "".
Definition created : rpc ProtoDevnet * World MemoryStore SvcCall :=
  CreateDevnet_req (Some (λ _, None)) true (Some LocalUserInfo) ex_create (svc_world NewMemoryStore).

Lemma CreateDevnet_req_outcomes_witness :
  ∃ d, v_devnets (store_view (w_store created.2)) = {["default/a" := d]} ∧
    dst_Phase (d_Status d) = PhasePending ∧
    w_enqueued created.2 = [("devnets", "default/a")].
Proof.
  pose proof (CreateDevnet_req_outcomes (Some (λ _, None)) true (Some LocalUserInfo) ex_create
    (svc_world NewMemoryStore) new_store_wf) as Ho.
  unfold created. destruct (CreateDevnet_req _ _ _ _ _) as [r w'] eqn:E.
  destruct r as [pb|c m]; [|by vm_compute in E].
  destruct Ho as (_ & _ & _ & d & (_ & _ & _ & Hst) & _ & Hv & Ha).
  exists d. split; [exact (f_equal v_devnets Hv)|]. split; [by rewrite Hst|exact Ha].
Defined.

Lemma created_devnet_is_provisioned_witness :
  ∃ pb w', created = (RpcOk pb, w') ∧
  let '(e, (w3, _)) := Reconcile (Some ex_provisioner) true "default/a"
    (mkWorld (w_store w') (λ n, Z.of_nat n) 0 [] [], NoLogs) in
  e = None ∧ ∃ d, v_devnets (store_view (w_store w3)) !! "default/a" = Some d ∧
    d_Spec d = spec_of_request (Some ex_spec).
Proof.
  eexists _, _. split; [reflexivity|].
  pose proof (created_devnet_is_provisioned (S:=MemoryStore) (Some (λ _, None))
    (Some ex_provisioner) ex_provisioner_ok (Some LocalUserInfo) ex_create
    (svc_world NewMemoryStore) _ _ (mkWorld (w_store created.2) (λ n, Z.of_nat n) 0 [] []) NoLogs
    new_store_wf eq_refl eq_refl eq_refl) as (key & Ha & Hr).
  apply (app_inj_1 [] []) in Ha as [_ [= <-]]; [|done].
  destruct (Reconcile _ _ _ _) as [e [w3 logs]]. destruct Hr as (He & r & d & Hd & Hsp & _).
  split; [exact He|]. exists d. split; [exact Hd|exact Hsp].
Defined.

Definition ex_apply (ns : string) : ApplyDevnetRequest :=
  mkApplyDevnetRequest "a" (Some ex_spec) None None ns.
Definition applied (ns : string) : rpc (ProtoDevnet * string) * World MemoryStore SvcCall :=
  ApplyDevnet_req (Some (λ _, None)) true (Some ex_alice) (ex_apply ns) (svc_world NewMemoryStore).

(** Alice has access to team-a only; her devnet is created in default. *)
Lemma ApplyDevnet_ignores_namespace_witness :
  HasNamespaceAccess (Some ex_alice) "default" = false ∧
  ∃ d, v_devnets (store_view (w_store (applied "team-a").2)) = {["default/a" := d]} ∧
    w_enqueued (applied "team-a").2 = [("devnets", "team-a/a")].
Proof.
  split; [reflexivity|]. destruct (applied "team-a") as [r w'] eqn:E.
  assert (Hr : ∃ pb, r = RpcOk (pb, "created")).
  { apply (f_equal fst) in E. vm_compute in E. subst r. by eexists. }
  destruct Hr as [pb ->].
  destruct (ApplyDevnet_ignores_namespace (Some (λ _, None)) true (Some ex_alice)
    (ex_apply "team-a") (svc_world NewMemoryStore) pb w' new_store_wf eq_refl
    ltac:(discriminate) E) as (Ha & (d & Hv) & _).
  exists d. split; [exact (f_equal v_devnets Hv)|exact Ha].
Defined.

Lemma ApplyDevnet_idempotent_witness :
  let w' := (ApplyDevnet_req None true None (ex_apply "") (svc_world NewMemoryStore)).2 in
  ∃ pb, ApplyDevnet_req None true None (ex_apply "") w' = (RpcOk (pb, "unchanged"), w').
Proof.
  intros w'. eapply (ApplyDevnet_idempotent (S:=MemoryStore) None true None (ex_apply "")
    (svc_world NewMemoryStore) _ "created" w' new_store_wf eq_refl).
  - by eexists.
  - by left.
  - by vm_compute.
Defined.

(** A devnet with one node. *)
Definition ex_full : MemoryStore :=
  (MemStore.CreateNode ex_node (MemStore.CreateDevnet (example_devnet "" "d") NewMemoryStore).2).2.

Lemma ex_full_wf : store_wf ex_full.
Proof. split_and!; apply map_Forall_to_list; vm_compute; repeat constructor. Qed.

Definition deleted :=
  DeleteDevnet_req (F := persistedState) true (λ _, IoOk) (Some (λ _ _, None)) "" "d"
    (svc_world ex_full, Some fresh).

Lemma DeleteDevnet_req_outcomes_witness :
  deleted.1 = RpcOk true ∧ store_wf (w_store deleted.2.1) ∧
  v_nodes (store_view (w_store deleted.2.1)) = ∅ ∧
  v_devnets (store_view (w_store deleted.2.1)) = ∅.
Proof.
  pose proof (DeleteDevnet_req_outcomes (S:=MemoryStore) (F:=persistedState) true (λ _, IoOk)
    (Some (λ _ _, None)) "" "d" (svc_world ex_full) (Some fresh) ex_full_wf
    ltac:(discriminate)) as Ho. cbv zeta in Ho.
  destruct (DeleteDevnet_req _ _ _ _ _ _) as [r [w' a']] eqn:E.
  assert (Hw : deleted.2.1 = w') by (unfold deleted; by rewrite E).
  split; [vm_compute; reflexivity|]. split; [rewrite Hw; apply Ho|].
  split; vm_compute; reflexivity.
Defined.

Lemma deleted_devnet_keeps_running_witness :
  let w' := deleted.2.1 in
  NodeController.Reconcile (Some ex_runtime) "default/d/0"
    (mkWorld (w_store w') (λ n, Z.of_nat n) 0 [] []) =
    (None, mkWorld (w_store w') (λ n, Z.of_nat n) 0 [] []).
Proof.
  intros w'.
  destruct (deleted_devnet_keeps_running (S:=MemoryStore) (F:=persistedState) true (λ _, IoOk)
    (Some (λ _ _, None)) "" "d" (svc_world ex_full) (Some fresh) true w' (deleted.2.2)
    ex_full_wf eq_refl eq_refl ltac:(discriminate) ltac:(intros s _; reflexivity)
    ltac:(vm_compute; reflexivity)) as [_ Hn].
  apply (Hn ex_node').
  - split; reflexivity.
  - vm_compute. split; [discriminate|reflexivity].
  - vm_compute. reflexivity.
  - reflexivity.
Defined.

Lemma StartDevnet_starts_nodes_witness :
  ∃ pb w', StartDevnet_req true "" "d" (svc_world ex_full) = (RpcOk pb, w') ∧
    w_enqueued w' = [("nodes", "default/d/0")] ∧
    ∃ n, v_nodes (store_view (w_store (reconciles (Some ex_runtime) 3 "default/d/0"
      (mkWorld (w_store w') (λ n, Z.of_nat n) 0 [] [])).2)) !! "default/d/0" = Some n ∧
      phase n = NodePhaseRunning.
Proof.
  assert (Hd : v_devnets (store_view (w_store (svc_world ex_full))) !! qualified "" "d" =
    Some (example_devnet "default" "d")) by (vm_compute; reflexivity).
  assert (Hl : ListNodes (or_default "") "d" (w_store (svc_world ex_full)) = Ok [ex_node'])
    by (vm_compute; reflexivity).
  destruct (StartDevnet_starts_nodes (S:=MemoryStore) "" "d" (example_devnet "default" "d")
    [ex_node'] (svc_world ex_full) ex_full_wf ltac:(discriminate) eq_refl eq_refl Hd Hl
    ltac:(discriminate)) as (pb & w' & Hr & Hq & _ & Hn).
  exists pb, w'. split; [exact Hr|]. split; [exact Hq|].
  destruct (Hn ex_node') with (runtime := Some ex_runtime)
    (wn := mkWorld (S:=MemoryStore) (T:=NodeCall) (w_store w') (λ n, Z.of_nat n) 0 [] [])
    as (_ & n & Hk & Hp).
  - left.
  - split; reflexivity.
  - vm_compute. split; [discriminate|reflexivity].
  - left.
  - left. reflexivity.
  - split; [intros t n p; reflexivity|]. intros t i. eexists. split; reflexivity.
  - reflexivity.
  - exists n. split; [exact Hk|exact Hp].
Defined.

Lemma StopDevnet_stops_no_node_witness :
  let w' := (StopDevnet_req true "" "d" (svc_world ex_full)).2 in
  v_nodes (store_view (w_store w')) !! "default/d/0" = Some ex_node' ∧
  w_enqueued w' = [("devnets", "default/d")].
Proof.
  destruct (StopDevnet_req true "" "d" (svc_world ex_full)) as [r w'] eqn:E.
  assert (Hr : ∃ pb, r = RpcOk pb).
  { apply (f_equal fst) in E. vm_compute in E. subst r. by eexists. }
  destruct Hr as [pb ->].
  destruct (StopDevnet_stops_no_node (S:=MemoryStore) "" "d" (svc_world ex_full) pb w'
    ex_full_wf eq_refl E) as (Hn & Ha & _).
  split; [|exact Ha]. simpl snd. rewrite Hn. vm_compute. reflexivity.
Defined.

Lemma label_selector_roundtrip_witness :
  parseLabelSelector "env=test,tier=gold" = {["env" := "test"; "tier" := "gold"]}.
Proof.
  apply (label_selector_roundtrip [("env", "test"); ("tier", "gold")]).
  - assert (Hns : ∀ s, forallb (λ c, negb (has_char c s)) [" "; "009"; "010"; "013"]%char = true →
      no_space s).
    { intros s Hall c Hc. unfold isSpace in Hc. rewrite !orb_true_iff, !bool_decide_eq_true in Hc.
      rewrite forallb_forall in Hall. apply negb_true_iff, Hall, list_elem_of_In.
      assert (E : ∀ n, N_of_ascii c = n → c = ascii_of_N n)
        by (intros n <-; symmetry; apply Ascii.ascii_N_embedding).
      destruct Hc as [[[H|H]|H]|H]; apply E in H; rewrite H; vm_compute; set_solver. }
    repeat constructor; simpl; try discriminate; destruct H as [-> | ->];
      first [apply Hns; reflexivity|reflexivity].
  - repeat constructor; set_solver.
Defined.
