(* ===== verification/NodeService.v ===== *)
(** * The node service ([internal/daemon/server/node_service.go])

    The unary requests on one node.  Starting, stopping and restarting write the
    node's desired state and phase and enqueue its key; the node controller does
    the rest.  [StreamNodeLogs] copies a log file to a network stream and is not
    modelled. *)

From stdpp Require Import base tactics numbers list strings gmap.
From S2P Require Import Prelude Types MemStore Store Auth Ante Convert World NodeController.

(** [runtime.ExecResult]. *)
Record ExecResult := mkExecResult {
  er_ExitCode : Z;
  er_Stdout : string;
  er_Stderr : string
}.

(** The service's one call of the runtime, with its answer. *)
Inductive ExecCall :=
| CExecInNode (nodeID : string) (command : list string) (timeout : Duration)
    (answer : result ExecResult).

Record ExecInNodeRequest := mkExecInNodeRequest {
  ex_Node : NodeRequest;
  ex_Command : list string;
  ex_TimeoutSeconds : Z  (* int32 *)
}.

Record ExecInNodeResponse := mkExecInNodeResponse {
  xr_ExitCode : Z;  (* int32 *)
  xr_Stdout : string;
  xr_Stderr : string
}.

Record PortMapping := mkPortMapping {
  pm_Name : string;
  pm_ContainerPort : Z;
  pm_HostPort : Z;  (* int32 *)
  pm_Protocol : string
}.

Definition defaultP2PPort : Z := 26656.
Definition defaultRPCPort : Z := 26657.
Definition defaultRESTPort : Z := 1317.
Definition defaultGRPCPort : Z := 9090.

(** The switch of [GetNodeHealth]: status and message. *)
Definition node_health (node : Node) : string * string :=
  let phase := nst_Phase (n_Status node) in
  if bool_decide (phase = NodePhaseRunning) then ("Healthy", "Node is running normally")
  else if bool_decide (phase = NodePhaseCrashed) then ("Unhealthy", nst_Message (n_Status node))
  else if bool_decide (phase = NodePhaseStopped) then ("Stopped", "Node is stopped")
  else ("Transitioning", "Node is in " +:+ phase +:+ " phase").

(** [int32(node.Spec.Index * 100)]. *)
Definition port_offset (node : Node) : Z := wrap32 (wrap64 (ns_Index (n_Spec node) * 100)).

Definition node_ports (node : Node) : list PortMapping :=
  let offset := port_offset node in
  [mkPortMapping "p2p" defaultP2PPort (wrap32 (defaultP2PPort + offset)) "tcp";
   mkPortMapping "rpc" defaultRPCPort (wrap32 (defaultRPCPort + offset)) "tcp";
   mkPortMapping "rest" defaultRESTPort (wrap32 (defaultRESTPort + offset)) "tcp";
   mkPortMapping "grpc" defaultGRPCPort (wrap32 (defaultGRPCPort + offset)) "tcp"].

Section service.
Context {S : Type} `{Store S}.
Variable has_ante : bool.
Variable has_manager : bool.
(** [runtime.ExecInNode] of the runtime, if one is configured. *)
Variable exec : option (string → list string → Duration → list ExecCall → result ExecResult).

Abbreviation W := (World S ExecCall).

Definition devnet_required {A} (req : NodeRequest) (k : M W (rpc A)) : M W (rpc A) :=
  if bool_decide (nr_DevnetName req = "")
  then done_with (RpcErr InvalidArgument "devnet_name is required") else k.

Definition node_missing {A} (req : NodeRequest) : rpc A :=
  RpcErr NotFound ("node " +:+ nr_DevnetName req +:+ "/" +:+ itoa (nr_Index req) +:+ " not found").

(** [s.store.GetNode] with the errors it is answered with. *)
Definition with_node {A} (namespace : string) (req : NodeRequest) (k : Node → M W (rpc A))
    : M W (rpc A) :=
  do! r := readM (GetNode namespace (nr_DevnetName req) (nr_Index req)) in
  match r with
  | Err e => done_with (if IsNotFound e then node_missing req
                        else RpcErr Internal ("failed to get node: " +:+ Error e))
  | Ok node => k node
  end.

(** A read: the ante handler's check, or the name check. *)
Definition reading {A} (ctx : option UserInfo) (req : NodeRequest) (k : M W (rpc A))
    : M W (rpc A) :=
  if has_ante then validated (ValidateNodeRead ctx req) k else devnet_required req k.

Definition GetNode_req (ctx : option UserInfo) (req : NodeRequest) : M W (rpc ProtoNode) :=
  reading ctx req (with_node (nr_Namespace req) req (λ node,
    done_with (RpcOk (NodeToProto node)))).

Definition ListNodes_req (namespace devnetName : string) : M W (rpc (list ProtoNode)) :=
  if bool_decide (devnetName = "")
  then done_with (RpcErr InvalidArgument "devnet_name is required")
  else
    do! r := readM (GetDevnet namespace devnetName) in
    match r with
    | Err e => done_with
        (if IsNotFound e then RpcErr NotFound ("devnet " +:+ quote devnetName +:+ " not found")
         else RpcErr Internal ("failed to get devnet: " +:+ Error e))
    | Ok _ =>
        do! l := readM (ListNodes namespace devnetName) in
        done_with (match l with
          | Err e => RpcErr Internal ("failed to list nodes: " +:+ Error e)
          | Ok nodes => RpcOk (NodeToProto <$> nodes)
          end)
    end.

(** A change: validation, [GetNode], then [k] in the namespace. *)
Definition changing {A} (ctx : option UserInfo) (req : NodeRequest)
    (k : string → Node → M W (rpc A)) : M W (rpc A) :=
  let namespace := if bool_decide (nr_Namespace req = "") then DefaultNamespace
                   else nr_Namespace req in
  let body := with_node namespace req (k namespace) in
  if has_ante then λ w, validated (ValidateNodeChange ctx req (w_store w)) body w
  else devnet_required req body.

(** [UpdateNode], the enqueueing, the answer. *)
Definition save_node (namespace : string) (req : NodeRequest) (node : Node)
    : M W (rpc ProtoNode) :=
  do! ' (err, node) := updateM UpdateNode node in
  match err with
  | Some e => done_with (RpcErr Internal ("failed to update node: " +:+ Error e))
  | None =>
      run! (if has_manager
            then enqueue "nodes"
                   (NodeKeyWithNamespace namespace (nr_DevnetName req) (nr_Index req))
            else done_with tt) in
      done_with (RpcOk (NodeToProto node))
  end.

Definition already {A} (node : Node) : M W (rpc A) :=
  done_with (RpcErr FailedPrecondition ("node is already " +:+ nst_Phase (n_Status node))).

Definition StartNode_req (ctx : option UserInfo) (req : NodeRequest) : M W (rpc ProtoNode) :=
  changing ctx req (λ namespace node,
    let phase := nst_Phase (n_Status node) in
    if bool_decide (phase = NodePhaseRunning) || bool_decide (phase = NodePhaseStarting)
    then already node
    else save_node namespace req
           (node <| n_Spec; ns_Desired := NodePhaseRunning |>
                 <| n_Status; nst_Phase := NodePhasePending |>
                 <| n_Status; nst_Message := "Starting node" |>)).

Definition StopNode_req (ctx : option UserInfo) (req : NodeRequest) : M W (rpc ProtoNode) :=
  changing ctx req (λ namespace node,
    let phase := nst_Phase (n_Status node) in
    if bool_decide (phase = NodePhaseStopped) || bool_decide (phase = NodePhaseStopping)
    then already node
    else save_node namespace req
           (node <| n_Spec; ns_Desired := NodePhaseStopped |>
                 <| n_Status; nst_Phase := NodePhaseStopping |>
                 <| n_Status; nst_Message := "Stopping node" |>)).

Definition RestartNode_req (ctx : option UserInfo) (req : NodeRequest) : M W (rpc ProtoNode) :=
  changing ctx req (λ namespace node,
    save_node namespace req
      (node <| n_Spec; ns_Desired := NodePhaseRunning |>
            <| n_Status; nst_Phase := NodePhasePending |>
            <| n_Status; nst_Message := "Restarting node" |>
            <| n_Status; nst_RestartCount := wrap64 (nst_RestartCount (n_Status node) + 1) |>)).

Definition GetNodeHealth_req (ctx : option UserInfo) (req : NodeRequest)
    : M W (rpc (string * string)) :=
  reading ctx req (with_node (nr_Namespace req) req (λ node,
    done_with (RpcOk (node_health node)))).

Definition exec_in (node : Node) (req : ExecInNodeRequest) : M W (rpc ExecInNodeResponse) :=
  let phase := nst_Phase (n_Status node) in
  if bool_decide (phase ≠ NodePhaseRunning)
  then done_with (RpcErr FailedPrecondition
         ("node is not running (current phase: " +:+ phase +:+ ")"))
  else match exec with
  | None => done_with (RpcErr Unavailable "exec not available: no runtime configured")
  | Some exec =>
      let timeout := if bool_decide (0 < ex_TimeoutSeconds req)%Z
                     then wrap64 (ex_TimeoutSeconds req * second) else (30 * second)%Z in
      let name := m_Name (n_Metadata node) in
      let nodeID := if bool_decide (name = "")
                    then NodeKey (nr_DevnetName (ex_Node req)) (nr_Index (ex_Node req))
                    else name in
      do! r := call_out (exec nodeID (ex_Command req) timeout)
                        (CExecInNode nodeID (ex_Command req) timeout) in
      done_with (match r with
        | Err e => RpcErr Internal ("exec failed: " +:+ Error e)
        | Ok x => RpcOk (mkExecInNodeResponse (wrap32 (er_ExitCode x)) (er_Stdout x) (er_Stderr x))
        end)
  end.

Definition ExecInNode_req (req : ExecInNodeRequest) : M W (rpc ExecInNodeResponse) :=
  devnet_required (ex_Node req) (
    if bool_decide (ex_Command req = [])
    then done_with (RpcErr InvalidArgument "command is required")
    else with_node (nr_Namespace (ex_Node req)) (ex_Node req) (λ node, exec_in node req)).

(** The request has no namespace: the default one is meant. *)
Definition GetNodePorts_req (req : NodeRequest) : M W (rpc (list PortMapping)) :=
  devnet_required req (with_node "" req (λ node, done_with (RpcOk (node_ports node)))).
End service.

(** ** What the requests do *)

Section outcomes.
Context {S : Type} `{StoreSpec S} `{!StoreLive S}.
Variable has_ante has_manager : bool.
Implicit Types w : World S ExecCall.

(** The request passes the checks of the service. *)
Definition change_accepted (ctx : option UserInfo) (req : NodeRequest) w : Prop :=
  if has_ante then ValidateNodeChange ctx req (w_store w) = None else nr_DevnetName req ≠ "".

Definition request_key (req : NodeRequest) : string :=
  node_key (nr_Namespace req) (nr_DevnetName req) (nr_Index req).

(** The key the controller is given. *)
Definition controller_key (req : NodeRequest) : string :=
  NodeKeyWithNamespace (or_default (nr_Namespace req)) (nr_DevnetName req) (nr_Index req).

(** An accepted change runs on the stored node. *)
Lemma changing_stored {A} ctx req (k : string → Node → M (World S ExecCall) (rpc A)) n w :
  store_wf (w_store w) → change_accepted ctx req w →
  v_nodes (store_view (w_store w)) !! request_key req = Some n →
  changing has_ante ctx req k w = k (or_default (nr_Namespace req)) n w.
Proof.
  intros Hs Ha Hn. unfold changing, change_accepted in *.
  assert (Hw : with_node (or_default (nr_Namespace req)) req (k (or_default (nr_Namespace req))) w
    = k (or_default (nr_Namespace req)) n w).
  { unfold with_node, readM, getM. rewrite bindM_eq. cbn [fst snd].
    pose proof (GetNode_spec (or_default (nr_Namespace req)) (nr_DevnetName req) (nr_Index req)
      (w_store w) Hs) as Hg. unfold get_spec in Hg. rewrite node_key_default in Hg.
    unfold request_key in Hn. rewrite Hn in Hg. by rewrite Hg. }
  destruct has_ante.
  - rewrite Ha. exact Hw.
  - unfold devnet_required. by rewrite bool_decide_false.
Qed.

(** Any other change is refused and changes nothing. *)
Lemma changing_refused {A} ctx req (k : string → Node → M (World S ExecCall) (rpc A)) w :
  store_wf (w_store w) →
  ¬ (change_accepted ctx req w ∧ is_Some (v_nodes (store_view (w_store w)) !! request_key req)) →
  ∃ c m, changing has_ante ctx req k w = (RpcErr c m, w).
Proof.
  intros Hs Hnot. unfold changing, change_accepted in *.
  assert (Hw : ¬ is_Some (v_nodes (store_view (w_store w)) !! request_key req) →
    ∃ c m, with_node (or_default (nr_Namespace req)) req (k (or_default (nr_Namespace req))) w =
           (RpcErr c m, w)).
  { intros Hn%eq_None_not_Some. unfold with_node, readM, getM. rewrite bindM_eq. cbn [fst snd].
    pose proof (GetNode_spec (or_default (nr_Namespace req)) (nr_DevnetName req) (nr_Index req)
      (w_store w) Hs) as Hg. unfold get_spec in Hg. rewrite node_key_default in Hg.
    unfold request_key in Hn. rewrite Hn in Hg. destruct Hg as (e & -> & ->).
    unfold node_missing. eauto. }
  destruct has_ante.
  - destruct (ValidateNodeChange ctx req (w_store w)) as [e|] eqn:V.
    + destruct (validated_refused (Some e) (with_node (or_default (nr_Namespace req)) req
        (k (or_default (nr_Namespace req)))) w) as [E|E]; [|exact E].
      unfold validated, ToGRPCError, done_with. destruct e; eauto.
    + apply Hw. tauto.
  - unfold devnet_required. case_bool_decide; [unfold done_with; eauto|]. apply Hw. tauto.
Qed.

(** Saving the changed node of a live store. *)
Lemma save_node_live req n n1 w :
  store_wf (w_store w) → v_nodes (store_view (w_store w)) !! request_key req = Some n →
  n_Metadata n1 = n_Metadata n → node_id n1 = node_id n →
  ∃ n' w', save_node has_manager (or_default (nr_Namespace req)) req n1 w =
      (RpcOk (NodeToProto n'), w') ∧ same_node n1 n' ∧ store_wf (w_store w') ∧
    only_node (request_key req) (store_view (w_store w)) (store_view (w_store w')) ∧
    v_nodes (store_view (w_store w')) !! request_key req = Some n' ∧
    node_id n' = request_key req ∧
    w_enqueued w' = w_enqueued w ++
      (if has_manager then [("nodes", controller_key req)] else []).
Proof.
  intros Hs Hn Hm Hid. unfold save_node. rewrite bindM_eq, updateM_eq. cbn [fst snd].
  destruct (store_keys (w_store w) Hs) as (_ & Hkeys & _). pose proof (Hkeys _ _ Hn) as Hk.
  rewrite Hk in Hn. set (t := w_clock w _).
  pose proof (UpdateNode_live t n1 n (w_store w) Hs) as Hl. rewrite Hid in Hl.
  specialize (Hl Hn ltac:(by rewrite Hm)).
  destruct (UpdateNode t n1 (w_store w)) as [[e n'] s] eqn:U. simpl in Hl. subst e.
  destruct (UpdateNode_frame _ _ _ _ _ _ Hs U) as (Hs' & Ho & Hsm & _ & Hn').
  rewrite Hid in *. rewrite Hk. cbn [fst snd].
  assert (Hid' : node_id n' = node_id n).
  { rewrite <- Hid. by apply (key_same (R:=Node) (key:=node_id)). }
  destruct has_manager; eexists n', _; (split; [reflexivity|]); split_and!; try done; simpl;
    by rewrite ?app_nil_r.
Qed.

(** The controller finds the node under the key it was given. *)
Lemma request_reconciled req n runtime (wn : World S NodeCall) :
  no_slash (nr_Namespace req) → no_slash (nr_DevnetName req) → int64_range (nr_Index req) →
  stored n wn → node_id n = request_key req →
  Reconcile runtime (controller_key req) wn = reconcile_node runtime n wn.
Proof.
  intros Hns Hd Hi Hn Hid.
  eapply (Reconcile_live runtime _ (or_default (nr_Namespace req)) (nr_DevnetName req)
    (nr_Index req)); [|by rewrite Hid, node_key_default|done].
  unfold controller_key. rewrite NodeKeyWithNamespace_parse, or_default_idem;
    [done|by apply no_slash_default|done|done].
Qed.

(** Starting a node.  A node that is Running or Starting is answered
    FailedPrecondition and nothing changes; any other stored node gets the
    desired state Running and its key is enqueued, and the controller's next
    reconcile of that key starts it, given a runtime that starts nodes. *)
Theorem StartNode_req_starts ctx req n w :
  store_wf (w_store w) → change_accepted ctx req w →
  no_slash (nr_Namespace req) → no_slash (nr_DevnetName req) → int64_range (nr_Index req) →
  v_nodes (store_view (w_store w)) !! request_key req = Some n →
  if bool_decide (phase n = NodePhaseRunning) || bool_decide (phase n = NodePhaseStarting)
  then ∃ m, StartNode_req has_ante has_manager ctx req w = (RpcErr FailedPrecondition m, w)
  else ∃ pb w', StartNode_req has_ante has_manager ctx req w = (RpcOk pb, w') ∧
    w_enqueued w' = w_enqueued w ++
      (if has_manager then [("nodes", controller_key req)] else []) ∧
    ∀ runtime (wn : World S NodeCall), good_runtime runtime → w_store wn = w_store w' →
      let out := Reconcile runtime (controller_key req) wn in
      out.1 = None ∧ ∃ n', v_nodes (store_view (w_store out.2)) !! request_key req = Some n' ∧
        phase n' = NodePhaseRunning ∧ ns_Desired (n_Spec n') = NodePhaseRunning.
Proof.
  intros Hs Ha Hns Hd Hi Hn. unfold StartNode_req.
  rewrite (changing_stored ctx req _ n w Hs Ha Hn). fold (phase n).
  destruct (_ || _); [unfold already, done_with; eauto|].
  match goal with |- context [save_node _ _ _ ?m] => set (n1 := m) end.
  destruct (save_node_live req n n1 w Hs Hn eq_refl eq_refl)
    as (n' & w' & Hr & (_ & Hsp & Hst) & Hs' & _ & Hn' & Hid & Hq).
  exists (NodeToProto n'), w'. split; [done|]. split; [done|]. intros runtime wn Hrt Hw.
  assert (Hstored : stored n' wn) by (split; rewrite Hw; [|rewrite Hid]; done).
  cbv zeta. rewrite (request_reconciled req n' runtime wn Hns Hd Hi Hstored Hid).
  assert (Hp : phase n' = NodePhasePending) by (unfold phase; by rewrite Hst).
  assert (Hwant : wants_running n' = true) by (unfold wants_running; by rewrite Hsp).
  destruct (reconcile_node_live runtime Hrt n' wn Hstored) as (He & n'' & [_ Hs''] & Hid'' & Hsp'' & Hp'').
  - rewrite Hp. unfold known_phase. set_solver.
  - by rewrite Hwant.
  - split; [done|]. exists n''. rewrite <- Hid, <- Hid''. split_and!; [done| |by rewrite Hsp'', Hsp].
    by rewrite Hp'', Hwant, Hp.
Qed.

(** Stopping a node.  A node that is Stopped or Stopping is answered
    FailedPrecondition and nothing changes; any other stored node gets the
    desired state Stopped and its key is enqueued, and the controller's next
    reconcile of that key asks the runtime once to stop the node gracefully,
    and records it as Stopped without a process whatever the runtime answers. *)
Theorem StopNode_req_stops ctx req n w :
  store_wf (w_store w) → change_accepted ctx req w →
  no_slash (nr_Namespace req) → no_slash (nr_DevnetName req) → int64_range (nr_Index req) →
  v_nodes (store_view (w_store w)) !! request_key req = Some n →
  if bool_decide (phase n = NodePhaseStopped) || bool_decide (phase n = NodePhaseStopping)
  then ∃ m, StopNode_req has_ante has_manager ctx req w = (RpcErr FailedPrecondition m, w)
  else ∃ pb w', StopNode_req has_ante has_manager ctx req w = (RpcOk pb, w') ∧
    w_enqueued w' = w_enqueued w ++
      (if has_manager then [("nodes", controller_key req)] else []) ∧
    ∀ r (wn : World S NodeCall), w_store wn = w_store w' →
      let out := Reconcile (Some r) (controller_key req) wn in
      let answer := StopNode r (w_trace wn) (m_Name (n_Metadata n)) true in
      out.1 = None ∧
      w_trace out.2 = w_trace wn ++ [CStopNode (m_Name (n_Metadata n)) true answer] ∧
      ∃ n', v_nodes (store_view (w_store out.2)) !! request_key req = Some n' ∧
        phase n' = NodePhaseStopped ∧ pid n' = 0%Z ∧ ns_Desired (n_Spec n') = NodePhaseStopped.
Proof.
  intros Hs Ha Hns Hd Hi Hn. unfold StopNode_req.
  rewrite (changing_stored ctx req _ n w Hs Ha Hn). fold (phase n).
  destruct (_ || _); [unfold already, done_with; eauto|].
  match goal with |- context [save_node _ _ _ ?m] => set (n1 := m) end.
  destruct (save_node_live req n n1 w Hs Hn eq_refl eq_refl)
    as (n' & w' & Hr & ((Hname & _) & Hsp & Hst) & Hs' & _ & Hn' & Hid & Hq).
  exists (NodeToProto n'), w'. split; [done|]. split; [done|]. intros r wn Hw.
  assert (Hstored : stored n' wn) by (split; rewrite Hw; [|rewrite Hid]; done).
  cbv zeta. rewrite (request_reconciled req n' (Some r) wn Hns Hd Hi Hstored Hid).
  unfold reconcile_node. rewrite Hst. cbn [n_Status nst_Phase n1 set eta_Node eta_NodeStatus].
  change (nst_Phase (n_Status n1)) with NodePhaseStopping.
  do 4 (rewrite bool_decide_false by done). cbn [orb]. rewrite bool_decide_true by done.
  unfold reconcileStopping, stop_node, call_out. rewrite bindM_eq. cbn [fst snd].
  assert (Hnm : m_Name (n_Metadata n') = m_Name (n_Metadata n)) by exact Hname.
  rewrite Hnm. unfold SaveNode. rewrite saveM_eq. cbn [fst snd].
  match goal with |- context [UpdateNode ?t' ?m _] => set (n2 := m); set (t2 := t') end.
  change (w_store (wn <| w_trace := _ |>)) with (w_store wn). destruct Hstored as [Hswn Hnwn].
  pose proof (UpdateNode_live t2 n2 n' (w_store wn) Hswn Hnwn eq_refl) as Hl.
  destruct (UpdateNode t2 n2 (w_store wn)) as [[e n3] s3] eqn:U. simpl in Hl. subst e.
  destruct (UpdateNode_frame _ _ _ _ _ _ Hswn U) as (_ & _ & (_ & Hsp3 & Hst3) & _ & Hn3).
  split; [done|]. split; [done|]. exists n3. change (node_id n2) with (node_id n') in Hn3.
  rewrite Hid in Hn3. split_and!; [done| | |].
  - unfold phase. by rewrite Hst3.
  - unfold pid. by rewrite Hst3.
  - rewrite Hsp3. change (n_Spec n2) with (n_Spec n'). by rewrite Hsp.
Qed.

(** A pending node that should run and that the runtime refuses to start: the
    start is the one call of the runtime, and the node is recorded as Crashed
    with the process identifier it had. *)
Lemma pending_start_refused r e n (wn : World S NodeCall) :
  stored n wn → phase n = NodePhasePending → wants_running n = true →
  (∀ t m, m_Name (n_Metadata m) = m_Name (n_Metadata n) →
     NodeController.StartNode r t m RtDefaultRestartPolicy = Some e) →
  let out := reconcile_node (Some r) n wn in
  out.1 = None ∧
  (∃ m, m_Name (n_Metadata m) = m_Name (n_Metadata n) ∧
     w_trace out.2 = w_trace wn ++ [CStartNode m RtDefaultRestartPolicy (Some e)]) ∧
  ∃ n', v_nodes (store_view (w_store out.2)) !! node_id n = Some n' ∧
    phase n' = NodePhaseCrashed ∧ pid n' = pid n ∧ n_Spec n' = n_Spec n ∧
    nst_RestartCount (n_Status n') = nst_RestartCount (n_Status n).
Proof.
  intros Hst Hp Hw Hr. cbv zeta. unfold reconcile_node. fold (phase n). rewrite Hp.
  rewrite bool_decide_false, bool_decide_true by done. cbn [orb].
  unfold reconcilePending. rewrite Hw. set (n1 := set_phase _ _ n).
  destruct Hst as [Hs Hn].
  unfold UpdateNodeM. rewrite bindM_eq, updateM_eq. cbn [fst snd].
  set (t1 := w_clock wn _).
  pose proof (UpdateNode_live t1 n1 n (w_store wn) Hs Hn eq_refl) as Hl.
  destruct (UpdateNode t1 n1 (w_store wn)) as [[e1 n2] s2] eqn:U. simpl in Hl. subst e1.
  destruct (UpdateNode_frame _ _ _ _ _ _ Hs U) as (Hs2 & _ & Hsm & _ & Hn2).
  cbn [fst snd]. change (node_id n1) with (node_id n) in Hn2.
  assert (Hid2 : node_id n2 = node_id n).
  { change (node_id n) with (node_id n1). by apply (key_same (R:=Node) (key:=node_id)). }
  destruct Hsm as (Hm2 & Hsp2 & Hst2).
  unfold reconcileStarting, start_node, call_out. rewrite bindM_eq. cbn [fst snd].
  assert (Hnm : m_Name (n_Metadata n2) = m_Name (n_Metadata n)) by apply Hm2.
  rewrite (Hr _ n2 Hnm). unfold SaveNode. rewrite saveM_eq. cbn [fst snd].
  match goal with |- context [UpdateNode ?t' ?m ?s'] =>
    set (n3 := m); set (t3 := t'); change s' with s2 end.
  rewrite <- Hid2 in Hn2.
  pose proof (UpdateNode_live t3 n3 n2 s2 Hs2 Hn2 eq_refl) as Hl.
  destruct (UpdateNode t3 n3 s2) as [[e3 n4] s4] eqn:U3. simpl in Hl. subst e3.
  destruct (UpdateNode_frame _ _ _ _ _ _ Hs2 U3) as (_ & _ & (_ & Hsp4 & Hst4) & _ & Hn4).
  split; [done|]. split; [by exists n2|]. exists n4.
  change (node_id n3) with (node_id n2) in Hn4. rewrite Hid2 in Hn4.
  unfold phase, pid. rewrite Hsp4, Hst4. cbn. by rewrite Hsp2, Hst2.
Qed.

(** Restarting a node does not stop it.  The request is accepted in every
    phase; it makes the node Pending with the desired state Running, counts a
    restart and enqueues the node's key.  The controller's next reconcile only
    asks the runtime to start the node: when the runtime refuses, as it does
    for a node whose process still runs, nothing has been stopped and the node
    is recorded as Crashed with the process identifier it had. *)
Theorem RestartNode_req_only_starts ctx req n w :
  store_wf (w_store w) → change_accepted ctx req w →
  no_slash (nr_Namespace req) → no_slash (nr_DevnetName req) → int64_range (nr_Index req) →
  v_nodes (store_view (w_store w)) !! request_key req = Some n →
  ∃ pb w', RestartNode_req has_ante has_manager ctx req w = (RpcOk pb, w') ∧
    w_enqueued w' = w_enqueued w ++
      (if has_manager then [("nodes", controller_key req)] else []) ∧
    ∀ r e (wn : World S NodeCall), w_store wn = w_store w' →
      (∀ t m, m_Name (n_Metadata m) = m_Name (n_Metadata n) →
         NodeController.StartNode r t m RtDefaultRestartPolicy = Some e) →
      let out := Reconcile (Some r) (controller_key req) wn in
      (∃ m, w_trace out.2 = w_trace wn ++ [CStartNode m RtDefaultRestartPolicy (Some e)]) ∧
      ∃ n', v_nodes (store_view (w_store out.2)) !! request_key req = Some n' ∧
        phase n' = NodePhaseCrashed ∧ pid n' = pid n ∧
        ns_Desired (n_Spec n') = NodePhaseRunning ∧
        nst_RestartCount (n_Status n') = wrap64 (nst_RestartCount (n_Status n) + 1).
Proof.
  intros Hs Ha Hns Hd Hi Hn. unfold RestartNode_req.
  rewrite (changing_stored ctx req _ n w Hs Ha Hn).
  match goal with |- context [save_node _ _ _ ?m] => set (n1 := m) end.
  destruct (save_node_live req n n1 w Hs Hn eq_refl eq_refl)
    as (n' & w' & Hr & ((Hname & _) & Hsp & Hst) & Hs' & _ & Hn' & Hid & Hq).
  exists (NodeToProto n'), w'. split; [done|]. split; [done|]. intros r e wn Hw Hrefuse.
  assert (Hstored : stored n' wn) by (split; rewrite Hw; [|rewrite Hid]; done).
  cbv zeta. rewrite (request_reconciled req n' (Some r) wn Hns Hd Hi Hstored Hid).
  destruct (pending_start_refused r e n' wn Hstored) as (_ & (m & _ & Ht) & n2 & Hn2 & Hp & Hpid & Hsp2 & Hrc).
  - unfold phase. by rewrite Hst.
  - unfold wants_running. by rewrite Hsp.
  - intros t m Hm. apply Hrefuse. rewrite Hm. exact Hname.
  - split; [by exists m|]. exists n2. rewrite <- Hid. split_and!; [done|done| | |].
    + rewrite Hpid. unfold pid. by rewrite Hst.
    + by rewrite Hsp2, Hsp.
    + by rewrite Hrc, Hst.
Qed.
End outcomes.

(** ** The ports *)

(** The host ports of a node are distinct ports of the machine, and two
    nodes share none, as long as the indices stay below 389; the node with
    index 389 is given ports beyond 65535. *)
Theorem node_ports_distinct :
  (∀ n, (0 ≤ ns_Index (n_Spec n) ≤ 388)%Z →
     Forall (λ p, (1 ≤ pm_HostPort p ≤ 65535)%Z) (node_ports n) ∧
     NoDup (pm_HostPort <$> node_ports n)) ∧
  (∀ n1 n2, (0 ≤ ns_Index (n_Spec n1) ≤ 388)%Z → (0 ≤ ns_Index (n_Spec n2) ≤ 388)%Z →
     ns_Index (n_Spec n1) ≠ ns_Index (n_Spec n2) →
     ∀ p1 p2, p1 ∈ node_ports n1 → p2 ∈ node_ports n2 → pm_HostPort p1 ≠ pm_HostPort p2) ∧
  ∀ n, ns_Index (n_Spec n) = 389%Z →
     Exists (λ p, (65535 < pm_HostPort p)%Z) (node_ports n).
Proof.
  assert (Hp : ∀ n, (0 ≤ ns_Index (n_Spec n) ≤ 389)%Z →
    pm_HostPort <$> node_ports n =
    (λ b, (b + 100 * ns_Index (n_Spec n))%Z) <$> [26656; 26657; 1317; 9090]%Z).
  { intros n Hn.
    assert (Ho : port_offset n = (ns_Index (n_Spec n) * 100)%Z).
    { unfold port_offset. rewrite wrap64_id by (unfold int64_range; lia).
      apply wrap32_id. unfold int32_range. lia. }
    simpl. rewrite Ho. unfold defaultP2PPort, defaultRPCPort, defaultRESTPort, defaultGRPCPort.
    rewrite !wrap32_id by (unfold int32_range; lia).
    by repeat (apply (f_equal2 cons); [lia|]). }
  assert (Hin : ∀ n p, (0 ≤ ns_Index (n_Spec n) ≤ 389)%Z → p ∈ node_ports n →
    ∃ b, b ∈ [26656; 26657; 1317; 9090]%Z ∧ pm_HostPort p = (b + 100 * ns_Index (n_Spec n))%Z).
  { intros n p Hn Hin. apply (list_elem_of_fmap_2 pm_HostPort) in Hin.
    rewrite Hp in Hin by done. apply list_elem_of_fmap in Hin as (b & -> & Hb). eauto. }
  split_and!.
  - intros n Hn. split.
    + apply Forall_forall. intros p Hp'. destruct (Hin n p ltac:(lia) Hp') as (b & Hb & ->).
      set_unfold in Hb. naive_solver lia.
    + rewrite Hp by lia. apply NoDup_fmap_2; [intros a b Hab; cbv beta in Hab; lia|]. by apply (bool_decide_unpack _).
  - intros n1 n2 H1 H2 Hne p1 p2 Hp1 Hp2.
    destruct (Hin n1 p1 ltac:(lia) Hp1) as (b1 & Hb1 & ->).
    destruct (Hin n2 p2 ltac:(lia) Hp2) as (b2 & Hb2 & ->). set_unfold in Hb1. set_unfold in Hb2.
    naive_solver lia.
  - intros n Hn. assert (Hf : (65556 ∈ pm_HostPort <$> node_ports n)%Z).
    { rewrite Hp by lia. rewrite Hn. simpl. by left. }
    apply list_elem_of_fmap in Hf as (p & Hpp & Hin'). apply Exists_exists. exists p.
    split; [done|lia].
Qed.

(** ** Witnesses *)

#[local] Existing Instance some_order.

(** A node that runs, in its store. *)
Definition ex_running : Node :=
  ex_node' <| n_Status; nst_Phase := NodePhaseRunning |> <| n_Status; nst_PID := 7%Z |>.
Definition ex_running_world : World MemoryStore ExecCall :=
  mkWorld (MemStore.CreateNode ex_running NewMemoryStore).2 (λ n, Z.of_nat n) 0 [] [].
Definition ex_request : NodeRequest := mkNodeRequest "d" 0 "".

Lemma ex_running_wf : store_wf (w_store ex_running_world).
Proof. split_and!; apply map_Forall_to_list; vm_compute; repeat constructor. Qed.

Lemma ex_running_stored :
  v_nodes (store_view (w_store ex_running_world)) !! request_key ex_request = Some ex_running.
Proof. vm_compute. reflexivity. Qed.

Lemma ex_in_range : int64_range 0.
Proof. vm_compute. split; [discriminate|reflexivity]. Qed.

Lemma StopNode_req_stops_witness :
  ∃ pb w', StopNode_req false true None ex_request ex_running_world = (RpcOk pb, w') ∧
    w_enqueued w' = [("nodes", "default/d/0")] ∧
    let out := Reconcile (Some ex_runtime) "default/d/0"
                 (mkWorld (w_store w') (λ n, Z.of_nat n) 0 [] []) in
    w_trace out.2 = [CStopNode "d-0" true None].
Proof.
  pose proof (StopNode_req_stops (S:=MemoryStore) false true None ex_request ex_running
    ex_running_world ex_running_wf ltac:(discriminate) eq_refl eq_refl ex_in_range
    ex_running_stored) as Ho.
  change (bool_decide _ || bool_decide _) with false in Ho.
  destruct Ho as (pb & w' & Hr & Hq & Hrec). exists pb, w'. split; [exact Hr|]. split; [exact Hq|].
  apply (Hrec ex_runtime (mkWorld (w_store w') (λ n, Z.of_nat n) 0 [] []) eq_refl).
Defined.

Lemma StartNode_req_starts_witness :
  ∃ m, StartNode_req false true None ex_request ex_running_world =
    (RpcErr FailedPrecondition m, ex_running_world).
Proof.
  pose proof (StartNode_req_starts (S:=MemoryStore) false true None ex_request ex_running
    ex_running_world ex_running_wf ltac:(discriminate) eq_refl eq_refl ex_in_range
    ex_running_stored) as Ho.
  exact Ho.
Defined.

(** A runtime in which every node runs already. *)
Definition ex_busy : NodeRuntime :=
  {| NodeController.StartNode _ _ _ := Some (Errorf "node is already running");
     NodeController.StopNode _ _ _ := None;
     NodeController.GetNodeStatus _ _ := Ok (mkRtNodeStatus true 7 0 0 0 "" 0) |}.

Lemma RestartNode_req_only_starts_witness :
  ∃ pb w', RestartNode_req false true None ex_request ex_running_world = (RpcOk pb, w') ∧
    ∃ n', v_nodes (store_view (w_store (Reconcile (Some ex_busy) "default/d/0"
        (mkWorld (w_store w') (λ n, Z.of_nat n) 0 [] [])).2)) !! "default/d/0" = Some n' ∧
      phase n' = NodePhaseCrashed ∧ pid n' = 7%Z.
Proof.
  destruct (RestartNode_req_only_starts (S:=MemoryStore) false true None ex_request ex_running
    ex_running_world ex_running_wf ltac:(discriminate) eq_refl eq_refl ex_in_range
    ex_running_stored) as (pb & w' & Hr & _ & Hrec).
  exists pb, w'. split; [exact Hr|].
  destruct (Hrec ex_busy _ (mkWorld (w_store w') (λ n, Z.of_nat n) 0 [] []) eq_refl
    ltac:(reflexivity)) as (_ & n' & Hn & Hp & Hpid & _).
  exists n'. split; [exact Hn|]. split; [exact Hp|exact Hpid].
Defined.

Lemma node_ports_distinct_witness :
  pm_HostPort <$> node_ports ex_running = [26656; 26657; 1317; 9090]%Z ∧
  NoDup (pm_HostPort <$> node_ports ex_running).
Proof.
  split; [vm_compute; reflexivity|]. apply (proj1 node_ports_distinct ex_running).
  vm_compute. split; discriminate.
Defined.
