(* ===== verification/UpgradeController.v ===== *)
(** * The upgrade controller ([internal/daemon/controller/upgrade.go])

    [Reconcile] moves an upgrade through Pending, Proposing, Voting, Waiting,
    Switching and Verifying to Completed, or to Failed, calling the chain
    through [UpgradeRuntime] (an interface: it answers any function of the calls
    made so far).  [upgrade_trans] is the phase machine; its rules say which
    answers of the chain a transition rests on. *)

From stdpp Require Import base tactics numbers list strings relations gmap.
From S2P Require Import Prelude Types MemStore Store World.

(** ** The chain's interface *)

Inductive UpgradeCall :=
| CSubmitUpgradeProposal (devnet name : string) (height : Z) (answer : result Z)
| CGetProposalStatus (devnet : string) (proposal : Z) (answer : result (Z * Z * bool))
| CVoteOnProposal (devnet : string) (proposal validator : Z) (yes : bool) (answer : option error)
| CGetCurrentHeight (devnet : string) (answer : result Z)
| CSwitchNodeBinary (devnet : string) (node : Z) (binary : BinarySource) (answer : option error)
| CVerifyNodeVersion (devnet : string) (node : Z) (version : string) (answer : result bool)
| CExportState (devnet path : string) (answer : option error)
| CGetValidatorCount (devnet : string) (answer : result Z).

(** [UpgradeRuntime]. *)
Record UpgradeRuntime := {
  SubmitUpgradeProposal : list UpgradeCall → string → string → Z → result Z;
  GetProposalStatus : list UpgradeCall → string → Z → result (Z * Z * bool);
  VoteOnProposal : list UpgradeCall → string → Z → Z → bool → option error;
  GetCurrentHeight : list UpgradeCall → string → result Z;
  SwitchNodeBinary : list UpgradeCall → string → Z → BinarySource → option error;
  VerifyNodeVersion : list UpgradeCall → string → Z → string → result bool;
  ExportState : list UpgradeCall → string → string → option error;
  GetValidatorCount : list UpgradeCall → string → result Z
}.

(** ** Reconcile *)

Section controller.
Context {S : Type} `{Store S}.
Variable runtime : option UpgradeRuntime.

Abbreviation W := (World S UpgradeCall).
Implicit Types u : Upgrade.

Definition SaveUpgrade u : M W (option error) := saveM UpdateUpgrade u.

Definition upgrade_phase (phase message : string) u : Upgrade :=
  u <| u_Status; ust_Phase := phase |> <| u_Status; ust_Message := message |>.

Definition setFailed u (errMsg : string) : M W (option error) :=
  SaveUpgrade (upgrade_phase UpgradePhaseFailed "Upgrade failed" u
                 <| u_Status; ust_Error := errMsg |>).

(** The calls, each recorded with its answer. *)
Definition submit r d name h : M W (result Z) :=
  call_out (λ t, SubmitUpgradeProposal r t d name h) (CSubmitUpgradeProposal d name h).
Definition proposal_status r d p : M W (result (Z * Z * bool)) :=
  call_out (λ t, GetProposalStatus r t d p) (CGetProposalStatus d p).
Definition vote r d p i yes : M W (option error) :=
  call_out (λ t, VoteOnProposal r t d p i yes) (CVoteOnProposal d p i yes).
Definition height r d : M W (result Z) :=
  call_out (λ t, GetCurrentHeight r t d) (CGetCurrentHeight d).
Definition switch_binary r d i b : M W (option error) :=
  call_out (λ t, SwitchNodeBinary r t d i b) (CSwitchNodeBinary d i b).
Definition verify r d i v : M W (result bool) :=
  call_out (λ t, VerifyNodeVersion r t d i v) (CVerifyNodeVersion d i v).
Definition export r d path : M W (option error) :=
  call_out (λ t, ExportState r t d path) (CExportState d path).
Definition validators r d : M W (result Z) :=
  call_out (λ t, GetValidatorCount r t d) (CGetValidatorCount d).

(** [reconcilePending] once the target height is known. *)
Definition pending_rest u : M W (option error) :=
  let propose u := SaveUpgrade
    (upgrade_phase UpgradePhaseProposing "Creating governance proposal" u) in
  match runtime with
  | None => propose u
  | Some r =>
      do! count := validators r (us_DevnetRef (u_Spec u)) in
      match count with
      | Err e => setFailed u ("failed to get validator count: " +:+ Error e)
      | Ok validatorCount =>
          let u := u <| u_Status; ust_VotesRequired := validatorCount |> in
          if us_WithExport (u_Spec u) then
            let exportPath := "/tmp/" +:+ m_Name (u_Metadata u) +:+
                              "-pre-upgrade-export.json" in
            do! err := export r (us_DevnetRef (u_Spec u)) exportPath in
            match err with
            | Some _ => propose u
            | None => propose (u <| u_Status; ust_PreExportPath := exportPath |>)
            end
          else propose u
      end
  end.

Definition reconcilePending u : M W (option error) :=
  match runtime with
  | Some r =>
      if bool_decide (us_TargetHeight (u_Spec u) = 0%Z) then
        do! h := height r (us_DevnetRef (u_Spec u)) in
        match h with
        | Err e => setFailed u ("failed to get current height: " +:+ Error e)
        | Ok currentHeight =>
            pending_rest (u <| u_Spec; us_TargetHeight := wrap64 (currentHeight + 100) |>)
        end
      else pending_rest u
  | None => pending_rest u
  end.

Definition reconcileProposing u : M W (option error) :=
  let to_voting proposalID :=
    SaveUpgrade (upgrade_phase UpgradePhaseVoting
      ("Waiting for votes (proposal #" +:+ itoa proposalID +:+ ")")
      (u <| u_Status; ust_ProposalID := proposalID |>)) in
  match runtime with
  | Some r =>
      do! p := submit r (us_DevnetRef (u_Spec u)) (us_UpgradeName (u_Spec u))
                 (us_TargetHeight (u_Spec u)) in
      match p with
      | Err e => setFailed u ("failed to submit proposal: " +:+ Error e)
      | Ok proposalID => to_voting proposalID
      end
  | None => to_voting 1%Z
  end.

Definition to_waiting u : M W (option error) :=
  SaveUpgrade (upgrade_phase UpgradePhaseWaiting
    ("Waiting for block height " +:+ itoa (us_TargetHeight (u_Spec u))) u).

(** One vote per required one, failures ignored. *)
Definition auto_vote r u : M W unit :=
  if us_AutoVote (u_Spec u) &&
     bool_decide (ust_VotesReceived (u_Status u) < ust_VotesRequired (u_Status u))%Z then
    run! forM (R := unit) (Z.to_nat (ust_VotesRequired (u_Status u))) 0%Z (λ i,
      run! vote r (us_DevnetRef (u_Spec u)) (ust_ProposalID (u_Status u)) i true in
      done_with None) in
    done_with tt
  else done_with tt.

Definition reconcileVoting u : M W (option error) :=
  match runtime with
  | Some r =>
      run! auto_vote r u in
      do! st := proposal_status r (us_DevnetRef (u_Spec u)) (ust_ProposalID (u_Status u)) in
      match st with
      | Err _ => done_with None
      | Ok (votesReceived, votesRequired, passed) =>
          let u := u <| u_Status; ust_VotesReceived := votesReceived |>
                     <| u_Status; ust_VotesRequired := votesRequired |> in
          if passed then to_waiting u
          else SaveUpgrade (u <| u_Status; ust_Message :=
            "Votes: " +:+ itoa votesReceived +:+ "/" +:+ itoa votesRequired |>)
      end
  | None =>
      to_waiting (u <| u_Status; ust_VotesReceived := ust_VotesRequired (u_Status u) |>)
  end.

Definition to_switching u : M W (option error) :=
  SaveUpgrade (upgrade_phase UpgradePhaseSwitching "Switching node binaries" u).

Definition reconcileWaiting u : M W (option error) :=
  match runtime with
  | Some r =>
      do! h := height r (us_DevnetRef (u_Spec u)) in
      match h with
      | Err _ => done_with None
      | Ok currentHeight =>
          let u := u <| u_Status; ust_CurrentHeight := currentHeight |> in
          let target := us_TargetHeight (u_Spec u) in
          if bool_decide (currentHeight < target)%Z then
            let blocksRemaining := wrap64 (target - currentHeight) in
            SaveUpgrade (u <| u_Status; ust_Message :=
              "Height " +:+ itoa currentHeight +:+ "/" +:+ itoa target +:+ " ("
              +:+ itoa blocksRemaining +:+ " blocks remaining)" |>)
          else to_switching u
      end
  | None => to_switching u
  end.

Definition to_verifying u : M W (option error) :=
  SaveUpgrade (upgrade_phase UpgradePhaseVerifying "Verifying upgrade success" u).

Definition reconcileSwitching u : M W (option error) :=
  match runtime with
  | Some r =>
      do! count := validators r (us_DevnetRef (u_Spec u)) in
      match count with
      | Err e => setFailed u ("failed to get validator count: " +:+ Error e)
      | Ok validatorCount =>
          do! ret := forM (Z.to_nat validatorCount) 0%Z (λ i,
            do! err := switch_binary r (us_DevnetRef (u_Spec u)) i (us_NewBinary (u_Spec u)) in
            match err with
            | Some e =>
                do! x := setFailed u ("failed to switch binary on node " +:+ itoa i
                                      +:+ ": " +:+ Error e) in
                done_with (Some x)
            | None => done_with None
            end) in
          match ret with
          | Some x => done_with x
          | None => to_verifying u
          end
      end
  | None => to_verifying u
  end.

Definition to_completed u : M W (option error) :=
  SaveUpgrade (upgrade_phase UpgradePhaseCompleted "Upgrade completed successfully" u).

Definition reconcileVerifying u : M W (option error) :=
  match runtime with
  | Some r =>
      do! count := validators r (us_DevnetRef (u_Spec u)) in
      match count with
      | Err e => setFailed u ("failed to get validator count: " +:+ Error e)
      | Ok validatorCount =>
          do! ret := forM (Z.to_nat validatorCount) 0%Z (λ i,
            do! verified := verify r (us_DevnetRef (u_Spec u)) i
                              (bs_Version (us_NewBinary (u_Spec u))) in
            match verified with
            | Ok true => done_with None
            | _ => done_with (Some tt)
            end) in
          match ret with
          | Some _ => done_with None
          | None =>
              if us_WithExport (u_Spec u) then
                let exportPath := "/tmp/" +:+ m_Name (u_Metadata u) +:+
                                  "-post-upgrade-export.json" in
                do! err := export r (us_DevnetRef (u_Spec u)) exportPath in
                match err with
                | Some _ => to_completed u
                | None => to_completed (u <| u_Status; ust_PostExportPath := exportPath |>)
                end
              else to_completed u
          end
      end
  | None => to_completed u
  end.

(** The switch on the phase. *)
Definition reconcile_upgrade u : M W (option error) :=
  let phase := ust_Phase (u_Status u) in
  if bool_decide (phase = "") || bool_decide (phase = UpgradePhasePending)
  then reconcilePending u
  else if bool_decide (phase = UpgradePhaseProposing) then reconcileProposing u
  else if bool_decide (phase = UpgradePhaseVoting) then reconcileVoting u
  else if bool_decide (phase = UpgradePhaseWaiting) then reconcileWaiting u
  else if bool_decide (phase = UpgradePhaseSwitching) then reconcileSwitching u
  else if bool_decide (phase = UpgradePhaseVerifying) then reconcileVerifying u
  else done_with None.

Definition Reconcile (key : string) : M W (option error) :=
  let '(namespace, name) := parseDevnetKey key in
  do! r := readM (GetUpgrade namespace name) in
  match r with
  | Err e => done_with
      (if IsNotFound e then None else Some (Wrap ("failed to get upgrade " +:+ key) e))
  | Ok u => reconcile_upgrade u
  end.
End controller.

(** ** The phase machine *)

Definition phase (u : Upgrade) : string := ust_Phase (u_Status u).
Definition devnet_of (u : Upgrade) : string := us_DevnetRef (u_Spec u).

(** The save keeps the identity and all of the spec but the target height. *)
Definition same_identity (u u' : Upgrade) : Prop :=
  same_meta (u_Metadata u) (u_Metadata u') ∧
  devnet_of u' = devnet_of u ∧ us_NewBinary (u_Spec u') = us_NewBinary (u_Spec u).

Definition initial (u : Upgrade) : Prop := phase u = "" ∨ phase u = UpgradePhasePending.

(** What the chain answered before a phase may be left: [t] is the trace. *)
Definition vote_passed (t : list UpgradeCall) (u : Upgrade) : Prop :=
  ∃ received required, CGetProposalStatus (devnet_of u) (ust_ProposalID (u_Status u))
    (Ok (received, required, true)) ∈ t.
Definition height_reached (t : list UpgradeCall) (u : Upgrade) : Prop :=
  ∃ h, CGetCurrentHeight (devnet_of u) (Ok h) ∈ t ∧ (us_TargetHeight (u_Spec u) ≤ h)%Z.
Definition all_switched (t : list UpgradeCall) (u : Upgrade) : Prop :=
  ∃ count, CGetValidatorCount (devnet_of u) (Ok count) ∈ t ∧
    ∀ i, (0 ≤ i < count)%Z →
      CSwitchNodeBinary (devnet_of u) i (us_NewBinary (u_Spec u)) None ∈ t.
Definition all_verified (t : list UpgradeCall) (u : Upgrade) : Prop :=
  ∃ count, CGetValidatorCount (devnet_of u) (Ok count) ∈ t ∧
    ∀ i, (0 ≤ i < count)%Z →
      CVerifyNodeVersion (devnet_of u) i (bs_Version (us_NewBinary (u_Spec u))) (Ok true) ∈ t.

(** [rt]: the controller has a runtime. *)
Inductive upgrade_trans (rt : bool) (t : list UpgradeCall) (u u' : Upgrade) : Prop :=
| ut_propose : initial u → phase u' = UpgradePhaseProposing → same_identity u u' →
    upgrade_trans rt t u u'
| ut_submitted : phase u = UpgradePhaseProposing → phase u' = UpgradePhaseVoting →
    same_identity u u' → u_Spec u' = u_Spec u → upgrade_trans rt t u u'
| ut_voting : phase u = UpgradePhaseVoting → phase u' = UpgradePhaseVoting →
    same_identity u u' → u_Spec u' = u_Spec u → upgrade_trans rt t u u'
| ut_passed : phase u = UpgradePhaseVoting → phase u' = UpgradePhaseWaiting →
    same_identity u u' → u_Spec u' = u_Spec u → (rt = true → vote_passed t u) →
    upgrade_trans rt t u u'
| ut_waiting : phase u = UpgradePhaseWaiting → phase u' = UpgradePhaseWaiting →
    same_identity u u' → u_Spec u' = u_Spec u → upgrade_trans rt t u u'
| ut_reached : phase u = UpgradePhaseWaiting → phase u' = UpgradePhaseSwitching →
    same_identity u u' → u_Spec u' = u_Spec u → (rt = true → height_reached t u) →
    upgrade_trans rt t u u'
| ut_switched : phase u = UpgradePhaseSwitching → phase u' = UpgradePhaseVerifying →
    same_identity u u' → u_Spec u' = u_Spec u → (rt = true → all_switched t u) →
    upgrade_trans rt t u u'
| ut_verified : phase u = UpgradePhaseVerifying → phase u' = UpgradePhaseCompleted →
    same_identity u u' → u_Spec u' = u_Spec u → (rt = true → all_verified t u) →
    upgrade_trans rt t u u'
| ut_failed : initial u ∨ phase u = UpgradePhaseProposing ∨ phase u = UpgradePhaseSwitching ∨
      phase u = UpgradePhaseVerifying →
    phase u' = UpgradePhaseFailed → same_identity u u' → ust_Error (u_Status u') ≠ "" →
    upgrade_trans rt t u u'.

(** The order of the phases. *)
Definition rank (p : string) : nat :=
  if bool_decide (p = "") || bool_decide (p = UpgradePhasePending) then 0
  else if bool_decide (p = UpgradePhaseProposing) then 1
  else if bool_decide (p = UpgradePhaseVoting) then 2
  else if bool_decide (p = UpgradePhaseWaiting) then 3
  else if bool_decide (p = UpgradePhaseSwitching) then 4
  else if bool_decide (p = UpgradePhaseVerifying) then 5
  else 6.

(** What the trace must show of an upgrade that got past a phase. *)
Definition evidence (t : list UpgradeCall) (u : Upgrade) : Prop :=
  (phase u ∈ [UpgradePhaseSwitching; UpgradePhaseVerifying; UpgradePhaseCompleted] →
     height_reached t u) ∧
  (phase u ∈ [UpgradePhaseVerifying; UpgradePhaseCompleted] → all_switched t u) ∧
  (phase u = UpgradePhaseCompleted → all_verified t u).

(** A controller with runtime [r] reconciling any keys, one after the other. *)
Inductive upgrade_run {S} `{Store S} (rt : option UpgradeRuntime) :
    World S UpgradeCall → World S UpgradeCall → Prop :=
| run_refl w : upgrade_run rt w w
| run_step w key w' : upgrade_run rt w w' → upgrade_run rt w (Reconcile rt key w').2.

(** ** The refinement *)

Section refinement.
Context {S : Type} `{StoreSpec S}.
Variable runtime : option UpgradeRuntime.
Implicit Types (w : World S UpgradeCall) (u : Upgrade).

Definition has_rt : bool := match runtime with Some _ => true | None => false end.

Definition stored u w : Prop :=
  store_wf (w_store w) ∧ v_upgrades (store_view (w_store w)) !! upgrade_id u = Some u.

(** What handling the stored upgrade [u] leaves, from the world [w]. *)
Definition upgrade_post u w (out : option error * World S UpgradeCall) : Prop :=
  store_wf (w_store out.2) ∧
  only_upgrade (upgrade_id u) (store_view (w_store w)) (store_view (w_store out.2)) ∧
  (∃ l, w_trace out.2 = w_trace w ++ l) ∧
  ∃ u', v_upgrades (store_view (w_store out.2)) !! upgrade_id u = Some u' ∧
    (u' = u ∨ upgrade_trans has_rt (w_trace out.2) u u').

Lemma upgrade_post_done u w w' e : stored u w → called w w' → upgrade_post u w (e, w').
Proof.
  intros [Hs Hu] [E Ht]. unfold upgrade_post. simpl. rewrite E.
  split; [done|]. split; [done|]. split; [done|]. exists u. auto.
Qed.

Lemma upgrade_save_post u u1 w w' :
  stored u w → called w w' → u_Metadata u1 = u_Metadata u →
  (∀ u', same_upgrade u1 u' → upgrade_trans has_rt (w_trace w') u u') →
  upgrade_post u w (SaveUpgrade u1 w').
Proof.
  intros [Hs Hu] [E Ht] Hm Htr. unfold SaveUpgrade. rewrite saveM_eq. rewrite E.
  destruct (UpdateUpgrade _ u1 (w_store w)) as [[e u'] s'] eqn:U. simpl.
  assert (Hid : upgrade_id u1 = upgrade_id u) by (unfold upgrade_id; by rewrite Hm).
  destruct (UpdateUpgrade_frame _ _ _ _ _ _ Hs U) as (Hs' & Ho & He). rewrite Hid in *.
  split; [done|]. split; [done|]. split; [done|]. simpl. destruct e as [e|].
  - exists u. rewrite He. auto.
  - destruct He as (Hsame & _ & Hl). exists u'. auto.
Qed.

Lemma append_not_empty (a b : string) : a ≠ "" → a +:+ b ≠ "".
Proof. by destruct a. Qed.

Ltac trans_by rule :=
  intros u' (Hm' & Hsp' & Hst'); eapply rule;
  unfold same_identity, phase, devnet_of in *; rewrite ?Hst', ?Hsp'; simpl; auto.

Ltac save_by rule := apply upgrade_save_post; [done|auto|done|trans_by rule].

Lemma upgrade_failed_post u u1 w w' msg :
  stored u w → called w w' → u_Metadata u1 = u_Metadata u →
  devnet_of u1 = devnet_of u → us_NewBinary (u_Spec u1) = us_NewBinary (u_Spec u) →
  initial u ∨ phase u = UpgradePhaseProposing ∨ phase u = UpgradePhaseSwitching ∨
    phase u = UpgradePhaseVerifying →
  msg ≠ "" → upgrade_post u w (setFailed u1 msg w').
Proof.
  intros Hs Hc Hm Hd Hb Hp Hmsg. apply upgrade_save_post; [done|done|done|].
  intros u' (Hm' & Hsp' & Hst'). apply ut_failed; [done| | |].
  - unfold phase. by rewrite Hst'.
  - unfold same_identity, devnet_of in *. rewrite Hsp'. simpl in *. by rewrite <- Hm.
  - by rewrite Hst'.
Qed.

(** Saving in phase Proposing. *)
Lemma propose_post u u1 w w' :
  stored u w → called w w' → u_Metadata u1 = u_Metadata u →
  devnet_of u1 = devnet_of u → us_NewBinary (u_Spec u1) = us_NewBinary (u_Spec u) →
  initial u →
  upgrade_post u w
    (SaveUpgrade (upgrade_phase UpgradePhaseProposing "Creating governance proposal" u1) w').
Proof.
  intros Hs Hc Hm Hd Hb Hp. apply upgrade_save_post; [done|done|done|].
  intros u' (Hm' & Hsp' & Hst'). apply ut_propose; [done| |].
  - unfold phase. by rewrite Hst'.
  - unfold same_identity, devnet_of in *. rewrite Hsp'. simpl in *. by rewrite <- Hm.
Qed.

Hint Resolve called_refl called_out : core.

Lemma pending_rest_post u u1 w w' :
  stored u w → called w w' → u_Metadata u1 = u_Metadata u →
  devnet_of u1 = devnet_of u → us_NewBinary (u_Spec u1) = us_NewBinary (u_Spec u) →
  initial u → upgrade_post u w (pending_rest runtime u1 w').
Proof.
  intros Hs Hc Hm Hd Hb Hp. unfold pending_rest. destruct runtime as [r|];
    [|by apply propose_post].
  unfold validators, export. rewrite bindM_eq. cbn [fst].
  destruct (call_out _ _ w').1 as [c|e]; [|apply upgrade_failed_post; auto].
  simpl us_WithExport. destruct (us_WithExport _); [|apply propose_post; auto].
  rewrite bindM_eq. destruct (call_out _ _ _).1; apply propose_post; auto.
Qed.

Lemma upgrade_reconcilePending_post u w :
  stored u w → initial u → upgrade_post u w (reconcilePending runtime u w).
Proof.
  intros Hs Hp. unfold reconcilePending. destruct runtime as [r|] eqn:Hr;
    [|rewrite <- Hr; by apply pending_rest_post].
  rewrite <- Hr. case_bool_decide; [|by apply pending_rest_post].
  unfold height. rewrite bindM_eq.
  destruct (call_out _ _ w).1 as [h|e]; [|apply upgrade_failed_post; auto].
  apply pending_rest_post; auto.
Qed.

Lemma reconcileProposing_post u w :
  stored u w → phase u = UpgradePhaseProposing →
  upgrade_post u w (reconcileProposing runtime u w).
Proof.
  intros Hs Hp. unfold reconcileProposing. destruct runtime as [r|].
  - unfold submit. rewrite bindM_eq.
    destruct (call_out _ _ w).1; [save_by ut_submitted|apply upgrade_failed_post; auto].
  - save_by ut_submitted.
Qed.

Lemma auto_vote_called r u w : called w (auto_vote r u w).2.
Proof.
  unfold auto_vote. case_match; [|apply called_refl].
  unfold bindM at 1. set (body := λ i, _).
  pose proof (forM_inv (λ _ w', called w w') (λ (_ : unit) w', called w w')
    (Z.to_nat (ust_VotesRequired (u_Status u))) 0 body w) as Hl.
  destruct (forM _ _ body w) as [[x|] w']; apply Hl; auto;
    intros j w0 _ Hc; unfold body, vote; rewrite bindM_eq; by apply called_out.
Qed.

Lemma reconcileVoting_post u w :
  stored u w → phase u = UpgradePhaseVoting → upgrade_post u w (reconcileVoting runtime u w).
Proof.
  intros Hs Hp. unfold reconcileVoting, to_waiting. destruct runtime as [r|] eqn:Hr.
  - pose proof (auto_vote_called r u w) as Hc. rewrite bindM_eq.
    set (w1 := (auto_vote r u w).2) in *. unfold proposal_status. rewrite bindM_eq.
    set (log := CGetProposalStatus _ _). set (f := λ t, _).
    pose proof (call_recorded f log w1) as Hin.
    destruct (call_out f log w1).1 as [[[rec req] passed]|e];
      [|by apply upgrade_post_done; [|apply called_out]].
    destruct passed; [|save_by ut_voting].
    apply upgrade_save_post; [done|auto|done|]. intros u' (Hm' & Hsp' & Hst').
    apply ut_passed; [done|by unfold phase; rewrite Hst'| |by rewrite Hsp'|].
    + by unfold same_identity, devnet_of; rewrite Hsp'.
    + intros _. by exists rec, req.
  - apply upgrade_save_post; [done|auto|done|]. intros u' (Hm' & Hsp' & Hst').
    apply ut_passed; [done|by unfold phase; rewrite Hst'| |by rewrite Hsp'|].
    + by unfold same_identity, devnet_of; rewrite Hsp'.
    + unfold has_rt. by rewrite Hr.
Qed.

Lemma reconcileWaiting_post u w :
  stored u w → phase u = UpgradePhaseWaiting → upgrade_post u w (reconcileWaiting runtime u w).
Proof.
  intros Hs Hp. unfold reconcileWaiting, to_switching. destruct runtime as [r|] eqn:Hr.
  - unfold height. rewrite bindM_eq. set (log := CGetCurrentHeight _). set (f := λ t, _).
    pose proof (call_recorded f log w) as Hin.
    destruct (call_out f log w).1 as [h|e]; [|apply upgrade_post_done; auto].
    case_bool_decide as Hh; [save_by ut_waiting|].
    apply upgrade_save_post; [done|auto|done|]. intros u' (Hm' & Hsp' & Hst').
    apply ut_reached; [done|by unfold phase; rewrite Hst'| |by rewrite Hsp'|].
    + by unfold same_identity, devnet_of; rewrite Hsp'.
    + intros _. exists h. simpl in Hh. split; [done|lia].
  - apply upgrade_save_post; [done|auto|done|]. intros u' (Hm' & Hsp' & Hst').
    apply ut_reached; [done|by unfold phase; rewrite Hst'| |by rewrite Hsp'|].
    + by unfold same_identity, devnet_of; rewrite Hsp'.
    + unfold has_rt. by rewrite Hr.
Qed.

Lemma reconcileSwitching_post u w :
  stored u w → phase u = UpgradePhaseSwitching →
  upgrade_post u w (reconcileSwitching runtime u w).
Proof.
  intros Hs Hp. unfold reconcileSwitching, to_verifying. destruct runtime as [r|] eqn:Hr.
  - unfold validators. rewrite bindM_eq. set (log := CGetValidatorCount _). set (f := λ t, _).
    pose proof (call_recorded f log w) as Hin. pose proof (called_out f log w w (called_refl w)) as Hc.
    set (w1 := (call_out f log w).2) in *.
    destruct (call_out f log w).1 as [count|e]; [|apply upgrade_failed_post; auto].
    rewrite bindM_eq. set (body := λ i, _).
    pose proof (forM_inv (λ i w', called w w' ∧ called w1 w' ∧ ∀ j, (0 ≤ j < i)%Z →
        CSwitchNodeBinary (devnet_of u) j (us_NewBinary (u_Spec u)) None ∈ w_trace w')
      (λ x w', upgrade_post u w (x, w')) (Z.to_nat count) 0 body w1) as Hl.
    destruct (forM _ _ body w1) as [ret w2]. simpl.
    assert (Hl' : match ret with Some x => upgrade_post u w (x, w2) | None =>
      called w w2 ∧ called w1 w2 ∧ ∀ j, (0 ≤ j < Z.of_nat (Z.to_nat count))%Z →
        CSwitchNodeBinary (devnet_of u) j (us_NewBinary (u_Spec u)) None ∈ w_trace w2 end).
    { apply Hl; [|split; [done|split; [apply called_refl|lia]]]. clear Hl.
      intros j w0 Hj (Hcw & Hcw1 & Hin0). unfold body, switch_binary. rewrite bindM_eq.
      set (log' := CSwitchNodeBinary _ _ _). set (f' := λ t, _).
      pose proof (call_recorded f' log' w0) as Hin'.
      pose proof (called_out f' log' w w0 Hcw) as Hcw'.
      pose proof (called_out f' log' w1 w0 Hcw1) as Hcw1'.
      pose proof (called_out f' log' w0 w0 (called_refl w0)) as Hcc.
      destruct (call_out f' log' w0).1 as [e|].
      - rewrite bindM_eq. simpl. rewrite <- surjective_pairing.
        apply upgrade_failed_post; auto.
      - simpl. split; [done|]. split; [done|]. intros k Hk.
        destruct (decide (k = j)) as [->|]; [done|].
        apply (called_elem w0 _ _ Hcc), Hin0. lia. }
    destruct ret as [x|]; [done|]. destruct Hl' as (Hcw & Hcw1 & Hall).
    apply upgrade_save_post; [done|done|done|]. intros u' (Hm' & Hsp' & Hst').
    apply ut_switched; [done|by unfold phase; rewrite Hst'| |by rewrite Hsp'|].
    + by unfold same_identity, devnet_of; rewrite Hsp'.
    + intros _. exists count. split; [by apply (called_elem w1)|]. intros i Hi. apply Hall. lia.
  - apply upgrade_save_post; [done|auto|done|]. intros u' (Hm' & Hsp' & Hst').
    apply ut_switched; [done|by unfold phase; rewrite Hst'| |by rewrite Hsp'|].
    + by unfold same_identity, devnet_of; rewrite Hsp'.
    + unfold has_rt. by rewrite Hr.
Qed.

Lemma reconcileVerifying_post u w :
  stored u w → phase u = UpgradePhaseVerifying →
  upgrade_post u w (reconcileVerifying runtime u w).
Proof.
  intros Hs Hp. unfold reconcileVerifying, to_completed. destruct runtime as [r|] eqn:Hr.
  - unfold validators. rewrite bindM_eq. set (log := CGetValidatorCount _). set (f := λ t, _).
    pose proof (call_recorded f log w) as Hin. pose proof (called_out f log w w (called_refl w)) as Hc.
    set (w1 := (call_out f log w).2) in *.
    destruct (call_out f log w).1 as [count|e]; [|apply upgrade_failed_post; auto 6].
    rewrite bindM_eq. set (body := λ i, _).
    pose proof (forM_inv (λ i w', called w w' ∧ called w1 w' ∧ ∀ j, (0 ≤ j < i)%Z →
        CVerifyNodeVersion (devnet_of u) j (bs_Version (us_NewBinary (u_Spec u))) (Ok true)
          ∈ w_trace w')
      (λ _ w', called w w') (Z.to_nat count) 0 body w1) as Hl.
    destruct (forM _ _ body w1) as [ret w2]. cbn [fst snd].
    assert (Hl' : match ret with Some _ => called w w2 | None =>
      called w w2 ∧ called w1 w2 ∧ ∀ j, (0 ≤ j < Z.of_nat (Z.to_nat count))%Z →
        CVerifyNodeVersion (devnet_of u) j (bs_Version (us_NewBinary (u_Spec u))) (Ok true)
          ∈ w_trace w2 end).
    { apply Hl; [|split; [done|split; [apply called_refl|lia]]]. clear Hl.
      intros j w0 Hj (Hcw & Hcw1 & Hin0). unfold body, verify. rewrite bindM_eq.
      set (log' := CVerifyNodeVersion _ _ _). set (f' := λ t, _).
      pose proof (call_recorded f' log' w0) as Hin'.
      pose proof (called_out f' log' w w0 Hcw) as Hcw'.
      pose proof (called_out f' log' w1 w0 Hcw1) as Hcw1'.
      pose proof (called_out f' log' w0 w0 (called_refl w0)) as Hcc.
      destruct (call_out f' log' w0).1 as [[]|e]; [|exact Hcw'..].
      split; [done|]. split; [done|]. intros k Hk.
      destruct (decide (k = j)) as [->|]; [done|].
      apply (called_elem w0 _ _ Hcc), Hin0. lia. }
    destruct ret as [x|]; [by apply upgrade_post_done|]. destruct Hl' as (Hcw & Hcw1 & Hall).
    assert (Hdone : ∀ u1 w', called w2 w' → u_Metadata u1 = u_Metadata u →
      u_Spec u1 = u_Spec u → upgrade_post u w (SaveUpgrade
        (upgrade_phase UpgradePhaseCompleted "Upgrade completed successfully" u1) w')).
    { intros u1 w' Hcw2 Hm Hsp.
      apply upgrade_save_post; [done|by eapply called_trans|done|]. intros u' (Hm' & Hsp' & Hst').
      simpl in Hm', Hsp'. rewrite Hm in Hm'. rewrite Hsp in Hsp'.
      apply ut_verified; [done|by unfold phase; rewrite Hst'| |by rewrite Hsp'|].
      + by unfold same_identity, devnet_of; rewrite Hsp'.
      + intros _. exists count. split.
        * apply (called_elem w1); [by eapply called_trans|done].
        * intros i Hi. apply (called_elem w2 _ _ Hcw2), Hall. lia. }
    unfold done_with. destruct (us_WithExport _); [|by apply Hdone].
    unfold export. rewrite bindM_eq.
    destruct (call_out _ _ w2).1; apply Hdone; auto.
  - apply upgrade_save_post; [done|auto|done|]. intros u' (Hm' & Hsp' & Hst').
    apply ut_verified; [done|by unfold phase; rewrite Hst'| |by rewrite Hsp'|].
    + by unfold same_identity, devnet_of; rewrite Hsp'.
    + unfold has_rt. by rewrite Hr.
Qed.

Lemma reconcile_upgrade_post u w :
  stored u w → upgrade_post u w (reconcile_upgrade runtime u w).
Proof.
  intros Hs. unfold reconcile_upgrade.
  destruct (bool_decide _ || bool_decide _) eqn:Hp.
  { apply upgrade_reconcilePending_post; [done|].
    apply orb_true_iff in Hp as [Hp|Hp]; apply bool_decide_eq_true in Hp; [by left|by right]. }
  clear Hp. case_bool_decide; [by apply reconcileProposing_post|].
  case_bool_decide; [by apply reconcileVoting_post|].
  case_bool_decide; [by apply reconcileWaiting_post|].
  case_bool_decide; [by apply reconcileSwitching_post|].
  case_bool_decide; [by apply reconcileVerifying_post|].
  apply upgrade_post_done; auto.
Qed.

Lemma upgrade_Reconcile_cases key w :
  store_wf (w_store w) →
  (∃ e, Reconcile runtime key w = (e, w)) ∨
  (∃ u, stored u w ∧ Reconcile runtime key w = reconcile_upgrade runtime u w).
Proof.
  intros Hs. unfold Reconcile. destruct (parseDevnetKey key) as [ns name].
  rewrite bindM_eq. simpl. pose proof (GetUpgrade_spec ns name (w_store w) Hs) as Hg.
  unfold get_spec in Hg. destruct (_ !! _) as [u|] eqn:Hu.
  - rewrite Hg. right. exists u. split; [|done]. split; [done|].
    destruct (store_keys _ Hs) as (_ & _ & Hk & _). by rewrite <- (Hk _ _ Hu).
  - destruct Hg as (e & -> & ->). left. by eexists.
Qed.
End refinement.

(** ** Ranks and evidence *)

Lemma trans_rank rt t u u' : upgrade_trans rt t u u' → rank (phase u) ≤ rank (phase u').
Proof.
  destruct 1 as [[E|E] -> _|E -> _ _|E -> _ _|E -> _ _ _|E -> _ _|E -> _ _ _|E -> _ _ _
    |E -> _ _ _|[[E|E]|[E|[E|E]]] -> _ _]; rewrite E; vm_compute; lia.
Qed.

Lemma upgrade_trans_not_terminal rt t u u' :
  upgrade_trans rt t u u' → phase u ≠ UpgradePhaseCompleted ∧ phase u ≠ UpgradePhaseFailed.
Proof.
  destruct 1 as [[E|E] _ _|E _ _ _|E _ _ _|E _ _ _ _|E _ _ _|E _ _ _ _|E _ _ _ _
    |E _ _ _ _|[[E|E]|[E|[E|E]]] _ _ _]; rewrite E; done.
Qed.

Lemma upgrade_evidence_mono t l u : evidence t u → evidence (t ++ l) u.
Proof.
  intros (H1 & H2 & H3). unfold evidence, height_reached, all_switched, all_verified in *.
  split_and!; intros Hp.
  - destruct (H1 Hp) as (h & ? & ?). exists h. split; [apply elem_of_app; by left|done].
  - destruct (H2 Hp) as (c & ? & Hc). exists c.
    split; [apply elem_of_app; by left|]. intros i Hi. apply elem_of_app. left. auto.
  - destruct (H3 Hp) as (c & ? & Hc). exists c.
    split; [apply elem_of_app; by left|]. intros i Hi. apply elem_of_app. left. auto.
Qed.

(** A phase list decides membership. *)
Ltac phase_in :=
  repeat match goal with
  | H : phase ?u = _ |- context [phase ?u] => rewrite H
  | H : phase ?u = _, H' : context [phase ?u] |- _ =>
      lazymatch type of H' with phase u = _ => fail | _ => rewrite H in H' end
  end.

Lemma same_spec_evidence t u u' :
  u_Spec u' = u_Spec u →
  (height_reached t u' ↔ height_reached t u) ∧ (all_switched t u' ↔ all_switched t u) ∧
  (all_verified t u' ↔ all_verified t u).
Proof.
  intros Hsp. unfold height_reached, all_switched, all_verified, devnet_of. by rewrite Hsp.
Qed.

Definition past (u : Upgrade) : nat := rank (phase u).

Lemma evidence_early t u :
  phase u ≠ UpgradePhaseSwitching → phase u ≠ UpgradePhaseVerifying →
  phase u ≠ UpgradePhaseCompleted → evidence t u.
Proof.
  intros H1 H2 H3. split_and!; [| |done]; rewrite ?elem_of_cons, ?elem_of_nil; intuition done.
Qed.

Lemma upgrade_trans_evidence t u u' :
  upgrade_trans true t u u' → evidence t u → evidence t u'.
Proof.
  intros Ht He. destruct Ht as [_ E _|_ E _ _|_ E _ _|_ E _ _ _|_ E _ _|E0 E _ Hsp Hh|E0 E _ Hsp Hh
    |E0 E _ Hsp Hh|_ E _ _]; try (apply evidence_early; rewrite E; done).
  - destruct (same_spec_evidence t u u' Hsp) as (Hi1 & _).
    split_and!; rewrite E; rewrite ?elem_of_cons, ?elem_of_nil; [tauto|intuition done|done].
  - destruct (same_spec_evidence t u u' Hsp) as (Hi1 & Hi2 & _).
    destruct He as (H1 & _ & _). rewrite E0 in H1.
    split_and!; rewrite E; [intros _|intros _|done].
    + apply Hi1, H1. by left.
    + apply Hi2. auto.
  - destruct (same_spec_evidence t u u' Hsp) as (Hi1 & Hi2 & Hi3).
    destruct He as (H1 & H2 & _). rewrite E0 in H1, H2.
    split_and!; rewrite E; intros _.
    + apply Hi1, H1. right. by left.
    + apply Hi2, H2. by left.
    + apply Hi3. auto.
Qed.

(** ** Convergence *)

(** A chain on which the upgrade [u] goes through. *)
Definition good_chain (runtime : option UpgradeRuntime) (u : Upgrade) : Prop :=
  match runtime with
  | None => True
  | Some r =>
      (us_TargetHeight (u_Spec u) ≠ 0)%Z ∧
      (∀ t d n h, ∃ p, SubmitUpgradeProposal r t d n h = Ok p) ∧
      (∀ t d p, ∃ a b, GetProposalStatus r t d p = Ok (a, b, true)) ∧
      (∀ t d, ∃ h, GetCurrentHeight r t d = Ok h ∧ (us_TargetHeight (u_Spec u) ≤ h)%Z) ∧
      (∀ t d i b, SwitchNodeBinary r t d i b = None) ∧
      (∀ t d i v, VerifyNodeVersion r t d i v = Ok true) ∧
      (∀ t d, ∃ c, GetValidatorCount r t d = Ok c)
  end.

(** The phase after. *)
Definition next_phase (p : string) : string :=
  if bool_decide (p = "") || bool_decide (p = UpgradePhasePending) then UpgradePhaseProposing
  else if bool_decide (p = UpgradePhaseProposing) then UpgradePhaseVoting
  else if bool_decide (p = UpgradePhaseVoting) then UpgradePhaseWaiting
  else if bool_decide (p = UpgradePhaseWaiting) then UpgradePhaseSwitching
  else if bool_decide (p = UpgradePhaseSwitching) then UpgradePhaseVerifying
  else if bool_decide (p = UpgradePhaseVerifying) then UpgradePhaseCompleted
  else p.

Section convergence.
Context {S : Type} `{StoreLive S}.
Variable runtime : option UpgradeRuntime.
Implicit Types (w : World S UpgradeCall) (u : Upgrade).

Definition settled u (p : string) (out : option error * World S UpgradeCall) : Prop :=
  out.1 = None ∧ ∃ u', stored u' out.2 ∧ upgrade_id u' = upgrade_id u ∧
    u_Spec u' = u_Spec u ∧ phase u' = p.

Lemma upgrade_save_live u u1 w w' p :
  stored u w → w_store w' = w_store w → u_Metadata u1 = u_Metadata u →
  u_Spec u1 = u_Spec u → phase u1 = p → settled u p (SaveUpgrade u1 w').
Proof.
  intros [Hs Hu] E Hm Hsp Hp. unfold SaveUpgrade. rewrite saveM_eq. simpl. rewrite E.
  assert (Hid : upgrade_id u1 = upgrade_id u) by (unfold upgrade_id; by rewrite Hm).
  pose proof (UpdateUpgrade_live (w_clock w' (w_ticks w')) u1 u (w_store w) Hs) as Hl.
  rewrite Hid, Hm in Hl. specialize (Hl Hu eq_refl).
  destruct (UpdateUpgrade _ u1 (w_store w)) as [[e u'] s'] eqn:U. simpl in *. subst e.
  destruct (UpdateUpgrade_frame _ _ _ _ _ _ Hs U) as (Hs' & _ & Hsame & _ & Hl').
  assert (Hid' : upgrade_id u' = upgrade_id u) by (rewrite <- Hid; by apply key_same).
  destruct Hsame as (_ & Hsp' & Hst'). split; [done|]. exists u'.
  split; [split; simpl; [done|by rewrite Hid', <- Hid]|]. split; [done|].
  split; [by rewrite Hsp', Hsp|]. unfold phase. by rewrite Hst'.
Qed.

(** A loop that never returns early runs to its end. *)
Lemma forM_none {R} n i (body : Z → M (World S UpgradeCall) (option R)) w :
  (∀ j w, (body j w).1 = None ∧ w_store (body j w).2 = w_store w) →
  (forM n i body w).1 = None ∧ w_store (forM n i body w).2 = w_store w.
Proof.
  intros Hb. revert i w; induction n as [|n IH]; intros i w; simpl; [done|].
  rewrite bindM_eq. destruct (Hb i w) as [-> Hst]. destruct (IH (i + 1)%Z (body i w).2).
  split; congruence.
Qed.

Lemma reconcile_upgrade_live u w :
  good_chain runtime u → stored u w →
  settled u (next_phase (phase u)) (reconcile_upgrade runtime u w).
Proof.
  intros Hg Hs. unfold reconcile_upgrade, next_phase. fold (phase u).
  destruct (bool_decide _ || bool_decide _).
  { unfold reconcilePending, pending_rest. destruct runtime as [r|]; [|by eapply upgrade_save_live].
    destruct Hg as (Ht & _ & _ & _ & _ & _ & Hc). rewrite bool_decide_false by done.
    unfold validators, export. rewrite bindM_eq. simpl.
    destruct (Hc (w_trace w) (us_DevnetRef (u_Spec u))) as [c ->].
    destruct (us_WithExport _); [|by eapply upgrade_save_live].
    rewrite bindM_eq. simpl. destruct (ExportState _ _ _ _); by eapply upgrade_save_live. }
  case_bool_decide.
  { unfold reconcileProposing. destruct runtime as [r|]; [|by eapply upgrade_save_live].
    destruct Hg as (_ & Hp & _). unfold submit. rewrite bindM_eq. simpl.
    destruct (Hp (w_trace w) (us_DevnetRef (u_Spec u)) (us_UpgradeName (u_Spec u))
      (us_TargetHeight (u_Spec u))) as [p ->]. by eapply upgrade_save_live. }
  case_bool_decide.
  { unfold reconcileVoting, to_waiting. destruct runtime as [r|]; [|by eapply upgrade_save_live].
    destruct Hg as (_ & _ & Hp & _). destruct (auto_vote_called r u w) as [Hst _].
    unfold proposal_status. rewrite !bindM_eq. simpl.
    edestruct (Hp (w_trace (auto_vote r u w).2)) as (a & b & ->). by eapply upgrade_save_live. }
  case_bool_decide.
  { unfold reconcileWaiting, to_switching. destruct runtime as [r|]; [|by eapply upgrade_save_live].
    destruct Hg as (_ & _ & _ & Hh & _). unfold height. rewrite bindM_eq. simpl.
    destruct (Hh (w_trace w) (us_DevnetRef (u_Spec u))) as (h & -> & Hle).
    rewrite bool_decide_false by (simpl; lia). by eapply upgrade_save_live. }
  case_bool_decide.
  { unfold reconcileSwitching, to_verifying. destruct runtime as [r|]; [|by eapply upgrade_save_live].
    destruct Hg as (_ & _ & _ & _ & Hsw & _ & Hc). unfold validators. rewrite bindM_eq. simpl.
    destruct (Hc (w_trace w) (us_DevnetRef (u_Spec u))) as [c ->].
    rewrite bindM_eq. set (body := λ i, _). set (w1 := w <| w_trace := _ |>).
    destruct (forM_none (Z.to_nat c) 0 body w1) as [-> Hst].
    { intros j w0. unfold body, switch_binary. rewrite bindM_eq. simpl. by rewrite Hsw. }
    by eapply upgrade_save_live. }
  case_bool_decide.
  { unfold reconcileVerifying, to_completed. destruct runtime as [r|]; [|by eapply upgrade_save_live].
    destruct Hg as (_ & _ & _ & _ & _ & Hv & Hc). unfold validators. rewrite bindM_eq. simpl.
    destruct (Hc (w_trace w) (us_DevnetRef (u_Spec u))) as [c ->].
    rewrite bindM_eq. set (body := λ i, _). set (w1 := w <| w_trace := _ |>).
    destruct (forM_none (Z.to_nat c) 0 body w1) as [-> Hst].
    { intros j w0. unfold body, verify. rewrite bindM_eq. simpl. by rewrite Hv. }
    destruct (us_WithExport _); [|by eapply upgrade_save_live].
    unfold export. rewrite bindM_eq. simpl.
    destruct (ExportState _ _ _ _); by eapply upgrade_save_live. }
  split; [done|]. by exists u.
Qed.
End convergence.

(** Reconciling one key [n] times. *)
Fixpoint reconciles {S} `{Store S} (rt : option UpgradeRuntime) (n : nat) (key : string)
    : M (World S UpgradeCall) (option error) :=
  match n with
  | O => done_with None
  | Datatypes.S n => run! Reconcile rt key in reconciles rt n key
  end.

(** ** Properties *)

Section properties.
Context {S : Type} `{StoreSpec S}.
Implicit Types (w : World S UpgradeCall).

(** C8: refinement: whatever the chain answers, one [Reconcile] keeps the
    store well formed, changes no resource but upgrades, and moves an upgrade
    at most one step along the phase machine [upgrade_trans], resting on the
    answers its rules ask for. *)
Theorem Reconcile_refines_upgrade_trans rt key w :
  store_wf (w_store w) →
  let w' := (Reconcile rt key w).2 in
  let v := store_view (w_store w) in
  let v' := store_view (w_store w') in
  store_wf (w_store w') ∧
  v_devnets v' = v_devnets v ∧ v_nodes v' = v_nodes v ∧ v_txs v' = v_txs v ∧
  ∀ k, match v_upgrades v !! k with
       | Some u => ∃ u', v_upgrades v' !! k = Some u' ∧
           (u' = u ∨ upgrade_trans (has_rt rt) (w_trace w') u u')
       | None => v_upgrades v' !! k = None
       end.
Proof.
  intros Hs w' v v'. subst w' v v'.
  destruct (upgrade_Reconcile_cases rt key w Hs) as [[e E]|(u & Hu & E)]; rewrite E; simpl.
  - split_and!; [done..|]. intros k. destruct (_ !! k) as [u|]; [|done]. exists u. auto.
  - destruct (reconcile_upgrade_post rt u w Hu) as (Hs' & (Hd & Hn & Ht & Ho) & _ & u' & Hu' & Hr).
    split_and!; [done..|]. intros k. destruct (decide (k = upgrade_id u)) as [->|Hk].
    + destruct Hu as [_ Hu]. rewrite Hu. eauto.
    + rewrite Ho by done. destruct (_ !! k) as [u0|]; [|done]. exists u0. auto.
Qed.

(** Phases only advance: a [Reconcile] never takes an upgrade to an
    earlier phase, and never touches one that is Completed or Failed. *)
Theorem Reconcile_phases_advance rt key w k u :
  store_wf (w_store w) → v_upgrades (store_view (w_store w)) !! k = Some u →
  ∃ u', v_upgrades (store_view (w_store (Reconcile rt key w).2)) !! k = Some u' ∧
    rank (phase u) ≤ rank (phase u') ∧
    (phase u = UpgradePhaseCompleted ∨ phase u = UpgradePhaseFailed → u' = u).
Proof.
  intros Hs Hk. destruct (upgrade_Reconcile_cases rt key w Hs) as [[e E]|(u0 & Hu & E)]; rewrite E; simpl.
  - exists u. auto.
  - destruct (reconcile_upgrade_post rt u0 w Hu) as (_ & (_ & _ & _ & Ho) & _ & u' & Hu' & Hr).
    destruct (decide (k = upgrade_id u0)) as [->|Hne].
    + destruct Hu as [_ Hu]. simplify_eq. exists u'. split; [done|].
      destruct Hr as [->|Ht]; [done|]. split; [by eapply trans_rank|].
      destruct (upgrade_trans_not_terminal _ _ _ _ Ht). naive_solver.
    + exists u. rewrite Ho by done. auto.
Qed.

(** Safety of the upgrade: with a runtime, however the chain answers and
    however often and in whatever order upgrades are reconciled, an upgrade
    that is past Waiting had its target height reached according to the
    chain, one that is past Switching had its binary switched on every
    validator, and a Completed one was verified on every validator. *)
Theorem upgrade_run_evidence r w w' :
  store_wf (w_store w) →
  map_Forall (λ _ u, evidence (w_trace w) u) (v_upgrades (store_view (w_store w))) →
  upgrade_run (Some r) w w' →
  map_Forall (λ _ u, evidence (w_trace w') u) (v_upgrades (store_view (w_store w'))).
Proof.
  intros Hs He Hr. enough (store_wf (w_store w') ∧ map_Forall (λ _ u, evidence (w_trace w') u)
    (v_upgrades (store_view (w_store w')))) by tauto.
  induction Hr as [w|w key w' _ IH]; [done|]. destruct (IH Hs He) as [Hs' He']. clear IH.
  destruct (upgrade_Reconcile_cases (Some r) key w' Hs') as [[e E]|(u & Hu & E)]; rewrite E; [done|].
  destruct (reconcile_upgrade_post (Some r) u w' Hu)
    as (Hs2 & (_ & _ & _ & Ho) & (l & Hl) & u' & Hu' & Ht).
  destruct Hu as [_ Hu]. split; [done|]. intros k u0 Hk.
  destruct (decide (k = upgrade_id u)) as [->|Hne].
  - simplify_eq. rewrite Hl. pose proof (upgrade_evidence_mono _ l _ (He' _ _ Hu)) as He2.
    destruct Ht as [->|Ht]; [done|]. rewrite Hl in Ht. by eapply upgrade_trans_evidence.
  - rewrite Hl. apply upgrade_evidence_mono, (He' k). by rewrite <- Ho.
Qed.

(** Progress: on a store that saves what it should and a chain on which
    the proposal passes, the target height is reached and the nodes switch and
    verify, six reconciles of a pending upgrade complete it. *)
Theorem Reconcile_completes `{!StoreLive S} rt ns name key u w :
  good_chain rt u → parseDevnetKey key = (ns, name) → upgrade_id u = qualified ns name →
  stored u w → initial u →
  let out := reconciles rt 6 key w in
  out.1 = None ∧ ∃ u', v_upgrades (store_view (w_store out.2)) !! upgrade_id u = Some u' ∧
    phase u' = UpgradePhaseCompleted ∧ u_Spec u' = u_Spec u.
Proof.
  intros Hg Hkey Hid Hs Hp.
  assert (Hstep : ∀ u0 w0, stored u0 w0 → upgrade_id u0 = upgrade_id u → u_Spec u0 = u_Spec u →
    (Reconcile rt key w0).1 = None ∧
    ∃ u1, stored u1 (Reconcile rt key w0).2 ∧ upgrade_id u1 = upgrade_id u ∧
      u_Spec u1 = u_Spec u ∧ phase u1 = next_phase (phase u0)).
  { intros u0 w0 Hs0 Hid0 Hsp0.
    assert (E : Reconcile rt key w0 = reconcile_upgrade rt u0 w0).
    { unfold Reconcile. rewrite Hkey, bindM_eq. simpl. destruct Hs0 as [Hwf Hl].
      pose proof (GetUpgrade_spec ns name (w_store w0) Hwf) as Hget. unfold get_spec in Hget.
      rewrite <- Hid, <- Hid0, Hl in Hget. by rewrite Hget. }
    rewrite E. destruct (reconcile_upgrade_live rt u0 w0) as (He & u1 & Hs1 & Hid1 & Hsp1 & Hp1);
      [|done|].
    { unfold good_chain in *. by rewrite Hsp0. }
    split; [done|]. exists u1. by rewrite Hid1, Hsp1. }
  destruct (Hstep u w Hs eq_refl eq_refl) as (_ & u1 & Hs1 & Hid1 & Hsp1 & Hp1).
  destruct (Hstep u1 _ Hs1 Hid1 Hsp1) as (_ & u2 & Hs2 & Hid2 & Hsp2 & Hp2).
  destruct (Hstep u2 _ Hs2 Hid2 Hsp2) as (_ & u3 & Hs3 & Hid3 & Hsp3 & Hp3).
  destruct (Hstep u3 _ Hs3 Hid3 Hsp3) as (_ & u4 & Hs4 & Hid4 & Hsp4 & Hp4).
  destruct (Hstep u4 _ Hs4 Hid4 Hsp4) as (_ & u5 & Hs5 & Hid5 & Hsp5 & Hp5).
  destruct (Hstep u5 _ Hs5 Hid5 Hsp5) as (He6 & u6 & Hs6 & Hid6 & Hsp6 & Hp6).
  simpl. unfold done_with. rewrite !bindM_eq. simpl. split; [done|]. exists u6.
  destruct Hs6 as [_ Hs6]. rewrite Hid6 in Hs6. split; [done|]. split; [|done].
  rewrite Hp6, Hp5, Hp4, Hp3, Hp2, Hp1. by destruct Hp as [->| ->].
Qed.
End properties.

(** *** Witnesses *)

#[local] Existing Instance some_order.

Definition ex_upgrade : Upgrade :=
  mkUpgrade (mkResourceMeta "v2" "default" 0 0 0 ∅ ∅)
    (mkUpgradeSpec "d" "" "v2" 10 (mkBinarySource "local" "v2.0.0" "" "" "" "") false true)
    (mkUpgradeStatus "" 0 0 0 0 "" "" "" "").

Definition ex_store : MemoryStore := (MemStore.CreateUpgrade ex_upgrade NewMemoryStore).2.
Definition ex_world : World MemoryStore UpgradeCall :=
  mkWorld ex_store (λ n, Z.of_nat n) 0 [] [].

(** Two validators, at height 12. *)
Definition ex_chain : UpgradeRuntime := {|
  SubmitUpgradeProposal _ _ _ _ := Ok 4%Z;
  GetProposalStatus _ _ _ := Ok (2, 2, true)%Z;
  VoteOnProposal _ _ _ _ _ := None;
  GetCurrentHeight _ _ := Ok 12%Z;
  SwitchNodeBinary _ _ _ _ := None;
  VerifyNodeVersion _ _ _ _ := Ok true;
  ExportState _ _ _ := None;
  GetValidatorCount _ _ := Ok 2%Z |}.

Lemma upgrade_ex_world_wf : store_wf (w_store ex_world).
Proof.
  split_and!; [apply keyed_empty|apply keyed_empty| |apply keyed_empty].
  apply map_Forall_to_list. vm_compute. repeat constructor.
Qed.

Lemma upgrade_ex_stored : stored ex_upgrade ex_world.
Proof. split; [exact upgrade_ex_world_wf|]. by vm_compute. Qed.

Lemma Reconcile_refines_upgrade_trans_witness :
  ∃ u', v_upgrades (store_view (w_store (Reconcile (Some ex_chain) "default/v2" ex_world).2))
          !! "default/v2" = Some u' ∧ phase u' = "Proposing".
Proof.
  destruct (Reconcile_refines_upgrade_trans (Some ex_chain) "default/v2" ex_world upgrade_ex_world_wf)
    as (_ & _ & _ & _ & Hk). specialize (Hk "default/v2"). cbv zeta in Hk.
  replace (v_upgrades (store_view (w_store ex_world)) !! "default/v2") with (Some ex_upgrade)
    in Hk by (vm_compute; reflexivity).
  destruct Hk as (u' & Hu' & _). exists u'. split; [exact Hu'|].
  revert Hu'. vm_compute. intros [= <-]. reflexivity.
Defined.

Lemma Reconcile_phases_advance_witness :
  ∃ u', v_upgrades (store_view (w_store (Reconcile (Some ex_chain) "default/v2" ex_world).2))
          !! "default/v2" = Some u' ∧ rank "" ≤ rank (phase u').
Proof.
  destruct (Reconcile_phases_advance (Some ex_chain) "default/v2" ex_world "default/v2"
    ex_upgrade upgrade_ex_world_wf) as (u' & Hu' & Hr & _); [vm_compute; reflexivity|].
  exists u'. split; [exact Hu'|exact Hr].
Defined.

Definition ex_after (n : nat) : World MemoryStore UpgradeCall :=
  (reconciles (Some ex_chain) n "default/v2" ex_world).2.

Lemma upgrade_run_evidence_witness :
  map_Forall (λ _ u, evidence (w_trace (Reconcile (Some ex_chain) "default/v2" ex_world).2) u)
    (v_upgrades (store_view (w_store (Reconcile (Some ex_chain) "default/v2" ex_world).2))).
Proof.
  apply (upgrade_run_evidence ex_chain ex_world _ upgrade_ex_world_wf).
  - intros k u Hk.
    assert (Hf : map_Forall (λ _ u, phase u = "") (v_upgrades (store_view (w_store ex_world)))).
    { apply map_Forall_to_list. vm_compute. repeat constructor. }
    apply evidence_early; rewrite (Hf k u Hk); discriminate.
  - apply run_step. apply run_refl.
Defined.

Lemma Reconcile_completes_witness :
  (reconciles (Some ex_chain) 6 "default/v2" ex_world).1 = None ∧
  ∃ u', v_upgrades (store_view (w_store (ex_after 6))) !! "default/v2" = Some u' ∧
    phase u' = "Completed".
Proof.
  destruct (Reconcile_completes (Some ex_chain) "default" "v2" "default/v2" ex_upgrade ex_world)
    as (He & u' & Hu' & Hp & _).
  - split; [discriminate|]. repeat split; intros; repeat eexists; vm_compute; discriminate.
  - vm_compute. reflexivity.
  - vm_compute. reflexivity.
  - exact upgrade_ex_stored.
  - left. reflexivity.
  - split; [exact He|]. exists u'. split; [exact Hu'|exact Hp].
Defined.
