(* ===== verification/UpgradeService.v ===== *)
(** * The upgrade service ([internal/daemon/server/upgrade_service.go])

    Creating, reading, deleting, cancelling and retrying upgrades. *)

From stdpp Require Import base tactics numbers list strings gmap.
From S2P Require Import Prelude Types MemStore Store Auth Ante Convert World UpgradeController.

Section service.
Context {S T : Type} `{Store S}.
Variable has_ante : bool.
Variable has_manager : bool.

Abbreviation W := (World S T).

Definition required {A} (field value : string) (k : M W (rpc A)) : M W (rpc A) :=
  if bool_decide (value = "")
  then done_with (RpcErr InvalidArgument (field +:+ " is required")) else k.

Definition enqueue_upgrade (namespace name : string) : M W unit :=
  if has_manager then enqueue "upgrades" (namespace +:+ "/" +:+ name) else done_with tt.

(** From the existence of the devnet on. *)
Definition create_upgrade (req : CreateUpgradeRequest) (spec : ProtoUpgradeSpec)
    : M W (rpc ProtoUpgrade) :=
  let namespace := if bool_decide (cu_Namespace req = "") then DefaultNamespace
                   else cu_Namespace req in
  do! r := readM (GetDevnet namespace (pu_DevnetRef spec)) in
  match r with
  | Err e => done_with
      (if IsNotFound e
       then RpcErr NotFound ("devnet " +:+ quote (pu_DevnetRef spec) +:+ " not found")
       else RpcErr Internal ("failed to verify devnet: " +:+ Error e))
  | Ok _ =>
      do! t := now in
      do! ' (err, upgrade) := updateM CreateUpgrade (CreateUpgradeRequestToUpgrade t req) in
      match err with
      | Some e => done_with
          (if IsAlreadyExists e
           then RpcErr AlreadyExists ("upgrade " +:+ quote (cu_Name req) +:+ " already exists")
           else RpcErr Internal ("failed to create upgrade: " +:+ Error e))
      | None =>
          run! enqueue_upgrade namespace (cu_Name req) in
          done_with (RpcOk (UpgradeToProto upgrade))
      end
  end.

(** [ValidateCreateUpgrade] refuses a request without a spec; a spec that is
    nil after it would be dereferenced. *)
Definition CreateUpgrade_req (ctx : option UserInfo) (req : CreateUpgradeRequest)
    : M W (rpc ProtoUpgrade) :=
  let body := match cu_Spec req with
              | None => done_with (RpcErr InvalidArgument "spec is required")
              | Some spec => create_upgrade req spec
              end in
  if has_ante then λ w, validated (ValidateCreateUpgrade ctx req (w_store w)) body w
  else required "name" (cu_Name req)
    (match cu_Spec req with
     | None => body
     | Some spec => required "spec.devnet_ref" (pu_DevnetRef spec)
                      (required "spec.upgrade_name" (pu_UpgradeName spec) body)
     end).

Definition upgrade_missing {A} (name : string) (e : error) : rpc A :=
  if IsNotFound e then RpcErr NotFound ("upgrade " +:+ quote name +:+ " not found")
  else RpcErr Internal ("failed to get upgrade: " +:+ Error e).

Definition with_upgrade {A} (namespace name : string) (k : Upgrade → M W (rpc A)) : M W (rpc A) :=
  do! r := readM (GetUpgrade namespace name) in
  match r with
  | Err e => done_with (upgrade_missing name e)
  | Ok upgrade => k upgrade
  end.

Definition GetUpgrade_req (namespace name : string) : M W (rpc ProtoUpgrade) :=
  required "name" name (with_upgrade namespace name (λ u, done_with (RpcOk (UpgradeToProto u)))).

Definition ListUpgrades_req (namespace devnetName : string) : M W (rpc (list ProtoUpgrade)) :=
  do! r := readM (ListUpgrades namespace devnetName) in
  done_with (match r with
    | Err e => RpcErr Internal ("failed to list upgrades: " +:+ Error e)
    | Ok upgrades => RpcOk (UpgradeToProto <$> upgrades)
    end).

Definition DeleteUpgrade_req (namespace name : string) : M W (rpc bool) :=
  required "name" name (with_upgrade namespace name (λ upgrade,
    let phase := ust_Phase (u_Status upgrade) in
    if bool_decide (phase = UpgradePhasePending) || bool_decide (phase = UpgradePhaseCompleted) ||
       bool_decide (phase = UpgradePhaseFailed)
    then
      λ w, let '(err, s) := DeleteUpgrade namespace name (w_store w) in
           (match err with
            | Some e => RpcErr Internal ("failed to delete upgrade: " +:+ Error e)
            | None => RpcOk true
            end, w <| w_store := s |>)
    else done_with (RpcErr FailedPrecondition
           ("cannot delete upgrade in phase " +:+ quote phase +:+ " - cancel it first")))).

Definition CancelUpgrade_req (namespace name : string) : M W (rpc ProtoUpgrade) :=
  required "name" name (with_upgrade namespace name (λ upgrade,
    let phase := ust_Phase (u_Status upgrade) in
    if bool_decide (phase = UpgradePhaseCompleted)
    then done_with (RpcErr FailedPrecondition "cannot cancel a completed upgrade")
    else if bool_decide (phase = UpgradePhaseFailed)
    then done_with (RpcErr FailedPrecondition "upgrade already failed")
    else if bool_decide (phase = UpgradePhaseSwitching) ||
            bool_decide (phase = UpgradePhaseVerifying)
    then done_with (RpcErr FailedPrecondition ("cannot cancel upgrade in phase " +:+ quote phase
           +:+ " - binary switch in progress"))
    else
      do! ' (err, upgrade) := updateM UpdateUpgrade
        (upgrade <| u_Status; ust_Phase := UpgradePhaseFailed |>
                 <| u_Status; ust_Message := "Upgrade cancelled by user" |>
                 <| u_Status; ust_Error := "cancelled" |>) in
      done_with (match err with
        | Some e => RpcErr Internal ("failed to cancel upgrade: " +:+ Error e)
        | None => RpcOk (UpgradeToProto upgrade)
        end))).

Definition RetryUpgrade_req (namespace name : string) : M W (rpc ProtoUpgrade) :=
  required "name" name (
    let namespace := if bool_decide (namespace = "") then DefaultNamespace else namespace in
    with_upgrade namespace name (λ upgrade,
      let phase := ust_Phase (u_Status upgrade) in
      if bool_decide (phase ≠ UpgradePhaseFailed)
      then done_with (RpcErr FailedPrecondition
             ("can only retry failed upgrades, current phase: " +:+ quote phase))
      else
        do! ' (err, upgrade) := updateM UpdateUpgrade
          (upgrade <| u_Status; ust_Phase := UpgradePhasePending |>
                   <| u_Status; ust_Message := "Retrying upgrade" |>
                   <| u_Status; ust_Error := "" |>) in
        match err with
        | Some e => done_with (RpcErr Internal ("failed to retry upgrade: " +:+ Error e))
        | None =>
            run! enqueue_upgrade namespace name in
            done_with (RpcOk (UpgradeToProto upgrade))
        end)).
End service.

(** ** What the requests do *)

Section outcomes.
Context {S T : Type} `{StoreChanges S}.
Variable has_ante has_manager : bool.
Implicit Types w : World S T.

(** A request on a stored upgrade runs on it; without one it is refused. *)
Lemma with_upgrade_stored {A} ns name (k : Upgrade → M (World S T) (rpc A)) w :
  store_wf (w_store w) →
  match v_upgrades (store_view (w_store w)) !! qualified ns name with
  | Some u => with_upgrade ns name k w = k u w
  | None => ∃ m, with_upgrade ns name k w = (RpcErr NotFound m, w)
  end.
Proof.
  intros Hs. unfold with_upgrade, readM, getM. rewrite bindM_eq. cbn [fst snd].
  pose proof (GetUpgrade_spec ns name (w_store w) Hs) as Hg. unfold get_spec in Hg.
  destruct (_ !! _) as [u|]; [by rewrite Hg|]. destruct Hg as (e & -> & He).
  unfold upgrade_missing. rewrite He. eauto.
Qed.

(** Phases in which an upgrade can be cancelled and deleted. *)
Definition cancellable (p : string) : Prop :=
  p ≠ UpgradePhaseCompleted ∧ p ≠ UpgradePhaseFailed ∧
  p ≠ UpgradePhaseSwitching ∧ p ≠ UpgradePhaseVerifying.
Definition deletable (p : string) : Prop :=
  p = UpgradePhasePending ∨ p = UpgradePhaseCompleted ∨ p = UpgradePhaseFailed.

(** The store after a request that saved the upgrade. *)
Definition upgrade_saved (k : string) (u u' : Upgrade) w w' : Prop :=
  store_wf (w_store w') ∧ only_upgrade k (store_view (w_store w)) (store_view (w_store w')) ∧
  v_upgrades (store_view (w_store w')) !! k = Some u' ∧ u_Spec u' = u_Spec u.

(** A key whose upgrade has a final phase is reconciled without any effect. *)
Lemma reconcile_final runtime ns name u (wu : World S UpgradeCall) :
  store_wf (w_store wu) → no_slash ns →
  v_upgrades (store_view (w_store wu)) !! qualified ns name = Some u →
  phase u = UpgradePhaseCompleted ∨ phase u = UpgradePhaseFailed →
  Reconcile runtime (qualified ns name) wu = (None, wu).
Proof.
  intros Hs Hns Hu Hp. unfold Reconcile.
  rewrite (parse_request_key ns name Hns), bindM_eq. unfold readM, getM. cbn [fst snd].
  pose proof (GetUpgrade_spec (or_default ns) name (w_store wu) Hs) as Hg. unfold get_spec in Hg.
  rewrite qualified_default, Hu in Hg. rewrite Hg. unfold reconcile_upgrade. unfold phase in Hp.
  by destruct Hp as [-> | ->].
Qed.

Lemma cancellable_dec_eq p :
  (if bool_decide (p = UpgradePhaseCompleted) then false
   else if bool_decide (p = UpgradePhaseFailed) then false
   else if bool_decide (p = UpgradePhaseSwitching) || bool_decide (p = UpgradePhaseVerifying)
   then false else true) = true ↔ cancellable p.
Proof. unfold cancellable. repeat case_bool_decide; simpl; naive_solver. Qed.

(** A save by [UpdateUpgrade] of [u1], which differs from the stored [u] in its
    status only. *)
Lemma update_upgrade_saved ns name u u1 w :
  store_wf (w_store w) → v_upgrades (store_view (w_store w)) !! qualified ns name = Some u →
  u_Metadata u1 = u_Metadata u → u_Spec u1 = u_Spec u →
  let '((e, u'), w') := updateM UpdateUpgrade u1 w in
  match e with
  | None => upgrade_saved (qualified ns name) u u' w w' ∧ u_Status u' = u_Status u1
  | Some _ => store_view (w_store w') = store_view (w_store w)
  end ∧ w_enqueued w' = w_enqueued w ∧ store_wf (w_store w').
Proof.
  intros Hs Hu Hm Hsp. rewrite updateM_eq.
  destruct (store_keys (w_store w) Hs) as (_ & _ & Hkeys & _). pose proof (Hkeys _ _ Hu) as Hk.
  assert (Hid : upgrade_id u1 = upgrade_id u) by (unfold upgrade_id; by rewrite Hm).
  destruct (UpdateUpgrade _ u1 (w_store w)) as [[e u'] s] eqn:U.
  destruct (UpdateUpgrade_frame _ _ _ _ _ _ Hs U) as (Hs' & Ho & He). simpl.
  split; [|done]. destruct e as [e|]; [done|]. rewrite Hid, <- Hk in *.
  destruct He as ((_ & Hsp' & Hst) & _ & Hl). split; [|done]. split_and!; try done; [apply Ho..|].
  by rewrite Hsp'.
Qed.

(** Cancelling a stored upgrade.  It succeeds only before the binary
    switch (not in Switching, Verifying or a final phase); then the upgrade is
    Failed with the error cancelled, its spec and all else is as it was, and the
    upgrade controller does nothing for it any more.  In the other phases the
    answer is FailedPrecondition and nothing changes. *)
Theorem CancelUpgrade_req_outcomes ns name u w :
  store_wf (w_store w) → no_slash ns → name ≠ "" →
  v_upgrades (store_view (w_store w)) !! qualified ns name = Some u →
  let '(r, w') := CancelUpgrade_req ns name w in
  match r with
  | RpcOk _ => cancellable (phase u) ∧ ∃ u', upgrade_saved (qualified ns name) u u' w w' ∧
      phase u' = UpgradePhaseFailed ∧ ust_Error (u_Status u') = "cancelled" ∧
      ∀ runtime (wu : World S UpgradeCall), w_store wu = w_store w' →
        Reconcile runtime (qualified ns name) wu = (None, wu)
  | RpcErr c _ => store_view (w_store w') = store_view (w_store w) ∧
      (¬ cancellable (phase u) → c = FailedPrecondition ∧ w' = w)
  end.
Proof.
  intros Hs Hns Hname Hu. unfold CancelUpgrade_req, required. rewrite bool_decide_false by done.
  match goal with |- context [with_upgrade ns name ?k w] =>
    pose proof (with_upgrade_stored ns name k w Hs) as Hw end.
  rewrite Hu in Hw. rewrite Hw. clear Hw. fold (phase u).
  pose proof (cancellable_dec_eq (phase u)) as Hc.
  destruct (bool_decide (phase u = UpgradePhaseCompleted)); [by split|].
  destruct (bool_decide (phase u = UpgradePhaseFailed)); [by split|].
  destruct (_ || _); [by split|]. apply proj1 in Hc. specialize (Hc eq_refl).
  rewrite bindM_eq. match goal with |- context [updateM _ ?m _] => set (u1 := m) end.
  pose proof (update_upgrade_saved ns name u u1 w Hs Hu eq_refl eq_refl) as Hup.
  destruct (updateM _ u1 w) as [[[e|] u'] w']; destruct Hup as (Hup & Hq & Hs'); cbn.
  - split; [done|]. by intros Hn.
  - destruct Hup as [Hsv Hst]. split; [done|]. exists u'. split_and!; [done| | |].
    + unfold phase. by rewrite Hst.
    + by rewrite Hst.
    + intros runtime wu Hwu. eapply reconcile_final; [by rewrite Hwu|done| |].
      * rewrite Hwu. apply Hsv.
      * right. unfold phase. by rewrite Hst.
Qed.

(** Retrying a stored upgrade succeeds only when it is Failed; then it is
    Pending again, without an error, its key is enqueued, and nothing else
    changes.  In the other phases the answer is FailedPrecondition and nothing
    changes. *)
Theorem RetryUpgrade_req_outcomes ns name u w :
  store_wf (w_store w) → name ≠ "" →
  v_upgrades (store_view (w_store w)) !! qualified ns name = Some u →
  let '(r, w') := RetryUpgrade_req has_manager ns name w in
  match r with
  | RpcOk _ => phase u = UpgradePhaseFailed ∧ ∃ u',
      upgrade_saved (qualified ns name) u u' w w' ∧ initial u' ∧ ust_Error (u_Status u') = "" ∧
      w_enqueued w' = w_enqueued w ++
        (if has_manager then [("upgrades", qualified ns name)] else [])
  | RpcErr c _ => store_view (w_store w') = store_view (w_store w) ∧
      w_enqueued w' = w_enqueued w ∧
      (phase u ≠ UpgradePhaseFailed → c = FailedPrecondition ∧ w' = w)
  end.
Proof.
  intros Hs Hname Hu. unfold RetryUpgrade_req, required. rewrite bool_decide_false by done.
  change (if bool_decide (ns = "") then DefaultNamespace else ns) with (or_default ns).
  match goal with |- context [with_upgrade _ name ?k w] =>
    pose proof (with_upgrade_stored (or_default ns) name k w Hs) as Hw end.
  rewrite qualified_default, Hu in Hw. rewrite Hw. clear Hw. fold (phase u).
  case_bool_decide as Hp; [by split_and!|].
  rewrite bindM_eq. match goal with |- context [updateM _ ?m _] => set (u1 := m) end.
  pose proof (update_upgrade_saved ns name u u1 w Hs Hu eq_refl eq_refl) as Hup.
  destruct (updateM _ u1 w) as [[[e|] u'] w']; destruct Hup as (Hup & Hq & Hs'); cbn.
  - split_and!; [done|done|]. by intros Hn.
  - destruct Hup as [Hsv Hst]. unfold enqueue_upgrade. destruct has_manager; cbn;
      (split; [done|]); exists u'; (split_and!; [exact Hsv| | |]);
      try (by rewrite Hst); try (right; unfold phase; by rewrite Hst);
      by rewrite Hq, ?app_nil_r.
Qed.

(** An upgrade that has been proposed and is not finished is never deleted:
    a delete that succeeds removes an upgrade that was Pending, Completed or
    Failed and nothing else; any other delete of a stored upgrade is answered
    FailedPrecondition or leaves the store as it was. *)
Theorem DeleteUpgrade_req_outcomes ns name u w :
  store_wf (w_store w) → name ≠ "" →
  v_upgrades (store_view (w_store w)) !! qualified ns name = Some u →
  let '(r, w') := DeleteUpgrade_req ns name w in
  match r with
  | RpcOk b => b = true ∧ deletable (phase u) ∧ store_view (w_store w') =
      store_view (w_store w) <| v_upgrades :=
        delete (qualified ns name) (v_upgrades (store_view (w_store w))) |>
  | RpcErr c _ => store_view (w_store w') = store_view (w_store w) ∧
      (¬ deletable (phase u) → c = FailedPrecondition ∧ w' = w)
  end.
Proof.
  intros Hs Hname Hu. unfold DeleteUpgrade_req, required. rewrite bool_decide_false by done.
  match goal with |- context [with_upgrade ns name ?k w] =>
    pose proof (with_upgrade_stored ns name k w Hs) as Hw end.
  rewrite Hu in Hw. rewrite Hw. clear Hw. fold (phase u).
  assert (Hd : bool_decide (phase u = UpgradePhasePending) ||
    bool_decide (phase u = UpgradePhaseCompleted) ||
    bool_decide (phase u = UpgradePhaseFailed) = true ↔ deletable (phase u)).
  { unfold deletable. rewrite !orb_true_iff, !bool_decide_eq_true. tauto. }
  destruct (_ || _ || _); [|by split].
  pose proof (DeleteUpgrade_spec ns name (w_store w) Hs) as Hdel. simpl in Hdel.
  destruct (DeleteUpgrade ns name (w_store w)) as [[e|] s]; destruct Hdel as [Hs' Hdel]; cbn.
  - split; [apply Hdel|]. intros Hn. destruct Hn. by apply Hd.
  - split_and!; [done|by apply Hd|apply Hdel].
Qed.

(** The upgrade a request creates for a stored devnet. *)
Definition new_upgrade (req : CreateUpgradeRequest) (v : view) (u : Upgrade) : Prop :=
  ∃ spec, cu_Spec req = Some spec ∧ devnet_of u = pu_DevnetRef spec ∧ initial u ∧
    upgrade_id u = qualified (cu_Namespace req) (cu_Name req) ∧
    is_Some (v_devnets v !! qualified (cu_Namespace req) (pu_DevnetRef spec)).

(** How a create request may end, in the world [w]. *)
Definition create_ends (req : CreateUpgradeRequest) w (out : rpc ProtoUpgrade * World S T)
    : Prop :=
  let v := store_view (w_store w) in
  let k := qualified (cu_Namespace req) (cu_Name req) in
  store_wf (w_store out.2) ∧
  match out.1 with
  | RpcOk pb => ∃ u, new_upgrade req v u ∧ pb = UpgradeToProto u ∧ v_upgrades v !! k = None ∧
      store_view (w_store out.2) = v <| v_upgrades := <[k := u]> (v_upgrades v) |> ∧
      w_enqueued out.2 = w_enqueued w ++ (if has_manager then [("upgrades", k)] else [])
  | RpcErr _ _ => store_view (w_store out.2) = v ∧ w_enqueued out.2 = w_enqueued w
  end.

Lemma new_upgrade_of req spec v t u :
  cu_Spec req = Some spec → same_upgrade (CreateUpgradeRequestToUpgrade t req) u →
  is_Some (v_devnets v !! qualified (cu_Namespace req) (pu_DevnetRef spec)) →
  new_upgrade req v u.
Proof.
  intros Hsp (Hm & Hspec & Hst) Hd. exists spec. split_and!; [done| | | |done].
  - unfold devnet_of. rewrite Hspec. simpl. by rewrite Hsp.
  - right. unfold phase. by rewrite Hst.
  - unfold upgrade_id. rewrite (same_meta_FullName _ _ Hm), FullName_qualified. simpl.
    apply qualified_default.
Qed.

Lemma create_upgrade_ends req spec w :
  store_wf (w_store w) → cu_Spec req = Some spec →
  create_ends req w (create_upgrade has_manager req spec w).
Proof.
  intros Hs Hsp. unfold create_upgrade.
  change (if bool_decide (cu_Namespace req = "") then DefaultNamespace else cu_Namespace req)
    with (or_default (cu_Namespace req)).
  unfold readM, getM. rewrite bindM_eq. cbn [fst snd].
  pose proof (GetDevnet_spec (or_default (cu_Namespace req)) (pu_DevnetRef spec) (w_store w) Hs)
    as Hg. unfold get_spec in Hg. rewrite qualified_default in Hg.
  destruct (v_devnets (store_view (w_store w)) !! _) as [d|] eqn:Hd;
    [|by destruct Hg as (e & -> & ->)].
  rewrite Hg. unfold now. rewrite !bindM_eq, updateM_eq. cbn [fst snd].
  set (t0 := w_clock w _). set (u1 := CreateUpgradeRequestToUpgrade t0 req).
  match goal with |- context [CreateUpgrade ?t' u1 _] => set (t1 := t') end.
  change (w_store (w <| w_ticks := Datatypes.S (w_ticks w) |>)) with (w_store w).
  pose proof (CreateUpgrade_spec t1 u1 (w_store w) Hs) as Hc. simpl in Hc.
  destruct (CreateUpgrade t1 u1 (w_store w)) as [[e u] s]. destruct Hc as (Hs' & Hsm & Hc).
  cbn [fst snd]. pose proof (new_upgrade_of req spec (store_view (w_store w)) t0 u Hsp Hsm
    ltac:(by rewrite Hd)) as Hnew.
  assert (Hid : upgrade_id u1 = qualified (cu_Namespace req) (cu_Name req)).
  { destruct Hnew as (_ & _ & _ & _ & <- & _). symmetry.
    by apply (key_same (R:=Upgrade) (key:=upgrade_id)). }
  rewrite Hid in Hc. destruct e as [e|]; [destruct Hc as [Hv _]; by destruct (IsAlreadyExists e)|].
  destruct Hc as [Hn Hv]. unfold create_ends, enqueue_upgrade.
  destruct has_manager; (split; [done|]); exists u;
    split_and!; try done; by rewrite ?app_nil_r.
Qed.

(** Creating an upgrade succeeds only for a devnet that is stored in the
    request's namespace and a name that is free there; then the upgrade of the
    request is stored, Pending, its key is enqueued, and nothing else changes.
    A refused request changes nothing and enqueues nothing. *)
Theorem CreateUpgrade_req_outcomes ctx req w :
  store_wf (w_store w) →
  create_ends req w (CreateUpgrade_req has_ante has_manager ctx req w).
Proof.
  intros Hs. unfold CreateUpgrade_req.
  assert (Hrefuse : ∀ c msg, create_ends req w (RpcErr c msg, w)) by done.
  set (body := match cu_Spec req with Some spec => _ | None => _ end).
  assert (Hbody : create_ends req w (body w)).
  { unfold body. destruct (cu_Spec req) eqn:Hsp; [by apply create_upgrade_ends|apply Hrefuse]. }
  destruct has_ante.
  - destruct (validated_refused (ValidateCreateUpgrade ctx req (w_store w)) body w)
      as [-> | (c & m & ->)]; [exact Hbody|apply Hrefuse].
  - unfold required. destruct (cu_Spec req); repeat case_bool_decide; try exact Hbody;
      apply Hrefuse.
Qed.
End outcomes.

(** ** Witnesses *)

#[local] Existing Instance some_order.

Definition ex_upgrade_in (p : string) : Upgrade := ex_upgrade <| u_Status; ust_Phase := p |>.
Definition ex_service_world (p : string) : World MemoryStore UpgradeCall :=
  mkWorld (MemStore.CreateUpgrade (ex_upgrade_in p) NewMemoryStore).2 (λ n, Z.of_nat n) 0 [] [].

Lemma ex_service_wf p : store_wf (w_store (ex_service_world p)).
Proof.
  split_and!; [apply keyed_empty|apply keyed_empty| |apply keyed_empty].
  apply map_Forall_to_list. vm_compute. repeat constructor.
Qed.

Lemma ex_service_stored p :
  v_upgrades (store_view (w_store (ex_service_world p))) !! qualified "" "v2" =
    Some (ex_upgrade_in p).
Proof. vm_compute. reflexivity. Qed.

Lemma CancelUpgrade_req_outcomes_witness :
  ∃ pb w', CancelUpgrade_req "" "v2" (ex_service_world UpgradePhaseVoting) = (RpcOk pb, w') ∧
    ∀ runtime, Reconcile runtime "default/v2" w' = (None, w').
Proof.
  pose proof (CancelUpgrade_req_outcomes (S:=MemoryStore) (T:=UpgradeCall) "" "v2"
    (ex_upgrade_in UpgradePhaseVoting) (ex_service_world UpgradePhaseVoting) (ex_service_wf _)
    eq_refl ltac:(discriminate) (ex_service_stored _)) as Ho.
  destruct (CancelUpgrade_req _ _ _) as [r w'] eqn:E.
  destruct r as [pb|c m]; [|apply (f_equal fst) in E; vm_compute in E; discriminate E].
  destruct Ho as (_ & u' & _ & _ & _ & Hr). exists pb, w'. split; [reflexivity|].
  intros runtime. apply (Hr runtime w' eq_refl).
Defined.

Lemma RetryUpgrade_req_outcomes_witness :
  ∃ pb w', RetryUpgrade_req true "" "v2" (ex_service_world UpgradePhaseFailed) = (RpcOk pb, w') ∧
    w_enqueued w' = [("upgrades", "default/v2")].
Proof.
  pose proof (RetryUpgrade_req_outcomes (S:=MemoryStore) (T:=UpgradeCall) true "" "v2"
    (ex_upgrade_in UpgradePhaseFailed) (ex_service_world UpgradePhaseFailed) (ex_service_wf _)
    ltac:(discriminate) (ex_service_stored _)) as Ho.
  destruct (RetryUpgrade_req _ _ _ _) as [r w'] eqn:E.
  destruct r as [pb|c m]; [|apply (f_equal fst) in E; vm_compute in E; discriminate E].
  destruct Ho as (_ & u' & _ & _ & _ & Hq). exists pb, w'. split; [reflexivity|exact Hq].
Defined.

Lemma DeleteUpgrade_req_outcomes_witness :
  ∃ m, DeleteUpgrade_req "" "v2" (ex_service_world UpgradePhaseVoting) =
    (RpcErr FailedPrecondition m, ex_service_world UpgradePhaseVoting).
Proof.
  pose proof (DeleteUpgrade_req_outcomes (S:=MemoryStore) (T:=UpgradeCall) "" "v2"
    (ex_upgrade_in UpgradePhaseVoting) (ex_service_world UpgradePhaseVoting) (ex_service_wf _)
    ltac:(discriminate) (ex_service_stored _)) as Ho.
  destruct (DeleteUpgrade_req _ _ _) as [r w'] eqn:E.
  destruct r as [b|c m]; [apply (f_equal fst) in E; vm_compute in E; discriminate E|].
  destruct Ho as [_ Ho]. destruct Ho as [-> ->]; [|by exists m].
  intros [Hp|[Hp|Hp]]; discriminate Hp.
Defined.

Definition ex_proposed : CreateUpgradeRequest :=
  mkCreateUpgradeRequest "v3" (Some (mkProtoUpgradeSpec "d" "v3" 10 None false true)) "".
Definition ex_devnet_world : World MemoryStore UpgradeCall :=
  mkWorld (MemStore.CreateDevnet (example_devnet "" "d") NewMemoryStore).2 (λ n, Z.of_nat n) 0 [] [].

Lemma CreateUpgrade_req_outcomes_witness :
  ∃ pb w', CreateUpgrade_req false true None ex_proposed ex_devnet_world = (RpcOk pb, w') ∧
    w_enqueued w' = [("upgrades", "default/v3")].
Proof.
  assert (Hwf : store_wf (w_store ex_devnet_world)).
  { split_and!; apply map_Forall_to_list; vm_compute; repeat constructor. }
  pose proof (CreateUpgrade_req_outcomes (S:=MemoryStore) (T:=UpgradeCall) false true None
    ex_proposed ex_devnet_world Hwf) as Ho.
  destruct (CreateUpgrade_req _ _ _ _ _) as [r w'] eqn:E.
  destruct r as [pb|c m]; [|apply (f_equal fst) in E; vm_compute in E; discriminate E].
  destruct Ho as (_ & u & _ & _ & _ & _ & Hq). exists pb, w'. split; [reflexivity|exact Hq].
Defined.
