(* ===== verification/TxController.v ===== *)
(** * The transaction controller ([internal/daemon/controller/transaction.go])

    [Reconcile] takes a transaction through Pending, Building, Signing and
    Submitted to Confirmed, or to Failed, with the builder and chain of
    [TxRuntime] ([tx_runtime.go]; an interface, as is [network.TxBuilder]).  The
    controller's state is the cache of unsigned transactions.  A nil runtime is
    [None], and calling it is the panic [Panicked].  The contexts the calls
    check for cancellation answer by the instant they are asked.  The end of
    the file models the requests of [internal/daemon/server/transaction_service.go]
    that create and cancel a transaction. *)

From stdpp Require Import base tactics numbers list strings relations gmap.
From S2P Require Import Prelude Types MemStore Store Auth World.

(** ** Data ([pkg/network/txbuilder.go], [tx_runtime.go]) *)

Record TxBuildRequest := mkTxBuildRequest {
  br_TxType : string;
  br_Sender : string;
  br_Payload : string;
  br_ChainID : string;
  br_GasLimit : Z;
  br_GasPrice : string;
  br_Memo : string
}.

Record UnsignedTx := mkUnsignedTx {
  un_TxBytes : string;
  un_SignDoc : string;
  un_AccountNumber : Z;
  un_Sequence : Z
}.

Record SigningKey := mkSigningKey {
  sk_Address : string;
  sk_PrivKey : string;
  sk_KeyringRef : string
}.

Record SignedTx := mkSignedTx {
  sg_TxBytes : string;
  sg_Signature : string;
  sg_PubKey : string
}.

Record TxBroadcastResult := mkTxBroadcastResult {
  bc_TxHash : string;
  bc_Code : Z;
  bc_Log : string;
  bc_Height : Z
}.

Record TxReceipt := mkTxReceipt {
  rc_TxHash : string;
  rc_Height : Z;
  rc_GasUsed : Z;
  rc_Success : bool;
  rc_Log : string
}.

(** Calls to the runtime and, for the builder of a devnet, to the builder. *)
Inductive TxCall :=
| CGetTxBuilder (devnet : string) (answer : option error)
| CBuildTx (devnet : string) (req : TxBuildRequest) (answer : result UnsignedTx)
| CGetSigningKey (devnet signer : string) (answer : result SigningKey)
| CSignTx (devnet : string) (tx : UnsignedTx) (key : SigningKey) (answer : result SignedTx)
| CBroadcastTx (devnet : string) (tx : SignedTx) (answer : result TxBroadcastResult)
| CWaitForConfirmation (devnet txHash : string) (answer : result TxReceipt).

(** [network.TxBuilder]. *)
Record TxBuilder := {
  BuildTx : list TxCall → TxBuildRequest → result UnsignedTx;
  SignTx : list TxCall → UnsignedTx → SigningKey → result SignedTx;
  BroadcastTx : list TxCall → SignedTx → result TxBroadcastResult
}.

(** [TxRuntime]. *)
Record TxRuntime := {
  GetTxBuilder : list TxCall → string → result TxBuilder;
  GetSigningKey : list TxCall → string → string → result SigningKey;
  WaitForConfirmation : list TxCall → string → string → result TxReceipt
}.

Definition error_of {A} (r : result A) : option error :=
  match r with Ok _ => None | Err e => Some e end.

(** ** The controller *)

Inductive outcome :=
| Returned (err : option error)
| Panicked.

Section controller.
Context {S : Type} `{Store S}.
Variable runtime : option TxRuntime.
(** [ctx.Err()] at each instant it is asked. *)
Variable ctx_err : nat → option error.

(** The world and [unsignedTxCache]. *)
Abbreviation W := (World S TxCall * gmap string UnsignedTx)%type.
Implicit Types tx : Transaction.

Definition liftM {A} (m : M (World S TxCall) A) : M W A :=
  λ '(w, cache), let '(a, w) := m w in (a, (w, cache)).
Definition cacheM {A} (f : gmap string UnsignedTx → A) : M W A := getM (λ '(_, c), f c).
Definition set_cacheM (f : gmap string UnsignedTx → gmap string UnsignedTx) : M W unit :=
  modifyM (λ '(w, c), (w, f c)).

(** [select { case <-ctx.Done(): return ... default: }]. *)
Definition check_ctx (msg : string) (k : M W outcome) : M W outcome :=
  do! err := liftM (λ w, (ctx_err (w_ticks w), w <| w_ticks := Datatypes.S (w_ticks w) |>)) in
  match err with
  | Some e => done_with (Returned (Some (Wrap msg e)))
  | None => k
  end.

Definition SaveTx tx : M W outcome :=
  do! e := liftM (saveM UpdateTransaction tx) in done_with (Returned e).

(** [tx.Metadata.UpdatedAt = time.Now()], then save. *)
Definition touch_and_save tx : M W outcome :=
  do! t := liftM now in SaveTx (tx <| t_Metadata; m_UpdatedAt := t |>).

Definition tx_phase (phase message : string) tx : Transaction :=
  tx <| t_Status; tst_Phase := phase |> <| t_Status; tst_Message := message |>.

Definition setFailed tx (errMsg : string) : M W outcome :=
  let tx := tx <| t_Status; tst_Phase := TxPhaseFailed |>
               <| t_Status; tst_Error := errMsg |>
               <| t_Status; tst_Message := "Transaction failed" |> in
  do! t := liftM now in
  run! set_cacheM (delete (m_Name (t_Metadata tx))) in
  SaveTx (tx <| t_Metadata; m_UpdatedAt := t |>).

(** The calls, each recorded with its answer. *)
Definition get_builder r d : M W (result TxBuilder) :=
  liftM (call_out (λ t, GetTxBuilder r t d) (λ a, CGetTxBuilder d (error_of a))).
Definition build b d req : M W (result UnsignedTx) :=
  liftM (call_out (λ t, BuildTx b t req) (CBuildTx d req)).
Definition get_key r d s : M W (result SigningKey) :=
  liftM (call_out (λ t, GetSigningKey r t d s) (CGetSigningKey d s)).
Definition sign b d u k : M W (result SignedTx) :=
  liftM (call_out (λ t, SignTx b t u k) (CSignTx d u k)).
Definition broadcast b d s : M W (result TxBroadcastResult) :=
  liftM (call_out (λ t, BroadcastTx b t s) (CBroadcastTx d s)).
Definition wait r d h : M W (result TxReceipt) :=
  liftM (call_out (λ t, WaitForConfirmation r t d h) (CWaitForConfirmation d h)).

(** The request both phases build, with the default gas limit. *)
Definition build_request tx : TxBuildRequest :=
  let gasLimit := if bool_decide (ts_GasLimit (t_Spec tx) = 0%Z) then 200000%Z
                  else ts_GasLimit (t_Spec tx) in
  mkTxBuildRequest (ts_TxType (t_Spec tx)) (ts_Signer (t_Spec tx)) (ts_Payload (t_Spec tx))
    "" gasLimit "" (ts_Memo (t_Spec tx)).

Definition reconcilePending tx : M W outcome :=
  touch_and_save (tx_phase TxPhaseBuilding "Building transaction" tx).

Definition reconcileBuilding tx : M W outcome :=
  check_ctx "context cancelled during building" (
  match runtime with
  | None => done_with Panicked
  | Some r =>
      do! builder := get_builder r (ts_DevnetRef (t_Spec tx)) in
      match builder with
      | Err e => setFailed tx ("failed to get TxBuilder: " +:+ Error e)
      | Ok b =>
          do! unsignedTx := build b (ts_DevnetRef (t_Spec tx)) (build_request tx) in
          match unsignedTx with
          | Err e => setFailed tx ("failed to build tx: " +:+ Error e)
          | Ok u =>
              run! set_cacheM (<[m_Name (t_Metadata tx) := u]>) in
              touch_and_save (tx_phase TxPhaseSigning "Signing transaction" tx)
          end
      end
  end).

(** [reconcileSigning] once the unsigned transaction is known. *)
Definition sign_and_broadcast r b tx (u : UnsignedTx) : M W outcome :=
  let d := ts_DevnetRef (t_Spec tx) in
  do! key := get_key r d (ts_Signer (t_Spec tx)) in
  match key with
  | Err e => setFailed tx ("failed to get signing key: " +:+ Error e)
  | Ok key =>
      do! signedTx := sign b d u key in
      match signedTx with
      | Err e => setFailed tx ("failed to sign tx: " +:+ Error e)
      | Ok signedTx =>
          do! result := broadcast b d signedTx in
          match result with
          | Err e => setFailed tx ("failed to broadcast tx: " +:+ Error e)
          | Ok res =>
              run! set_cacheM (delete (m_Name (t_Metadata tx))) in
              touch_and_save (tx <| t_Status; tst_Phase := TxPhaseSubmitted |>
                                 <| t_Status; tst_TxHash := bc_TxHash res |>
                                 <| t_Status; tst_Message := "Submitted: " +:+ bc_TxHash res |>)
          end
      end
  end.

Definition reconcileSigning tx : M W outcome :=
  check_ctx "context cancelled during signing" (
  match runtime with
  | None => done_with Panicked
  | Some r =>
      do! builder := get_builder r (ts_DevnetRef (t_Spec tx)) in
      match builder with
      | Err e => setFailed tx ("failed to get TxBuilder: " +:+ Error e)
      | Ok b =>
          do! cached := cacheM (lookup (m_Name (t_Metadata tx))) in
          match cached with
          | Some u => sign_and_broadcast r b tx u
          | None =>
              do! unsignedTx := build b (ts_DevnetRef (t_Spec tx)) (build_request tx) in
              match unsignedTx with
              | Err e => setFailed tx ("failed to rebuild tx: " +:+ Error e)
              | Ok u => sign_and_broadcast r b tx u
              end
          end
      end
  end).

Definition reconcileSubmitted tx : M W outcome :=
  check_ctx "context cancelled during confirmation" (
  match runtime with
  | None => done_with Panicked
  | Some r =>
      do! receipt := wait r (ts_DevnetRef (t_Spec tx)) (tst_TxHash (t_Status tx)) in
      match receipt with
      | Err e => setFailed tx ("confirmation failed: " +:+ Error e)
      | Ok rc =>
          if negb (rc_Success rc) then setFailed tx ("tx failed: " +:+ rc_Log rc)
          else touch_and_save
            (tx <| t_Status; tst_Phase := TxPhaseConfirmed |>
                <| t_Status; tst_Height := rc_Height rc |>
                <| t_Status; tst_GasUsed := rc_GasUsed rc |>
                <| t_Status; tst_Message := "Confirmed at height " +:+ itoa (rc_Height rc) |>)
      end
  end).

(** The switch on the phase. *)
Definition reconcile_tx tx : M W outcome :=
  let phase := tst_Phase (t_Status tx) in
  if bool_decide (phase = "") || bool_decide (phase = TxPhasePending)
  then reconcilePending tx
  else if bool_decide (phase = TxPhaseBuilding) then reconcileBuilding tx
  else if bool_decide (phase = TxPhaseSigning) then reconcileSigning tx
  else if bool_decide (phase = TxPhaseSubmitted) then reconcileSubmitted tx
  else done_with (Returned None).

Definition Reconcile (key : string) : M W outcome :=
  check_ctx "context cancelled before reconciliation" (
  do! r := liftM (readM (GetTransaction key)) in
  match r with
  | Err e => done_with (Returned (if IsNotFound e then None else Some e))
  | Ok tx => reconcile_tx tx
  end).

Fixpoint reconciles (n : nat) (key : string) : M W outcome :=
  match n with
  | O => done_with (Returned None)
  | Datatypes.S n => run! Reconcile key in reconciles n key
  end.
End controller.

(** ** The requests ([transaction_service.go]) *)

(** The fields of [v1.SubmitTransactionRequest]. *)
Record SubmitTransactionRequest := mkSubmitTransactionRequest {
  sr_Devnet : string;
  sr_TxType : string;
  sr_Signer : string;
  sr_Payload : string;
  sr_GasLimit : Z;
  sr_Memo : string
}.

Section service.
Context {S : Type} `{Store S}.
Variable has_manager : bool.
Abbreviation W := (World S TxCall).

Definition SubmitTransaction (req : SubmitTransactionRequest) : M W (rpc Transaction) :=
  if bool_decide (sr_Devnet req = "") then
    done_with (RpcErr InvalidArgument "devnet is required")
  else if bool_decide (sr_TxType req = "") then
    done_with (RpcErr InvalidArgument "tx_type is required")
  else if bool_decide (sr_Signer req = "") then
    done_with (RpcErr InvalidArgument "signer is required")
  else
    do! t := now in
    let tx := mkTransaction
      (mkResourceMeta ("tx-" +:+ sr_Devnet req +:+ "-" +:+ itoa t) DefaultNamespace
         0 t t ∅ ∅)
      (mkTransactionSpec (sr_Devnet req) "" (sr_TxType req) (sr_Signer req)
         (sr_Payload req) "" (sr_GasLimit req) (sr_Memo req))
      (mkTransactionStatus TxPhasePending "Transaction created" "" 0 0 "") in
    do! ' (err, tx) := updateM CreateTransaction tx in
    match err with
    | Some e => done_with (RpcErr Internal ("failed to create transaction: " +:+ Error e))
    | None =>
        run! (if has_manager
              then enqueue "transactions" (DefaultNamespace +:+ "/" +:+ m_Name (t_Metadata tx))
              else done_with tt) in
        done_with (RpcOk tx)
    end.

Definition CancelTransaction (name : string) : M W (rpc Transaction) :=
  if bool_decide (name = "") then done_with (RpcErr InvalidArgument "name is required")
  else
    do! r := readM (GetTransaction name) in
    match r with
    | Err e => done_with
        (if IsNotFound e then RpcErr NotFound ("transaction " +:+ name +:+ " not found")
         else RpcErr Internal ("failed to get transaction: " +:+ Error e))
    | Ok tx =>
        if bool_decide (tst_Phase (t_Status tx) ≠ TxPhasePending) then
          done_with (RpcErr FailedPrecondition
            ("can only cancel pending transactions, current phase: "
             +:+ tst_Phase (t_Status tx)))
        else
          do! t := now in
          do! ' (err, tx) := updateM UpdateTransaction
            (tx <| t_Status; tst_Phase := TxPhaseFailed |>
                <| t_Status; tst_Error := "Cancelled by user" |>
                <| t_Status; tst_Message := "Transaction cancelled" |>
                <| t_Metadata; m_UpdatedAt := t |>) in
          match err with
          | Some e => done_with
              (RpcErr Internal ("failed to update transaction: " +:+ Error e))
          | None => done_with (RpcOk tx)
          end
    end.
End service.

(** ** The phase machine *)

Definition phase (t : Transaction) : string := tst_Phase (t_Status t).
Definition tx_devnet (t : Transaction) : string := ts_DevnetRef (t_Spec t).

Definition same_identity (t t' : Transaction) : Prop :=
  same_meta (t_Metadata t) (t_Metadata t') ∧ t_Spec t' = t_Spec t.

(** The trace holds the whole way of [tx] to the chain: built from its own
    parameters, signed with its signer's key, broadcast, with hash [h]. *)
Definition was_broadcast (tr : list TxCall) (tx : Transaction) (h : string) : Prop :=
  ∃ u k s res, CBuildTx (tx_devnet tx) (build_request tx) (Ok u) ∈ tr ∧
    CGetSigningKey (tx_devnet tx) (ts_Signer (t_Spec tx)) (Ok k) ∈ tr ∧
    CSignTx (tx_devnet tx) u k (Ok s) ∈ tr ∧
    CBroadcastTx (tx_devnet tx) s (Ok res) ∈ tr ∧ bc_TxHash res = h.

Inductive tx_trans (tr : list TxCall) (t t' : Transaction) : Prop :=
| tt_building : phase t = "" ∨ phase t = TxPhasePending → phase t' = TxPhaseBuilding →
    same_identity t t' → tx_trans tr t t'
| tt_signing u : phase t = TxPhaseBuilding → phase t' = TxPhaseSigning → same_identity t t' →
    CBuildTx (tx_devnet t) (build_request t) (Ok u) ∈ tr → tx_trans tr t t'
| tt_submitted : phase t = TxPhaseSigning → phase t' = TxPhaseSubmitted → same_identity t t' →
    was_broadcast tr t (tst_TxHash (t_Status t')) → tx_trans tr t t'
| tt_confirmed rc : phase t = TxPhaseSubmitted → phase t' = TxPhaseConfirmed →
    same_identity t t' → tst_TxHash (t_Status t') = tst_TxHash (t_Status t) →
    CWaitForConfirmation (tx_devnet t) (tst_TxHash (t_Status t)) (Ok rc) ∈ tr →
    rc_Success rc = true → tst_Height (t_Status t') = rc_Height rc →
    tst_GasUsed (t_Status t') = rc_GasUsed rc → tx_trans tr t t'
| tt_failed : phase t ∈ [TxPhaseBuilding; TxPhaseSigning; TxPhaseSubmitted] →
    phase t' = TxPhaseFailed → same_identity t t' → tst_Error (t_Status t') ≠ "" →
    tx_trans tr t t'.

(** The cache holds, per transaction name, something built from the
    transaction stored under it. *)
Definition cache_ok (tr : list TxCall) (txs : gmap string Transaction)
    (cache : gmap string UnsignedTx) : Prop :=
  ∀ k u tx, cache !! k = Some u → txs !! k = Some tx →
    CBuildTx (tx_devnet tx) (build_request tx) (Ok u) ∈ tr.

(** What the trace must show of a transaction that reached the chain. *)
Definition evidence (tr : list TxCall) (t : Transaction) : Prop :=
  (phase t = TxPhaseSubmitted ∨ phase t = TxPhaseConfirmed →
     was_broadcast tr t (tst_TxHash (t_Status t))) ∧
  (phase t = TxPhaseConfirmed →
     ∃ rc, CWaitForConfirmation (tx_devnet t) (tst_TxHash (t_Status t)) (Ok rc) ∈ tr ∧
       rc_Success rc = true ∧ tst_Height (t_Status t) = rc_Height rc).

(** ** The refinement *)

Section refinement.
Context {S : Type} `{StoreSpec S}.
Variable runtime : option TxRuntime.
Variable ctx_err : nat → option error.
Implicit Types (w : World S TxCall) (c : gmap string UnsignedTx) (t : Transaction).

Lemma liftM_eq {A} (m : M (World S TxCall) A) w c :
  liftM m (w, c) = ((m w).1, ((m w).2, c)).
Proof. unfold liftM. by destruct (m w). Qed.

Definition stored t w : Prop :=
  store_wf (w_store w) ∧ v_txs (store_view (w_store w)) !! tx_id t = Some t.

(** What handling the stored transaction [t] leaves, from the world [w] and
    the cache [c]. *)
Definition tx_post t w c (out : outcome * (World S TxCall * gmap string UnsignedTx)) : Prop :=
  let '(_, (w', c')) := out in
  store_wf (w_store w') ∧
  only_tx (tx_id t) (store_view (w_store w)) (store_view (w_store w')) ∧
  (∃ l, w_trace w' = w_trace w ++ l) ∧
  (∃ t', v_txs (store_view (w_store w')) !! tx_id t = Some t' ∧
    (t' = t ∨ tx_trans (w_trace w') t t')) ∧
  (∀ k, k ≠ tx_id t → c' !! k = c !! k) ∧
  (∀ u, c' !! tx_id t = Some u →
     CBuildTx (tx_devnet t) (build_request t) (Ok u) ∈ w_trace w').

(** The cache entry of [t] is one of its own builds. *)
Definition entry_ok t w c : Prop :=
  ∀ u, c !! tx_id t = Some u → CBuildTx (tx_devnet t) (build_request t) (Ok u) ∈ w_trace w.

(** [c'] is [c] but for the entry of [t]. *)
Definition others c t c' : Prop := ∀ k, k ≠ tx_id t → c' !! k = c !! k.

Lemma tx_post_done t w w' c o :
  stored t w → called w w' → entry_ok t w' c → tx_post t w c (o, (w', c)).
Proof.
  intros [Hs Ht] [E Hl] He. simpl. rewrite E. split_and!; [done..| |done|done]. exists t. auto.
Qed.

Lemma entry_called t w w' c : called w w' → entry_ok t w c → entry_ok t w' c.
Proof. intros Hc He u Hu. eapply called_elem; [done|]. auto. Qed.

Lemma entry_deleted t w c : entry_ok t w (delete (tx_id t) c).
Proof. intros u Hu. by rewrite lookup_delete_eq in Hu. Qed.

Lemma others_deleted t c : others c t (delete (tx_id t) c).
Proof. intros k Hk. by rewrite lookup_delete_ne. Qed.

(** A save of [t1], which has the name of [t]. *)
Lemma tx_save_post t t1 w c w' c' :
  stored t w → called w w' → others c t c' → entry_ok t w' c' → tx_id t1 = tx_id t →
  (∀ t', same_tx t1 t' → tx_trans (w_trace w') t t') →
  tx_post t w c (SaveTx t1 (w', c')).
Proof.
  intros [Hs Ht] [E Hl] Hoc He Hid Htr. unfold SaveTx. rewrite bindM_eq, liftM_eq, saveM_eq.
  simpl. rewrite E. destruct (UpdateTransaction _ t1 (w_store w)) as [[e t'] s'] eqn:U. simpl.
  destruct (UpdateTransaction_frame _ _ _ _ _ _ Hs U) as (Hs' & Ho & Hx). rewrite Hid in *.
  split_and!; [done|done|done| |done|done]. destruct e as [e|].
  - exists t. rewrite Hx. auto.
  - destruct Hx as (Hsame & _ & Hlk). exists t'. auto.
Qed.

(** [same_tx] with a touched copy of [t]. *)
Lemma touch_same t t1 tm t' :
  m_Name (t_Metadata t1) = m_Name (t_Metadata t) →
  same_tx (t1 <| t_Metadata; m_UpdatedAt := tm |>) t' →
  t_Metadata t1 = t_Metadata t → t_Spec t1 = t_Spec t →
  same_identity t t' ∧ t_Status t' = t_Status t1.
Proof.
  intros _ (Hm & Hsp & Hst) Em Es. unfold same_identity. simpl in *.
  rewrite Hsp, Hst, Es. split; [|done]. split; [|done]. by rewrite <- Em.
Qed.

Lemma touch_post t t1 w c w' c' :
  stored t w → called w w' → others c t c' → entry_ok t w' c' →
  t_Metadata t1 = t_Metadata t → t_Spec t1 = t_Spec t →
  (∀ t', same_identity t t' → t_Status t' = t_Status t1 → tx_trans (w_trace w') t t') →
  tx_post t w c (touch_and_save t1 (w', c')).
Proof.
  intros Hs Hc Hoc He Hm Hsp Htr. unfold touch_and_save. rewrite bindM_eq, liftM_eq.
  apply tx_save_post; [done|by apply called_tick|done|done| |].
  - unfold tx_id. simpl. by rewrite Hm.
  - intros t' Hsame. eapply touch_same in Hsame; [|by rewrite Hm|done|done].
    destruct Hsame. by apply Htr.
Qed.

Lemma tx_failed_post t w c w' msg :
  stored t w → called w w' →
  phase t ∈ [TxPhaseBuilding; TxPhaseSigning; TxPhaseSubmitted] → msg ≠ "" →
  tx_post t w c (setFailed t msg (w', c)).
Proof.
  intros Hs Hc Hp Hmsg. unfold setFailed. rewrite bindM_eq, liftM_eq. simpl.
  rewrite bindM_eq. simpl.
  apply tx_save_post; [done|by apply called_tick|apply others_deleted|apply entry_deleted|done|].
  intros t' Hsame. eapply touch_same in Hsame; [|done|done|done].
  destruct Hsame as [Hid Hst]. apply tt_failed; [done| |done|by rewrite Hst].
  unfold phase. by rewrite Hst.
Qed.

(** A check of the context changes nothing but the clock. *)
Lemma check_post t w c w' msg k :
  stored t w → called w w' → entry_ok t w c →
  (∀ w1, called w w1 → tx_post t w c (k (w1, c))) →
  tx_post t w c (check_ctx ctx_err msg k (w', c)).
Proof.
  intros Hs Hc He Hk. unfold check_ctx. rewrite bindM_eq, liftM_eq. simpl.
  destruct (ctx_err _); [|by apply Hk].
  apply tx_post_done; [done|done|by eapply entry_called].
Qed.

Hint Resolve called_refl called_out : core.

Lemma tx_reconcilePending_post t w c :
  stored t w → entry_ok t w c → phase t = "" ∨ phase t = TxPhasePending →
  tx_post t w c (reconcilePending t (w, c)).
Proof.
  intros Hs He Hp. apply touch_post; [done|auto|done|done|done|done|].
  intros t' Hid Hst. apply tt_building; [done| |done]. unfold phase. by rewrite Hst.
Qed.

Lemma phase_in p : p = TxPhaseBuilding ∨ p = TxPhaseSigning ∨ p = TxPhaseSubmitted →
  p ∈ [TxPhaseBuilding; TxPhaseSigning; TxPhaseSubmitted].
Proof. rewrite !elem_of_cons. tauto. Qed.

Lemma reconcileBuilding_post t w c :
  stored t w → entry_ok t w c → phase t = TxPhaseBuilding →
  tx_post t w c (reconcileBuilding runtime ctx_err t (w, c)).
Proof.
  intros Hs He Hp. assert (Hin : phase t ∈ [TxPhaseBuilding; TxPhaseSigning; TxPhaseSubmitted])
    by (apply phase_in; auto).
  apply check_post; [done|auto|done|]. intros w1 Hc1. destruct runtime as [r|];
    [|apply tx_post_done; [done|done|by eapply entry_called]].
  unfold get_builder. rewrite bindM_eq, liftM_eq. cbn [fst snd].
  set (w2 := (call_out _ _ w1).2). assert (Hc2 : called w w2) by (apply called_out; auto).
  destruct (call_out _ _ w1).1 as [b|e]; [|by apply tx_failed_post].
  unfold build. rewrite bindM_eq, liftM_eq. cbn [fst snd].
  set (log := CBuildTx _ _). set (f := λ tr : list TxCall, _).
  pose proof (call_recorded f log w2) as Hrec.
  assert (Hc3 : called w (call_out f log w2).2) by auto.
  destruct (call_out f log w2).1 as [u|e]; [|by apply tx_failed_post].
  rewrite bindM_eq. cbn [fst snd set_cacheM modifyM].
  apply touch_post; [done|done| | |done|done|].
  - intros k Hk. by rewrite lookup_insert_ne.
  - intros u'. unfold tx_id. rewrite lookup_insert_eq. by intros [= <-].
  - intros t' Hid Hst. apply (tt_signing _ _ _ u); [done| |done|done].
    unfold phase. by rewrite Hst.
Qed.

Lemma sign_and_broadcast_post r b t w c w1 u :
  stored t w → called w w1 → phase t = TxPhaseSigning →
  CBuildTx (tx_devnet t) (build_request t) (Ok u) ∈ w_trace w1 →
  tx_post t w c (sign_and_broadcast r b t u (w1, c)).
Proof.
  intros Hs Hc1 Hp Hb.
  assert (Hin : phase t ∈ [TxPhaseBuilding; TxPhaseSigning; TxPhaseSubmitted])
    by (apply phase_in; auto).
  unfold sign_and_broadcast, get_key, sign, broadcast.
  rewrite bindM_eq, liftM_eq. cbn [fst snd].
  set (log1 := CGetSigningKey _ _). set (f1 := λ tr : list TxCall, _).
  pose proof (call_recorded f1 log1 w1) as Hr1.
  pose proof (called_out f1 log1 w1 w1 (called_refl w1)) as Hn1.
  assert (Hc2 : called w (call_out f1 log1 w1).2) by auto.
  set (w2 := (call_out f1 log1 w1).2) in *.
  destruct (call_out f1 log1 w1).1 as [k|e]; [|by apply tx_failed_post].
  rewrite bindM_eq, liftM_eq. cbn [fst snd].
  set (log2 := CSignTx _ _ _). set (f2 := λ tr : list TxCall, _).
  pose proof (call_recorded f2 log2 w2) as Hr2.
  pose proof (called_out f2 log2 w2 w2 (called_refl w2)) as Hn2.
  assert (Hc3 : called w (call_out f2 log2 w2).2) by auto.
  set (w3 := (call_out f2 log2 w2).2) in *.
  destruct (call_out f2 log2 w2).1 as [s|e]; [|by apply tx_failed_post].
  rewrite bindM_eq, liftM_eq. cbn [fst snd].
  set (log3 := CBroadcastTx _ _). set (f3 := λ tr : list TxCall, _).
  pose proof (call_recorded f3 log3 w3) as Hr3.
  pose proof (called_out f3 log3 w3 w3 (called_refl w3)) as Hn3.
  assert (Hc4 : called w (call_out f3 log3 w3).2) by auto.
  set (w4 := (call_out f3 log3 w3).2) in *.
  destruct (call_out f3 log3 w3).1 as [res|e]; [|by apply tx_failed_post].
  rewrite bindM_eq. cbn [fst snd set_cacheM modifyM].
  apply touch_post; [done|done|apply others_deleted|apply entry_deleted|done|done|].
  intros t' Hid Hst. apply tt_submitted; [done| |done|].
  - unfold phase. by rewrite Hst.
  - rewrite Hst. simpl. exists u, k, s, res. split_and!; [| | | |done].
    + apply (called_elem w3 _ _ Hn3), (called_elem w2 _ _ Hn2), (called_elem w1 _ _ Hn1), Hb.
    + apply (called_elem w3 _ _ Hn3), (called_elem w2 _ _ Hn2), Hr1.
    + apply (called_elem w3 _ _ Hn3), Hr2.
    + exact Hr3.
Qed.

Lemma reconcileSigning_post t w c :
  stored t w → entry_ok t w c → phase t = TxPhaseSigning →
  tx_post t w c (reconcileSigning runtime ctx_err t (w, c)).
Proof.
  intros Hs He Hp. assert (Hin : phase t ∈ [TxPhaseBuilding; TxPhaseSigning; TxPhaseSubmitted])
    by (apply phase_in; auto).
  apply check_post; [done|auto|done|]. intros w1 Hc1. destruct runtime as [r|];
    [|apply tx_post_done; [done|done|by eapply entry_called]].
  unfold get_builder. rewrite bindM_eq, liftM_eq. cbn [fst snd].
  set (w2 := (call_out _ _ w1).2). assert (Hc2 : called w w2) by (apply called_out; auto).
  destruct (call_out _ _ w1).1 as [b|e]; [|by apply tx_failed_post].
  rewrite bindM_eq. cbn [fst snd cacheM getM].
  destruct (c !! m_Name (t_Metadata t)) as [u|] eqn:Hu.
  - apply sign_and_broadcast_post; [done|done|done|].
    eapply called_elem; [exact Hc2|]. by apply He.
  - unfold build. rewrite bindM_eq, liftM_eq. cbn [fst snd].
    set (log := CBuildTx _ _). set (f := λ tr : list TxCall, _).
    pose proof (call_recorded f log w2) as Hrec.
    assert (Hc3 : called w (call_out f log w2).2) by auto.
    destruct (call_out f log w2).1 as [u|e]; [|by apply tx_failed_post].
    by apply sign_and_broadcast_post.
Qed.

Lemma reconcileSubmitted_post t w c :
  stored t w → entry_ok t w c → phase t = TxPhaseSubmitted →
  tx_post t w c (reconcileSubmitted runtime ctx_err t (w, c)).
Proof.
  intros Hs He Hp. assert (Hin : phase t ∈ [TxPhaseBuilding; TxPhaseSigning; TxPhaseSubmitted])
    by (apply phase_in; auto).
  apply check_post; [done|auto|done|]. intros w1 Hc1. destruct runtime as [r|];
    [|apply tx_post_done; [done|done|by eapply entry_called]].
  unfold wait. rewrite bindM_eq, liftM_eq. cbn [fst snd].
  set (log := CWaitForConfirmation _ _). set (f := λ tr : list TxCall, _).
  pose proof (call_recorded f log w1) as Hrec.
  assert (Hc2 : called w (call_out f log w1).2) by auto.
  destruct (call_out f log w1).1 as [rc|e]; [|by apply tx_failed_post].
  destruct (rc_Success rc) eqn:Hok; simpl negb; [|by apply tx_failed_post].
  apply touch_post; [done|done|done|by eapply entry_called|done|done|].
  intros t' Hid Hst. apply (tt_confirmed _ _ _ rc);
    [done|by unfold phase; rewrite Hst|done|by rewrite Hst|done|done|by rewrite Hst..].
Qed.

Lemma reconcile_tx_post t w c :
  stored t w → entry_ok t w c →
  tx_post t w c (reconcile_tx runtime ctx_err t (w, c)).
Proof.
  intros Hs He. unfold reconcile_tx.
  destruct (bool_decide _ || bool_decide _) eqn:Hp.
  { apply tx_reconcilePending_post; [done|done|].
    apply orb_true_iff in Hp as [Hp|Hp]; apply bool_decide_eq_true in Hp; [by left|by right]. }
  clear Hp. case_bool_decide; [by apply reconcileBuilding_post|].
  case_bool_decide; [by apply reconcileSigning_post|].
  case_bool_decide; [by apply reconcileSubmitted_post|].
  apply tx_post_done; auto.
Qed.
End refinement.

(** ** Evidence over runs *)

Lemma was_broadcast_spec tr t t' h :
  t_Spec t' = t_Spec t → was_broadcast tr t h → was_broadcast tr t' h.
Proof. unfold was_broadcast, tx_devnet, build_request. by intros ->. Qed.

Lemma tx_evidence_mono tr l t : evidence tr t → evidence (tr ++ l) t.
Proof.
  assert (Hin : ∀ c, c ∈ tr → c ∈ tr ++ l) by (intros; apply elem_of_app; by left).
  intros [H1 H2]. split.
  - intros Hp. destruct (H1 Hp) as (u & k & s & res & ? & ? & ? & ? & ?).
    exists u, k, s, res. auto 10.
  - intros Hp. destruct (H2 Hp) as (rc & ? & ?). exists rc. auto.
Qed.

Lemma tx_trans_evidence tr t t' : tx_trans tr t t' → evidence tr t → evidence tr t'.
Proof.
  intros Ht [He _].
  destruct Ht as [_ Hp _|u _ Hp _ _|Hp0 Hp [_ Hsp] Hb|rc Hp0 Hp [_ Hsp] Hh Hw Hok Hg _|_ Hp _ _].
  - split; rewrite Hp; [intros [?|?]|intros ?]; done.
  - split; rewrite Hp; [intros [?|?]|intros ?]; done.
  - split; rewrite Hp; [|done]. intros _. by eapply was_broadcast_spec.
  - unfold evidence. rewrite Hh. split; intros _.
    + eapply was_broadcast_spec; [done|]. apply He. by left.
    + exists rc. unfold tx_devnet in *. by rewrite Hsp.
  - split; rewrite Hp; [intros [?|?]|intros ?]; done.
Qed.

Lemma tx_trans_not_terminal tr t t' :
  tx_trans tr t t' → phase t ≠ TxPhaseConfirmed ∧ phase t ≠ TxPhaseFailed.
Proof.
  destruct 1 as [[E|E] _ _|u E _ _ _|E _ _ _|rc E _ _ _ _ _ _ _|Hin _ _ _];
    try (rewrite E; done).
  rewrite !elem_of_cons, elem_of_nil in Hin. destruct_or! Hin; rewrite ?Hin; done.
Qed.

(** Reconciling any keys, one after the other. *)
Inductive tx_run {S} `{Store S} (rt : option TxRuntime) (ctx : nat → option error) :
    World S TxCall * gmap string UnsignedTx → World S TxCall * gmap string UnsignedTx → Prop :=
| run_refl x : tx_run rt ctx x x
| run_step x key x' : tx_run rt ctx x x' → tx_run rt ctx x (Reconcile rt ctx key x').2.

(** A runtime that serves the transaction to the end, and is asked to. *)
Definition good_chain (rt : option TxRuntime) : Prop :=
  ∃ r, rt = Some r ∧
    (∀ tr d, ∃ b, GetTxBuilder r tr d = Ok b ∧
       (∀ tr req, ∃ u, BuildTx b tr req = Ok u) ∧ (∀ tr u k, ∃ s, SignTx b tr u k = Ok s) ∧
       (∀ tr s, ∃ res, BroadcastTx b tr s = Ok res)) ∧
    (∀ tr d s, ∃ k, GetSigningKey r tr d s = Ok k) ∧
    (∀ tr d h, ∃ rc, WaitForConfirmation r tr d h = Ok rc ∧ rc_Success rc = true).

Definition next_phase (p : string) : string :=
  if bool_decide (p = "") || bool_decide (p = TxPhasePending) then TxPhaseBuilding
  else if bool_decide (p = TxPhaseBuilding) then TxPhaseSigning
  else if bool_decide (p = TxPhaseSigning) then TxPhaseSubmitted
  else if bool_decide (p = TxPhaseSubmitted) then TxPhaseConfirmed
  else p.

Section convergence.
Context {S : Type} `{StoreLive S}.
Variable rt : option TxRuntime.
Variable ctx_err : nat → option error.
Hypothesis Hctx : ∀ n, ctx_err n = None.
Hypothesis Hrt : good_chain rt.
Implicit Types (w : World S TxCall) (c : gmap string UnsignedTx) (t : Transaction).

Definition settled t (p : string)
    (out : outcome * (World S TxCall * gmap string UnsignedTx)) : Prop :=
  out.1 = Returned None ∧ ∃ t', stored t' out.2.1 ∧ tx_id t' = tx_id t ∧
    t_Spec t' = t_Spec t ∧ phase t' = p.

Lemma touch_live t t1 w w' c p :
  stored t w → tx_id t ≠ "" → w_store w' = w_store w → t_Metadata t1 = t_Metadata t →
  t_Spec t1 = t_Spec t → phase t1 = p → settled t p (touch_and_save t1 (w', c)).
Proof.
  intros [Hs Ht] Hne E Hm Hsp Hp. unfold touch_and_save, SaveTx.
  rewrite bindM_eq, liftM_eq. cbn [fst snd]. rewrite bindM_eq, liftM_eq, saveM_eq. simpl.
  rewrite E. set (t2 := t1 <| t_Metadata; m_UpdatedAt := _ |>).
  assert (Hid : tx_id t2 = tx_id t) by (unfold tx_id; simpl; by rewrite Hm).
  set (tm := w_clock _ _). 
  pose proof (UpdateTransaction_live tm t2 t (w_store w) Hs) as Hl.
  rewrite Hid in Hl. specialize (Hl Ht Hne).
  destruct (UpdateTransaction tm t2 (w_store w)) as [[e t'] s'] eqn:U. simpl in *. subst e.
  destruct (UpdateTransaction_frame _ _ _ _ _ _ Hs U) as (Hs' & _ & Hsame & _ & Hl').
  assert (Hid' : tx_id t' = tx_id t) by (rewrite <- Hid; by apply key_same).
  destruct Hsame as (_ & Hsp' & Hst'). split; [done|]. exists t'.
  split; [split; simpl; [done|by rewrite Hid', <- Hid]|]. split; [done|].
  split; [by rewrite Hsp'|]. unfold phase. by rewrite Hst'.
Qed.

Lemma check_live msg (k : M (World S TxCall * gmap string UnsignedTx) outcome) w c :
  check_ctx ctx_err msg k (w, c) =
    k (w <| w_ticks := Datatypes.S (w_ticks w) |>, c).
Proof. unfold check_ctx. rewrite bindM_eq, liftM_eq. simpl. by rewrite Hctx. Qed.

Lemma sign_and_broadcast_live r b t u w w' c :
  stored t w → tx_id t ≠ "" → w_store w' = w_store w →
  (∀ tr d s, ∃ k, GetSigningKey r tr d s = Ok k) →
  (∀ tr u k, ∃ s, SignTx b tr u k = Ok s) → (∀ tr s, ∃ res, BroadcastTx b tr s = Ok res) →
  settled t TxPhaseSubmitted (sign_and_broadcast r b t u (w', c)).
Proof.
  intros Hs Hne E Hk Hsi Hb. unfold sign_and_broadcast, get_key, sign, broadcast.
  rewrite bindM_eq, liftM_eq. simpl. edestruct Hk as [k ->].
  rewrite bindM_eq, liftM_eq. simpl. edestruct Hsi as [s ->].
  rewrite bindM_eq, liftM_eq. simpl. edestruct Hb as [res ->].
  rewrite bindM_eq. simpl. by eapply touch_live.
Qed.

Lemma reconcile_tx_live t w w' c :
  stored t w → tx_id t ≠ "" → w_store w' = w_store w →
  settled t (next_phase (phase t)) (reconcile_tx rt ctx_err t (w', c)).
Proof.
  intros Hs Hne E. destruct Hrt as (r & -> & Hb & Hk & Hw).
  unfold reconcile_tx, next_phase. fold (phase t).
  destruct (bool_decide _ || bool_decide _); [by eapply touch_live|].
  case_bool_decide.
  { unfold reconcileBuilding. rewrite check_live. unfold get_builder, build.
    rewrite bindM_eq, liftM_eq. simpl. edestruct Hb as (b & -> & Hbu & _).
    rewrite bindM_eq, liftM_eq. simpl. edestruct Hbu as [u ->].
    rewrite bindM_eq. simpl. by eapply touch_live. }
  case_bool_decide.
  { unfold reconcileSigning. rewrite check_live. unfold get_builder, build.
    rewrite bindM_eq, liftM_eq. simpl. edestruct Hb as (b & -> & Hbu & Hsi & Hbr).
    rewrite bindM_eq. simpl. destruct (c !! _) as [u|].
    - by eapply sign_and_broadcast_live.
    - rewrite bindM_eq, liftM_eq. simpl. edestruct Hbu as [u ->].
      by eapply sign_and_broadcast_live. }
  case_bool_decide.
  { unfold reconcileSubmitted. rewrite check_live. unfold wait.
    rewrite bindM_eq, liftM_eq. simpl. edestruct Hw as (rc & -> & ->). simpl.
    by eapply touch_live. }
  destruct Hs as [Hs Ht]. split; [done|]. exists t. unfold stored. simpl. by rewrite E.
Qed.
End convergence.

(** ** Properties *)

Section properties.
Context {S : Type} `{StoreSpec S}.
Implicit Types (w : World S TxCall) (c : gmap string UnsignedTx).

(** A key names the transaction it is handled as. *)
Lemma tx_Reconcile_cases rt ctx key w c :
  store_wf (w_store w) →
  (∃ o w', Reconcile rt ctx key (w, c) = (o, (w', c)) ∧ called w w') ∨
  (∃ t w', stored t w ∧ called w w' ∧
     Reconcile rt ctx key (w, c) = reconcile_tx rt ctx t (w', c)).
Proof.
  intros Hs. unfold Reconcile, check_ctx. rewrite bindM_eq, liftM_eq. simpl.
  set (w1 := w <| w_ticks := _ |>). assert (Hc : called w w1) by apply (called_tick w w), called_refl.
  destruct (ctx (w_ticks w)) as [e|]; [left; by eexists _, w1|].
  rewrite bindM_eq, liftM_eq. simpl.
  pose proof (GetTransaction_spec key (w_store w) Hs) as Hg. unfold get_spec in Hg.
  destruct (_ !! key) as [t|] eqn:Ht.
  - rewrite Hg. right. exists t, w1. split; [|done]. split; [done|].
    destruct (store_keys _ Hs) as (_ & _ & _ & Hk). by rewrite <- (Hk _ _ Ht).
  - destruct Hg as (e & -> & ->). left. by eexists _, w1.
Qed.

Lemma stored_called t w w' : stored t w → called w w' → stored t w'.
Proof. intros [Hs Ht] [E _]. unfold stored. by rewrite E. Qed.

Lemma Reconcile_post rt ctx key w c :
  store_wf (w_store w) →
  cache_ok (w_trace w) (v_txs (store_view (w_store w))) c →
  let '(o, (w', c')) := Reconcile rt ctx key (w, c) in
  (called w w' ∧ c' = c) ∨ ∃ t, stored t w ∧ tx_post t w c (o, (w', c')).
Proof.
  intros Hs Hc. destruct (tx_Reconcile_cases rt ctx key w c Hs)
    as [(o & w' & -> & Hcl)|(t & w1 & Ht & Hcl & ->)]; [by left|].
  assert (Ht1 : stored t w1) by by eapply stored_called.
  assert (He : entry_ok t w1 c).
  { intros u Hu. eapply called_elem; [done|]. eapply Hc; [done|]. by destruct Ht. }
  pose proof (reconcile_tx_post rt ctx t w1 c Ht1 He) as Hp.
  destruct (reconcile_tx rt ctx t (w1, c)) as [o [w' c']]. right. exists t. split; [done|].
  destruct Hcl as [E (l & Hl)]. simpl in *. rewrite E in Hp.
  destruct Hp as (? & ? & (l' & Hl') & ? & ? & ?). split_and!; [done|done| |done|done|done].
  exists (l ++ l'). by rewrite Hl', Hl, (assoc_L app).
Qed.

(** C9: refinement: whatever the runtime answers and whenever contexts are
    cancelled, one [Reconcile] keeps the store well formed, changes no
    resource but transactions, and moves a transaction at most one step along
    the phase machine [tx_trans], resting on the answers its rules ask for; a
    Confirmed or Failed transaction is never changed. *)
Theorem Reconcile_refines_tx_trans rt ctx key w c :
  store_wf (w_store w) → cache_ok (w_trace w) (v_txs (store_view (w_store w))) c →
  let '(_, (w', _)) := Reconcile rt ctx key (w, c) in
  let v := store_view (w_store w) in
  let v' := store_view (w_store w') in
  store_wf (w_store w') ∧
  v_devnets v' = v_devnets v ∧ v_nodes v' = v_nodes v ∧ v_upgrades v' = v_upgrades v ∧
  ∀ k, match v_txs v !! k with
       | Some t => ∃ t', v_txs v' !! k = Some t' ∧
           (t' = t ∨ tx_trans (w_trace w') t t') ∧
           (phase t = TxPhaseConfirmed ∨ phase t = TxPhaseFailed → t' = t)
       | None => v_txs v' !! k = None
       end.
Proof.
  intros Hs Hc. pose proof (Reconcile_post rt ctx key w c Hs Hc) as Hp.
  destruct (Reconcile rt ctx key (w, c)) as [o [w' c']]. simpl.
  destruct Hp as [[[E _] _]|(t & [_ Ht] & Hs' & (Hd & Hn & Hu & Ho) & _ & (t' & Ht' & Hr) & _)].
  - rewrite E. split_and!; [done..|]. intros k. destruct (_ !! k) as [t|]; [|done].
    exists t. auto.
  - split_and!; [done..|]. intros k. destruct (decide (k = tx_id t)) as [->|Hne].
    + rewrite Ht. exists t'. split; [done|]. split; [done|].
      destruct Hr as [->|Hr]; [done|]. destruct (tx_trans_not_terminal _ _ _ Hr). naive_solver.
    + rewrite Ho by done. destruct (_ !! k) as [t0|]; [|done]. exists t0. auto.
Qed.

(** Safety of the broadcast: however transactions are reconciled and
    whatever the runtime answers, a Submitted or Confirmed transaction was
    built from its own parameters (its gas limit, or 200000), signed with its
    signer's key and broadcast, and its hash is the one the chain answered; a
    Confirmed one has a successful receipt with the recorded height. *)
Theorem tx_run_evidence rt ctx w c w' c' :
  store_wf (w_store w) → cache_ok (w_trace w) (v_txs (store_view (w_store w))) c →
  map_Forall (λ _ t, evidence (w_trace w) t) (v_txs (store_view (w_store w))) →
  tx_run rt ctx (w, c) (w', c') →
  map_Forall (λ _ t, evidence (w_trace w') t) (v_txs (store_view (w_store w'))).
Proof.
  intros Hs Hc He Hr. set (I := λ x : World S TxCall * gmap string UnsignedTx,
    store_wf (w_store x.1) ∧
    cache_ok (w_trace x.1) (v_txs (store_view (w_store x.1))) x.2 ∧
    map_Forall (λ _ t, evidence (w_trace x.1) t) (v_txs (store_view (w_store x.1)))).
  enough (I (w', c')) by (by destruct H1 as (_ & _ & ?)).
  assert (HI : I (w, c)) by done. clear Hs Hc He. revert HI.
  generalize dependent (w', c'). generalize (w, c). clear w c w' c'.
  induction 1 as [x|x key [w c] _ IH]; [done|]. intros Hx. destruct (IH Hx) as (Hs & Hc & He).
  simpl in *. clear IH Hx x. pose proof (Reconcile_post rt ctx key w c Hs Hc) as Hp.
  destruct (Reconcile rt ctx key (w, c)) as [o [w' c']]. unfold I. simpl.
  destruct Hp as [[[E (l & Hl)] ->]|(t & [_ Ht] & Hs' & (_ & _ & _ & Ho) & (l & Hl) &
    (t' & Ht' & Hr) & Hoc & Hcc)].
  - rewrite E, Hl. split; [done|]. split.
    + intros k u tx Hu Htx. apply elem_of_app. left. by eapply Hc.
    + intros k tx Htx. by apply tx_evidence_mono, (He k).
  - split; [done|].
    assert (Hsp : t_Spec t' = t_Spec t).
    { destruct Hr as [->|[? ? [_ ?]|? ? ? [_ ?]|? ? [_ ?]|? ? ? [_ ?]|? ? [_ ?]]]; done. }
    split; intros k.
    + intros u tx Hu Htx. destruct (decide (k = tx_id t)) as [->|Hne].
      * simplify_eq. unfold tx_devnet, build_request. rewrite Hsp. by apply Hcc.
      * rewrite Hl. apply elem_of_app. left. rewrite Hoc in Hu by done.
        rewrite Ho in Htx by done. by eapply Hc.
    + intros tx Htx. destruct (decide (k = tx_id t)) as [->|Hne].
      * simplify_eq. destruct Hr as [->|Hr]; [rewrite Hl; by apply tx_evidence_mono, (He _ _ Ht)|].
        eapply tx_trans_evidence; [done|]. rewrite Hl. by apply tx_evidence_mono, (He _ _ Ht).
      * rewrite Hl. apply tx_evidence_mono, (He k). by rewrite <- Ho.
Qed.

(** Progress: on a store that saves what it should, with a runtime that
    serves every call and no cancelled context, four reconciles confirm a
    pending transaction. *)
Theorem Reconcile_confirms `{!StoreLive S} rt ctx t w c :
  good_chain rt → (∀ n, ctx n = None) → stored t w → tx_id t ≠ "" →
  phase t = "" ∨ phase t = TxPhasePending →
  let out := reconciles rt ctx 4 (tx_id t) (w, c) in
  out.1 = Returned None ∧ ∃ t', v_txs (store_view (w_store out.2.1)) !! tx_id t = Some t' ∧
    phase t' = TxPhaseConfirmed ∧ t_Spec t' = t_Spec t.
Proof.
  intros Hrt Hctx Hs Hne Hp.
  assert (Hstep : ∀ t0 x0, stored t0 x0.1 → tx_id t0 = tx_id t → t_Spec t0 = t_Spec t →
    (Reconcile rt ctx (tx_id t) x0).1 = Returned None ∧
    ∃ t1, stored t1 (Reconcile rt ctx (tx_id t) x0).2.1 ∧ tx_id t1 = tx_id t ∧
      t_Spec t1 = t_Spec t ∧ phase t1 = next_phase (phase t0)).
  { intros t0 [w0 c0] Hs0 Hid0 Hsp0. simpl in Hs0. unfold Reconcile.
    rewrite check_live by done. rewrite bindM_eq, liftM_eq. simpl.
    pose proof (GetTransaction_spec (tx_id t) (w_store w0) (proj1 Hs0)) as Hg.
    unfold get_spec in Hg. destruct Hs0 as [Hwf Ht0]. rewrite <- Hid0, Ht0 in Hg.
    rewrite <- Hid0, Hg.
    destruct (reconcile_tx_live rt ctx Hctx Hrt t0 w0
      (w0 <| w_ticks := Datatypes.S (w_ticks w0) |>) c0) as (He & t1 & Ht1 & Hid1 & Hsp1 & Hp1);
      [by split|by rewrite Hid0|done|].
    split; [done|]. exists t1. by rewrite Hsp1. }
  destruct (Hstep t (w, c) Hs eq_refl eq_refl) as (_ & t1 & Hs1 & Hid1 & Hsp1 & Hp1).
  destruct (Hstep t1 _ Hs1 Hid1 Hsp1) as (_ & t2 & Hs2 & Hid2 & Hsp2 & Hp2).
  destruct (Hstep t2 _ Hs2 Hid2 Hsp2) as (_ & t3 & Hs3 & Hid3 & Hsp3 & Hp3).
  destruct (Hstep t3 _ Hs3 Hid3 Hsp3) as (He4 & t4 & Hs4 & Hid4 & Hsp4 & Hp4).
  simpl. unfold done_with. rewrite !bindM_eq. simpl. split; [done|]. exists t4.
  destruct Hs4 as [_ Hs4]. rewrite Hid4 in Hs4. split; [done|]. split; [|done].
  rewrite Hp4, Hp3, Hp2, Hp1. by destruct Hp as [->| ->].
Qed.

(** A controller without a runtime (as the server wires it) panics on a
    transaction in phase Building. *)
Theorem nil_runtime_panics ctx t w c :
  (∀ n, ctx n = None) → stored t w → phase t = TxPhaseBuilding →
  (Reconcile None ctx (tx_id t) (w, c)).1 = Panicked.
Proof.
  intros Hctx [Hs Ht] Hp. unfold Reconcile. rewrite check_live by done.
  rewrite bindM_eq, liftM_eq. simpl.
  pose proof (GetTransaction_spec (tx_id t) (w_store w) Hs) as Hg.
  unfold get_spec in Hg. rewrite Ht in Hg. rewrite Hg.
  unfold reconcile_tx. fold (phase t). rewrite Hp. simpl.
  unfold reconcileBuilding. by rewrite check_live by done.
Qed.

(** The key a successful [SubmitTransaction] enqueues is not the key the
    controller reads transactions by: unless another transaction is named like
    that key, reconciling it returns without an error, calls nobody and leaves
    the store as it was, so the new transaction stays Pending. *)
Theorem submitted_transaction_is_not_reconciled rt ctx req w w' tx c :
  SubmitTransaction true req w = (RpcOk tx, w') → store_wf (w_store w') →
  (∀ n, ctx n = None) →
  ∃ key, w_enqueued w' = w_enqueued w ++ [("transactions", key)] ∧
    (v_txs (store_view (w_store w')) !! key = None →
     let out := Reconcile rt ctx key (w', c) in
     out.1 = Returned None ∧ w_store out.2.1 = w_store w' ∧ w_trace out.2.1 = w_trace w').
Proof.
  intros U Hs Hctx. exists (DefaultNamespace +:+ "/" +:+ m_Name (t_Metadata tx)). split.
  - revert U. unfold SubmitTransaction. repeat (case_bool_decide; [done|]).
    rewrite bindM_eq. simpl. rewrite bindM_eq, updateM_eq. simpl.
    destruct (CreateTransaction _ _ _) as [[[e|] t'] s']; simpl; [done|].
    unfold bindM. simpl. unfold done_with. by intros [= <- <-].
  - intros Hn. unfold Reconcile. rewrite check_live by done.
    rewrite bindM_eq, liftM_eq. simpl.
    pose proof (GetTransaction_spec (DefaultNamespace +:+ "/" +:+ m_Name (t_Metadata tx))
      (w_store w') Hs) as Hg. unfold get_spec in Hg. rewrite Hn in Hg.
    destruct Hg as (e & -> & ->). done.
Qed.

(** [CancelTransaction] answers [NotFound] for an unknown name and
    [FailedPrecondition] for a transaction that is not Pending, and then
    changes nothing; a success stores the transaction as Failed. *)
Theorem CancelTransaction_outcomes name w :
  store_wf (w_store w) → name ≠ "" →
  let '(r, w') := CancelTransaction name w in
  let txs := v_txs (store_view (w_store w)) in
  match txs !! name with
  | None => (∃ msg, r = RpcErr NotFound msg) ∧ w' = w
  | Some t =>
      if decide (phase t = TxPhasePending) then
        match r with
        | RpcOk t' => v_txs (store_view (w_store w')) = <[name := t']> txs ∧
            phase t' = TxPhaseFailed ∧ same_identity t t'
        | RpcErr code _ => code = Internal ∧ store_view (w_store w') = store_view (w_store w)
        end
      else (∃ msg, r = RpcErr FailedPrecondition msg) ∧ w' = w
  end.
Proof.
  intros Hs Hne. unfold CancelTransaction. rewrite bool_decide_false by done.
  rewrite bindM_eq. simpl.
  pose proof (GetTransaction_spec name (w_store w) Hs) as Hg. unfold get_spec in Hg.
  destruct (_ !! name) as [t|] eqn:Ht; [rewrite Hg|destruct Hg as (e & -> & ->); simpl; split; [by eexists|done]].
  unfold phase. case_decide as Hp; [rewrite bool_decide_false by (intros Hn; by apply Hn)
    |rewrite bool_decide_true by done; simpl; split; [by eexists|done]].
  rewrite bindM_eq. simpl. rewrite bindM_eq, updateM_eq. simpl.
  assert (Hname : tx_id t = name).
  { destruct (store_keys _ Hs) as (_ & _ & _ & Hk). symmetry. exact (Hk _ _ Ht). }
  destruct (UpdateTransaction _ _ _) as [[e t'] s'] eqn:U. simpl.
  pose proof (UpdateTransaction_spec _ _ _ _ _ _ Hs U) as Hu.
  destruct e as [e|]; [done|]. destruct Hu as ((Hm & Hsp & Hst) & _ & Hv).
  change (tx_id _) with (tx_id t) in Hv. rewrite Hname in Hv.
  unfold done_with. simpl. rewrite Hv. simpl. rewrite Hst. split; [done|]. by split.
Qed.
End properties.

(** *** Witnesses *)

#[local] Existing Instance some_order.

Definition ex_tx (p : string) : Transaction :=
  mkTransaction (mkResourceMeta "tx-1" "default" 0 0 0 ∅ ∅)
    (mkTransactionSpec "d" "" "bank/send" "alice" "{}" "" 0 "") (mkTransactionStatus p "" "" 0 0 "").

Definition ex_world (p : string) : World MemoryStore TxCall :=
  mkWorld (MemStore.CreateTransaction (ex_tx p) NewMemoryStore).2 (λ n, Z.of_nat n) 0 [] [].

Definition ex_builder : TxBuilder := {|
  BuildTx _ _ := Ok (mkUnsignedTx "raw" "doc" 1 0);
  SignTx _ _ _ := Ok (mkSignedTx "raw" "sig" "pub");
  BroadcastTx _ _ := Ok (mkTxBroadcastResult "AB12" 0 "" 0) |}.

Definition ex_runtime : TxRuntime := {|
  GetTxBuilder _ _ := Ok ex_builder;
  GetSigningKey _ _ _ := Ok (mkSigningKey "alice" "" "");
  WaitForConfirmation _ _ _ := Ok (mkTxReceipt "AB12" 7 100 true "") |}.

Definition no_cancel (n : nat) : option error := None.

Lemma tx_ex_world_wf p : store_wf (w_store (ex_world p)).
Proof.
  split_and!; [apply keyed_empty|apply keyed_empty|apply keyed_empty|].
  apply map_Forall_to_list. vm_compute. repeat constructor.
Qed.

Lemma tx_ex_stored p : stored (ex_tx p) (ex_world p).
Proof. split; [apply tx_ex_world_wf|]. by vm_compute. Qed.

Lemma ex_good_chain : good_chain (Some ex_runtime).
Proof.
  exists ex_runtime. split; [done|]. split; [|split].
  - intros tr d. exists ex_builder. split; [done|]. repeat split; intros; by eexists.
  - intros; by eexists.
  - intros; by eexists.
Qed.

Lemma cache_empty tr txs : cache_ok tr txs ∅.
Proof. intros k u tx Hu. by rewrite lookup_empty in Hu. Qed.

Lemma Reconcile_refines_tx_trans_witness :
  let '(_, (w', _)) := Reconcile (Some ex_runtime) no_cancel "tx-1" (ex_world "", ∅) in
  store_wf (w_store w').
Proof.
  pose proof (Reconcile_refines_tx_trans (Some ex_runtime) no_cancel "tx-1" (ex_world "") ∅
    (tx_ex_world_wf "") (cache_empty _ _)) as Hr.
  destruct (Reconcile (Some ex_runtime) no_cancel "tx-1" (ex_world "", ∅)) as [o [w' c']].
  cbv zeta in Hr. destruct Hr as [Hr _]. exact Hr.
Defined.

Lemma tx_run_evidence_witness :
  let x := (Reconcile (Some ex_runtime) no_cancel "tx-1" (ex_world "", ∅)).2 in
  map_Forall (λ _ t, evidence (w_trace x.1) t) (v_txs (store_view (w_store x.1))).
Proof.
  intros x.
  apply (tx_run_evidence (Some ex_runtime) no_cancel (ex_world "") ∅ x.1 x.2
    (tx_ex_world_wf "") (cache_empty _ _)).
  - intros k t Hk.
    assert (Hf : map_Forall (λ _ t, phase t = "") (v_txs (store_view (w_store (ex_world ""))))).
    { apply map_Forall_to_list. vm_compute. repeat constructor. }
    split; rewrite (Hf k t Hk); [intros [E|E]|intros E]; discriminate E.
  - rewrite <- surjective_pairing.
    apply (run_step (Some ex_runtime) no_cancel (ex_world "", ∅) "tx-1"). apply run_refl.
Defined.

Lemma Reconcile_confirms_witness :
  (reconciles (Some ex_runtime) no_cancel 4 "tx-1" (ex_world "", ∅)).1 = Returned None.
Proof.
  destruct (Reconcile_confirms (Some ex_runtime) no_cancel (ex_tx "") (ex_world "") ∅
    ex_good_chain (λ _, eq_refl) (tx_ex_stored "")) as [Ho _].
  - discriminate.
  - left. reflexivity.
  - exact Ho.
Defined.

Lemma nil_runtime_panics_witness :
  (Reconcile None no_cancel "tx-1" (ex_world "Building", ∅)).1 = Panicked.
Proof.
  apply (nil_runtime_panics no_cancel (ex_tx "Building") (ex_world "Building") ∅
    (λ _, eq_refl) (tx_ex_stored "Building")). reflexivity.
Defined.

(** A submission on an empty store, at the instant 0. *)
Definition ex_request : SubmitTransactionRequest :=
  mkSubmitTransactionRequest "d" "bank/send" "alice" "{}" 0 "".
Definition ex_empty : World MemoryStore TxCall := mkWorld NewMemoryStore (λ _, 0%Z) 0 [] [].
Definition ex_submitted : rpc Transaction * World MemoryStore TxCall :=
  SubmitTransaction true ex_request ex_empty.

Lemma submitted_transaction_is_not_reconciled_witness :
  w_enqueued ex_submitted.2 = [("transactions", "default/tx-d-0")] ∧
  w_store (Reconcile (Some ex_runtime) no_cancel "default/tx-d-0" (ex_submitted.2, ∅)).2.1
    = w_store ex_submitted.2.
Proof.
  split; [vm_compute; reflexivity|].
  destruct ex_submitted as [[tx|code msg] w'] eqn:E; [|vm_compute in E; discriminate E].
  assert (Hw : store_wf (w_store w')).
  { replace w' with ex_submitted.2 by (rewrite E; reflexivity).
    split_and!; [apply keyed_empty|apply keyed_empty|apply keyed_empty|].
    apply map_Forall_to_list. vm_compute. repeat constructor. }
  destruct (submitted_transaction_is_not_reconciled (Some ex_runtime) no_cancel ex_request
    ex_empty w' tx ∅ E Hw (λ _, eq_refl)) as (key & Hq & Hk).
  simpl. replace w' with ex_submitted.2 in * by (rewrite E; reflexivity).
  assert (Ekey : key = "default/tx-d-0") by (vm_compute in Hq; injection Hq as <-; reflexivity).
  subst key. apply Hk. vm_compute. reflexivity.
Defined.

Lemma CancelTransaction_outcomes_witness :
  (∃ msg, (CancelTransaction "tx-1" (ex_world "Signing")).1 = RpcErr FailedPrecondition msg).
Proof.
  pose proof (CancelTransaction_outcomes "tx-1" (ex_world "Signing") (tx_ex_world_wf "Signing")
    ltac:(discriminate)) as Ho.
  destruct (CancelTransaction "tx-1" (ex_world "Signing")) as [r w']. cbv zeta in Ho.
  replace (v_txs (store_view (w_store (ex_world "Signing"))) !! "tx-1")
    with (Some (ex_tx "Signing")) in Ho by (vm_compute; reflexivity).
  rewrite decide_False in Ho by discriminate. destruct Ho as [Ho _]. exact Ho.
Defined.
