(* ===== verification/HealthController.v ===== *)
(** * The health controller ([internal/daemon/controller/health.go])

    A sweep checks every node of a devnet, restarts crashed nodes with an
    exponential backoff, and records the outcome in the devnet's conditions and
    phase.  [CheckHealth] is an interface ([HealthChecker]); the backoff is
    computed in IEEE binary64 as the source does.  [updateDevnetConditions]
    keeps pointers into a slice it appends to, so the slice's backing arrays and
    the pointers into them are modelled: see [Conds].  [time.Time] values are
    instants; the loop of [healthCheckLoop] and its goroutine are not modelled,
    a sweep is one call of [runHealthSweep]. *)

From Stdlib Require Import SpecFloat.
From stdpp Require Import base tactics numbers list strings gmap.
From S2P Require Import Prelude Durations Types MemStore Store World NodeController Backoff.

(** ** Configuration and interface *)

(** A call of [CheckHealth]. *)
Inductive HealthCall :=
| CCheckHealth (node : Node) (answer : result HealthCheckResult).

(** [HealthChecker]. *)
Record HealthChecker := {
  CheckHealth : list HealthCall → Node → result HealthCheckResult
}.

Record HealthControllerConfig := mkHealthControllerConfig {
  hc_CheckInterval : Duration;
  hc_StuckThreshold : Duration;
  hc_RestartPolicy : RestartPolicy
}.

Definition DefaultHealthControllerConfig : HealthControllerConfig := {|
  hc_CheckInterval := 30 * second;
  hc_StuckThreshold := 2 * minute;
  hc_RestartPolicy := DefaultRestartPolicy |}.

(** ** Backoff *)

Definition calculateBackoff (restartCount : Z) (policy : RestartPolicy) : Duration :=
  backoff_loop (rp_BackoffMultiplier policy) (rp_BackoffMax policy)
    (Z.to_nat restartCount) (rp_BackoffInitial policy).

(** ** The condition slice

    [cs_arrays] are the backing arrays allocated so far, each with the elements
    in use; [cs_cur] is the array of [devnet.Status.Conditions] and [cs_cap] its
    capacity.  [append] writes in place while there is room and copies to a
    new array otherwise, of a capacity the runtime chooses ([cs_grow]). *)

Record Conds := mkConds {
  cs_arrays : list (list Condition);
  cs_cur : nat;
  cs_cap : nat
}.
#[export] Instance eta_Conds : Settable Conds := mkSettable (λ x,
  mkConds (cs_arrays x) (cs_cur x) (cs_cap x)).

(** A pointer to an element: its array and index. *)
Abbreviation ptr := (nat * nat)%type.

Definition cs_slice (cs : Conds) : list Condition := default [] (cs_arrays cs !! cs_cur cs).

Definition cs_append (grow : nat → nat) (c : Condition) (cs : Conds) : Conds :=
  let s := cs_slice cs in
  if bool_decide (length s < cs_cap cs)
  then cs <| cs_arrays := <[cs_cur cs := s ++ [c]]> (cs_arrays cs) |>
  else mkConds (cs_arrays cs ++ [s ++ [c]]) (length (cs_arrays cs)) (grow (length s)).

(** [*p = f( *p)]. *)
Definition cs_write (p : ptr) (f : Condition → Condition) (cs : Conds) : Conds :=
  cs <| cs_arrays := alter (alter f p.2) p.1 (cs_arrays cs) |>.

(** The map from condition type to the address of the element: a later element
    of a type replaces an earlier one. *)
Definition cs_index (cs : Conds) : gmap string ptr :=
  foldl (λ m '(i, c), <[c_Type c := (cs_cur cs, i)]> m) ∅
    (imap (λ i c, (i, c)) (cs_slice cs)).

Definition setCondition (status reason message : string) (now : Time) (cond : Condition)
    : Condition :=
  let cond := if bool_decide (c_Status cond ≠ status)
              then cond <| c_LastTransitionTime := now |> else cond in
  cond <| c_Status := status |> <| c_Reason := reason |> <| c_Message := message |>.

(** [x := conditions[ty]; if x == nil { append a new one; point to it }]. *)
Definition find_or_create (grow : nat → nat) (ty : string)
    (st : gmap string ptr * Conds) : ptr * (gmap string ptr * Conds) :=
  let '(conditions, cs) := st in
  match conditions !! ty with
  | Some p => (p, st)
  | None =>
      let cs := cs_append grow (mkCondition ty "" 0 "" "") cs in
      let p := (cs_cur cs, length (cs_slice cs) - 1) in
      (p, (<[ty := p]> conditions, cs))
  end.

(** What the three conditions are set to: status, reason, message. *)
Definition ready_cond (healthy total : Z) : string * string * string :=
  if bool_decide (healthy = total) && bool_decide (0 < total)%Z
  then (ConditionTrue, "AllNodesReady", "All nodes are ready")
  else if bool_decide (0 < healthy)%Z
  then (ConditionFalse, "SomeNodesNotReady",
        itoa healthy +:+ "/" +:+ itoa total +:+ " nodes ready")
  else if bool_decide (0 < total)%Z
  then (ConditionFalse, "NoNodesReady", "No nodes are ready")
  else (ConditionUnknown, "NoNodes", "No nodes exist").

Definition healthy_cond (unhealthy stuck total : Z) : string * string * string :=
  if bool_decide (unhealthy = 0)%Z && bool_decide (0 < total)%Z
  then (ConditionTrue, "AllNodesHealthy", "All nodes are healthy")
  else if bool_decide (0 < unhealthy)%Z
  then
    let msg := itoa unhealthy +:+ "/" +:+ itoa total +:+ " nodes unhealthy" in
    let msg := if bool_decide (0 < stuck)%Z
               then msg +:+ " (" +:+ itoa stuck +:+ " stuck)" else msg in
    (ConditionFalse, "SomeNodesUnhealthy", msg)
  else (ConditionUnknown, "NoNodes", "No nodes to check").

Definition degraded_cond (unhealthy stuck : Z) : string * string * string :=
  if bool_decide (0 < stuck)%Z
  then (ConditionTrue, "ChainStuck", itoa stuck +:+ " node(s) stuck")
  else if bool_decide (0 < unhealthy)%Z
  then (ConditionTrue, "NodesUnhealthy", itoa unhealthy +:+ " node(s) unhealthy")
  else (ConditionFalse, "OperatingNormally", "All nodes operating normally").

(** Find the condition of a type, or append it, and set it. *)
Definition put_cond (grow : nat → nat) (now : Time) (ty : string)
    (v : string * string * string) (st : gmap string ptr * Conds) : gmap string ptr * Conds :=
  let '(p, (conditions, cs)) := find_or_create grow ty st in
  let '(status, reason, message) := v in
  (conditions, cs_write p (setCondition status reason message now) cs).

(** [updateDevnetConditions] on a slice of capacity [cap]. *)
Definition updateDevnetConditions (grow : nat → nat) (cap : nat) (now : Time)
    (healthy unhealthy stuck total : Z) (conditions : list Condition) : list Condition :=
  let cs := mkConds [conditions] 0 cap in
  let st := (cs_index cs, cs) in
  let st := put_cond grow now ConditionTypeReady (ready_cond healthy total) st in
  let st := put_cond grow now ConditionTypeHealthy (healthy_cond unhealthy stuck total) st in
  let st := put_cond grow now ConditionTypeDegraded (degraded_cond unhealthy stuck) st in
  cs_slice st.2.

(** [updateDevnetPhase]. *)
Definition updateDevnetPhase (healthy total : Z) (devnet : Devnet) : Devnet :=
  let phase := dst_Phase (d_Status devnet) in
  if bool_decide (phase = PhaseRunning) || bool_decide (phase = PhaseDegraded) then
    if bool_decide (healthy = total) && bool_decide (0 < total)%Z then
      devnet <| d_Status; dst_Phase := PhaseRunning |>
             <| d_Status; dst_Message := "All nodes healthy" |>
    else if bool_decide (0 < healthy)%Z then
      devnet <| d_Status; dst_Phase := PhaseDegraded |>
             <| d_Status; dst_Message := itoa healthy +:+ "/" +:+ itoa total +:+ " nodes healthy" |>
    else if bool_decide (0 < total)%Z then
      devnet <| d_Status; dst_Phase := PhaseDegraded |>
             <| d_Status; dst_Message := "No nodes healthy" |>
    else devnet
  else devnet.

(** ** The checks *)

Section controller.
Context {S : Type} `{Store S}.
Variable checker : option HealthChecker.
Variable has_manager : bool.
Variable config : HealthControllerConfig.
(** The capacity of a decoded condition slice, and how [append] grows one. *)
Variable cap_of : list Condition → nat.
Variable grow : nat → nat.

Abbreviation W := (World S HealthCall).

Definition check_health (c : HealthChecker) (node : Node) : M W (result HealthCheckResult) :=
  call_out (λ t, CheckHealth c t node) (CCheckHealth node).

(** Save and ignore the error, which is logged. *)
Definition save_node (node : Node) : M W unit :=
  run! updateM UpdateNode node in done_with tt.

(** [isChainStuck]; the clock is read only when it decides. *)
Definition isChainStuck (node : Node) : M W bool :=
  if IsZero (nst_LastBlockTime (n_Status node)) then done_with false
  else if nst_CatchingUp (n_Status node) then done_with false
  else
    do! t := now in
    done_with (bool_decide
      (hc_StuckThreshold config < sub_time t (nst_LastBlockTime (n_Status node)))%Z).

(** [handleCrashedNode] past its guards. *)
Definition restart_node (policy : RestartPolicy) (node : Node) : M W unit :=
  let backoff := calculateBackoff (nst_RestartCount (n_Status node)) policy in
  do! t := now in
  let node := node
    <| n_Status; nst_NextRestartTime := (t + backoff)%Z |>
    <| n_Status; nst_Phase := NodePhasePending |>
    <| n_Status; nst_Message := "Auto-restarting after crash" |>
    <| n_Status; nst_RestartCount := wrap64 (nst_RestartCount (n_Status node) + 1) |> in
  do! ' (err, node) := updateM UpdateNode node in
  match err with
  | Some _ => done_with tt
  | None =>
      if has_manager
      then enqueue "nodes" (NodeKey (ns_DevnetRef (n_Spec node)) (ns_Index (n_Spec node)))
      else done_with tt
  end.

Definition handleCrashedNode (node : Node) : M W unit :=
  let policy := hc_RestartPolicy config in
  if negb (rp_Enabled policy) then done_with tt
  else if bool_decide (0 < rp_MaxRestarts policy)%Z &&
          bool_decide (rp_MaxRestarts policy ≤ nst_RestartCount (n_Status node))%Z
  then done_with tt
  else if IsZero (nst_NextRestartTime (n_Status node)) then restart_node policy node
  else
    do! t := now in
    if bool_decide (t < nst_NextRestartTime (n_Status node))%Z then done_with tt
    else restart_node policy node.

(** The end of [checkNodeHealth], from the stuck check on. *)
Definition finish_check (node : Node) (result : HealthCheckResult) : M W HealthCheckResult :=
  do! stuck := isChainStuck node in
  let result := if (stuck : bool)
    then result <| hr_Healthy := false |> <| hr_Error := "chain stuck" |>
    else result <| hr_Healthy := true |> in
  do! t := now in
  let node := node <| n_Status; nst_LastHealthCheck := t |> in
  do! node :=
    (if hr_Healthy result then
       let node := node <| n_Status; nst_ConsecutiveFailures := 0%Z |> in
       if bool_decide (nst_BlockHeight (n_Status node) < hr_BlockHeight result)%Z then
         do! t := now in
         done_with (node <| n_Status; nst_BlockHeight := hr_BlockHeight result |>
                         <| n_Status; nst_LastBlockTime := t |>)
       else done_with node
     else done_with (node <| n_Status; nst_ConsecutiveFailures :=
            wrap64 (nst_ConsecutiveFailures (n_Status node) + 1) |>)) in
  run! save_node (node <| n_Status; nst_PeerCount := hr_PeerCount result |>
                       <| n_Status; nst_CatchingUp := hr_CatchingUp result |>) in
  done_with result.

Definition checkNodeHealth (node : Node) : M W HealthCheckResult :=
  do! t := now in
  let result := mkHealthCheckResult
    (NodeKey (ns_DevnetRef (n_Spec node)) (ns_Index (n_Spec node))) false 0 0 false "" t in
  if bool_decide (ns_Desired (n_Spec node) = NodePhaseStopped) then
    done_with (result <| hr_Healthy := true |>)
  else if bool_decide (nst_Phase (n_Status node) ≠ NodePhaseRunning) then
    run! (if bool_decide (nst_Phase (n_Status node) = NodePhaseCrashed)
          then handleCrashedNode node else done_with tt) in
    done_with (result <| hr_Healthy := false |>
      <| hr_Error := "node not running (phase: " +:+ nst_Phase (n_Status node) +:+ ")" |>)
  else
    match checker with
    | None => finish_check node result
    | Some c =>
        do! r := check_health c node in
        match r with
        | Err e =>
            do! t := now in
            run! save_node (node
              <| n_Status; nst_ConsecutiveFailures :=
                   wrap64 (nst_ConsecutiveFailures (n_Status node) + 1) |>
              <| n_Status; nst_LastHealthCheck := t |>) in
            done_with (result <| hr_Healthy := false |> <| hr_Error := Error e |>)
        | Ok checkResult => finish_check node checkResult
        end
    end.

(** The loop of [Reconcile]: healthy, unhealthy and stuck nodes. *)
Fixpoint check_nodes (nodes : list Node) (healthy unhealthy stuck : Z)
    : M W (Z * Z * Z) :=
  match nodes with
  | [] => done_with (healthy, unhealthy, stuck)
  | node :: nodes =>
      do! result := checkNodeHealth node in
      if hr_Healthy result then check_nodes nodes (healthy + 1)%Z unhealthy stuck
      else check_nodes nodes healthy (unhealthy + 1)%Z
             (if bool_decide (hr_Error result = "chain stuck") then stuck + 1 else stuck)%Z
  end.

Definition Reconcile (key : string) : M W (option error) :=
  let '(namespace, name) := parseDevnetKey key in
  do! r := readM (GetDevnet namespace name) in
  match r with
  | Err e => done_with
      (if IsNotFound e then None else Some (Wrap "failed to get devnet" e))
  | Ok devnet =>
      do! l := readM (ListNodes namespace name) in
      match l with
      | Err e => done_with (Some (Wrap "failed to list nodes" e))
      | Ok nodes =>
          do! ' (healthy, unhealthy, stuck) := check_nodes nodes 0 0 0 in
          let total := Z.of_nat (length nodes) in
          do! t := now in
          let devnet := devnet <| d_Status; dst_ReadyNodes := healthy |>
                               <| d_Status; dst_LastHealthCheck := t |> in
          do! t := now in
          let conditions := dst_Conditions (d_Status devnet) in
          let devnet := devnet <| d_Status; dst_Conditions :=
            updateDevnetConditions grow (cap_of conditions) t healthy unhealthy stuck total
              conditions |> in
          do! ' (err, _) := updateM UpdateDevnet (updateDevnetPhase healthy total devnet) in
          match err with
          | Some e => done_with (if IsConflict e then Some e else None)
          | None => done_with None
          end
      end
  end.

(** [runHealthSweep]: devnets that run are enqueued, or reconciled here when
    there is no manager. *)
Definition runHealthSweep : M W unit :=
  do! l := readM (ListDevnets "") in
  match l with
  | Err _ => done_with tt
  | Ok devnets =>
      eachM devnets (λ devnet,
        if bool_decide (dst_Phase (d_Status devnet) ≠ PhaseRunning) &&
           bool_decide (dst_Phase (d_Status devnet) ≠ PhaseDegraded) then done_with tt
        else if has_manager then enqueue "health" (FullName (d_Metadata devnet))
        else run! Reconcile (m_Name (d_Metadata devnet)) in done_with tt)
  end.
End controller.

(** ** Lemmas on the condition slice *)

Section conds.
Variable grow : nat → nat.
Implicit Types (cs : Conds) (m : gmap string ptr) (l : list Condition).

(** [m] holds, for each type, the address of its element in the current
    array. *)
Definition index_ok m cs : Prop :=
  cs_cur cs < length (cs_arrays cs) ∧ NoDup (c_Type <$> cs_slice cs) ∧
  ∀ ty, match m !! ty with
        | Some p => p.1 = cs_cur cs ∧ ∃ c, cs_slice cs !! p.2 = Some c ∧ c_Type c = ty
        | None => ty ∉ (c_Type <$> cs_slice cs)
        end.

Lemma setCondition_type st r msg t c : c_Type (setCondition st r msg t c) = c_Type c.
Proof. unfold setCondition. by case_bool_decide. Qed.

(** [types.SetCondition] changes the element of the type. *)
Lemma SetCondition_alter now l ty st r msg i c :
  NoDup (c_Type <$> l) → l !! i = Some c → c_Type c = ty →
  SetCondition now l ty st r msg = alter (setCondition st r msg now) i l.
Proof.
  revert i; induction l as [|c' l IH]; intros [|i] Hn Hi Hc; simpl in *; simplify_eq.
  - rewrite bool_decide_true by done. cbn. f_equal. unfold setCondition.
    case_bool_decide; case_bool_decide; done.
  - apply NoDup_cons in Hn as [Hin Hn].
    rewrite bool_decide_false; [cbn; f_equal; by apply IH|].
    intros E. apply Hin. rewrite E. apply list_elem_of_fmap. exists c.
    split; [done|]. by eapply list_elem_of_lookup_2.
Qed.

Lemma SetCondition_snoc now l ty st r msg :
  ty ∉ (c_Type <$> l) → st ≠ "" →
  SetCondition now l ty st r msg =
    l ++ [setCondition st r msg now (mkCondition ty "" 0 "" "")].
Proof.
  intros Hty Hst. induction l as [|c l IH]; simpl in *.
  - unfold setCondition. simpl. by rewrite bool_decide_true by congruence.
  - apply not_elem_of_cons in Hty as [Hne Hty].
    rewrite bool_decide_false by congruence. by rewrite IH.
Qed.

Lemma cs_slice_write a i f cs :
  a = cs_cur cs → cs_slice (cs_write (a, i) f cs) = alter f i (cs_slice cs).
Proof.
  intros ->. unfold cs_slice, cs_write. simpl. rewrite list_lookup_alter, decide_True by done.
  by destruct (cs_arrays cs !! cs_cur cs).
Qed.

Lemma types_alter i st r msg now l :
  c_Type <$> alter (setCondition st r msg now) i l = c_Type <$> l.
Proof.
  revert i; induction l as [|c l IH]; intros [|i]; try done.
  - change (alter ?f 0 (c :: l)) with (f c :: l).
    by rewrite !fmap_cons, setCondition_type.
  - change (alter ?f (S i) (c :: l)) with (c :: alter f i l).
    by rewrite !fmap_cons, IH.
Qed.

(** While the capacity suffices, finding the element through the pointers is
    [types.SetCondition]. *)
Lemma put_cond_ok now ty st r msg m cs :
  index_ok m cs → (ty ∉ (c_Type <$> cs_slice cs) → length (cs_slice cs) < cs_cap cs) →
  st ≠ "" →
  let '(m', cs') := put_cond grow now ty (st, r, msg) (m, cs) in
  index_ok m' cs' ∧ cs_slice cs' = SetCondition now (cs_slice cs) ty st r msg ∧
  cs_cap cs' = cs_cap cs ∧ length (cs_slice cs') ≤ S (length (cs_slice cs)).
Proof.
  intros (Hcur & Hn & Hm) Hcap Hst. unfold put_cond, find_or_create.
  pose proof (Hm ty) as Hty. destruct (m !! ty) as [[a i]|] eqn:Hp.
  - destruct Hty as (Ha & c & Hc & Hct). simpl in Ha. subst a. simpl in Hc.
    rewrite cs_slice_write by done.
    rewrite (SetCondition_alter now _ ty st r msg i c) by done.
    rewrite length_alter. split_and!; [|done|done|lia]. split_and!.
    + simpl. by rewrite length_alter.
    + by rewrite cs_slice_write, types_alter by done.
    + intros ty'. specialize (Hm ty'). destruct (m !! ty') as [[a j]|].
      * destruct Hm as (Ha & c' & Hc' & Hct'). split; [done|]. simpl in *.
        rewrite cs_slice_write by done. destruct (decide (i = j)) as [->|Hij].
        -- rewrite list_lookup_alter, decide_True, Hc' by done. simpl.
           eexists. split; [done|]. by rewrite setCondition_type.
        -- rewrite list_lookup_alter, decide_False by done. eauto.
      * by rewrite cs_slice_write, types_alter by done.
  - unfold cs_append. rewrite bool_decide_true by auto.
    set (c0 := mkCondition ty "" 0 "" "").
    set (cs1 := cs <| cs_arrays := _ |>).
    assert (Hs1 : cs_slice cs1 = cs_slice cs ++ [c0]).
    { unfold cs_slice. subst cs1. simpl. rewrite list_lookup_insert_eq by done. done. }
    change (cs_cur cs) with (cs_cur cs1).
    rewrite Hs1, length_app. change (length [c0]) with 1. rewrite Nat.add_sub.
    rewrite cs_slice_write by done. rewrite Hs1.
    assert (Hw : alter (setCondition st r msg now) (length (cs_slice cs))
      (cs_slice cs ++ [c0]) = cs_slice cs ++ [setCondition st r msg now c0]).
    { rewrite alter_app_r_alt by lia. by rewrite Nat.sub_diag. }
    rewrite Hw, length_app. simpl.
    split_and!; [|by rewrite SetCondition_snoc|done|lia]. split_and!.
    + simpl. rewrite length_alter, length_insert. done.
    + rewrite cs_slice_write by done. rewrite Hs1, types_alter, fmap_app. simpl.
      apply NoDup_app. split_and!; [done| |apply NoDup_singleton].
      intros x Hx ->%list_elem_of_singleton. done.
    + intros ty'. rewrite lookup_insert. case_decide as Hd.
      * split; [done|]. simpl. exists (setCondition st r msg now c0).
        rewrite cs_slice_write by done. rewrite Hs1, Hw. rewrite lookup_app_r, Nat.sub_diag by lia.
        split; [done|]. by rewrite setCondition_type.
      * specialize (Hm ty'). destruct (m !! ty') as [[a j]|].
        -- destruct Hm as (Ha & c' & Hc' & Hct'). split; [done|]. simpl in *.
           rewrite cs_slice_write by done. rewrite Hs1, Hw. exists c'. split; [|done].
           rewrite lookup_app_l; [done|]. by eapply lookup_lt_Some.
        -- rewrite cs_slice_write by done. rewrite Hs1, types_alter, fmap_app. simpl.
           rewrite not_elem_of_app, not_elem_of_cons. split; [done|]. split; [done|].
           apply not_elem_of_nil.
Qed.

Lemma cs_index_ok l cap : NoDup (c_Type <$> l) →
  index_ok (cs_index (mkConds [l] 0 cap)) (mkConds [l] 0 cap).
Proof.
  clear grow. intros Hn. split_and!; [simpl; lia|done|]. unfold cs_index, cs_slice. simpl.
  induction l as [|c l IH] using rev_ind; [intros ty; by apply not_elem_of_nil|].
  rewrite fmap_app in Hn. simpl in Hn.
  apply NoDup_app in Hn as (Hn & Hc & _). specialize (IH Hn). intros ty.
  rewrite imap_app, foldl_app. simpl. rewrite Nat.add_0_r, lookup_insert.
  case_decide as Hd.
  - split; [done|]. exists c. simpl. rewrite lookup_app_r, Nat.sub_diag by lia. done.
  - specialize (IH ty). destruct (foldl _ _ _ !! ty) as [[a i]|].
    + destruct IH as (Ha & c' & Hc' & Hct'). split; [done|]. exists c'. simpl in *.
      rewrite lookup_app_l; [done|]. by eapply lookup_lt_Some.
    + rewrite fmap_app, not_elem_of_app. split; [done|]. simpl. set_solver.
Qed.

Lemma SetCondition_keeps_type now l ty st r msg x :
  x ∈ c_Type <$> l → x ∈ c_Type <$> SetCondition now l ty st r msg.
Proof.
  induction l as [|c l IH]; intros Hx; [by apply elem_of_nil in Hx|].
  simpl SetCondition. rewrite fmap_cons in Hx. case_bool_decide as Hc.
  - case_bool_decide; rewrite fmap_cons; simpl; done.
  - rewrite fmap_cons. apply elem_of_cons in Hx as [->|Hx]; [by left|]. right. auto.
Qed.
End conds.

(** ** Backoff *)

(** ** What a check of nodes may change *)

Section frames.
Context {S : Type} `{StoreSpec S}.
Variable checker : option HealthChecker.
Variable has_manager : bool.
Variable config : HealthControllerConfig.
Implicit Types (w : World S HealthCall).

(** The store stays well formed and only nodes change. *)
Definition nodes_only w w' : Prop :=
  store_wf (w_store w) →
  store_wf (w_store w') ∧
  v_devnets (store_view (w_store w')) = v_devnets (store_view (w_store w)) ∧
  v_upgrades (store_view (w_store w')) = v_upgrades (store_view (w_store w)) ∧
  v_txs (store_view (w_store w')) = v_txs (store_view (w_store w)).

Lemma nodes_only_trans w1 w2 w3 : nodes_only w1 w2 → nodes_only w2 w3 → nodes_only w1 w3.
Proof.
  intros H12 H23 Hs. destruct (H12 Hs) as (Hs2 & -> & -> & ->) || destruct (H12 Hs) as (Hs2 & Hd & Hu & Ht).
  destruct (H23 Hs2) as (? & ? & ? & ?). split_and!; congruence.
Qed.

Lemma nodes_only_store w w' : w_store w' = w_store w → nodes_only w w'.
Proof. intros E Hs. by rewrite E. Qed.

Lemma nodes_only_update n w : nodes_only w (updateM UpdateNode n w).2.
Proof.
  intros Hs. rewrite updateM_eq. simpl.
  destruct (UpdateNode _ n (w_store w)) as [[e n'] s'] eqn:U.
  destruct (UpdateNode_frame _ _ _ _ _ _ Hs U) as (Hs' & (Hd & Hu & Ht & _) & _).
  simpl. by split_and!.
Qed.

(** A computation that changes only nodes. *)
Definition quiet {A} (m : M (World S HealthCall) A) : Prop := ∀ w, nodes_only w (m w).2.

Lemma quiet_done {A} (a : A) : quiet (done_with a).
Proof. intros w. by apply nodes_only_store. Qed.
Lemma quiet_now : quiet now.
Proof. intros w. by apply nodes_only_store. Qed.
Lemma quiet_call {A} (f : list HealthCall → A) log : quiet (call_out f log).
Proof. intros w. by apply nodes_only_store. Qed.
Lemma quiet_enqueue rt k : quiet (enqueue rt k).
Proof. intros w. by apply nodes_only_store. Qed.
Lemma quiet_update n : quiet (updateM UpdateNode n).
Proof. intros w. apply nodes_only_update. Qed.
Lemma quiet_bind {A B} (m : M (World S HealthCall) A) (k : A → M (World S HealthCall) B) :
  quiet m → (∀ a, quiet (k a)) → quiet (bindM m k).
Proof. intros Hm Hk w. rewrite bindM_eq. eapply nodes_only_trans; [apply Hm|apply Hk]. Qed.

Ltac quiet_go :=
  repeat first
    [ apply quiet_done | apply quiet_now | apply quiet_call | apply quiet_enqueue
    | apply quiet_update
    | apply quiet_bind; [|intros ?]
    | match goal with
      | |- quiet (match ?x with _ => _ end) => destruct x
      end ].

Lemma quiet_check n : quiet (checkNodeHealth checker has_manager config n).
Proof.
  unfold checkNodeHealth, finish_check, handleCrashedNode, restart_node, isChainStuck,
    save_node, check_health. quiet_go.
Qed.

Lemma quiet_check_nodes nodes h u s :
  quiet (check_nodes checker has_manager config nodes h u s).
Proof.
  revert h u s; induction nodes as [|n nodes IH]; intros h u s; simpl; [apply quiet_done|].
  apply quiet_bind; [apply quiet_check|]. intros r. destruct (hr_Healthy r); apply IH.
Qed.

(** The counts add up. *)
Lemma check_nodes_counts nodes h u s w :
  (0 ≤ s ≤ u)%Z → (0 ≤ h)%Z →
  let '((h', u', s'), _) := check_nodes checker has_manager config nodes h u s w in
  (h' + u' = h + u + Z.of_nat (length nodes))%Z ∧ (0 ≤ s' ≤ u')%Z ∧ (h ≤ h')%Z.
Proof.
  revert h u s w; induction nodes as [|n nodes IH]; intros h u s w Hs Hh; simpl.
  - split_and!; lia.
  - unfold bindM. destruct (checkNodeHealth _ _ _ n w) as [r w'].
    destruct (hr_Healthy r).
    + specialize (IH (h + 1)%Z u s w' ltac:(lia) ltac:(lia)).
      destruct (check_nodes _ _ _ _ _ _ _ w') as [[[h' u'] s'] w'']. lia.
    + specialize (IH h (u + 1)%Z (if bool_decide (hr_Error r = "chain stuck")
        then s + 1 else s)%Z w' ltac:(case_bool_decide; lia) ltac:(lia)).
      destruct (check_nodes _ _ _ _ _ _ _ w') as [[[h' u'] s'] w'']. lia.
Qed.
End frames.

(** ** What the health controller guarantees *)

(** One call of [types.SetCondition] with a triple of status, reason and
    message. *)
Definition set_to (now : Time) (ty : string) (v : string * string * string)
    (l : list Condition) : list Condition :=
  SetCondition now l ty v.1.1 v.1.2 v.2.

Lemma ready_status h t : (ready_cond h t).1.1 ≠ "".
Proof. unfold ready_cond. repeat case_match; done. Qed.
Lemma healthy_status u s t : (healthy_cond u s t).1.1 ≠ "".
Proof. unfold healthy_cond. repeat case_match; done. Qed.
Lemma degraded_status u s : (degraded_cond u s).1.1 ≠ "".
Proof. unfold degraded_cond. repeat case_match; done. Qed.

(** Room in the array for the three conditions, or no need for it. *)
Definition enough_room (cap : nat) (conditions : list Condition) : Prop :=
  length conditions + 3 ≤ cap ∨
  ∀ ty, ty ∈ [ConditionTypeReady; ConditionTypeHealthy; ConditionTypeDegraded] →
        ty ∈ (c_Type <$> conditions).

Lemma put_cond_set grow now ty v m cs n :
  index_ok m cs → v.1.1 ≠ "" →
  (length (cs_slice cs) + S n ≤ cs_cap cs ∨ ty ∈ (c_Type <$> cs_slice cs)) →
  let '(m', cs') := put_cond grow now ty v (m, cs) in
  index_ok m' cs' ∧ cs_slice cs' = set_to now ty v (cs_slice cs) ∧
  (length (cs_slice cs) + S n ≤ cs_cap cs → length (cs_slice cs') + n ≤ cs_cap cs').
Proof.
  destruct v as [[st r] msg]. simpl. intros Hi Hv Hr.
  pose proof (put_cond_ok grow now ty st r msg m cs Hi) as H.
  destruct (put_cond grow now ty (st, r, msg) (m, cs)) as [m' cs'].
  destruct H as (Hi' & Hs & Hc & Hl); [|done|].
  - intros Hty. destruct Hr as [Hr|Hr]; [lia|done].
  - split_and!; [done|done|]. rewrite Hc. lia.
Qed.

Section conditions.
Variable grow : nat → nat.

(** With distinct condition types, and either room for three more in the
    slice or the three conditions present, [updateDevnetConditions] sets the
    conditions Ready, Healthy and Degraded as three calls of
    [types.SetCondition] would: the pointers it keeps stay valid. *)
Theorem updateDevnetConditions_sets cap now healthy unhealthy stuck total conditions :
  NoDup (c_Type <$> conditions) → enough_room cap conditions →
  updateDevnetConditions grow cap now healthy unhealthy stuck total conditions =
    set_to now ConditionTypeDegraded (degraded_cond unhealthy stuck)
      (set_to now ConditionTypeHealthy (healthy_cond unhealthy stuck total)
        (set_to now ConditionTypeReady (ready_cond healthy total) conditions)).
Proof.
  intros Hn Hroom. unfold updateDevnetConditions.
  set (cs := mkConds [conditions] 0 cap).
  pose proof (cs_index_ok conditions cap Hn) as Hi. fold cs in Hi.
  assert (Hs : cs_slice cs = conditions) by done.
  assert (Hcap : cs_cap cs = cap) by done.
  pose proof (put_cond_set grow now ConditionTypeReady (ready_cond healthy total)
    (cs_index cs) cs 2 Hi (ready_status _ _)) as H1.
  destruct (put_cond _ _ _ _ (cs_index cs, cs)) as [m1 cs1].
  destruct H1 as (Hi1 & Hs1 & Hl1); [rewrite Hs, Hcap; destruct Hroom; [left; lia|right; set_solver]|].
  pose proof (put_cond_set grow now ConditionTypeHealthy (healthy_cond unhealthy stuck total)
    m1 cs1 1 Hi1 (healthy_status _ _ _)) as H2.
  destruct (put_cond _ _ _ _ (m1, cs1)) as [m2 cs2].
  destruct H2 as (Hi2 & Hs2 & Hl2).
  { destruct Hroom as [Hr|Hr]; [left; apply Hl1; rewrite Hs, Hcap; lia|right].
    rewrite Hs1. apply SetCondition_keeps_type. rewrite Hs. set_solver. }
  pose proof (put_cond_set grow now ConditionTypeDegraded (degraded_cond unhealthy stuck)
    m2 cs2 0 Hi2 (degraded_status _ _)) as H3.
  destruct (put_cond _ _ _ _ (m2, cs2)) as [m3 cs3].
  destruct H3 as (Hi3 & Hs3 & _); [|by simpl; rewrite Hs3, Hs2, Hs1].
  destruct Hroom as [Hr|Hr]; [left; apply Hl2, Hl1; rewrite Hs, Hcap; lia|right].
  rewrite Hs2. apply SetCondition_keeps_type. rewrite Hs1. apply SetCondition_keeps_type.
  rewrite Hs. set_solver.
Qed.

(** A devnet that was degraded: its slice holds Degraded=True and has one
    free place. *)
Definition recovered_conditions : list Condition :=
  [mkCondition ConditionTypeProgressing ConditionFalse 1 "" "";
   mkCondition ConditionTypeReady ConditionTrue 1 "" "";
   mkCondition "NodesCreated" ConditionTrue 1 "" "";
   mkCondition ConditionTypeDegraded ConditionTrue 1 "NodesUnhealthy" "1 node(s) unhealthy"].

(** Without room the pointer to Degraded is stale: appending Healthy moves
    the slice to a new array, the write to Degraded goes to the old one, and a
    devnet whose nodes are all healthy still reports Degraded=True, whatever
    capacity the new array gets. *)
Theorem stale_pointer_keeps_Degraded now :
  let l := updateDevnetConditions grow 4 now 1 0 0 1 recovered_conditions in
  (∃ c, l !! 3 = Some c ∧ c_Type c = ConditionTypeDegraded ∧ c_Status c = ConditionTrue ∧
        c_Reason c = "NodesUnhealthy") ∧
  (∃ c, l !! 4 = Some c ∧ c_Type c = ConditionTypeHealthy ∧ c_Status c = ConditionTrue) ∧
  l ≠ set_to now ConditionTypeDegraded (degraded_cond 0 0)
        (set_to now ConditionTypeHealthy (healthy_cond 0 0 1)
          (set_to now ConditionTypeReady (ready_cond 1 1) recovered_conditions)).
Proof.
  intros l. assert (H : l !! 3 = recovered_conditions !! 3) by (vm_compute; done).
  split_and!; [| |intros E; rewrite E in H; vm_compute in H; discriminate H].
  - rewrite H. eexists. split; [reflexivity|]. done.
  - eexists. split; [vm_compute; reflexivity|]. done.
Qed.
End conditions.

(** *** Backoff *)

(** With the default policy the backoff before restart [n] (from 0) is 5
    seconds doubled [n] times and at most 5 minutes, exactly, in the floating
    point the source computes it in, for every restart count. *)
Theorem calculateBackoff_default (restartCount : Z) :
  calculateBackoff restartCount DefaultRestartPolicy =
    Z.min (5 * second * 2 ^ Z.max 0 restartCount) (5 * minute).
Proof.
  assert (Hz : Z.max 0 restartCount = Z.of_nat (Z.to_nat restartCount)) by lia.
  rewrite Hz. unfold calculateBackoff. generalize (Z.to_nat restartCount). clear.
  intros n. do 6 (destruct n as [|n]; [vm_compute; reflexivity|]).
  assert (Hcap : backoff_loop (rp_BackoffMultiplier DefaultRestartPolicy)
    (rp_BackoffMax DefaultRestartPolicy) (S (S (S (S (S (S n))))))
    (rp_BackoffInitial DefaultRestartPolicy) = (5 * minute)%Z) by backoff_eval.
  rewrite Hcap. symmetry. apply Z.min_r.
  replace (Z.of_nat (S (S (S (S (S (S n)))))))%Z with (6 + Z.of_nat n)%Z by lia.
  rewrite Z.pow_add_r by lia. pose proof (Z.pow_pos_nonneg 2 (Z.of_nat n) ltac:(lia) ltac:(lia)).
  unfold minute, second. lia.
Qed.

(** *** Checks and sweeps *)

Section properties.
Context {S : Type} `{StoreSpec S}.
Variable config : HealthControllerConfig.
Implicit Types (w : World S HealthCall) (node : Node) (checker : option HealthChecker).

(** The chain of [node] is stuck at the instant [t]. *)
Definition stuck_at (t : Time) node : Prop :=
  nst_LastBlockTime (n_Status node) ≠ 0%Z ∧ nst_CatchingUp (n_Status node) = false ∧
  (hc_StuckThreshold config < sub_time t (nst_LastBlockTime (n_Status node)))%Z.

(** The checker, if there is one, answers without an error. *)
Definition checker_answers checker node w : Prop :=
  match checker with
  | None => True
  | Some c => ∃ r, CheckHealth c (w_trace w) node = Ok r
  end.

Lemma isChainStuck_spec node w :
  let '(b, w') := isChainStuck config node w in
  (b = true ↔ stuck_at (w_clock w (w_ticks w)) node) ∧ called w w'.
Proof.
  unfold isChainStuck, stuck_at, IsZero. case_bool_decide as Hz.
  - split; [|apply called_refl]. split; [done|]. intros [? _]. done.
  - destruct (nst_CatchingUp _).
    + split; [|apply called_refl]. split; [done|]. intros (_ & ? & _). done.
    + unfold bindM, now, done_with. split; [|split; [done|exists []; by rewrite app_nil_r]].
      rewrite bool_decide_eq_true. naive_solver.
Qed.

Lemma finish_check_verdict node r w :
  hr_Healthy (finish_check config node r w).1 = true ↔
  ¬ stuck_at (w_clock w (w_ticks w)) node.
Proof.
  unfold finish_check. rewrite bindM_eq. pose proof (isChainStuck_spec node w) as Hst.
  destruct (isChainStuck config node w) as [b w']. destruct Hst as [Hst _]. cbn [fst snd].
  rewrite <- Hst. unfold save_node. destruct b; rewrite bindM_eq; simpl.
  - rewrite !bindM_eq. simpl. by split.
  - case_bool_decide; rewrite !bindM_eq; simpl; split; auto.
Qed.

(** The verdict on a node: it counts as healthy exactly when it should be
    stopped, or when it runs, the checker did not fail, and its chain is not
    stuck.  The [Healthy] field of the checker's own answer plays no part. *)
Theorem checkNodeHealth_verdict checker has_manager node w :
  hr_Healthy (checkNodeHealth checker has_manager config node w).1 = true ↔
  ns_Desired (n_Spec node) = NodePhaseStopped ∨
  (nst_Phase (n_Status node) = NodePhaseRunning ∧ checker_answers checker node w ∧
   ¬ stuck_at (w_clock w (Datatypes.S (w_ticks w))) node).
Proof.
  unfold checkNodeHealth. rewrite bindM_eq. simpl.
  case_bool_decide as Hd; [simpl; tauto|].
  case_bool_decide as Hp.
  { rewrite bindM_eq. simpl. split; [done|]. intros [?|[? _]]; done. }
  unfold checker_answers. destruct checker as [c|].
  - rewrite bindM_eq. unfold check_health, call_out. simpl.
    destruct (CheckHealth c (w_trace w) node) as [r|e] eqn:E.
    + rewrite finish_check_verdict. simpl. split; [eauto 10|]. intros [?|(_ & _ & ?)]; done.
    + unfold save_node. rewrite !bindM_eq. simpl. split; [done|].
      intros [?|(_ & (? & ?) & _)]; done.
  - rewrite finish_check_verdict. simpl. split; [auto|]. intros [?|(_ & _ & ?)]; done.
Qed.
End properties.

Section live.
Context {S : Type} `{StoreLive S}.
Variable config : HealthControllerConfig.
Implicit Types (w : World S HealthCall) (node : Node) (checker : option HealthChecker).

(** The store holds [node]. *)
Definition holds_node node w : Prop :=
  store_wf (w_store w) ∧ v_nodes (store_view (w_store w)) !! node_id node = Some node.

(** The restart policy allows a restart of [node] at [t]. *)
Definition may_restart node (t : Time) : bool :=
  let policy := hc_RestartPolicy config in
  rp_Enabled policy &&
  (bool_decide (rp_MaxRestarts policy ≤ 0)%Z ||
   bool_decide (nst_RestartCount (n_Status node) < rp_MaxRestarts policy)%Z) &&
  (IsZero (nst_NextRestartTime (n_Status node)) ||
   bool_decide (nst_NextRestartTime (n_Status node) ≤ t)%Z).

(** The node [n'] left by a restart of [node] decided at [t]. *)
Definition restarted node (t : Time) n' : Prop :=
  node_id n' = node_id node ∧ n_Spec n' = n_Spec node ∧
  nst_Phase (n_Status n') = NodePhasePending ∧
  nst_RestartCount (n_Status n') = wrap64 (nst_RestartCount (n_Status node) + 1) ∧
  nst_NextRestartTime (n_Status n') =
    (t + calculateBackoff (nst_RestartCount (n_Status node)) (hc_RestartPolicy config))%Z.

(** An update of a stored node through a live store. *)
Lemma update_held node n1 w :
  holds_node node w → n_Metadata n1 = n_Metadata node → n_Spec n1 = n_Spec node →
  let '((e, n'), w') := updateM UpdateNode n1 w in
  e = None ∧ store_wf (w_store w') ∧ w_enqueued w' = w_enqueued w ∧
  node_id n' = node_id node ∧ n_Spec n' = n_Spec node ∧ n_Status n' = n_Status n1 ∧
  v_nodes (store_view (w_store w')) !! node_id node = Some n'.
Proof.
  intros [Hs Hn] Hm Hsp. rewrite updateM_eq. simpl.
  assert (Hid : node_id n1 = node_id node) by (unfold node_id; by rewrite Hm, Hsp).
  pose proof (UpdateNode_live (w_clock w (w_ticks w)) n1 node (w_store w) Hs) as Hl.
  rewrite Hid, Hm in Hl. specialize (Hl Hn eq_refl).
  destruct (UpdateNode _ n1 (w_store w)) as [[e n'] s'] eqn:U. simpl in *. subst e.
  destruct (UpdateNode_frame _ _ _ _ _ _ Hs U) as (Hs' & _ & Hsame & _ & Hl').
  assert (Hid' : node_id n' = node_id n1) by (by apply key_same).
  destruct Hsame as (_ & Hsp' & Hst'). rewrite Hid in Hid', Hl'.
  split_and!; [done|done|done|done|by rewrite Hsp', Hsp|done|done].
Qed.

Lemma restart_node_spec has_manager node w :
  holds_node node w →
  let w' := (restart_node has_manager (hc_RestartPolicy config) node w).2 in
  store_wf (w_store w') ∧
  (∃ n', v_nodes (store_view (w_store w')) !! node_id node = Some n' ∧
         restarted node (w_clock w (w_ticks w)) n') ∧
  w_enqueued w' = w_enqueued w ++
    (if has_manager then [("nodes", NodeKey (ns_DevnetRef (n_Spec node)) (ns_Index (n_Spec node)))]
     else []).
Proof.
  intros [Hs Hn]. unfold restart_node. rewrite bindM_eq. cbn [now fst snd]. rewrite bindM_eq.
  match goal with |- context [updateM UpdateNode ?n1 ?w1] =>
    pose proof (update_held node n1 w1 (conj Hs Hn) eq_refl eq_refl) as Hu;
    destruct (updateM UpdateNode n1 w1) as [[e n'] w'] end.
  destruct Hu as (-> & Hs' & He & Hid & Hsp & Hst & Hn').
  assert (Hr : restarted node (w_clock w (w_ticks w)) n') by (split_and!; try done; by rewrite Hst).
  cbn [fst snd]. destruct has_manager; simpl; rewrite He.
  - rewrite Hsp. split_and!; [done|by exists n'|done].
  - rewrite app_nil_r. split_and!; [done|by exists n'|done].
Qed.

(** Whether a crashed node is restarted, and after how many looks at the
    clock. *)
Lemma handleCrashedNode_eq has_manager node w :
  let next := nst_NextRestartTime (n_Status node) in
  let tick := w <| w_ticks := Datatypes.S (w_ticks w) |> in
  if may_restart node (w_clock w (w_ticks w)) then
    handleCrashedNode has_manager config node w =
      restart_node has_manager (hc_RestartPolicy config) node (if IsZero next then w else tick)
  else handleCrashedNode has_manager config node w = (tt, w) ∨
       handleCrashedNode has_manager config node w = (tt, tick).
Proof.
  unfold handleCrashedNode, may_restart. cbv zeta.
  destruct (rp_Enabled _); [|by left]. cbn [negb andb].
  set (mx := rp_MaxRestarts _). set (rc := nst_RestartCount _). set (nx := nst_NextRestartTime _).
  assert (Hg : bool_decide (mx ≤ 0)%Z || bool_decide (rc < mx)%Z =
    negb (bool_decide (0 < mx)%Z && bool_decide (mx ≤ rc)%Z))
    by (repeat case_bool_decide; simpl; lia).
  rewrite Hg. destruct (bool_decide (0 < mx)%Z && bool_decide (mx ≤ rc)%Z); [by left|].
  cbn [negb andb]. destruct (IsZero nx); [done|]. cbn [orb]. rewrite bindM_eq.
  cbn [now fst snd].
  destruct (decide (nx ≤ w_clock w (w_ticks w))%Z).
  - by rewrite bool_decide_true, bool_decide_false by lia.
  - rewrite bool_decide_false, bool_decide_true by lia. by right.
Qed.

(** A crashed node is restarted exactly when the policy is enabled, the
    restart limit is not reached and the backoff has elapsed; then it is stored
    as Pending with one more restart and the next restart time set to the next
    reading of the clock plus the backoff, and its key is enqueued.  Otherwise
    nothing is stored or enqueued. *)
Theorem handleCrashedNode_outcomes has_manager node w :
  holds_node node w →
  let looked := if IsZero (nst_NextRestartTime (n_Status node)) then 0 else 1 in
  let w' := (handleCrashedNode has_manager config node w).2 in
  if may_restart node (w_clock w (w_ticks w)) then
    (∃ n', v_nodes (store_view (w_store w')) !! node_id node = Some n' ∧
           restarted node (w_clock w (w_ticks w + looked)) n') ∧
    w_enqueued w' = w_enqueued w ++
      (if has_manager
       then [("nodes", NodeKey (ns_DevnetRef (n_Spec node)) (ns_Index (n_Spec node)))]
       else [])
  else w_store w' = w_store w ∧ w_enqueued w' = w_enqueued w.
Proof.
  intros Hn. pose proof (handleCrashedNode_eq has_manager node w) as He. cbv zeta in *.
  destruct (may_restart _ _); [|by destruct He as [-> | ->]]. rewrite He.
  destruct (IsZero _).
  - rewrite Nat.add_0_r. exact (proj2 (restart_node_spec has_manager node w Hn)).
  - rewrite Nat.add_1_r. pose proof (restart_node_spec has_manager node
      (w <| w_ticks := Datatypes.S (w_ticks w) |>)) as Hr. exact (proj2 (Hr Hn)).
Qed.

(** The key a restart enqueues has no namespace, so outside the default
    namespace the node controller never sees the restart: the crashed node is
    stored as Pending, and the node controller's [Reconcile] of the enqueued
    key leaves it as it is. *)
Theorem restart_in_other_namespace_is_lost runtime node w (wn : World S NodeCall) :
  holds_node node w → may_restart node (w_clock w (w_ticks w)) = true →
  or_default (m_Namespace (n_Metadata node)) ≠ DefaultNamespace →
  has_char slash (m_Namespace (n_Metadata node)) = false →
  has_char slash (ns_DevnetRef (n_Spec node)) = false → int64_range (ns_Index (n_Spec node)) →
  let w' := (handleCrashedNode true config node w).2 in
  w_store wn = w_store w' →
  ∃ key n', w_enqueued w' = w_enqueued w ++ [("nodes", key)] ∧
    v_nodes (store_view (w_store w')) !! node_id node = Some n' ∧
    nst_Phase (n_Status n') = NodePhasePending ∧
    v_nodes (store_view (w_store (NodeController.Reconcile runtime key wn).2)) !! node_id node
      = Some n'.
Proof.
  intros Hn Hm Hns Hs1 Hs2 Hi w' Hw.
  pose proof (handleCrashedNode_eq true node w) as He. rewrite Hm in He. cbv zeta in He.
  assert (Hr : store_wf (w_store w') ∧
    (∃ n', v_nodes (store_view (w_store w')) !! node_id node = Some n' ∧
      nst_Phase (n_Status n') = NodePhasePending) ∧
    w_enqueued w' = w_enqueued w ++
      [("nodes", NodeKey (ns_DevnetRef (n_Spec node)) (ns_Index (n_Spec node)))]).
  { subst w'. rewrite He.
    destruct (restart_node_spec true node (if IsZero (nst_NextRestartTime (n_Status node)) then w
      else w <| w_ticks := Datatypes.S (w_ticks w) |>)) as (? & (n' & ? & Hp) & Hq);
      [by destruct (IsZero _)|].
    split_and!; [done|exists n'; split; [done|apply Hp]|]. rewrite Hq. by destruct (IsZero _). }
  destruct Hr as (Hwf & (n' & Hn' & Hp) & Hq).
  eexists _, n'. split_and!; [exact Hq|done|done|].
  rewrite (Reconcile_other runtime _ DefaultNamespace (ns_DevnetRef (n_Spec node))
    (ns_Index (n_Spec node))); [by rewrite Hw|by rewrite Hw|by apply NodeKey_parse|].
  unfold node_id, node_key, qualified. intros E. apply Hns.
  rewrite <- !(assoc_L String.append) in E.
  apply (sep_inj slash) in E as [E _]; [done| |done]. unfold or_default. by case_bool_decide.
Qed.

(** The phase a sweep gives a devnet. *)
Definition phase_after (healthy total : Z) (phase : string) : string :=
  if bool_decide (phase = PhaseRunning) || bool_decide (phase = PhaseDegraded) then
    if bool_decide (total = 0)%Z then phase
    else if bool_decide (healthy = total) then PhaseRunning else PhaseDegraded
  else phase.

Lemma updateDevnetPhase_phase healthy total d :
  (0 ≤ healthy ≤ total)%Z →
  dst_Phase (d_Status (updateDevnetPhase healthy total d)) =
    phase_after healthy total (dst_Phase (d_Status d)).
Proof.
  intros Hh. unfold updateDevnetPhase, phase_after.
  destruct (_ || _); [|done]. repeat (case_bool_decide; simpl; try done); lia.
Qed.

Lemma updateDevnetPhase_frame healthy total d :
  let d' := updateDevnetPhase healthy total d in
  d_Metadata d' = d_Metadata d ∧ d_Spec d' = d_Spec d ∧
  dst_ReadyNodes (d_Status d') = dst_ReadyNodes (d_Status d) ∧
  dst_Conditions (d_Status d') = dst_Conditions (d_Status d).
Proof. unfold updateDevnetPhase. by repeat case_match. Qed.

(** One sweep, with the counts its loop comes to. *)
Lemma Reconcile_outcome checker has_manager cap_of grow key ns name d nodes w :
  store_wf (w_store w) → parseDevnetKey key = (ns, name) →
  v_devnets (store_view (w_store w)) !! qualified ns name = Some d →
  ListNodes ns name (w_store w) = Ok nodes →
  let out := Reconcile checker has_manager config cap_of grow key w in
  let '(healthy, unhealthy, stuck) := (check_nodes checker has_manager config nodes 0 0 0 w).1 in
  out.1 = None ∧
  ∃ d' t,
    v_devnets (store_view (w_store out.2)) !! qualified ns name = Some d' ∧
    d_Spec d' = d_Spec d ∧
    (healthy + unhealthy = Z.of_nat (length nodes) ∧ 0 ≤ healthy ∧ 0 ≤ stuck ≤ unhealthy)%Z ∧
    dst_ReadyNodes (d_Status d') = healthy ∧
    dst_Phase (d_Status d') =
      phase_after healthy (Z.of_nat (length nodes)) (dst_Phase (d_Status d)) ∧
    dst_Conditions (d_Status d') =
      updateDevnetConditions grow (cap_of (dst_Conditions (d_Status d))) t healthy unhealthy
        stuck (Z.of_nat (length nodes)) (dst_Conditions (d_Status d)) ∧
    (∀ k, k ≠ qualified ns name → v_devnets (store_view (w_store out.2)) !! k =
                                  v_devnets (store_view (w_store w)) !! k) ∧
    v_upgrades (store_view (w_store out.2)) = v_upgrades (store_view (w_store w)) ∧
    v_txs (store_view (w_store out.2)) = v_txs (store_view (w_store w)).
Proof.
  intros Hs Hk Hd Hl out. subst out. unfold Reconcile. rewrite Hk, bindM_eq. simpl.
  pose proof (GetDevnet_spec ns name (w_store w) Hs) as Hg. unfold get_spec in Hg.
  rewrite Hd in Hg. rewrite Hg, bindM_eq. simpl. rewrite Hl, bindM_eq.
  pose proof (check_nodes_counts checker has_manager config nodes 0 0 0 w
    ltac:(lia) ltac:(lia)) as Hc.
  pose proof (quiet_check_nodes checker has_manager config nodes 0 0 0 w Hs) as Hq.
  destruct (check_nodes _ _ _ nodes 0 0 0 w) as [[[h u] st] w1]. simpl in Hq. cbn [fst snd].
  destruct Hq as (Hs1 & Hd1 & Hu1 & Ht1). destruct Hc as (Hsum & Hst & Hh).
  rewrite !bindM_eq. cbn [now fst snd]. rewrite updateM_eq.
  match goal with |- context [UpdateDevnet ?t (updateDevnetPhase ?a ?b ?d1) ?s] =>
    change s with (w_store w1); set (dn := d1); set (n := b); set (tu := t) end.
  pose proof (updateDevnetPhase_frame h n dn) as (Hm & Hsp & Hr & Hcd).
  pose proof (updateDevnetPhase_phase h n dn) as Hph.
  set (d2 := updateDevnetPhase h n dn) in *.
  destruct (store_keys _ Hs) as (Hkeys & _). pose proof (Hkeys _ _ Hd) as Hid.
  assert (Hid2 : devnet_id d2 = qualified ns name) by (unfold devnet_id; by rewrite Hm).
  pose proof (UpdateDevnet_live tu d2 d (w_store w1) Hs1) as Hlv.
  rewrite Hid2, Hd1, Hm in Hlv. specialize (Hlv Hd eq_refl).
  destruct (UpdateDevnet tu d2 (w_store w1)) as [[e d'] s'] eqn:U. simpl in Hlv. subst e.
  destruct (UpdateDevnet_frame _ _ _ _ _ _ Hs1 U) as (Hs' & (Hn' & Hu' & Ht' & Ho) & Hsame & _ & Hd').
  destruct Hsame as (_ & Hsp' & Hst'). rewrite Hid2 in Hd', Ho. simpl. split; [done|].
  eexists d', _. rewrite Hst', Hr, Hcd, Hsp', Hsp, Hu', Ht'.
  split_and!; [done|done|lia..|done| |reflexivity| |done|done].
  - rewrite Hph by (subst n; lia). done.
  - intros k Hne. by rewrite Ho, Hd1.
Qed.
(** One sweep over a stored devnet succeeds, whatever the checker answers,
    and records its outcome: every node is counted once, as ready or not;
    [ReadyNodes] and the three conditions are computed from these counts; a
    Running or Degraded devnet with nodes becomes Running when all are ready
    and Degraded otherwise, in any other phase the phase stays; only this
    devnet and nodes change. *)
Theorem Reconcile_records_health checker has_manager cap_of grow key ns name d nodes w :
  store_wf (w_store w) → parseDevnetKey key = (ns, name) →
  v_devnets (store_view (w_store w)) !! qualified ns name = Some d →
  ListNodes ns name (w_store w) = Ok nodes →
  let out := Reconcile checker has_manager config cap_of grow key w in
  out.1 = None ∧
  ∃ d' healthy unhealthy stuck t,
    v_devnets (store_view (w_store out.2)) !! qualified ns name = Some d' ∧
    d_Spec d' = d_Spec d ∧
    (healthy + unhealthy = Z.of_nat (length nodes) ∧ 0 ≤ healthy ∧ 0 ≤ stuck ≤ unhealthy)%Z ∧
    dst_ReadyNodes (d_Status d') = healthy ∧
    dst_Phase (d_Status d') =
      phase_after healthy (Z.of_nat (length nodes)) (dst_Phase (d_Status d)) ∧
    dst_Conditions (d_Status d') =
      updateDevnetConditions grow (cap_of (dst_Conditions (d_Status d))) t healthy unhealthy
        stuck (Z.of_nat (length nodes)) (dst_Conditions (d_Status d)) ∧
    (∀ k, k ≠ qualified ns name → v_devnets (store_view (w_store out.2)) !! k =
                                  v_devnets (store_view (w_store w)) !! k) ∧
    v_upgrades (store_view (w_store out.2)) = v_upgrades (store_view (w_store w)) ∧
    v_txs (store_view (w_store out.2)) = v_txs (store_view (w_store w)).
Proof.
  intros Hs Hk Hd Hl. cbv zeta.
  pose proof (Reconcile_outcome checker has_manager cap_of grow key ns name d nodes w Hs Hk Hd Hl) as Ho.
  cbv zeta in Ho. destruct (check_nodes _ _ _ nodes 0 0 0 w).1 as [[h u] st].
  destruct Ho as (He & d' & t & Ho). split; [done|]. by exists d', h, u, st, t.
Qed.
End live.

(** *** Witnesses *)

#[local] Existing Instance some_order.

(** A running devnet of two nodes in the namespace prod: node 0 runs, node 1
    crashed. *)
Definition ex_devnet : Devnet :=
  mkDevnet (mkResourceMeta "d" "prod" 0 0 0 ∅ ∅) example_spec
    (mkDevnetStatus PhaseRunning 0 2 2 0 "" [] 0 recovered_conditions [] "").

Definition ex_node (i : Z) (phase : string) : Node :=
  mkNode (mkResourceMeta ("d-" +:+ itoa i) "prod" 0 0 0 ∅ ∅)
    (mkNodeSpec "d" "" i "validator" "" "" "" "" "" "")
    (mkNodeStatus phase 0 0 0 false 0 "" "" "" 0 0 0 0).

Definition ex_store : MemoryStore :=
  (MemStore.CreateNode (ex_node 1 NodePhaseCrashed)
    (MemStore.CreateNode (ex_node 0 NodePhaseRunning)
      (MemStore.CreateDevnet ex_devnet NewMemoryStore).2).2).2.

Definition ex_world : World MemoryStore HealthCall :=
  mkWorld ex_store (λ n, Z.of_nat n) 0 [] [].

Lemma health_ex_world_wf : store_wf (w_store ex_world).
Proof. split_and!; apply map_Forall_to_list; vm_compute; repeat constructor. Qed.

Lemma ex_crashed_held : holds_node (ex_node 1 NodePhaseCrashed) ex_world.
Proof. split; [exact health_ex_world_wf|]. vm_compute. reflexivity. Qed.

Lemma updateDevnetConditions_sets_witness :
  c_Status <$> updateDevnetConditions (λ n, 2 * n) 8 5 1 1 0 2 recovered_conditions =
    [ConditionFalse; ConditionFalse; ConditionTrue; ConditionTrue; ConditionFalse].
Proof.
  rewrite (updateDevnetConditions_sets (λ n, 2 * n) 8 5 1 1 0 2 recovered_conditions).
  - vm_compute. reflexivity.
  - apply (bool_decide_unpack _). vm_compute. exact I.
  - left. vm_compute. lia.
Defined.

Lemma handleCrashedNode_outcomes_witness :
  let w' := (handleCrashedNode true DefaultHealthControllerConfig
    (ex_node 1 NodePhaseCrashed) ex_world).2 in
  w_enqueued w' = [("nodes", NodeKey "d" 1)].
Proof.
  destruct (handleCrashedNode_outcomes (S:=MemoryStore) DefaultHealthControllerConfig true
    (ex_node 1 NodePhaseCrashed) ex_world ex_crashed_held) as [_ Hq].
  exact Hq.
Defined.

Lemma restart_in_other_namespace_is_lost_witness :
  ∃ key n', w_enqueued (handleCrashedNode true DefaultHealthControllerConfig
      (ex_node 1 NodePhaseCrashed) ex_world).2 = [("nodes", key)] ∧
    nst_Phase (n_Status n') = NodePhasePending.
Proof.
  destruct (restart_in_other_namespace_is_lost (S:=MemoryStore) DefaultHealthControllerConfig None
    (ex_node 1 NodePhaseCrashed) ex_world
    (mkWorld (w_store (handleCrashedNode true DefaultHealthControllerConfig
      (ex_node 1 NodePhaseCrashed) ex_world).2) (λ n, 0%Z) 0 [] []) ex_crashed_held)
    as (key & n' & Hq & _ & Hp & _).
  - vm_compute. reflexivity.
  - vm_compute. discriminate.
  - reflexivity.
  - reflexivity.
  - vm_compute. split; [discriminate|reflexivity].
  - reflexivity.
  - exists key, n'. split; [exact Hq|exact Hp].
Defined.

Lemma Reconcile_records_health_witness :
  let out := Reconcile None true DefaultHealthControllerConfig (λ l, length l) (λ n, 2 * n)
    "prod/d" ex_world in
  out.1 = None ∧ ∃ d', v_devnets (store_view (w_store out.2)) !! "prod/d" = Some d' ∧
    dst_ReadyNodes (d_Status d') = 1%Z ∧ dst_Phase (d_Status d') = PhaseDegraded.
Proof.
  destruct (Reconcile_records_health (S:=MemoryStore) DefaultHealthControllerConfig None true
    (λ l, length l) (λ n, 2 * n) "prod/d" "prod" "d" ex_devnet
    [ex_node 1 NodePhaseCrashed; ex_node 0 NodePhaseRunning] ex_world health_ex_world_wf)
    as (He & d' & h & u & st & t & Hd & _ & _ & Hr & Hp & _).
  - vm_compute. reflexivity.
  - vm_compute. reflexivity.
  - vm_compute. reflexivity.
  - split; [exact He|]. exists d'. split; [exact Hd|].
    revert Hd. vm_compute. intros [= <-]. split; reflexivity.
Defined.
