(* ===== verification/UpgradeState.v ===== *)
(** * The state of a resumable upgrade
    ([internal/application/ports/upgrade_state.go],
    [internal/application/upgrade/state_transitioner.go])

    The older, single-process upgrade command keeps the state of an upgrade in a
    file, so that an interrupted upgrade can be resumed.  This file holds the data
    of that state and its stage machine, with the history of its transitions. *)

From stdpp Require Import base tactics numbers list strings sets.
From S2P Require Import Prelude.

(** ** Stages *)

Definition ResumableStageInitialized : string := "Initialized".
Definition ResumableStageProposalSubmitted : string := "ProposalSubmitted".
Definition ResumableStageVoting : string := "Voting".
Definition ResumableStageWaitingForHeight : string := "WaitingForHeight".
Definition ResumableStageChainHalted : string := "ChainHalted".
Definition ResumableStageSwitchingBinary : string := "SwitchingBinary".
Definition ResumableStageVerifyingResume : string := "VerifyingResume".
Definition ResumableStageCompleted : string := "Completed".
Definition ResumableStageFailed : string := "Failed".
Definition ResumableStageProposalRejected : string := "ProposalRejected".

Definition IsTerminal (s : string) : bool :=
  bool_decide (s = ResumableStageCompleted) || bool_decide (s = ResumableStageFailed) ||
  bool_decide (s = ResumableStageProposalRejected).

(** ** Data *)

Record ValidatorVoteState := mkValidatorVoteState {
  vv_Address : string;
  vv_Moniker : string;
  vv_Voted : bool;
  vv_TxHash : string;
  vv_Timestamp : option Time
}.
#[export] Instance eta_ValidatorVoteState : Settable ValidatorVoteState := mkSettable (λ x,
  mkValidatorVoteState (vv_Address x) (vv_Moniker x) (vv_Voted x) (vv_TxHash x) (vv_Timestamp x)).

Record NodeSwitchState := mkNodeSwitchState {
  sw_NodeName : string;
  sw_Switched : bool;
  sw_Stopped : bool;
  sw_Started : bool;
  sw_OldBinary : string;
  sw_NewBinary : string;
  sw_Timestamp : option Time
}.

Record StageTransition := mkStageTransition {
  tr_From : string;
  tr_To : string;
  tr_Timestamp : Time;
  tr_Reason : string
}.

Record UpgradeState := mkUpgradeState {
  st_Version : Z;
  st_Checksum : string;
  st_UpgradeName : string;
  st_Stage : string;
  st_Mode : string;
  st_SkipGovernance : bool;
  st_ProposalID : Z;
  st_UpgradeHeight : Z;
  st_TargetBinary : string;
  st_TargetImage : string;
  st_TargetVersion : string;
  st_ValidatorVotes : list ValidatorVoteState;
  st_NodeSwitches : list NodeSwitchState;
  st_Error : string;
  st_CreatedAt : Time;
  st_UpdatedAt : Time;
  st_StageHistory : list StageTransition
}.
#[export] Instance eta_UpgradeState : Settable UpgradeState := mkSettable (λ x,
  mkUpgradeState (st_Version x) (st_Checksum x) (st_UpgradeName x) (st_Stage x) (st_Mode x)
    (st_SkipGovernance x) (st_ProposalID x) (st_UpgradeHeight x) (st_TargetBinary x)
    (st_TargetImage x) (st_TargetVersion x) (st_ValidatorVotes x) (st_NodeSwitches x) (st_Error x)
    (st_CreatedAt x) (st_UpdatedAt x) (st_StageHistory x)).

Definition CurrentStateVersion : Z := 1.

Definition NewUpgradeState (now : Time) (upgradeName mode : string) (skipGovernance : bool)
    : UpgradeState :=
  mkUpgradeState CurrentStateVersion "" upgradeName ResumableStageInitialized mode skipGovernance
    0 0 "" "" "" [] [] "" now now
    [mkStageTransition "" ResumableStageInitialized now "upgrade initiated"].

(** [InvalidTransitionError], and an error of the state manager that the callers
    tell from the others by its type. *)
Definition InvalidTransitionError (from to : string) : error :=
  Errorf ("invalid state transition from " +:+ from +:+ " to " +:+ to).

Inductive state_error :=
| StateCorruptionError (Reason : string)
| OtherError (e : error).

Definition to_error (e : state_error) : error :=
  match e with
  | StateCorruptionError reason => Errorf ("upgrade state file is corrupted: " +:+ reason)
  | OtherError e => e
  end.

(** ** The transitions *)

(** The map of [buildTransitionMap]; an unknown stage is not in it. *)
Definition validTransitions (from : string) : option (list string) :=
  if bool_decide (from = ResumableStageInitialized) then
    Some [ResumableStageProposalSubmitted; ResumableStageSwitchingBinary; ResumableStageFailed]
  else if bool_decide (from = ResumableStageProposalSubmitted) then
    Some [ResumableStageVoting; ResumableStageFailed; ResumableStageProposalRejected]
  else if bool_decide (from = ResumableStageVoting) then
    Some [ResumableStageWaitingForHeight; ResumableStageProposalRejected; ResumableStageFailed]
  else if bool_decide (from = ResumableStageWaitingForHeight) then
    Some [ResumableStageChainHalted; ResumableStageFailed]
  else if bool_decide (from = ResumableStageChainHalted) then
    Some [ResumableStageSwitchingBinary; ResumableStageFailed]
  else if bool_decide (from = ResumableStageSwitchingBinary) then
    Some [ResumableStageVerifyingResume; ResumableStageFailed]
  else if bool_decide (from = ResumableStageVerifyingResume) then
    Some [ResumableStageCompleted; ResumableStageFailed]
  else if bool_decide (from = ResumableStageCompleted) ||
          bool_decide (from = ResumableStageFailed) ||
          bool_decide (from = ResumableStageProposalRejected) then Some []
  else None.

Definition CanTransition (from to : string) : bool :=
  match validTransitions from with
  | Some targets => bool_decide (to ∈ targets)
  | None => false
  end.

Definition GetValidTransitions (from : string) : option (list string) := validTransitions from.

Definition IsGovernanceRequired (state : UpgradeState) : bool := negb (st_SkipGovernance state).

(** What [TransitionTo] does to the state. *)
Definition record_transition (now : Time) (state : UpgradeState) (target reason : string)
    : UpgradeState :=
  let state := state <| st_StageHistory :=
      st_StageHistory state ++ [mkStageTransition (st_Stage state) target now reason] |>
    <| st_Stage := target |> <| st_UpdatedAt := now |> in
  if bool_decide (target = ResumableStageFailed) && bool_decide (st_Error state = "") &&
     bool_decide (reason ≠ "")
  then state <| st_Error := reason |> else state.

(** An error leaves the state as it is. *)
Definition TransitionTo (now : Time) (state : option UpgradeState) (target reason : string)
    : result UpgradeState :=
  match state with
  | None => Err (InvalidTransitionError "" target)
  | Some state =>
      if CanTransition (st_Stage state) target
      then Ok (record_transition now state target reason)
      else Err (InvalidTransitionError (st_Stage state) target)
  end.

(** The empty string stands for no next stage. *)
Definition GetNextStageForGovPath (current : string) : string :=
  if bool_decide (current = ResumableStageInitialized) then ResumableStageProposalSubmitted
  else if bool_decide (current = ResumableStageProposalSubmitted) then ResumableStageVoting
  else if bool_decide (current = ResumableStageVoting) then ResumableStageWaitingForHeight
  else if bool_decide (current = ResumableStageWaitingForHeight) then ResumableStageChainHalted
  else if bool_decide (current = ResumableStageChainHalted) then ResumableStageSwitchingBinary
  else if bool_decide (current = ResumableStageSwitchingBinary) then ResumableStageVerifyingResume
  else if bool_decide (current = ResumableStageVerifyingResume) then ResumableStageCompleted
  else "".

Definition GetNextStageForSkipGovPath (current : string) : string :=
  if bool_decide (current = ResumableStageInitialized) then ResumableStageSwitchingBinary
  else if bool_decide (current = ResumableStageSwitchingBinary) then ResumableStageVerifyingResume
  else if bool_decide (current = ResumableStageVerifyingResume) then ResumableStageCompleted
  else "".

(** ** The stage machine *)

Definition stages : list string :=
  [ResumableStageInitialized; ResumableStageProposalSubmitted; ResumableStageVoting;
   ResumableStageWaitingForHeight; ResumableStageChainHalted; ResumableStageSwitchingBinary;
   ResumableStageVerifyingResume; ResumableStageCompleted; ResumableStageFailed;
   ResumableStageProposalRejected].

Definition transitions : list (string * string) :=
  stages ≫= λ s, pair s <$> default [] (validTransitions s).

Lemma CanTransition_spec from to : CanTransition from to = true ↔ (from, to) ∈ transitions.
Proof.
  unfold CanTransition. split.
  - intros Hc. apply list_elem_of_bind. exists from.
    assert (Hf : from ∈ stages).
    { revert Hc. unfold validTransitions. repeat case_bool_decide; simplify_eq/=; try set_solver. }
    split; [|done]. destruct (validTransitions from); [|done].
    apply bool_decide_eq_true in Hc. apply list_elem_of_fmap; by eexists.
  - intros (s & Hs & _)%list_elem_of_bind. apply list_elem_of_fmap in Hs as (t & [= -> ->] & Ht).
    destruct (validTransitions s); [by apply bool_decide_eq_true|]. by apply elem_of_nil in Ht.
Qed.

(** How many stages are left at most. *)
Definition rank (s : string) : nat :=
  if bool_decide (s = ResumableStageInitialized) then 7
  else if bool_decide (s = ResumableStageProposalSubmitted) then 6
  else if bool_decide (s = ResumableStageVoting) then 5
  else if bool_decide (s = ResumableStageWaitingForHeight) then 4
  else if bool_decide (s = ResumableStageChainHalted) then 3
  else if bool_decide (s = ResumableStageSwitchingBinary) then 2
  else if bool_decide (s = ResumableStageVerifyingResume) then 1 else 0.

(** A fact of all transitions, by looking at each. *)
Lemma each_transition (P : string → string → bool) from to :
  forallb (λ '(s, t), P s t) transitions = true → CanTransition from to = true → P from to = true.
Proof.
  intros Hall Hc%CanTransition_spec. rewrite forallb_forall in Hall.
  by apply (Hall (from, to)), list_elem_of_In.
Qed.

Lemma rank_decreases from to : CanTransition from to = true → rank to < rank from.
Proof.
  intros Hc. apply Nat.ltb_lt. apply (each_transition (λ s t, rank t <? rank s)); [|done]. by vm_compute.
Qed.

Lemma terminal_stays s to : IsTerminal s = true → CanTransition s to = false.
Proof.
  intros Ht. destruct (CanTransition s to) eqn:Hc; [|done].
  apply (each_transition (λ s _, negb (IsTerminal s))) in Hc; [|by vm_compute]. by rewrite Ht in Hc.
Qed.

(** [h] is a history of transitions from the start to stage [s]. *)
Inductive history : string → list StageTransition → Prop :=
| history_new t r :
    history ResumableStageInitialized [mkStageTransition "" ResumableStageInitialized t r]
| history_step s h to t r :
    history s h → CanTransition s to = true → history to (h ++ [mkStageTransition s to t r]).

Lemma history_length s h : history s h → length h + rank s ≤ 8.
Proof.
  induction 1 as [t r|s h to t r _ IH Hc%rank_decreases]; [by vm_compute|].
  rewrite length_app. simpl. lia.
Qed.

(** The two ways to the end, and the stages that a history went through. *)
Definition gov_path : list string :=
  [ResumableStageInitialized; ResumableStageProposalSubmitted; ResumableStageVoting;
   ResumableStageWaitingForHeight; ResumableStageChainHalted; ResumableStageSwitchingBinary;
   ResumableStageVerifyingResume; ResumableStageCompleted].
Definition skip_gov_path : list string :=
  [ResumableStageInitialized; ResumableStageSwitchingBinary; ResumableStageVerifyingResume;
   ResumableStageCompleted].

Definition upto (s : string) (path : list string) : list string :=
  take (S (default 0 (fst <$> list_find (s =.) path))) path.

(** A history up to a stage that is not a failure follows one of them. *)
Lemma history_follows s h :
  history s h → s ≠ ResumableStageFailed → s ≠ ResumableStageProposalRejected →
  tr_To <$> h = upto s gov_path ∨ (s ∈ skip_gov_path ∧ tr_To <$> h = upto s skip_gov_path).
Proof.
  induction 1 as [t r|s h to t r _ IH Hc]; intros Hf Hr; [by left|].
  apply CanTransition_spec in Hc. rewrite fmap_app. cbn [fmap list_fmap tr_To].
  unfold transitions in Hc. vm_compute in Hc.
  repeat (apply elem_of_cons in Hc as [[= -> ->]|Hc];
    [try (by destruct Hf); try (by destruct Hr);
     destruct IH as [->|[Hs ->]]; try done;
     try (left; reflexivity); try (right; split; [vm_compute; set_solver|reflexivity]);
     try (exfalso; vm_compute in Hs; set_solver)|]).
  by apply elem_of_nil in Hc.
Qed.

(** ** The history of a state *)

(** The history of a state leads to its stage. *)
Definition recorded (s : UpgradeState) : Prop := history (st_Stage s) (st_StageHistory s).

Lemma recorded_new now name mode skip : recorded (NewUpgradeState now name mode skip).
Proof. constructor. Qed.

Lemma record_transition_fields now s target reason :
  let s' := record_transition now s target reason in
  st_Stage s' = target ∧ st_UpdatedAt s' = now ∧
  st_StageHistory s' = st_StageHistory s ++ [mkStageTransition (st_Stage s) target now reason] ∧
  s' = s <| st_Stage := target |> <| st_UpdatedAt := now |>
         <| st_StageHistory := st_StageHistory s' |> <| st_Error := st_Error s' |>.
Proof. unfold record_transition. cbv zeta. by destruct (_ && _ && _). Qed.

Lemma recorded_transition now s target reason s' :
  recorded s → TransitionTo now (Some s) target reason = Ok s' → recorded s'.
Proof.
  unfold TransitionTo, recorded. intros Hs. destruct (CanTransition _ _) eqn:Hc; [|done].
  intros [= <-]. destruct (record_transition_fields now s target reason) as (-> & _ & -> & _).
  by constructor.
Qed.

(** From a state whose history leads to its stage, a transition succeeds exactly
    when the stage machine has it, and then appends itself to the history and
    leaves a state of the target stage whose history leads there; it has at most
    eight entries.  A state that got to Completed went through all stages of the
    governance path or of the path without governance, and a failure or rejection
    records the reason.  No transition leaves a terminal stage; the two paths'
    next stages are transitions. *)
Theorem TransitionTo_outcomes now s target reason :
  recorded s →
  match TransitionTo now (Some s) target reason with
  | Ok s' =>
      CanTransition (st_Stage s) target = true ∧ recorded s' ∧ st_Stage s' = target ∧
      st_StageHistory s' = st_StageHistory s ++ [mkStageTransition (st_Stage s) target now reason] ∧
      length (st_StageHistory s') ≤ 8 ∧
      (target = ResumableStageCompleted →
         tr_To <$> st_StageHistory s' = gov_path ∨ tr_To <$> st_StageHistory s' = skip_gov_path) ∧
      (target = ResumableStageFailed → st_Error s = "" → st_Error s' = reason)
  | Err e => CanTransition (st_Stage s) target = false ∧
      e = InvalidTransitionError (st_Stage s) target
  end ∧
  (IsTerminal (st_Stage s) = true → CanTransition (st_Stage s) target = false) ∧
  (GetNextStageForGovPath (st_Stage s) ≠ "" →
     CanTransition (st_Stage s) (GetNextStageForGovPath (st_Stage s)) = true) ∧
  (GetNextStageForSkipGovPath (st_Stage s) ≠ "" →
     CanTransition (st_Stage s) (GetNextStageForSkipGovPath (st_Stage s)) = true).
Proof.
  intros Hs. split_and!.
  - pose proof (recorded_transition now s target reason) as Hr.
    destruct (TransitionTo now (Some s) target reason) as [s'|e] eqn:Ht; unfold TransitionTo in Ht;
      destruct (CanTransition (st_Stage s) target) eqn:Hc; try done; [|by injection Ht as <-].
    specialize (Hr s' Hs eq_refl). injection Ht as <-.
    destruct (record_transition_fields now s target reason) as (Hst & _ & Hh & _).
    split_and!; [done|done|done|done| | |].
    + pose proof (history_length _ _ Hr). lia.
    + intros ->. unfold recorded in Hr. rewrite Hst in Hr.
      destruct (history_follows _ _ Hr) as [->|[_ ->]]; [done|done|by left|by right].
    + intros -> He. unfold record_transition. simpl. rewrite He. simpl.
      case_bool_decide as Hn; simpl; [done|]. by destruct (decide (reason = "")) as [->|].
  - apply terminal_stays.
  - unfold GetNextStageForGovPath. by repeat (case_bool_decide as Hd; [by rewrite Hd|clear Hd]).
  - unfold GetNextStageForSkipGovPath. by repeat (case_bool_decide as Hd; [by rewrite Hd|clear Hd]).
Qed.

Lemma TransitionTo_outcomes_witness :
  let s := NewUpgradeState 0 "v2" "local" true in
  ∃ s', TransitionTo 5 (Some s) ResumableStageSwitchingBinary "start" = Ok s' ∧
    st_Stage s' = ResumableStageSwitchingBinary ∧ length (st_StageHistory s') ≤ 8.
Proof.
  intros s. destruct (TransitionTo_outcomes 5 s ResumableStageSwitchingBinary "start"
    (recorded_new 0 "v2" "local" true)) as [Ho _].
  destruct (TransitionTo 5 (Some s) ResumableStageSwitchingBinary "start") as [s'|e] eqn:E;
    [|vm_compute in E; discriminate E].
  exists s'. destruct Ho as (_ & _ & Hst & _ & Hl & _). split; [reflexivity|]. split; [exact Hst|exact Hl].
Defined.
