(* ===== verification/UpgradeRepo.v ===== *)
(** * The file of an upgrade's state
    ([internal/infrastructure/persistence/upgrade_state_repository.go])

    [UpgradeStateManager] is the interface through which the upgrade use cases keep
    their state, with the laws its clients rely on; [FileUpgradeStateManager] keeps
    it in a JSON file with a checksum, written to a temporary file and renamed.
    File operations fail as any function of their number says, and a failed write
    may leave anything in the file it was writing. *)

From stdpp Require Import base tactics numbers list strings gmap pretty.
From S2P Require Import Prelude Store Paths UpgradeState.

(** ** The interface *)

Class UpgradeStateManager (F : Type) := {
  LoadState : M F (state_error + option UpgradeState);
  (** The checksum of the state passed is set, whatever the answer. *)
  SaveState : UpgradeState → M F (option error * UpgradeState);
  DeleteState : M F (option error);
  StateExists : M F (result bool);
  ValidateState : UpgradeState → option state_error
}.

(** Laws: [on_disk] is what a load finds unless reading fails.  A save that succeeds
    is found, apart from the checksum it sets; one that fails, or a failed
    delete, changes nothing. *)
Class StateManagerLaws (F : Type) `{UpgradeStateManager F} := {
  on_disk : F → state_error + option UpgradeState;
  keepable : UpgradeState → Prop;
  keepable_checksum : ∀ s c, keepable s → keepable (s <| st_Checksum := c |>);
  save_checksum : ∀ s f, ∃ c, (SaveState s f).1.2 = s <| st_Checksum := c |>;
  save_found : ∀ s f, keepable s → (SaveState s f).1.1 = None →
    on_disk (SaveState s f).2 = inr (Some (SaveState s f).1.2);
  save_failed : ∀ s f e, (SaveState s f).1.1 = Some e → on_disk (SaveState s f).2 = on_disk f;
  delete_found : ∀ f, (DeleteState f).1 = None → on_disk (DeleteState f).2 = inr None;
  delete_failed : ∀ f e, (DeleteState f).1 = Some e → on_disk (DeleteState f).2 = on_disk f;
  load_found : ∀ f,
    on_disk (LoadState f).2 = on_disk f ∧
    ((LoadState f).1 = on_disk f ∨ ∃ e, (LoadState f).1 = inl (OtherError e))
}.

(** ** Files *)

(** The contents of the files, and the number of operations so far. *)
Record Disk := mkDisk {
  dk_files : gmap string string;
  dk_ops : nat
}.

(** [fault] makes an operation fail; a failed write leaves [torn], if anything. *)
Record Faults := mkFaults {
  fault : nat → option error;
  torn : nat → option string
}.

Inductive removal := Removed | Missing | RemoveFailed (e : error).

Section disk.
Variable faults : Faults.

Definition operate {A} (failed : error → gmap string string → A * gmap string string)
    (op : gmap string string → A * gmap string string) : M Disk A :=
  λ d, let '(a, files) := match fault faults (dk_ops d) with
         | Some e => failed e (dk_files d)
         | None => op (dk_files d)
         end in
       (a, mkDisk files (S (dk_ops d))).

(** A file that does not exist is no error but [None]. *)
Definition io_read (path : string) : M Disk (result (option string)) :=
  operate (λ e files, (Err e, files)) (λ files, (Ok (files !! path), files)).

Definition io_write (path data : string) : M Disk (option error) :=
  λ d, operate
    (λ e files, (Some e, match torn faults (dk_ops d) with
                         | Some t => <[path := t]> files
                         | None => files
                         end))
    (λ files, (None, <[path := data]> files)) d.

Definition io_rename (from to : string) : M Disk (option error) :=
  operate (λ e files, (Some e, files))
    (λ files, match files !! from with
              | Some data => (None, <[to := data]> (delete from files))
              | None => (Some (Errorf "no such file or directory"), files)
              end).

Definition io_remove (path : string) : M Disk removal :=
  operate (λ e files, (RemoveFailed e, files))
    (λ files, match files !! path with
              | Some _ => (Removed, delete path files)
              | None => (Missing, files)
              end).
End disk.

(** ** The state manager *)

(** [encoding/json] on the state, with and without indentation, and the SHA-256 sum
    in hexadecimal. *)
Class StateCodec := {
  marshal_state : UpgradeState → result string;
  marshal_indent : UpgradeState → result string;
  unmarshal_state : string → result UpgradeState;
  sha256_hex : string → string
}.

(** What was encoded decodes to what it was, for the states that can be encoded
    without loss. *)
Class StateCodecLaws `{StateCodec} := {
  encodable : UpgradeState → Prop;
  encodable_checksum : ∀ s c, encodable s → encodable (s <| st_Checksum := c |>);
  unmarshal_marshal : ∀ s data, encodable s → marshal_state s = Ok data →
    unmarshal_state data = Ok s;
  unmarshal_indent : ∀ s data, encodable s → marshal_indent s = Ok data →
    unmarshal_state data = Ok s
}.

Definition stateFilename : string := ".upgrade-state.json".

Section manager.
Context `{StateCodec}.
Variable faults : Faults.
Variable homeDir : string.

Definition statePath : string := Join [homeDir; stateFilename].

Definition calculateChecksum (state : UpgradeState) : string :=
  match marshal_state (state <| st_Checksum := "" |>) with
  | Ok data => sha256_hex data
  | Err _ => ""
  end.

Definition validateChecksum (state : UpgradeState) : option state_error :=
  if bool_decide (st_Checksum state = "") then None
  else
    let expected := calculateChecksum state in
    if bool_decide (st_Checksum state ≠ expected)
    then Some (StateCorruptionError ("checksum mismatch: stored=" +:+ st_Checksum state +:+
                                       ", computed=" +:+ expected))
    else None.

(** The contents of the file as a state. *)
Definition decode_state (data : string) : state_error + option UpgradeState :=
  match unmarshal_state data with
  | Err e => inl (StateCorruptionError ("invalid JSON: " +:+ Error e))
  | Ok state =>
      match validateChecksum state with Some e => inl e | None => inr (Some state) end
  end.

Definition file_LoadState : M Disk (state_error + option UpgradeState) :=
  do! r := io_read faults statePath in
  done_with (match r with
    | Err e => inl (OtherError (Errorf ("failed to read from " +:+ statePath +:+ ": " +:+ Error e)))
    | Ok None => inr None
    | Ok (Some data) => decode_state data
    end).

Definition WriteError (path msg : string) : error :=
  Errorf ("failed to write to " +:+ path +:+ ": " +:+ msg).

Definition file_SaveState (state : UpgradeState) : M Disk (option error * UpgradeState) :=
  let state := state <| st_Checksum := calculateChecksum state |> in
  let answer e := done_with (e, state) in
  match marshal_indent state with
  | Err e => answer (Some (Wrap "failed to marshal state" e))
  | Ok data =>
      let tempPath := statePath +:+ ".tmp" in
      do! err := io_write faults tempPath data in
      match err with
      | Some e => answer (Some (WriteError tempPath (Error e)))
      | None =>
          do! err := io_rename faults tempPath statePath in
          match err with
          | Some e =>
              run! io_remove faults tempPath in
              answer (Some (WriteError statePath ("atomic rename failed: " +:+ Error e)))
          | None => answer None
          end
      end
  end.

Definition file_DeleteState : M Disk (option error) :=
  do! r := io_remove faults statePath in
  done_with (match r with
    | RemoveFailed e => Some (Wrap "failed to delete state file" e)
    | _ => None
    end).

Definition file_StateExists : M Disk (result bool) :=
  do! r := io_read faults statePath in
  done_with (match r with
    | Err e => Err (Wrap "failed to check state file" e)
    | Ok data => Ok (bool_decide (is_Some data))
    end).

(** The first complaint of a loop over a list. *)
Fixpoint first_error {A} (i : Z) (check : Z → A → option string) (l : list A) : option string :=
  match l with
  | [] => None
  | x :: l => match check i x with Some e => Some e | None => first_error (i + 1) check l end
  end.

Definition validate_vote (i : Z) (vote : ValidatorVoteState) : option string :=
  let at_i msg := Some ("validatorVotes[" +:+ itoa i +:+ "]: " +:+ msg) in
  if bool_decide (vv_Address vote = "") then at_i "address is required"
  else if vv_Voted vote && bool_decide (vv_TxHash vote = "")
  then at_i "txHash required when voted=true"
  else None.

Definition validate_switch (i : Z) (ns : NodeSwitchState) : option string :=
  let at_i msg := Some ("nodeSwitches[" +:+ itoa i +:+ "]: " +:+ msg) in
  if bool_decide (sw_NodeName ns = "") then at_i "nodeName is required"
  else if sw_Switched ns && (negb (sw_Stopped ns) || negb (sw_Started ns))
  then at_i "stopped and started must be true when switched=true"
  else if sw_Switched ns && bool_decide (sw_NewBinary ns = "")
  then at_i "newBinary required when switched=true"
  else None.

Definition file_ValidateState (state : UpgradeState) : option state_error :=
  let bad reason := Some (StateCorruptionError reason) in
  if bool_decide (st_Version state < 1)%Z
  then bad ("invalid schema version: " +:+ itoa (st_Version state))
  else if bool_decide (st_UpgradeName state = "") then bad "upgradeName is required"
  else if bool_decide (st_Stage state = "") then bad "stage is required"
  else if bool_decide (st_Mode state ≠ "docker") && bool_decide (st_Mode state ≠ "local")
  then bad ("invalid mode: " +:+ st_Mode state +:+ " (must be 'docker' or 'local')")
  else
    match st_StageHistory state with
    | [] => bad "stageHistory must not be empty"
    | first :: _ =>
        if bool_decide (tr_From first ≠ "")
        then bad "first stageHistory entry must have empty 'from' field"
        else if bool_decide (st_UpdatedAt state < st_CreatedAt state)%Z
        then bad "createdAt cannot be after updatedAt"
        else
          match first_error 0 validate_vote (st_ValidatorVotes state) with
          | Some reason => bad reason
          | None =>
              match first_error 0 validate_switch (st_NodeSwitches state) with
              | Some reason => bad reason
              | None => None
              end
          end
    end.

#[export] Instance FileUpgradeStateManager : UpgradeStateManager Disk := {|
  LoadState := file_LoadState;
  SaveState := file_SaveState;
  DeleteState := file_DeleteState;
  StateExists := file_StateExists;
  ValidateState := file_ValidateState
|}.
End manager.

(** ** The laws hold *)

Section laws.
Context `{StateCodecLaws}.
Variable faults : Faults.
Variable homeDir : string.
#[local] Existing Instance FileUpgradeStateManager.

Definition file_on_disk (d : Disk) : state_error + option UpgradeState :=
  match dk_files d !! statePath homeDir with
  | Some data => decode_state data
  | None => inr None
  end.

Definition checksummed (s : UpgradeState) : UpgradeState := s <| st_Checksum := calculateChecksum s |>.

Lemma temp_path_ne : statePath homeDir +:+ ".tmp" ≠ statePath homeDir.
Proof.
  generalize (statePath homeDir). intros p. induction p as [|c p IH]; simpl; [done|].
  intros [= E]. by apply IH.
Qed.

Lemma decode_checksummed s data :
  encodable s → marshal_indent (checksummed s) = Ok data →
  decode_state data = inr (Some (checksummed s)).
Proof.
  intros He Hm. unfold decode_state. rewrite (unmarshal_indent _ _ (encodable_checksum _ _ He) Hm).
  unfold validateChecksum, calculateChecksum, checksummed. simpl. case_bool_decide; [done|].
  by rewrite bool_decide_false by (intros Hn; by apply Hn).
Qed.

(** The outcome of saving: the new state is in the file, or what was there is. *)
Lemma file_SaveState_cases s d :
  let out := file_SaveState faults homeDir s d in
  out.1.2 = checksummed s ∧
  match out.1.1 with
  | None => ∃ data, marshal_indent (checksummed s) = Ok data ∧
      dk_files out.2 !! statePath homeDir = Some data
  | Some _ => dk_files out.2 !! statePath homeDir = dk_files d !! statePath homeDir
  end.
Proof.
  pose proof temp_path_ne as Hne. cbv zeta. unfold file_SaveState. fold (checksummed s).
  destruct (marshal_indent (checksummed s)) as [data|e] eqn:Hm; [|by split].
  rewrite bindM_eq. unfold io_write, operate.
  destruct (fault faults (dk_ops d)) as [e|]; cbn [fst snd dk_files dk_ops].
  { split; [done|]. simpl. destruct (torn faults _); [by rewrite lookup_insert_ne|done]. }
  rewrite bindM_eq. unfold io_rename, operate. cbn [dk_files dk_ops].
  destruct (fault faults (S (dk_ops d))) as [e|]; cbn [fst snd dk_files dk_ops].
  - rewrite bindM_eq. unfold io_remove, operate. cbn [dk_files dk_ops]. split; [done|].
    destruct (fault faults _); simpl; [by rewrite lookup_insert_ne|].
    rewrite lookup_insert_eq. simpl. by rewrite lookup_delete_ne, lookup_insert_ne by done.
  - rewrite lookup_insert_eq. cbn [fst snd]. split; [done|]. exists data. split; [done|].
    simpl. by rewrite lookup_insert_eq.
Qed.

#[export] Program Instance FileUpgradeStateManager_laws :
  @StateManagerLaws Disk (FileUpgradeStateManager faults homeDir) := {|
  on_disk := file_on_disk;
  keepable := encodable;
  keepable_checksum := encodable_checksum
|}.
Next Obligation.
  intros s f. exists (calculateChecksum s). apply (file_SaveState_cases s f).
Qed.
Next Obligation.
  intros s f Hk Hs. destruct (file_SaveState_cases s f) as [E Hc]. simpl in *.
  rewrite Hs in Hc. destruct Hc as (data & Hm & Hd). unfold file_on_disk. rewrite Hd, E.
  by apply decode_checksummed.
Qed.
Next Obligation.
  intros s f e Hs. destruct (file_SaveState_cases s f) as [_ Hc]. simpl in *.
  rewrite Hs in Hc. unfold file_on_disk. by rewrite Hc.
Qed.
Next Obligation.
  intros f. simpl. unfold file_DeleteState. rewrite bindM_eq. unfold io_remove, operate, file_on_disk.
  destruct (fault faults _); [done|]. intros _.
  destruct (dk_files f !! statePath homeDir) eqn:Hf; simpl; [by rewrite lookup_delete_eq|by rewrite Hf].
Qed.
Next Obligation.
  intros f e. simpl. unfold file_DeleteState. rewrite bindM_eq. unfold io_remove, operate, file_on_disk.
  destruct (fault faults _); [done|]. by destruct (dk_files f !! statePath homeDir).
Qed.
Next Obligation.
  intros f. simpl. unfold file_LoadState. rewrite bindM_eq. unfold io_read, operate, file_on_disk.
  destruct (fault faults _); simpl; [split; [done|by right; eexists]|].
  split; [done|]. left. by destruct (dk_files f !! statePath homeDir).
Qed.
End laws.

(** ** Saving and loading *)

(** Two contents without a collision of their sums. *)
Definition no_collision `{StateCodec} (a b : UpgradeState) : Prop :=
  ∀ x y, marshal_state a = Ok x → marshal_state b = Ok y → sha256_hex x = sha256_hex y → x = y.

Lemma no_fault_saves `{StateCodec} faults homeDir s d data :
  (∀ n, fault faults n = None) → marshal_indent (checksummed s) = Ok data →
  (file_SaveState faults homeDir s d).1.1 = None.
Proof.
  intros Hf Hm. unfold file_SaveState. fold (checksummed s). rewrite Hm.
  rewrite bindM_eq. unfold io_write, operate. rewrite Hf. simpl. unfold bindM, io_rename, operate.
  rewrite Hf. simpl. by rewrite lookup_insert_eq.
Qed.

Lemma same_but_checksum a b :
  a <| st_Checksum := "" |> = b <| st_Checksum := "" |> → a = b <| st_Checksum := st_Checksum a |>.
Proof. destruct a, b. intros [=]. simpl in *. by subst. Qed.

(** C20: the state file is replaced atomically and protected by its checksum.  After a
    save that succeeds, and some save succeeds unless an operation fails, a load
    whose read succeeds finds the state saved with its checksum; after a save that
    fails, wherever it fails and whatever the failed write left behind, it finds
    what it found before.  If the contents are changed so that they decode to
    another state with the same checksum field, the file is reported as corrupted,
    unless the two states collide under SHA-256. *)
Theorem saved_state_is_loaded `{StateCodecLaws} faults homeDir s d :
  encodable s →
  let '(e, s', d') := file_SaveState faults homeDir s d in
  let found d := file_on_disk homeDir d in
  s' = s <| st_Checksum := calculateChecksum s |> ∧
  (e = None → found d' = inr (Some s')) ∧ (e ≠ None → found d' = found d) ∧
  (fault faults (dk_ops d') = None → (file_LoadState faults homeDir d').1 = found d') ∧
  (∀ data, marshal_indent s' = Ok data → (∀ n, fault faults n = None) → e = None) ∧
  ∀ tampered s2, unmarshal_state tampered = Ok s2 → encodable s2 → s2 ≠ s' →
    st_Checksum s2 = st_Checksum s' → st_Checksum s' ≠ "" →
    no_collision (s2 <| st_Checksum := "" |>) (s <| st_Checksum := "" |>) →
    ∃ reason, found (mkDisk (<[statePath homeDir := tampered]> (dk_files d')) (dk_ops d')) =
      inl (StateCorruptionError reason).
Proof.
  intros He. pose proof (file_SaveState_cases faults homeDir s d) as [E Hc].
  pose proof (no_fault_saves faults homeDir s d) as Hok.
  destruct (file_SaveState faults homeDir s d) as [[e s'] d']. simpl in *. subst s'.
  split; [done|]. split; [|split; [|split; [|split]]].
  - intros ->. destruct Hc as (data & Hm & Hd). unfold file_on_disk. rewrite Hd.
    by apply decode_checksummed.
  - intros Hn. destruct e; [|done]. unfold file_on_disk. by rewrite Hc.
  - intros Hf. unfold file_LoadState. rewrite bindM_eq. unfold io_read, operate, file_on_disk.
    rewrite Hf. simpl. by destruct (dk_files d' !! statePath homeDir).
  - eauto.
  - intros tampered s2 Hu He2 Hne Hcs Hn Hnc. unfold file_on_disk. cbn [dk_files].
    rewrite lookup_insert_eq. unfold decode_state. rewrite Hu. unfold validateChecksum.
    rewrite bool_decide_false by congruence.
    case_bool_decide as Heq; [by eexists|]. exfalso.
    rewrite Hcs in Heq. change (calculateChecksum s = calculateChecksum s2) in Heq.
    change (calculateChecksum s ≠ "") in Hn. unfold calculateChecksum in Heq, Hn.
    destruct (marshal_state (s <| st_Checksum := "" |>)) as [x|] eqn:Hx; [|done].
    destruct (marshal_state (s2 <| st_Checksum := "" |>)) as [y|] eqn:Hy; [|done].
    pose proof (Hnc _ _ Hy Hx (eq_sym Heq)) as ->.
    apply unmarshal_marshal in Hx; [|by apply encodable_checksum].
    apply unmarshal_marshal in Hy; [|by apply encodable_checksum].
    apply Hne. rewrite (same_but_checksum s2 s), Hcs; [done|congruence].
Qed.

(** ** A concrete codec *)

#[export] Instance ValidatorVoteState_eq_dec : EqDecision ValidatorVoteState.
Proof. solve_decision. Defined.
#[export] Program Instance ValidatorVoteState_countable : Countable ValidatorVoteState :=
  inj_countable'
    (λ v, (vv_Address v, vv_Moniker v, vv_Voted v, vv_TxHash v, vv_Timestamp v))
    (λ '(a, m, v, t, s), mkValidatorVoteState a m v t s) _.
Next Obligation. by intros []. Qed.

#[export] Instance NodeSwitchState_eq_dec : EqDecision NodeSwitchState.
Proof. solve_decision. Defined.
#[export] Program Instance NodeSwitchState_countable : Countable NodeSwitchState :=
  inj_countable'
    (λ n, (sw_NodeName n, sw_Switched n, sw_Stopped n, sw_Started n, sw_OldBinary n,
           sw_NewBinary n, sw_Timestamp n))
    (λ '(a, b, c, d, e, f, g), mkNodeSwitchState a b c d e f g) _.
Next Obligation. by intros []. Qed.

#[export] Instance StageTransition_eq_dec : EqDecision StageTransition.
Proof. solve_decision. Defined.
#[export] Program Instance StageTransition_countable : Countable StageTransition :=
  inj_countable' (λ t, (tr_From t, tr_To t, tr_Timestamp t, tr_Reason t))
    (λ '(a, b, c, d), mkStageTransition a b c d) _.
Next Obligation. by intros []. Qed.

#[export] Instance UpgradeState_eq_dec : EqDecision UpgradeState.
Proof. solve_decision. Defined.
#[export] Program Instance UpgradeState_countable : Countable UpgradeState :=
  inj_countable'
    (λ s, ((st_Version s, st_Checksum s, st_UpgradeName s, st_Stage s, st_Mode s,
            st_SkipGovernance s, st_ProposalID s, st_UpgradeHeight s),
           (st_TargetBinary s, st_TargetImage s, st_TargetVersion s, st_ValidatorVotes s,
            st_NodeSwitches s), (st_Error s, st_CreatedAt s, st_UpdatedAt s, st_StageHistory s)))
    (λ '((a, b, c, d, e, f, g, h), (i, j, k, l, m), (n, o, p, q)),
       mkUpgradeState a b c d e f g h i j k l m n o p q) _.
Next Obligation. by intros []. Qed.

(** A state as the decimal number that encodes it; what is hashed is its own sum. *)
Definition number_state (s : UpgradeState) : string := pretty (Npos (countable.encode s)).

#[export] Instance number_codec : StateCodec := {|
  marshal_state s := Ok (number_state s);
  marshal_indent s := Ok (number_state s);
  unmarshal_state data :=
    match parse_unsigned data with
    | Some (Npos p) => match countable.decode p with
                       | Some s => Ok s
                       | None => Err (Errorf "unexpected end of JSON input")
                       end
    | _ => Err (Errorf "unexpected end of JSON input")
    end;
  sha256_hex := id
|}.

Lemma number_state_roundtrip s : unmarshal_state (number_state s) = Ok s.
Proof.
  unfold unmarshal_state, number_codec, number_state.
  destruct (pretty_N_parse (Npos (countable.encode s))) as (c & t & E & Hp & _).
  by rewrite E, Hp, countable.decode_encode.
Qed.

Lemma number_state_ne s : number_state s ≠ "".
Proof. intros E. pose proof (number_state_roundtrip s) as Hr. rewrite E in Hr. discriminate Hr. Qed.

#[export] Program Instance number_codec_laws : StateCodecLaws := {| encodable := λ _, True |}.
Next Obligation. done. Qed.
Next Obligation. intros s data _ [= <-]. apply number_state_roundtrip. Qed.
Next Obligation. intros s data _ [= <-]. apply number_state_roundtrip. Qed.

Definition no_faults : Faults := mkFaults (λ _, None) (λ _, None).

(** The state is saved and found, and found corrupted when its name was changed. *)
Lemma saved_state_is_loaded_witness :
  let s := NewUpgradeState 0 "v2" "local" true in
  let out := file_SaveState no_faults "/home" s (mkDisk ∅ 0) in
  file_on_disk "/home" out.2 = inr (Some out.1.2) ∧
  ∃ reason, file_on_disk "/home" (mkDisk (<[statePath "/home" := number_state
      (out.1.2 <| st_UpgradeName := "v3" |>)]> (dk_files out.2)) (dk_ops out.2)) =
    inl (StateCorruptionError reason).
Proof.
  intros s out. pose proof (saved_state_is_loaded no_faults "/home" s (mkDisk ∅ 0) I) as Ho.
  unfold out. destruct (file_SaveState no_faults "/home" s (mkDisk ∅ 0)) as [[e s'] d'].
  cbn [fst snd] in *. destruct Ho as (Hs & Hload & _ & _ & Hok & Htamper).
  split; [apply Hload, (Hok (number_state s')); [reflexivity|reflexivity]|].
  apply (Htamper _ (s' <| st_UpgradeName := "v3" |>)).
  - apply number_state_roundtrip.
  - exact I.
  - rewrite Hs. intros E. apply (f_equal st_UpgradeName) in E. discriminate E.
  - reflexivity.
  - rewrite Hs. apply number_state_ne.
  - intros x y Hx Hy E. exact E.
Defined.
