(* ===== verification/GovABI.v ===== *)
(** * Call data of governance transactions
    ([internal/application/upgrade/propose.go], [vote.go])

    The upgrade command talks to the governance precompile of the chain with call
    data that it encodes by hand.  This file models the two encoders over bytes and
    relates them to a decoder that follows the contract ABI: selectors, words of 32
    bytes, offsets to dynamic data.  Hashing, addresses and padding are go-ethereum's
    and enter through a class; [math/big] is modelled. *)

From Stdlib Require Import Ascii.
From stdpp Require Import base tactics numbers list strings.
From S2P Require Import Prelude.

(** ** Bytes and big integers *)

Abbreviation bytes := (list Z).

Definition is_byte (b : Z) : Prop := (0 ≤ b < 256)%Z.

Definition byte_of (c : ascii) : Z := Z.of_nat (nat_of_ascii c).
Definition char_of (b : Z) : ascii := ascii_of_nat (Z.to_nat b).

(** [[]byte(s)] and [string(b)]. *)
Definition to_bytes (s : string) : bytes := byte_of <$> Strings.String.list_ascii_of_string s.
Definition of_bytes (b : bytes) : string := Strings.String.string_of_list_ascii (char_of <$> b).

(** The value of big-endian bytes, and [Bytes] of a [big.Int]: the absolute value,
    without leading zeros. *)
Definition be_value (b : bytes) : Z := foldl (λ n x, n * 256 + x)%Z 0%Z b.

Fixpoint be_digits (fuel : nat) (n : Z) (b : bytes) : bytes :=
  match fuel with
  | O => b
  | S fuel => if bool_decide (n = 0)%Z then b else be_digits fuel (n / 256) ((n mod 256)%Z :: b)
  end.
Definition be_bytes (n : Z) : bytes := be_digits (Z.to_nat (Z.log2 (Z.abs n)) + 1) (Z.abs n) [].

(** [SetString(s, 10)]. *)
Definition SetString (s : string) : option Z :=
  match s with
  | EmptyString => None
  | String c rest =>
      if bool_decide (c = "-"%char) then (λ n, (- Z.of_N n)%Z) <$> parse_unsigned rest
      else if bool_decide (c = "+"%char) then Z.of_N <$> parse_unsigned rest
      else Z.of_N <$> parse_unsigned s
  end.

(** ** The encoders *)

(** go-ethereum: the hash, reading an address (20 bytes), and zeros before bytes up
    to a length. *)
Class Ethereum := {
  Keccak256 : bytes → bytes;
  HexToAddress : string → bytes;
  LeftPadBytes : bytes → nat → bytes;
  (** The value that a failed [SetString] leaves is not defined. *)
  undefined_int : string → Z
}.

Class EthereumLaws `{Ethereum} := {
  Keccak256_length : ∀ b, length (Keccak256 b) = 32;
  HexToAddress_bytes : ∀ s, length (HexToAddress s) = 20 ∧ Forall is_byte (HexToAddress s);
  LeftPadBytes_spec : ∀ b n,
    LeftPadBytes b n = if bool_decide (n ≤ length b) then b else replicate (n - length b) 0%Z ++ b
}.

Section encoders.
Context `{Ethereum}.

Definition pad (b : bytes) : bytes := LeftPadBytes b 32.
Definition word (n : Z) : bytes := pad (be_bytes n).

Definition methodID (signature : string) : bytes := take 4 (Keccak256 (to_bytes signature)).

(** [make([]byte, n)] and [copy] into it. *)
Definition copied (n : nat) (b : bytes) : bytes := take n b ++ replicate (n - length b) 0%Z.

Definition padded_length (b : bytes) : nat := ((length b + 31) / 32 * 32)%nat.

Definition vote_signature : string := "vote(address,uint64,uint8,string)".

(** [byte(option)] and [int64(proposalID)] wrap around. *)
Definition buildVoteCallData (voter : string) (proposalID option : Z) (metadata : string) : bytes :=
  let text := to_bytes metadata in
  methodID vote_signature ++ pad (HexToAddress voter) ++ word (wrap64 proposalID) ++
  pad [(option mod 256)%Z] ++ word 128 ++ word (Z.of_nat (length text)) ++
  (if bool_decide (0 < length text) then copied (padded_length text) text else []).

Definition submit_signature : string := "submitProposal(address,bytes,(string,uint256)[])".

Definition deposit_value (depositAmount : string) : Z :=
  match SetString depositAmount with Some n => n | None => undefined_int depositAmount end.

Definition buildSubmitProposalCallData (proposer proposalJSON depositDenom depositAmount : string)
    : bytes :=
  let proposalBytes := to_bytes proposalJSON in
  let bytesLen := padded_length proposalBytes in
  let depositOffset := (96 + 32 + Z.of_nat bytesLen)%Z in
  methodID submit_signature ++ pad (HexToAddress proposer) ++ word 96 ++ word depositOffset ++
  word (Z.of_nat (length proposalBytes)) ++ copied bytesLen proposalBytes ++
  word 1 ++ word 32 ++ word 64 ++ word (deposit_value depositAmount) ++
  word (Z.of_nat (length (to_bytes depositDenom))) ++ copied 32 (to_bytes depositDenom).
End encoders.

(** ** A decoder, after the contract ABI *)

(** The word and the bytes at a position; the data has to be long enough. *)
Definition slice (pos n : nat) (data : bytes) : option bytes :=
  if bool_decide (pos + n ≤ length data) then Some (take n (drop pos data)) else None.
Definition word_at (pos : nat) (data : bytes) : option Z := be_value <$> slice pos 32 data.
Definition bytes_at (pos : nat) (data : bytes) : option bytes :=
  n ← word_at pos data; slice (pos + 32) (Z.to_nat n) data.

(** The arguments of [vote], after the selector: address, proposal, option, metadata. *)
Definition decode_vote (data : bytes) : option (bytes * (bytes * Z * Z * bytes)) :=
  selector ← slice 0 4 data;
  let args := drop 4 data in
  voter ← slice 12 20 args;
  proposal ← word_at 32 args;
  option ← word_at 64 args;
  offset ← word_at 96 args;
  metadata ← bytes_at (Z.to_nat offset) args;
  Some (selector, (voter, proposal, option, metadata)).

(** The arguments of [submitProposal]: address, proposal, and an array of one coin. *)
Definition decode_submit (data : bytes) : option (bytes * (bytes * bytes * (bytes * Z))) :=
  selector ← slice 0 4 data;
  let args := drop 4 data in
  proposer ← slice 12 20 args;
  proposal_at ← word_at 32 args;
  proposal ← bytes_at (Z.to_nat proposal_at) args;
  coins_at ← word_at 64 args;
  count ← word_at (Z.to_nat coins_at) args;
  let elements := (Z.to_nat coins_at + 32)%nat in
  tuple ← word_at elements args;
  let coin := (elements + Z.to_nat tuple)%nat in
  denom_at ← word_at coin args;
  amount ← word_at (coin + 32) args;
  denom ← bytes_at (coin + Z.to_nat denom_at) args;
  if bool_decide (count = 1)%Z then Some (selector, (proposer, proposal, (denom, amount))) else None.

(** ** Words *)

Lemma be_value_app a b :
  be_value (a ++ b) = (be_value a * 256 ^ Z.of_nat (length b) + be_value b)%Z.
Proof.
  unfold be_value. rewrite foldl_app. generalize (foldl (λ n x, n * 256 + x)%Z 0%Z a). clear a.
  induction b as [|x b IH] using rev_ind; intros n; simpl; [lia|].
  rewrite !foldl_app, length_app, IH. simpl.
  rewrite Nat.add_1_r, Nat2Z.inj_succ, Z.pow_succ_r by lia. lia.
Qed.

Lemma be_value_zeros n : be_value (replicate n 0%Z) = 0%Z.
Proof. induction n as [|n IH]; [done|]. exact IH. Qed.

Lemma be_digits_value fuel n b :
  (0 ≤ n < 256 ^ Z.of_nat fuel)%Z →
  be_value (be_digits fuel n b) = (n * 256 ^ Z.of_nat (length b) + be_value b)%Z.
Proof.
  revert n b. induction fuel as [|fuel IH]; intros n b Hn; simpl.
  - simpl in Hn. assert (n = 0%Z) as -> by lia. lia.
  - case_bool_decide as H0; [subst n; lia|].
    rewrite Nat2Z.inj_succ, Z.pow_succ_r in Hn by lia.
    rewrite IH by (split; [apply Z.div_pos; lia|apply Z.div_lt_upper_bound; lia]).
    change (n mod 256 :: b)%Z with ([(n mod 256)%Z] ++ b). rewrite be_value_app.
    cbn [length app]. rewrite Nat2Z.inj_succ, Z.pow_succ_r by lia.
    change (be_value [(n mod 256)%Z]) with (n mod 256)%Z.
    pose proof (Z.div_mod n 256 ltac:(lia)). nia.
Qed.

Lemma be_digits_length fuel n b k :
  (0 ≤ n < 256 ^ Z.of_nat k)%Z → length (be_digits fuel n b) ≤ k + length b.
Proof.
  revert n b k. induction fuel as [|fuel IH]; intros n b k Hn; simpl; [lia|].
  case_bool_decide as H0; [lia|]. destruct k as [|k]; [simpl in Hn; lia|].
  rewrite Nat2Z.inj_succ, Z.pow_succ_r in Hn by lia.
  assert (Hk : (0 ≤ n / 256 < 256 ^ Z.of_nat k)%Z).
  { split; [apply Z.div_pos; lia|apply Z.div_lt_upper_bound; lia]. }
  specialize (IH (n / 256)%Z ((n mod 256)%Z :: b) k Hk). simpl in IH. lia.
Qed.

Lemma be_bytes_value n : (0 ≤ n)%Z → be_value (be_bytes n) = n.
Proof.
  intros Hn. unfold be_bytes. rewrite Z.abs_eq by done.
  rewrite be_digits_value; [change (be_value []) with 0%Z; change (length (@nil Z)) with 0; simpl; lia|].
  split; [done|]. destruct (decide (n = 0)%Z) as [->|]; [done|].
  rewrite Nat2Z.inj_add, Z2Nat.id by apply Z.log2_nonneg.
  pose proof (Z.log2_spec n ltac:(lia)) as [_ Hl].
  apply (Z.lt_le_trans _ _ _ Hl). change 256%Z with (2 ^ 8)%Z. rewrite <- Z.pow_mul_r by
    (pose proof (Z.log2_nonneg n); lia).
  apply Z.pow_le_mono_r; pose proof (Z.log2_nonneg n); lia.
Qed.

Definition uint256 (n : Z) : Prop := (0 ≤ n < 2 ^ 256)%Z.

Section words.
Context `{EthereumLaws}.

Lemma pad_short b : length b ≤ 32 → pad b = replicate (32 - length b) 0%Z ++ b.
Proof.
  intros Hb. unfold pad. rewrite LeftPadBytes_spec. case_bool_decide; [|done].
  assert (length b = 32) as -> by lia. done.
Qed.

Lemma pad_length b : length b ≤ 32 → length (pad b) = 32.
Proof. intros Hb. rewrite pad_short, length_app, length_replicate by done. lia. Qed.

Lemma pad_value b : length b ≤ 32 → be_value (pad b) = be_value b.
Proof. intros Hb. rewrite pad_short by done. rewrite be_value_app, be_value_zeros. lia. Qed.

Lemma be_bytes_short n : uint256 n → length (be_bytes n) ≤ 32.
Proof.
  intros [Hn Hm]. unfold be_bytes. rewrite Z.abs_eq by done.
  etrans; [apply (be_digits_length _ _ _ 32)|simpl; lia]. split; [done|]. exact Hm.
Qed.

Lemma word_length n : uint256 n → length (word n) = 32.
Proof. intros Hn. by apply pad_length, be_bytes_short. Qed.

Lemma word_value n : uint256 n → be_value (word n) = n.
Proof.
  intros Hn. unfold word. rewrite pad_value by (by apply be_bytes_short).
  by apply be_bytes_value, Hn.
Qed.
End words.

(** ** Positions *)

Lemma slice_here n a b : length a = n → slice 0 n (a ++ b) = Some a.
Proof.
  intros <-. unfold slice. rewrite bool_decide_true by (rewrite length_app; lia).
  by rewrite drop_0, take_app_length.
Qed.

Lemma slice_later pos n a b :
  length a ≤ pos → slice pos n (a ++ b) = slice (pos - length a) n b.
Proof.
  intros Ha. unfold slice. rewrite length_app.
  destruct (decide (pos + n ≤ length a + length b)) as [Hl|Hl].
  - rewrite !bool_decide_true by lia. by rewrite drop_app_ge.
  - by rewrite !bool_decide_false by lia.
Qed.

Lemma slice_all n a : length a = n → slice 0 n a = Some a.
Proof. intros Ha. rewrite <- (app_nil_r a) at 1. by apply slice_here. Qed.

Lemma copied_fits n b : length b ≤ n → copied n b = b ++ replicate (n - length b) 0%Z.
Proof. intros Hb. unfold copied. by rewrite take_ge. Qed.

Lemma copied_length n b : length (copied n b) = n.
Proof. unfold copied. rewrite length_app, length_take, length_replicate. lia. Qed.

Lemma padded_length_ge b : length b ≤ padded_length b < length b + 32.
Proof.
  unfold padded_length. pose proof (Nat.div_mod_eq (length b + 31) 32) as E.
  pose proof (Nat.mod_upper_bound (length b + 31) 32 ltac:(lia)). lia.
Qed.

Section roundtrip.
Context `{EthereumLaws}.

Lemma methodID_length s : length (methodID s) = 4.
Proof. unfold methodID. rewrite length_take, Keccak256_length. done. Qed.

Lemma word_here n rest : uint256 n → be_value <$> slice 0 32 (word n ++ rest) = Some n.
Proof. intros Hn. rewrite slice_here by (by apply word_length). simpl. by rewrite word_value. Qed.

(** The address, in the last 20 bytes of its word. *)
Lemma address_here s rest : slice 12 20 (pad (HexToAddress s) ++ rest) = Some (HexToAddress s).
Proof.
  destruct (HexToAddress_bytes s) as [Hl _]. rewrite pad_short by lia. rewrite Hl, <- (assoc_L app).
  rewrite slice_later by (rewrite length_replicate; lia). rewrite length_replicate.
  by apply slice_here.
Qed.

Lemma pad_address_length s : length (pad (HexToAddress s)) = 32.
Proof. apply pad_length. destruct (HexToAddress_bytes s) as [-> _]. lia. Qed.

(** A length word, the bytes, and zeros. *)
Lemma bytes_here b zeros rest :
  uint256 (Z.of_nat (length b)) →
  bytes_at 0 (word (Z.of_nat (length b)) ++ (b ++ zeros) ++ rest) = Some b.
Proof.
  intros Hb. unfold bytes_at, word_at. rewrite word_here by done. simpl.
  rewrite slice_later by (rewrite word_length by done; lia). rewrite word_length by done.
  rewrite Nat2Z.id, <- (assoc_L app). by apply slice_here.
Qed.

Lemma bytes_at_later pos a b : length a ≤ pos → bytes_at pos (a ++ b) = bytes_at (pos - length a) b.
Proof.
  intros Ha. unfold bytes_at, word_at. rewrite slice_later by done.
  destruct (slice (pos - length a) 32 b); simpl; [|done]. rewrite slice_later by lia.
  f_equal. lia.
Qed.
Lemma word_at_later pos a b : length a ≤ pos → word_at pos (a ++ b) = word_at (pos - length a) b.
Proof. intros Ha. unfold word_at. by rewrite slice_later. Qed.
Lemma word_at_here n rest : uint256 n → word_at 0 (word n ++ rest) = Some n.
Proof. apply word_here. Qed.

(** Looking for a position behind segments of known length. *)
Ltac lens :=
  rewrite ?methodID_length, ?pad_address_length, ?copied_length;
  repeat rewrite word_length by assumption.
Ltac seek :=
  repeat first [ rewrite word_at_later by (lens; lia) | rewrite bytes_at_later by (lens; lia) ]; lens;
  match goal with
  | |- word_at ?p _ = _ => replace p with 0 by lia; try (apply word_at_here; assumption)
  | |- bytes_at ?p _ = _ => replace p with 0 by lia
  end.

(** The call data of a vote decodes, by the contract ABI, to the voter's address,
    the proposal, the option and the metadata it was built from. *)
Theorem vote_call_decodes voter proposalID option metadata :
  (0 ≤ proposalID < 2 ^ 63)%Z → is_byte option →
  (Z.of_nat (length (to_bytes metadata)) < 2 ^ 63)%Z →
  decode_vote (buildVoteCallData voter proposalID option metadata) =
    Some (methodID vote_signature, (HexToAddress voter, proposalID, option, to_bytes metadata)).
Proof.
  intros Hp Ho Hm. unfold decode_vote, buildVoteCallData.
  rewrite wrap64_id by (unfold int64_range; lia). rewrite Z.mod_small by done.
  set (text := to_bytes metadata) in *.
  assert (Hop : uint256 option) by (unfold uint256, is_byte in *; lia).
  assert (Hpo : pad [option] = word option).
  { unfold word. destruct (decide (option = 0)%Z) as [->|Hne]; [by rewrite !pad_short by (vm_compute; lia)|].
    f_equal. unfold be_bytes. rewrite Z.abs_eq by apply Ho. rewrite Nat.add_1_r. simpl.
    rewrite bool_decide_false by done. unfold is_byte in Ho.
    rewrite Z.div_small, Z.mod_small by lia. by destruct (Z.to_nat (Z.log2 option)). }
  rewrite Hpo. assert (uint256 proposalID) by (unfold uint256; lia).
  assert (uint256 128) by (by unfold uint256). assert (uint256 (Z.of_nat (length text))) by
    (unfold uint256; lia).
  rewrite slice_here by apply methodID_length. simpl. rewrite drop_app_length' by (by rewrite methodID_length).
  rewrite address_here. simpl.
  match goal with |- context [word_at 32 ?a] => set (args := a) end.
  assert (word_at 32 args = Some proposalID) as -> by (unfold args; seek). simpl.
  assert (word_at 64 args = Some option) as -> by (unfold args; seek). simpl.
  assert (word_at 96 args = Some 128%Z) as -> by (unfold args; seek). simpl.
  assert (bytes_at (Z.to_nat 128) args = Some text) as ->; [|done].
  unfold args. change (Z.to_nat 128) with 128. seek. case_bool_decide as Hl.
  - rewrite copied_fits by apply padded_length_ge.
    rewrite <- (app_nil_r (text ++ _)). by apply bytes_here.
  - destruct text as [|x t]; [|simpl in Hl; lia]. rewrite <- (app_nil_r []) at 2.
    rewrite <- (app_nil_r []) at 2. by apply bytes_here.
Qed.

(** The call data of a proposal decodes, by the contract ABI, to the proposer's
    address, the proposal and one coin, for a denomination of at most 32 bytes and
    a decimal amount below 2^256; a longer denomination is cut to 32 bytes while
    its length is written in full, and does not decode. *)
Theorem submit_call_decodes proposer json denom depositAmount amount :
  SetString depositAmount = Some amount → uint256 amount →
  (Z.of_nat (length (to_bytes json)) < 2 ^ 62)%Z →
  (Z.of_nat (length (to_bytes denom)) < 2 ^ 62)%Z →
  decode_submit (buildSubmitProposalCallData proposer json denom depositAmount) =
    if bool_decide (length (to_bytes denom) ≤ 32)
    then Some (methodID submit_signature,
               (HexToAddress proposer, to_bytes json, (to_bytes denom, amount)))
    else None.
Proof.
  intros Ha Hu Hj Hd. unfold decode_submit, buildSubmitProposalCallData, deposit_value. rewrite Ha.
  set (text := to_bytes json) in *. set (den := to_bytes denom) in *.
  pose proof (padded_length_ge text) as Hpl. set (n := padded_length text) in *.
  assert (uint256 96 ∧ uint256 1 ∧ uint256 32 ∧ uint256 64) as (? & ? & ? & ?) by (by unfold uint256).
  assert (uint256 (96 + 32 + Z.of_nat n)) by (unfold uint256; lia).
  assert (uint256 (Z.of_nat (length text)) ∧ uint256 (Z.of_nat (length den))) as [? ?]
    by (unfold uint256; lia).
  rewrite slice_here by apply methodID_length. simpl. rewrite drop_app_length' by (by rewrite methodID_length).
  rewrite address_here. simpl.
  match goal with |- context [word_at 32 ?a] => set (args := a) end.
  assert (word_at 32 args = Some 96%Z) as -> by (unfold args; seek). cbn [mbind option_bind].
  assert (bytes_at (Z.to_nat 96) args = Some text) as ->.
  { unfold args. change (Z.to_nat 96) with 96. seek. rewrite copied_fits by lia. by apply bytes_here. }
  cbn [mbind option_bind].
  assert (word_at 64 args = Some (96 + 32 + Z.of_nat n)%Z) as -> by (unfold args; seek).
  cbn [mbind option_bind].
  replace (Z.to_nat (96 + 32 + Z.of_nat n)) with (128 + n)%nat by lia.
  assert (word_at (128 + n) args = Some 1%Z) as -> by (unfold args; seek). cbn [mbind option_bind].
  assert (word_at (128 + n + 32) args = Some 32%Z) as -> by (unfold args; seek).
  cbn [mbind option_bind]. replace (Z.to_nat 32) with 32 by lia.
  assert (word_at (128 + n + 32 + 32) args = Some 64%Z) as -> by (unfold args; seek).
  cbn [mbind option_bind]. replace (Z.to_nat 64) with 64 by lia.
  assert (word_at (128 + n + 32 + 32 + 32) args = Some amount) as -> by (unfold args; seek).
  cbn [mbind option_bind].
  assert (bytes_at (128 + n + 32 + 32 + 64) args =
    if bool_decide (length den ≤ 32) then Some den else None) as ->.
  { unfold args. seek. case_bool_decide.
    - rewrite copied_fits by done. rewrite <- (app_nil_r (den ++ _)). by apply bytes_here.
    - unfold bytes_at. rewrite word_at_here by done. cbn [mbind option_bind]. unfold slice.
      rewrite bool_decide_false; [done|]. lens. rewrite length_app. lens. lia. }
  by destruct (bool_decide (length den ≤ 32)).
Qed.
End roundtrip.

(** *** Witnesses *)

#[local] Instance plain_ethereum : Ethereum := {|
  Keccak256 _ := replicate 32 7%Z;
  HexToAddress _ := replicate 20 171%Z;
  LeftPadBytes b n := if bool_decide (n ≤ length b) then b else replicate (n - length b) 0%Z ++ b;
  undefined_int _ := 0%Z
|}.

#[local] Instance plain_ethereum_laws : EthereumLaws.
Proof.
  split; [done| |done]. intros s. split; [done|]. apply Forall_replicate. by unfold is_byte.
Qed.

Lemma vote_call_decodes_witness :
  decode_vote (buildVoteCallData "0xab" 7 1 "hi") =
    Some (replicate 4 7%Z, (replicate 20 171%Z, 7%Z, 1%Z, [104; 105]%Z)).
Proof.
  rewrite (vote_call_decodes "0xab" 7 1 "hi"); [reflexivity| | |]; vm_compute; split; congruence.
Defined.

Lemma submit_call_decodes_witness :
  decode_submit (buildSubmitProposalCallData "0xab" "{}" "astable" "100") =
    Some (replicate 4 7%Z, (replicate 20 171%Z, [123; 125]%Z, (to_bytes "astable", 100%Z))) ∧
  decode_submit (buildSubmitProposalCallData "0xab" "{}" "a-denomination-of-more-than-32-bytes" "100") =
    None.
Proof.
  split.
  - rewrite (submit_call_decodes "0xab" "{}" "astable" "100" 100); [reflexivity|reflexivity|..];
      vm_compute; try split; congruence.
  - rewrite (submit_call_decodes "0xab" "{}" "a-denomination-of-more-than-32-bytes" "100" 100);
      [reflexivity|reflexivity|..]; vm_compute; try split; congruence.
Defined.
