(* ===== verification/UpgradeSteps.v ===== *)
(** * The steps of an upgrade
    ([internal/application/upgrade/propose.go], [vote.go], [switch.go], [execute.go])

    Submitting a proposal, voting from every validator, waiting for the height and
    for the chain to halt, switching the binary, and verifying that the chain runs.
    What the chain, the nodes and the files answer is any function of the calls so
    far.  Progress output is left out, with the readings of the clock that only it
    uses. *)

From stdpp Require Import base tactics numbers list strings.
From S2P Require Import Prelude Store UpgradeState GovABI.
From S2P Require Export Trace.

(** ** Data *)

(** The fields that these use cases read or write; the others pass unchanged. *)
Record DevnetMetadata := mkDevnetMetadata {
  dm_HomeDir : string;
  dm_NumValidators : Z;
  dm_ExecutionMode : string;
  dm_Status : string;
  dm_DockerImage : string;
  dm_CurrentVersion : string;
  dm_BinaryName : string
}.
#[export] Instance eta_DevnetMetadata : Settable DevnetMetadata := mkSettable (λ x,
  mkDevnetMetadata (dm_HomeDir x) (dm_NumValidators x) (dm_ExecutionMode x) (dm_Status x)
    (dm_DockerImage x) (dm_CurrentVersion x) (dm_BinaryName x)).

Record NodeMetadata := mkNodeMetadata {
  nm_Index : Z;
  nm_Name : string;
  nm_HomeDir : string;
  nm_PID : option Z
}.
#[export] Instance eta_NodeMetadata : Settable NodeMetadata := mkSettable (λ x,
  mkNodeMetadata (nm_Index x) (nm_Name x) (nm_HomeDir x) (nm_PID x)).

Record ValidatorKey := mkValidatorKey {
  vk_Index : Z;
  vk_Name : string;
  vk_Bech32Address : string;
  vk_HexAddress : string;
  vk_PrivateKey : string
}.

Record ValidatorKeyOptions := mkValidatorKeyOptions {
  ko_HomeDir : string;
  ko_NumValidators : Z;
  ko_ExecutionMode : string;
  ko_Version : string;
  ko_BinaryName : string
}.

Record Command := mkCommand {
  cmd_Binary : string;
  cmd_Args : list string;
  cmd_WorkDir : string;
  cmd_LogPath : string;
  cmd_PIDPath : string
}.

Record ExecuteUpgradeInput := mkExecuteUpgradeInput {
  in_HomeDir : string;
  in_UpgradeName : string;
  in_TargetBinary : string;
  in_TargetImage : string;
  in_CachePath : string;
  in_CommitHash : string;
  in_CacheRef : string;
  in_TargetVersion : string;
  in_VotingPeriod : Duration;
  in_HeightBuffer : Z;
  in_UpgradeHeight : Z;
  in_WithExport : bool;
  in_GenesisDir : string;
  in_Mode : string;
  in_SkipGovernance : bool
}.

Record ProposeInput := mkProposeInput {
  pi_HomeDir : string;
  pi_UpgradeName : string;
  pi_UpgradeHeight : Z;
  pi_VotingPeriod : Duration;
  pi_HeightBuffer : Z;
  pi_DepositAmount : string;
  pi_DepositDenom : string
}.

Record ProposeOutput := mkProposeOutput {
  po_ProposalID : Z;
  po_UpgradeHeight : Z;
  po_TxHash : string;
  po_VotingEndTime : Time
}.

Record VoteInput := mkVoteInput {
  vi_HomeDir : string;
  vi_ProposalID : Z;
  vi_VoteOption : string;
  vi_FromAll : bool
}.

Record VoteOutput := mkVoteOutput {
  vo_VotesCast : Z;
  vo_TotalVoters : Z;
  vo_TxHashes : list string;
  vo_Errors : list string
}.
#[export] Instance eta_VoteOutput : Settable VoteOutput := mkSettable (λ x,
  mkVoteOutput (vo_VotesCast x) (vo_TotalVoters x) (vo_TxHashes x) (vo_Errors x)).

Record SwitchBinaryInput := mkSwitchBinaryInput {
  si_HomeDir : string;
  si_TargetBinary : string;
  si_TargetImage : string;
  si_TargetVersion : string;
  si_CachePath : string;
  si_CommitHash : string;
  si_CacheRef : string;
  si_Mode : string;
  si_UpgradeHeight : Z
}.

Record SwitchBinaryOutput := mkSwitchBinaryOutput {
  so_OldBinary : string;
  so_NewBinary : string;
  so_NodesRestarted : Z
}.

(** A transaction, its receipt, and what ends a wait for one. *)
Record EthTx := mkEthTx {
  tx_Nonce : Z;
  tx_GasLimit : Z;
  tx_GasPrice : Z;
  tx_Data : bytes
}.

Record Log := mkLog { lg_Topics : list bytes; lg_Data : bytes }.
Record Receipt := mkReceipt { rc_Successful : bool; rc_Logs : list Log }.

Inductive wake := WakeDone (e : error) | WakeTimeout | WakeTick.

(** ** Calls *)

Inductive UCall :=
| UCtx (answer : option error)
| USleep (d : Duration) (answer : option error)
| UHeight (answer : result Z)
| URunning (answer : bool)
| UProposal (id : Z) (answer : result string)
| UGovParams (answer : result Duration)
| UBlockTime (answer : result Duration)
| ULoadDevnet (home : string) (answer : result DevnetMetadata)
| USaveDevnet (metadata : DevnetMetadata) (answer : option error)
| ULoadNodes (home : string) (answer : result (list NodeMetadata))
| USaveNode (node : NodeMetadata) (answer : option error)
| UStop (pid : Z) (answer : option error)
| UStart (cmd : Command) (answer : result Z)
| UGetActive (answer : result string)
| USetActive (ref : string) (answer : option error)
| ULoadKeys (opts : ValidatorKeyOptions) (answer : result (list ValidatorKey))
| UEth (method argument : string) (answer : result Z)
| USignTx (tx : EthTx) (answer : result string)
| USendTx (hash : string) (answer : option error)
| UWaitReceipt (answer : wake)
| UReceipt (hash : string) (answer : result Receipt)
| ULatestProposals (answer : result (list string))
| UExport (home dir : string) (answer : result (option string))
| USaveState (state : UpgradeState) (answer : option error)
| UDeleteState (answer : option error).

(** [w_Eth] answers the calls of the Ethereum client that give a number or an error,
    by name and argument: dialing, parsing a key, chain ID, balance, nonce, gas
    price, simulation and gas estimate. *)
Record World := mkWorld {
  w_clock : nat → Time;
  w_ctx : list UCall → option error;
  w_sleep : list UCall → Duration → option error;
  w_GetBlockHeight : list UCall → result Z;
  w_IsChainRunning : list UCall → bool;
  w_GetProposal : list UCall → Z → result string;
  w_GetGovParams : list UCall → result Duration;
  w_GetBlockTime : list UCall → result Duration;
  w_LoadDevnet : list UCall → string → result DevnetMetadata;
  w_SaveDevnet : list UCall → DevnetMetadata → option error;
  w_LoadNodes : list UCall → string → result (list NodeMetadata);
  w_SaveNode : list UCall → NodeMetadata → option error;
  w_Stop : list UCall → Z → option error;
  w_Start : list UCall → Command → result Z;
  w_GetActive : list UCall → result string;
  w_SetActive : list UCall → string → option error;
  w_LoadKeys : list UCall → ValidatorKeyOptions → result (list ValidatorKey);
  w_Eth : list UCall → string → string → result Z;
  w_SignTx : list UCall → EthTx → string → Z → result string;
  w_SendTx : list UCall → string → option error;
  w_WaitReceipt : list UCall → wake;
  w_Receipt : list UCall → string → result Receipt;
  w_LatestProposals : list UCall → result (list string);
  w_Export : list UCall → string → string → result (option string)
}.

Abbreviation U := (Ext UCall).

(** ** Constants *)

Definition ProposalStatusPending : string := "PROPOSAL_STATUS_DEPOSIT_PERIOD".
Definition ProposalStatusVoting : string := "PROPOSAL_STATUS_VOTING_PERIOD".
Definition ProposalStatusPassed : string := "PROPOSAL_STATUS_PASSED".
Definition ProposalStatusRejected : string := "PROPOSAL_STATUS_REJECTED".
Definition ProposalStatusFailed : string := "PROPOSAL_STATUS_FAILED".
Definition StateRunning : string := "running".

Definition VoteOptionYes : Z := 1.
Definition VoteOptionAbstain : Z := 2.
Definition VoteOptionNo : Z := 3.
Definition VoteOptionNoWithVeto : Z := 4.

Definition DefaultDepositAmount : string := "100000000000000000000".
Definition DefaultDepositDenom : string := "astable".
Definition DefaultGasLimit : Z := 500000.
Definition evmRPCURL : string := "http://localhost:8545".

(** Arithmetic of [uint64]. *)
Definition uint64_of (n : Z) : Z := (n mod 2 ^ 64)%Z.

Section steps.
Context `{Ethereum}.
Variable w : World.

Definition check_ctx : U unit := call_err (w_ctx w) UCtx.
Definition sleep (d : Duration) : U unit := call_err (λ t, w_sleep w t d) (USleep d).
Definition get_height : U Z := call (w_GetBlockHeight w) UHeight.
Definition read_clock : M (Trace UCall) Time := now_at (w_clock w).

(** ** Waiting ([execute.go]) *)

(** A height that cannot be read is an error of the context, if it has one. *)
Definition height_or {A} (failed : error → U A) (k : Z → U A) : U A :=
  do! r := get_height in
  match r with
  | Returns h => k h
  | Fails e => check! check_ctx in failed e
  | r => done_with (stop r)
  end.

Fixpoint waitForUpgradeHeight (fuel : nat) (targetHeight : Z) : U unit :=
  match fuel with
  | O => done_with Unfinished
  | S fuel =>
      check! check_ctx in
      height_or (λ e, fail (Wrap "failed to get block height" e)) (λ currentHeight,
        if bool_decide (targetHeight ≤ currentHeight)%Z then ret tt
        else check! sleep (2 * second) in waitForUpgradeHeight fuel targetHeight)
  end.

(** The loop of [waitForChainHalt]; the clock is read when fewer than three signs of
    a halt were seen. *)
Fixpoint await_halt (fuel : nat) (upgradeHeight : Z) (deadline : Time) (stableCount lastHeight : Z)
    : U unit :=
  match fuel with
  | O => done_with Unfinished
  | S fuel =>
      if bool_decide (3 ≤ stableCount)%Z then ret tt
      else
        do! t := read_clock in
        if bool_decide (t < deadline)%Z then
          check! check_ctx in
          height_or (λ _,
              check! sleep (2 * second) in
              await_halt fuel upgradeHeight deadline (stableCount + 1) lastHeight)
            (λ currentHeight,
              if bool_decide (wrap64 (upgradeHeight + 10) < currentHeight)%Z then
                fail (Errorf ("chain continued past upgrade height " +:+ itoa upgradeHeight +:+
                  " (current: " +:+ itoa currentHeight +:+
                  "); upgrade proposal may have failed"))
              else
                let stable := bool_decide (currentHeight = lastHeight)%Z &&
                              bool_decide (upgradeHeight ≤ currentHeight)%Z in
                check! sleep (2 * second) in
                await_halt fuel upgradeHeight deadline (if stable then stableCount + 1 else 0)%Z
                  currentHeight)
        else fail (Errorf ("timeout waiting for chain to halt at upgrade height " +:+
                           itoa upgradeHeight))
  end.

Definition waitForChainHalt (fuel : nat) (upgradeHeight : Z) : U unit :=
  do! t := read_clock in await_halt fuel upgradeHeight (t + 10 * minute) 0 0.

Fixpoint await_resume (fuel : nat) (deadline : Time) (lastHeight : Z) : U Z :=
  match fuel with
  | O => done_with Unfinished
  | S fuel =>
      do! t := read_clock in
      if bool_decide (t < deadline)%Z then
        check! check_ctx in
        height_or (λ _, check! sleep (5 * second) in await_resume fuel deadline lastHeight)
          (λ currentHeight,
            if bool_decide (0 < lastHeight)%Z && bool_decide (lastHeight < currentHeight)%Z
            then ret currentHeight
            else check! sleep (2 * second) in await_resume fuel deadline currentHeight)
      else fail (Errorf "timeout waiting for chain to resume")
  end.

Definition verifyChainResumed (fuel : nat) : U Z :=
  do! t := read_clock in await_resume fuel (t + 5 * minute) 0.

Definition load_devnet (msg home : string) : U DevnetMetadata :=
  wrapping msg (call (λ t, w_LoadDevnet w t home) (ULoadDevnet home)).
Definition save_devnet (metadata : DevnetMetadata) : U unit :=
  call_err (λ t, w_SaveDevnet w t metadata) (USaveDevnet metadata).

Definition updateCurrentVersion (homeDir version : string) : U unit :=
  try! metadata := load_devnet "failed to load metadata" homeDir in
  wrapping "failed to save metadata" (save_devnet (metadata <| dm_CurrentVersion := version |>)).

(** ** Switching the binary ([switch.go]) *)

Definition buildStartCommand (node : NodeMetadata) (binaryPath : string) : Command :=
  let binary := if bool_decide (binaryPath = "") then "stabled" else binaryPath in
  mkCommand binary ["start"; "--home"; nm_HomeDir node] (nm_HomeDir node)
    (nm_HomeDir node +:+ "/stabled.log") (nm_HomeDir node +:+ "/stabled.pid").

(** An operation whose error is only logged. *)
Definition logged {A} (m : U A) : M (Trace UCall) unit := run! m in done_with tt.

(** Restarting one node: whether it runs again. *)
Definition restart_node (newBinary : string) (node : NodeMetadata) : M (Trace UCall) bool :=
  run! (match nm_PID node with
        | Some pid => logged (call_err (λ t, w_Stop w t pid) (UStop pid))
        | None => done_with tt
        end) in
  let cmd := buildStartCommand node newBinary in
  do! r := ask_env (λ t, w_Start w t cmd) (UStart cmd) in
  match r with
  | Err _ => done_with false
  | Ok pid =>
      let node := node <| nm_PID := Some pid |> in
      run! logged (call_err (λ t, w_SaveNode w t node) (USaveNode node)) in
      done_with true
  end.

Fixpoint restart_nodes (newBinary : string) (nodes : list NodeMetadata) : M (Trace UCall) Z :=
  match nodes with
  | [] => done_with 0%Z
  | node :: nodes =>
      do! ok := restart_node newBinary node in
      do! n := restart_nodes newBinary nodes in
      done_with (if ok : bool then n + 1 else n)%Z
  end.

Definition SwitchBinary (input : SwitchBinaryInput) : U SwitchBinaryOutput :=
  try! metadata := load_devnet "failed to load devnet" (si_HomeDir input) in
  do! active := ask_env (w_GetActive w) UGetActive in
  let oldBinary := default "" (ok_of active) in
  let newBinary := if bool_decide (si_CachePath input ≠ "") then si_CachePath input
                   else si_TargetBinary input in
  if bool_decide (newBinary = "") && bool_decide (si_TargetImage input = "")
  then fail (Errorf "no target binary specified")
  else
    let metadata := if bool_decide (newBinary = "")
                    then metadata <| dm_DockerImage := si_TargetImage input |> else metadata in
    check! (if bool_decide (si_Mode input = "local") && bool_decide (newBinary ≠ "") then
              let cacheRef := if bool_decide (si_CacheRef input = "") then si_CommitHash input
                              else si_CacheRef input in
              wrapping "failed to activate binary"
                (call_err (λ t, w_SetActive w t cacheRef) (USetActive cacheRef))
            else ret tt) in
    try! nodes := wrapping "failed to load nodes"
                    (call (λ t, w_LoadNodes w t (si_HomeDir input)) (ULoadNodes (si_HomeDir input))) in
    do! restarted := restart_nodes newBinary nodes in
    run! logged (save_devnet metadata) in
    ret (mkSwitchBinaryOutput oldBinary newBinary restarted).

(** ** Transactions ([vote.go], [propose.go]) *)

Definition eth (msg method argument : string) : U Z :=
  wrapping msg (call (λ t, w_Eth w t method argument) (UEth method argument)).

Definition TrimPrefix (prefix s : string) : string := default s (strip_prefix prefix s).

Fixpoint waitForReceipt (fuel : nat) (txHash : string) : U Receipt :=
  match fuel with
  | O => done_with Unfinished
  | S fuel =>
      do! wakes := ask_env (w_WaitReceipt w) UWaitReceipt in
      match wakes with
      | WakeDone e => fail e
      | WakeTimeout => fail (Errorf "timeout waiting for receipt")
      | WakeTick =>
          do! r := ask_env (λ t, w_Receipt w t txHash) (UReceipt txHash) in
          match r with Ok receipt => ret receipt | Err _ => waitForReceipt fuel txHash end
      end
  end.

(** Signing a transaction, sending it and waiting for its receipt. *)
Definition send_and_wait (fuel : nat) (reverted : string) (tx : EthTx) (privateKey : string)
    (chainID : Z) : U (string * Receipt) :=
  try! txHash := wrapping "failed to sign transaction"
                   (call (λ t, w_SignTx w t tx privateKey chainID) (USignTx tx)) in
  check! wrapping "failed to send transaction"
           (call_err (λ t, w_SendTx w t txHash) (USendTx txHash)) in
  try! receipt := wrapping "failed to wait for receipt" (waitForReceipt fuel txHash) in
  if rc_Successful receipt then ret (txHash, receipt) else fail (Errorf reverted).

(** Connecting, and the sender's key and chain. *)
Definition connect (key : ValidatorKey) : U (string * Z) :=
  check! eth "failed to connect to EVM RPC" "Dial" evmRPCURL in
  let privateKey := TrimPrefix "0x" (vk_PrivateKey key) in
  check! eth "failed to parse private key" "HexToECDSA" privateKey in
  try! chainID := eth "failed to get chain ID" "ChainID" "" in
  ret (privateKey, chainID).

Definition submitVote (fuel : nat) (proposalID voteOption : Z) (voter : ValidatorKey) : U string :=
  try! ' (privateKey, chainID) := connect voter in
  try! nonce := eth "failed to get nonce" "PendingNonceAt" (vk_HexAddress voter) in
  try! gasPrice := eth "failed to get gas price" "SuggestGasPrice" "" in
  let callData := buildVoteCallData (vk_HexAddress voter) proposalID voteOption "" in
  let tx := mkEthTx nonce DefaultGasLimit gasPrice callData in
  try! ' (txHash, _) := send_and_wait fuel "vote transaction reverted" tx privateKey chainID in
  ret txHash.

(** [strings.ToLower] on ASCII. *)
Definition ParseVoteOption (option : string) : result Z :=
  let lower := to_lower option in
  if bool_decide (lower = "yes") then Ok VoteOptionYes
  else if bool_decide (lower = "no") then Ok VoteOptionNo
  else if bool_decide (lower = "abstain") then Ok VoteOptionAbstain
  else if bool_decide (lower = "no_with_veto") then Ok VoteOptionNoWithVeto
  else Err (Errorf ("invalid vote option: " +:+ option)).

(** The loop over the validators. *)
Fixpoint cast_votes (fuel : nat) (proposalID voteOption : Z) (keys : list ValidatorKey)
    (output : VoteOutput) : U VoteOutput :=
  match keys with
  | [] => ret output
  | key :: keys =>
      do! r := submitVote fuel proposalID voteOption key in
      match r with
      | Returns txHash =>
          cast_votes fuel proposalID voteOption keys
            (output <| vo_TxHashes := vo_TxHashes output ++ [txHash] |>
                    <| vo_VotesCast := (vo_VotesCast output + 1)%Z |>)
      | Fails e =>
          cast_votes fuel proposalID voteOption keys
            (output <| vo_Errors := vo_Errors output ++ [vk_Name key +:+ ": " +:+ Error e] |>)
      | r => done_with (stop r)
      end
  end.

Definition load_keys (home : string) (n : Z) (metadata : DevnetMetadata) : U (list ValidatorKey) :=
  let opts := mkValidatorKeyOptions home n (dm_ExecutionMode metadata)
                (dm_CurrentVersion metadata) (dm_BinaryName metadata) in
  wrapping "failed to load validator keys" (call (λ t, w_LoadKeys w t opts) (ULoadKeys opts)).

Definition Vote (fuel : nat) (input : VoteInput) : U VoteOutput :=
  try! metadata := load_devnet "failed to load devnet" (vi_HomeDir input) in
  try! status := wrapping "failed to get proposal"
    (call (λ t, w_GetProposal w t (vi_ProposalID input)) (UProposal (vi_ProposalID input))) in
  if bool_decide (status ≠ ProposalStatusVoting)
  then fail (Errorf ("proposal is not in voting period: " +:+ status))
  else
    let numVoters := if vi_FromAll input then dm_NumValidators metadata else 1%Z in
    try! keys := load_keys (vi_HomeDir input) numVoters metadata in
    match ParseVoteOption (vi_VoteOption input) with
    | Err e => fail e
    | Ok option =>
        cast_votes fuel (vi_ProposalID input) option keys
          (mkVoteOutput 0 (Z.of_nat (length keys)) [] [])
    end.

(** ** Proposing ([propose.go]) *)

(** Division by a zero block time panics. *)
Definition calculateHeightBuffer (currentHeight : Z) (blockTime : Duration) : outcome Z :=
  if bool_decide (currentHeight < 5)%Z then Returns 40%Z
  else if bool_decide (blockTime = 0)%Z then Panics
  else
    let calculatedBuffer := Z.quot (80 * second) blockTime in
    Returns (if bool_decide (calculatedBuffer < 10)%Z then 10
             else if bool_decide (200 < calculatedBuffer)%Z then 200 else calculatedBuffer)%Z.

Definition calculateUpgradeHeight (input : ProposeInput) : U Z :=
  try! currentHeight := get_height in
  do! params := ask_env (w_GetGovParams w) UGovParams in
  let votingPeriod := match params with Ok p => p | Err _ => pi_VotingPeriod input end in
  do! estimate := ask_env (w_GetBlockTime w) UBlockTime in
  let blockTime := match estimate with Ok t => t | Err _ => (2 * second)%Z end in
  if bool_decide (blockTime = 0)%Z then panic
  else
    let votingBlocks := Z.quot votingPeriod blockTime in
    try! buffer := done_with (if bool_decide (pi_HeightBuffer input = 0)%Z
                              then calculateHeightBuffer currentHeight blockTime
                              else Returns (pi_HeightBuffer input)) in
    ret (wrap64 (wrap64 (currentHeight + votingBlocks) + buffer)).

(** The topic of the event, the number of a 32-byte word as [Uint64] gives it. *)
Definition submit_event : bytes := Keccak256 (to_bytes "SubmitProposal(address,uint64)").

Fixpoint find_event (logs : list Log) : option Z :=
  match logs with
  | [] => None
  | log :: logs =>
      match lg_Topics log with
      | topic :: _ =>
          if bool_decide (topic = submit_event) && bool_decide (32 ≤ length (lg_Data log))
          then Some (uint64_of (be_value (take 32 (lg_Data log)))) else find_event logs
      | [] => find_event logs
      end
  end.

Fixpoint find_topic (logs : list Log) : option Z :=
  match logs with
  | [] => None
  | log :: logs =>
      match lg_Topics log with
      | _ :: topic :: _ =>
          let id := uint64_of (be_value topic) in
          if bool_decide (0 < id)%Z && bool_decide (id < 1000000)%Z then Some id else find_topic logs
      | _ => find_topic logs
      end
  end.

Definition parseProposalIDFromLogs (logs : list Log) : result Z :=
  match find_event logs with
  | Some id => Ok id
  | None => match find_topic logs with
            | Some id => Ok id
            | None => Err (Errorf "no proposal ID in logs")
            end
  end.

(** The first of the listed proposals; a failed [SetString] leaves the number
    undefined. *)
Definition getLatestProposalID : U Z :=
  try! ids := call (w_LatestProposals w) ULatestProposals in
  match ids with
  | [] => fail (Errorf "no proposals found")
  | id :: _ => ret (uint64_of (Z.abs (deposit_value id)))
  end.

(** The encoded proposal: [json.Marshal] writes the keys of a map in order;
    [json_string] is what it writes for a string. *)
Variable json_string : string → string.

Definition json_object (fields : list (string * string)) : string :=
  "{" +:+ String.concat "," ((λ '(k, v), json_string k +:+ ":" +:+ v) <$> fields) +:+ "}".

Definition GovAuthority : string := "stable10d07y265gmmuvt4z0w9aw880jnsr700jjjzdw5".

Definition buildProposalJSON (upgradeName : string) (upgradeHeight : Z) (info : string) : string :=
  let message := json_object
    [("@type", json_string "/cosmos.upgrade.v1beta1.MsgSoftwareUpgrade");
     ("authority", json_string GovAuthority);
     ("plan", json_object [("height", json_string (itoa upgradeHeight));
                           ("info", json_string info); ("name", json_string upgradeName)])] in
  json_object
    [("expedited", "true"); ("messages", "[" +:+ message +:+ "]"); ("metadata", json_string "");
     ("summary", json_string ("Automated devnet upgrade to " +:+ upgradeName));
     ("title", json_string ("Software Upgrade: " +:+ upgradeName))].

Definition submitProposal (fuel : nat) (input : ProposeInput) (upgradeHeight : Z)
    (proposer : ValidatorKey) : U (string * Z) :=
  try! ' (privateKey, chainID) := connect proposer in
  check! eth "failed to get balance" "BalanceAt" (vk_HexAddress proposer) in
  try! nonce := eth "failed to get nonce" "PendingNonceAt" (vk_HexAddress proposer) in
  try! gasPrice := eth "failed to get gas price" "SuggestGasPrice" "" in
  let json := buildProposalJSON (pi_UpgradeName input) upgradeHeight "Automated devnet upgrade" in
  let amount := if bool_decide (pi_DepositAmount input = "") then DefaultDepositAmount
                else pi_DepositAmount input in
  let denom := if bool_decide (pi_DepositDenom input = "") then DefaultDepositDenom
               else pi_DepositDenom input in
  let callData := buildSubmitProposalCallData (vk_HexAddress proposer) json denom amount in
  check! eth "proposal simulation failed" "CallContract" (of_bytes callData) in
  do! estimate := ask_env (λ t, w_Eth w t "EstimateGas" (of_bytes callData))
                          (UEth "EstimateGas" (of_bytes callData)) in
  let gasLimit := match estimate with Ok g => g | Err _ => DefaultGasLimit end in
  let tx := mkEthTx nonce (uint64_of (gasLimit * 150) / 100)%Z gasPrice callData in
  try! ' (txHash, receipt) := send_and_wait fuel "proposal transaction reverted" tx privateKey
                                chainID in
  match parseProposalIDFromLogs (rc_Logs receipt) with
  | Ok proposalID => ret (txHash, proposalID)
  | Err _ =>
      do! latest := getLatestProposalID in
      match latest with
      | Returns proposalID => ret (txHash, proposalID)
      | Fails _ => ret (txHash, 1%Z)
      | r => done_with (stop r)
      end
  end.

Definition Propose (fuel : nat) (input : ProposeInput) : U ProposeOutput :=
  try! metadata := load_devnet "failed to load devnet" (pi_HomeDir input) in
  if bool_decide (dm_Status metadata ≠ StateRunning) then fail (Errorf "devnet is not running")
  else
    try! upgradeHeight :=
      (if bool_decide (pi_UpgradeHeight input = 0)%Z
       then wrapping "failed to calculate upgrade height" (calculateUpgradeHeight input)
       else ret (pi_UpgradeHeight input)) in
    try! keys := load_keys (pi_HomeDir input) 1 metadata in
    match keys with
    | [] => panic
    | proposer :: _ =>
        try! ' (txHash, proposalID) := wrapping "failed to submit proposal"
          (submitProposal fuel input upgradeHeight proposer) in
        do! now := read_clock in
        ret (mkProposeOutput proposalID upgradeHeight txHash (now + pi_VotingPeriod input)%Z)
    end.
End steps.
