(* ===== verification/UpgradeWaits.v ===== *)
(** * The waits of an upgrade

    What the waiting loops of [UpgradeSteps] conclude from the heights they read, and
    that those with a deadline end when the clock goes on. *)

From stdpp Require Import base tactics numbers list strings.
From S2P Require Import Prelude UpgradeState GovABI UpgradeSteps.

(** The heights that were read, in order. *)
Definition height_of (c : UCall) : option (result Z) :=
  match c with UHeight answer => Some answer | _ => None end.
Definition heights (l : list UCall) : list (result Z) := omap height_of l.

(** A sign of a halt at [last], and the three that end the wait. *)
Definition halt_sign (target last : Z) (answer : result Z) : Prop :=
  match answer with Err _ => True | Ok h => h = last ∧ (target ≤ h)%Z end.

Definition signs (target last : Z) (n : nat) (hs : list (result Z)) : Prop :=
  ∃ pre suf, hs = pre ++ suf ∧ length suf = n ∧ Forall (halt_sign target last) suf.

Lemma signs_none target last hs : signs target last 0 hs.
Proof. exists hs, []. by rewrite app_nil_r. Qed.

Lemma signs_more target last n hs answer :
  signs target last n hs → halt_sign target last answer → signs target last (S n) (hs ++ [answer]).
Proof.
  intros (pre & suf & -> & <- & Hs) Ha. exists pre, (suf ++ [answer]).
  rewrite (assoc_L app), length_app, Forall_app. simpl. split_and!; [done|lia|done|by constructor].
Qed.

Lemma signs_fewer target last n m hs : m ≤ n → signs target last n hs → signs target last m hs.
Proof.
  intros Hm (pre & suf & -> & <- & Hs). exists (pre ++ take (length suf - m) suf), (drop (length suf - m) suf).
  rewrite <- (assoc_L app), take_drop, length_drop. split_and!; [done|lia|by apply Forall_drop].
Qed.

Section waits.
Context `{Ethereum} (w : World).

(** What [m] returns, from traces of a kind. *)
Definition ensures {A} (P : list (result Z) → Prop) (m : U A) (Q : A → list (result Z) → Prop) : Prop :=
  ∀ st a st', P (heights (es_calls st)) → m st = (Returns a, st') → Q a (heights (es_calls st')).

Lemma ensures_bindE {A B} P (R : A → list (result Z) → Prop) Q (m : U A) (k : A → U B) :
  ensures P m R → (∀ a, ensures (R a) (k a) Q) → ensures P (bindE m k) Q.
Proof. intros Hm Hk st b st' HP (a & st1 & H1 & H2)%bindE_Returns. eapply Hk; [|done]. by eapply Hm. Qed.

Lemma ensures_then {A B} P Q (m : U A) (k : A → U B) :
  ensures P m (λ _, P) → (∀ a, ensures P (k a) Q) → ensures P (bindE m k) Q.
Proof. apply ensures_bindE. Qed.

Lemma ensures_check_ctx P : ensures P (check_ctx w) (λ _, P).
Proof. intros st a st' HP [_ ->]%call_err_Returns. unfold heights. simpl. rewrite omap_app. simpl. by rewrite app_nil_r. Qed.

Lemma ensures_sleep d P : ensures P (sleep w d) (λ _, P).
Proof. intros st a st' HP [_ ->]%call_err_Returns. unfold heights. simpl. rewrite omap_app. simpl. by rewrite app_nil_r. Qed.

Lemma ensures_clock {A} P Q (k : Time → U A) :
  (∀ t, ensures P (k t) Q) → ensures P (bindM (read_clock w) k) Q.
Proof. intros Hk st a st' HP Hr. rewrite bindM_eq in Hr. by eapply Hk in Hr. Qed.

Lemma ensures_fail {A} P Q e : ensures (A:=A) P (fail e) Q.
Proof. by intros st a st' _ [=]. Qed.

Lemma ensures_ret {A} (P : list (result Z) → Prop) (Q : A → list (result Z) → Prop) a :
  (∀ hs, P hs → Q a hs) → ensures P (ret a) Q.
Proof. intros HQ st b st' HP [= <- <-]. by apply HQ. Qed.

Lemma ensures_height_or {A} P Q failed (k : Z → U A) :
  (∀ e, ensures (λ hs, ∃ hs', P hs' ∧ hs = hs' ++ [Err e]) (failed e) Q) →
  (∀ h, ensures (λ hs, ∃ hs', P hs' ∧ hs = hs' ++ [Ok h]) (k h) Q) →
  ensures P (height_or w failed k) Q.
Proof.
  intros Hf Hk st a st' HP. unfold height_or. rewrite bindM_eq. unfold get_height, call.
  rewrite bindM_eq. unfold ask_env. cbn [fst snd]. set (st1 := mkEState _ _).
  assert (E1 : heights (es_calls st1) = heights (es_calls st) ++ [w_GetBlockHeight w (es_calls st)]).
  { unfold heights. simpl. by rewrite omap_app. }
  destruct (w_GetBlockHeight w (es_calls st)) as [h|e]; intros Hr.
  - eapply Hk; [|exact Hr]. by exists (heights (es_calls st)).
  - refine (ensures_bindE _ (λ _, _) _ _ _ (ensures_check_ctx _) (λ _, Hf e) st1 a st' _ Hr).
    by exists (heights (es_calls st)).
Qed.

Lemma ensures_weaken {A} (P P' : list (result Z) → Prop) Q (m : U A) :
  (∀ hs, P' hs → P hs) → ensures P m Q → ensures P' m Q.
Proof. intros Hi Hm st a st' HP. by apply Hm, Hi. Qed.

Lemma await_halt_signs fuel target deadline n last :
  ensures (signs target last n) (await_halt w fuel target deadline (Z.of_nat n) last)
    (λ _ hs, ∃ last, signs target last 3 hs).
Proof.
  revert n last. induction fuel as [|fuel IH]; intros n last; [by intros st a st' _ [=]|]. simpl.
  case_bool_decide as Hn.
  { apply ensures_ret. intros hs Hs. exists last. eapply signs_fewer; [|done]. lia. }
  apply ensures_clock. intros t. case_bool_decide; [|apply ensures_fail].
  apply ensures_then; [apply ensures_check_ctx|]. intros _. apply ensures_height_or.
  - intros e. apply ensures_then; [apply ensures_sleep|]. intros _.
    replace (Z.of_nat n + 1)%Z with (Z.of_nat (S n)) by lia. eapply ensures_weaken; [|apply IH].
    intros hs (hs' & Hs & ->). by apply signs_more.
  - intros h. case_bool_decide; [apply ensures_fail|].
    apply ensures_then; [apply ensures_sleep|]. intros _.
    destruct (bool_decide (h = last) && bool_decide (target ≤ h)%Z) eqn:E.
    + apply andb_true_iff in E as [->%bool_decide_eq_true E%bool_decide_eq_true].
      replace (Z.of_nat n + 1)%Z with (Z.of_nat (S n)) by lia. eapply ensures_weaken; [|apply IH].
      intros hs (hs' & Hs & ->). by apply signs_more.
    + eapply (ensures_weaken _ _ _ _ _ (IH 0 h)).
      Unshelve. intros hs _. apply signs_none.
Qed.

(** Two heights, one after the other, with errors between them at most. *)
Definition rising (last : Z) (hs : list (result Z)) : Prop :=
  last = 0%Z ∨ ∃ pre errs, hs = pre ++ Ok last :: errs ∧ Forall (λ r, ok_of r = None) errs.

Lemma await_resume_rises fuel deadline last :
  ensures (rising last) (await_resume w fuel deadline last)
    (λ h hs, ∃ pre errs h0, hs = pre ++ Ok h0 :: errs ++ [Ok h] ∧ (0 < h0 < h)%Z ∧
       Forall (λ r, ok_of r = None) errs).
Proof.
  revert last. induction fuel as [|fuel IH]; intros last; [by intros st a st' _ [=]|]. simpl.
  apply ensures_clock. intros t. case_bool_decide; [|apply ensures_fail].
  apply ensures_then; [apply ensures_check_ctx|]. intros _. apply ensures_height_or.
  - intros e. apply ensures_then; [apply ensures_sleep|]. intros _. eapply ensures_weaken; [|apply IH].
    intros hs (hs' & [->|(pre & errs & -> & He)] & ->); [by left|]. right. exists pre, (errs ++ [Err e]).
    rewrite <- (assoc_L app). split; [done|]. apply Forall_app. by split; [|constructor].
  - intros h. destruct (_ && _) eqn:E.
    + apply andb_true_iff in E as [E1%bool_decide_eq_true E2%bool_decide_eq_true].
      apply ensures_ret. intros hs (hs' & [->|(pre & errs & -> & He)] & ->); [lia|].
      exists pre, errs, last. rewrite <- (assoc_L app). by split_and!.
    + apply ensures_then; [apply ensures_sleep|]. intros _. eapply ensures_weaken; [|apply IH].
      intros hs (hs' & _ & ->). right. by exists hs', [].
Qed.
(** ** Ending *)

(** [m] ends when begun at the [n]-th reading of the clock, and does not read it. *)
Definition ends_at {A} (n : nat) (m : U A) : Prop := ∀ st, es_ticks st = n → (m st).1 ≠ Unfinished.
Definition unclocked {A} (m : U A) : Prop :=
  ∀ st, (m st).1 ≠ Unfinished ∧ es_ticks (m st).2 = es_ticks st.

Lemma unclocked_call_err f log : unclocked (call_err f log).
Proof. intros st. unfold call_err. rewrite bindM_eq. simpl. by destruct (f _). Qed.

Lemma unclocked_check_ctx : unclocked (check_ctx w).
Proof. apply unclocked_call_err. Qed.

Lemma unclocked_sleep d : unclocked (sleep w d).
Proof. apply unclocked_call_err. Qed.

Lemma ends_done {A} n (r : outcome A) : r ≠ Unfinished → ends_at n (done_with r).
Proof. by intros Hr st _. Qed.

Lemma ends_bindE {A B} n (m : U A) (k : A → U B) :
  unclocked m → (∀ a, ends_at n (k a)) → ends_at n (bindE m k).
Proof.
  intros Hm Hk st <-. rewrite bindE_eq. destruct (Hm st) as [Hu Ht].
  destruct (m st) as [[a|e| |] st1]; try done. by apply Hk.
Qed.

Lemma ends_height_or {A} n failed (k : Z → U A) :
  (∀ e, ends_at n (failed e)) → (∀ h, ends_at n (k h)) → ends_at n (height_or w failed k).
Proof.
  intros Hf Hk st Hn. unfold height_or. rewrite bindM_eq. unfold get_height, call. rewrite bindM_eq.
  unfold ask_env. cbn [fst snd]. set (st1 := mkEState _ _).
  destruct (w_GetBlockHeight w (es_calls st)) as [h|e]; [by apply Hk|].
  apply (ends_bindE n); [apply unclocked_check_ctx|by intros _|done].
Qed.

Section clock.
Context (d : Duration) (Hd : ∀ n, (w_clock w n + d ≤ w_clock w (S n))%Z).

Lemma ends_clock {A} n (k : Time → U A) :
  ends_at (S n) (k (w_clock w n)) → ends_at n (bindM (read_clock w) k).
Proof. intros Hk st <-. rewrite bindM_eq. by apply Hk. Qed.

(** The time that is left for [fuel] more readings after this one. *)
Definition enough (n fuel : nat) (deadline : Time) : Prop :=
  0 < fuel ∧ (deadline ≤ w_clock w n + d * (Z.of_nat fuel - 1))%Z.

Lemma enough_next n fuel deadline :
  enough n (S fuel) deadline → (w_clock w n < deadline)%Z → enough (S n) fuel deadline.
Proof.
  intros [_ Hb] Ht. specialize (Hd n). split; [|lia]. destruct fuel; [|lia]. lia.
Qed.

Lemma await_halt_ends fuel target deadline n count last :
  enough n fuel deadline → ends_at n (await_halt w fuel target deadline count last).
Proof.
  revert n count last. induction fuel as [|fuel IH]; intros n count last He; [by destruct He as [?%Nat.lt_irrefl _]|].
  simpl. case_bool_decide; [by apply ends_done|]. apply ends_clock.
  case_bool_decide as Ht; [|by apply ends_done]. apply (enough_next _ _ _ He) in Ht.
  apply ends_bindE; [apply unclocked_check_ctx|]. intros _. apply ends_height_or; intros x.
  - apply ends_bindE; [apply unclocked_sleep|]. intros _. by apply IH.
  - case_bool_decide; [by apply ends_done|]. apply ends_bindE; [apply unclocked_sleep|]. intros _. by apply IH.
Qed.

Lemma await_resume_ends fuel deadline n last :
  enough n fuel deadline → ends_at n (await_resume w fuel deadline last).
Proof.
  revert n last. induction fuel as [|fuel IH]; intros n last He; [by destruct He as [?%Nat.lt_irrefl _]|].
  simpl. apply ends_clock. case_bool_decide as Ht; [|by apply ends_done].
  apply (enough_next _ _ _ He) in Ht.
  apply ends_bindE; [apply unclocked_check_ctx|]. intros _. apply ends_height_or; intros x.
  - apply ends_bindE; [apply unclocked_sleep|]. intros _. by apply IH.
  - destruct (_ && _); [by apply ends_done|]. apply ends_bindE; [apply unclocked_sleep|]. intros _. by apply IH.
Qed.
End clock.

(** A budget of readings for a wait. *)
Lemma enough_start d n fuel span :
  (∀ n, (w_clock w n + d ≤ w_clock w (S n))%Z) → (0 < span)%Z → (span ≤ d * Z.of_nat fuel)%Z →
  enough d (S n) fuel (w_clock w n + span).
Proof. intros Hd Hs Hb. specialize (Hd n). split; [destruct fuel; lia|lia]. Qed.
End waits.

(** C21: the waits for the chain to halt and to run again end, once the clock has
    passed their deadlines of ten and five minutes: [d] is what it moves on by
    between two readings, and the number of rounds is the time over [d].  A halt is
    concluded only when each of the last three heights that were read is an error
    or one and the same height at or above the upgrade's; so three failed requests
    in a row suffice.  That the chain runs again is concluded only from two heights
    in turn, of which the second is higher, with errors between them at most. *)
Theorem upgrade_waits_end `{Ethereum} w d fuel target st :
  (∀ n, w_clock w n + d ≤ w_clock w (S n))%Z → (10 * minute ≤ d * Z.of_nat fuel)%Z →
  (waitForChainHalt w fuel target st).1 ≠ Unfinished ∧
  (verifyChainResumed w fuel st).1 ≠ Unfinished ∧
  (∀ u st', waitForChainHalt w fuel target st = (Returns u, st') →
     ∃ last pre suf, heights (es_calls st') = pre ++ suf ∧ length suf = 3 ∧
       Forall (halt_sign target last) suf) ∧
  (∀ h st', verifyChainResumed w fuel st = (Returns h, st') →
     ∃ pre errs h0, heights (es_calls st') = pre ++ Ok h0 :: errs ++ [Ok h] ∧ (0 < h0 < h)%Z ∧
       Forall (λ r, ok_of r = None) errs).
Proof.
  intros Hd Hb. split_and!.
  - unfold waitForChainHalt. eapply ends_clock; [|done]. eapply await_halt_ends; [done|].
    by apply enough_start.
  - unfold verifyChainResumed. eapply ends_clock; [|done]. eapply await_resume_ends; [done|].
    apply enough_start; [done|done|]. unfold minute, second in *. lia.
  - intros u st' Hr. unfold waitForChainHalt in Hr. rewrite bindM_eq in Hr.
    apply (await_halt_signs w fuel target _ 0 0) in Hr; [|apply signs_none]. exact Hr.
  - intros h st' Hr. unfold verifyChainResumed in Hr. rewrite bindM_eq in Hr.
    by apply await_resume_rises in Hr; [|left].
Qed.
