(* ===== verification/ResumableUpgrade.v ===== *)
(** * The resumable upgrade
    ([internal/application/upgrade/resumable_execute.go])

    [Execute] runs an upgrade from the stage its state is in, with or without
    governance, and saves the state at each transition, so that an interrupted
    upgrade goes on where it stopped.  The state is kept through the interface of
    [UpgradeRepo]. *)

From stdpp Require Import base tactics numbers list strings sets.
From S2P Require Import Prelude Store UpgradeState UpgradeRepo GovABI UpgradeSteps.

Record ExecuteUpgradeOutput := mkExecuteUpgradeOutput {
  eu_Success : bool;
  eu_ProposalID : Z;
  eu_UpgradeHeight : Z;
  eu_PostUpgradeHeight : Z;
  eu_NewBinary : string;
  eu_PreGenesisPath : string;
  eu_PostGenesisPath : string;
  eu_Duration : Duration;
  eu_Error : option error
}.
#[export] Instance eta_ExecuteUpgradeOutput : Settable ExecuteUpgradeOutput := mkSettable (λ x,
  mkExecuteUpgradeOutput (eu_Success x) (eu_ProposalID x) (eu_UpgradeHeight x)
    (eu_PostUpgradeHeight x) (eu_NewBinary x) (eu_PreGenesisPath x) (eu_PostGenesisPath x)
    (eu_Duration x) (eu_Error x)).

Definition no_output : ExecuteUpgradeOutput := mkExecuteUpgradeOutput false 0 0 0 "" "" "" 0 None.

(** What [Execute] answers: an output, if any, and an error, if any. *)
Definition answer : Type := option ExecuteUpgradeOutput * option error.

(** The calls so far, the state that the caller's pointer refers to, and the file. *)
Record UState (F : Type) := mkUState {
  u_trace : Trace UCall;
  u_state : UpgradeState;
  u_disk : F
}.
Arguments mkUState {F} u_trace u_state u_disk.
Arguments u_trace {F} u.
Arguments u_state {F} u.
Arguments u_disk {F} u.
#[export] Instance eta_UState F : Settable (UState F) := mkSettable (λ x,
  mkUState (u_trace x) (u_state x) (u_disk x)).

Section resumable.
Context {F : Type} `{UpgradeStateManager F} `{Ethereum}.
Variable w : World.
Variable json_string : string → string.
Variable fuel : nat.

Abbreviation R := (M (UState F)).

Definition onU {A} (m : M (Trace UCall) A) : R A :=
  λ u, let '(a, t) := m (u_trace u) in (a, u <| u_trace := t |>).

Definition onDisk {A} (m : M F A) : R A :=
  λ u, let '(a, d) := m (u_disk u) in (a, u <| u_disk := d |>).

Definition the_state : R UpgradeState := getM u_state.
Definition set_state (f : UpgradeState → UpgradeState) : R unit :=
  modifyM (λ u, u <| u_state := f (u_state u) |>).

(** ** Keeping the state *)

Definition saveState : R (option error) :=
  do! now := onU (read_clock w) in
  run! set_state (λ s, s <| st_UpdatedAt := now |>) in
  do! s := the_state in
  do! ' (err, s) := onDisk (SaveState s) in
  run! set_state (λ _, s) in
  run! onU (note (USaveState s err)) in
  done_with err.

Definition transitionAndSave (target reason : string) : R (option error) :=
  do! s := the_state in
  do! now := (if CanTransition (st_Stage s) target then onU (read_clock w) else done_with 0%Z) in
  match TransitionTo now (Some s) target reason with
  | Err e => done_with (Some (Wrap ("invalid state transition to " +:+ target) e))
  | Ok s =>
      run! set_state (λ _, s) in
      do! err := saveState in
      done_with (match err with
        | Some e => Some (Wrap ("failed to save state after transition to " +:+ target) e)
        | None => None
        end)
  end.

Definition deleteState : R (option error) :=
  do! err := onDisk DeleteState in
  run! onU (note (UDeleteState err)) in
  done_with err.

Definition answered (out : option ExecuteUpgradeOutput) (err : option error) : R (outcome answer) :=
  ret (out, err).

(** A step fails: the state becomes Failed, as far as it can be saved. *)
Definition step_failed (out : ExecuteUpgradeOutput) (err : error) : R (outcome answer) :=
  run! transitionAndSave ResumableStageFailed (Error err) in
  answered (Some (out <| eu_Error := Some err |>)) (Some err).

Definition attempt {A} (out : ExecuteUpgradeOutput) (m : R (outcome A))
    (k : A → R (outcome answer)) : R (outcome answer) :=
  do! r := m in
  match r with
  | Returns a => k a
  | Fails e => step_failed out e
  | r => done_with (stop r)
  end.

(** Going on to the next stage. *)
Definition proceed (target reason : string) (k : R (outcome answer)) : R (outcome answer) :=
  do! err := transitionAndSave target reason in
  match err with Some e => answered None (Some e) | None => k end.

(** ** The steps with tracking *)

Definition track_switch (now : Time) (result : SwitchBinaryOutput) (switches : list NodeSwitchState)
    (i : nat) : list NodeSwitchState :=
  let nodeName := "node" +:+ itoa (Z.of_nat i) in
  let switched := mkNodeSwitchState nodeName true true true (so_OldBinary result)
                    (so_NewBinary result) (Some now) in
  match list_find (λ ns, sw_NodeName ns = nodeName) switches with
  | Some (j, _) => <[j := switched]> switches
  | None => switches ++ [switched]
  end.

Definition executeSwitchBinary (input : ExecuteUpgradeInput) : R (outcome SwitchBinaryOutput) :=
  do! s := the_state in
  try! result := onU (SwitchBinary w (mkSwitchBinaryInput (in_HomeDir input) (in_TargetBinary input)
    (in_TargetImage input) (in_TargetVersion input) (in_CachePath input) (in_CommitHash input)
    (in_CacheRef input) (in_Mode input) (st_UpgradeHeight s))) in
  do! now := onU (read_clock w) in
  run! set_state (λ s, s <| st_NodeSwitches :=
    foldl (track_switch now result) (st_NodeSwitches s) (seq 0 (Z.to_nat (so_NodesRestarted result))) |>) in
  run! saveState in
  ret result.

Definition track_vote (now : Time) (votes : list ValidatorVoteState) (vote : nat * string)
    : list ValidatorVoteState :=
  let '(i, txHash) := vote in
  match votes !! i with
  | None => votes ++ [mkValidatorVoteState ("validator-" +:+ itoa (Z.of_nat i)) "" true txHash
                        (Some now)]
  | Some v => <[i := v <| vv_Voted := true |> <| vv_TxHash := txHash |>
                       <| vv_Timestamp := Some now |>]> votes
  end.

Definition executeVoting (input : ExecuteUpgradeInput) : R (outcome VoteOutput) :=
  do! s := the_state in
  try! result := onU (Vote w fuel (mkVoteInput (in_HomeDir input) (st_ProposalID s) "yes" true)) in
  do! now := onU (read_clock w) in
  run! set_state (λ s, s <| st_ValidatorVotes :=
    foldl (track_vote now) (st_ValidatorVotes s) (imap (λ i h, (i, h)) (vo_TxHashes result)) |>) in
  run! saveState in
  ret result.

(** ** The end of both paths *)

Definition completed (input : ExecuteUpgradeInput) (startTime : Time) (out : ExecuteUpgradeOutput)
    : R (outcome answer) :=
  run! (if bool_decide (in_TargetVersion input ≠ "")
        then onU (logged (updateCurrentVersion w (in_HomeDir input) (in_TargetVersion input)))
        else done_with tt) in
  run! deleteState in
  do! now := onU (read_clock w) in
  answered (Some (out <| eu_Success := true |> <| eu_Duration := (now - startTime)%Z |>)) None.

Definition export (input : ExecuteUpgradeInput) : R (result (option string)) :=
  onU (ask_env (λ t, w_Export w t (in_HomeDir input) (in_GenesisDir input))
               (UExport (in_HomeDir input) (in_GenesisDir input))).

Definition verifying (gov : bool) (input : ExecuteUpgradeInput) (startTime : Time)
    (out : ExecuteUpgradeOutput) : R (outcome answer) :=
  attempt out (onU (verifyChainResumed w fuel)) (λ postHeight,
    let out := out <| eu_PostUpgradeHeight := postHeight |> in
    do! out := (if gov && in_WithExport input then
                  do! r := export input in
                  done_with (match r with
                    | Ok (Some path) => out <| eu_PostGenesisPath := path |>
                    | _ => out
                    end)
                else done_with out) in
    proceed ResumableStageCompleted "chain verified healthy" (completed input startTime out)).

Definition switching (input : ExecuteUpgradeInput) (startTime : Time)
    (out : ExecuteUpgradeOutput) : R (outcome answer) :=
  attempt out (executeSwitchBinary input) (λ result,
    proceed ResumableStageVerifyingResume "binary switch complete"
      (verifying false input startTime (out <| eu_NewBinary := so_NewBinary result |>))).

Definition cannot_resume (stage : string) : R (outcome answer) :=
  answered None (Some (Errorf ("cannot resume from stage: " +:+ stage))).

(** ** Without governance *)

Definition executeSkipGovResumable (input : ExecuteUpgradeInput) (startTime : Time)
    : R (outcome answer) :=
  do! s := the_state in
  let stage := st_Stage s in
  if bool_decide (stage = ResumableStageInitialized) then
    proceed ResumableStageSwitchingBinary "starting binary switch (skip-gov)"
      (switching input startTime no_output)
  else if bool_decide (stage = ResumableStageSwitchingBinary) then
    switching input startTime no_output
  else if bool_decide (stage = ResumableStageVerifyingResume) then
    verifying false input startTime no_output
  else if bool_decide (stage = ResumableStageCompleted) then completed input startTime no_output
  else cannot_resume stage.

(** ** With governance *)

(** The proposal of the state, which the stages after the first report. *)
Definition with_proposal (out : ExecuteUpgradeOutput) (k : ExecuteUpgradeOutput → R (outcome answer))
    : R (outcome answer) :=
  do! s := the_state in
  k (out <| eu_ProposalID := st_ProposalID s |> <| eu_UpgradeHeight := st_UpgradeHeight s |>).

Section governance.
Variable input : ExecuteUpgradeInput.
Variable startTime : Time.

Definition gov_verifying (out : ExecuteUpgradeOutput) : R (outcome answer) :=
  with_proposal out (verifying true input startTime).

Definition gov_switching (out : ExecuteUpgradeOutput) : R (outcome answer) :=
  with_proposal out (λ out,
    attempt out (executeSwitchBinary input) (λ result,
      proceed ResumableStageVerifyingResume "binary switch complete"
        (gov_verifying (out <| eu_NewBinary := so_NewBinary result |>)))).

Definition chain_halted (out : ExecuteUpgradeOutput) : R (outcome answer) :=
  with_proposal out (λ out,
    do! s := the_state in
    attempt out (onU (waitForChainHalt w fuel (st_UpgradeHeight s))) (λ _,
      proceed ResumableStageSwitchingBinary "chain halted at upgrade height" (gov_switching out))).

Definition waiting_for_height (out : ExecuteUpgradeOutput) : R (outcome answer) :=
  with_proposal out (λ out,
    do! s := the_state in
    attempt out (onU (waitForUpgradeHeight w fuel (st_UpgradeHeight s))) (λ _,
      proceed ResumableStageChainHalted "upgrade height reached" (chain_halted out))).

Definition voting (out : ExecuteUpgradeOutput) : R (outcome answer) :=
  with_proposal out (λ out,
    attempt out (executeVoting input) (λ result,
      if bool_decide (vo_VotesCast result ≠ vo_TotalVoters result)
      then step_failed out (Errorf ("not all votes cast: " +:+ itoa (vo_VotesCast result) +:+ "/" +:+
                                    itoa (vo_TotalVoters result)))
      else proceed ResumableStageWaitingForHeight "voting complete, proposal passed"
             (waiting_for_height out))).

Definition proposal_submitted (out : ExecuteUpgradeOutput) : R (outcome answer) :=
  proceed ResumableStageVoting "voting period started" (voting out).

Definition initialized (out : ExecuteUpgradeOutput) : R (outcome answer) :=
  attempt out
    (onU (Propose w json_string fuel (mkProposeInput (in_HomeDir input) (in_UpgradeName input)
       (in_UpgradeHeight input) (in_VotingPeriod input) (in_HeightBuffer input) "" "")))
    (λ result,
      run! set_state (λ s, s <| st_ProposalID := po_ProposalID result |>
                             <| st_UpgradeHeight := po_UpgradeHeight result |>) in
      let out := out <| eu_ProposalID := po_ProposalID result |>
                     <| eu_UpgradeHeight := po_UpgradeHeight result |> in
      proceed ResumableStageProposalSubmitted
        ("proposal " +:+ itoa (po_ProposalID result) +:+ " submitted") (proposal_submitted out)).

(** The stage decides where the run begins. *)
Definition from_stage (out : ExecuteUpgradeOutput) : R (outcome answer) :=
  do! s := the_state in
  let stage := st_Stage s in
  if bool_decide (stage = ResumableStageInitialized) then initialized out
  else if bool_decide (stage = ResumableStageProposalSubmitted) then proposal_submitted out
  else if bool_decide (stage = ResumableStageVoting) then voting out
  else if bool_decide (stage = ResumableStageWaitingForHeight) then waiting_for_height out
  else if bool_decide (stage = ResumableStageChainHalted) then chain_halted out
  else if bool_decide (stage = ResumableStageSwitchingBinary) then gov_switching out
  else if bool_decide (stage = ResumableStageVerifyingResume) then gov_verifying out
  else if bool_decide (stage = ResumableStageCompleted) then completed input startTime out
  else if bool_decide (stage = ResumableStageFailed) then
    answered None (Some (Errorf ("upgrade previously failed: " +:+ st_Error s +:+
                                 " (use --force-restart to start fresh)")))
  else if bool_decide (stage = ResumableStageProposalRejected) then
    answered None (Some (Errorf "proposal was rejected (use --force-restart to start fresh)"))
  else cannot_resume stage.

(** The export before an upgrade that starts. *)
Definition executeWithGovResumable : R (outcome answer) :=
  do! s := the_state in
  if bool_decide (st_Stage s = ResumableStageInitialized) && in_WithExport input then
    do! r := export input in
    match r with
    | Err e =>
        let err := Wrap "pre-upgrade export failed" e in
        answered (Some (no_output <| eu_Error := Some err |>)) (Some err)
    | Ok (Some path) => from_stage (no_output <| eu_PreGenesisPath := path |>)
    | Ok None => from_stage no_output
    end
  else from_stage no_output.
End governance.

(** ** [Execute] *)

(** The state of an upgrade that starts. *)
Definition initial_state (now : Time) (input : ExecuteUpgradeInput) : UpgradeState :=
  NewUpgradeState now (in_UpgradeName input)
    (if bool_decide (in_Mode input = "docker") then "docker" else "local") (in_SkipGovernance input)
    <| st_TargetBinary := in_TargetBinary input |> <| st_TargetImage := in_TargetImage input |>
    <| st_TargetVersion := in_TargetVersion input |>
    <| st_UpgradeHeight := in_UpgradeHeight input |>.

Definition run_upgrade (input : ExecuteUpgradeInput) (startTime : Time) : R (outcome answer) :=
  if in_SkipGovernance input then executeSkipGovResumable input startTime
  else executeWithGovResumable input startTime.

Definition Execute (input : ExecuteUpgradeInput) (state : option UpgradeState) : R (outcome answer) :=
  do! startTime := onU (read_clock w) in
  match state with
  | Some state => run! set_state (λ _, state) in run_upgrade input startTime
  | None =>
      do! now := onU (read_clock w) in
      run! set_state (λ _, initial_state now input) in
      do! err := saveState in
      match err with
      | Some e => answered None (Some (Wrap "failed to save initial state" e))
      | None => run_upgrade input startTime
      end
  end.
End resumable.
