(* ===== verification/UpgradeRuns.v ===== *)
(** * Runs of a resumable upgrade

    What the calls of a run look like: at each point the run does only what its
    stage is for, and stages change by saved transitions ([staged]).  From this
    follow what a resumed upgrade may do, and that an upgrade which is interrupted
    anywhere and resumed from its file goes through the stages as one run does. *)

From stdpp Require Import base tactics numbers list strings sets.
From S2P Require Import Prelude Store UpgradeState UpgradeRepo GovABI UpgradeSteps UpgradeWaits ResumableUpgrade.

(** ** What each stage does *)

(** Calls with an effect, by the stages that make them; the others only read. *)
Definition allowed (stage : string) (c : UCall) : Prop :=
  match c with
  | USendTx _ _ => stage ∈ [ResumableStageInitialized; ResumableStageVoting]
  | UStop _ _ | UStart _ _ | USaveNode _ _ | USetActive _ _ => stage = ResumableStageSwitchingBinary
  | USaveDevnet _ _ => stage ∈ [ResumableStageSwitchingBinary; ResumableStageCompleted]
  | UExport _ _ _ => stage ∈ [ResumableStageInitialized; ResumableStageVerifyingResume]
  | USaveState _ _ | UDeleteState _ => False
  | _ => True
  end.

(** The moves of an upgrade: to the next stage of its path, or to Failed. *)
Definition next (gov : bool) (stage : string) : string :=
  if gov then GetNextStageForGovPath stage else GetNextStageForSkipGovPath stage.
Definition moves (gov : bool) (from to : string) : bool :=
  CanTransition from to && (bool_decide (to = ResumableStageFailed) || bool_decide (to = next gov from)).

(** What no step of an upgrade changes. *)
Definition identity (s : UpgradeState) :=
  (st_UpgradeName s, st_Mode s, st_SkipGovernance s,
   (st_TargetBinary s, st_TargetImage s, st_TargetVersion s), st_CreatedAt s).

(** A state of the same upgrade, in the same stage, and one that has moved on. *)
Definition tied (k s : UpgradeState) : Prop :=
  identity s = identity k ∧ st_Stage s = st_Stage k ∧ st_StageHistory s = st_StageHistory k.
Definition moved (gov : bool) (k s : UpgradeState) : Prop :=
  identity s = identity k ∧ moves gov (st_Stage k) (st_Stage s) = true ∧
  ∃ t r, st_StageHistory s =
    st_StageHistory k ++ [mkStageTransition (st_Stage k) (st_Stage s) t r].

(** The state that was saved last, which says what may come next. *)
Definition keep (k : UpgradeState) (c : UCall) : UpgradeState :=
  match c with USaveState s None => s | _ => k end.
Definition kept (k : UpgradeState) (l : list UCall) : UpgradeState := foldl keep k l.

Definition admissible (gov : bool) (k : UpgradeState) (c : UCall) : Prop :=
  match c with
  | USaveState s _ => tied k s ∨ moved gov k s
  | UDeleteState _ => st_Stage k = ResumableStageCompleted
  | c => allowed (st_Stage k) c
  end.

(** The calls of a run on the upgrade that [k] is the saved state of. *)
Fixpoint staged (gov : bool) (k : UpgradeState) (l : list UCall) : Prop :=
  match l with
  | [] => True
  | c :: l => admissible gov k c ∧ staged gov (keep k c) l
  end.

Lemma kept_app k l l' : kept k (l ++ l') = kept (kept k l) l'.
Proof. apply foldl_app. Qed.

Lemma staged_app gov k l l' : staged gov k (l ++ l') ↔ staged gov k l ∧ staged gov (kept k l) l'.
Proof. revert k. induction l as [|c l IH]; intros k; simpl; [tauto|]. rewrite IH. tauto. Qed.

Lemma tied_refl k : tied k k.
Proof. done. Qed.

(** Calls of one stage that save nothing. *)
Lemma staged_allowed gov k l :
  Forall (allowed (st_Stage k)) l → staged gov k l ∧ kept k l = k.
Proof.
  induction 1 as [|c l Hc _ [IH IHk]]; [done|].
  assert (Hk : keep k c = k) by (destruct c; by try destruct Hc).
  unfold kept. simpl. rewrite Hk. split; [|done]. split; [|done].
  destruct c; first [exact Hc|by destruct Hc].
Qed.

Lemma moves_rank gov s t : moves gov s t = true → rank t < rank s.
Proof. unfold moves. intros [Hc _]%andb_true_iff. by apply rank_decreases. Qed.

Lemma recorded_tied k s : tied k s → recorded k → recorded s.
Proof. unfold recorded. by intros (_ & -> & ->). Qed.

Lemma recorded_moved gov k s : moved gov k s → recorded k → recorded s.
Proof.
  intros (_ & Hm & t & r & Hh) Hk. unfold recorded in *. rewrite Hh.
  unfold moves in Hm. apply andb_true_iff in Hm as [Hc _]. by constructor.
Qed.

(** A property of states that ties and moves keep holds of the saved state. *)
Lemma kept_invariant (P : UpgradeState → Prop) gov k l :
  (∀ k s, P k → tied k s → P s) → (∀ k s, P k → moved gov k s → P s) →
  staged gov k l → P k → P (kept k l).
Proof.
  intros Ht Hm. revert k. induction l as [|c l IH]; intros k; simpl; [done|].
  intros [Hc Hl] Hk. apply IH; [done|].
  unfold keep. destruct c; try exact Hk. case_match; [exact Hk|]. destruct Hc; eauto.
Qed.

(** The history of a run without failures is the beginning of its path. *)
Definition path (gov : bool) : list string := if gov then gov_path else skip_gov_path.
Definition on_path (gov : bool) (k : UpgradeState) : Prop :=
  st_Stage k ≠ ResumableStageFailed →
  st_Stage k ∈ path gov ∧ tr_To <$> st_StageHistory k = upto (st_Stage k) (path gov).

Lemma upto_next gov s :
  s ∈ path gov → next gov s ≠ "" →
  next gov s ∈ path gov ∧ upto (next gov s) (path gov) = upto s (path gov) ++ [next gov s].
Proof.
  destruct gov; unfold path; intros Hs Hn;
    repeat (apply elem_of_cons in Hs as [->|Hs];
      [try (by destruct Hn); (split; [vm_compute; set_solver|reflexivity])|]);
    by apply elem_of_nil in Hs.
Qed.

Lemma on_path_moved gov k s : on_path gov k → moved gov k s → on_path gov s.
Proof.
  intros Hk (_ & Hm & t & r & Hh) Hf. rewrite Hh, fmap_app. cbn [fmap list_fmap tr_To].
  apply andb_true_iff in Hm as [Hc Hn]. rewrite (bool_decide_false _ Hf) in Hn.
  apply bool_decide_eq_true in Hn. unfold on_path in Hk.
  assert (Hs : st_Stage k ≠ ResumableStageFailed).
  { intros E. rewrite E in Hc. by rewrite terminal_stays in Hc. }
  destruct (Hk Hs) as [Hin ->]. rewrite Hn. destruct (decide (next gov (st_Stage k) = "")) as [E|E].
  - rewrite Hn, E in Hc. apply (each_transition (λ _ t, negb (bool_decide (t = "")))) in Hc; [|by vm_compute].
    by vm_compute in Hc.
  - destruct (upto_next gov (st_Stage k) Hin E) as [? ->]. done.
Qed.

Lemma on_path_tied gov k s : on_path gov k → tied k s → on_path gov s.
Proof. unfold on_path. by intros Hk (_ & -> & ->). Qed.

Lemma on_path_kept gov k l : staged gov k l → on_path gov k → on_path gov (kept k l).
Proof. apply kept_invariant; [apply on_path_tied|apply on_path_moved]. Qed.

Lemma recorded_kept gov k l : staged gov k l → recorded k → recorded (kept k l).
Proof. apply kept_invariant; intros ?? ? ?; [by eapply recorded_tied|by eapply recorded_moved]. Qed.

Lemma identity_kept gov k l : staged gov k l → identity (kept k l) = identity k.
Proof.
  intros Hl. apply (kept_invariant (λ s, identity s = identity k) gov k l); [..|done|done].
  - by intros k' s <- (-> & _).
  - by intros k' s <- (-> & _).
Qed.

(** Stages never go back. *)
Lemma rank_kept gov k l : staged gov k l → rank (st_Stage (kept k l)) ≤ rank (st_Stage k).
Proof.
  intros Hl. apply (kept_invariant (λ s, rank (st_Stage s) ≤ rank (st_Stage k)) gov k l); [..|done|done].
  - by intros k' s Hk (_ & -> & _).
  - intros k' s Hk (_ & Hm%moves_rank & _). lia.
Qed.

(** What a call was made for. *)
Lemma staged_call gov k l1 c l2 :
  staged gov k (l1 ++ c :: l2) → admissible gov (kept k l1) c.
Proof. intros [_ [Hc _]]%staged_app. done. Qed.

(** ** The steps *)

#[local] Hint Extern 1 (allowed _ _) => (simpl; first [exact I|reflexivity|set_solver]) : emits.
#[local] Hint Extern 1 (_ ∈ [_; _]) => set_solver : emits.

Section steps.
Context `{Ethereum} (w : World) (stage : string).
Abbreviation ok := (emits (allowed stage)).

Lemma emits_height_or {A} failed (k : Z → U A) :
  (∀ e, ok (failed e)) → (∀ h, ok (k h)) → ok (height_or w failed k).
Proof. intros Hf Hk. unfold height_or, get_height, check_ctx. emit. Qed.

Lemma emits_waitForUpgradeHeight fuel target : ok (waitForUpgradeHeight w fuel target).
Proof.
  induction fuel as [|fuel IH]; simpl; [emit|]. apply emits_bindE; [unfold check_ctx; emit|].
  intros _. apply emits_height_or; [emit|]. intros h. case_bool_decide; [emit|].
  apply emits_bindE; [unfold sleep; emit|by intros _].
Qed.

Lemma emits_await_halt fuel height deadline n last : ok (await_halt w fuel height deadline n last).
Proof.
  revert n last. induction fuel as [|fuel IH]; intros n last; simpl; [emit|].
  case_bool_decide; [emit|]. apply emits_bind; [unfold read_clock; emit|]. intros t.
  case_bool_decide; [|emit]. apply emits_bindE; [unfold check_ctx; emit|]. intros _.
  apply emits_height_or; intros x.
  - apply emits_bindE; [unfold sleep; emit|by intros _].
  - case_bool_decide; [emit|]. apply emits_bindE; [unfold sleep; emit|by intros _].
Qed.

Lemma emits_waitForChainHalt fuel height : ok (waitForChainHalt w fuel height).
Proof. apply emits_bind; [unfold read_clock; emit|]. intros t. apply emits_await_halt. Qed.

Lemma emits_await_resume fuel deadline last : ok (await_resume w fuel deadline last).
Proof.
  revert last. induction fuel as [|fuel IH]; intros last; simpl; [emit|].
  apply emits_bind; [unfold read_clock; emit|]. intros t. case_bool_decide; [|emit].
  apply emits_bindE; [unfold check_ctx; emit|]. intros _. apply emits_height_or; intros x.
  - apply emits_bindE; [unfold sleep; emit|by intros _].
  - destruct (_ && _); [emit|]. apply emits_bindE; [unfold sleep; emit|by intros _].
Qed.

Lemma emits_verifyChainResumed fuel : ok (verifyChainResumed w fuel).
Proof. apply emits_bind; [unfold read_clock; emit|]. intros t. apply emits_await_resume. Qed.

Lemma emits_waitForReceipt fuel hash : ok (waitForReceipt w fuel hash).
Proof.
  induction fuel as [|fuel IH]; simpl; [emit|]. apply emits_bind; [emit|]. intros [e| |]; [emit..|].
  apply emits_bind; [emit|]. intros [r|e]; [emit|done].
Qed.
End steps.

Section transactions.
Context `{Ethereum} (w : World) (stage : string)
  (Hs : stage ∈ [ResumableStageInitialized; ResumableStageVoting]).
Abbreviation ok := (emits (allowed stage)).
#[local] Hint Extern 1 (allowed stage (USendTx _ _)) => exact Hs : emits.

Lemma emits_send_and_wait fuel reverted tx key chainID :
  ok (send_and_wait w fuel reverted tx key chainID).
Proof.
  unfold send_and_wait. apply emits_bindE; [emit|]. intros hash.
  apply emits_bindE; [emit|]. intros _.
  apply emits_bindE; [apply emits_wrapping, emits_waitForReceipt|]. emit.
Qed.

Lemma emits_connect key : ok (connect w key).
Proof. unfold connect, eth. emit. Qed.

Lemma emits_submitVote fuel id option voter : ok (submitVote w fuel id option voter).
Proof.
  unfold submitVote, eth. apply emits_bindE; [apply emits_connect|]. intros [key chainID].
  apply emits_bindE; [emit|]. intros nonce. apply emits_bindE; [emit|]. intros price.
  apply emits_bindE; [apply emits_send_and_wait|]. intros [hash r]. emit.
Qed.

Lemma emits_cast_votes fuel id option keys out : ok (cast_votes w fuel id option keys out).
Proof.
  revert out. induction keys as [|key keys IH]; intros out; simpl; [emit|].
  apply emits_bind; [apply emits_submitVote|]. intros [hash|e| |]; [done|done|emit..].
Qed.

Lemma emits_Vote fuel input : ok (Vote w fuel input).
Proof.
  unfold Vote, load_devnet, load_keys. apply emits_bindE; [emit|]. intros metadata.
  apply emits_bindE; [emit|]. intros status. case_bool_decide; [emit|].
  apply emits_bindE; [emit|]. intros keys. case_match; [apply emits_cast_votes|emit].
Qed.

Lemma emits_calculateUpgradeHeight input : ok (calculateUpgradeHeight w input).
Proof. unfold calculateUpgradeHeight, get_height. emit. Qed.

Lemma emits_submitProposal js fuel input height key : ok (submitProposal w js fuel input height key).
Proof.
  unfold submitProposal, eth. apply emits_bindE; [apply emits_connect|]. intros [k chainID].
  do 4 (apply emits_bindE; [emit|]; intros ?). apply emits_bind; [emit|]. intros g.
  apply emits_bindE; [apply emits_send_and_wait|]. intros [hash receipt].
  case_match; [emit|]. apply emits_bind; [unfold getLatestProposalID; emit|emit].
Qed.

Lemma emits_Propose js fuel input : ok (Propose w js fuel input).
Proof.
  unfold Propose, load_devnet, load_keys. apply emits_bindE; [emit|]. intros metadata.
  case_bool_decide; [emit|]. apply emits_bindE.
  { case_bool_decide; [apply emits_wrapping, emits_calculateUpgradeHeight|emit]. }
  intros height. apply emits_bindE; [emit|]. intros [|key keys]; [emit|].
  apply emits_bindE; [apply emits_wrapping, emits_submitProposal|]. intros [hash id].
  unfold read_clock. emit.
Qed.
End transactions.

Section switching.
Context `{Ethereum} (w : World).
Abbreviation ok := (emits (allowed ResumableStageSwitchingBinary)).

Lemma emits_logged {A} φ (m : U A) : emits φ m → emits φ (logged m).
Proof. intros Hm. apply emits_bind; [done|]. emit. Qed.

Lemma emits_restart_nodes bin nodes : ok (restart_nodes w bin nodes).
Proof.
  induction nodes as [|node nodes IH]; simpl; [emit|]. apply emits_bind.
  - unfold restart_node. apply emits_bind.
    { case_match; [apply emits_logged; emit|emit]. }
    intros _. apply emits_bind; [emit|]. intros [pid|e]; [|emit].
    apply emits_bind; [apply emits_logged; emit|emit].
  - intros b. apply emits_bind; [done|emit].
Qed.

Lemma emits_SwitchBinary input : ok (SwitchBinary w input).
Proof.
  unfold SwitchBinary, load_devnet, save_devnet. apply emits_bindE; [emit|]. intros metadata.
  apply emits_bind; [emit|]. intros active. destruct (_ && _); [emit|].
  apply emits_bindE; [emit|]. intros _. apply emits_bindE; [emit|]. intros nodes.
  apply emits_bind; [apply emits_restart_nodes|]. intros n.
  apply emits_bind; [apply emits_logged; emit|emit].
Qed.

Lemma emits_updateCurrentVersion home version :
  emits (allowed ResumableStageCompleted) (updateCurrentVersion w home version).
Proof. unfold updateCurrentVersion, load_devnet, save_devnet. emit. Qed.
End switching.

(** ** Runs *)

(** What is found in the file after a call. *)
Definition found (d : state_error + option UpgradeState) (c : UCall) :
    state_error + option UpgradeState :=
  match c with
  | USaveState s None => inr (Some s)
  | UDeleteState None => inr None
  | _ => d
  end.

(** The end of a run: a success is one of a completed upgrade, and an error with an
    output is that of a failed step or of the first export. *)
Definition ended (r : outcome answer) (k s : UpgradeState) : Prop :=
  match r with
  | Returns (Some out, None) => eu_Success out = true ∧ st_Stage k = ResumableStageCompleted
  | Returns (None, None) => False
  | Returns (Some out, Some e) => eu_Error out = Some e ∧ eu_Success out = false ∧
      (st_Stage s = ResumableStageFailed ∨ st_Stage s = ResumableStageInitialized)
  | _ => True
  end.

Lemma found_allowed s d l : Forall (allowed s) l → foldl found d l = d.
Proof. induction 1 as [|c l Hc _ IH]; [done|]. simpl. by destruct c; first [exact IH|destruct Hc]. Qed.

Section runs.
Context {F : Type} `{StateManagerLaws F} `{Ethereum}.
Context (w : World) (js : string → string) (fuel : nat) (gov : bool).
Abbreviation R := (M (UState F)).

Definition keepable_call (c : UCall) : Prop :=
  match c with USaveState s _ => keepable s | _ => True end.

(** Between two states of a run. *)
Definition grows (k : UpgradeState) (u u' : UState F) (k' : UpgradeState) : Prop :=
  ∃ l, es_calls (u_trace u') = es_calls (u_trace u) ++ l ∧ staged gov k l ∧ kept k l = k' ∧
    (Forall keepable_call l → on_disk (u_disk u') = foldl found (on_disk (u_disk u)) l).

Lemma grows_refl k u u' :
  es_calls (u_trace u') = es_calls (u_trace u) → u_disk u' = u_disk u → grows k u u' k.
Proof. intros Ec Ed. exists []. rewrite app_nil_r, Ed. done. Qed.

Lemma grows_trans k1 k2 k3 u1 u2 u3 : grows k1 u1 u2 k2 → grows k2 u2 u3 k3 → grows k1 u1 u3 k3.
Proof.
  intros (l & El & Hl & <- & Hd) (l' & El' & Hl' & <- & Hd'). exists (l ++ l').
  rewrite El', El, (assoc_L app), staged_app, kept_app, Forall_app, foldl_app. split_and!; [done..|].
  intros [Hk Hk']. rewrite (Hd' Hk'), (Hd Hk). done.
Qed.

(** Steps within one stage, and runs to the end. *)
Definition continues {A} (s : string) (m : R A) : Prop :=
  ∀ k u, st_Stage k = s → tied k (u_state u) →
    ∃ k', st_Stage k' = s ∧ tied k' (u_state (m u).2) ∧ grows k u (m u).2 k'.

Definition runs (s : string) (m : R (outcome answer)) : Prop :=
  ∀ k u, st_Stage k = s → tied k (u_state u) →
    ∃ k', grows k u (m u).2 k' ∧ ended (m u).1 k' (u_state (m u).2).

Lemma continues_done {A} s (a : A) : continues s (done_with a).
Proof. intros k u Hk Ht. exists k. split_and!; [done..|]. by apply grows_refl. Qed.

Lemma continues_bind {A B} s (m : R A) (f : A → R B) :
  continues s m → (∀ a, continues s (f a)) → continues s (bindM m f).
Proof.
  intros Hm Hf k u Hk Ht. rewrite bindM_eq. destruct (Hm k u Hk Ht) as (k1 & Hk1 & Ht1 & G1).
  destruct (Hf (m u).1 k1 (m u).2 Hk1 Ht1) as (k2 & Hk2 & Ht2 & G2).
  exists k2. split_and!; [done..|]. by eapply grows_trans.
Qed.

Lemma continues_bindE {A B} s (m : R (outcome A)) (f : A → R (outcome B)) :
  continues s m → (∀ a, continues s (f a)) → continues s (bindE m f).
Proof.
  intros Hm Hf. apply continues_bind; [done|]. intros [a|e| |]; [done|apply continues_done..].
Qed.

Lemma continues_get {A} s (f : UState F → A) : continues s (getM f).
Proof. intros k u Hk Ht. exists k. split_and!; [done..|]. by apply grows_refl. Qed.

Lemma continues_set s f : (∀ k st, tied k st → tied k (f st)) → continues s (set_state f).
Proof. intros Hf k u Hk Ht. exists k. split_and!; [done|by apply Hf|]. by apply grows_refl. Qed.

Lemma continues_onU {A} s (m : M (Trace UCall) A) : emits (allowed s) m → continues s (onU m).
Proof.
  intros Hm k u Hk Ht. exists k. unfold onU. destruct (m (u_trace u)) as [a t] eqn:E.
  destruct (emits_grows _ _ _ _ _ Hm E) as (l & El & Hl). split_and!; [done..|].
  rewrite <- Hk in Hl. destruct (staged_allowed gov k l Hl) as [Hs Hkl].
  exists l. split_and!; [done..|]. intros _.
  rewrite found_allowed with (s := st_Stage k) by done. by inversion_clear E.
Qed.

(** Saving: the state in memory gets a time and a checksum, and is what is found in
    the file unless saving fails. *)
Lemma saveState_spec u :
  let '(e, u') := saveState w u in
  (∃ now c, u_state u' = u_state u <| st_UpdatedAt := now |> <| st_Checksum := c |>) ∧
  es_calls (u_trace u') = es_calls (u_trace u) ++ [USaveState (u_state u') e] ∧
  (keepable (u_state u') → on_disk (u_disk u') = found (on_disk (u_disk u)) (USaveState (u_state u') e)).
Proof.
  unfold saveState. rewrite bindM_eq. cbn [onU read_clock now_at fst snd]. rewrite bindM_eq.
  cbn [set_state modifyM fst snd]. rewrite bindM_eq. unfold the_state at 1. cbn [getM fst snd].
  cbn [u_state set]. set (s := u_state u <| st_UpdatedAt := _ |>).
  rewrite bindM_eq. unfold onDisk. simpl. destruct (SaveState s (u_disk u)) as [[e s'] d'] eqn:Es. simpl.
  unfold bindM. simpl.
  destruct (save_checksum s (u_disk u)) as [c Hc]. rewrite Es in Hc. simpl in Hc.
  split; [by exists (w_clock w (es_ticks (u_trace u))), c|]. split; [done|].
  intros Hk. destruct e as [e|].
  - pose proof (save_failed s (u_disk u) e) as Hf. rewrite Es in Hf. by apply Hf.
  - pose proof (save_found s (u_disk u)) as Hf. rewrite Es in Hf. apply Hf; [|done].
    replace s with (s' <| st_Checksum := st_Checksum s |>); [by apply keepable_checksum|].
    subst s'. by destruct s.
Qed.

Lemma grows_save k u e u' :
  tied k (u_state u) ∨ moved gov k (u_state u) → saveState w u = (e, u') →
  identity (u_state u') = identity (u_state u) ∧ tied (u_state u) (u_state u') ∧
  grows k u u' (keep k (USaveState (u_state u') e)).
Proof.
  intros Hk Hs. pose proof (saveState_spec u) as Hspec. rewrite Hs in Hspec.
  destruct Hspec as ((now & c & E) & El & Hd). split_and!; [by rewrite E..|].
  exists [USaveState (u_state u') e]. split_and!; [done| |done|].
  - split; [|done]. simpl. rewrite E. exact Hk.
  - intros [Hc _]%Forall_cons. by apply Hd.
Qed.

Lemma continues_saveState s : continues s (saveState w).
Proof.
  intros k u Hk Ht. destruct (saveState w u) as [e u'] eqn:Es.
  destruct (grows_save k u e u' (or_introl Ht) Es) as (_ & Ht' & G). simpl.
  destruct e as [e|].
  - exists k. split_and!; [done| |done]. destruct Ht as (E1 & E2 & E3), Ht' as (F1 & F2 & F3).
    split_and!; congruence.
  - exists (u_state u'). split_and!; [|done|done]. destruct Ht as (_ & E & _), Ht' as (_ & E' & _). congruence.
Qed.

(** A transition of the table moves the state on, and is in the file unless it fails. *)
Lemma transitionAndSave_spec k u target reason :
  tied k (u_state u) → moves gov (st_Stage k) target = true →
  let '(e, u') := transitionAndSave w target reason u in
  st_Stage (u_state u') = target ∧
  match e with
  | None => tied (u_state u') (u_state u') ∧ grows k u u' (u_state u')
  | Some _ => grows k u u' k
  end.
Proof.
  intros Ht Hm. assert (Hc : CanTransition (st_Stage (u_state u)) target = true).
  { destruct Ht as (_ & -> & _). by apply andb_true_iff in Hm as []. }
  unfold transitionAndSave. rewrite bindM_eq. cbn [the_state getM fst snd]. rewrite Hc.
  rewrite bindM_eq. cbn [onU read_clock now_at fst snd]. unfold TransitionTo. rewrite Hc.
  set (now := w_clock w _). destruct (record_transition_fields now (u_state u) target reason)
    as (Es & _ & Eh & Ef). revert Es Eh Ef. generalize (record_transition now (u_state u) target reason).
  intros s1 Es Eh Ef. rewrite bindM_eq. cbn [set_state modifyM fst snd].
  rewrite bindM_eq. unfold done_with. set (u1 := set u_state _ _).
  destruct (saveState w u1) as [e u'] eqn:Esv.
  assert (Hmv : moved gov k (u_state u1)).
  { destruct Ht as (E1 & E2 & E3). split_and!.
    - rewrite <- E1. simpl. rewrite Ef. done.
    - simpl. by rewrite Es.
    - simpl. exists now, reason. by rewrite Eh, Es, E2, E3. }
  destruct (grows_save k u1 e u' (or_intror Hmv) Esv) as (_ & (_ & Hs & _) & G). simpl.
  split; [by rewrite Hs|]. by destruct e.
Qed.

Lemma runs_answered s out e :
  (∀ k st, st_Stage k = s → tied k st → ended (Returns (out, e)) k st) → runs s (answered out e).
Proof.
  intros He k u Hk Ht. exists k. split; [by apply grows_refl|]. by apply He.
Qed.

Lemma runs_bind {A} s (m : R A) (f : A → R (outcome answer)) :
  continues s m → (∀ a, runs s (f a)) → runs s (bindM m f).
Proof.
  intros Hm Hf k u Hk Ht. rewrite bindM_eq. destruct (Hm k u Hk Ht) as (k1 & Hk1 & Ht1 & G1).
  destruct (Hf (m u).1 k1 (m u).2 Hk1 Ht1) as (k2 & G2 & Hr).
  exists k2. split; [|done]. by eapply grows_trans.
Qed.

Lemma runs_proceed s target reason m :
  moves gov s target = true → runs target m → runs s (proceed w target reason m).
Proof.
  intros Hmv Hm k u Hk Ht. unfold proceed. rewrite bindM_eq.
  pose proof (transitionAndSave_spec k u target reason Ht) as Hs. rewrite Hk in Hs. specialize (Hs Hmv).
  destruct (transitionAndSave w target reason u) as [[e|] u']; destruct Hs as [Es Hs]; simpl.
  - exists k. split; [|done]. done.
  - destruct Hs as [Ht' G]. destruct (Hm (u_state u') u' Es Ht') as (k2 & G2 & Hr).
    exists k2. split; [|done]. by eapply grows_trans.
Qed.

Lemma runs_failed s out e :
  moves gov s ResumableStageFailed = true → eu_Success out = false → runs s (step_failed w out e).
Proof.
  intros Hmv Ho k u Hk Ht. unfold step_failed. rewrite bindM_eq.
  pose proof (transitionAndSave_spec k u ResumableStageFailed (Error e) Ht) as Hs.
  rewrite Hk in Hs. specialize (Hs Hmv).
  destruct (transitionAndSave w ResumableStageFailed (Error e) u) as [[e'|] u']; destruct Hs as [Es Hs]; simpl.
  - exists k. split; [done|]. by split_and!; [..|left].
  - destruct Hs as [_ G]. exists (u_state u'). split; [done|]. by split_and!; [..|left].
Qed.

Lemma runs_attempt {A} s out (m : R (outcome A)) f :
  moves gov s ResumableStageFailed = true → eu_Success out = false →
  continues s m → (∀ a, runs s (f a)) → runs s (attempt w out m f).
Proof.
  intros Hmv Ho Hm Hf. apply runs_bind; [done|]. intros [a|e| |]; [done|by apply runs_failed|..];
    intros k u Hk Ht; exists k; split; try done; by apply grows_refl.
Qed.

(** ** The stages of [Execute] *)

Lemma continues_executeSwitchBinary input :
  continues ResumableStageSwitchingBinary (executeSwitchBinary w input).
Proof.
  apply continues_bind; [apply continues_get|]. intros st.
  apply continues_bindE; [apply continues_onU, emits_SwitchBinary|]. intros result.
  apply continues_bind; [apply continues_onU; unfold read_clock; emit|]. intros now.
  apply continues_bind; [by apply continues_set|]. intros _.
  apply continues_bind; [apply continues_saveState|]. intros _. apply continues_done.
Qed.

Lemma continues_executeVoting input : continues ResumableStageVoting (executeVoting w fuel input).
Proof.
  apply continues_bind; [apply continues_get|]. intros st.
  apply continues_bindE; [apply continues_onU, emits_Vote; set_solver|]. intros result.
  apply continues_bind; [apply continues_onU; unfold read_clock; emit|]. intros now.
  apply continues_bind; [by apply continues_set|]. intros _.
  apply continues_bind; [apply continues_saveState|]. intros _. apply continues_done.
Qed.

Lemma runs_completed input startTime out :
  runs ResumableStageCompleted (completed w input startTime out).
Proof.
  apply runs_bind.
  { case_bool_decide; [|apply continues_done]. apply continues_onU, emits_logged, emits_updateCurrentVersion. }
  intros _. apply runs_bind.
  - intros k u Hk Ht. exists k. unfold deleteState. rewrite bindM_eq. unfold onDisk. simpl.
    destruct (DeleteState (u_disk u)) as [e d'] eqn:Ed. split_and!; [done..|].
    exists [UDeleteState e]. split_and!; [done|by split|done|]. intros _. simpl.
    pose proof (delete_found (u_disk u)) as Hf. pose proof (delete_failed (u_disk u)) as Hg.
    rewrite Ed in Hf, Hg. destruct e; [by eapply Hg|by apply Hf].
  - intros _. apply runs_bind; [apply continues_onU; unfold read_clock; emit|]. intros now.
    apply runs_answered. intros k st Hk _. by split.
Qed.

Lemma moves_failed s :
  s ∈ path gov → s ≠ ResumableStageCompleted → moves gov s ResumableStageFailed = true.
Proof.
  intros Hs Hc. unfold path in Hs. destruct gov;
    (repeat (apply elem_of_cons in Hs as [->|Hs]; [try done|])); by apply elem_of_nil in Hs.
Qed.

Lemma continues_export s input :
  s ∈ [ResumableStageInitialized; ResumableStageVerifyingResume] → continues s (export w input).
Proof. intros Hs. apply continues_onU. emit. Qed.

Lemma runs_verifying g input startTime out :
  eu_Success out = false → runs ResumableStageVerifyingResume (verifying w fuel g input startTime out).
Proof.
  intros Ho. apply runs_attempt; [by destruct gov|done|apply continues_onU, emits_verifyChainResumed|].
  intros h. apply runs_bind.
  - destruct (g && in_WithExport input); [|apply continues_done].
    apply continues_bind; [apply continues_export; set_solver|]. intros r. apply continues_done.
  - intros out'. apply runs_proceed; [by destruct gov|]. apply runs_completed.
Qed.

Lemma runs_with_proposal s out f :
  (∀ out', eu_Success out' = eu_Success out → runs s (f out')) → runs s (with_proposal out f).
Proof. intros Hf. apply runs_bind; [apply continues_get|]. intros st. by apply Hf. Qed.

(** Where a stage begins. *)
Lemma runs_stage s (f : UpgradeState → R (outcome answer)) :
  (∀ st, st_Stage st = s → runs s (f st)) → runs s (bindM the_state f).
Proof.
  intros Hf k u Hk Ht. rewrite bindM_eq. apply Hf; [|done|done].
  destruct Ht as (_ & E & _). simpl. congruence.
Qed.

Lemma runs_cannot_resume s stage : runs s (cannot_resume stage).
Proof. by apply runs_answered. Qed.
End runs.

Section paths.
Context {F : Type} `{StateManagerLaws F} `{Ethereum}.
Context (w : World) (js : string → string) (fuel : nat).
Context (input : ExecuteUpgradeInput) (startTime : Time).

Lemma runs_switching out :
  eu_Success out = false →
  runs (F:=F) false ResumableStageSwitchingBinary (switching w fuel input startTime out).
Proof.
  intros Ho. apply runs_attempt; [done|done|apply continues_executeSwitchBinary|].
  intros result. apply runs_proceed; [done|]. by apply runs_verifying.
Qed.

Lemma runs_executeSkipGov s :
  runs (F:=F) false s (executeSkipGovResumable w fuel input startTime).
Proof.
  apply runs_stage. intros st <-. cbv zeta. case_bool_decide as Hs; [rewrite Hs|clear Hs].
  { apply runs_proceed; [done|]. by apply runs_switching. }
  case_bool_decide as Hs; [rewrite Hs; by apply runs_switching|clear Hs].
  case_bool_decide as Hs; [rewrite Hs; by apply runs_verifying|clear Hs].
  case_bool_decide as Hs; [rewrite Hs; by apply runs_completed|clear Hs].
  apply runs_cannot_resume.
Qed.

Abbreviation gruns := (runs (F:=F) true).

Lemma runs_gov_verifying out :
  eu_Success out = false →
  gruns ResumableStageVerifyingResume (gov_verifying w fuel input startTime out).
Proof.
  intros Ho. apply runs_with_proposal. intros out' Ho'. apply runs_verifying. congruence.
Qed.

Lemma runs_gov_switching out :
  eu_Success out = false →
  gruns ResumableStageSwitchingBinary (gov_switching w fuel input startTime out).
Proof.
  intros Ho. apply runs_with_proposal. intros out' Ho'. rewrite Ho in Ho'.
  apply runs_attempt; [done|done|apply continues_executeSwitchBinary|].
  intros result. apply runs_proceed; [done|]. by apply runs_gov_verifying.
Qed.

Lemma runs_chain_halted out :
  eu_Success out = false →
  gruns ResumableStageChainHalted (chain_halted w fuel input startTime out).
Proof.
  intros Ho. apply runs_with_proposal. intros out' Ho'. rewrite Ho in Ho'.
  apply runs_stage. intros st Hst.
  apply runs_attempt; [done|done|apply continues_onU, emits_waitForChainHalt|].
  intros _. apply runs_proceed; [done|]. by apply runs_gov_switching.
Qed.

Lemma runs_waiting_for_height out :
  eu_Success out = false →
  gruns ResumableStageWaitingForHeight (waiting_for_height w fuel input startTime out).
Proof.
  intros Ho. apply runs_with_proposal. intros out' Ho'. rewrite Ho in Ho'.
  apply runs_stage. intros st Hst.
  apply runs_attempt; [done|done|apply continues_onU, emits_waitForUpgradeHeight|].
  intros _. apply runs_proceed; [done|]. by apply runs_chain_halted.
Qed.

Lemma runs_voting out :
  eu_Success out = false → gruns ResumableStageVoting (voting w fuel input startTime out).
Proof.
  intros Ho. apply runs_with_proposal. intros out' Ho'. rewrite Ho in Ho'.
  apply runs_attempt; [done|done|apply continues_executeVoting|]. intros result.
  case_bool_decide; [by apply runs_failed|]. apply runs_proceed; [done|]. by apply runs_waiting_for_height.
Qed.

Lemma runs_proposal_submitted out :
  eu_Success out = false →
  gruns ResumableStageProposalSubmitted (proposal_submitted w fuel input startTime out).
Proof. intros Ho. apply runs_proceed; [done|]. by apply runs_voting. Qed.

Lemma runs_initialized out :
  eu_Success out = false → gruns ResumableStageInitialized (initialized w js fuel input startTime out).
Proof.
  intros Ho. apply runs_attempt; [done|done|apply continues_onU, emits_Propose; set_solver|].
  intros result. apply runs_bind; [by apply continues_set|]. intros _.
  apply runs_proceed; [done|]. by apply runs_proposal_submitted.
Qed.

Lemma runs_from_stage s out :
  eu_Success out = false → gruns s (from_stage w js fuel input startTime out).
Proof.
  intros Ho. apply runs_stage. intros st <-. cbv zeta.
  repeat (case_bool_decide as Hs; [rewrite Hs|clear Hs]);
    eauto using runs_initialized, runs_proposal_submitted, runs_voting, runs_waiting_for_height,
      runs_chain_halted, runs_gov_switching, runs_gov_verifying, runs_completed, runs_cannot_resume;
    by apply runs_answered.
Qed.

Lemma runs_executeWithGov s : gruns s (executeWithGovResumable w js fuel input startTime).
Proof.
  apply runs_stage. intros st Hst. destruct (_ && _) eqn:Hi; [|by apply runs_from_stage].
  apply andb_true_iff in Hi as [Hi _]. apply bool_decide_eq_true in Hi.
  apply runs_bind; [apply continues_export; set_solver|]. intros [[p|]|e]; [by apply runs_from_stage..|].
  apply runs_answered. intros k s' Hk (_ & E & _). split_and!; [done..|]. right. congruence.
Qed.

Lemma runs_upgrade s :
  runs (F:=F) (negb (in_SkipGovernance input)) s (run_upgrade w js fuel input startTime).
Proof.
  unfold run_upgrade. destruct (in_SkipGovernance input); [apply runs_executeSkipGov|apply runs_executeWithGov].
Qed.
End paths.

(** ** [Execute] *)

Section execute.
Context {F : Type} `{StateManagerLaws F} `{Ethereum}.

(** The upgrade that a call of [Execute] is about. *)
Definition upgrade_of (w : World) (input : ExecuteUpgradeInput) (state : option UpgradeState)
    (u : UState F) : UpgradeState :=
  match state with
  | Some s => s
  | None => initial_state (w_clock w (S (es_ticks (u_trace u)))) input
  end.

Lemma runs_Execute w js fuel input state u :
  let '(r, u') := Execute w js fuel input state u in
  ∃ k, grows (negb (in_SkipGovernance input)) (upgrade_of w input state u) u u' k ∧
       ended r k (u_state u').
Proof.
  unfold Execute. rewrite bindM_eq. cbn [onU read_clock now_at fst snd].
  set (u1 := u <| u_trace := _ |>). set (start := w_clock w _). destruct state as [s|].
  - rewrite bindM_eq. cbn [set_state modifyM fst snd]. set (u2 := set u_state (λ _, s) u1).
    destruct (runs_upgrade w js fuel input start (st_Stage s) s u2 eq_refl (tied_refl s)) as (k & G & He).
    destruct (run_upgrade w js fuel input start u2) as [r u']. by exists k.
  - rewrite bindM_eq. cbn [onU read_clock now_at fst snd].
    rewrite bindM_eq. cbn [set_state modifyM fst snd].
    change (initial_state _ input) with (upgrade_of w input None u).
    set (k := upgrade_of w input None u). set (u2 := set u_state (λ _, k) _).
    rewrite bindM_eq. destruct (saveState w u2) as [e u3] eqn:Es.
    destruct (grows_save w (negb (in_SkipGovernance input)) k u2 e u3 (or_introl (tied_refl k)) Es)
      as (_ & Ht & G). cbn [fst snd]. destruct e as [e|]; [by exists k|].
    destruct (runs_upgrade w js fuel input start (st_Stage (u_state u3)) (u_state u3) u3 eq_refl
      (tied_refl _)) as (k' & G' & He).
    destruct (run_upgrade w js fuel input start u3) as [r u'].
    exists k'. split; [|done]. by eapply (grows_trans _ k _ _ u u3).
Qed.
Lemma on_path_initial gov now input : on_path gov (initial_state now input).
Proof. intros _. unfold initial_state. destruct gov; (split; [vm_compute; set_solver|done]). Qed.

(** A run that is killed anywhere, and runs on what the file then holds. *)
Inductive sessions (input : ExecuteUpgradeInput) : UpgradeState → list UCall → Prop :=
| sessions_none k : sessions input k []
| sessions_run w js fuel state (u : UState F) l killed rest :
    es_calls (u_trace (Execute w js fuel input state u).2) = es_calls (u_trace u) ++ l ++ killed →
    sessions input (kept (upgrade_of w input state u) l) rest →
    sessions input (upgrade_of w input state u) (l ++ rest).

Lemma sessions_staged input k l :
  sessions input k l → staged (negb (in_SkipGovernance input)) k l.
Proof.
  induction 1 as [k|w js fuel state u l killed rest Hl _ IH]; [done|]. apply staged_app. split; [|done].
  pose proof (runs_Execute w js fuel input state u) as Hr.
  destruct (Execute w js fuel input state u) as [r u']. destruct Hr as (k' & (l' & El & Hs & _) & _).
  simpl in Hl. rewrite El in Hl. apply (inj (app _)) in Hl as ->. by apply staged_app in Hs as [Hs _].
Qed.

Lemma found_kept k l :
  (∀ e, UDeleteState e ∉ l) → foldl found (inr (Some k)) l = inr (Some (kept k l)).
Proof.
  revert k. induction l as [|c l IH]; intros k Hn; [done|]. unfold kept. simpl.
  assert (Hl : ∀ e, UDeleteState e ∉ l) by (intros e He; apply (Hn e); by right).
  destruct c as [| | | | | | | | | | | | | | | | | | | | | | |s [e|]|e]; simpl; try by apply IH.
  destruct (Hn e). by left.
Qed.

Lemma on_path_completed gov k :
  on_path gov k → st_Stage k = ResumableStageCompleted → tr_To <$> st_StageHistory k = path gov.
Proof.
  unfold on_path. intros Hp Hc. rewrite Hc in Hp. destruct (Hp ltac:(done)) as [_ ->].
  by destruct gov.
Qed.

(** C14: a call of [Execute] works on one upgrade, stage by stage.  Every call it makes
    is admissible for the state saved last: a transaction is sent only while a
    proposal is to be submitted or votes are to be cast, nodes are stopped and
    started and the binary replaced only in the stage for it, the state file is
    deleted only after completion, and a saved state is one of the same upgrade
    that is still in its stage or has taken the one next step of its path or failed.
    Stages never go back and the history stays one; the file holds the state saved
    last, or nothing once deleted.  It answers success only for an upgrade whose
    last saved state is Completed, and with a history that goes through every stage
    of the path when it began there. *)
Theorem Execute_follows_its_path w js fuel input state (u : UState F) :
  let gov := negb (in_SkipGovernance input) in
  let k := upgrade_of w input state u in
  let '(r, u') := Execute w js fuel input state u in
  ∃ l, es_calls (u_trace u') = es_calls (u_trace u) ++ l ∧
    let k' := kept k l in
    (∀ l1 c l2, l = l1 ++ c :: l2 → admissible gov (kept k l1) c) ∧
    identity k' = identity k ∧ rank (st_Stage k') ≤ rank (st_Stage k) ∧
    (recorded k → recorded k') ∧
    (Forall keepable_call l → on_disk (u_disk u') = foldl found (on_disk (u_disk u)) l) ∧
    ended r k' (u_state u') ∧
    (on_path gov k → st_Stage k' = ResumableStageCompleted →
       tr_To <$> st_StageHistory k' = path gov).
Proof.
  cbv zeta. pose proof (runs_Execute w js fuel input state u) as Hr.
  destruct (Execute w js fuel input state u) as [r u'].
  destruct Hr as (k' & (l & El & Hl & <- & Hd) & He). exists l. split_and!; try done.
  - intros l1 c l2 ->. by eapply staged_call.
  - by eapply identity_kept.
  - by eapply rank_kept.
  - by eapply recorded_kept.
  - intros Hp. apply on_path_completed. by eapply on_path_kept.
Qed.

(** C13: an upgrade may be killed at any call and resumed from its file, any number of
    times, and the calls of all runs together are those of one upgrade: each is
    admissible for the state saved last, stages never go back, and when it gets to
    Completed the history goes through every stage of its path once.  At each
    interruption the state saved last is what the file holds, as long as it was not
    deleted.  So no proposal is submitted again once its stage was saved. *)
Theorem interrupted_upgrades_resume input k l :
  sessions input k l →
  let gov := negb (in_SkipGovernance input) in
  let k' := kept k l in
  (∀ l1 c l2, l = l1 ++ c :: l2 →
     admissible gov (kept k l1) c ∧ rank (st_Stage k') ≤ rank (st_Stage (kept k l1))) ∧
  (∀ l1 s l2 hash e, l = l1 ++ USaveState s None :: l2 → st_Stage s = ResumableStageProposalSubmitted →
     USendTx hash e ∈ l2 → ∃ l3 l4, l2 = l3 ++ USendTx hash e :: l4 ∧
       st_Stage (kept s l3) = ResumableStageVoting) ∧
  identity k' = identity k ∧ (recorded k → recorded k') ∧
  (on_path gov k → st_Stage k' = ResumableStageCompleted →
     tr_To <$> st_StageHistory k' = path gov) ∧
  ((∀ e, UDeleteState e ∉ l) → foldl found (inr (Some k)) l = inr (Some k')).
Proof.
  intros Hl%sessions_staged. cbv zeta. split_and!.
  - intros l1 c l2 ->. split; [by eapply staged_call|]. apply staged_app in Hl as [_ Hl].
    rewrite kept_app. by eapply rank_kept.
  - intros l1 s l2 hash e -> Hs Hin. apply list_elem_of_split in Hin as (l3 & l4 & ->).
    exists l3, l4. split; [done|]. apply staged_app in Hl as [_ [_ Hl]]. cbn [keep] in Hl.
    pose proof (staged_call _ _ _ _ _ Hl) as Ha. simpl in Ha.
    apply staged_app in Hl as [Hl _]. apply rank_kept in Hl. rewrite Hs in Hl.
    apply elem_of_cons in Ha as [E|Ha]; [rewrite E in Hl; vm_compute in Hl; lia|].
    by apply list_elem_of_singleton in Ha.
  - by eapply identity_kept.
  - by eapply recorded_kept.
  - intros Hp. apply on_path_completed. by eapply on_path_kept.
  - apply found_kept.
Qed.
End execute.

(** *** Witnesses *)

(** A file in memory. *)
Definition memory_manager : UpgradeStateManager (option UpgradeState) := {|
  LoadState f := (inr f, f);
  SaveState s _ := ((None, s), Some s);
  DeleteState _ := (None, None);
  StateExists f := (Ok (bool_decide (is_Some f)), f);
  ValidateState _ := None
|}.

#[local] Existing Instance memory_manager.
#[local] Existing Instance plain_ethereum.

Definition memory_laws : @StateManagerLaws (option UpgradeState) memory_manager.
Proof.
  refine {| on_disk := inr; keepable _ := True |}; try done.
  - intros s f. exists (st_Checksum s). by destruct s.
  - intros f. split; [done|by left].
Defined.
#[local] Existing Instance memory_laws.

(** One node, and a chain that makes a block per call. *)
Definition running_world : World := {|
  w_clock n := (Z.of_nat n * second)%Z;
  w_ctx _ := None;
  w_sleep _ _ := None;
  w_GetBlockHeight t := Ok (Z.of_nat (S (length t)));
  w_IsChainRunning _ := true;
  w_GetProposal _ _ := Ok ProposalStatusVoting;
  w_GetGovParams _ := Ok (60 * second)%Z;
  w_GetBlockTime _ := Ok second;
  w_LoadDevnet _ home := Ok (mkDevnetMetadata home 1 "local" StateRunning "" "v1" "stabled");
  w_SaveDevnet _ _ := None;
  w_LoadNodes _ home := Ok [mkNodeMetadata 0 "node0" (home +:+ "/node0") (Some 41%Z)];
  w_SaveNode _ _ := None;
  w_Stop _ _ := None;
  w_Start _ _ := Ok 42%Z;
  w_GetActive _ := Ok "/bin/old";
  w_SetActive _ _ := None;
  w_LoadKeys _ _ := Ok [];
  w_Eth _ _ _ := Ok 1%Z;
  w_SignTx _ _ _ _ := Ok "0xhash";
  w_SendTx _ _ := None;
  w_WaitReceipt _ := WakeTick;
  w_Receipt _ _ := Ok (mkReceipt true []);
  w_LatestProposals _ := Ok [];
  w_Export _ _ _ := Ok None
|}.

Definition skip_input : ExecuteUpgradeInput :=
  mkExecuteUpgradeInput "/d" "v2" "/bin/new" "" "" "c0ffee" "" "v2" 0 0 0 false "" "local" true.
Definition fresh : UState (option UpgradeState) :=
  mkUState (mkEState [] 0) (NewUpgradeState 0 "" "" false) None.

Definition skip_run := Execute running_world id 20 skip_input None fresh.

Definition succeeded (r : outcome answer) : bool :=
  match r with Returns (Some out, None) => eu_Success out | _ => false end.

Lemma ended_succeeded r k s : succeeded r = true → ended r k s → st_Stage k = ResumableStageCompleted.
Proof. destruct r as [[[out|] [e|]]|e| |]; intros Hs He; [done|apply He|done..]. Qed.

Lemma Execute_follows_its_path_witness :
  succeeded skip_run.1 = true ∧
  ∃ l, es_calls (u_trace skip_run.2) = l ∧
    tr_To <$> st_StageHistory (kept (upgrade_of running_world skip_input None fresh) l) = skip_gov_path.
Proof.
  assert (Hs : succeeded skip_run.1 = true) by (vm_compute; reflexivity). split; [exact Hs|].
  pose proof (Execute_follows_its_path (F:=option UpgradeState)) as Hx.
  specialize (Hx running_world id 20%nat skip_input None). specialize (Hx fresh).
  revert Hs. unfold skip_run. destruct (Execute running_world id 20 skip_input None fresh) as [r u'].
  intros Hs. destruct Hx as (l & El & _ & _ & _ & _ & _ & He & Hp).
  exists l. split; [exact El|]. apply Hp; [apply on_path_initial|exact (ended_succeeded _ _ _ Hs He)].
Defined.

(** The same upgrade killed after the switch was saved, and run on by a second call. *)
Definition first_calls : list UCall := take 11 (es_calls (u_trace skip_run.2)).
Definition file_then : UpgradeState :=
  kept (upgrade_of running_world skip_input None fresh) first_calls.
Definition second_run :=
  Execute running_world id 20 skip_input (Some file_then) (mkUState (mkEState [] 0) file_then (Some file_then)).

Lemma interrupted_upgrades_resume_witness :
  st_Stage file_then = ResumableStageSwitchingBinary ∧ succeeded second_run.1 = true ∧
  tr_To <$> st_StageHistory (kept (upgrade_of running_world skip_input None fresh)
    (first_calls ++ es_calls (u_trace second_run.2))) = skip_gov_path.
Proof.
  split; [reflexivity|]. split; [vm_compute; reflexivity|].
  assert (Hs : sessions (F := option UpgradeState) skip_input
    (upgrade_of running_world skip_input None fresh) (first_calls ++ es_calls (u_trace second_run.2))).
  { refine (sessions_run (F := option UpgradeState) skip_input running_world id 20%nat None fresh
      first_calls (drop 11 (es_calls (u_trace skip_run.2))) _ _ _); [vm_compute; reflexivity|].
    rewrite <- (app_nil_r (es_calls (u_trace second_run.2))).
    set (u2 := mkUState (mkEState [] 0) file_then (Some file_then)).
    assert (E : kept (upgrade_of running_world skip_input None fresh) first_calls =
      upgrade_of running_world skip_input (Some file_then) u2) by (vm_compute; reflexivity).
    rewrite E. clear E.
    refine (sessions_run (F := option UpgradeState) skip_input running_world id 20%nat
      (Some file_then) u2 (es_calls (u_trace second_run.2)) [] [] _ (sessions_none _ _)).
    vm_compute. reflexivity. }
  destruct (interrupted_upgrades_resume skip_input _ _ Hs) as (_ & _ & _ & _ & Hp & _).
  apply Hp; [apply on_path_initial|]. vm_compute. reflexivity.
Defined.

(** The chain of the example runs again, as the heights 2 and 5 show. *)
Lemma upgrade_waits_end_witness :
  ∃ st', verifyChainResumed running_world 600 (mkEState [] 0) = (Returns 5%Z, st') ∧
    (waitForChainHalt running_world 600 100 (mkEState [] 0)).1 ≠ Unfinished ∧
    ∃ pre errs h0, heights (es_calls st') = pre ++ Ok h0 :: errs ++ [Ok 5%Z] ∧ (0 < h0 < 5)%Z.
Proof.
  destruct (upgrade_waits_end running_world second 600 100 (mkEState [] 0)) as (Hh & _ & _ & Hr).
  - intros n. unfold running_world, w_clock, second. lia.
  - unfold minute, second. lia.
  - destruct (verifyChainResumed running_world 600 (mkEState [] 0)) as [r st'] eqn:E.
    assert (Er : r = Returns 5%Z).
    { replace r with (verifyChainResumed running_world 600 (mkEState [] 0)).1 by (by rewrite E).
      vm_compute. reflexivity. }
    rewrite Er in Hr |- *. destruct (Hr 5%Z st' eq_refl) as (pre & errs & h0 & Hh' & Hb & _).
    exists st'. split; [reflexivity|]. split; [exact Hh|]. exists pre, errs, h0. split; [exact Hh'|exact Hb].
Defined.
