(* ===== verification/Resume.v ===== *)
(** * Resuming an upgrade
    ([internal/application/upgrade/resume.go], [state_detector.go], and the state
    handling of [cmd/devnet-builder/commands/manage/upgrade.go])

    The upgrade command decides from the state file and its flags whether to start,
    resume or refuse.  [ResumeUseCase] is the other way to resume: it also asks the
    chain where the upgrade is. *)

From stdpp Require Import base tactics numbers list strings gmap.
From S2P Require Import Prelude Store UpgradeState UpgradeRepo GovABI UpgradeSteps ResumableUpgrade UpgradeRuns.

(** ** Detecting the stage *)

Section detector.
Context `{Ethereum}.
Variable w : World.

Definition DetectProposalStatus (proposalID : Z) : U string :=
  if bool_decide (proposalID = 0)%Z then fail (Errorf "invalid proposal ID: 0")
  else
    try! status := wrapping "failed to get proposal"
                     (call (λ t, w_GetProposal w t proposalID) (UProposal proposalID)) in
    ret (if bool_decide (status = ProposalStatusVoting) then "voting"
         else if bool_decide (status = ProposalStatusPassed) then "passed"
         else if bool_decide (status = ProposalStatusRejected) then "rejected"
         else if bool_decide (status = ProposalStatusFailed) then "failed"
         else if bool_decide (status = ProposalStatusPending) then "pending"
         else "unknown").

(** The height, or nothing when it cannot be read. *)
Definition try_height : M (Trace UCall) (option Z) :=
  do! r := ask_env (w_GetBlockHeight w) UHeight in done_with (ok_of r).

Definition DetectChainStatus : M (Trace UCall) string :=
  do! running := ask_env (w_IsChainRunning w) URunning in
  if running then
    do! height1 := try_height in
    match height1 with
    | None => done_with "unreachable"
    | Some height1 =>
        do! cancelled := ask_env (λ t, w_sleep w t (2 * second)) (USleep (2 * second)) in
        match cancelled with
        | Some _ => done_with "halted"
        | None =>
            do! height2 := try_height in
            done_with (match height2 with
              | None => "unreachable"
              | Some height2 =>
                  if bool_decide (height2 ≤ height1)%Z then "halted" else "running"
              end)
        end
    end
  else done_with "unreachable".

Definition detectSkipGovStage (state : UpgradeState) : M (Trace UCall) string :=
  match st_NodeSwitches state with
  | [] => done_with ResumableStageInitialized
  | switches =>
      if negb (existsb sw_Switched switches) then done_with ResumableStageSwitchingBinary
      else if forallb sw_Switched switches then
        do! chainStatus := DetectChainStatus in
        done_with (if bool_decide (chainStatus = "running") then ResumableStageVerifyingResume
                   else ResumableStageSwitchingBinary)
      else done_with ResumableStageSwitchingBinary
  end.

Definition detectPostPassedStage (state : UpgradeState) : M (Trace UCall) string :=
  if bool_decide (st_UpgradeHeight state = 0)%Z then done_with ResumableStageWaitingForHeight
  else
    do! chainStatus := DetectChainStatus in
    do! currentHeight := (if bool_decide (chainStatus ≠ "unreachable") then
                            do! h := try_height in done_with (default 0%Z h)
                          else done_with 0%Z) in
    done_with (
      if bool_decide (chainStatus = "halted") then ResumableStageChainHalted
      else if bool_decide (chainStatus = "running") then
        if bool_decide (currentHeight < st_UpgradeHeight state)%Z then ResumableStageWaitingForHeight
        else if bool_decide (st_NodeSwitches state ≠ []) then
          if forallb sw_Switched (st_NodeSwitches state) then ResumableStageVerifyingResume
          else ResumableStageSwitchingBinary
        else ResumableStageSwitchingBinary
      else if bool_decide (st_Stage state = ResumableStageWaitingForHeight) then ResumableStageChainHalted
      else st_Stage state).

Definition detectGovPathStage (state : UpgradeState) : M (Trace UCall) string :=
  if bool_decide (st_ProposalID state = 0)%Z then done_with ResumableStageInitialized
  else
    do! r := DetectProposalStatus (st_ProposalID state) in
    match r with
    | Returns proposalStatus =>
        if bool_decide (proposalStatus = "pending") then done_with ResumableStageProposalSubmitted
        else if bool_decide (proposalStatus = "voting") then done_with ResumableStageVoting
        else if bool_decide (proposalStatus = "rejected") then done_with ResumableStageProposalRejected
        else if bool_decide (proposalStatus = "failed") then done_with ResumableStageFailed
        else if bool_decide (proposalStatus = "passed") then detectPostPassedStage state
        else done_with (st_Stage state)
    | _ => done_with (st_Stage state)
    end.

(** For a state that is given, no error is returned. *)
Definition DetectCurrentStage (state : UpgradeState) : M (Trace UCall) string :=
  if st_SkipGovernance state then detectSkipGovStage state else detectGovPathStage state.
End detector.

(** ** Resuming ([resume.go]) *)

Record ResumeOptions := mkResumeOptions {
  ro_ForceRestart : bool;
  ro_ResumeFrom : string;
  ro_ClearState : bool;
  ro_ShowStatus : bool
}.

Record ResumeResult := mkResumeResult {
  rr_Resumed : bool;
  rr_State : option UpgradeState;
  rr_UpgradeOutput : option ExecuteUpgradeOutput;
  rr_Message : string
}.

Section resume.
Context {F : Type} `{UpgradeStateManager F} `{Ethereum}.
Variable w : World.
Variable json_string : string → string.
Variable fuel : nat.
Abbreviation R := (M (UState F)).

(** Saving the state as it is. *)
Definition save_as_is : R (option error) :=
  do! s := the_state in
  do! ' (err, s) := onDisk (SaveState s) in
  run! set_state (λ _, s) in
  run! onU (note (USaveState s err)) in
  done_with err.

(** A transition without the checks of [transitionAndSave], and saving it. *)
Definition move (target reason : string) : R (option error) :=
  do! now := onU (read_clock w) in
  do! s := the_state in
  match TransitionTo now (Some s) target reason with
  | Err e => done_with (Some (Wrap ("failed to transition to " +:+ target) e))
  | Ok s =>
      run! set_state (λ _, s) in
      do! err := save_as_is in
      done_with (match err with
        | Some e => Some (Wrap "failed to save state after override" e)
        | None => None
        end)
  end.

(** Taking the stage from the chain; failures are only logged. *)
Definition reconcile (reason : string) : R unit :=
  do! s := the_state in
  do! detectedStage := onU (DetectCurrentStage w s) in
  if bool_decide (detectedStage ≠ st_Stage s) && CanTransition (st_Stage s) detectedStage
  then run! move detectedStage reason in done_with tt
  else done_with tt.

(** The stage that the caller asks for. *)
Definition override (target : string) : R (option error) :=
  do! s := the_state in
  if negb (CanTransition (st_Stage s) target) && bool_decide (st_Stage s ≠ target)
  then done_with (Some (Errorf ("cannot resume from " +:+ target +:+ " (current stage: " +:+
                                st_Stage s +:+ ")")))
  else if bool_decide (st_Stage s ≠ target) then move target "manual override via --resume-from"
  else done_with None.

Definition not_resumed (state : option UpgradeState) (msg : string) : R (outcome ResumeResult) :=
  ret (mkResumeResult false state None msg).

Definition resume_from (input : ExecuteUpgradeInput) (options : ResumeOptions) : R (outcome ResumeResult) :=
  do! err := (if bool_decide (ro_ResumeFrom options ≠ "") then override (ro_ResumeFrom options)
              else run! reconcile "detected from chain state" in done_with None) in
  match err with
  | Some e => fail e
  | None =>
      do! s := the_state in
      if bool_decide (st_Stage s = ResumableStageProposalRejected) then
        not_resumed (Some s) "Governance proposal was rejected during interruption"
      else if bool_decide (st_Stage s = ResumableStageFailed) then
        not_resumed (Some s) ("Upgrade failed: " +:+ st_Error s)
      else if bool_decide (st_Stage s = ResumableStageCompleted) then
        not_resumed (Some s) "Upgrade already completed"
      else
        try! ' (out, err) := Execute w json_string fuel input (Some s) in
        match err with
        | Some e => fail (Wrap "resume execution failed" e)
        | None =>
            do! s := the_state in
            ret (mkResumeResult true (Some s) out "Upgrade resumed and completed")
        end
  end.

Definition Resume (input : ExecuteUpgradeInput) (options : ResumeOptions) : R (outcome ResumeResult) :=
  if ro_ClearState options then
    do! err := deleteState in
    match err with
    | Some e => fail (Wrap "failed to clear state" e)
    | None => not_resumed None "State cleared successfully"
    end
  else
    do! r := onDisk LoadState in
    match r with
    | inl (StateCorruptionError reason) =>
        fail (Errorf ("state file is corrupted: " +:+ reason +:+ " (use --clear-state to remove)"))
    | inl (OtherError e) => fail (Wrap "failed to load state" e)
    | inr state =>
        if ro_ShowStatus options then not_resumed state "Current upgrade state"
        else if ro_ForceRestart options then
          run! (match state with
                | Some _ => run! deleteState in done_with tt
                | None => done_with tt
                end) in
          not_resumed None "Starting fresh (--force-restart)"
        else
          match state with
          | None => not_resumed None "No existing upgrade state found"
          | Some s =>
              match ValidateState s with
              | Some e => fail (Errorf ("invalid state: " +:+ Error (to_error e) +:+
                                        " (use --clear-state to remove)"))
              | None =>
                  if IsTerminal (st_Stage s) then
                    not_resumed (Some s) ("Previous upgrade is in terminal state: " +:+ st_Stage s)
                  else run! set_state (λ _, s) in resume_from input options
              end
          end
    end.

(** [Reconcile] answers the state, if there is one. *)
Definition Reconcile : R (result (option UpgradeState)) :=
  do! r := onDisk LoadState in
  match r with
  | inl e => done_with (Err (Wrap "failed to load state" (to_error e)))
  | inr None => done_with (Ok None)
  | inr (Some s) =>
      run! set_state (λ _, s) in
      run! reconcile "reconciliation" in
      do! s := the_state in
      done_with (Ok (Some s))
  end.

(** ** The command ([manage/upgrade.go]) *)

Record Flags := mkFlags {
  upgradeResume : bool;
  upgradeForceRestart : bool;
  upgradeResumeFrom : string
}.

Definition isValidStage (stage : string) : bool := bool_decide (stage ∈ stages).

Definition checkForExistingUpgradeState (flags : Flags) (jsonMode : bool) :
    R (result (option UpgradeState)) :=
  let failed msg := done_with (Err (Errorf msg)) in
  do! r := onDisk LoadState in
  match r with
  | inl (StateCorruptionError reason) =>
      if jsonMode then
        failed ("upgrade state is corrupted: " +:+ Error (to_error (StateCorruptionError reason)) +:+
                " (use --clear-state to remove)")
      else failed "upgrade state is corrupted"
  | inl (OtherError e) => done_with (Err (Wrap "failed to load state" e))
  | inr None =>
      if upgradeResume flags then failed "no upgrade in progress to resume" else done_with (Ok None)
  | inr (Some state) =>
      if upgradeForceRestart flags then run! deleteState in done_with (Ok None)
      else if IsTerminal (st_Stage state) then
        if bool_decide (st_Stage state = ResumableStageCompleted)
        then failed "previous upgrade completed (use --force-restart to start a new upgrade)"
        else failed "previous upgrade failed (use --force-restart to start a new upgrade)"
      else if negb (upgradeResume flags) then
        failed "upgrade already in progress (use --resume to continue)"
      else if bool_decide (upgradeResumeFrom flags ≠ "") then
        if isValidStage (upgradeResumeFrom flags)
        then done_with (Ok (Some (state <| st_Stage := upgradeResumeFrom flags |>)))
        else failed ("invalid stage: " +:+ upgradeResumeFrom flags)
      else done_with (Ok (Some state))
  end.

(** What [runUpgrade] does once its input is known. *)
Definition run_command (flags : Flags) (jsonMode : bool) (input : ExecuteUpgradeInput) : R (outcome answer) :=
  do! r := checkForExistingUpgradeState flags jsonMode in
  match r with
  | Err e => ret (None, Some e)
  | Ok resumeState => Execute w json_string fuel input resumeState
  end.
End resume.

(** ** What the chain says about the stage

    The detector as a relation between the questions that were asked, with their
    answers, and the stage that they show. *)

(** What two looks at the height, two seconds apart, say about the chain. *)
Inductive chain_seen : list UCall → string → Prop :=
| seen_stopped : chain_seen [URunning false] "unreachable"
| seen_no_height e : chain_seen [URunning true; UHeight (Err e)] "unreachable"
| seen_interrupted h e :
    chain_seen [URunning true; UHeight (Ok h); USleep (2 * second) (Some e)] "halted"
| seen_height_lost h e :
    chain_seen [URunning true; UHeight (Ok h); USleep (2 * second) None; UHeight (Err e)] "unreachable"
| seen_still h1 h2 : (h2 ≤ h1)%Z →
    chain_seen [URunning true; UHeight (Ok h1); USleep (2 * second) None; UHeight (Ok h2)] "halted"
| seen_growing h1 h2 : (h1 < h2)%Z →
    chain_seen [URunning true; UHeight (Ok h1); USleep (2 * second) None; UHeight (Ok h2)] "running".

(** The stages of a proposal that has not passed. *)
Definition open_stages : gmap string string :=
  {[ProposalStatusPending := ResumableStageProposalSubmitted; ProposalStatusVoting := ResumableStageVoting;
    ProposalStatusRejected := ResumableStageProposalRejected; ProposalStatusFailed := ResumableStageFailed]}.

(** All nodes of the state were switched, and there are some. *)
Definition all_switched (k : UpgradeState) : Prop :=
  st_NodeSwitches k ≠ [] ∧ Forall (λ n, sw_Switched n = true) (st_NodeSwitches k).
#[local] Instance all_switched_dec k : Decision (all_switched k).
Proof. apply _. Defined.

Definition switch_stage (k : UpgradeState) : string :=
  if decide (all_switched k) then ResumableStageVerifyingResume else ResumableStageSwitchingBinary.

(** The stage after the proposal has passed. *)
Inductive passed_stage (k : UpgradeState) : list UCall → string → Prop :=
| passed_no_height : st_UpgradeHeight k = 0%Z → passed_stage k [] ResumableStageWaitingForHeight
| passed_unreachable l :
    st_UpgradeHeight k ≠ 0%Z → chain_seen l "unreachable" →
    passed_stage k l (if decide (st_Stage k = ResumableStageWaitingForHeight)
                      then ResumableStageChainHalted else st_Stage k)
| passed_halted l r :
    st_UpgradeHeight k ≠ 0%Z → chain_seen l "halted" →
    passed_stage k (l ++ [UHeight r]) ResumableStageChainHalted
| passed_below l r :
    st_UpgradeHeight k ≠ 0%Z → chain_seen l "running" → (default 0 (ok_of r) < st_UpgradeHeight k)%Z →
    passed_stage k (l ++ [UHeight r]) ResumableStageWaitingForHeight
| passed_reached l r :
    st_UpgradeHeight k ≠ 0%Z → chain_seen l "running" → (st_UpgradeHeight k ≤ default 0 (ok_of r))%Z →
    passed_stage k (l ++ [UHeight r]) (switch_stage k).

Inductive detected (k : UpgradeState) : list UCall → string → Prop :=
| skip_new : st_SkipGovernance k = true → st_NodeSwitches k = [] → detected k [] ResumableStageInitialized
| skip_switching :
    st_SkipGovernance k = true → st_NodeSwitches k ≠ [] → ¬ all_switched k →
    detected k [] ResumableStageSwitchingBinary
| skip_switched l chain :
    st_SkipGovernance k = true → all_switched k → chain_seen l chain →
    detected k l (if decide (chain = "running") then ResumableStageVerifyingResume
                  else ResumableStageSwitchingBinary)
| not_proposed : st_SkipGovernance k = false → st_ProposalID k = 0%Z → detected k [] ResumableStageInitialized
| proposal_unreadable e :
    st_SkipGovernance k = false → st_ProposalID k ≠ 0%Z →
    detected k [UProposal (st_ProposalID k) (Err e)] (st_Stage k)
| proposal_open status :
    st_SkipGovernance k = false → st_ProposalID k ≠ 0%Z → status ≠ ProposalStatusPassed →
    detected k [UProposal (st_ProposalID k) (Ok status)] (default (st_Stage k) (open_stages !! status))
| proposal_passed l stage :
    st_SkipGovernance k = false → st_ProposalID k ≠ 0%Z → passed_stage k l stage →
    detected k (UProposal (st_ProposalID k) (Ok ProposalStatusPassed) :: l) stage.

(** A run of the detector, and what it asked. *)
Definition asks (P : list UCall → string → Prop) (t : Trace UCall) (p : string * Trace UCall) : Prop :=
  ∃ l, es_calls p.2 = es_calls t ++ l ∧ P l p.1.

Section detection.
Context `{Ethereum} (w : World).

Lemma asks_nothing (P : list UCall → string → Prop) t a : P [] a → asks P t (a, t).
Proof. intros HP. exists []. by rewrite app_nil_r. Qed.

Lemma DetectChainStatus_seen t : asks chain_seen t (DetectChainStatus w t).
Proof.
  unfold DetectChainStatus, try_height, bindM, ask_env, done_with.
  destruct (w_IsChainRunning w _); [|by eexists; split; [reflexivity|constructor]].
  cbn [es_calls]. destruct (w_GetBlockHeight w _) as [h1|e]; cbn [ok_of];
    [|eexists; split; [by rewrite <- (assoc_L app)|constructor]].
  cbn [es_calls]. destruct (w_sleep w _ _);
    [eexists; split; [by rewrite <- !(assoc_L app)|constructor]|].
  cbn [es_calls]. destruct (w_GetBlockHeight w _) as [h2|e]; cbn [ok_of];
    [|eexists; split; [by rewrite <- !(assoc_L app)|constructor]].
  eexists; split; [by rewrite <- !(assoc_L app)|]. simpl. case_bool_decide; constructor; lia.
Qed.

Lemma all_switched_iff k : st_NodeSwitches k ≠ [] →
  forallb sw_Switched (st_NodeSwitches k) = true ↔ all_switched k.
Proof.
  intros Hn. unfold all_switched. rewrite Forall_forall, forallb_forall.
  setoid_rewrite list_elem_of_In. tauto.
Qed.

Lemma detectSkipGovStage_detected k t :
  st_SkipGovernance k = true → asks (detected k) t (detectSkipGovStage w k t).
Proof.
  intros Hk. unfold detectSkipGovStage. destruct (st_NodeSwitches k) as [|n ns] eqn:E;
    [by apply asks_nothing, skip_new|].
  assert (Hne : st_NodeSwitches k ≠ []) by (by rewrite E). pose proof (all_switched_iff k Hne) as Ha.
  rewrite <- E. destruct (negb (existsb _ _)) eqn:Hex.
  - apply asks_nothing, skip_switching; [done..|]. intros [_ Hall]. apply negb_true_iff in Hex.
    rewrite E in Hall, Hex. apply Forall_cons in Hall as [Hall _]. simpl in Hex. by rewrite Hall in Hex.
  - destruct (forallb _ _).
    + rewrite bindM_eq. destruct (DetectChainStatus_seen t) as (l & El & Hl).
      destruct (DetectChainStatus w t) as [chain t']. exists l. split; [exact El|]. simpl in *.
      pose proof (skip_switched k l chain Hk (proj1 Ha eq_refl) Hl) as Hd.
      by destruct (decide (chain = "running")) as [->|]; [|rewrite bool_decide_false by done].
    + apply asks_nothing, skip_switching; [done..|]. intros Hall%Ha. done.
Qed.

Lemma detectPostPassedStage_passed k t : asks (passed_stage k) t (detectPostPassedStage w k t).
Proof.
  unfold detectPostPassedStage. case_bool_decide as Hh; [by apply asks_nothing, passed_no_height|].
  rewrite bindM_eq. destruct (DetectChainStatus_seen t) as (l & El & Hl).
  destruct (DetectChainStatus w t) as [chain t']. simpl in El, Hl. cbn [fst snd]. rewrite bindM_eq.
  destruct (decide (chain = "unreachable")) as [->|Hu].
  { rewrite (bool_decide_false (_ ≠ _)) by tauto. exists l. split; [exact El|]. simpl.
    pose proof (passed_unreachable k l Hh Hl) as Hp. by destruct (decide (st_Stage k = _)) as [E|E];
      [rewrite bool_decide_true|rewrite bool_decide_false]. }
  rewrite (bool_decide_true (_ ≠ _)) by done. unfold try_height, bindM, ask_env, done_with.
  set (r := w_GetBlockHeight w (es_calls t')). exists (l ++ [UHeight r]).
  split; [simpl; by rewrite El, (assoc_L app)|]. cbn [fst].
  assert (Hc : chain = "halted" ∨ chain = "running") by (by inversion Hl; subst; auto).
  destruct Hc as [->| ->]; simpl; [by apply passed_halted|].
  case_bool_decide; [by apply passed_below|].
  replace (if bool_decide (st_NodeSwitches k ≠ []) then _ else _) with (switch_stage k);
    [apply passed_reached; [done..|lia]|].
  unfold switch_stage. case_bool_decide as Hn.
  - pose proof (all_switched_iff k Hn) as Ha.
    destruct (forallb _ _); [rewrite decide_True|rewrite decide_False]; naive_solver.
  - rewrite decide_False; [done|]. by intros [? _].
Qed.

Lemma DetectCurrentStage_detected k t : asks (detected k) t (DetectCurrentStage w k t).
Proof.
  unfold DetectCurrentStage. destruct (st_SkipGovernance k) eqn:Hk; [by apply detectSkipGovStage_detected|].
  unfold detectGovPathStage. case_bool_decide as Hid; [by apply asks_nothing, not_proposed|].
  rewrite bindM_eq. unfold DetectProposalStatus. rewrite bool_decide_false by done. rewrite bindE_eq.
  unfold wrapping, call, bindM, ask_env, done_with.
  destruct (w_GetProposal w _ _) as [status|e]; cbn [fst snd];
    [|by eexists; split; [|by constructor]].
  destruct (decide (status = ProposalStatusPassed)) as [->|Hp].
  - cbn [ret done_with]. simpl. set (t1 := mkEState _ _).
    destruct (detectPostPassedStage_passed k t1) as (l & El & Hl).
    destruct (detectPostPassedStage w k t1) as [stage t']. simpl in El, Hl.
    eexists. split; [simpl; rewrite El; simpl; by rewrite <- (assoc_L app)|]. by constructor.
  - exists [UProposal (st_ProposalID k) (Ok status)].
    pose proof (proposal_open k status Hk Hid Hp) as Hd. unfold ret, done_with.
    destruct (decide (status = ProposalStatusVoting)) as [->|?]; [by split|].
    destruct (decide (status = ProposalStatusRejected)) as [->|?]; [by split|].
    destruct (decide (status = ProposalStatusFailed)) as [->|?]; [by split|].
    destruct (decide (status = ProposalStatusPending)) as [->|?]; [by split|].
    rewrite !(bool_decide_false (status = _)) by done. split; [done|]. simpl.
    revert Hd. unfold open_stages. by rewrite !lookup_insert_ne, lookup_singleton_ne by done.
Qed.
End detection.

(** A state that took one transition. *)
Definition moved_on (k s : UpgradeState) : Prop :=
  identity s = identity k ∧ CanTransition (st_Stage k) (st_Stage s) = true ∧
  ∃ t r, st_StageHistory s = st_StageHistory k ++ [mkStageTransition (st_Stage k) (st_Stage s) t r].

Section resumption.
Context {F : Type} `{StateManagerLaws F} `{Ethereum}.
Context (w : World) (js : string → string) (fuel : nat).

Lemma move_spec target reason (u : UState F) :
  CanTransition (st_Stage (u_state u)) target = true →
  let '(_, u') := move w target reason u in
  st_Stage (u_state u') = target ∧ moved_on (u_state u) (u_state u') ∧
  ∃ e, es_calls (u_trace u') = es_calls (u_trace u) ++ [USaveState (u_state u') e].
Proof.
  intros Hc. unfold move. rewrite bindM_eq. cbn [onU read_clock now_at fst snd].
  rewrite bindM_eq. cbn [the_state getM fst snd]. unfold TransitionTo. cbn [u_state set].
  rewrite Hc. set (now := w_clock w _).
  destruct (record_transition_fields now (u_state u) target reason) as (Es & _ & Eh & Ef).
  revert Es Eh Ef. generalize (record_transition now (u_state u) target reason). intros s1 Es Eh Ef.
  rewrite bindM_eq. cbn [set_state modifyM fst snd]. rewrite bindM_eq. unfold save_as_is, onDisk.
  rewrite bindM_eq. cbn [the_state getM fst snd]. rewrite bindM_eq. simpl.
  destruct (save_checksum s1 (u_disk u)) as [c Hcs].
  destruct (SaveState s1 (u_disk u)) as [[e s'] d']. simpl in Hcs. subst s'. simpl.
  split; [done|]. split; [|by exists e]. split_and!.
  - rewrite Ef. done.
  - simpl. by rewrite Es.
  - exists now, reason. simpl. by rewrite Eh, Es.
Qed.

(** Taking a stage: one saved transition if it is another one that can be reached,
    and nothing otherwise. *)
Definition shifted (k : UpgradeState) (target : string) (saved : list UCall) (s : UpgradeState) : Prop :=
  if decide (target ≠ st_Stage k ∧ CanTransition (st_Stage k) target = true)
  then st_Stage s = target ∧ moved_on k s ∧ ∃ e, saved = [USaveState s e]
  else s = k ∧ saved = [].

(** The stage that the caller names cannot be reached, or was not saved. *)
Definition refused (k : UpgradeState) (target : string) (saved : list UCall) : Prop :=
  (target ≠ st_Stage k ∧ CanTransition (st_Stage k) target = false) ∨
  ∃ s e, saved = [USaveState s (Some e)].

Definition told (options : ResumeOptions) : bool := negb (bool_decide (ro_ResumeFrom options = "")).

(** Where a resumption goes on from, and what it asked and saved to find out. *)
Definition positioned (options : ResumeOptions) (k : UpgradeState) (asked saved : list UCall)
    (s : UpgradeState) : Prop :=
  if told options then asked = [] ∧ shifted k (ro_ResumeFrom options) saved s
  else ∃ stage, detected k asked stage ∧ shifted k stage saved s.

Lemma shifted_moved_on k target saved s : shifted k target saved s → s = k ∨ moved_on k s.
Proof. unfold shifted. destruct (decide _); naive_solver. Qed.

Lemma positioned_moved_on options k asked saved s :
  positioned options k asked saved s → s = k ∨ moved_on k s.
Proof.
  unfold positioned. destruct (told options); [intros [_ Hs]|intros (stage & _ & Hs)];
    by eapply shifted_moved_on.
Qed.

Lemma move_answer target reason (u : UState F) :
  CanTransition (st_Stage (u_state u)) target = true →
  let '(r, u') := move w target reason u in
  ∃ e, es_calls (u_trace u') = es_calls (u_trace u) ++ [USaveState (u_state u') e] ∧
    (r = None ↔ e = None).
Proof.
  intros Hc. unfold move. rewrite bindM_eq. cbn [onU read_clock now_at fst snd].
  rewrite bindM_eq. cbn [the_state getM fst snd]. unfold TransitionTo. cbn [u_state set].
  rewrite Hc. generalize (record_transition (w_clock w (es_ticks (u_trace u))) (u_state u) target reason).
  intros s1. rewrite bindM_eq. cbn [set_state modifyM fst snd]. rewrite bindM_eq. unfold save_as_is, onDisk.
  rewrite bindM_eq. cbn [the_state getM fst snd]. rewrite bindM_eq. simpl.
  destruct (SaveState s1 (u_disk u)) as [[e s'] d']. simpl. exists e. by destruct e.
Qed.

Lemma reconcile_positioned k reason u :
  u_state u = k →
  let '(_, u') := reconcile w reason u in
  ∃ asked stage saved, es_calls (u_trace u') = es_calls (u_trace u) ++ asked ++ saved ∧
    detected k asked stage ∧ shifted k stage saved (u_state u').
Proof.
  intros Hk. unfold reconcile. rewrite bindM_eq. cbn [the_state getM fst snd]. rewrite Hk.
  rewrite bindM_eq. unfold onU. destruct (DetectCurrentStage_detected w k (u_trace u)) as (l & El & Hd).
  destruct (DetectCurrentStage w k (u_trace u)) as [stage t]. simpl in El, Hd. cbn [fst snd].
  set (u1 := set u_trace _ u). unfold shifted.
  destruct (bool_decide (stage ≠ st_Stage k) && CanTransition (st_Stage k) stage) eqn:Hc.
  - apply andb_true_iff in Hc as [Hne%bool_decide_eq_true Hc]. rewrite bindM_eq.
    pose proof (move_spec stage reason u1) as Hm. change (u_state u1) with (u_state u) in Hm.
    rewrite Hk in Hm. specialize (Hm Hc). destruct (move w stage reason u1) as [r u'].
    destruct Hm as (Hs & Hm & e & Ee). exists l, stage, [USaveState (u_state u') e]. simpl.
    rewrite Ee. simpl. rewrite El, (assoc_L app). rewrite decide_True by done.
    split_and!; [done..|]. by exists e.
  - exists l, stage, []. rewrite app_nil_r. rewrite decide_False; [by split_and!|].
    intros [Hne Hc']. by rewrite Hc', bool_decide_true in Hc.
Qed.

Lemma override_positioned k target u :
  u_state u = k →
  let '(e, u') := override w target u in
  ∃ saved, es_calls (u_trace u') = es_calls (u_trace u) ++ saved ∧
    shifted k target saved (u_state u') ∧ (e = None ↔ ¬ refused k target saved).
Proof.
  intros Hk. unfold override, shifted, refused. rewrite bindM_eq. cbn [the_state getM fst snd]. rewrite Hk.
  destruct (CanTransition (st_Stage k) target) eqn:Hc; simpl.
  - case_bool_decide as Hne.
    + pose proof (move_spec target "manual override via --resume-from" u) as Hm. rewrite Hk in Hm.
      pose proof (move_answer target "manual override via --resume-from" u) as Ha. rewrite Hk in Ha.
      specialize (Hm Hc). specialize (Ha Hc). destruct (move w target _ u) as [r u'].
      destruct Hm as (Hs & Hm & _). destruct Ha as (e & Ee & Hr).
      exists [USaveState (u_state u') e]. rewrite decide_True by done.
      split_and!; [done..|by exists e|]. rewrite Hr.
      split; [intros ->; intros [[_ ?]|(s & e' & [=])]; congruence|].
      intros Hn. destruct e as [e|]; [|done]. destruct Hn. right. by eexists _, _.
    + exists []. rewrite app_nil_r, decide_False by naive_solver.
      split_and!; [done..|]. split; [|done]. intros _ [[_ ?]|(s & e & [=])]; congruence.
  - case_bool_decide as Hne; exists []; rewrite app_nil_r, decide_False by naive_solver;
      (split_and!; [done..|]).
    + split; [done|]. intros Hn. destruct Hn. left. naive_solver.
    + split; [|done]. intros _ [[? _]|(s & e & [=])]. naive_solver.
Qed.

Lemma moved_on_recorded k s : recorded k → moved_on k s → recorded s ∧ rank (st_Stage s) < rank (st_Stage k).
Proof.
  intros Hk (_ & Hc & t & r & Hh). split; [|by apply rank_decreases].
  unfold recorded in *. rewrite Hh. by constructor.
Qed.

(** The run of the upgrade at the end of a resumption. *)
Lemma run_on input s (u : UState F) :
  let '(r, u') := Execute w js fuel input (Some s) u in
  ∃ l, es_calls (u_trace u') = es_calls (u_trace u) ++ l ∧
    staged (negb (in_SkipGovernance input)) s l ∧ ended r (kept s l) (u_state u') ∧
    (Forall keepable_call l → on_disk (u_disk u') = foldl found (on_disk (u_disk u)) l).
Proof.
  pose proof (runs_Execute w js fuel input (Some s) u) as Hr.
  destruct (Execute w js fuel input (Some s) u) as [r u'].
  destruct Hr as (k & (l & El & Hl & <- & Hd) & He). by exists l.
Qed.

(** What follows once the stage is known: the upgrade is run from the state [s], or
    not at all if its stage is terminal. *)
Definition carried_on (input : ExecuteUpgradeInput) (s : UpgradeState) (u : UState F)
    (p : outcome ResumeResult * UState F) : Prop :=
  if IsTerminal (st_Stage s) then ∃ msg, p = (Returns (mkResumeResult false (Some s) None msg), u)
  else
    let '(x, u') := Execute w js fuel input (Some s) u in
    p.2 = u' ∧
    p.1 = match x with
          | Returns (out, None) =>
              Returns (mkResumeResult true (Some (u_state u')) out "Upgrade resumed and completed")
          | Returns (_, Some e) => Fails (Wrap "resume execution failed" e)
          | Fails e => Fails e
          | Panics => Panics
          | Unfinished => Unfinished
          end.

(** A resumption from the valid state [k] whose stage is not terminal. *)
Definition resumption_of (input : ExecuteUpgradeInput) (options : ResumeOptions) (k : UpgradeState)
    (u : UState F) (p : outcome ResumeResult * UState F) : Prop :=
  ∃ asked saved u1, es_calls (u_trace u1) = es_calls (u_trace u) ++ asked ++ saved ∧
    positioned options k asked saved (u_state u1) ∧
    ((told options = true ∧ refused k (ro_ResumeFrom options) saved ∧ p.2 = u1 ∧ ∃ e, p.1 = Fails e) ∨
     ((told options = true → ¬ refused k (ro_ResumeFrom options) saved) ∧
      carried_on input (u_state u1) u1 p)).

Lemma refused_dec k target saved : refused k target saved ∨ ¬ refused k target saved.
Proof.
  assert (Hs : (∃ s e, saved = [USaveState s (Some e)]) ∨ ¬ ∃ s e, saved = [USaveState s (Some e)]).
  { destruct saved as [|c []]; [right; by intros (? & ? & ?)| |right; by intros (? & ? & ?)].
    destruct c; try (right; by intros (? & ? & ?)).
    destruct answer; [left; by eexists _, _|right; by intros (? & ? & ?)]. }
  unfold refused. destruct (decide (target ≠ st_Stage k ∧ CanTransition (st_Stage k) target = false)); tauto.
Qed.

Lemma resume_from_spec input options k u :
  u_state u = k → resumption_of input options k u (resume_from w js fuel input options u).
Proof.
  intros Hk. unfold resume_from. rewrite bindM_eq.
  set (first := if bool_decide (ro_ResumeFrom options ≠ "") then _ else _).
  assert (Hp : ∃ asked saved, es_calls (u_trace (first u).2) = es_calls (u_trace u) ++ asked ++ saved ∧
    positioned options k asked saved (u_state (first u).2) ∧
    ((first u).1 = None ↔ (told options = true → ¬ refused k (ro_ResumeFrom options) saved))).
  { unfold first, positioned, told. destruct (decide (ro_ResumeFrom options = "")) as [E|E].
    - rewrite (bool_decide_false (_ ≠ _)), bool_decide_true by tauto. simpl.
      pose proof (reconcile_positioned k "detected from chain state" u Hk) as Hr.
      rewrite bindM_eq. destruct (reconcile w _ u) as [r u']. destruct Hr as (asked & stage & saved & El & Hd & Hs).
      exists asked, saved. split_and!; [done|by exists stage|done].
    - rewrite (bool_decide_true (_ ≠ _)), bool_decide_false by done. simpl.
      pose proof (override_positioned k (ro_ResumeFrom options) u Hk) as Hr.
      destruct (override w _ u) as [e u']. destruct Hr as (saved & El & Hs & He). exists [], saved.
      split_and!; [done..|]. simpl. rewrite He. tauto. }
  clearbody first. destruct (first u) as [e u1]. destruct Hp as (asked & saved & El & Hpos & He).
  cbn [fst snd] in *. exists asked, saved, u1. split; [|split; [done|]].
  { destruct e as [e|]; [done|]. done. }
  destruct e as [e|].
  { left. destruct (told options); [|by destruct He as [_ He]; specialize (He ltac:(done))].
    split; [done|]. destruct (refused_dec k (ro_ResumeFrom options) saved) as [Hr|Hr];
      [by eauto|]. by destruct He as [_ He]; specialize (He (λ _, Hr)). }
  right. split; [by apply He|]. unfold carried_on, IsTerminal. rewrite bindM_eq.
  cbn [the_state getM fst snd].
  destruct (decide (st_Stage (u_state u1) = ResumableStageProposalRejected)) as [E|Hrej];
    [rewrite E; by eexists|].
  destruct (decide (st_Stage (u_state u1) = ResumableStageFailed)) as [E|Hfail]; [rewrite E; by eexists|].
  destruct (decide (st_Stage (u_state u1) = ResumableStageCompleted)) as [E|Hcomp]; [rewrite E; by eexists|].
  rewrite !bool_decide_false by done. cbn [orb]. rewrite bindE_eq.
  destruct (Execute w js fuel input (Some (u_state u1)) u1) as [[[out [e|]]|e| |] u2]; by split.
Qed.

Lemma Resume_spec input options k (u : UState F) :
  (LoadState (u_disk u)).1 = inr (Some k) →
  ro_ClearState options = false → ro_ShowStatus options = false → ro_ForceRestart options = false →
  let p := Resume w js fuel input options u in
  let nothing := es_calls (u_trace p.2) = es_calls (u_trace u) in
  match ValidateState k with
  | Some _ => nothing ∧ ∃ e, p.1 = Fails e
  | None =>
      if IsTerminal (st_Stage k) then nothing ∧ ∃ msg, p.1 = Returns (mkResumeResult false (Some k) None msg)
      else resumption_of input options k u p
  end.
Proof.
  intros Hload Hc Hs Hf. cbv zeta. unfold Resume. rewrite Hc, bindM_eq. unfold onDisk.
  destruct (LoadState (u_disk u)) as [a d] eqn:El. simpl in Hload. subst a. cbn [fst snd].
  rewrite Hs, Hf. set (u1 := set u_disk _ u).
  destruct (ValidateState k) as [e|]; [split; [done|by eexists]|].
  destruct (IsTerminal (st_Stage k)); [split; [done|by eexists]|].
  rewrite bindM_eq. cbn [set_state modifyM fst snd].
  exact (resume_from_spec input options k (set u_state (λ _, k) u1) eq_refl).
Qed.

(** What the run does after the stage is known. *)
Lemma carried_on_run input s (u : UState F) r u' :
  u_state u = s → carried_on input s u (r, u') →
  ∃ run, es_calls (u_trace u') = es_calls (u_trace u) ++ run ∧
    staged (negb (in_SkipGovernance input)) s run ∧
    ∀ res, r = Returns res → rr_Resumed res = true →
      st_Stage (kept s run) = ResumableStageCompleted ∧ rr_State res = Some (u_state u') ∧
      ∃ out, rr_UpgradeOutput res = Some out ∧ eu_Success out = true.
Proof.
  intros Hs. unfold carried_on. destruct (IsTerminal (st_Stage s)).
  { intros (msg & [= -> ->]). exists []. rewrite app_nil_r. split_and!; [done..|]. by intros res [= <-]. }
  pose proof (run_on input s u) as Hx. destruct (Execute w js fuel input (Some s) u) as [x u2].
  cbn [fst snd]. intros [-> ->]. destruct Hx as (run & El & Hl & He & _). exists run. split_and!; [done..|].
  destruct x as [[out [e|]]|e| |]; try done. intros res [= <-] _. simpl.
  destruct out as [out|]; [|done]. destruct He as [Ho Hc]. split_and!; [done..|]. by exists out.
Qed.

(** C19: Resuming goes on from the stage that the chain's answers show.  An invalid saved
    state is an error and a terminal one is reported, both without a call.  Otherwise the
    caller names the stage or it is detected, and [detected] says from which questions
    and answers which stage follows: for an upgrade with governance, the status of its
    proposal and, once that has passed, two looks at the height two seconds apart and the
    height against the one of the upgrade; for one without, the recorded switches of the
    nodes and, when all are done, the two looks; where these show nothing, the saved
    stage.  With a stage named by the caller nothing is asked, and the resumption fails,
    without running anything, if that stage cannot be reached by one transition or not be
    saved; a detected stage that cannot be reached is ignored.  So the saved state takes
    at most one saved transition of the stage machine: it stays one of the same upgrade,
    its history leads to its stage, and its stage is the same or a later one.  Then the
    upgrade is run from there, or not at all if that stage is terminal; the answer is
    that of the run, what it calls is admissible stage by stage, and that the upgrade was
    resumed is reported only when it ran to Completed. *)
Theorem Resume_continues_the_upgrade input options k (u : UState F) :
  (LoadState (u_disk u)).1 = inr (Some k) → recorded k →
  ro_ClearState options = false → ro_ShowStatus options = false → ro_ForceRestart options = false →
  let '(r, u') := Resume w js fuel input options u in
  let nothing := es_calls (u_trace u') = es_calls (u_trace u) in
  match ValidateState k with
  | Some _ => nothing ∧ ∃ e, r = Fails e
  | None =>
      if IsTerminal (st_Stage k) then nothing ∧ ∃ msg, r = Returns (mkResumeResult false (Some k) None msg)
      else ∃ asked saved run s u1,
        es_calls (u_trace u1) = es_calls (u_trace u) ++ asked ++ saved ∧ u_state u1 = s ∧
        es_calls (u_trace u') = es_calls (u_trace u1) ++ run ∧
        positioned options k asked saved s ∧
        identity s = identity k ∧ recorded s ∧ rank (st_Stage s) ≤ rank (st_Stage k) ∧
        ((told options = true ∧ refused k (ro_ResumeFrom options) saved ∧ run = [] ∧ ∃ e, r = Fails e) ∨
         ((told options = true → ¬ refused k (ro_ResumeFrom options) saved) ∧
          carried_on input s u1 (r, u') ∧ (IsTerminal (st_Stage s) = true → run = []) ∧
          (∀ l c l', run = l ++ c :: l' → admissible (negb (in_SkipGovernance input)) (kept s l) c) ∧
          ∀ res, r = Returns res → rr_Resumed res = true →
            st_Stage (kept s run) = ResumableStageCompleted ∧ rr_State res = Some (u_state u') ∧
            ∃ out, rr_UpgradeOutput res = Some out ∧ eu_Success out = true))
  end.
Proof.
  intros Hload Hk Hc Hs Hf. pose proof (Resume_spec input options k u Hload Hc Hs Hf) as Hr.
  destruct (Resume w js fuel input options u) as [r u']. cbn [fst snd] in Hr.
  destruct (ValidateState k) as [e|]; [done|]. destruct (IsTerminal (st_Stage k)); [done|].
  destruct Hr as (asked & saved & u1 & El & Hpos & Hr). cbn [fst snd] in Hr.
  pose proof (positioned_moved_on _ _ _ _ _ Hpos) as Hm.
  assert (Hid : identity (u_state u1) = identity k ∧ recorded (u_state u1) ∧
    rank (st_Stage (u_state u1)) ≤ rank (st_Stage k)).
  { destruct Hm as [->|Hm]; [done|]. destruct (moved_on_recorded k _ Hk Hm). destruct Hm as [Hi _]. auto with lia. }
  destruct Hid as (Hi & Hrec & Hrank). destruct Hr as [(Ht & Href & -> & He)|(Hok & Hrun)].
  - exists asked, saved, [], (u_state u1), u1. rewrite app_nil_r. split_and!; try done. by left.
  - destruct (carried_on_run input _ u1 r u' eq_refl Hrun) as (run & Er & Hst & Hres).
    exists asked, saved, run, (u_state u1), u1. split_and!; try done. right. split_and!; try done.
    + intros Hterm. unfold carried_on in Hrun. rewrite Hterm in Hrun. destruct Hrun as (msg & [= _ ->]).
      rewrite <- (app_nil_r (es_calls (u_trace u1))) in Er at 1. by apply (inj (app _)) in Er.
    + intros l c l' ->. by eapply staged_call.
Qed.

(** ** The command *)

(** The upgrade that the command works on, and what it did for it before. *)
Definition decided (flags : Flags) (loaded : state_error + option UpgradeState) (k : UpgradeState)
    (before : list UCall) (input : ExecuteUpgradeInput) : Prop :=
  match loaded with
  | inr None => upgradeResume flags = false ∧ before = [] ∧ ∃ now, k = initial_state now input
  | inr (Some s) =>
      if upgradeForceRestart flags
      then (∃ e, before = [UDeleteState e]) ∧ ∃ now, k = initial_state now input
      else IsTerminal (st_Stage s) = false ∧ upgradeResume flags = true ∧ before = [] ∧
           k = (if bool_decide (upgradeResumeFrom flags = "") then s
                else s <| st_Stage := upgradeResumeFrom flags |>)
  | inl _ => False
  end.

Lemma check_spec flags jsonMode input (u : UState F) :
  let '(r, u') := checkForExistingUpgradeState flags jsonMode u in
  match r with
  | Err _ => u_trace u' = u_trace u ∧ on_disk (u_disk u') = on_disk (u_disk u)
  | Ok state => ∃ before, es_calls (u_trace u') = es_calls (u_trace u) ++ before ∧
      on_disk (u_disk u') = foldl found (on_disk (u_disk u)) before ∧
      decided flags (LoadState (u_disk u)).1 (upgrade_of w input state u') before input
  end.
Proof.
  unfold checkForExistingUpgradeState. rewrite bindM_eq. unfold onDisk.
  destruct (load_found (u_disk u)) as [Hd _].
  destruct (LoadState (u_disk u)) as [[e|[s|]] d]; simpl in Hd; cbn [fst snd].
  - destruct e; [by destruct jsonMode|done].
  - unfold decided. cbn [fst snd]. destruct (upgradeForceRestart flags).
    + rewrite bindM_eq. unfold deleteState, onDisk. rewrite bindM_eq. simpl.
      pose proof (delete_found d) as Hf. pose proof (delete_failed d) as Hg.
      destruct (DeleteState d) as [e d']. simpl in *. exists [UDeleteState e].
      split_and!; [done| |by exists e|by eexists]. simpl.
      destruct e; [by rewrite (Hg _ eq_refl)|by apply Hf].
    + destruct (IsTerminal (st_Stage s)); [by case_bool_decide|].
      destruct (upgradeResume flags); [|done]. simpl.
      destruct (decide (upgradeResumeFrom flags = "")) as [Hn|Hn];
        [rewrite bool_decide_false by tauto|rewrite bool_decide_true by done; destruct (isValidStage _); [|done]];
        exists []; rewrite app_nil_r;
        split_and!; try done; by case_bool_decide.
  - destruct (upgradeResume flags) eqn:Er; [done|]. exists []. rewrite app_nil_r.
    simpl. split_and!; try done. by eexists.
Qed.

(** C18: the upgrade command never starts over an upgrade in progress.  It either
    refuses, without a call and with the file as it was, or it works on one upgrade,
    stage by stage: a new one when there is no state file, or when the caller forces
    it after deleting the file, or else the saved one, which it resumes only when
    asked to and only if its stage is not terminal, from that stage or the one that
    the caller names. *)
Theorem upgrade_in_progress_is_kept flags jsonMode input (u : UState F) :
  let '(r, u') := run_command w js fuel flags jsonMode input u in
  (∃ e, r = Returns (None, Some e) ∧ u_trace u' = u_trace u ∧
     on_disk (u_disk u') = on_disk (u_disk u)) ∨
  ∃ k before l, es_calls (u_trace u') = es_calls (u_trace u) ++ before ++ l ∧
    decided flags (LoadState (u_disk u)).1 k before input ∧
    (∀ l1 c l2, l = l1 ++ c :: l2 → admissible (negb (in_SkipGovernance input)) (kept k l1) c) ∧
    ended r (kept k l) (u_state u') ∧
    (Forall keepable_call l →
       on_disk (u_disk u') = foldl found (on_disk (u_disk u)) (before ++ l)).
Proof.
  unfold run_command. rewrite bindM_eq. pose proof (check_spec flags jsonMode input u) as Hc.
  destruct (checkForExistingUpgradeState flags jsonMode u) as [[state|e] u1]; cbn [fst snd].
  - destruct Hc as (before & El & Hd & Hb).
    pose proof (runs_Execute w js fuel input state u1) as Hr.
    destruct (Execute w js fuel input state u1) as [r u'].
    destruct Hr as (k' & (l & El' & Hl & <- & Hd') & He).
    right. exists (upgrade_of w input state u1), before, l. split_and!; [|done| |done|].
    + by rewrite El', El, (assoc_L app).
    + intros l1 c l2 ->. by eapply staged_call.
    + intros Hk. by rewrite foldl_app, (Hd' Hk), Hd.
  - unfold ret, done_with. left. exists e. by destruct Hc.
Qed.
End resumption.

(** ** Resuming after the voting period *)

Lemma step_failed_spec {F} `{StateManagerLaws F} `{Ethereum} w out e (u : UState F) :
  CanTransition (st_Stage (u_state u)) ResumableStageFailed = true →
  let '(r, u') := step_failed w out e u in
  r = Returns (Some (out <| eu_Error := Some e |>), Some e) ∧ st_Stage (u_state u') = ResumableStageFailed.
Proof.
  intros Hc. unfold step_failed. rewrite bindM_eq.
  unfold transitionAndSave. rewrite bindM_eq. cbn [the_state getM fst snd]. rewrite Hc.
  rewrite bindM_eq. cbn [onU read_clock now_at fst snd]. unfold TransitionTo. rewrite Hc.
  rewrite bindM_eq. cbn [set_state modifyM fst snd]. rewrite bindM_eq.
  set (u1 := set u_state _ _). pose proof (saveState_spec w u1) as Hs.
  destruct (saveState w u1) as [e' u']. destruct Hs as ((now & c & E) & _ & _). simpl. split; [done|].
  rewrite E. unfold u1. simpl. unfold record_transition. by destruct (_ && _ && _).
Qed.

(** An upgrade that is resumed in the stage Voting when its proposal has passed
    already is recorded as failed: the step wants the proposal in its voting
    period. *)
Theorem resumed_after_voting_fails {F} `{StateManagerLaws F} `{Ethereum} w js fuel input s (u : UState F) :
  in_SkipGovernance input = false → st_Stage s = ResumableStageVoting →
  (∀ t id, w_GetProposal w t id = Ok ProposalStatusPassed) →
  let '(r, u') := Execute w js fuel input (Some s) u in
  ∃ out e, r = Returns (Some out, Some e) ∧ st_Stage (u_state u') = ResumableStageFailed.
Proof.
  intros Hg Hs Hp. unfold Execute. rewrite bindM_eq. cbn [onU read_clock now_at fst snd].
  rewrite bindM_eq. cbn [set_state modifyM fst snd]. set (u1 := set u_state _ _).
  unfold run_upgrade. rewrite Hg. unfold executeWithGovResumable. rewrite bindM_eq.
  cbn [the_state getM fst snd]. change (u_state u1) with s. rewrite Hs. simpl.
  unfold from_stage. rewrite bindM_eq. cbn [the_state getM fst snd]. change (u_state u1) with s.
  rewrite Hs. simpl. unfold voting, with_proposal. rewrite bindM_eq. cbn [the_state getM fst snd].
  unfold attempt. rewrite bindM_eq. unfold executeVoting. rewrite bindM_eq.
  cbn [the_state getM fst snd]. rewrite bindE_eq. unfold onU.
  set (vin := mkVoteInput _ _ _ _).
  assert (Hv : ∃ e, (Vote w fuel vin (u_trace u1)).1 = Fails e).
  { unfold Vote. rewrite bindE_eq. destruct (load_devnet _ _ _ _) as [r t] eqn:El.
    assert (Hl : r = Fails (match r with Fails e => e | _ => Errorf "" end) ∨ ∃ m, r = Returns m).
    { unfold load_devnet, wrapping, call, bindM, ask_env, done_with in El.
      destruct (w_LoadDevnet w _ _); injection El as <- _; [by right; eexists|by left]. }
    destruct Hl as [->|[m ->]]; [by eexists|]. rewrite bindE_eq.
    unfold wrapping at 1, call at 1, bindM, ask_env, done_with. rewrite Hp. simpl. by eexists. }
  destruct Hv as [e He]. destruct (Vote w fuel vin (u_trace u1)) as [r t]. simpl in He. subst r.
  simpl. set (out := _ <| eu_UpgradeHeight := _ |>). set (u2 := set u_trace _ u1).
  pose proof (step_failed_spec w out e u2) as Hf.
  assert (Hc : CanTransition (st_Stage (u_state u2)) ResumableStageFailed = true)
    by (change (u_state u2) with s; by rewrite Hs).
  specialize (Hf Hc). destruct (step_failed w out e u2) as [r u']. destruct Hf as [-> Hst].
  by eexists _, _.
Qed.

(** ** A switch to an image *)

Lemma SwitchBinary_NewBinary `{Ethereum} w input st result st' :
  SwitchBinary w input st = (Returns result, st') →
  so_NewBinary result = if bool_decide (si_CachePath input ≠ "") then si_CachePath input
                        else si_TargetBinary input.
Proof.
  unfold SwitchBinary. intros Hr. returns. rewrite bindM_eq in Hr.
  destruct (_ && _) in Hr; [returns|]. returns. rewrite !bindM_eq in Hr. returns. done.
Qed.

Lemma first_error_elem {A} i (check : Z → A → option string) l x :
  x ∈ l → (∀ j, check j x ≠ None) → first_error i check l ≠ None.
Proof.
  intros Hx Hc. revert i. induction l as [|y l IH]; intros i; [by apply elem_of_nil in Hx|]. simpl.
  apply elem_of_cons in Hx as [<-|Hx]; [specialize (Hc i); by destruct (check i x)|].
  destruct (check i y); [done|]. by apply IH.
Qed.

Definition switched_to (binary : string) (n : NodeSwitchState) : Prop :=
  sw_Switched n = true ∧ sw_NewBinary n = binary.

Lemma track_switch_elem now result switches i :
  ∃ n, n ∈ track_switch now result switches i ∧ switched_to (so_NewBinary result) n.
Proof.
  unfold track_switch. destruct (list_find _ switches) as [[j y]|] eqn:E; eexists.
  - apply list_find_Some in E as (Hj & _). split.
    { apply list_elem_of_lookup. exists j. apply list_lookup_insert_eq. by eapply lookup_lt_Some. }
    by split.
  - split; [apply elem_of_app; right; by left|]. by split.
Qed.

Lemma foldl_track_switch now result switches n :
  ∃ x, x ∈ foldl (track_switch now result) switches (seq 0 (S n)) ∧
    switched_to (so_NewBinary result) x.
Proof. rewrite seq_S, foldl_app. apply track_switch_elem. Qed.

Lemma file_ValidateState_switch s n :
  n ∈ st_NodeSwitches s → switched_to "" n → ∃ reason, file_ValidateState s = Some (StateCorruptionError reason).
Proof.
  intros Hn [Hs Hb]. unfold file_ValidateState. cbv zeta.
  repeat (case_bool_decide; [by eexists|]). destruct (_ && _); [by eexists|].
  destruct (st_StageHistory s); [by eexists|]. repeat (case_bool_decide; [by eexists|]).
  destruct (first_error 0 validate_vote _); [by eexists|].
  pose proof (first_error_elem 0 validate_switch _ n Hn) as He.
  destruct (first_error 0 validate_switch _); [by eexists|]. destruct He; [|done].
  intros j. unfold validate_switch. rewrite Hs, Hb. case_bool_decide; [done|].
  by destruct (negb (sw_Stopped n) || negb (sw_Started n)).
Qed.

Section images.
Context `{StateCodecLaws} `{Ethereum} (w : World) (js : string → string) (fuel : nat).
Context (faults : Faults) (homeDir : string).
#[local] Instance the_manager : UpgradeStateManager Disk := FileUpgradeStateManager faults homeDir.

Definition switch_input (input : ExecuteUpgradeInput) (u : UState Disk) : SwitchBinaryInput :=
  mkSwitchBinaryInput (in_HomeDir input) (in_TargetBinary input) (in_TargetImage input)
    (in_TargetVersion input) (in_CachePath input) (in_CommitHash input) (in_CacheRef input)
    (in_Mode input) (st_UpgradeHeight (u_state u)).

(** The state that a switch leaves, and that it leaves one. *)
Lemma executeSwitchBinary_file input result (u : UState Disk) :
  (SwitchBinary w (switch_input input u) (u_trace u)).1 = Returns result →
  ∃ s now u', executeSwitchBinary w input u = (Returns result, u') ∧ u_state u' = checksummed s ∧
    st_NodeSwitches s = foldl (track_switch now result) (st_NodeSwitches (u_state u))
                          (seq 0 (Z.to_nat (so_NodesRestarted result))).
Proof.
  intros Hr. unfold executeSwitchBinary. rewrite bindM_eq. cbn [the_state getM fst snd].
  rewrite bindE_eq. unfold onU at 1. fold (switch_input input u).
  destruct (SwitchBinary w _ (u_trace u)) as [r t]. cbn [fst] in Hr. rewrite Hr. clear Hr.
  rewrite bindM_eq. cbn [onU read_clock now_at fst snd]. rewrite bindM_eq.
  cbn [set_state modifyM fst snd]. rewrite bindM_eq. unfold saveState. rewrite bindM_eq.
  cbn [onU read_clock now_at fst snd]. rewrite bindM_eq. cbn [set_state modifyM fst snd].
  rewrite bindM_eq. cbn [the_state getM fst snd]. rewrite bindM_eq. unfold onDisk.
  match goal with |- context [SaveState ?s ?d] =>
    pose proof (file_SaveState_cases faults homeDir s d) as [Hs _];
    change (SaveState s d) with (file_SaveState faults homeDir s d);
    destruct (file_SaveState faults homeDir s d) as [[e s'] d']
  end.
  cbn [fst snd] in *. eexists _, _, _. split; [reflexivity|]. simpl. split; [exact Hs|]. reflexivity.
Qed.

Lemma executeSwitchBinary_Returns input result (u u' : UState Disk) :
  executeSwitchBinary w input u = (Returns result, u') →
  (SwitchBinary w (switch_input input u) (u_trace u)).1 = Returns result.
Proof.
  unfold executeSwitchBinary. rewrite bindM_eq. cbn [the_state getM fst snd].
  intros (r & u1 & Hr & Hk)%bindE_Returns. unfold onU in Hr.
  unfold switch_input. destruct (SwitchBinary w _ (u_trace u)) as [r' t]. injection Hr as -> _.
  rewrite !bindM_eq in Hk. by injection Hk as -> _.
Qed.

(** An upgrade to an image cannot be resumed once nodes were switched.  The
    switch records the nodes as switched to a binary without a name, and a state
    like that is refused as corrupted by the validation of a resumption, which
    ends in an error without a call. *)
Theorem switch_to_an_image_is_refused input input' options result (u u' v : UState Disk) :
  in_TargetBinary input = "" → in_CachePath input = "" →
  executeSwitchBinary w input u = (Returns result, u') → (0 < so_NodesRestarted result)%Z →
  (LoadState (u_disk v)).1 = inr (Some (u_state u')) →
  ro_ClearState options = false → ro_ShowStatus options = false → ro_ForceRestart options = false →
  (∃ reason, ValidateState (u_state u') = Some (StateCorruptionError reason)) ∧
  ∃ e, (Resume w js fuel input' options v).1 = Fails e ∧
    es_calls (u_trace (Resume w js fuel input' options v).2) = es_calls (u_trace v).
Proof.
  intros Hb Hc Hx Hn Hl Ho1 Ho2 Ho3.
  assert (Hv : ∃ reason, ValidateState (u_state u') = Some (StateCorruptionError reason)).
  { pose proof (executeSwitchBinary_Returns _ _ _ _ Hx) as Es.
    destruct (executeSwitchBinary_file _ _ _ Es) as (s & now & u2 & Hx' & E & Hsw).
    rewrite Hx in Hx'. injection Hx' as <-.
    destruct (SwitchBinary w _ _) as [r t] eqn:Eb in Es. simpl in Es. rewrite Es in Eb.
    apply SwitchBinary_NewBinary in Eb. cbn [switch_input si_CachePath si_TargetBinary] in Eb.
    rewrite Hb, Hc in Eb.
    replace (Z.to_nat (so_NodesRestarted result))
      with (S (pred (Z.to_nat (so_NodesRestarted result)))) in Hsw by lia.
    destruct (foldl_track_switch now result (st_NodeSwitches (u_state u))
      (pred (Z.to_nat (so_NodesRestarted result)))) as (x & Hxs & Hb').
    rewrite Eb in Hb'. apply (file_ValidateState_switch _ x); [|done]. rewrite E. simpl.
    by rewrite Hsw. }
  split; [done|]. destruct Hv as [reason Hv].
  pose proof (Resume_spec w js fuel input' options (u_state u') v Hl Ho1 Ho2 Ho3) as Hr.
  cbv zeta in Hr. rewrite Hv in Hr. destruct Hr as [Ht [e He]]. by exists e.
Qed.
End images.

(** *** Witnesses *)

#[local] Existing Instance memory_manager.
#[local] Existing Instance plain_ethereum.
#[local] Existing Instance memory_laws.

Definition saved_start : UpgradeState := initial_state 5 skip_input.
Definition plain_options : ResumeOptions := mkResumeOptions false "" false false.
Definition after_crash : UState (option UpgradeState) :=
  mkUState (mkEState [] 0) saved_start (Some saved_start).

Definition resumed (r : outcome ResumeResult) : option ResumeResult :=
  match r with Returns res => if rr_Resumed res then Some res else None | _ => None end.

Lemma resumed_Some r res : resumed r = Some res → r = Returns res ∧ rr_Resumed res = true.
Proof. destruct r as [res'| | |]; simpl; [|done..]. destruct (rr_Resumed res') eqn:E; naive_solver. Qed.

(** An upgrade that was killed after its first save is resumed to the end. *)
Lemma Resume_continues_the_upgrade_witness :
  bool_decide (is_Some (resumed (Resume running_world id 20 skip_input plain_options after_crash).1)) = true ∧
  ∃ asked saved s l, positioned plain_options saved_start asked saved s ∧
    st_Stage (kept s l) = ResumableStageCompleted ∧ identity s = identity saved_start.
Proof.
  assert (Hs : bool_decide (is_Some (resumed
    (Resume running_world id 20 skip_input plain_options after_crash).1)) = true) by (vm_compute; reflexivity).
  split; [exact Hs|]. apply bool_decide_eq_true in Hs.
  pose proof (Resume_continues_the_upgrade (F := option UpgradeState)) as Hx.
  specialize (Hx running_world id 20%nat skip_input plain_options saved_start).
  specialize (Hx after_crash eq_refl (recorded_new _ _ _ _) eq_refl eq_refl eq_refl).
  destruct Hs as [res Hs]. revert Hs.
  destruct (Resume running_world id 20 skip_input plain_options after_crash) as [r u']. intros Hs.
  simpl in Hx. change (ValidateState saved_start) with (@None state_error) in Hx.
  destruct Hx as (asked & saved & l & s & u1 & _ & _ & _ & Hp & Hi & _ & _ & Hrun).
  apply resumed_Some in Hs as [Er Hr'].
  destruct Hrun as [(_ & _ & _ & e & E)|(_ & _ & _ & _ & Hr)]; [rewrite E in Er; discriminate Er|].
  destruct (Hr res Er Hr') as [Hc _]. exists asked, saved, s, l. split; [exact Hp|split; [exact Hc|exact Hi]].
Defined.

(** The command without a flag refuses to start over that upgrade. *)
Lemma upgrade_in_progress_is_kept_witness :
  on_disk (u_disk (run_command running_world id 20 (mkFlags false false "") false skip_input after_crash).2) =
    inr (Some saved_start).
Proof.
  pose proof (upgrade_in_progress_is_kept (F := option UpgradeState)) as Hx.
  specialize (Hx running_world id 20%nat (mkFlags false false "") false skip_input).
  specialize (Hx after_crash).
  destruct (run_command running_world id 20 (mkFlags false false "") false skip_input after_crash)
    as [r u'].
  destruct Hx as [(e & _ & _ & Hd)|(k & before & l & _ & Hd & _)]; [exact Hd|].
  destruct Hd as (_ & Hd & _). discriminate Hd.
Defined.

(** An upgrade to an image restarts its node and leaves a state that is refused. *)
Definition image_input : ExecuteUpgradeInput :=
  mkExecuteUpgradeInput "/d" "v2" "" "img:v2" "" "" "" "v2" 0 0 0 false "" "docker" true.

Definition at_switch : UState Disk :=
  mkUState (mkEState [] 0) (initial_state 5 image_input) (mkDisk ∅ 0).
Definition image_result : SwitchBinaryOutput := mkSwitchBinaryOutput "/bin/old" "" 1.

Lemma switch_to_an_image_is_refused_witness :
  ∃ v reason, (file_LoadState no_faults "/d" (u_disk v)).1 = inr (Some (u_state v)) ∧
    file_ValidateState (u_state v) = Some (StateCorruptionError reason).
Proof.
  destruct (executeSwitchBinary_file running_world no_faults "/d" image_input image_result at_switch)
    as (s & now & u' & Hx & Hs & _); [vm_compute; reflexivity|].
  set (v := mkUState (mkEState [] 0) (u_state u')
    (mkDisk (<[statePath "/d" := number_state (u_state u')]> ∅) 0)).
  assert (Hl : (file_LoadState no_faults "/d" (u_disk v)).1 = inr (Some (u_state u'))).
  { unfold file_LoadState, io_read, operate, bindM, v. cbn [fault no_faults u_disk dk_ops dk_files].
    rewrite lookup_insert_eq. cbn [done_with fst]. rewrite Hs. by apply decode_checksummed. }
  destruct (switch_to_an_image_is_refused running_world id 20 no_faults "/d" image_input image_input
    plain_options image_result at_switch u' v eq_refl eq_refl Hx eq_refl Hl eq_refl eq_refl eq_refl)
    as [[reason Hr] _].
  exists v, reason. split; [exact Hl|exact Hr].
Defined.
