(* ===== verification/PortAllocator.v ===== *)
(** * Port ranges of Docker devnets
    ([internal/infrastructure/docker/port_allocator.go],
     [internal/infrastructure/persistence/port_registry.go])

    Each devnet gets a contiguous range of ports, first fit, recorded in a registry
    file that processes share under a file lock.  The operations are state passing
    over the file; any of its operations may fail.  [System] interleaves any number
    of processes, which take the lock, load, and save in separate steps. *)

From Stdlib Require Import Ascii.
From stdpp Require Import base tactics numbers list strings sorting gmap pretty.
From S2P Require Import Prelude Trace.

(** ** Data *)

Record PortAllocation := mkPortAllocation {
  pa_DevnetName : string;
  pa_NetworkName : string;
  pa_Subnet : string;
  pa_PortRangeStart : Z;
  pa_PortRangeEnd : Z;
  pa_ValidatorCount : Z;
  pa_AllocatedAt : Time
}.

Definition PortsPerValidator : Z := 100.
Definition GlobalPortRangeStart : Z := 26000.
Definition GlobalPortRangeEnd : Z := 36000.

(** ** The registry file *)

(** [encoding/json] on the contents of the file. *)
Class RegistryCodec := {
  marshal_registry : list PortAllocation → result string;
  unmarshal_registry : string → result (list PortAllocation)
}.

Class RegistryCodecLaws `{RegistryCodec} := {
  plain : PortAllocation → Prop;
  marshal_nonempty : ∀ l, marshal_registry l ≠ Ok "";
  unmarshal_marshal_registry : ∀ l data, Forall plain l → marshal_registry l = Ok data →
    unmarshal_registry data = Ok l
}.

(** The contents, if the file exists, and the number of file operations so far. *)
Record Registry := mkRegistry {
  rg_file : option string;
  rg_ops : nat
}.
#[export] Instance eta_Registry : Settable Registry := mkSettable (λ x,
  mkRegistry (rg_file x) (rg_ops x)).

Abbreviation G A := (M Registry (outcome A)).

Section registry.
Context `{RegistryCodec}.
Variable fault : nat → option error.

(** A file operation that fails with a message. *)
Definition file_op (msg : string) : G unit :=
  λ r, (match fault (rg_ops r) with Some e => Fails (Wrap msg e) | None => Returns tt end,
        r <| rg_ops := S (rg_ops r) |>).

Definition Load : G (list PortAllocation) :=
  do! file := getM rg_file in
  match file with
  | None => ret []
  | Some data =>
      check! file_op "failed to read port registry" in
      if bool_decide (data = "") then ret []
      else match unmarshal_registry data with
           | Ok allocations => ret allocations
           | Err e => fail (Wrap "failed to parse port registry" e)
           end
  end.

(** The temporary file replaces the registry in one step, the last. *)
Definition Save (allocations : list PortAllocation) : G unit :=
  match marshal_registry allocations with
  | Err e => fail (Wrap "failed to marshal port registry" e)
  | Ok data =>
      check! file_op "failed to create registry directory" in
      check! file_op "failed to create temp file" in
      check! file_op "failed to write port registry" in
      check! file_op "failed to close temp file" in
      check! file_op "failed to rename port registry" in
      run! modifyM (λ r, r <| rg_file := Some data |>) in
      ret tt
  end.

Definition take_lock : G unit :=
  check! file_op "failed to create registry directory" in
  check! file_op "failed to open lock file" in
  file_op "failed to acquire registry lock".

Definition WithLock {A} (fn : G A) : G A := check! take_lock in fn.

(** ** The allocator *)

Definition validateInputs (devnetName : string) (validatorCount : Z) : option error :=
  if bool_decide (devnetName = "") then Some (Errorf "devnet name cannot be empty")
  else if bool_decide (validatorCount < 1)%Z || bool_decide (100 < validatorCount)%Z
  then Some (Errorf ("validator count must be 1-100, got " +:+ itoa validatorCount))
  else None.

(** [sort.Slice] by the start of the range, in place. *)
Definition by_start (a b : PortAllocation) : Prop := (pa_PortRangeStart a ≤ pa_PortRangeStart b)%Z.
#[export] Instance by_start_dec a b : Decision (by_start a b).
Proof. unfold by_start. apply _. Defined.
Definition sort_by_start (l : list PortAllocation) : list PortAllocation := merge_sort by_start l.

(** The loop over the gaps between neighbours. *)
Fixpoint gap_between (size : Z) (allocations : list PortAllocation) : option Z :=
  match allocations with
  | a :: rest =>
      match rest with
      | b :: _ =>
          let gapStart := (pa_PortRangeEnd a + 1)%Z in
          let gapEnd := (pa_PortRangeStart b - 1)%Z in
          if bool_decide (size ≤ gapEnd - gapStart + 1)%Z then Some gapStart
          else gap_between size rest
      | [] => None
      end
  | [] => None
  end.

(** On the sorted allocations. *)
Definition findAvailableRange (allocations : list PortAllocation) (size : Z) : result Z :=
  match allocations with
  | [] => Ok GlobalPortRangeStart
  | first :: _ =>
      if bool_decide (size ≤ pa_PortRangeStart first - GlobalPortRangeStart)%Z
      then Ok GlobalPortRangeStart
      else
        match gap_between size allocations with
        | Some start => Ok start
        | None =>
            let lastEnd := pa_PortRangeEnd (List.last allocations first) in
            if bool_decide (size ≤ GlobalPortRangeEnd - lastEnd)%Z then Ok (lastEnd + 1)%Z
            else Err (Errorf ("no available port range of size " +:+ itoa size +:+ " in " +:+
                              itoa GlobalPortRangeStart +:+ "-" +:+ itoa GlobalPortRangeEnd))
        end
  end.

Definition has_name (devnetName : string) (a : PortAllocation) : Prop := pa_DevnetName a = devnetName.
#[export] Instance has_name_dec devnetName a : Decision (has_name devnetName a).
Proof. unfold has_name. apply _. Defined.

(** What an allocation makes of the loaded list: the new range, and what is saved,
    which the search has sorted. *)
Definition plan_allocate (now : Time) (devnetName : string) (validatorCount : Z)
    (allocations : list PortAllocation) : result (PortAllocation * list PortAllocation) :=
  if bool_decide (Exists (has_name devnetName) allocations)
  then Err (Errorf ("devnet " +:+ devnetName +:+ " already has port allocation"))
  else
    let rangeSize := (validatorCount * PortsPerValidator)%Z in
    let sorted := sort_by_start allocations in
    try rangeStart := findAvailableRange sorted rangeSize in
    let allocation := mkPortAllocation devnetName ("devnet-" +:+ devnetName +:+ "-network") ""
      rangeStart (rangeStart + rangeSize - 1) validatorCount now in
    Ok (allocation, sorted ++ [allocation]).

Definition plan_release (devnetName : string) (allocations : list PortAllocation) :
    result (list PortAllocation) :=
  if bool_decide (Exists (has_name devnetName) allocations)
  then Ok (filter (λ a, ¬ has_name devnetName a) allocations)
  else Err (Errorf ("no port allocation found for devnet " +:+ devnetName)).

Definition lift_result {A} (r : result A) : G A :=
  match r with Ok a => ret a | Err e => fail e end.

Definition AllocateRange (now : Time) (devnetName : string) (validatorCount : Z) : G PortAllocation :=
  match validateInputs devnetName validatorCount with
  | Some e => fail e
  | None =>
      WithLock (
        try! allocations := wrapping "failed to load allocations" Load in
        try! ' (allocation, updated) := lift_result (plan_allocate now devnetName validatorCount allocations) in
        check! Save updated in
        ret allocation)
  end.

Definition ReleaseRange (devnetName : string) : G unit :=
  WithLock (
    try! allocations := wrapping "failed to load allocations" Load in
    try! updated := lift_result (plan_release devnetName allocations) in
    Save updated).

Definition GetAllocation (devnetName : string) : G (option PortAllocation) :=
  try! allocations := wrapping "failed to load allocations" Load in
  ret (snd <$> list_find (has_name devnetName) allocations).

Definition ListAllocations : G (list PortAllocation) :=
  try! allocations := wrapping "failed to load allocations" Load in
  ret (sort_by_start allocations).
End registry.

(** ** Ports in use on the host *)

Definition is_space (c : ascii) : bool :=
  bool_decide (c ∈ [" "; "009"; "010"; "011"; "012"; "013"]%char).

(** [strings.Fields] on ASCII text. *)
Fixpoint fields_from (word line : string) : list string :=
  match line with
  | EmptyString => if bool_decide (word = "") then [] else [word]
  | String c line =>
      if is_space c then
        if bool_decide (word = "") then fields_from "" line else word :: fields_from "" line
      else fields_from (word +:+ String c "") line
  end.
Definition Fields (line : string) : list string := fields_from "" line.

(** The port of a field [address:port]. *)
Definition port_of_field (field : string) : option Z :=
  if has_char ":" field then ok_of (atoi (List.last (split_on ":" field) "")) else None.

Definition parsePortsFromOutput (output : string) : list Z :=
  omap port_of_field (split_on "010" output ≫= Fields).

(** [lsof], and [netstat] where it fails, and no ports where both do. *)
Definition getHostPortsInUse (lsof netstat : result string) : list Z :=
  match lsof with
  | Ok output => parsePortsFromOutput output
  | Err _ => match netstat with Ok output => parsePortsFromOutput output | Err _ => [] end
  end.

Definition ValidatePortAvailability (inUsePorts : list Z) (allocation : PortAllocation) : list Z :=
  filter (λ port, port ∈ inUsePorts)
    (seqZ (pa_PortRangeStart allocation)
       (pa_PortRangeEnd allocation - pa_PortRangeStart allocation + 1)).

(** ** The search *)

(** Two allocations that do not collide. *)
Definition apart (a b : PortAllocation) : Prop :=
  pa_DevnetName a ≠ pa_DevnetName b ∧
  (pa_PortRangeEnd a < pa_PortRangeStart b ∨ pa_PortRangeEnd b < pa_PortRangeStart a)%Z.

Fixpoint all_apart (l : list PortAllocation) : Prop :=
  match l with [] => True | a :: l => Forall (apart a) l ∧ all_apart l end.

Record range_ok (a : PortAllocation) : Prop := {
  range_count : (1 ≤ pa_ValidatorCount a ≤ 100)%Z;
  range_low : (GlobalPortRangeStart ≤ pa_PortRangeStart a)%Z;
  range_size : pa_PortRangeEnd a =
    (pa_PortRangeStart a + pa_ValidatorCount a * PortsPerValidator - 1)%Z;
  range_high : (pa_PortRangeEnd a ≤ GlobalPortRangeEnd)%Z
}.

(** What the registry promises. *)
Definition registry_ok (l : list PortAllocation) : Prop := Forall range_ok l ∧ all_apart l.

Lemma Forall_filter_keep {A} (P Q : A → Prop) `{∀ x, Decision (Q x)} l :
  Forall P l → Forall P (filter Q l).
Proof. rewrite !Forall_forall. intros Hl x [_ Hx]%list_elem_of_filter. by apply Hl. Qed.

Lemma apart_sym a b : apart a b → apart b a.
Proof. unfold apart. naive_solver. Qed.

Lemma all_apart_perm l l' : l ≡ₚ l' → all_apart l → all_apart l'.
Proof.
  induction 1 as [|a l l' Hp IH|a b l|l1 l2 l3 _ IH1 _ IH2]; simpl; [done|..|auto].
  - intros [Ha Hl]. split; [by rewrite <- Hp|auto].
  - rewrite !Forall_cons. intros ([Hab Hb] & Ha & Hl). eauto using apart_sym.
Qed.

Lemma registry_ok_perm l l' : l ≡ₚ l' → registry_ok l → registry_ok l'.
Proof. intros Hp [Hr Ha]. split; [by rewrite <- Hp|by eapply all_apart_perm]. Qed.

Lemma sort_perm l : sort_by_start l ≡ₚ l.
Proof. apply merge_sort_Permutation. Qed.

Lemma registry_ok_sort l : registry_ok l → registry_ok (sort_by_start l).
Proof. apply registry_ok_perm. by rewrite sort_perm. Qed.

#[local] Instance by_start_total : Total by_start.
Proof. intros a b. unfold by_start. lia. Qed.
#[local] Instance by_start_trans : Transitive by_start.
Proof. intros a b c. unfold by_start. lia. Qed.

Lemma sort_sorted l : StronglySorted by_start (sort_by_start l).
Proof. apply StronglySorted_merge_sort; apply _. Qed.

(** The range from [s] with [size] ports is free. *)
Definition free (l : list PortAllocation) (size s : Z) : Prop :=
  (GlobalPortRangeStart ≤ s)%Z ∧ (s + size - 1 ≤ GlobalPortRangeEnd)%Z ∧
  Forall (λ a, s + size - 1 < pa_PortRangeStart a ∨ pa_PortRangeEnd a < s)%Z l.

Lemma free_perm l l' size s : l ≡ₚ l' → free l size s → free l' size s.
Proof. unfold free. intros Hp. by rewrite Hp. Qed.

(** The first gap behind the port [e]. *)
Fixpoint search (size e : Z) (l : list PortAllocation) : option Z :=
  match l with
  | [] => if bool_decide (size ≤ GlobalPortRangeEnd - e)%Z then Some (e + 1)%Z else None
  | b :: l => if bool_decide (size ≤ pa_PortRangeStart b - 1 - e)%Z then Some (e + 1)%Z
              else search size (pa_PortRangeEnd b) l
  end.

Lemma gap_search size a d l e :
  ok_of (match gap_between size (a :: l) with
         | Some start => Ok start
         | None =>
             if bool_decide (size ≤ GlobalPortRangeEnd - pa_PortRangeEnd (List.last (a :: l) d))%Z
             then Ok (pa_PortRangeEnd (List.last (a :: l) d) + 1)%Z else Err e
         end) = search size (pa_PortRangeEnd a) l.
Proof.
  revert a. induction l as [|b l IH]; intros a; [simpl; by case_bool_decide|].
  change (List.last (a :: b :: l) d) with (List.last (b :: l) d). cbn [search]. rewrite <- IH.
  change (gap_between size (a :: b :: l)) with
    (if bool_decide (size ≤ pa_PortRangeStart b - 1 - (pa_PortRangeEnd a + 1) + 1)%Z
     then Some (pa_PortRangeEnd a + 1)%Z else gap_between size (b :: l)).
  replace (pa_PortRangeStart b - 1 - (pa_PortRangeEnd a + 1) + 1)%Z
    with (pa_PortRangeStart b - 1 - pa_PortRangeEnd a)%Z by lia.
  by case_bool_decide.
Qed.

Lemma findAvailableRange_search l size :
  (size ≤ 10000)%Z → ok_of (findAvailableRange l size) = search size (GlobalPortRangeStart - 1) l.
Proof.
  intros Hs. unfold findAvailableRange. destruct l as [|a l].
  { simpl. rewrite bool_decide_true; [done|]. unfold GlobalPortRangeEnd, GlobalPortRangeStart. lia. }
  cbn [search].
  replace (pa_PortRangeStart a - 1 - (GlobalPortRangeStart - 1))%Z
    with (pa_PortRangeStart a - GlobalPortRangeStart)%Z by lia.
  case_bool_decide; [by rewrite Z.sub_add|]. apply gap_search.
Qed.

Lemma search_spec size e l :
  (1 ≤ size)%Z → StronglySorted by_start l → registry_ok l →
  Forall (λ a, e < pa_PortRangeStart a)%Z l → (GlobalPortRangeStart ≤ e + 1)%Z →
  match search size e l with
  | Some s => (e < s)%Z ∧ free l size s ∧ ∀ t, (e < t)%Z → free l size t → (s ≤ t)%Z
  | None => ∀ t, (e < t)%Z → ¬ free l size t
  end.
Proof.
  intros Hsize. revert e. induction l as [|b l IH]; intros e Hs [Hr Ha] He Hlow; simpl.
  { case_bool_decide as Hf.
    - split; [lia|]. split; [|lia]. split; [lia|]. split; [lia|constructor].
    - intros t Ht (_ & Hhigh & _). lia. }
  apply StronglySorted_cons in Hs as [Hb Hs]. apply Forall_cons in Hr as [Hrb Hr].
  destruct Ha as [Hab Ha]. apply Forall_cons in He as [Heb He]. destruct Hrb as [Hc Hl Hsz Hh].
  unfold PortsPerValidator in Hsz. case_bool_decide as Hf.
  - split; [lia|]. split; [|lia]. split; [lia|]. split; [lia|]. constructor; [left; lia|].
    eapply Forall_impl; [exact Hb|]. intros a Hba. unfold by_start in Hba. left. simpl in *. lia.
  - assert (Hbehind : Forall (λ a, pa_PortRangeEnd b < pa_PortRangeStart a)%Z l).
    { rewrite Forall_forall in Hb, Hab, Hr |- *. intros a Hin. specialize (Hb a Hin).
      specialize (Hr a Hin) as [Hc' _ Hsz' _]. unfold by_start in Hb. unfold PortsPerValidator in Hsz'.
      destruct (Hab a Hin) as [_ [?|?]]; lia. }
    assert (Hsplit : ∀ t, (e < t)%Z → free (b :: l) size t → (pa_PortRangeEnd b < t)%Z ∧ free l size t).
    { intros t Ht (H1 & H2 & H3). apply Forall_cons in H3 as [H3 H4]. split; [lia|by split]. }
    specialize (IH (pa_PortRangeEnd b) Hs (conj Hr Ha) Hbehind ltac:(lia)).
    destruct (search size (pa_PortRangeEnd b) l) as [s|].
    + destruct IH as (Hes & (H1 & H2 & H3) & Hmin). split; [lia|]. split.
      * split; [done|]. split; [done|]. constructor; [by right|done].
      * intros t Ht Hft. destruct (Hsplit t Ht Hft). auto.
    + intros t Ht Hft. destruct (Hsplit t Ht Hft). by eapply IH.
Qed.

(** First fit on any list that is well formed. *)
Lemma find_first_fit l size :
  registry_ok l → (1 ≤ size ≤ 10000)%Z →
  match findAvailableRange (sort_by_start l) size with
  | Ok s => free l size s ∧ ∀ t, free l size t → (s ≤ t)%Z
  | Err _ => ∀ t, ¬ free l size t
  end.
Proof.
  intros Hl Hsize. pose proof (registry_ok_sort l Hl) as Hl'.
  assert (Hp : sort_by_start l ≡ₚ l) by apply sort_perm.
  assert (Hlow : Forall (λ a, GlobalPortRangeStart - 1 < pa_PortRangeStart a)%Z (sort_by_start l)).
  { eapply Forall_impl; [apply Hl'|]. intros a [_ ? _ _]. lia. }
  pose proof (search_spec size (GlobalPortRangeStart - 1) (sort_by_start l) ltac:(lia)
    (sort_sorted l) Hl' Hlow ltac:(lia)) as Hs.
  rewrite <- findAvailableRange_search in Hs by lia.
  destruct (findAvailableRange (sort_by_start l) size) as [s|e]; simpl in Hs.
  - destruct Hs as (_ & Hf & Hmin). split; [by eapply free_perm|].
    intros t Ht. apply Hmin; [destruct Ht; lia|]. by eapply free_perm.
  - intros t Ht. apply (Hs t); [destruct Ht; lia|]. by eapply free_perm.
Qed.

(** ** The operations on the file *)

Section operations.
Context `{RegistryCodecLaws} (fault : nat → option error).

(** The file holds these allocations. *)
Definition holds (r : Registry) (l : list PortAllocation) : Prop :=
  match rg_file r with
  | None => l = []
  | Some data => if bool_decide (data = "") then l = [] else unmarshal_registry data = Ok l
  end.

(** Nothing fails. *)
Definition quiet : Prop :=
  (∀ n, fault n = None) ∧ ∀ l, ∃ data, marshal_registry l = Ok data.

Lemma holds_file r r' l : rg_file r' = rg_file r → holds r l → holds r' l.
Proof. unfold holds. by intros ->. Qed.

Lemma file_op_spec msg r :
  let '(res, r') := file_op fault msg r in
  rg_file r' = rg_file r ∧ (res = Returns tt ∨ ∃ e, res = Fails e) ∧ (quiet → res = Returns tt).
Proof.
  unfold file_op. split; [done|]. unfold quiet. destruct (fault (rg_ops r)) eqn:Hf.
  - split; [right; by eexists|]. intros [Hq _]. by rewrite Hq in Hf.
  - split; [by left|done].
Qed.

(** A step that may fail without touching the file. *)
Lemma file_op_then {A} msg (k : G A) r (P : outcome A * Registry → Prop) :
  (∀ r' e, rg_file r' = rg_file r → ¬ quiet → P (Fails e, r')) →
  (∀ r', rg_file r' = rg_file r → P (k r')) → P ((check! file_op fault msg in k) r).
Proof.
  intros Hf Hk. rewrite bindE_eq. pose proof (file_op_spec msg r) as Hs.
  destruct (file_op fault msg r) as [res r']. destruct Hs as (Er & [->|[e ->]] & Hq); [by apply Hk|].
  apply Hf; [done|]. intros Hn. by specialize (Hq Hn).
Qed.

Lemma Load_spec r l :
  holds r l →
  let '(res, r') := wrapping "failed to load allocations" (Load fault) r in
  rg_file r' = rg_file r ∧ (res = Returns l ∨ ∃ e, res = Fails e) ∧ (quiet → res = Returns l).
Proof.
  intros Hl. unfold wrapping. rewrite bindM_eq. unfold Load. rewrite bindM_eq. cbn [getM fst snd].
  unfold holds in Hl. destruct (rg_file r) as [data|] eqn:Er.
  - apply file_op_then.
    + intros r' e E Hq. simpl. split; [congruence|]. split; [right; by eexists|tauto].
    + intros r' E. case_bool_decide; [subst l; simpl; split; [congruence|by split; [left|]]|].
      rewrite Hl. simpl. split; [congruence|by split; [left|]].
  - subst l. simpl. split; [done|by split; [left|]].
Qed.

Lemma Save_spec r l :
  Forall plain l →
  let '(res, r') := Save fault l r in
  match res with
  | Returns _ => holds r' l
  | Fails _ => rg_file r' = rg_file r ∧ ¬ quiet
  | _ => False
  end.
Proof.
  intros Hp. unfold Save. destruct (marshal_registry l) as [data|e] eqn:Hm.
  2: { split; [done|]. intros [_ Hq]. destruct (Hq l). congruence. }
  do 5 (apply file_op_then; [intros ? ? ? ?; by split; [congruence|]|intros ? ?]).
  rewrite bindM_eq. simpl. unfold holds. simpl. rewrite bool_decide_false.
  - by apply unmarshal_marshal_registry.
  - intros ->. by eapply marshal_nonempty.
Qed.

Lemma take_lock_spec r :
  let '(res, r') := take_lock fault r in
  rg_file r' = rg_file r ∧ (res = Returns tt ∨ ∃ e, res = Fails e) ∧ (quiet → res = Returns tt).
Proof.
  unfold take_lock. do 2 (apply file_op_then;
    [intros ? ? ? ?; split; [congruence|]; split; [right; by eexists|tauto]|intros ? ?]).
  pose proof (file_op_spec "failed to acquire registry lock" r'0) as Hs.
  destruct (file_op fault _ r'0) as [res r2]. destruct Hs as (E & Hs & Hq). split; [congruence|done].
Qed.

(** A devnet whose allocations are plain. *)
Definition plain_name (name : string) : Prop := ∀ a, pa_DevnetName a = name →
  pa_NetworkName a = "devnet-" +:+ name +:+ "-network" → pa_Subnet a = "" → plain a.

(** What is planned on a well-formed list. *)
Lemma plan_allocate_spec now name count l :
  registry_ok l → (1 ≤ count ≤ 100)%Z →
  match plan_allocate now name count l with
  | Ok (a, l') =>
      ¬ Exists (has_name name) l ∧ has_name name a ∧ pa_ValidatorCount a = count ∧
      (plain_name name → plain a) ∧ free l (count * PortsPerValidator) (pa_PortRangeStart a) ∧
      (∀ t, free l (count * PortsPerValidator) t → pa_PortRangeStart a ≤ t)%Z ∧
      l' ≡ₚ a :: l ∧ registry_ok l'
  | Err _ => Exists (has_name name) l ∨ ∀ t, ¬ free l (count * PortsPerValidator) t
  end.
Proof.
  intros Hl Hc. unfold plan_allocate. case_bool_decide as Hn; [by left|].
  pose proof (find_first_fit l (count * PortsPerValidator) Hl ltac:(unfold PortsPerValidator; lia)) as Hf.
  destruct (findAvailableRange _ _) as [s|e]; [|by right]. destruct Hf as [Hf Hmin].
  set (a := mkPortAllocation _ _ _ _ _ _ _).
  assert (Hp : sort_by_start l ++ [a] ≡ₚ a :: l).
  { rewrite (Permutation_app_comm (sort_by_start l)). simpl. by rewrite sort_perm. }
  split_and!; try done; [intros Hpn; by apply Hpn|]. apply (registry_ok_perm (a :: l)); [done|].
  destruct Hl as [Hr Ha]. destruct Hf as (H1 & H2 & H3). split.
  - constructor; [|done]. by split; simpl.
  - split; [|done]. rewrite Forall_forall in H3 |- *. intros b Hb. split.
    + intros E. apply Hn. apply Exists_exists. exists b. split; [done|]. symmetry. exact E.
    + simpl. destruct (H3 b Hb); [left|right]; lia.
Qed.

Lemma plan_release_spec name l :
  registry_ok l →
  match plan_release name l with
  | Ok l' => Exists (has_name name) l ∧ l' = filter (λ a, ¬ has_name name a) l ∧ registry_ok l'
  | Err _ => ¬ Exists (has_name name) l
  end.
Proof.
  intros [Hr Ha]. unfold plan_release. case_bool_decide as Hn; [|done]. split_and!; [done..|].
  split; [by apply Forall_filter_keep|]. clear Hr Hn.
  induction l as [|a l IH]; simpl; [done|]. destruct Ha as [Hal Ha].
  rewrite filter_cons. destruct (decide (¬ has_name name a)); [|by apply IH].
  split; [by apply Forall_filter_keep|by apply IH].
Qed.

Lemma validateInputs_count name count :
  validateInputs name count = None → (1 ≤ count ≤ 100)%Z.
Proof.
  unfold validateInputs. case_bool_decide; [done|].
  destruct (_ || _) eqn:E; [done|]. apply orb_false_iff in E as [E1 E2].
  apply bool_decide_eq_false in E1, E2. lia.
Qed.

(** An allocation is first fit and loses nothing.  On a registry of disjoint
    ranges within the global one, it gives the devnet the lowest free range of a
    hundred ports per validator, and adds exactly that to the file, which stays a
    registry of disjoint ranges; otherwise the file is as it was.  When no file
    operation fails, it fails only for an invalid request, for a devnet that has a
    range, or when no free range is large enough. *)
Theorem AllocateRange_outcomes now name count r l :
  holds r l → registry_ok l → Forall plain l → plain_name name →
  let size := (count * PortsPerValidator)%Z in
  let '(res, r') := AllocateRange fault now name count r in
  match res with
  | Returns a =>
      validateInputs name count = None ∧ ¬ Exists (has_name name) l ∧
      pa_DevnetName a = name ∧ pa_PortRangeEnd a = (pa_PortRangeStart a + size - 1)%Z ∧
      free l size (pa_PortRangeStart a) ∧ (∀ t, free l size t → pa_PortRangeStart a ≤ t)%Z ∧
      ∃ l', holds r' l' ∧ l' ≡ₚ a :: l ∧ registry_ok l'
  | Fails _ => holds r' l ∧
      (quiet → validateInputs name count ≠ None ∨ Exists (has_name name) l ∨ ∀ t, ¬ free l size t)
  | _ => False
  end.
Proof.
  intros Hh Hl Hp Hname size. unfold AllocateRange.
  destruct (validateInputs name count) as [e|] eqn:Hv; [split; [done|by left]|].
  apply validateInputs_count in Hv as Hc. unfold WithLock. rewrite bindE_eq.
  pose proof (take_lock_spec r) as Ht. destruct (take_lock fault r) as [res r1].
  destruct Ht as (E1 & [->|[e ->]] & Hq1).
  2: { split; [by eapply holds_file|]. intros Hq. by specialize (Hq1 Hq). }
  rewrite bindE_eq. pose proof (Load_spec r1 l (holds_file _ _ _ E1 Hh)) as Hload.
  destruct (wrapping _ (Load fault) r1) as [res r2]. destruct Hload as (E2 & [->|[e ->]] & Hq2).
  2: { split; [eapply holds_file; [|done]; congruence|]. intros Hq. by specialize (Hq2 Hq). }
  assert (Hh2 : holds r2 l) by (eapply holds_file; [|done]; congruence).
  rewrite bindE_eq. pose proof (plan_allocate_spec now name count l Hl Hc) as Hplan.
  destruct (plan_allocate now name count l) as [[a l']|e] eqn:Epl; simpl.
  2: { split; [done|]. by right. }
  destruct Hplan as (Hn & Ha & Hac & Hpl & Hfree & Hmin & Hperm & Hok).
  assert (Hp' : Forall plain l') by (rewrite Hperm; constructor; [by apply Hpl|done]).
  rewrite bindE_eq. pose proof (Save_spec r2 l' Hp') as Hs. destruct (Save fault l' r2) as [res r3].
  destruct res as [u|e| |]; [|destruct Hs as [E3 Hnq]|done..].
  - simpl. assert (Hsize : pa_PortRangeEnd a = (pa_PortRangeStart a + size - 1)%Z).
    { assert (Hra : range_ok a) by (destruct Hok as [Hr _]; rewrite Hperm in Hr; by apply Forall_cons in Hr as []).
      destruct Hra as [_ _ -> _]. by rewrite Hac. }
    split_and!; try done. by exists l'.
  - split; [eapply holds_file; [|exact Hh2]; done|tauto].
Qed.

(** A release removes exactly the devnet's range. *)
Lemma ReleaseRange_outcomes name r l :
  holds r l → registry_ok l → Forall plain l →
  let '(res, r') := ReleaseRange fault name r in
  match res with
  | Returns _ => Exists (has_name name) l ∧ holds r' (filter (λ a, ¬ has_name name a) l) ∧
      registry_ok (filter (λ a, ¬ has_name name a) l)
  | Fails _ => holds r' l ∧ (quiet → ¬ Exists (has_name name) l)
  | _ => False
  end.
Proof.
  intros Hh Hl Hp. unfold ReleaseRange, WithLock. rewrite bindE_eq.
  pose proof (take_lock_spec r) as Ht. destruct (take_lock fault r) as [res r1].
  destruct Ht as (E1 & [->|[e ->]] & Hq1).
  2: { split; [by eapply holds_file|]. intros Hq. by specialize (Hq1 Hq). }
  rewrite bindE_eq. pose proof (Load_spec r1 l (holds_file _ _ _ E1 Hh)) as Hload.
  destruct (wrapping _ (Load fault) r1) as [res r2]. destruct Hload as (E2 & [->|[e ->]] & Hq2).
  2: { split; [eapply holds_file; [|done]; congruence|]. intros Hq. by specialize (Hq2 Hq). }
  assert (Hh2 : holds r2 l) by (eapply holds_file; [|done]; congruence).
  rewrite bindE_eq. pose proof (plan_release_spec name l Hl) as Hplan.
  destruct (plan_release name l) as [l'|e]; simpl; [|by split].
  destruct Hplan as (Hn & -> & Hok).
  assert (Hp' : Forall plain (filter (λ a, ¬ has_name name a) l)) by by apply Forall_filter_keep.
  pose proof (Save_spec r2 _ Hp') as Hs. destruct (Save fault _ r2) as [res r3].
  destruct res as [u|e| |]; [by split_and!|destruct Hs as [E3 Hnq]|done..].
  split; [eapply holds_file; [|exact Hh2]; done|tauto].
Qed.
End operations.

(** ** Processes that share the registry *)

Inductive request :=
| Allocate (now : Time) (devnetName : string) (validatorCount : Z)
| Free (devnetName : string).

(** What a finished request did to the registry. *)
Inductive event :=
| Granted (a : PortAllocation)
| Freed (devnetName : string).

(** Where a process is: before the lock, holding it, with the list it loaded, done. *)
Inductive pc :=
| Waiting (q : request)
| Locked (q : request)
| Loaded (q : request) (allocations : list PortAllocation)
| Ended (res : outcome (option PortAllocation)).

Section system.
Context `{RegistryCodecLaws} (fault : nat → option error).

Definition plan (q : request) (l : list PortAllocation) :
    result (option PortAllocation * list PortAllocation * event) :=
  match q with
  | Allocate now name count =>
      try p := plan_allocate now name count l in Ok (Some p.1, p.2, Granted p.1)
  | Free name => try l' := plan_release name l in Ok (None, l', Freed name)
  end.

(** The next part of a request, which nothing of this process interrupts. *)
Definition turn (p : pc) : M Registry (pc * option event) :=
  match p with
  | Waiting q =>
      do! res := take_lock fault in
      done_with (match res with Returns _ => Locked q | r => Ended (stop r) end, None)
  | Locked q =>
      do! res := wrapping "failed to load allocations" (Load fault) in
      done_with (match res with Returns l => Loaded q l | r => Ended (stop r) end, None)
  | Loaded q l =>
      match plan q l with
      | Err e => done_with (Ended (Fails e), None)
      | Ok (a, l', ev) =>
          do! res := Save fault l' in
          done_with (match res with
            | Returns _ => (Ended (Returns a), Some ev)
            | r => (Ended (stop r), None)
            end)
      end
  | Ended res => done_with (Ended res, None)
  end.

(** Running a request without interruption. *)
Definition alone (q : request) : M Registry (pc * option event) :=
  do! p := turn (Waiting q) in do! p := turn p.1 in turn p.1.

(** The turns together are the operation. *)
Lemma alone_allocates now name count r :
  validateInputs name count = None →
  (alone (Allocate now name count) r).1.1 =
    Ended (match (AllocateRange fault now name count r).1 with
           | Returns a => Returns (Some a)
           | r => stop r
           end) ∧
  (alone (Allocate now name count) r).2 = (AllocateRange fault now name count r).2.
Proof.
  intros Hv. unfold alone, AllocateRange, WithLock. rewrite Hv. rewrite bindE_eq.
  rewrite !bindM_eq. simpl. rewrite bindM_eq.
  destruct (take_lock fault r) as [[u|e| |] r1]; try done. simpl. rewrite bindM_eq, bindE_eq.
  destruct (wrapping _ (Load fault) r1) as [[l|e| |] r2]; try done. simpl. rewrite bindE_eq.
  destruct (plan_allocate now name count l) as [[a l']|e]; [|done]. simpl. rewrite bindM_eq, bindE_eq.
  by destruct (Save fault l' r2) as [[u'|e| |] r3].
Qed.

Record System := mkSystem {
  sy_registry : Registry;
  sy_holder : option nat;
  sy_procs : gmap nat pc;
  sy_log : list event
}.

Definition ended (p : pc) : bool := match p with Ended _ => true | _ => false end.
Definition log_of (e : option event) : list event := match e with Some e => [e] | None => [] end.

(** A request that gets as far as the lock, for a devnet whose name survives the file. *)
Definition valid (q : request) : Prop :=
  match q with
  | Allocate _ name count => validateInputs name count = None ∧ plain_name name
  | Free _ => True
  end.

Inductive step : System → System → Prop :=
| step_request s p q :
    sy_procs s !! p = None →
    valid q →
    step s (mkSystem (sy_registry s) (sy_holder s) (<[p := Waiting q]> (sy_procs s)) (sy_log s))
| step_lock s p q r' p' e :
    sy_procs s !! p = Some (Waiting q) → sy_holder s = None →
    turn (Waiting q) (sy_registry s) = ((p', e), r') →
    step s (mkSystem r' (if ended p' then None else Some p) (<[p := p']> (sy_procs s))
              (sy_log s ++ log_of e))
| step_turn s p p0 r' p' e :
    sy_procs s !! p = Some p0 → sy_holder s = Some p → turn p0 (sy_registry s) = ((p', e), r') →
    step s (mkSystem r' (if ended p' then None else Some p) (<[p := p']> (sy_procs s))
              (sy_log s ++ log_of e))
| step_kill s p :
    step s (mkSystem (sy_registry s) (if bool_decide (sy_holder s = Some p) then None else sy_holder s)
              (delete p (sy_procs s)) (sy_log s)).

(** The registry that the log leads to. *)
Definition replay (l : list PortAllocation) (e : event) : list PortAllocation :=
  match e with
  | Granted a => a :: l
  | Freed name => filter (λ a, ¬ has_name name a) l
  end.
Definition live (l0 : list PortAllocation) (log : list event) : list PortAllocation :=
  foldl replay l0 log.

Inductive reachable (l0 : list PortAllocation) : System → Prop :=
| reachable_start r : holds r l0 → reachable l0 (mkSystem r None ∅ [])
| reachable_step s s' : reachable l0 s → step s s' → reachable l0 s'.
End system.


Section safety.
Context `{RegistryCodecLaws} (fault : nat → option error).

Definition waiting (p : pc) : bool := match p with Waiting _ => true | _ => false end.
Definition request_of (p : pc) : option request :=
  match p with Waiting q | Locked q | Loaded q _ => Some q | Ended _ => None end.

(** What a process knows: that its request is valid; in the critical section, that it
    has the lock and what the file holds; when it was granted a range, that the log has it. *)
Definition knows (s : System) (l : list PortAllocation) (p : nat) (p0 : pc) : Prop :=
  match p0 with
  | Waiting q => valid q
  | Locked q => valid q ∧ sy_holder s = Some p
  | Loaded q l' => valid q ∧ sy_holder s = Some p ∧ l' = l
  | Ended (Returns (Some a)) => Granted a ∈ sy_log s
  | Ended _ => True
  end.

Record safe (l0 : list PortAllocation) (s : System) (l : list PortAllocation) : Prop := {
  safe_holds : holds (sy_registry s) l;
  safe_ok : registry_ok l;
  safe_plain : Forall plain l;
  safe_live : l ≡ₚ live l0 (sy_log s);
  safe_knows : map_Forall (knows s l) (sy_procs s)
}.

(** A turn with the lock in hand. *)
Lemma turn_spec p s l p0 :
  holds (sy_registry s) l → registry_ok l → Forall plain l → knows s l p p0 →
  let '((p', e), r') := turn fault p0 (sy_registry s) in
  ∃ l', holds r' l' ∧ registry_ok l' ∧ Forall plain l' ∧ l' ≡ₚ foldl replay l (log_of e) ∧
    knows (mkSystem r' (if ended p' then None else Some p) ∅ (sy_log s ++ log_of e)) l' p p'.
Proof.
  intros Hh Hok Hp Hk. destruct p0 as [q|q|q l1|res]; simpl in Hk |- *.
  - rewrite bindM_eq. pose proof (take_lock_spec fault (sy_registry s)) as Ht.
    destruct (take_lock fault _) as [res r']. destruct Ht as (E & [->|[e ->]] & _); simpl;
      exists l; split_and!; try done; by eapply holds_file.
  - destruct Hk as [Hv Hs]. rewrite bindM_eq. pose proof (Load_spec fault _ _ Hh) as Hload.
    destruct (wrapping _ _ _) as [res r']. destruct Hload as (E & [->|[e ->]] & _); simpl;
      exists l; split_and!; try done; by eapply holds_file.
  - destruct Hk as (Hv & Hs & ->). destruct q as [now name count|name]; simpl.
    + destruct Hv as [Hv Hn]. apply validateInputs_count in Hv.
      pose proof (plan_allocate_spec now name count l Hok Hv) as Hplan.
      destruct (plan_allocate now name count l) as [[a l']|e]; simpl; [|by exists l].
      destruct Hplan as (_ & _ & _ & Ha & _ & _ & Hperm & Hok').
      assert (Hp' : Forall plain l') by (rewrite Hperm; constructor; auto).
      rewrite bindM_eq. pose proof (Save_spec fault (sy_registry s) l' Hp') as Hsv.
      destruct (Save fault l' _) as [[u|e| |] r']; simpl; [|destruct Hsv as [E _]|done..].
      * exists l'. split_and!; try done. set_solver.
      * exists l. split_and!; try done. by eapply holds_file.
    + pose proof (plan_release_spec name l Hok) as Hplan.
      destruct (plan_release name l) as [l'|e]; simpl; [|by exists l]. destruct Hplan as (_ & -> & Hok').
      assert (Hp' : Forall plain (filter (λ a, ¬ has_name name a) l)) by by apply Forall_filter_keep.
      rewrite bindM_eq. pose proof (Save_spec fault (sy_registry s) _ Hp') as Hsv.
      destruct (Save fault _ _) as [[u|e| |] r']; simpl; [|destruct Hsv as [E _]|done..].
      * eexists. by split_and!.
      * exists l. split_and!; try done. by eapply holds_file.
  - exists l. split_and!; try done. destruct res as [[a|]| | |]; try done.
    rewrite app_nil_r. done.
Qed.

Lemma replay_perm l l' es : l ≡ₚ l' → foldl replay l es ≡ₚ foldl replay l' es.
Proof.
  revert l l'. induction es as [|e es IH]; intros l l' Hl; [done|]. apply IH.
  destruct e; simpl; by rewrite Hl.
Qed.

(** What the others know stays true when a turn of [p] is over. *)
Lemma knows_others s s' l l' p0 p p' :
  p ≠ p0 → sy_holder s = Some p0 ∨ sy_holder s = None →
  (∀ a, Granted a ∈ sy_log s → Granted a ∈ sy_log s') →
  knows s l p p' → knows s' l' p p'.
Proof. intros Hne [Hs|Hs] Hlog; destruct p' as [|q|q l1|[[a|]| | |]]; simpl; naive_solver. Qed.

Lemma safe_turn l0 s l p p0 r' p' e :
  safe l0 s l → sy_holder s = Some p ∨ (sy_holder s = None ∧ waiting p0 = true) →
  sy_procs s !! p = Some p0 → turn fault p0 (sy_registry s) = ((p', e), r') →
  ∃ l', safe l0 (mkSystem r' (if ended p' then None else Some p) (<[p := p']> (sy_procs s))
                  (sy_log s ++ log_of e)) l'.
Proof.
  intros [Hh Hok Hp Hl Hk] Hs Ep Et. pose proof (turn_spec p s l p0 Hh Hok Hp (Hk _ _ Ep)) as Ht.
  rewrite Et in Ht. destruct Ht as (l' & Hh' & Hok' & Hp' & Hl' & Hk'). exists l'. split; simpl; try done.
  - rewrite Hl'. unfold live. rewrite foldl_app. by apply replay_perm.
  - intros p1 p1' E1. destruct (decide (p1 = p)) as [->|Hne].
    + rewrite lookup_insert_eq in E1. injection E1 as <-.
      destruct p' as [|q|q l1|[[a|]| | |]]; exact Hk'.
    + rewrite lookup_insert_ne in E1 by done. eapply (knows_others s _ l l' p); [done| |..|by apply Hk].
      * destruct Hs as [?|[? _]]; [by left|by right].
      * simpl. set_solver.
Qed.

Lemma safe_step l0 s s' l : safe l0 s l → step fault s s' → ∃ l', safe l0 s' l'.
Proof.
  intros Hsafe Hstep. destruct Hstep as [s p q Ep Hv|s p q r' p' e Ep Hs Et|s p p0 r' p' e Ep Hs Et|s p].
  - exists l. destruct Hsafe as [Hh Hok Hp Hl Hk]. split; simpl; try done.
    apply map_Forall_insert_2; [done|]. intros p1 p1' E1. exact (Hk _ _ E1).
  - apply (safe_turn _ s l p (Waiting q)); [done|by right|done..].
  - apply (safe_turn _ s l p p0); [done|by left|done..].
  - exists l. destruct Hsafe as [Hh Hok Hp Hl Hk]. split; simpl; try done.
    intros p1 p1' [Hne E1]%lookup_delete_Some. specialize (Hk _ _ E1).
    destruct p1' as [|q|q l1|[[a|]| | |]]; simpl in Hk |- *; try done;
      rewrite bool_decide_false; naive_solver congruence.
Qed.

(** C28: no allocation is lost and no port given twice, however processes interleave,
    fail and die.  At any moment the file holds exactly the allocations granted and not
    released, in the order the requests finished; they are disjoint ranges within the
    global one for different devnets; every range a process was given is among those
    granted; and at most one process is between the lock and the end of its request. *)
Theorem registry_loses_nothing l0 s :
  registry_ok l0 → Forall plain l0 → reachable fault l0 s →
  (∃ l, holds (sy_registry s) l ∧ l ≡ₚ live l0 (sy_log s) ∧ registry_ok l) ∧
  (∀ p a, sy_procs s !! p = Some (Ended (Returns (Some a))) → Granted a ∈ sy_log s) ∧
  (∀ p1 p2 c1 c2, sy_procs s !! p1 = Some c1 → sy_procs s !! p2 = Some c2 →
     waiting c1 = false → ended c1 = false → waiting c2 = false → ended c2 = false → p1 = p2).
Proof.
  intros Hok0 Hp0 Hr. assert (Hs : ∃ l, safe l0 s l).
  { induction Hr as [r Hh|s s' _ [l Hl] Hstep]; [|by eapply safe_step].
    exists l0. by split. }
  destruct Hs as [l [Hh Hok Hp Hl Hk]]. split_and!.
  - by exists l.
  - intros p a E. exact (Hk _ _ E).
  - intros p1 p2 c1 c2 E1 E2 W1 D1 W2 D2. apply Hk in E1, E2.
    destruct c1, c2; simpl in *; try done; naive_solver congruence.
Qed.
End safety.

(** ** A concrete codec *)

#[export] Instance PortAllocation_eq_dec : EqDecision PortAllocation.
Proof. solve_decision. Defined.
#[export] Program Instance PortAllocation_countable : Countable PortAllocation :=
  inj_countable'
    (λ a, (pa_DevnetName a, pa_NetworkName a, pa_Subnet a, pa_PortRangeStart a, pa_PortRangeEnd a,
           pa_ValidatorCount a, pa_AllocatedAt a))
    (λ '(a, b, c, d, e, f, g), mkPortAllocation a b c d e f g) _.
Next Obligation. by intros []. Qed.

(** The contents as the decimal number that encodes them. *)
Definition number_registry (l : list PortAllocation) : string := pretty (Npos (countable.encode l)).

#[export] Instance registry_number_codec : RegistryCodec := {|
  marshal_registry l := Ok (number_registry l);
  unmarshal_registry data :=
    match parse_unsigned data with
    | Some (Npos p) => match countable.decode p with
                       | Some l => Ok l
                       | None => Err (Errorf "unexpected end of JSON input")
                       end
    | _ => Err (Errorf "unexpected end of JSON input")
    end
|}.

Lemma number_registry_roundtrip l : unmarshal_registry (number_registry l) = Ok l.
Proof.
  unfold unmarshal_registry, registry_number_codec, number_registry.
  destruct (pretty_N_parse (Npos (countable.encode l))) as (c & t & E & Hp & _).
  by rewrite E, Hp, countable.decode_encode.
Qed.

Lemma number_registry_ne l : number_registry l ≠ "".
Proof. intros E. pose proof (number_registry_roundtrip l) as Hr. rewrite E in Hr. discriminate Hr. Qed.

#[export] Program Instance registry_number_laws : RegistryCodecLaws := {| plain := λ _, True |}.
Next Obligation. intros l [= E]. by eapply number_registry_ne. Qed.
Next Obligation. intros l data _ [= <-]. apply number_registry_roundtrip. Qed.

Lemma holds_number ops l : holds (mkRegistry (Some (number_registry l)) ops) l.
Proof.
  unfold holds. cbn [rg_file]. rewrite bool_decide_false by apply number_registry_ne.
  apply number_registry_roundtrip.
Qed.

Definition one_devnet : PortAllocation :=
  mkPortAllocation "a" "devnet-a-network" "" 26000 26399 4 0.
Definition one_devnet_file : Registry := mkRegistry (Some (number_registry [one_devnet])) 0.

Lemma one_devnet_ok : registry_ok [one_devnet].
Proof. split; [|by split]. constructor; [|constructor]. split; vm_compute; done. Qed.

#[local] Opaque number_registry.

(** With four validators of another devnet in the file, two more get the ports from 26400. *)
Lemma AllocateRange_outcomes_witness :
  ∃ a l', (AllocateRange (λ _, None) 1 "b" 2 one_devnet_file).1 = Returns a ∧
    pa_PortRangeStart a = 26400%Z ∧
    holds (AllocateRange (λ _, None) 1 "b" 2 one_devnet_file).2 l' ∧ l' ≡ₚ [a; one_devnet].
Proof.
  pose proof (AllocateRange_outcomes (λ _, None) 1 "b" 2 _ _ (holds_number 0 [one_devnet])
    one_devnet_ok (Forall_true _ _ (λ _, I)) (λ _ _ _ _, I)) as Ho.
  fold one_devnet_file in Ho.
  destruct (AllocateRange _ _ _ _ _) as [[a|e| |] r']; cbn [fst snd] in *; [| |destruct Ho..].
  - destruct Ho as (_ & _ & _ & _ & (H1 & H2 & H3) & Hmin & l' & Hl' & Hp & _). exists a, l'.
    split; [reflexivity|]. split; [|by split]. apply Forall_cons in H3 as [H3 _].
    assert (Hle : (pa_PortRangeStart a ≤ 26400)%Z).
    { apply Hmin. split; [by vm_compute|]. split; [by vm_compute|]. constructor; [by right|done]. }
    cbv [GlobalPortRangeStart PortsPerValidator one_devnet pa_PortRangeEnd] in *.
    change (pa_PortRangeStart (mkPortAllocation _ _ _ ?s _ _ _)) with s in H3. lia.
  - exfalso. destruct Ho as [_ Ho]. destruct Ho as [Ho|[Ho|Ho]].
    + split; [done|]. intros l. by exists (number_registry l).
    + by apply Ho.
    + apply Exists_cons in Ho as [Ho|Ho]; [discriminate Ho|by apply Exists_nil in Ho].
    + apply (Ho 26400%Z). split; [by vm_compute|]. split; [by vm_compute|]. constructor; [by right|done].
Defined.

(** Two processes ask at the same time; the first is granted its range, and the second
    still waits for the lock. *)
Lemma registry_loses_nothing_witness :
  ∃ s, reachable (λ _, None) [] s ∧ sy_log s = [Granted one_devnet] ∧
    sy_procs s !! 2%nat = Some (Waiting (Allocate 0 "b" 2)) ∧
    ∃ l, holds (sy_registry s) l ∧ l ≡ₚ [one_devnet] ∧ registry_ok l.
Proof.
  assert (Hr : ∃ s, reachable (λ _, None) [] s ∧ sy_log s = [Granted one_devnet] ∧
    sy_procs s !! 2%nat = Some (Waiting (Allocate 0 "b" 2))).
  { eexists. split; [|split].
    - eapply reachable_step; [eapply reachable_step; [eapply reachable_step; [eapply reachable_step;
        [eapply reachable_step; [apply (reachable_start _ _ (mkRegistry None 0)); reflexivity|]|]|]|]|].
      + apply (step_request _ _ 1%nat (Allocate 0 "a" 4)); [reflexivity|by split].
      + apply (step_request _ _ 2%nat (Allocate 0 "b" 2)); [reflexivity|by split].
      + eapply (step_lock _ _ 1%nat); reflexivity.
      + eapply (step_turn _ _ 1%nat); reflexivity.
      + eapply (step_turn _ _ 1%nat); reflexivity.
    - reflexivity.
    - reflexivity. }
  destruct Hr as (s & Hr & Hlog & H2). exists s. split; [exact Hr|]. split; [exact Hlog|].
  split; [exact H2|].
  destruct (registry_loses_nothing (λ _, None) [] s (conj (Forall_nil_2 _) I) (Forall_nil_2 _) Hr)
    as [(l & Hl & Hp & Hok) _].
  exists l. rewrite Hlog in Hp. by split_and!.
Defined.
