(* ===== verification/Docker.v ===== *)
(** * Docker deployments: data and environment
    ([internal/domain/ports/orchestrator.go], [internal/infrastructure/docker/errors.go])

    The [docker] program, the files and the port allocator answer any function of
    the calls made so far, which [Trace] keeps with their answers. *)

From stdpp Require Import base tactics numbers list strings gmap.
From S2P Require Import Prelude Trace PortAllocator.

(** ** Data *)

Record ResourceLimits := mkResourceLimits {
  rl_Memory : string;
  rl_CPUs : string
}.

Record CustomBuildConfig := mkCustomBuildConfig {
  cb_PluginPath : string;
  cb_ChainBinary : string;
  cb_BuildArgs : gmap string string
}.

Record DeploymentConfig := mkDeploymentConfig {
  dc_DevnetName : string;
  dc_ValidatorCount : Z;
  dc_Image : string;
  dc_ChainID : string;
  dc_HomeDir : string;
  dc_ResourceLimits : option ResourceLimits;
  dc_CustomBuild : option CustomBuildConfig
}.

Record PortAssignment := mkPortAssignment {
  pn_RPC : Z;
  pn_P2P : Z;
  pn_GRPC : Z;
  pn_EVMRPC : Z;
  pn_EVMWS : Z
}.

Record ContainerInfo := mkContainerInfo {
  ci_ID : string;
  ci_Name : string;
  ci_NodeIndex : Z;
  ci_Ports : PortAssignment;
  ci_HealthStatus : string
}.

Record DeploymentResult := mkDeploymentResult {
  dr_DevnetName : string;
  dr_NetworkID : string;
  dr_Subnet : string;
  dr_Containers : list ContainerInfo;
  dr_PortAllocation : PortAllocation;
  dr_Duration : Duration;
  dr_Success : bool
}.

Inductive DeploymentPhase :=
| PhaseNone
| PhaseValidating
| PhaseNetworkCreating
| PhasePortAllocating
| PhaseImagePulling
| PhaseContainerStarting
| PhaseHealthChecking
| PhaseRunning
| PhaseRollingBack
| PhaseFailed.

Record DeploymentError := mkDeploymentError {
  de_Phase : DeploymentPhase;
  de_Component : string;
  de_Error : error;
  de_Timestamp : Time
}.

Record DeploymentState := mkDeploymentState {
  ds_DevnetName : string;
  ds_Phase : DeploymentPhase;
  ds_NetworkID : option string;
  ds_PortRange : option PortAllocation;
  ds_StartedContainers : list string;
  ds_HealthyContainers : list string;
  ds_Errors : list DeploymentError;
  ds_StartedAt : Time
}.
#[export] Instance eta_DeploymentState : Settable DeploymentState := mkSettable (λ x,
  mkDeploymentState (ds_DevnetName x) (ds_Phase x) (ds_NetworkID x) (ds_PortRange x)
    (ds_StartedContainers x) (ds_HealthyContainers x) (ds_Errors x) (ds_StartedAt x)).

(** What the state file keeps: everything but the errors. *)
Record persistedState := mkPersistedState {
  ps_DevnetName : string;
  ps_Phase : DeploymentPhase;
  ps_NetworkID : option string;
  ps_PortRange : option PortAllocation;
  ps_StartedContainers : list string;
  ps_HealthyContainers : list string;
  ps_StartedAt : Time
}.

(** Sentinel errors are kept as their text, which the errors made of them begin with. *)
Definition ErrValidationFailed : string := "deployment configuration validation failed".
Definition ErrPortAllocationFailed : string := "failed to allocate port range".
Definition ErrPortConflictDetected : string := "allocated ports conflict with host services".
Definition ErrImagePullFailed : string := "failed to pull Docker image".
Definition ErrCustomBuildFailed : string := "failed to build custom Docker image".
Definition ErrDockerDaemonUnavailable : string := "docker daemon not accessible".
Definition ErrInvalidDevnetName : string := "devnet name contains invalid characters".
Definition ErrNoAvailableSubnets : string := "no available subnets in 172.x.0.0/16 range".
Definition ErrNetworkCreationFailed : string := "docker network create command failed".
Definition ErrNetworkNotFound : string := "docker network not found".
Definition ErrNetworkHasContainers : string := "network has attached containers, cannot delete".
Definition ErrNetworkDeletionFailed : string := "docker network rm command failed".

(** ** The environment *)

(** How running a program failed: with an exit status, or otherwise. *)
Inductive ExecError :=
| ExitError (code : Z)
| NotStarted (e : error).

Definition exec_error (e : ExecError) : error :=
  match e with ExitError code => Errorf ("exit status " +:+ itoa code) | NotStarted e => e end.

#[export] Instance ExecError_eq_dec : EqDecision ExecError.
Proof. solve_decision. Defined.

Record Exec := mkExec {
  ex_output : string;
  ex_failed : option ExecError
}.

Inductive FileStatus := FileExists (size : Z) | FileMissing | StatFails (e : error).
Inductive StateFile := StateRead (s : persistedState) | StateMissing | StateUnreadable (e : error)
  | StateMalformed (e : error).

(** A network as [docker network inspect] prints it. *)
Record NetworkInspect := mkNetworkInspect {
  ni_ID : string;
  ni_Name : string;
  ni_Created : string;
  ni_IPAM : list (string * string);
  ni_Labels : gmap string string
}.

Inductive Call :=
| Docker (args : list string) (r : Exec)
| Stat (path : string) (r : FileStatus)
| FileOp (op path : string) (e : option error)
| WriteState (path : string) (s : persistedState) (e : option error)
| ReadState (path : string) (r : StateFile)
| CallAllocate (devnetName : string) (count : Z) (r : result PortAllocation)
| CallRelease (devnetName : string) (e : option error)
| Conflicts (a : PortAllocation) (r : result (list Z)).

Class DockerEnv := {
  run_docker : list string → list Call → Exec;
  stat_path : string → list Call → FileStatus;
  do_file : string → string → list Call → option error;
  write_state : string → persistedState → list Call → option error;
  read_state : string → list Call → StateFile;
  do_allocate : string → Z → list Call → result PortAllocation;
  do_release : string → list Call → option error;
  find_conflicts : PortAllocation → list Call → result (list Z);
  (** [encoding/json] on what [docker network inspect] prints, and [time.Parse]. *)
  parse_networks : string → result (list NetworkInspect);
  parse_containers : string → result (list (gmap string unit));
  parse_time : string → option Time;
  clock : nat → Time;
  user : string
}.

Abbreviation D A := (M (Trace Call) A) (only parsing).

Section env.
Context `{DockerEnv}.

Definition docker (args : list string) : D Exec := ask_env (run_docker args) (Docker args).
Definition stat (path : string) : D FileStatus := ask_env (stat_path path) (Stat path).
Definition file (op path : string) : D (option error) := ask_env (do_file op path) (FileOp op path).
Definition AllocateRange (name : string) (count : Z) : Ext Call PortAllocation :=
  call (do_allocate name count) (CallAllocate name count).
Definition ReleaseRange (name : string) : D (option error) :=
  ask_env (do_release name) (CallRelease name).
Definition ValidatePortAvailability (a : PortAllocation) : Ext Call (list Z) :=
  call (find_conflicts a) (Conflicts a).
Definition time_now : D Time := now_at clock.
End env.
