(* ===== verification/DockerManager.v ===== *)
(** * Containers of nodes
    ([internal/infrastructure/node/docker.go], [node.go])

    [DockerManager] runs a node of a devnet as a container through the [docker]
    command. *)

From Stdlib Require Import Ascii.
From stdpp Require Import base tactics numbers list strings gmap pretty.
From S2P Require Import Prelude Durations Store Paths Trace PortAllocator NodeConfig Docker.

(** ** Nodes *)

Definition NodeStatusStopped : string := "stopped".
Definition NodeStatusStarting : string := "starting".
Definition NodeStatusRunning : string := "running".
Definition NodeStatusSyncing : string := "syncing".
Definition NodeStatusError : string := "error".

Record Node := mkNode {
  n_Index : Z;
  n_Name : string;
  n_NetworkName : string;
  n_BinaryName : string;
  n_HomeDir : string;
  n_Ports : PortConfig;
  n_PID : option Z;
  n_LogFile : string;
  n_ContainerID : string;
  n_ContainerName : string;
  n_Address : string;
  n_ValidatorAddress : string;
  n_ValidatorPubKey : string;
  n_Status : string
}.
#[export] Instance eta_Node : Settable Node := mkSettable (λ x,
  mkNode (n_Index x) (n_Name x) (n_NetworkName x) (n_BinaryName x) (n_HomeDir x) (n_Ports x)
    (n_PID x) (n_LogFile x) (n_ContainerID x) (n_ContainerName x) (n_Address x)
    (n_ValidatorAddress x) (n_ValidatorPubKey x) (n_Status x)).

(** A node with only these fields set. *)
Definition bare_node (index : Z) (name homeDir : string) (ports : PortConfig) : Node :=
  mkNode index name "" "" homeDir ports None "" "" "" "" "" "" NodeStatusStopped.

Definition NewNode (index : Z) (homeDir : string) : Node :=
  bare_node index ("node" +:+ itoa index) homeDir (PortConfigForNode index).

Definition PIDFilePath (n : Node) : string :=
  let binaryName := if bool_decide (n_BinaryName n = "") then "stabled" else n_BinaryName n in
  Join [n_HomeDir n; binaryName +:+ ".pid"].
Definition LogFilePath (n : Node) : string :=
  let binaryName := if bool_decide (n_BinaryName n = "") then "stabled" else n_BinaryName n in
  Join [n_HomeDir n; binaryName +:+ ".log"].
Definition RPCURL (n : Node) : string := "http://localhost:" +:+ itoa (pc_RPC (n_Ports n)).
Definition EVMRPCURL (n : Node) : string := "http://localhost:" +:+ itoa (pc_EVMRPC (n_Ports n)).
Definition GRPCURL (n : Node) : string := "localhost:" +:+ itoa (pc_GRPC (n_Ports n)).

Definition SetRunning (pid : option Z) (containerID : string) (n : Node) : Node :=
  let n := n <| n_Status := NodeStatusRunning |> in
  let n := match pid with Some p => n <| n_PID := Some p |> | None => n end in
  if bool_decide (containerID = "") then n else n <| n_ContainerID := containerID |>.
Definition SetStopped (n : Node) : Node :=
  n <| n_Status := NodeStatusStopped |> <| n_PID := None |> <| n_ContainerID := "" |>.
Definition SetError (n : Node) : Node := n <| n_Status := NodeStatusError |>.
Definition node_IsRunning (n : Node) : bool :=
  bool_decide (n_Status n = NodeStatusRunning) || bool_decide (n_Status n = NodeStatusSyncing).

Definition ContainerNameForIndex (index : Z) : string := "stable-devnet-node" +:+ itoa index.
Definition ContainerNameForNetwork (networkName : string) (index : Z) : string :=
  (if bool_decide (networkName = "") then "stable" else networkName) +:+ "-devnet-node" +:+ itoa index.
Definition DockerContainerName (n : Node) : string :=
  if bool_decide (n_ContainerName n = "") then
    if bool_decide (n_NetworkName n = "") then ContainerNameForIndex (n_Index n)
    else ContainerNameForNetwork (n_NetworkName n) (n_Index n)
  else n_ContainerName n.

(** ** The manager *)

Definition DefaultDockerImage : string := "stablelabs/stabled:latest".
Definition DockerStopTimeout : Duration := (30 * second)%Z.
Definition DefaultDockerHomeDir : string := "/data".

Definition DefaultResourceLimits : ResourceLimits := mkResourceLimits "2g" "2.0".

Record HealthCheckConfig := mkHealthCheckConfig {
  hc_Interval : Duration;
  hc_Timeout : Duration;
  hc_Retries : Z
}.
Definition DefaultHealthCheckConfig : HealthCheckConfig :=
  mkHealthCheckConfig (30 * second) (10 * second) 3.

Record ContainerConfig := mkContainerConfig {
  cc_Node : Node;
  cc_GenesisPath : string;
  cc_NetworkID : string;
  cc_ResourceLimits : option ResourceLimits;
  cc_HealthCheck : option HealthCheckConfig
}.

Record DockerManager := mkDockerManager {
  dm_Image : string;
  dm_BinaryName : string;
  dm_HomeDir : string;
  dm_EVMChainID : string
}.
#[export] Instance eta_DockerManager : Settable DockerManager := mkSettable (λ x,
  mkDockerManager (dm_Image x) (dm_BinaryName x) (dm_HomeDir x) (dm_EVMChainID x)).

Definition NewDockerManagerWithConfig (cfg : DockerManager) : DockerManager :=
  let image := TrimSpace (dm_Image cfg) in
  let homeDir := TrimSpace (dm_HomeDir cfg) in
  mkDockerManager
    (if bool_decide (image = "") then DefaultDockerImage else image)
    (TrimSpace (dm_BinaryName cfg))
    (if bool_decide (homeDir = "") then DefaultDockerHomeDir else homeDir)
    (dm_EVMChainID cfg).

Definition NewDockerManager (image : string) : DockerManager :=
  NewDockerManagerWithConfig (mkDockerManager image "" "" "").
Definition NewDockerManagerWithEVMChainID (image evmChainID : string) : DockerManager :=
  NewDockerManagerWithConfig (mkDockerManager image "" "" evmChainID).

Definition containerHomeDir (m : DockerManager) : string :=
  let home := TrimSpace (dm_HomeDir m) in
  if bool_decide (home = "") then DefaultDockerHomeDir else home.

(** [strings.Index] and [strings.LastIndex] of a character. *)
Fixpoint index_of (c : ascii) (s : string) : option nat :=
  match s with
  | EmptyString => None
  | String x s => if bool_decide (x = c) then Some 0 else S <$> index_of c s
  end.
Fixpoint last_index (c : ascii) (s : string) : option nat :=
  match s with
  | EmptyString => None
  | String x s =>
      match last_index c s with
      | Some i => Some (S i)
      | None => if bool_decide (x = c) then Some 0 else None
      end
  end.
Definition int_of (i : option nat) : Z := match i with Some i => Z.of_nat i | None => (-1)%Z end.

Definition has_suffix (c : ascii) (s : string) : bool :=
  bool_decide (String.get (String.length s - 1) s = Some c).

Definition containerBinary (m : DockerManager) : string :=
  let name := TrimSpace (dm_BinaryName m) in
  if negb (bool_decide (name = "")) then name
  else
    let ref := TrimSpace (dm_Image m) in
    if bool_decide (ref = "") then "stabled"
    else
      let ref := match index_of "@" ref with Some i => String.substring 0 i ref | None => ref end in
      let lastSlash := int_of (last_index "/" ref) in
      let lastColon := int_of (last_index ":" ref) in
      let ref := if bool_decide (lastSlash < lastColon)%Z
                 then String.substring 0 (Z.to_nat lastColon) ref else ref in
      let name := if bool_decide (0 ≤ lastSlash)%Z
                  then String.substring (Z.to_nat (lastSlash + 1)) (String.length ref) ref else ref in
      if bool_decide (name = "") then "stabled"
      else if has_suffix "d" name then name
      else name +:+ "d".

Example containerBinary_default : containerBinary (NewDockerManager "") = "stabled".
Proof. vm_compute. reflexivity. Qed.
Example containerBinary_port :
  containerBinary (NewDockerManager "localhost:5000/org/gaia:v1@sha256:00") = "gaiad".
Proof. vm_compute. reflexivity. Qed.

(** ** Commands *)

Section commands.
Context `{DockerEnv}.

(** The arguments of [docker run] for a node, from its manager and its configuration. *)
Definition publish (port : Z) : list string := ["-p"; itoa port +:+ ":" +:+ itoa port].

Definition network_args (config : ContainerConfig) : list string :=
  let ports := n_Ports (cc_Node config) in
  if negb (bool_decide (cc_NetworkID config = "")) then
    ["--network"; cc_NetworkID config] ++ publish (pc_RPC ports) ++ publish (pc_P2P ports) ++
    publish (pc_GRPC ports) ++ publish (pc_EVMRPC ports) ++ publish (pc_EVMWS ports)
  else ["--network"; "host"].

Definition limit_args (config : ContainerConfig) : list string :=
  match cc_ResourceLimits config with
  | Some limits =>
      (if bool_decide (rl_Memory limits = "") then [] else ["--memory"; rl_Memory limits]) ++
      (if bool_decide (rl_CPUs limits = "") then [] else ["--cpus"; rl_CPUs limits])
  | None => []
  end.

Definition health_args (config : ContainerConfig) : list string :=
  match cc_HealthCheck config with
  | Some hc =>
      ["--health-cmd"; "curl -f http://localhost:" +:+ itoa (pc_RPC (n_Ports (cc_Node config))) +:+
         "/status || exit 1";
       "--health-interval"; duration_string (hc_Interval hc);
       "--health-timeout"; duration_string (hc_Timeout hc);
       "--health-retries"; itoa (hc_Retries hc)]
  | None => []
  end.

Definition run_args (m : DockerManager) (config : ContainerConfig) : list string :=
  let node := cc_Node config in
  let ports := n_Ports node in
  let containerHome := containerHomeDir m in
  ["run"; "-d"; "--name"; ContainerNameForIndex (n_Index node)] ++
  network_args config ++ limit_args config ++ health_args config ++
  ["--user"; user; "-e"; "HOME=" +:+ containerHome;
   "-v"; n_HomeDir node +:+ ":" +:+ containerHome;
   "-v"; cc_GenesisPath config +:+ ":" +:+ containerHome +:+ "/config/genesis.json:ro";
   "--entrypoint"; containerBinary m; dm_Image m] ++
  ["start"; "--home"; containerHome;
   "--rpc.laddr=tcp://0.0.0.0:" +:+ itoa (pc_RPC ports);
   "--p2p.laddr=tcp://0.0.0.0:" +:+ itoa (pc_P2P ports);
   "--grpc.address=0.0.0.0:" +:+ itoa (pc_GRPC ports);
   "--api.enabled-unsafe-cors=true"; "--api.enable=true";
   "--json-rpc.address=0.0.0.0:" +:+ itoa (pc_EVMRPC ports);
   "--json-rpc.ws-address=0.0.0.0:" +:+ itoa (pc_EVMWS ports)] ++
  (if bool_decide (dm_EVMChainID m = "") then []
   else ["--evm.evm-chain-id=" +:+ dm_EVMChainID m]).

(** The reference of a container in [IsRunning], and in the other commands. *)
Definition id_or_index (node : Node) : string :=
  if bool_decide (n_ContainerID node = "") then ContainerNameForIndex (n_Index node)
  else n_ContainerID node.
Definition containerRef (node : Node) : string :=
  if bool_decide (n_ContainerID node = "") then
    if bool_decide (n_ContainerName node = "") then ContainerNameForIndex (n_Index node)
    else n_ContainerName node
  else n_ContainerID node.

Definition IsRunning (node : Node) : D bool :=
  do! r := docker ["inspect"; "-f"; "{{.State.Running}}"; id_or_index node] in
  done_with (match ex_failed r with
             | Some _ => false
             | None => bool_decide (TrimSpace (ex_output r) = "true")
             end).

Definition removeContainer (name : string) : D unit :=
  do! _ := docker ["rm"; "-f"; name] in done_with tt.

(** The node that was started. *)
Definition StartWithConfig (m : DockerManager) (config : ContainerConfig) : Ext Call Node :=
  let node := cc_Node config in
  let containerName := ContainerNameForIndex (n_Index node) in
  do! running := IsRunning node in
  if running then fail (Errorf ("container " +:+ containerName +:+ " is already running"))
  else
    run! removeContainer containerName in
    do! r := docker (run_args m config) in
    match ex_failed r with
    | Some e => fail (Wrap "failed to start container" (exec_error e))
    | None =>
        ret (node <| n_ContainerID := TrimSpace (ex_output r) |>
                  <| n_ContainerName := containerName |> <| n_Status := NodeStatusStarting |>)
    end.

Definition Start (m : DockerManager) (node : Node) (genesisPath : string) : Ext Call Node :=
  StartWithConfig m (mkContainerConfig node genesisPath "" None None).

(** Whole seconds, rounded down towards zero. *)
Definition stop_seconds (timeout : Duration) : Z :=
  let timeoutSec := (Z.quot timeout second)%Z in
  if bool_decide (timeoutSec < 1)%Z then Z.quot DockerStopTimeout second else timeoutSec.

Definition Stop (node : Node) (timeout : Duration) : Ext Call Node :=
  do! r := docker ["stop"; "-t"; itoa (stop_seconds timeout); containerRef node] in
  match ex_failed r with
  | Some e =>
      if contains (ex_output r) "No such container" then ret (SetStopped node)
      else fail (Errorf ("failed to stop container: " +:+ Error (exec_error e) +:+
                         String "010" "Output: " +:+ ex_output r))
  | None => ret (SetStopped node)
  end.

Definition GetLogs (node : Node) (tail : Z) (since : string) : Ext Call string :=
  let args := ["logs"] ++ (if bool_decide (0 < tail)%Z then ["--tail"; itoa tail] else []) ++
              (if bool_decide (since = "") then [] else ["--since"; since]) ++ [containerRef node] in
  do! r := docker args in
  match ex_failed r with
  | Some e => fail (Wrap "failed to get logs" (exec_error e))
  | None => ret (ex_output r)
  end.

Definition PullImage (m : DockerManager) : Ext Call unit :=
  do! r := docker ["pull"; dm_Image m] in
  match ex_failed r with
  | Some e => fail (Errorf ("failed to pull image: " +:+ Error (exec_error e) +:+
                            String "010" "Output: " +:+ ex_output r))
  | None => ret tt
  end.

(** [ImagePullError.Error]. *)
Definition ImagePullError (image message : string) : error :=
  Errorf ("failed to pull docker image '" +:+ image +:+ "': " +:+ message).

Definition ValidateImage (m : DockerManager) : Ext Call unit :=
  do! check := docker ["images"; "-q"; dm_Image m] in
  if bool_decide (ex_failed check = None) && negb (bool_decide (TrimSpace (ex_output check) = ""))
  then ret tt
  else
    do! r := docker ["pull"; dm_Image m] in
    let mentions := contains (ex_output r) in
    match ex_failed r with
    | None => ret tt
    | Some e =>
        if mentions "not found" || mentions "manifest unknown" || mentions "does not exist"
        then fail (ImagePullError (dm_Image m) "image not found in registry")
        else if mentions "unauthorized" || mentions "denied"
        then fail (ImagePullError (dm_Image m) "authentication required or access denied")
        else if mentions "timeout" || mentions "connection refused"
        then fail (ImagePullError (dm_Image m) "registry connection failed (check network)")
        else fail (ImagePullError (dm_Image m) (Error (exec_error e)))
    end.

Definition IsDockerAvailable : D bool :=
  do! r := docker ["info"] in done_with (bool_decide (ex_failed r = None)).

(** A command of the chain binary in a container that is removed after it. *)
Definition once_args (m : DockerManager) (nodeDir : string) : list string :=
  let containerHome := containerHomeDir m in
  ["run"; "--rm"; "--user"; user; "-e"; "HOME=" +:+ containerHome;
   "-v"; nodeDir +:+ ":" +:+ containerHome; "--entrypoint"; containerBinary m; dm_Image m].

Definition Init (m : DockerManager) (nodeDir moniker chainID : string) : Ext Call unit :=
  do! r := docker (once_args m nodeDir ++
                   ["init"; moniker; "--chain-id"; chainID; "--home"; containerHomeDir m]) in
  match ex_failed r with
  | Some e => fail (Wrap ("docker init failed: " +:+ ex_output r) (exec_error e))
  | None => ret tt
  end.

Definition GetNodeID (m : DockerManager) (nodeDir : string) : Ext Call string :=
  do! r := docker (once_args m nodeDir ++ ["comet"; "show-node-id"; "--home"; containerHomeDir m]) in
  match ex_failed r with
  | Some e => fail (Wrap "docker show-node-id failed" (exec_error e))
  | None => ret (TrimSpace (ex_output r))
  end.

(** The output goes to the file, which is removed when the export fails or is empty. *)
Definition Export (m : DockerManager) (nodeDir destPath : string) : Ext Call unit :=
  do! created := file "create" destPath in
  match created with
  | Some e => fail (Wrap "failed to create output file" e)
  | None =>
      do! r := docker (once_args m nodeDir ++ ["export"; "--home"; containerHomeDir m]) in
      match ex_failed r with
      | Some e =>
          do! _ := file "remove" destPath in
          fail (Wrap "docker export failed" (exec_error e))
      | None =>
          do! info := stat destPath in
          match info with
          | FileExists size =>
              if bool_decide (size = 0)%Z then
                do! _ := file "remove" destPath in
                fail (Errorf "exported genesis is empty or missing")
              else ret tt
          | _ =>
              do! _ := file "remove" destPath in
              fail (Errorf "exported genesis is empty or missing")
          end
      end
  end.
End commands.
