(* ===== verification/DockerNetwork.v ===== *)
(** * Networks of Docker devnets
    ([internal/infrastructure/docker/network_manager.go])

    Each devnet gets a bridge network with the first subnet [172.X.0.0/16] that no
    network on the host has. *)

From Stdlib Require Import Ascii.
From stdpp Require Import base tactics numbers list strings gmap.
From S2P Require Import Prelude Trace PortAllocator NodeConfig Docker.

Record NetworkInfo := mkNetworkInfo {
  nw_ID : string;
  nw_Name : string;
  nw_Subnet : string;
  nw_Gateway : string;
  nw_DevnetName : string;
  nw_CreatedAt : Time
}.

Definition name_char (c : ascii) : bool :=
  let n := nat_of_ascii c in
  (bool_decide (97 ≤ n) && bool_decide (n ≤ 122)) || (bool_decide (65 ≤ n) && bool_decide (n ≤ 90)) ||
  (bool_decide (48 ≤ n) && bool_decide (n ≤ 57)) || bool_decide (c = "-"%char).

(** The regular expression [^[a-zA-Z0-9-]+$] on a name that is not empty. *)
Definition validateDevnetName (name : string) : option error :=
  if bool_decide (name = "") then Some (Errorf ErrInvalidDevnetName)
  else if forallb name_char (String.list_ascii_of_string name) then None
  else Some (Errorf ErrInvalidDevnetName).

Definition subnet_of (octet : Z) : string := "172." +:+ itoa octet +:+ ".0.0/16".

Definition networkName (devnetName : string) : string := "devnet-" +:+ devnetName +:+ "-network".

(** Whether a string of [docker]'s output is one of its lines' identifiers. *)
Definition network_ids (output : string) : list string := split_on "010" (TrimSpace output).

Section networks.
Context `{DockerEnv}.

(** A network that cannot be inspected has no subnet. *)
Definition GetNetworkSubnet (networkID : string) : D string :=
  do! r := docker ["network"; "inspect"; networkID; "--format";
                   "{{range .IPAM.Config}}{{.Subnet}}{{end}}"] in
  done_with (match ex_failed r with Some _ => "" | None => TrimSpace (ex_output r) end).

Fixpoint subnets_of (networkIDs : list string) : D (list string) :=
  match networkIDs with
  | [] => done_with []
  | networkID :: rest =>
      if bool_decide (networkID = "") then subnets_of rest
      else
        do! subnet := GetNetworkSubnet networkID in
        do! subnets := subnets_of rest in
        done_with (if bool_decide (subnet = "") then subnets else subnet :: subnets)
  end.

Definition listExistingSubnets : Ext Call (list string) :=
  do! r := docker ["network"; "ls"; "--format"; "{{.ID}}"] in
  match ex_failed r with
  | Some _ => fail (Errorf ErrDockerDaemonUnavailable)
  | None => lift (subnets_of (network_ids (ex_output r)))
  end.

Definition findAvailableSubnet : Ext Call string :=
  try! existingSubnets := listExistingSubnets in
  match list_find (λ octet, subnet_of octet ∉ existingSubnets) (seqZ 20 235) with
  | Some (_, octet) => ret (subnet_of octet)
  | None => fail (Errorf ErrNoAvailableSubnets)
  end.

(** The network's identifier and its subnet. *)
Definition CreateNetwork (devnetName : string) : Ext Call (string * string) :=
  match validateDevnetName devnetName with
  | Some e => fail e
  | None =>
      try! subnet := findAvailableSubnet in
      do! r := docker ["network"; "create"; "--driver"; "bridge"; "--subnet"; subnet;
                       "--label"; "app=devnet-builder"; "--label"; "devnet-name=" +:+ devnetName;
                       networkName devnetName] in
      match ex_failed r with
      | Some _ => fail (Errorf (ErrNetworkCreationFailed +:+ ": " +:+ ex_output r))
      | None => ret (TrimSpace (ex_output r), subnet)
      end
  end.

Definition NetworkExists (networkID : string) : Ext Call bool :=
  if bool_decide (networkID = "") then ret false
  else
    do! r := docker ["network"; "inspect"; networkID] in
    match ex_failed r with
    | None => ret true
    | Some (ExitError code) =>
        if bool_decide (code = 1)%Z then ret false else fail (Errorf ErrDockerDaemonUnavailable)
    | Some _ => fail (Errorf ErrDockerDaemonUnavailable)
    end.

Definition DeleteNetwork (networkID : string) : Ext Call unit :=
  try! exists_ := NetworkExists networkID in
  if negb exists_ then fail (Errorf ErrNetworkNotFound)
  else
    do! r := docker ["network"; "rm"; networkID] in
    match ex_failed r with
    | None => ret tt
    | Some _ =>
        if contains (ex_output r) "has active endpoints" then fail (Errorf ErrNetworkHasContainers)
        else fail (Errorf (ErrNetworkDeletionFailed +:+ ": " +:+ ex_output r))
    end.

Definition getNetworkInfo (networkID : string) : Ext Call NetworkInfo :=
  do! r := docker ["network"; "inspect"; networkID] in
  match ex_failed r with
  | Some e => fail (Wrap "failed to inspect network" (exec_error e))
  | None =>
      match parse_networks (ex_output r) with
      | Err e => fail (Wrap "failed to parse network inspect" e)
      | Ok [] => fail (Errorf ErrNetworkNotFound)
      | Ok (result :: _) =>
          let '(subnet, gateway) := default ("", "") (head (ni_IPAM result)) in
          ret (mkNetworkInfo (ni_ID result) (ni_Name result) subnet gateway
                 (default "" (ni_Labels result !! "devnet-name"))
                 (default 0%Z (parse_time (ni_Created result))))
      end
  end.

(** Networks that cannot be inspected are skipped. *)
Fixpoint infos_of (networkIDs : list string) : D (list NetworkInfo) :=
  match networkIDs with
  | [] => done_with []
  | networkID :: rest =>
      do! info := getNetworkInfo networkID in
      do! infos := infos_of rest in
      done_with (match info with Returns i => i :: infos | _ => infos end)
  end.

Definition ListDevnetNetworks : Ext Call (list NetworkInfo) :=
  do! r := docker ["network"; "ls"; "--filter"; "label=app=devnet-builder"; "--format"; "{{.ID}}"] in
  match ex_failed r with
  | Some e => fail (Wrap "failed to list networks" (exec_error e))
  | None =>
      let networkIDs := network_ids (ex_output r) in
      if bool_decide (networkIDs = [""]) then ret [] else lift (infos_of networkIDs)
  end.
End networks.
