(* ===== verification/DockerDeploy.v ===== *)
(** * Deploying a devnet in containers
    ([internal/infrastructure/docker/orchestrator.go],
     [internal/application/devnet/docker_deploy.go])

    A deployment validates, creates a network, allocates ports, gets the image and
    starts the containers; after each phase its state is saved to a file.  A failure
    rolls back what the state says was made. *)

From stdpp Require Import base tactics numbers list strings gmap.
From S2P Require Import Prelude Store Paths Trace PortAllocator NodeConfig Docker DockerManager DockerNetwork.

(** What a deployment changes: its state, and the manager's image. *)
Record Deployment := mkDeployment {
  dp_state : DeploymentState;
  dp_manager : DockerManager
}.
#[export] Instance eta_Deployment : Settable Deployment := mkSettable (λ x,
  mkDeployment (dp_state x) (dp_manager x)).

Definition in_phase (p : DeploymentPhase) (d : Deployment) : Deployment :=
  d <| dp_state; ds_Phase := p |>.

Definition MultiError (errs : list error) : error :=
  Errorf ("multiple errors: " +:+ String.concat "; " (Error <$> errs)).

(** The ports of the node [i] in a range from [basePort]. *)
Definition node_ports (basePort i : Z) : PortConfig :=
  let portOffset := (i * 100)%Z in
  mkPortConfig (basePort + portOffset) (basePort + portOffset + 1) 0 (basePort + portOffset + 2) 0 0
    (basePort + portOffset + 3) (basePort + portOffset + 4) (basePort + portOffset + 5) 0.

Section deploy.
Context `{DockerEnv} `{MapRange}.
Variable stateDir : string.

(** ** The state file *)

Definition stateFilePath (devnetName : string) : string := Join [stateDir; devnetName +:+ ".json"].

Definition persisted (s : DeploymentState) : persistedState :=
  mkPersistedState (ds_DevnetName s) (ds_Phase s) (ds_NetworkID s) (ds_PortRange s)
    (ds_StartedContainers s) (ds_HealthyContainers s) (ds_StartedAt s).

Definition restored (p : persistedState) : DeploymentState :=
  mkDeploymentState (ps_DevnetName p) (ps_Phase p) (ps_NetworkID p) (ps_PortRange p)
    (ps_StartedContainers p) (ps_HealthyContainers p) [] (ps_StartedAt p).

Definition saveState (state : DeploymentState) : D (option error) :=
  do! made := file "mkdir" stateDir in
  match made with
  | Some e => done_with (Some (Wrap "failed to create state directory" e))
  | None =>
      let path := stateFilePath (ds_DevnetName state) in
      do! written := ask_env (write_state path (persisted state)) (WriteState path (persisted state)) in
      done_with (Wrap "failed to write state file" <$> written)
  end.

(** An error that says the file does not exist is answered as such. *)
Definition loadState (devnetName : string) : D (option (result DeploymentState)) :=
  let path := stateFilePath devnetName in
  do! r := ask_env (read_state path) (ReadState path) in
  done_with (match r with
             | StateRead p => Some (Ok (restored p))
             | StateMissing => None
             | StateUnreadable e => Some (Err e)
             | StateMalformed e => Some (Err (Wrap "failed to unmarshal state" e))
             end).

Definition deleteState (devnetName : string) : D (option error) :=
  do! e := file "remove" (stateFilePath devnetName) in
  done_with (Wrap "failed to delete state file" <$> e).

Definition GetState (devnetName : string) : Ext Call (option DeploymentState) :=
  do! r := loadState devnetName in
  match r with
  | None => ret None
  | Some (Ok s) => ret (Some s)
  | Some (Err e) => fail (Wrap "failed to load state" e)
  end.

(** ** Rollback *)

(** A command for each container; the errors are collected. *)
Fixpoint for_containers (command : string → list string) (what : string) (ids : list string) :
    D (list error) :=
  match ids with
  | [] => done_with []
  | containerID :: rest =>
      do! r := docker (command containerID) in
      do! errs := for_containers command what rest in
      done_with (match ex_failed r with
                 | Some e => Wrap (what +:+ " container " +:+ containerID) (exec_error e) :: errs
                 | None => errs
                 end)
  end.

Definition delete_network (networkID : option string) : D (list error) :=
  match networkID with
  | Some networkID =>
      if bool_decide (networkID = "") then done_with []
      else
        do! r := DeleteNetwork networkID in
        done_with (match r with
                   | Fails e => [Wrap ("delete network " +:+ networkID) e]
                   | _ => []
                   end)
  | None => done_with []
  end.

Definition release_ports (state : DeploymentState) : D (list error) :=
  match ds_PortRange state with
  | Some _ =>
      do! e := ReleaseRange (ds_DevnetName state) in
      done_with (match e with Some e => [Wrap "release ports" e] | None => [] end)
  | None => done_with []
  end.

(** The error, and the state that the caller has the pointer to. *)
Definition Rollback (state : option DeploymentState) : D (option error * option DeploymentState) :=
  match state with
  | None => done_with (None, None)
  | Some state =>
      let state := state <| ds_Phase := PhaseRollingBack |> in
      do! stopped := for_containers (λ id, ["stop"; "-t"; "5"; id]) "stop" (ds_StartedContainers state) in
      do! removed := for_containers (λ id, ["rm"; "-f"; id]) "remove" (ds_StartedContainers state) in
      do! network := delete_network (ds_NetworkID state) in
      do! ports := release_ports state in
      match stopped ++ removed ++ network ++ ports with
      | [] =>
          do! _ := deleteState (ds_DevnetName state) in
          done_with (None, Some state)
      | errs => done_with (Some (MultiError errs), Some state)
      end
  end.

Definition handleFailure (state : DeploymentState) (err : error) : D error :=
  do! now := time_now in
  let state := state <| ds_Errors := ds_Errors state ++
                          [mkDeploymentError (ds_Phase state) "" err now] |> in
  do! '(rollbackErr, _) := Rollback (Some state) in
  done_with (match rollbackErr with
             | Some r => Errorf ("deployment failed: " +:+ Error err +:+
                                 " (rollback also failed: " +:+ Error r +:+ ")")
             | None => Wrap "deployment failed" err
             end).

(** ** The phases *)

Definition phaseValidate (config : DeploymentConfig) (d : Deployment) : D (option error * Deployment) :=
  let d := in_phase PhaseValidating d in
  let invalid why := done_with (Some (Errorf (ErrValidationFailed +:+ ": " +:+ why)), d) in
  if bool_decide (dc_DevnetName config = "") then invalid "devnet name cannot be empty"
  else if bool_decide (dc_ValidatorCount config < 1)%Z || bool_decide (100 < dc_ValidatorCount config)%Z
  then invalid ("validator count must be 1-100, got " +:+ itoa (dc_ValidatorCount config))
  else if bool_decide (dc_Image config = "") then invalid "docker image cannot be empty"
  else
    do! available := IsDockerAvailable in
    if available then done_with (None, d) else invalid "docker daemon not accessible".

Definition phaseCreateNetwork (config : DeploymentConfig) (d : Deployment) :
    D (option error * Deployment) :=
  let d := in_phase PhaseNetworkCreating d in
  do! r := CreateNetwork (dc_DevnetName config) in
  done_with (match r with
             | Returns (networkID, subnet) => (None, d <| dp_state; ds_NetworkID := Some networkID |>)
             | Fails e => (Some (Errorf (ErrNetworkCreationFailed +:+ ": " +:+ Error e)), d)
             | _ => (Some (Errorf ErrNetworkCreationFailed), d)
             end).

Definition show_ports (l : list Z) : string := "[" +:+ String.concat " " (itoa <$> l) +:+ "]".

Definition phaseAllocatePorts (config : DeploymentConfig) (d : Deployment) :
    D (option error * Deployment) :=
  let d := in_phase PhasePortAllocating d in
  do! r := AllocateRange (dc_DevnetName config) (dc_ValidatorCount config) in
  match r with
  | Returns allocation =>
      do! r := ValidatePortAvailability allocation in
      done_with (match r with
                 | Returns [] => (None, d <| dp_state; ds_PortRange := Some allocation |>)
                 | Returns conflicts =>
                     (Some (Errorf (ErrPortConflictDetected +:+ ": ports in use: " +:+
                                    show_ports conflicts)), d)
                 | Fails e => (Some (Wrap "port validation failed" e), d)
                 | _ => (Some (Errorf "port validation failed"), d)
                 end)
  | Fails e => done_with (Some (Errorf (ErrPortAllocationFailed +:+ ": " +:+ Error e)), d)
  | _ => done_with (Some (Errorf ErrPortAllocationFailed), d)
  end.

(** The error, and the manager with the image that was built. *)
Definition buildCustomImage (config : DeploymentConfig) (cb : CustomBuildConfig) (m : DockerManager) :
    D (option error * DockerManager) :=
  let imageTag := "devnet-" +:+ dc_DevnetName config +:+ ":custom" in
  let failed why := (Some (Errorf (ErrCustomBuildFailed +:+ ": " +:+ why)), m) in
  if bool_decide (cb_PluginPath cb = "") then done_with (failed "plugin path is required")
  else
    do! info := stat (cb_PluginPath cb) in
    match info with
    | FileMissing => done_with (failed ("plugin path does not exist: " +:+ cb_PluginPath cb))
    | _ =>
        let args := ["build"; "-t"; imageTag] ++
          (range (cb_BuildArgs cb) ≫= λ '(key, value), ["--build-arg"; key +:+ "=" +:+ value]) ++
          (if bool_decide (cb_ChainBinary cb = "") then []
           else ["--build-arg"; "CHAIN_BINARY=" +:+ cb_ChainBinary cb]) ++
          [cb_PluginPath cb] in
        do! r := docker args in
        done_with (match ex_failed r with
                   | Some e => failed ("docker build failed: " +:+ Error (exec_error e))
                   | None => (None, m <| dm_Image := imageTag |>)
                   end)
    end.

Definition phasePullImage (config : DeploymentConfig) (d : Deployment) : D (option error * Deployment) :=
  let d := in_phase PhaseImagePulling d in
  match dc_CustomBuild config with
  | Some cb =>
      do! '(err, m) := buildCustomImage config cb (dp_manager d) in
      done_with (err, d <| dp_manager := m |>)
  | None =>
      do! r := ValidateImage (dp_manager d) in
      done_with (match r with
                 | Returns _ => (None, d)
                 | Fails e => (Some (Errorf (ErrImagePullFailed +:+ ": " +:+ Error e)), d)
                 | _ => (Some (Errorf ErrImagePullFailed), d)
                 end)
  end.

(** The container of the node [i]. *)
Definition node_container (config : DeploymentConfig) (basePort : Z) (networkID : string) (i : Z) :
    ContainerConfig :=
  mkContainerConfig
    (bare_node i ("node" +:+ itoa i) (dc_HomeDir config +:+ "/devnet/node" +:+ itoa i)
       (node_ports basePort i))
    (dc_HomeDir config +:+ "/devnet/genesis.json") networkID
    ((λ l, mkResourceLimits (rl_Memory l) (rl_CPUs l)) <$> dc_ResourceLimits config) None.

(** The loop over the nodes from [i]. *)
Fixpoint start_containers (config : DeploymentConfig) (basePort : Z) (networkID : string)
    (n : nat) (i : Z) (d : Deployment) : D (option error * Deployment) :=
  match n with
  | O => done_with (None, d)
  | S n =>
      do! r := StartWithConfig (dp_manager d) (node_container config basePort networkID i) in
      match r with
      | Returns node =>
          start_containers config basePort networkID n (i + 1)
            (d <| dp_state; ds_StartedContainers :=
                    ds_StartedContainers (dp_state d) ++ [n_ContainerID node] |>)
      | Fails e =>
          done_with (Some (Wrap ("failed to start container for node" +:+ itoa i) e), d)
      | _ => done_with (Some (Errorf "failed to start container"), d)
      end
  end.

Definition phaseStartContainers (config : DeploymentConfig) (d : Deployment) :
    D (option error * Deployment) :=
  let d := in_phase PhaseContainerStarting d in
  match ds_PortRange (dp_state d) with
  | None => done_with (Some (Errorf "port range not allocated"), d)
  | Some range =>
      match ds_NetworkID (dp_state d) with
      | None => done_with (Some (Errorf "network not created"), d)
      | Some networkID =>
          if bool_decide (networkID = "") then done_with (Some (Errorf "network not created"), d)
          else start_containers config (pa_PortRangeStart range) networkID
                 (Z.to_nat (dc_ValidatorCount config)) 0 d
      end
  end.

Definition container_info (config : DeploymentConfig) (basePort : Z) (i : nat) (containerID : string) :
    ContainerInfo :=
  let base := (basePort + Z.of_nat i * 100)%Z in
  mkContainerInfo containerID ("devnet-" +:+ dc_DevnetName config +:+ "-node" +:+ itoa (Z.of_nat i))
    (Z.of_nat i) (mkPortAssignment base (base + 1) (base + 2) (base + 3) (base + 4)) "starting".

Definition finalizeDeployment (config : DeploymentConfig) (d : Deployment) :
    D (outcome DeploymentResult * Deployment) :=
  let d := in_phase PhaseRunning d in
  let state := dp_state d in
  do! now := time_now in
  let duration := (now - ds_StartedAt state)%Z in
  do! subnet := match ds_NetworkID state with
                | Some networkID => if bool_decide (networkID = "") then done_with ""
                                    else GetNetworkSubnet networkID
                | None => done_with ""
                end in
  done_with (match ds_PortRange state, ds_NetworkID state with
             | Some range, Some networkID =>
                 (Returns (mkDeploymentResult (dc_DevnetName config) networkID subnet
                    (imap (container_info config (pa_PortRangeStart range)) (ds_StartedContainers state))
                    range duration true), d)
             | _, _ => (Panics, d)
             end).

(** A phase, and its failure or the saving of the state after it. *)
Definition after (phase : D (option error * Deployment))
    (k : Deployment → D (outcome DeploymentResult * DockerManager)) :
    D (outcome DeploymentResult * DockerManager) :=
  do! '(err, d) := phase in
  match err with
  | Some err =>
      do! e := handleFailure (dp_state d) err in
      done_with (Fails e, dp_manager d)
  | None =>
      do! _ := saveState (dp_state d) in
      k d
  end.

Definition Deploy (config : DeploymentConfig) (m : DockerManager) :
    D (outcome DeploymentResult * DockerManager) :=
  do! now := time_now in
  let state := mkDeploymentState (dc_DevnetName config) PhaseNone None None [] [] [] now in
  after (phaseValidate config (mkDeployment state m)) (λ d,
  after (phaseCreateNetwork config d) (λ d,
  after (phaseAllocatePorts config d) (λ d,
  after (phasePullImage config d) (λ d,
  after (phaseStartContainers config d) (λ d,
    do! '(result, d) := finalizeDeployment config d in
    do! _ := saveState (dp_state d) in
    done_with (result, dp_manager d)))))).

(** ** Destroying a devnet *)

Record DockerConfigMetadata := mkDockerConfigMetadata {
  dk_NetworkID : string;
  dk_PortRangeStart : Z;
  dk_PortRangeEnd : Z
}.

Definition findDevnetContainers (networkID : string) : Ext Call (list string) :=
  if bool_decide (networkID = "") then ret []
  else
    do! r := docker ["network"; "inspect"; networkID] in
    match ex_failed r with
    | Some _ => ret []
    | None =>
        match parse_containers (ex_output r) with
        | Err e => fail (Wrap "failed to parse network inspect output" e)
        | Ok [] => ret []
        | Ok (containers :: _) => ret (fst <$> range containers)
        end
    end.

(** [filepath.Base]. *)
Definition Base (path : string) : string :=
  if bool_decide (path = "") then "."
  else default "/" (last (filter (λ c, c ≠ "") (split_on slash path))).

(** The devnet's metadata, when they could be loaded and have a Docker part. *)
Definition DockerDestroy (homeDir : string) (metadata : option DockerConfigMetadata) : Ext Call unit :=
  let name := Base homeDir in
  let state := mkDeploymentState name PhaseNone None None [] [] [] 0 in
  do! state := match metadata with
    | None => done_with state
    | Some dk =>
        let state := state
          <| ds_NetworkID := Some (dk_NetworkID dk) |>
          <| ds_PortRange := Some (mkPortAllocation name "" "" (dk_PortRangeStart dk)
                                     (dk_PortRangeEnd dk) 0 0) |> in
        do! r := findDevnetContainers (dk_NetworkID dk) in
        done_with (match r with
                   | Returns containers => state <| ds_StartedContainers := containers |>
                   | _ => state
                   end)
    end in
  do! '(err, _) := Rollback (Some state) in
  match err with
  | Some e => fail (Wrap "cleanup failed" e)
  | None => ret tt
  end.
End deploy.
