(* ===== verification/DockerDeploySpec.v ===== *)
(** * What a deployment leaves behind

    [does] follows the calls that an operation makes.  The resources made by the
    calls of a deployment that succeeded are those its state holds, so a rollback that
    goes well undoes them all, and only them.  Two things are left: the range of a port
    conflict, and a container that [docker run] created but could not start, which is
    not in the state. *)

From stdpp Require Import base tactics numbers list strings gmap.
From S2P Require Import Prelude Store Paths Trace PortAllocator NodeConfig Docker DockerManager DockerNetwork DockerDeploy.

(** ** Resources *)

Inductive resource :=
| Container (id : string)
| Network (id : string)
| Ports (devnetName : string).

(** What a call made that succeeded; a network has an identifier that is not empty.  A
    [docker run] that exits with an error may have created a container all the same,
    whose identifier the code does not look at: it is not counted here. *)
Definition made (c : Call) : option resource :=
  match c with
  | Docker ("run" :: "-d" :: _) (mkExec output None) => Some (Container (TrimSpace output))
  | Docker ("network" :: "create" :: _) (mkExec output None) =>
      let id := TrimSpace output in if bool_decide (id = "") then None else Some (Network id)
  | CallAllocate name _ (Ok _) => Some (Ports name)
  | _ => None
  end.

(** The arguments with which a container was started. *)
Definition ran (c : Call) : option (list string) :=
  match c with
  | Docker ("run" :: "-d" :: rest) (mkExec _ None) => Some ("run" :: "-d" :: rest)
  | _ => None
  end.

Definition undoes (c : Call) (x : resource) : Prop :=
  match x with
  | Container id => ∃ output, c = Docker ["rm"; "-f"; id] (mkExec output None)
  | Network id => ∃ output, c = Docker ["network"; "rm"; id] (mkExec output None)
  | Ports name => c = CallRelease name None
  end.

(** The container that a call removes. *)
Definition removes (c : Call) : option string :=
  match c with Docker ["rm"; "-f"; id] _ => Some id | _ => None end.

(** What a state says was made, in the order of the phases. *)
Definition held (s : DeploymentState) : list resource :=
  match ds_NetworkID s with
  | Some id => if bool_decide (id = "") then [] else [Network id]
  | None => []
  end ++
  (if ds_PortRange s is Some _ then [Ports (ds_DevnetName s)] else []) ++
  (Container <$> ds_StartedContainers s).

(** No ports are granted, asked about or given back. *)
Definition calm (c : Call) : Prop :=
  match c with CallAllocate _ _ (Ok _) | CallRelease _ _ | Conflicts _ _ => False | _ => True end.
Definition idle (c : Call) : Prop := calm c ∧ made c = None.

Lemma idle_calm l : Forall idle l → Forall calm l.
Proof. intros Hl. eapply Forall_impl; [exact Hl|]. by intros c []. Qed.

Lemma idle_made l : Forall idle l → omap made l = [].
Proof. induction 1 as [|c l [_ Hc] _ IH]; [done|]. simpl. by rewrite Hc. Qed.

Lemma ran_made (l : list Call) args : args ∈ omap ran l → ∃ id, Container id ∈ omap made l.
Proof.
  intros (c & Hc & E)%list_elem_of_omap.
  destruct c as [args' [output []]| | | | | | |]; simpl in E; repeat case_match; try done.
  simplify_eq. exists (TrimSpace output). apply list_elem_of_omap. eexists. split; [exact Hc|done].
Qed.

Lemma idle_ran l : Forall idle l → omap ran l = [].
Proof.
  intros Hl. destruct (omap ran l) as [|args rest] eqn:E; [done|].
  destruct (ran_made l args) as [id Hid]; [rewrite E; by left|].
  rewrite idle_made in Hid by done. by apply elem_of_nil in Hid.
Qed.

(** ** Following the calls *)

(** After the calls [h], the operation makes calls and has a result that [Q] relates. *)
Definition does {A} (h : list Call) (m : D A) (Q : A → list Call → Prop) : Prop :=
  ∀ st, es_calls st = h → ∃ l, es_calls (m st).2 = h ++ l ∧ Q (m st).1 l.

Lemma does_done {A} h (a : A) (Q : A → list Call → Prop) : Q a [] → does h (done_with a) Q.
Proof. intros HQ st <-. exists []. by rewrite app_nil_r. Qed.

Lemma does_bind {A B} h (m : D A) (k : A → D B) (Q : A → list Call → Prop) (R : B → list Call → Prop) :
  does h m Q → (∀ a l, Q a l → does (h ++ l) (k a) (λ b l', R b (l ++ l'))) → does h (bindM m k) R.
Proof.
  intros Hm Hk st Hst. rewrite bindM_eq. destruct (Hm st Hst) as (l & E & HQ).
  destruct (Hk _ _ HQ _ E) as (l' & E' & HR). exists (l ++ l'). by rewrite E', (assoc_L app).
Qed.

Lemma does_weaken {A} h (m : D A) (Q R : A → list Call → Prop) :
  does h m Q → (∀ a l, Q a l → R a l) → does h m R.
Proof. intros Hm Hi st Hst. destruct (Hm st Hst) as (l & E & HQ). exists l. split; [done|by apply Hi]. Qed.

(** Two views of one run. *)
Lemma does_and {A} h (m : D A) (Q R : A → list Call → Prop) :
  does h m Q → does h m R → does h m (λ a l, Q a l ∧ R a l).
Proof.
  intros HQ HR st Hst. destruct (HQ st Hst) as (l & E & H1), (HR st Hst) as (l' & E' & H2).
  rewrite E in E'. apply (inj (app _)) in E' as <-. by exists l.
Qed.

Lemma does_emits {A} h (m : D A) (φ : Call → Prop) : emits φ m → does h m (λ _ l, Forall φ l).
Proof. intros Hm st <-. apply Hm. Qed.

Lemma does_ask {A} h (f : list Call → A) log (Q : A → list Call → Prop) :
  Q (f h) [log (f h)] → does h (ask_env f log) Q.
Proof. intros HQ st <-. by eexists. Qed.

Lemma does_call {A} h (f : list Call → result A) log (Q : outcome A → list Call → Prop) :
  Q (match f h with Ok a => Returns a | Err e => Fails e end) [log (f h)] → does h (call f log) Q.
Proof.
  intros HQ. eapply (does_bind _ _ _ (λ a l, a = f h ∧ l = [log (f h)])); [by apply does_ask|].
  intros a l [-> ->]. by apply does_done.
Qed.

Lemma does_now {A} h `{DockerEnv} (k : Time → D A) Q :
  (∀ now, does h (k now) Q) → does h (bindM time_now k) Q.
Proof.
  intros Hk st Hst. rewrite bindM_eq. unfold time_now, now_at. cbn [fst snd]. by apply Hk.
Qed.

Section spec.
Context `{DockerEnv} `{MapRange} (stateDir : string).

Lemma does_docker h args (Q : Exec → list Call → Prop) :
  (∀ r, Q r [Docker args r]) → does h (docker args) Q.
Proof. intros HQ. by apply does_ask. Qed.

(** ** The phases *)

(** What is done from a state to another: the new resources are held. *)
Record extends (d d' : Deployment) (l : list Call) : Prop := {
  ext_calm : Forall calm l;
  ext_held : held (dp_state d') = held (dp_state d) ++ omap made l;
  ext_name : ds_DevnetName (dp_state d') = ds_DevnetName (dp_state d);
  ext_ports : ds_PortRange (dp_state d') = ds_PortRange (dp_state d)
}.

Lemma extends_phase d p l : Forall idle l → extends d (in_phase p d) l.
Proof.
  intros Hl. split; [by apply idle_calm| |done..]. rewrite (idle_made l Hl). by rewrite app_nil_r.
Qed.

Lemma phaseValidate_does h config d :
  does h (phaseValidate config d) (λ r l, extends d r.2 l ∧ Forall idle l ∧ r.2 = in_phase PhaseValidating d).
Proof.
  eapply (does_weaken _ _ (λ r l, Forall idle l ∧ r.2 = in_phase PhaseValidating d)).
  - unfold phaseValidate. repeat case_match; try (by apply does_done).
    eapply does_bind; [apply (does_emits _ _ idle); unfold IsDockerAvailable, docker; by emit|].
    intros [] l Hl; apply does_done; by rewrite app_nil_r.
  - intros r l [Hl E]. split; [rewrite E; by apply extends_phase|done].
Qed.

Lemma emits_subnets l : emits idle (subnets_of l).
Proof.
  induction l as [|id l IH]; simpl; [apply emits_done|]. case_match; [done|].
  apply emits_bind; [unfold GetNetworkSubnet, docker; by emit|]. intros s.
  apply emits_bind; [done|]. intros. apply emits_done.
Qed.

Lemma emits_find : emits idle findAvailableSubnet.
Proof.
  apply emits_bindE.
  - unfold listExistingSubnets, docker. apply emits_bind; [by apply emits_ask|]. intros r.
    case_match; [apply emits_done|]. apply emits_lift, emits_subnets.
  - intros l. destruct (list_find _ _) as [[i octet]|]; apply emits_done.
Qed.

Lemma CreateNetwork_does h name :
  does h (CreateNetwork name) (λ r l, Forall calm l ∧
    match r with
    | Returns (id, _) => omap made l = if bool_decide (id = "") then [] else [Network id]
    | _ => omap made l = []
    end).
Proof.
  unfold CreateNetwork. destruct (validateDevnetName name) as [e|]; [by apply does_done|].
  eapply does_bind; [apply (does_emits _ _ idle), emits_find|]. intros r l Hl.
  assert (Hs : Forall calm (l ++ []) ∧ omap made (l ++ []) = []).
  { rewrite app_nil_r. split; [by apply idle_calm|by apply idle_made]. }
  destruct r as [subnet|e| |]; [|by apply does_done..].
  eapply does_bind; [by apply (does_docker _ _ (λ r l, ∃ rest, l = [Docker ("network" :: "create" :: rest) r]));
    eexists|].
  intros [output failed] l' [rest ->]. simpl. apply idle_calm in Hl as Hc. apply idle_made in Hl as Hm.
  destruct failed as [e|]; apply does_done; simpl; rewrite ?app_nil_r, omap_app, Hm, Forall_app; simpl.
  - split; [|done]. split; [done|by constructor].
  - split; [split; [done|by constructor]|]. by case_bool_decide.
Qed.

Lemma held_nil s : held s = [] → ds_PortRange s = None ∧ ds_StartedContainers s = [].
Proof.
  unfold held. intros E. apply app_nil in E as [_ E]. apply app_nil in E as [E1 E2].
  apply fmap_nil_inv in E2. by destruct (ds_PortRange s).
Qed.

Lemma phaseCreateNetwork_does h config d :
  held (dp_state d) = [] →
  does h (phaseCreateNetwork config d) (λ r l, extends d r.2 l ∧
    ds_StartedContainers (dp_state r.2) = ds_StartedContainers (dp_state d)).
Proof.
  intros Hd. destruct (held_nil _ Hd) as [Hp Hc].
  unfold phaseCreateNetwork. eapply does_bind; [apply CreateNetwork_does|].
  intros r l [Hl Hm]. apply does_done. rewrite app_nil_r. split; [|by destruct r as [[]| | |]].
  destruct r as [[id subnet]|e| |]; simpl in *; split; try done; try (rewrite Hm, app_nil_r; done).
  rewrite Hd, Hm. unfold held. simpl. by rewrite Hp, Hc, app_nil_r.
Qed.

(** Either the range is held or nobody remembers it. *)
Definition conflicted (h : list Call) (name : string) (l : list Call) : Prop :=
  ∃ n a r, l = [CallAllocate name n (Ok a); Conflicts a r] ∧ r ≠ Ok [] ∧ do_allocate name n h = Ok a.

Definition allocated (h : list Call) (name : string) (a : PortAllocation) (l : list Call) : Prop :=
  ∃ n, l = [CallAllocate name n (Ok a); Conflicts a (Ok [])] ∧ do_allocate name n h = Ok a.

Lemma phaseAllocatePorts_does h config d :
  does h (phaseAllocatePorts config d) (λ r l,
    match r.1 with
    | None => ∃ a, allocated h (dc_DevnetName config) a l ∧
        r.2 = in_phase PhasePortAllocating d <| dp_state; ds_PortRange := Some a |>
    | Some _ => r.2 = in_phase PhasePortAllocating d ∧
        ((∃ e n, l = [CallAllocate (dc_DevnetName config) n (Err e)]) ∨
         conflicted h (dc_DevnetName config) l)
    end).
Proof.
  unfold phaseAllocatePorts. eapply does_bind; [by apply (does_call _ _ _ (λ r l,
    ∃ n, l = [CallAllocate (dc_DevnetName config) n (do_allocate (dc_DevnetName config) n h)] ∧
      r = match do_allocate (dc_DevnetName config) n h with Ok a => Returns a | Err e => Fails e end));
    eexists|].
  intros r l (n & -> & ->). destruct (do_allocate (dc_DevnetName config) n h) as [a|e] eqn:Ea.
  2: { apply does_done. split; [done|]. left. by eexists _, _. }
  eapply does_bind; [by apply (does_call _ _ _ (λ r l, ∃ c, l = [Conflicts a c] ∧
    r = match c with Ok a => Returns a | Err e => Fails e end)); eexists|].
  intros r l (c & -> & ->). apply does_done.
  destruct c as [[|p ports]|e]; simpl.
  - exists a. split; [|done]. by exists n.
  - split; [done|]. right. by exists n, a, (Ok (p :: ports)).
  - split; [done|]. right. by exists n, a, (Err e).
Qed.

Lemma emits_ValidateImage m : emits idle (ValidateImage m).
Proof.
  unfold ValidateImage, docker. apply emits_bind; [by apply emits_ask|]. intros r.
  case_match; [apply emits_done|]. apply emits_bind; [by apply emits_ask|]. intros r'.
  repeat case_match; apply emits_done.
Qed.

Lemma emits_buildCustomImage config cb m : emits idle (buildCustomImage config cb m).
Proof.
  unfold buildCustomImage, docker, stat. case_match; [apply emits_done|].
  apply emits_bind; [by apply emits_ask|]. intros [size| |e]; [|apply emits_done|];
    (apply emits_bind; [by apply emits_ask|]; intros; apply emits_done).
Qed.

(** The state is only moved to its phase; the manager may get another image. *)
Lemma phasePullImage_does h config d :
  does h (phasePullImage config d) (λ r l, extends d r.2 l ∧
    ds_StartedContainers (dp_state r.2) = ds_StartedContainers (dp_state d)).
Proof.
  eapply (does_weaken _ _ (λ r l, Forall idle l ∧ dp_state r.2 = dp_state (in_phase PhaseImagePulling d))).
  - unfold phasePullImage. destruct (dc_CustomBuild config) as [cb|].
    + eapply does_bind; [apply (does_emits _ _ idle), emits_buildCustomImage|].
      intros [err m] l Hl. apply does_done. by rewrite app_nil_r.
    + eapply does_bind; [apply (does_emits _ _ idle), emits_ValidateImage|].
      intros r l Hl. destruct r; apply does_done; by rewrite app_nil_r.
  - intros r l [Hl E]. destruct (extends_phase d PhaseImagePulling l Hl) as [Hc Hh Hn Hp].
    split; [split; [done|by rewrite E..]|by rewrite E].
Qed.

(** One container: what is run, and the identifier that it answers. *)
Lemma StartWithConfig_does h m config :
  does h (StartWithConfig m config) (λ r l, Forall calm l ∧
    match r with
    | Returns node => omap made l = [Container (n_ContainerID node)] ∧ omap ran l = [run_args m config]
    | _ => omap made l = []
    end).
Proof.
  unfold StartWithConfig. eapply does_bind; [apply (does_emits _ _ idle); unfold IsRunning, docker;
    apply emits_bind; [by apply emits_ask|intros; apply emits_done]|].
  intros running l Hl. destruct running.
  { apply does_done. rewrite app_nil_r. split; [by apply idle_calm|by apply idle_made]. }
  eapply does_bind; [apply (does_emits _ _ idle); unfold removeContainer, docker;
    apply emits_bind; [by apply emits_ask|intros; apply emits_done]|].
  intros [] l2 Hl2. eapply does_bind; [by apply (does_docker _ _ (λ r l, l = [Docker (run_args m config) r]))|].
  intros [output failed] l3 ->. unfold run_args. simpl.
  destruct failed as [e|]; apply does_done; simpl;
    rewrite !omap_app, (idle_made l), (idle_made l2) by done;
    rewrite ?(idle_ran l), ?(idle_ran l2), !Forall_app by done; simpl;
    repeat split; try done; try (by apply idle_calm); by repeat constructor.
Qed.
Lemma extends_trans d1 d2 d3 l1 l2 : extends d1 d2 l1 → extends d2 d3 l2 → extends d1 d3 (l1 ++ l2).
Proof.
  intros [C1 H1 N1 P1] [C2 H2 N2 P2]. split; [by apply Forall_app| |congruence..].
  by rewrite H2, H1, omap_app, (assoc_L app).
Qed.

Lemma held_started d id :
  held (dp_state (d <| dp_state; ds_StartedContainers := ds_StartedContainers (dp_state d) ++ [id] |>)) =
  held (dp_state d) ++ [Container id].
Proof. unfold held. simpl. by rewrite fmap_app, !(assoc_L app). Qed.

(** What a loop of containers starts. *)
Definition starts (m : DockerManager) config basePort networkID (n : nat) (i : Z) : list (list string) :=
  (λ j, run_args m (node_container config basePort networkID j)) <$> seqZ i (Z.of_nat n).

Lemma start_containers_does h config basePort networkID n i d :
  does h (start_containers config basePort networkID n i d) (λ r l,
    extends d r.2 l ∧ dp_manager r.2 = dp_manager d ∧
    ds_NetworkID (dp_state r.2) = ds_NetworkID (dp_state d) ∧
    (r.1 = None → omap ran l = starts (dp_manager d) config basePort networkID n i)).
Proof.
  revert h i d. induction n as [|n IH]; intros h i d; simpl.
  { apply does_done. split_and!; [|done..]. split; [done| |done..]. simpl. by rewrite app_nil_r. }
  eapply does_bind; [apply StartWithConfig_does|]. intros r l [Hc Hr].
  assert (Hsame : extends d d l ∨ ∃ node, r = Returns node).
  { destruct r; [right; by eexists|left; split; [done| |done..]; by rewrite Hr, app_nil_r..]. }
  destruct r as [node|e| |]; try (apply does_done; rewrite app_nil_r;
    destruct Hsame as [Hs|[? ?]]; [by split_and!|done]).
  destruct Hr as [Hm Hran]. eapply does_weaken; [apply IH|]. intros r l' (He & Hmg & Hn & Hrs). simpl.
  split_and!; [|by rewrite Hmg|by rewrite Hn|].
  - eapply extends_trans; [|exact He]. split; [done| |done..]. by rewrite held_started, Hm.
  - intros E. rewrite omap_app, Hran, (Hrs E). unfold starts.
    rewrite (seqZ_cons i (Z.of_nat (S n))) by lia.
    replace (Z.succ i) with (i + 1)%Z by lia. by replace (Z.pred (Z.of_nat (S n))) with (Z.of_nat n) by lia.
Qed.

Lemma phaseStartContainers_does h config d :
  does h (phaseStartContainers config d) (λ r l,
    extends d r.2 l ∧ dp_manager r.2 = dp_manager d ∧
    ds_NetworkID (dp_state r.2) = ds_NetworkID (dp_state d) ∧
    (r.1 = None → ∃ range networkID, ds_PortRange (dp_state d) = Some range ∧
       ds_NetworkID (dp_state d) = Some networkID ∧ networkID ≠ "" ∧
       omap ran l = starts (dp_manager d) config (pa_PortRangeStart range) networkID
                      (Z.to_nat (dc_ValidatorCount config)) 0)).
Proof.
  unfold phaseStartContainers. pose proof (extends_phase d PhaseContainerStarting [] (Forall_nil_2 _)) as H0'.
  simpl. destruct (ds_PortRange (dp_state d)) as [range|] eqn:Ep; [|by apply does_done].
  destruct (ds_NetworkID (dp_state d)) as [networkID|] eqn:En; [|by apply does_done].
  case_bool_decide; [by apply does_done|].
  eapply does_weaken; [apply start_containers_does|]. intros r l (He & Hm & Hn & Hr). split_and!.
  - by apply (extends_trans _ _ _ [] l H0' He).
  - by rewrite Hm.
  - by rewrite Hn.
  - intros E. exists range, networkID. by rewrite (Hr E).
Qed.

(** ** Rollback *)

Lemma for_containers_does h command what ids :
  (∀ id r, idle (Docker (command id) r)) →
  does h (for_containers command what ids) (λ errs l, Forall idle l ∧
    (∀ id, id ∈ ids → ∃ r, Docker (command id) r ∈ l ∧ (errs = [] → ex_failed r = None)) ∧
    Forall (λ c, ∃ id r, id ∈ ids ∧ c = Docker (command id) r) l).
Proof.
  intros Hi. revert h. induction ids as [|id ids IH]; intros h; simpl.
  { apply does_done. split_and!; [done| |done]. intros id Hid. by apply elem_of_nil in Hid. }
  eapply does_bind; [by apply (does_docker _ _ (λ r l, l = [Docker (command id) r]))|]. intros r l ->.
  eapply does_bind; [apply IH|]. intros errs l (Hl & Hids & Hall). apply does_done. rewrite app_nil_r.
  split_and!; [constructor; [apply Hi|done]|intros id' [->|Hid']%elem_of_cons|].
  - exists r. split; [by left|]. by destruct (ex_failed r).
  - destruct (Hids id' Hid') as (r' & Hr' & Hn). exists r'. split; [by right|].
    destruct (ex_failed r); [done|by apply Hn].
  - constructor; [exists id, r; split; [by left|done]|]. eapply Forall_impl; [exact Hall|].
    intros c (id' & r' & Hid & ->). exists id', r'. split; [by right|done].
Qed.

Lemma DeleteNetwork_does h id :
  id ≠ "" →
  does h (DeleteNetwork id) (λ r l, Forall idle l ∧
    match r with
    | Returns _ => ∃ output, Docker ["network"; "rm"; id] (mkExec output None) ∈ l
    | Fails _ => True
    | _ => False
    end).
Proof.
  intros Hid. unfold DeleteNetwork, NetworkExists. rewrite bool_decide_false by done.
  eapply (does_bind _ _ _ (λ r l, Forall idle l ∧ match r with Returns _ | Fails _ => True | _ => False end)).
  - eapply does_bind; [by apply (does_docker _ _ (λ r l, l = [Docker ["network"; "inspect"; id] r]))|].
    intros r l ->. repeat case_match; apply does_done; split; try done; by repeat constructor.
  - intros [[|]|e| |] l [Hl Hr]; try done; simpl; try (by apply does_done; rewrite app_nil_r).
    eapply does_bind; [by apply (does_docker _ _ (λ r l, l = [Docker ["network"; "rm"; id] r]))|].
    intros [output failed] l' ->.
    assert (Forall idle (l ++ [Docker ["network"; "rm"; id] (mkExec output failed)])).
    { apply Forall_app. split; [done|]. by repeat constructor. }
    destruct failed; simpl; [case_match; by apply does_done|]. apply does_done. split; [done|].
    exists output. set_solver.
Qed.

Lemma delete_network_does h networkID :
  does h (delete_network networkID) (λ errs l, Forall idle l ∧
    (errs = [] → ∀ id, networkID = Some id → id ≠ "" →
       ∃ output, Docker ["network"; "rm"; id] (mkExec output None) ∈ l)).
Proof.
  unfold delete_network. destruct networkID as [id|]; [|by apply does_done].
  case_bool_decide as Hid; [apply does_done; split; [done|by intros _ ? [= <-]]|].
  eapply does_bind; [by apply DeleteNetwork_does|]. intros r l [Hl Hr]. apply does_done.
  rewrite app_nil_r. split; [done|]. intros E ? [= <-] _. by destruct r.
Qed.

Lemma emits_delete_network networkID : emits (λ c, removes c = None) (delete_network networkID).
Proof.
  unfold delete_network, DeleteNetwork, NetworkExists, docker. destruct networkID as [id|]; [|apply emits_done].
  case_bool_decide; [apply emits_done|]. emit.
Qed.

Lemma removes_nothing l : Forall (λ c, removes c = None) l → omap removes l = [].
Proof. induction 1 as [|c l Hc _ IH]; [done|]. simpl. by rewrite Hc. Qed.

(** What a rollback from a state did. *)
Record rolled_back (s : DeploymentState) (undo : list Call) : Prop := {
  rb_makes_nothing : Forall (λ c, made c = None) undo;
  rb_asks_nothing : ∀ a r, Conflicts a r ∉ undo;
  rb_unknown_ports : ds_PortRange s = None → Forall calm undo;
  rb_containers : ∀ id, id ∈ ds_StartedContainers s → ∃ r, Docker ["rm"; "-f"; id] r ∈ undo;
  rb_ports : is_Some (ds_PortRange s) → ∃ e, CallRelease (ds_DevnetName s) e ∈ undo;
  rb_only : ∀ id, id ∈ omap removes undo → id ∈ ds_StartedContainers s
}.

(** And that it went well. *)
Definition cleaned (s : DeploymentState) (undo : list Call) : Prop :=
  (∀ x, x ∈ held s → ∃ c, c ∈ undo ∧ undoes c x) ∧
  ∃ e, last undo = Some (FileOp "remove" (stateFilePath stateDir (ds_DevnetName s)) e).

Lemma Rollback_does h s :
  does h (Rollback stateDir (Some s)) (λ r undo, rolled_back s undo ∧ (r.1 = None → cleaned s undo)).
Proof.
  unfold Rollback. cbn [ds_StartedContainers ds_NetworkID ds_DevnetName set].
  eapply does_bind; [by apply (for_containers_does _ (λ id, ["stop"; "-t"; "5"; id]))|].
  intros errs1 l1 (I1 & _ & S1).
  eapply does_bind; [by apply (for_containers_does _ (λ id, ["rm"; "-f"; id]))|].
  intros errs2 l2 (I2 & Hrm & S2). simpl in Hrm, S1, S2.
  eapply does_bind; [apply does_and; [apply delete_network_does|apply does_emits, emits_delete_network]|].
  intros errs3 l3 [[I3 Hnet] S3]. simpl in Hnet, S3.
  eapply (does_bind _ _ _ (λ errs l, match ds_PortRange s with
    | Some _ => ∃ e, l = [CallRelease (ds_DevnetName s) e] ∧ (errs = [] → e = None)
    | None => l = []
    end)).
  { unfold release_ports. simpl. destruct (ds_PortRange s) as [a|]; [|by apply does_done].
    eapply does_bind; [by apply (does_ask _ _ _ (λ e l, l = [CallRelease (ds_DevnetName s) e]))|].
    intros e l ->. apply does_done. exists e. split; [done|]. by destruct e. }
  intros errs4 l4 H4.
  assert (Hall : ∀ l5, Forall idle l5 → omap removes l5 = [] → rolled_back s (l1 ++ l2 ++ l3 ++ l4 ++ l5)).
  { intros l5 I5 S5. assert (Hmade : ∀ l, Forall idle l → Forall (λ c, made c = None) l).
    { intros l Hl. eapply Forall_impl; [exact Hl|]. by intros c []. }
    split.
    - rewrite !Forall_app. split_and!; auto. destruct (ds_PortRange s) as [a|]; [|by subst].
      destruct H4 as (e & -> & _). by repeat constructor.
    - intros a r Hin. assert (Hno : ∀ l, Forall idle l → Conflicts a r ∉ l).
      { intros l Hl Hl'. rewrite Forall_forall in Hl. by destruct (Hl _ Hl'). }
      apply elem_of_app in Hin as [Hin|Hin]; [by apply (Hno l1)|].
      apply elem_of_app in Hin as [Hin|Hin]; [by apply (Hno l2)|].
      apply elem_of_app in Hin as [Hin|Hin]; [by apply (Hno l3)|].
      apply elem_of_app in Hin as [Hin|Hin]; [|by apply (Hno l5)].
      destruct (ds_PortRange s); [destruct H4 as (e & -> & _); set_solver|subst; by apply elem_of_nil in Hin].
    - intros E. rewrite E in H4. subst l4. rewrite !Forall_app. split_and!; auto using idle_calm.
    - intros id Hid. destruct (Hrm id Hid) as (r & Hr & _). exists r. set_solver.
    - intros [a Ea]. rewrite Ea in H4. destruct H4 as (e & -> & _). exists e. set_solver.
    - intros id. assert (E1 : omap removes l1 = []).
      { apply removes_nothing. eapply Forall_impl; [exact S1|]. by intros c (? & ? & _ & ->). }
      assert (E4 : omap removes l4 = []) by (destruct (ds_PortRange s); [by destruct H4 as (? & -> & _)|by subst]).
      rewrite !omap_app, E1, (removes_nothing l3 S3), E4, S5, !app_nil_r. simpl.
      intros (c & Hc & E)%list_elem_of_omap. rewrite Forall_forall in S2.
      destruct (S2 c Hc) as (id' & r & Hid & ->). by injection E as ->. }
  destruct (errs1 ++ errs2 ++ errs3 ++ errs4) as [|err errs] eqn:Eerrs.
  - apply app_nil in Eerrs as [_ Eerrs]. apply app_nil in Eerrs as [E2 Eerrs].
    apply app_nil in Eerrs as [E3 E4].
    eapply does_bind; [by apply (does_bind _ _ _ (λ e l, l = [FileOp "remove" (stateFilePath stateDir (ds_DevnetName s)) e])
      (λ _ l, ∃ e, l = [FileOp "remove" (stateFilePath stateDir (ds_DevnetName s)) e]));
      [by apply does_ask|intros e l ->; apply does_done; by exists e]|].
    intros _ l5 [e ->]. apply does_done. rewrite app_nil_r.
    split; [apply Hall; [by repeat constructor|done]|]. intros _. split.
    + intros x Hx. unfold held in Hx. apply elem_of_app in Hx as [Hx|Hx]; [|apply elem_of_app in Hx as [Hx|Hx]].
      * destruct (ds_NetworkID s) as [id|] eqn:En; [|by apply elem_of_nil in Hx].
        case_bool_decide as Hid; [by apply elem_of_nil in Hx|]. apply list_elem_of_singleton in Hx as ->.
        destruct (Hnet E3 id eq_refl Hid) as [output Hout]. eexists. split; [|by exists output]. set_solver.
      * destruct (ds_PortRange s) as [a|]; [|by apply elem_of_nil in Hx].
        apply list_elem_of_singleton in Hx as ->. destruct H4 as (e' & -> & He'). rewrite (He' E4).
        eexists. split; [|reflexivity]. set_solver.
      * apply list_elem_of_fmap in Hx as (id & -> & Hid). destruct (Hrm id Hid) as ([output failed] & Hr & Hn).
        simpl in Hn. rewrite (Hn E2) in Hr. eexists. split; [|by exists output]. set_solver.
    + exists e. by rewrite !(assoc_L app), last_snoc.
  - apply does_done. split; [apply Hall; [constructor|done]|done].
Qed.
Lemma handleFailure_does h s err :
  does h (handleFailure stateDir s err) (λ e undo, rolled_back s undo ∧
    ((e = Wrap "deployment failed" err ∧ cleaned s undo) ∨ ∃ msg, e = Errorf msg)).
Proof.
  unfold handleFailure. apply does_now. intros now. eapply does_bind; [apply Rollback_does|].
  intros [rollbackErr s'] undo [[A1 A2 A3 A4 A5 A6] Hc]. apply does_done. rewrite app_nil_r.
  split; [by split|]. destruct rollbackErr as [r|]; [right; by eexists|left]. split; [done|]. by apply Hc.
Qed.

Lemma saveState_does h s : does h (saveState stateDir s) (λ _ l, Forall idle l).
Proof.
  apply does_emits. unfold saveState, file. apply emits_bind; [by apply emits_ask|].
  intros [e|]; [apply emits_done|]. apply emits_bind; [by apply emits_ask|]. intros. apply emits_done.
Qed.

(** ** The whole deployment *)

(** The state knows all that was made by the calls [w] after [h]. *)
Definition tracks (h w : list Call) (s : DeploymentState) : Prop :=
  omap made w = held s ∧
  match ds_PortRange s with
  | None => Forall calm w
  | Some a => ∃ w1 l w2, w = w1 ++ l ++ w2 ∧ Forall calm w1 ∧ Forall calm w2 ∧
                allocated (h ++ w1) (ds_DevnetName s) a l
  end.

(** All but the ports of a conflict. *)
Definition lost_ports (h w : list Call) (s : DeploymentState) : Prop :=
  ds_PortRange s = None ∧
  ∃ w1 l, w = w1 ++ l ∧ omap made w1 = held s ∧ Forall calm w1 ∧
    conflicted (h ++ w1) (ds_DevnetName s) l.

Definition failed_run (h : list Call) (name : string) (all : list Call) (e : error) : Prop :=
  ∃ w undo s, all = w ++ undo ∧ ds_DevnetName s = name ∧ (tracks h w s ∨ lost_ports h w s) ∧
    rolled_back s undo ∧
    ((∃ err, e = Wrap "deployment failed" err ∧ cleaned s undo) ∨ ∃ msg, e = Errorf msg).

Definition good_run (h : list Call) (config : DeploymentConfig) (all : list Call) (r : DeploymentResult)
    (m : DockerManager) : Prop :=
  ∃ s id a, ds_DevnetName s = dc_DevnetName config ∧ tracks h all s ∧ ds_NetworkID s = Some id ∧ id ≠ "" ∧
    ds_PortRange s = Some a ∧
    dr_NetworkID r = id ∧ dr_PortAllocation r = a ∧ dr_DevnetName r = dc_DevnetName config ∧
    dr_Containers r = imap (container_info config (pa_PortRangeStart a)) (ds_StartedContainers s) ∧
    omap ran all = starts m config (pa_PortRangeStart a) id (Z.to_nat (dc_ValidatorCount config)) 0.

Definition run_outcome (h : list Call) (config : DeploymentConfig)
    (res : outcome DeploymentResult * DockerManager) (all : list Call) : Prop :=
  match res.1 with
  | Returns r => good_run h config all r res.2
  | Fails e => failed_run h (dc_DevnetName config) all e
  | _ => False
  end.

Lemma tracks_more h w s s' l :
  tracks h w s → Forall calm l → held s' = held s ++ omap made l →
  ds_DevnetName s' = ds_DevnetName s → ds_PortRange s' = ds_PortRange s → tracks h (w ++ l) s'.
Proof.
  intros [Hm Hp] Hl Hh Hn Hr. split; [by rewrite Hh, omap_app, Hm|]. rewrite Hr, Hn.
  destruct (ds_PortRange s) as [a|]; [|by apply Forall_app].
  destruct Hp as (w1 & lp & w2 & -> & H1 & H2 & Ha). exists w1, lp, (w2 ++ l).
  split_and!; [by rewrite <- !(assoc_L app)|done|by apply Forall_app|done].
Qed.

Lemma tracks_extends h w d d' l :
  tracks h w (dp_state d) → extends d d' l → tracks h (w ++ l) (dp_state d').
Proof. intros Ht [Hc Hh Hn Hp]. by eapply tracks_more. Qed.

Lemma tracks_idle h w s l : tracks h w s → Forall idle l → tracks h (w ++ l) s.
Proof.
  intros Ht Hl. eapply tracks_more; [done|by apply idle_calm| |done..].
  by rewrite idle_made, app_nil_r.
Qed.

(** A phase of a run that has made the calls [w]. *)
Lemma after_does h w config phase k (P : option error * Deployment → list Call → Prop) :
  does (h ++ w) phase P →
  (∀ err d l, P (Some err, d) l → ds_DevnetName (dp_state d) = dc_DevnetName config ∧
     (tracks h (w ++ l) (dp_state d) ∨ lost_ports h (w ++ l) (dp_state d))) →
  (∀ d l l', P (None, d) l → Forall idle l' →
     does (h ++ (w ++ l ++ l')) (k d) (λ res l2, run_outcome h config res ((w ++ l ++ l') ++ l2))) →
  does (h ++ w) (after stateDir phase k) (λ res l, run_outcome h config res (w ++ l)).
Proof.
  intros Hp Hf Hk. unfold after. eapply does_bind; [exact Hp|]. intros [[err|] d] l HP; simpl.
  - destruct (Hf _ _ _ HP) as [Hn Ht]. eapply does_bind; [apply handleFailure_does|].
    intros e undo [Hrb He]. apply does_done. unfold run_outcome. simpl. rewrite app_nil_r.
    exists (w ++ l), undo, (dp_state d). split_and!; try done; [by rewrite (assoc_L app)|].
    destruct He as [[-> Hc]|[msg ->]]; [left|right]; by eexists.
  - eapply does_bind; [apply saveState_does|]. intros e l' Hl'.
    rewrite <- (assoc_L app h w l), <- (assoc_L app h _ l'), <- (assoc_L app w l l').
    eapply does_weaken; [by apply Hk|]. intros res l2 Hres. by rewrite !(assoc_L app) in *.
Qed.
Lemma finalizeDeployment_does h config d :
  does h (finalizeDeployment config d) (λ r l, Forall idle l ∧ r.2 = in_phase PhaseRunning d ∧
    ∀ a id, ds_PortRange (dp_state d) = Some a → ds_NetworkID (dp_state d) = Some id →
      ∃ subnet duration, r.1 = Returns (mkDeploymentResult (dc_DevnetName config) id subnet
        (imap (container_info config (pa_PortRangeStart a)) (ds_StartedContainers (dp_state d)))
        a duration true)).
Proof.
  unfold finalizeDeployment. apply does_now. intros now.
  eapply (does_bind _ _ _ (λ _ l, Forall idle l)).
  - apply does_emits. repeat case_match; try apply emits_done.
    unfold GetNetworkSubnet, docker. apply emits_bind; [by apply emits_ask|intros; apply emits_done].
  - intros subnet l Hl. apply does_done. rewrite app_nil_r. split; [done|]. split; [by repeat case_match|].
    simpl. intros a id -> ->. by eexists _, _.
Qed.

(** Failing in a phase that only extends. *)
Lemma tracks_or_lost h w d d' l name :
  tracks h w (dp_state d) → ds_DevnetName (dp_state d) = name → extends d d' l →
  ds_DevnetName (dp_state d') = name ∧
  (tracks h (w ++ l) (dp_state d') ∨ lost_ports h (w ++ l) (dp_state d')).
Proof.
  intros Ht Hn He. split; [by rewrite (ext_name _ _ _ He)|]. left. by eapply tracks_extends.
Qed.

(** The state between two phases: what is known after an extending phase and the
    saving of the state. *)
Lemma between h w d d' l l' name :
  tracks h w (dp_state d) → ds_DevnetName (dp_state d) = name → extends d d' l → Forall idle l' →
  tracks h (w ++ l ++ l') (dp_state d') ∧ ds_DevnetName (dp_state d') = name.
Proof.
  intros Ht Hn He Hl. rewrite (assoc_L app). split; [|by rewrite (ext_name _ _ _ He)].
  apply tracks_idle; [by eapply tracks_extends|done].
Qed.

Lemma tracks_nothing_ran h w s : tracks h w s → ds_StartedContainers s = [] → omap ran w = [].
Proof.
  intros [Hm _] Hc. destruct (omap ran w) as [|args rest] eqn:E; [done|].
  destruct (ran_made w args) as [id Hid]; [rewrite E; by left|]. rewrite Hm in Hid.
  unfold held in Hid. rewrite Hc in Hid. repeat case_match; set_solver.
Qed.

Lemma Deploy_does h config m : does h (Deploy stateDir config m) (run_outcome h config).
Proof.
  unfold Deploy. apply does_now. intros now.
  set (d0 := mkDeployment _ _).
  assert (T0 : tracks h [] (dp_state d0)) by (split; [reflexivity|apply Forall_nil_2]).
  assert (N0 : ds_DevnetName (dp_state d0) = dc_DevnetName config) by reflexivity.
  assert (E0 : held (dp_state d0) = []) by reflexivity. clearbody d0.
  eapply (does_weaken _ _ (λ res l, run_outcome h config res ([] ++ l))); [|done].
  rewrite <- (app_nil_r h) at 1.
  (* validating *)
  eapply (after_does _ _ _ _ _ (λ r l, extends d0 r.2 l ∧ held (dp_state r.2) = [])).
  { eapply does_weaken; [apply phaseValidate_does|]. intros r l (He & _ & E). split; [done|]. rewrite E. exact E0. }
  { intros err d l [He _]. by eapply tracks_or_lost. }
  intros d1 l l' [He E1] Hl'. simpl in He, E1. destruct (between _ _ _ _ _ _ _ T0 N0 He Hl') as [T1 N1]. clear He.
  set (w1 := [] ++ l ++ l') in *. clearbody w1. clear l l' Hl'.
  (* the network *)
  eapply after_does; [by apply phaseCreateNetwork_does|intros err d l [He _]; by eapply tracks_or_lost|].
  intros d2 l l' [He C2] Hl'. simpl in He, C2. destruct (between _ _ _ _ _ _ _ T1 N1 He Hl') as [T2 N2].
  destruct (held_nil _ E1) as [P1 C1]. rewrite C1 in C2.
  assert (P2 : ds_PortRange (dp_state d2) = None) by (rewrite (ext_ports _ _ _ He); exact P1).
  set (w2 := w1 ++ l ++ l') in *. clearbody w2. clear l l' Hl' He T0 N0 E0.
  (* the ports *)
  eapply after_does; [apply phaseAllocatePorts_does| |].
  { intros err d l [E Hl]. simpl in E, Hl. subst d. split; [done|]. destruct T2 as [M2 F2]. rewrite P2 in F2.
    destruct Hl as [(e & n & ->)|Hl].
    - left. eapply (tracks_more _ _ (dp_state d2)); try done; [split; [done|by rewrite P2]|..].
      + by repeat constructor.
      + by rewrite app_nil_r.
    - right. split; [done|]. exists w2, l. split_and!; try done. simpl. by rewrite N2. }
  intros d3 l l' (a & Ha & E3) Hl'. simpl in Ha, E3.
  assert (T3 : tracks h (w2 ++ l ++ l') (dp_state d3)).
  { destruct T2 as [M2 F2]. rewrite P2 in F2. destruct Ha as (n & -> & Hans). split.
    - rewrite !omap_app, M2, (idle_made l' Hl'). rewrite E3. unfold held. simpl. rewrite C2, P2, N2. simpl.
      by rewrite !app_nil_r.
    - rewrite E3. simpl. exists w2, [CallAllocate (dc_DevnetName config) n (Ok a); Conflicts a (Ok [])], l'.
      split_and!; try done; [by apply idle_calm|]. exists n. by rewrite N2. }
  assert (C3 : ds_StartedContainers (dp_state d3) = []) by by rewrite E3.
  assert (N3 : ds_DevnetName (dp_state d3) = dc_DevnetName config) by (by rewrite E3).
  set (w3 := w2 ++ l ++ l') in *. clearbody w3. clear l l' Hl' Ha E3 P2 C2 T2 N2 T1 N1 E1 P1 C1.
  (* the image *)
  eapply after_does; [apply phasePullImage_does|intros err d l [He _]; by eapply tracks_or_lost|].
  intros d4 l l' [He C4] Hl'. simpl in He, C4. rewrite C3 in C4. destruct (between _ _ _ _ _ _ _ T3 N3 He Hl') as [T4 N4]. clear He.
  set (w4 := w3 ++ l ++ l') in *. clearbody w4. clear l l' Hl'.
  (* the containers *)
  eapply after_does; [apply phaseStartContainers_does|intros err d l [He _]; by eapply tracks_or_lost|].
  intros d5 l l' (He & Hm & Hn & Hs) Hl'. simpl in He, Hm, Hn, Hs. destruct (between _ _ _ _ _ _ _ T4 N4 He Hl') as [T5 N5].
  destruct (Hs eq_refl) as (range_ & id & Hrange & Hid & Hne & Hran). simpl in *.
  eapply does_bind; [apply finalizeDeployment_does|]. intros [res d6] l2 (Hl2 & E6 & Hres). simpl in *. subst d6.
  destruct (Hres range_ id) as (subnet & duration & ->); [by rewrite (ext_ports _ _ _ He)|by rewrite Hn|].
  eapply does_bind; [apply saveState_does|]. intros e l3 Hl3. apply does_done.
  unfold run_outcome, good_run. simpl. exists (dp_state d5), id, range_. rewrite app_nil_r.
  split_and!; try done; [|by rewrite Hn|by rewrite (ext_ports _ _ _ He)|].
  - apply tracks_idle; [done|by apply Forall_app].
  - rewrite Hm, !omap_app, (idle_ran l' Hl'), (idle_ran l2 Hl2), (idle_ran l3 Hl3), !app_nil_r, Hran.
    by rewrite (tracks_nothing_ran _ _ _ T4 C4).
Qed.
Lemma Deploy_runs config m st :
  let '((res, m'), st') := Deploy stateDir config m st in
  ∃ all, es_calls st' = es_calls st ++ all ∧ run_outcome (es_calls st) config (res, m') all.
Proof.
  destruct (Deploy_does (es_calls st) config m st eq_refl) as (all & E & Hr).
  destruct (Deploy stateDir config m st) as [[res m'] st']. by exists all.
Qed.

(** The allocated ports were found to be taken, or could not be checked. *)
Definition port_conflict (l : list Call) : Prop :=
  ∃ a r, last l = Some (Conflicts a r) ∧ r ≠ Ok [].

(** C29: A failed deployment undoes what succeeded of it.  Its calls are the work and the
    undoing.  Unless the error says that the rollback failed too, each container and
    network that a call of the work made and reported without an error was removed, and
    the ports were released, except for the ports of a conflict, and the last call
    removes the devnet's state file.  When the rollback failed, it still tried to remove
    every such container.  No other container is removed: one that a [docker run] created
    but could not start (it exits with an error) is not undone but left behind. *)
Theorem failed_deploy_undoes_what_succeeded config m st :
  let '((res, _), st') := Deploy stateDir config m st in
  match res with Fails e =>
  ∃ work undo, es_calls st' = es_calls st ++ work ++ undo ∧ Forall (λ c, made c = None) undo ∧
    (∀ id, Container id ∈ omap made work ↔ ∃ r, Docker ["rm"; "-f"; id] r ∈ undo) ∧
    ((∃ err, e = Wrap "deployment failed" err) →
       (∀ x, x ∈ omap made work → (∃ c, c ∈ undo ∧ undoes c x) ∨
          x = Ports (dc_DevnetName config) ∧ port_conflict work) ∧
       ∃ e', last undo = Some (FileOp "remove" (stateFilePath stateDir (dc_DevnetName config)) e'))
  | _ => True end.
Proof.
  pose proof (Deploy_runs config m st) as Hr. destruct (Deploy _ _ _ _) as [[res m'] st'].
  destruct res as [|e| |]; [done| |done..]. destruct Hr as (all & Ec & w & undo & s & -> & Hn & Ht & [R1 R2 R3 R4 R5 R6] & He).
  exists w, undo. split; [done|]. split; [done|].
  assert (Hheld : ∀ x, x ∈ omap made w → x ∈ held s ∨ x = Ports (dc_DevnetName config) ∧ port_conflict w).
  { intros x Hx. destruct Ht as [[Hm _]|(Hnone & w1 & l & -> & Hm & _ & n & a & r & -> & Hr & _)].
    - left. by rewrite <- Hm.
    - rewrite omap_app, Hm in Hx. apply elem_of_app in Hx as [Hx|Hx]; [by left|right].
      simpl in Hx. apply list_elem_of_singleton in Hx as ->. rewrite Hn. split; [done|].
      exists a, r. split; [|done]. by rewrite last_app. }
  split.
  - intros id. split.
    + intros Hid. destruct (Hheld _ Hid) as [Hh|[? _]]; [|done]. apply R4. unfold held in Hh.
      apply elem_of_app in Hh as [Hh|Hh]; [repeat case_match; set_solver|].
      apply elem_of_app in Hh as [Hh|Hh]; [repeat case_match; set_solver|].
      by apply list_elem_of_fmap in Hh as (? & [= ->] & ?).
    + intros [r Hr]. assert (Hs : id ∈ ds_StartedContainers s).
      { apply R6, list_elem_of_omap. by exists (Docker ["rm"; "-f"; id] r). }
      assert (Hh : Container id ∈ held s) by (unfold held; rewrite !elem_of_app; right; right; by apply list_elem_of_fmap_2).
      destruct Ht as [[Hm _]|(_ & w1 & l & -> & Hm & _)]; [by rewrite Hm|].
      rewrite omap_app, Hm. apply elem_of_app. by left.
  - intros [err ->]. destruct He as [(err' & _ & Hc & Hlast)|[msg ?]]; [|done]. rewrite Hn in Hlast.
    split; [|done]. intros x Hx. destruct (Hheld x Hx) as [Hh|Hh]; [left; by apply Hc|by right].
Qed.







(** ** The ports of a conflict *)

(** An allocator refuses a devnet that has a range. *)
Class RefusesHeld : Prop := refuses_held : ∀ name n a c1 c2 n' a',
  CallRelease name None ∉ c2 →
  do_allocate name n' (c1 ++ CallAllocate name n (Ok a) :: c2) ≠ Ok a'.

Lemma calm_no_conflict l a r : Forall calm l → Conflicts a r ∉ l.
Proof. intros Hl Hin. rewrite Forall_forall in Hl. by apply (Hl _ Hin). Qed.
Lemma calm_no_release l name e : Forall calm l → CallRelease name e ∉ l.
Proof. intros Hl Hin. rewrite Forall_forall in Hl. by apply (Hl _ Hin). Qed.

Lemma tracks_no_conflict h w s a r : tracks h w s → Conflicts a r ∈ w → r = Ok [].
Proof.
  intros [_ Hp] Hin. destruct (ds_PortRange s) as [a'|]; [|by apply calm_no_conflict in Hin].
  destruct Hp as (w1 & l & w2 & -> & H1 & H2 & n & -> & _). rewrite !elem_of_app in Hin.
  destruct Hin as [Hin|[Hin|Hin]]; [by apply calm_no_conflict in Hin| |by apply calm_no_conflict in Hin].
  apply elem_of_cons in Hin as [?|Hin]; [done|]. by apply list_elem_of_singleton in Hin as [= -> ->].
Qed.

(** A port conflict blocks the devnet for good.  When the ports allocated to a
    deployment are found to be in use, it fails without releasing them, and then no
    later deployment of this devnet returns, whatever else happens, until somebody
    releases the range. *)
Theorem port_conflict_blocks_devnet `{RefusesHeld} config m st a ports :
  let '((res, _), st1) := Deploy stateDir config m st in
  ports ≠ [] → (∃ all, es_calls st1 = es_calls st ++ all ∧ Conflicts a (Ok ports) ∈ all) →
  (∃ e, res = Fails e) ∧
  ∀ st2 more config2 m2,
    es_calls st2 = es_calls st1 ++ more → CallRelease (dc_DevnetName config) None ∉ more →
    dc_DevnetName config2 = dc_DevnetName config →
    ∃ e, (Deploy stateDir config2 m2 st2).1.1 = Fails e.
Proof.
  pose proof (Deploy_runs config m st) as Hr. destruct (Deploy _ _ _ _) as [[res m'] st1].
  intros Hports (all & Ec & Hin). destruct Hr as (all' & Ec' & Hr).
  rewrite Ec in Ec'. apply app_inv_head in Ec' as <-.
  destruct res as [r|e| |]; [|split; [by eexists|]|done..].
  { exfalso. destruct Hr as (s & id & a' & _ & Ht & _). by eapply tracks_no_conflict in Hin as [= ->]. }
  destruct Hr as (w & undo & s & -> & Hn & Ht & [_ R2 R3 _ _] & _).
  apply elem_of_app in Hin as [Hin|Hin]; [|by apply R2 in Hin].
  destruct Ht as [Ht|(Hnone & w1 & l & -> & _ & _ & n & a' & r & -> & _)].
  { by eapply tracks_no_conflict in Hin as [= ->]. }
  intros st2 more config2 m2 E2 Hmore Hname.
  pose proof (Deploy_runs config2 m2 st2) as Hr2. destruct (Deploy _ _ _ _) as [[res2 m3] st3]. simpl.
  destruct Hr2 as (all2 & _ & Hr2). destruct res2 as [r2|e2| |]; [|by eexists|done..]. exfalso.
  destruct Hr2 as (s2 & id2 & a2 & Hn2 & [_ Hp2] & _ & _ & Ha2 & _). rewrite Ha2 in Hp2.
  destruct Hp2 as (v1 & l2 & v2 & _ & Hv1 & _ & n2 & _ & Hans).
  rewrite E2, Ec, Hn2, Hname, Hn in *.
  replace (((es_calls st ++ (w1 ++ [CallAllocate (dc_DevnetName config) n (Ok a'); Conflicts a' r]) ++ undo) ++
    more) ++ v1) with ((es_calls st ++ w1) ++ CallAllocate (dc_DevnetName config) n (Ok a') ::
    (Conflicts a' r :: undo ++ more ++ v1)) in Hans by (rewrite <- !(assoc_L app); done).
  apply refuses_held in Hans; [done|]. rewrite elem_of_cons, !elem_of_app.
  intros [?|[Hu|[Hu|Hu]]]; [done| |done|by apply calm_no_release in Hu].
  by apply calm_no_release in Hu; [|apply R3].
Qed.
End spec.

(** ** An environment with the port registry *)

(** The registry that the calls lead to, with the allocator's own plan. *)
Definition replay_call (l : list PortAllocation) (c : Call) : list PortAllocation :=
  match c with
  | CallAllocate name _ (Ok a) =>
      mkPortAllocation name (pa_NetworkName a) (pa_Subnet a) (pa_PortRangeStart a)
        (pa_PortRangeEnd a) (pa_ValidatorCount a) (pa_AllocatedAt a) :: l
  | CallRelease name None => filter (λ a, ¬ has_name name a) l
  | _ => l
  end.

(** Docker does whatever it is asked to, and port 26000 is taken. *)
#[local] Instance busy_host : DockerEnv := {|
  run_docker _ _ := mkExec "c0ffee" None;
  stat_path _ _ := FileExists 1;
  do_file _ _ _ := None;
  write_state _ _ _ := None;
  read_state _ _ := StateMissing;
  do_allocate name n calls :=
    match plan_allocate 0 name n (foldl replay_call [] calls) with Ok (a, _) => Ok a | Err e => Err e end;
  do_release _ _ := None;
  find_conflicts a _ := Ok (filter (λ p, p = 26000%Z) [pa_PortRangeStart a]);
  parse_networks _ := Ok [];
  parse_containers _ := Ok [];
  parse_time _ := None;
  clock n := Z.of_nat n;
  user := "1000:1000"
|}.

Lemma replay_keeps name l c2 :
  Exists (has_name name) l → CallRelease name None ∉ c2 →
  Exists (has_name name) (foldl replay_call l c2).
Proof.
  revert l. induction c2 as [|c c2 IH]; intros l Hl Hn; [done|]. simpl.
  apply not_elem_of_cons in Hn as [Hc Hn]. apply IH; [|done].
  apply Exists_exists in Hl as (a & Ha & Hna). apply Exists_exists. exists a. split; [|done].
  destruct c as [| | | | |? ? [|]|name' [e|]|]; simpl; try done; [by right|].
  apply list_elem_of_filter. split; [|done]. unfold has_name in *. congruence.
Qed.

#[local] Instance registry_refuses : RefusesHeld.
Proof.
  intros name n a c1 c2 n' a' Hn. simpl. rewrite foldl_app. cbn [foldl replay_call]. unfold plan_allocate.
  rewrite bool_decide_true; [done|]. apply replay_keeps; [|done]. left. exact eq_refl.
Qed.

Definition two_validators : DeploymentConfig :=
  mkDeploymentConfig "a" 2 "img" "chain" "/home" None None.

#[local] Existing Instance some_order.

Definition first_try :=
  Deploy "/state" two_validators (NewDockerManager "img") (mkEState [] 0).

(** Port 26000 is in use: the deployment fails, and so does the next. *)
Lemma port_conflict_blocks_devnet_witness :
  (∃ e, first_try.1.1 = Fails e) ∧
  ∃ e, (Deploy "/state" two_validators (NewDockerManager "img") first_try.2).1.1 = Fails e.
Proof.
  pose proof (port_conflict_blocks_devnet "/state" two_validators (NewDockerManager "img") (mkEState [] 0)
    (mkPortAllocation "a" "devnet-a-network" "" 26000 26199 2 0) [26000%Z]) as Hb.
  fold first_try in Hb.
  assert (Hin : ∃ all, es_calls first_try.2 = [] ++ all ∧
    Conflicts (mkPortAllocation "a" "devnet-a-network" "" 26000 26199 2 0) (Ok [26000%Z]) ∈ all).
  { exists (es_calls first_try.2). split; [exact eq_refl|]. vm_compute. in_calls. }
  destruct first_try as [[res m1] st1]. cbn [fst snd] in *.
  destruct (Hb ltac:(done) Hin) as [Hf Hnext]. split; [exact Hf|].
  apply (Hnext st1 [] two_validators).
  - by rewrite app_nil_r.
  - by apply not_elem_of_nil.
  - reflexivity.
Defined.

(** What the failed deployment made and undid. *)
Lemma failed_deploy_undoes_what_succeeded_witness :
  ∃ e m st', first_try = ((Fails e, m), st') ∧
  ∃ work undo, es_calls st' = work ++ undo ∧ omap made work = [Network "c0ffee"; Ports "a"] ∧
    (∃ c, c ∈ undo ∧ undoes c (Network "c0ffee")) ∧ Ports "a" ∉ omap made undo.
Proof.
  pose proof (failed_deploy_undoes_what_succeeded "/state" two_validators (NewDockerManager "img") (mkEState [] 0)) as Hl.
  fold first_try in Hl.
  assert (He : ∃ m e, first_try.1 = (Fails (Wrap "deployment failed" e), m) ∧
    omap made (es_calls first_try.2) = [Network "c0ffee"; Ports "a"]).
  { eexists _, _. split; vm_compute; reflexivity. }
  destruct He as (m & e & E & Hm). destruct first_try as [[res m1] st1]. cbn [fst snd] in *.
  injection E as -> ->. destruct Hl as (work & undo & Ec & Hn & _ & Hl). cbn [es_calls app] in Ec.
  eexists _, _, _. split; [reflexivity|]. exists work, undo. split; [exact Ec|].
  assert (Hu : omap made undo = []).
  { clear -Hn. induction Hn as [|c l Hc _ IH]; [reflexivity|]. simpl. by rewrite Hc. }
  rewrite Ec, omap_app, Hu, app_nil_r in Hm. split; [exact Hm|].
  destruct Hl as [Hl _]; [by eexists|]. destruct (Hl (Network "c0ffee")) as [Hx|[? _]]; [|split|done].
  - rewrite Hm. by left.
  - exact Hx.
  - rewrite Hu. by apply not_elem_of_nil.
Defined.
