(* ===== verification/LogBuffer.v ===== *)
(** * Log entries and their ring buffer
    ([internal/daemon/logs/buffer.go], [parser.go])

    [None] is a panic.  The lock makes each method one step. *)

From stdpp Require Import base tactics numbers list strings gmap.
From S2P Require Import Prelude.

(** ** Entries *)

(** [V] are the JSON values of the fields. *)
Record LogEntry {V : Type} := mkLogEntry {
  le_Timestamp : Time;
  le_Level : string;
  le_Module : string;
  le_Message : string;
  le_NodeIndex : Z;
  le_Fields : gmap string V;
  le_Raw : string
}.
Arguments LogEntry V : clear implicits.
#[export] Instance eta_LogEntry {V} : Settable (LogEntry V) := mkSettable (λ x,
  mkLogEntry V (le_Timestamp x) (le_Level x) (le_Module x) (le_Message x) (le_NodeIndex x)
    (le_Fields x) (le_Raw x)).

(** [LogEntry.String]; [format] is the time of day of a time stamp, and upper case
    is that of ASCII text. *)
Definition upper_char (c : Ascii.ascii) : Ascii.ascii :=
  let n := Ascii.nat_of_ascii c in
  if bool_decide (97 ≤ n) && bool_decide (n ≤ 122) then Ascii.ascii_of_nat (n - 32) else c.
Definition ToUpper (s : string) : string :=
  String.string_of_list_ascii (upper_char <$> String.list_ascii_of_string s).

Definition entry_String {V} (format : Time → string) (e : LogEntry V) : option string :=
  let ts := format (le_Timestamp e) in
  if bool_decide (String.length (le_Level e) < 3) then None
  else
    let level := ToUpper (String.substring 0 3 (le_Level e)) in
    Some (if bool_decide (le_Module e = "")
          then "[" +:+ ts +:+ "] " +:+ level +:+ " " +:+ le_Message e
          else "[" +:+ ts +:+ "] " +:+ level +:+ " [" +:+ le_Module e +:+ "] " +:+ le_Message e).

(** ** The ring *)

Record RingBuffer {A : Type} := mkRingBuffer {
  rb_entries : list (option A);
  rb_capacity : Z;
  rb_head : Z;
  rb_size : Z
}.
Arguments RingBuffer A : clear implicits.

Section ring.
Context {A : Type}.
Implicit Types (r : RingBuffer A) (e : A).

Definition NewRingBuffer (capacity : Z) : RingBuffer A :=
  let capacity := if bool_decide (capacity ≤ 0)%Z then 1000%Z else capacity in
  mkRingBuffer A (replicate (Z.to_nat capacity) None) capacity 0 0.

(** [r.entries[i]]. *)
Definition at_index (i : Z) r : option (option A) :=
  if bool_decide (0 ≤ i)%Z then rb_entries r !! Z.to_nat i else None.

Definition Add e r : option (RingBuffer A) :=
  match at_index (rb_head r) r with
  | None => None
  | Some _ =>
      Some (mkRingBuffer A (<[Z.to_nat (rb_head r) := Some e]> (rb_entries r)) (rb_capacity r)
              (Z.rem (rb_head r + 1) (rb_capacity r))
              (if bool_decide (rb_size r < rb_capacity r)%Z then rb_size r + 1 else rb_size r)%Z)
  end.

(** The nil slice is the empty one. *)
Definition getEntriesLocked (n : Z) r : option (list (option A)) :=
  if bool_decide (n = 0)%Z || bool_decide (rb_size r = 0)%Z then Some []
  else if bool_decide (n < 0)%Z then None
  else
    let start := Z.rem (rb_head r - n + rb_capacity r) (rb_capacity r) in
    mapM (λ i, at_index (Z.rem (start + i) (rb_capacity r)) r) (seqZ 0 n).

Definition GetAll r : option (list (option A)) := getEntriesLocked (rb_size r) r.

Definition GetLast (n : Z) r : option (list (option A)) :=
  getEntriesLocked (if bool_decide (rb_size r < n)%Z then rb_size r else n) r.

Definition Size r : Z := rb_size r.

Definition Clear r : RingBuffer A :=
  mkRingBuffer A ((λ _, None) <$> rb_entries r) (rb_capacity r) 0 0.

Definition matching (predicate : A → bool) (entry : option A) : option A :=
  match entry with
  | Some e => if predicate e then Some e else None
  | None => None
  end.
Definition Filter (predicate : A → bool) r : option (list A) :=
  match getEntriesLocked (rb_size r) r with
  | Some entries => Some (omap (matching predicate) entries)
  | None => None
  end.
End ring.

Definition Since {V} (t : Time) (r : RingBuffer (LogEntry V)) : option (list (LogEntry V)) :=
  Filter (λ e, negb (bool_decide (le_Timestamp e < t)%Z)) r.
Definition ForNode {V} (nodeIndex : Z) (r : RingBuffer (LogEntry V)) : option (list (LogEntry V)) :=
  Filter (λ e, bool_decide (le_NodeIndex e = nodeIndex)) r.
Definition ForLevel {V} (level : string) (r : RingBuffer (LogEntry V)) : option (list (LogEntry V)) :=
  Filter (λ e, bool_decide (le_Level e = level)) r.

(** ** The ring is a bounded list *)

Inductive buffer_op (A : Type) := OAdd (e : A) | OClear.
Arguments OAdd {A} e.
Arguments OClear {A}.

Section refine.
Context {A : Type}.
Implicit Types (r : RingBuffer A) (l : list A).

Definition buffer_step (op : buffer_op A) r : option (RingBuffer A) :=
  match op with OAdd e => Add e r | OClear => Some (Clear r) end.
Fixpoint run_buffer (ops : list (buffer_op A)) r : option (RingBuffer A) :=
  match ops with
  | [] => Some r
  | op :: ops => match buffer_step op r with Some r => run_buffer ops r | None => None end
  end.

(** The last [n] elements. *)
Definition last_n {B} (n : nat) (l : list B) : list B := drop (length l - n) l.

(** The entries added since the buffer was last cleared. *)
Definition added (ops : list (buffer_op A)) : list A :=
  foldl (λ l op, match op with OAdd e => l ++ [e] | OClear => [] end) [] ops.

(** The ring [r] of [c] places holds [l]. *)
Record holds_list (c : nat) r l : Prop := {
  hl_pos : 0 < c;
  hl_capacity : rb_capacity r = Z.of_nat c;
  hl_entries : length (rb_entries r) = c;
  hl_size : rb_size r = Z.of_nat (length l);
  hl_bound : length l ≤ c;
  hl_head : (0 ≤ rb_head r < Z.of_nat c)%Z;
  hl_lookup : ∀ i e, l !! i = Some e →
    rb_entries r !! Z.to_nat ((rb_head r - Z.of_nat (length l) + Z.of_nat i) `mod` Z.of_nat c) = Some (Some e)
}.

Lemma rem_is_mod a b : (0 ≤ a)%Z → (0 < b)%Z → Z.rem a b = (a `mod` b)%Z.
Proof. intros. by rewrite Z.rem_mod_nonneg by lia. Qed.

Lemma at_index_lookup i r : (0 ≤ i)%Z → at_index i r = rb_entries r !! Z.to_nat i.
Proof. intros Hi. unfold at_index. by rewrite bool_decide_true. Qed.

Lemma holds_new c :
  let n := if bool_decide (c ≤ 0)%Z then 1000%Z else c in
  holds_list (Z.to_nat n) (NewRingBuffer c) [].
Proof.
  simpl. unfold NewRingBuffer. set (n := if bool_decide (c ≤ 0)%Z then 1000%Z else c).
  assert (0 < n)%Z by (unfold n; case_bool_decide; lia).
  split; simpl; rewrite ?length_replicate; try done; lia.
Qed.

Lemma holds_clear c r l : holds_list c r l → holds_list c (Clear r) [].
Proof. intros [????? ?]. split; simpl; rewrite ?length_fmap; try done; lia. Qed.

Lemma lookup_last_n {B} (n : nat) (l : list B) i :
  last_n n l !! i = l !! (length l - n + i).
Proof. unfold last_n. by rewrite lookup_drop. Qed.

Lemma mod_eq_mod a b c : (0 < c)%Z → (∃ k, a = b + k * c)%Z → (a `mod` c = b `mod` c)%Z.
Proof. intros Hc [k ->]. by rewrite Z.mod_add by lia. Qed.

(** Two places less than a turn apart are different. *)
Lemma mod_ne h d c : (0 < d < c)%Z → (0 ≤ h < c)%Z → ((h + d) `mod` c ≠ h)%Z.
Proof.
  intros Hd Hh E. destruct (decide (h + d < c)%Z).
  - rewrite Z.mod_small in E by lia. lia.
  - rewrite (mod_eq_mod _ (h + d - c) c) in E by (try lia; exists 1%Z; lia).
    rewrite Z.mod_small in E by lia. lia.
Qed.

Lemma holds_add c r l e :
  holds_list c r l → ∃ r', Add e r = Some r' ∧ holds_list c r' (last_n c (l ++ [e])).
Proof.
  intros [Hc Hcap Hen Hsz Hb Hh Hl]. unfold Add. rewrite at_index_lookup by lia.
  destruct (lookup_lt_is_Some_2 (rb_entries r) (Z.to_nat (rb_head r))) as [x ->]; [lia|].
  eexists. split; [done|].
  assert (Hlen : length (last_n c (l ++ [e])) = Nat.min c (S (length l))).
  { unfold last_n. rewrite length_drop, length_app. simpl. lia. }
  assert (Hrem : Z.rem (rb_head r + 1) (rb_capacity r) = ((rb_head r + 1) `mod` Z.of_nat c)%Z).
  { rewrite Hcap. apply rem_is_mod; lia. }
  split; cbn [rb_capacity rb_entries rb_size rb_head]; try done.
  - by rewrite length_insert.
  - rewrite Hlen, Hcap, Hsz. case_bool_decide; lia.
  - rewrite Hlen. lia.
  - rewrite Hrem. apply Z.mod_pos_bound. lia.
  - intros i y Hi. rewrite Hrem, Hlen.
    assert (Hil : i < Nat.min c (S (length l))) by (rewrite <- Hlen; by eapply lookup_lt_Some).
    rewrite lookup_last_n, length_app in Hi. simpl in Hi.
    set (j := S (length l) - Nat.min c (S (length l)) + i).
    replace ((length l + 1 - c + i)) with j in Hi by (unfold j; lia).
    assert (Ep : (((rb_head r + 1) `mod` Z.of_nat c - Z.of_nat (Nat.min c (S (length l))) + Z.of_nat i) `mod`
      Z.of_nat c = (rb_head r - Z.of_nat (length l) + Z.of_nat j) `mod` Z.of_nat c)%Z).
    { replace ((rb_head r + 1) `mod` Z.of_nat c - Z.of_nat (Nat.min c (S (length l))) + Z.of_nat i)%Z
        with ((rb_head r + 1) `mod` Z.of_nat c + (Z.of_nat i - Z.of_nat (Nat.min c (S (length l)))))%Z by lia.
      rewrite Z.add_mod_idemp_l by lia. f_equal. unfold j. lia. }
    rewrite Ep. destruct (decide (j = length l)) as [E|Hne].
    + rewrite E, lookup_app_r, Nat.sub_diag in Hi by lia. injection Hi as <-.
      replace (rb_head r - Z.of_nat (length l) + Z.of_nat j)%Z with (rb_head r) by lia.
      rewrite Z.mod_small by lia. apply list_lookup_insert_eq. lia.
    + assert (Hj : j < length l) by (unfold j in *; lia).
      rewrite lookup_app_l in Hi by lia. rewrite list_lookup_insert_ne; [by apply Hl|].
      set (q := ((rb_head r - Z.of_nat (length l) + Z.of_nat j) `mod` Z.of_nat c)%Z).
      assert (Hq : (0 ≤ q < Z.of_nat c)%Z) by (apply Z.mod_pos_bound; lia).
      intros Eq. apply (mod_ne q (Z.of_nat (length l - j)) (Z.of_nat c)); [unfold j in *; lia|done|].
      unfold q at 1. rewrite Z.add_mod_idemp_l by lia.
      replace (rb_head r - Z.of_nat (length l) + Z.of_nat j + Z.of_nat (length l - j))%Z with (rb_head r) by lia.
      rewrite Z.mod_small by lia. lia.
Qed.
Lemma getEntries_holds c r l n :
  holds_list c r l → n ≤ length l → getEntriesLocked (Z.of_nat n) r = Some (Some <$> last_n n l).
Proof.
  intros [Hc Hcap Hen Hsz Hb Hh Hl] Hn. unfold getEntriesLocked.
  destruct (decide (n = 0)) as [->|Hn0].
  { simpl. unfold last_n. by rewrite Nat.sub_0_r, drop_all. }
  rewrite !bool_decide_false by lia. simpl. apply mapM_Some.
  apply Forall2_same_length_lookup_2.
  { unfold last_n. rewrite length_seqZ, length_fmap, length_drop. lia. }
  intros i z y Hz Hy. apply lookup_seqZ in Hz as [-> Hi].
  apply list_lookup_fmap_Some in Hy as (e & -> & He). rewrite lookup_last_n in He.
  apply Hl in He. rewrite Hcap.
  rewrite (rem_is_mod (rb_head r - Z.of_nat n + Z.of_nat c)) by lia.
  pose proof (Z.mod_pos_bound (rb_head r - Z.of_nat n + Z.of_nat c) (Z.of_nat c)) as Hm.
  rewrite rem_is_mod by lia. rewrite at_index_lookup by (apply Z.mod_pos_bound; lia).
  rewrite <- He. f_equal. f_equal.
  rewrite Z.add_mod_idemp_l by lia. apply mod_eq_mod; [lia|]. exists 1%Z. lia.
Qed.

Lemma last_n_all {B} (n : nat) (l : list B) : length l ≤ n → last_n n l = l.
Proof. intros Hn. unfold last_n. by replace (length l - n) with 0 by lia. Qed.

Lemma last_n_again (c : nat) (l : list A) e : last_n c (last_n c l ++ [e]) = last_n c (l ++ [e]).
Proof.
  unfold last_n. rewrite !length_app, length_drop. simpl.
  destruct (decide (length l - c = 0)) as [E|Hne].
  - rewrite E. do 2 f_equal. lia.
  - destruct c as [|c].
    + rewrite !drop_ge; [done|..]; rewrite ?length_app, ?length_drop; simpl; lia.
    + rewrite <- (drop_app_le l [e]) by lia. rewrite drop_drop. f_equal. lia.
Qed.

Lemma run_holds c ops r l :
  holds_list c r (last_n c l) →
  ∃ r', run_buffer ops r = Some r' ∧
    holds_list c r' (last_n c (foldl (λ l op, match op with OAdd e => l ++ [e] | OClear => [] end) l ops)).
Proof.
  revert r l. induction ops as [|[e|] ops IH]; intros r l Hr; simpl; [by exists r|..].
  - destruct (holds_add _ _ _ e Hr) as (r' & -> & Hr'). rewrite last_n_again in Hr'. by apply IH.
  - apply IH. by eapply holds_clear.
Qed.

(** The ring buffer is the list of the last [capacity] entries since it was
    cleared: no sequence of operations panics, and every read gives that list, its last
    [n] or those that match, in the order they were added.  Only a negative [n] panics,
    when the buffer is not empty. *)
Theorem ring_buffer_refines (c : Z) (ops : list (buffer_op A)) :
  let capacity := Z.to_nat (if bool_decide (c ≤ 0)%Z then 1000%Z else c) in
  let kept := last_n capacity (added ops) in
  ∃ r, run_buffer ops (NewRingBuffer c) = Some r ∧
    Size r = Z.of_nat (length kept) ∧
    GetAll r = Some (Some <$> kept) ∧
    (∀ n, GetLast (Z.of_nat n) r = Some (Some <$> last_n n kept)) ∧
    (∀ n, (n < 0)%Z → GetLast n r = if bool_decide (kept = []) then Some [] else None) ∧
    (∀ p, Filter p r = Some (filter (λ e, Is_true (p e)) kept)).
Proof.
  intros capacity kept.
  destruct (run_holds capacity ops (NewRingBuffer c) []) as (r & Hrun & Hr); [apply holds_new|].
  fold (added ops) in Hr. fold kept in Hr. clearbody kept. exists r. split; [done|].
  pose proof Hr as [_ _ _ Hsz _ _ _].
  assert (Hall : getEntriesLocked (rb_size r) r = Some (Some <$> kept)).
  { rewrite Hsz, (getEntries_holds _ _ _ _ Hr) by done. by rewrite last_n_all. }
  split_and!; [done|done|..].
  - intros n. unfold GetLast. rewrite Hsz. case_bool_decide.
    + rewrite (getEntries_holds _ _ _ _ Hr), !last_n_all by lia. done.
    + apply (getEntries_holds _ _ _ _ Hr). lia.
  - intros n Hn. unfold GetLast, getEntriesLocked. rewrite Hsz.
    rewrite (bool_decide_false (Z.of_nat (length kept) < n)%Z) by lia.
    rewrite (bool_decide_false (n = 0)%Z) by lia. rewrite (bool_decide_true (n < 0)%Z) by done.
    destruct kept; simpl; done.
  - intros p. unfold Filter. rewrite Hall. f_equal. clear. induction kept as [|e l IH]; [done|].
    simpl. rewrite filter_cons, <- IH. by destruct (p e).
Qed.
End refine.
