(* ===== verification/LogParser.v ===== *)
(** * Parsing and collecting logs
    ([internal/daemon/logs/parser.go], [collector.go])

    Lines are JSON objects or the plain text of the Cosmos SDK, which two regular
    expressions take apart.  The collector reads lines until the reader ends or its
    context is done, whichever the scheduler sees first. *)

From Stdlib Require Import Ascii.
From stdpp Require Import base tactics numbers list strings gmap.
From S2P Require Import Prelude NodeConfig LogBuffer.

(** [encoding/json] on an object, and [time.Parse] with nanoseconds. *)
Class LogJSON := {
  LV : Type;
  LV_string : string → LV;
  as_string : LV → option string;
  unmarshal_line : string → result (gmap string LV);
  parse_nano : string → option Time
}.

(** ** The regular expressions *)

(** [^(DBG|INF|WRN|ERR)\s+(.+)$] on a line without white space at its ends, so that
    something follows the white space. *)
Definition match_level (line : string) : option (string * string) :=
  let short := String.substring 0 3 line in
  if bool_decide (short ∈ ["DBG"; "INF"; "WRN"; "ERR"]) then
    let '(ws, rest) := span_space (String.substring 3 (String.length line) line) in
    if bool_decide (ws = "") || bool_decide (rest = "") || has_char newline rest then None
    else Some (short, rest)
  else None.

Definition is_word (c : ascii) : bool :=
  let n := nat_of_ascii c in
  (bool_decide (97 ≤ n) && bool_decide (n ≤ 122)) || (bool_decide (65 ≤ n) && bool_decide (n ≤ 90)) ||
  (bool_decide (48 ≤ n) && bool_decide (n ≤ 57)) || bool_decide (c = "_"%char).

(** The characters that satisfy [f] at the start, and the rest. *)
Fixpoint span (f : ascii → bool) (s : string) : string * string :=
  match s with
  | EmptyString => ("", "")
  | String c rest => if f c then let '(a, b) := span f rest in (String c a, b) else ("", s)
  end.

(** The value at the start: [q[^q]*q] for the double quote [q], or else [\S+]. *)
Definition match_value (s : string) : option string :=
  let bare := let v := (span (λ c, negb (re_space c)) s).1 in
              if bool_decide (v = "") then None else Some v in
  match s with
  | String c rest =>
      if bool_decide (c = dquote) then
        let '(body, rest) := span (λ c, negb (bool_decide (c = dquote))) rest in
        if bool_decide (rest = "") then bare
        else Some (String dquote (body +:+ String dquote ""))
      else bare
  | EmptyString => None
  end.

(** All matches of [(\w+)=(value)], each with its text, key and value; [run] are the word
    characters before the place, and [skip] characters belong to the last match. *)
Fixpoint key_values (skip : nat) (run s : string) : list (string * string * string) :=
  match s with
  | EmptyString => []
  | String c rest =>
      match skip with
      | S skip => key_values skip "" rest
      | O =>
          if is_word c then key_values 0 (run +:+ String c "") rest
          else if bool_decide (c = "="%char) && negb (bool_decide (run = "")) then
            match match_value rest with
            | Some value =>
                (run +:+ "=" +:+ value, run, value) :: key_values (String.length value) "" rest
            | None => key_values 0 "" rest
            end
          else key_values 0 "" rest
      end
  end.

(** ** Plain text *)

(** [strings.Index]. *)
Fixpoint Index (s sub : string) : option nat :=
  if has_prefix sub s then Some 0
  else match s with EmptyString => None | String _ s => S <$> Index s sub end.

Fixpoint trim_left_char (c : ascii) (s : string) : string :=
  match s with
  | EmptyString => ""
  | String x rest => if bool_decide (x = c) then trim_left_char c rest else s
  end.
Fixpoint trim_right_char (c : ascii) (s : string) : string :=
  match s with
  | EmptyString => ""
  | String x rest =>
      let rest := trim_right_char c rest in
      if bool_decide (x = c) && bool_decide (rest = "") then "" else String x rest
  end.
(** [strings.Trim] of one character. *)
Definition Trim (c : ascii) (s : string) : string := trim_right_char c (trim_left_char c s).

Definition from (i : nat) (s : string) : string := String.substring i (String.length s) s.
Definition shortLevelToFull (short : string) : string :=
  if bool_decide (short = "DBG") then "debug"
  else if bool_decide (short = "INF") then "info"
  else if bool_decide (short = "WRN") then "warn"
  else if bool_decide (short = "ERR") then "error"
  else "info".

Section parser.
Context `{LogJSON}.

Definition new_entry (now : Time) (line : string) : LogEntry LV :=
  mkLogEntry LV now "" "" "" 0 ∅ line.

(** What the loop over the matches keeps. *)
Record loop_state := mkLoop {
  lo_message : string;
  lo_lastEnd : nat;
  lo_entry : LogEntry LV
}.

Definition match_step (rest : string) (st : loop_state) (kv : string * string * string) : loop_state :=
  let '(fullMatch, key, value) := kv in
  let value := Trim dquote value in
  let message :=
    match Index (from (lo_lastEnd st) rest) fullMatch with
    | Some (S _ as pos) =>
        lo_message st +:+ TrimSpace (String.substring (lo_lastEnd st) pos rest) +:+ " "
    | _ => lo_message st
    end in
  let lastEnd := default 0 (Index rest fullMatch) + String.length fullMatch in
  mkLoop message lastEnd
    (if bool_decide (key = "module") then lo_entry st <| le_Module := value |>
     else lo_entry st <| le_Fields := <[key := LV_string value]> (le_Fields (lo_entry st)) |>).

Definition parsePlainText (now : Time) (line : string) : LogEntry LV :=
  let entry := new_entry now line in
  match match_level line with
  | None => entry <| le_Level := "info" |> <| le_Message := line |>
  | Some (short, rest) =>
      let entry := entry <| le_Level := shortLevelToFull short |> in
      let kvMatches := key_values 0 "" rest in
      let st := foldl (match_step rest) (mkLoop "" 0 entry) kvMatches in
      let entry :=
        match kvMatches with
        | (firstKV, _, _) :: _ =>
            match Index rest firstKV with
            | Some (S _ as pos) => lo_entry st <| le_Message := TrimSpace (String.substring 0 pos rest) |>
            | _ => lo_entry st
            end
        | [] => lo_entry st <| le_Message := rest |>
        end in
      if bool_decide (le_Message entry = "") then entry <| le_Message := TrimSpace (lo_message st) |>
      else entry
  end.

(** ** JSON *)

(** The value of a string field, which leaves the object. *)
Definition take_string (key : string) (raw : gmap string LV) : option string * gmap string LV :=
  match raw !! key ≫= as_string with
  | Some v => (Some v, delete key raw)
  | None => (None, raw)
  end.

Definition parseJSON (now : Time) (line : string) : result (LogEntry LV) :=
  try raw := unmarshal_line line in
  let entry := new_entry now line in
  let '(level, raw) := take_string "level" raw in
  let '(module, raw) := take_string "module" raw in
  let '(msg, raw) := take_string "msg" raw in
  let '(timeStr, raw) := take_string "time" raw in
  Ok (mkLogEntry LV (default now (timeStr ≫= parse_nano)) (default "" level) (default "" module)
        (default "" msg) (le_NodeIndex entry) raw line).

Definition Parse (now : Time) (line : string) : result (LogEntry LV) :=
  let line := TrimSpace line in
  if bool_decide (line = "") then Err (Errorf "empty line")
  else if has_prefix "{" line then
    match parseJSON now line with
    | Ok entry => Ok entry
    | Err _ => Ok (parsePlainText now line)
    end
  else Ok (parsePlainText now line).

(** ** The collector *)

(** A line of a node at its time, unless it is empty. *)
Definition collected (nodeIndex : Z) (now : Time) (line : string) : option (LogEntry LV) :=
  if bool_decide (line = "") then None
  else Some ((match Parse now line with
              | Ok entry => entry
              | Err _ => mkLogEntry LV now "unknown" "" line 0 ∅ line
              end) <| le_NodeIndex := nodeIndex |>).

Fixpoint collect_lines (nodeIndex : Z) (lines : list (Time * string)) (buffer : RingBuffer (LogEntry LV))
    (count : Z) : option (RingBuffer (LogEntry LV) * Z) :=
  match lines with
  | [] => Some (buffer, count)
  | (now, line) :: rest =>
      match collected nodeIndex now line with
      | None => collect_lines nodeIndex rest buffer count
      | Some entry =>
          match Add entry buffer with
          | Some buffer => collect_lines nodeIndex rest buffer (count + 1)
          | None => None
          end
      end
  end.

(** The lines of the reader with the times they are taken; the context is done after
    some of them are received, if at all, and the reader may end with an error. *)
Definition CollectFromReader (lines : list (Time * string)) (scanErr : option error)
    (done_after : option (nat * error)) (nodeIndex : Z) (buffer : RingBuffer (LogEntry LV)) :
    option (RingBuffer (LogEntry LV) * Z * option error) :=
  match done_after with
  | Some (received, ctxErr) =>
      (λ '(b, n), (b, n, Some ctxErr)) <$> collect_lines nodeIndex (take received lines) buffer 0
  | None => (λ '(b, n), (b, n, scanErr)) <$> collect_lines nodeIndex lines buffer 0
  end.

Record LogStats := mkLogStats {
  st_Total : Z;
  st_ByLevel : gmap string Z;
  st_ByNode : gmap Z Z
}.

Definition count_one `{Countable K} (k : K) (m : gmap K Z) : gmap K Z :=
  <[k := (default 0 (m !! k) + 1)%Z]> m.

Definition Stats (buffer : RingBuffer (LogEntry LV)) : option LogStats :=
  match GetAll buffer with
  | None => None
  | Some entries =>
      Some (foldl (λ stats entry, match entry with
                     | Some e => mkLogStats (st_Total stats) (count_one (le_Level e) (st_ByLevel stats))
                                   (count_one (le_NodeIndex e) (st_ByNode stats))
                     | None => stats
                     end) (mkLogStats (Z.of_nat (length entries)) ∅ ∅) entries)
  end.
End parser.

(** ** A printed line parses *)

(** A line as the SDK prints it. *)
Definition field_text (kv : string * string) : string := kv.1 +:+ String "="%char kv.2.
Fixpoint fields_text (fields : list (string * string)) : string :=
  match fields with [] => "" | kv :: rest => " " +:+ field_text kv +:+ fields_text rest end.
Definition log_line (short msg : string) (fields : list (string * string)) : string :=
  short +:+ " " +:+ msg +:+ fields_text fields.

(** A message that can be told from the fields after it. *)
Record plain_message (msg : string) : Prop := {
  pm_first : ∃ c rest, msg = String c rest ∧ is_space c = false;
  pm_last : trim_right msg = msg;
  pm_equals : has_char "="%char msg = false;
  pm_line : has_char newline msg = false
}.

Definition value_char (c : ascii) : bool := negb (is_space c) && negb (bool_decide (c = dquote)).
Record plain_field (kv : string * string) : Prop := {
  pf_key : kv.1 ≠ "" ∧ all_chars is_word kv.1 = true;
  pf_value : kv.2 ≠ "" ∧ all_chars value_char kv.2 = true
}.

Lemma all_chars_app f a b : all_chars f (a +:+ b) = all_chars f a && all_chars f b.
Proof. induction a as [|c a IH]; [done|].
  change (f c && all_chars f (a +:+ b) = f c && all_chars f a && all_chars f b).
  by rewrite IH, andb_assoc. Qed.

Lemma all_chars_impl' f g s : (∀ c, f c = true → g c = true) → all_chars f s = true → all_chars g s = true.
Proof.
  intros Hi. induction s as [|c s IH]; [done|]. simpl. rewrite !andb_true_iff. intros [Hc Hs]. auto.
Qed.

Lemma span_app f a b :
  all_chars f a = true → match b with String c _ => f c = false | EmptyString => True end →
  span f (a +:+ b) = (a, b).
Proof.
  intros Ha Hb. induction a as [|c a IH].
  - destruct b as [|c b]; [done|]. simpl. by rewrite Hb.
  - simpl in Ha. apply andb_true_iff in Ha as [Hc Ha].
    change (span f (String c (a +:+ b)) = (String c a, b)). simpl. by rewrite Hc, IH.
Qed.

Lemma word_not_space c : is_word c = true → is_space c = false.
Proof. destruct c as [[] [] [] [] [] [] [] []]; vm_compute; congruence. Qed.
Lemma word_not_equals c : is_word c = true → c ≠ "="%char.
Proof. intros Hc ->. by vm_compute in Hc. Qed.

Lemma fields_text_start fields :
  match fields_text fields with String c _ => re_space c = true | EmptyString => True end.
Proof. by destruct fields. Qed.

(** The value of a field, before what follows it. *)
Lemma match_value_field kv fields :
  plain_field kv → match_value (kv.2 +:+ fields_text fields) = Some kv.2.
Proof.
  intros [_ [Hne Hv]]. destruct kv as [k v]. simpl in *.
  assert (Hs : span (λ c, negb (re_space c)) (v +:+ fields_text fields) = (v, fields_text fields)).
  { apply span_app.
    - eapply all_chars_impl'; [|exact Hv]. intros c Hc. unfold value_char in Hc.
      apply andb_true_iff in Hc as [Hc _]. unfold re_space. by destruct (is_space c).
    - pose proof (fields_text_start fields). destruct (fields_text fields); [done|]. by rewrite H. }
  destruct v as [|c v]; [done|].
  change (String c v +:+ fields_text fields) with (String c (v +:+ fields_text fields)) in *.
  unfold match_value. rewrite Hs. simpl in Hv. apply andb_true_iff in Hv as [Hc _].
  unfold value_char in Hc. apply andb_true_iff in Hc as [_ Hc].
  destruct (bool_decide (c = dquote)); done.
Qed.

Lemma key_values_skip v s : key_values (String.length v) "" (v +:+ s) = key_values 0 "" s.
Proof. induction v as [|c v IH]; [done|]. exact IH. Qed.

(** Words without an equals sign are passed over. *)
Lemma key_values_message run msg s :
  has_char "="%char msg = false → key_values 0 run (msg +:+ String " " s) = key_values 0 "" s.
Proof.
  revert run. induction msg as [|c msg IH]; intros run Hm; [done|].
  simpl in Hm. apply orb_false_iff in Hm as [Hc Hm].
  change (key_values 0 run (String c (msg +:+ String " " s)) = key_values 0 "" s). simpl.
  destruct (is_word c); [by apply IH|]. apply bool_decide_eq_false in Hc.
  rewrite bool_decide_false by done. simpl. by apply IH.
Qed.

Lemma key_values_key run k s :
  all_chars is_word k = true → key_values 0 run (k +:+ s) = key_values 0 (run +:+ k) s.
Proof.
  revert run. induction k as [|c k IH]; intros run Hk; [by rewrite append_nil_r|].
  simpl in Hk. apply andb_true_iff in Hk as [Hc Hk].
  change (key_values 0 run (String c (k +:+ s)) = key_values 0 (run +:+ String c k) s). simpl.
  rewrite Hc, IH by done. by rewrite <- (assoc_L String.append).
Qed.

Definition field_match (kv : string * string) : string * string * string := (field_text kv, kv.1, kv.2).

Lemma key_values_field kv fields :
  plain_field kv →
  key_values 0 "" (field_text kv +:+ fields_text fields) =
    field_match kv :: key_values 0 "" (fields_text fields).
Proof.
  intros Hf. destruct Hf as [[Hk1 Hk2] Hv] eqn:E. unfold field_text.
  rewrite <- (assoc_L String.append), key_values_key by done.
  change ((String "="%char kv.2) +:+ fields_text fields) with (String "="%char (kv.2 +:+ fields_text fields)).
  change ("" +:+ kv.1) with kv.1. cbn [key_values is_word].
  replace (is_word "="%char) with false by done.
  rewrite (bool_decide_true ("="%char = "="%char)) by done. rewrite (bool_decide_false (kv.1 = "")) by done.
  cbn [andb negb].
  rewrite match_value_field by (by split). by rewrite key_values_skip.
Qed.

Lemma key_values_fields fields :
  Forall plain_field fields → key_values 0 "" (fields_text fields) = field_match <$> fields.
Proof.
  induction 1 as [|kv fields Hkv Hf IH]; [done|].
  change (key_values 0 "" (fields_text (kv :: fields))) with
    (key_values 0 "" (field_text kv +:+ fields_text fields)).
  by rewrite key_values_field, IH.
Qed.

Lemma trim_right_word s : all_chars (λ c, negb (is_space c)) s = true → trim_right s = s.
Proof.
  induction s as [|c s IH]; [done|]. simpl. intros [Hc Hs]%andb_true_iff. rewrite IH by done.
  by destruct (is_space c).
Qed.

Lemma trim_right_spaces a ws : all_chars is_space ws = true → trim_right (a +:+ ws) = trim_right a.
Proof.
  intros Hws. assert (He : trim_right ws = "").
  { induction ws as [|c ws IH]; [done|]. simpl in *. apply andb_true_iff in Hws as [Hc Hws].
    by rewrite Hc, IH. }
  induction a as [|c a IH]; [done|].
  change (trim_right (String c (a +:+ ws)) = trim_right (String c a)). simpl. by rewrite IH.
Qed.

Lemma value_no_space v : all_chars value_char v = true → all_chars (λ c, negb (is_space c)) v = true.
Proof. apply all_chars_impl'. unfold value_char. by intros c [? _]%andb_true_iff. Qed.

Lemma trim_right_fields fields :
  Forall plain_field fields → trim_right (fields_text fields) = fields_text fields.
Proof.
  induction 1 as [|kv fields [_ [Hne Hv]] Hf IH]; [done|].
  change (fields_text (kv :: fields)) with ((" " +:+ field_text kv) +:+ fields_text fields).
  assert (Hone : trim_right (" " +:+ field_text kv) = " " +:+ field_text kv).
  { assert (Hv' : trim_right kv.2 = kv.2) by (by apply trim_right_word, value_no_space).
    assert (H1 : trim_right ("=" +:+ kv.2) = "=" +:+ kv.2) by (by rewrite trim_right_app; rewrite Hv').
    assert (H2 : trim_right (field_text kv) = field_text kv).
    { unfold field_text. change (String "=" kv.2) with ("=" +:+ kv.2).
      rewrite trim_right_app; rewrite H1; done. }
    rewrite trim_right_app; rewrite H2; [done|]. unfold field_text. by destruct kv.1. }
  destruct fields as [|kv' fields].
  { change (fields_text []) with "". by rewrite append_nil_r. }
  rewrite trim_right_app; rewrite IH; done.
Qed.

Lemma trim_chars_no c s : has_char c s = false → Trim c s = s.
Proof.
  intros Hs. assert (Hl : trim_left_char c s = s).
  { destruct s as [|x s]; [done|]. simpl in *. apply orb_false_iff in Hs as [Hx _].
    by rewrite Hx. }
  unfold Trim. rewrite Hl. clear Hl. induction s as [|x s IH]; [done|]. simpl in *.
  apply orb_false_iff in Hs as [Hx Hs]. by rewrite Hx, IH.
Qed.

Lemma Index_first pre k v x :
  has_char "="%char pre = false → has_char "="%char k = false →
  Index (pre +:+ (k +:+ String "="%char v) +:+ x) (k +:+ String "="%char v) = Some (String.length pre).
Proof.
  intros Hp Hk. induction pre as [|c pre IH].
  - change ("" +:+ ?z) with z. destruct k; simpl; rewrite ?bool_decide_true by done; cbn [andb];
      rewrite has_prefix_app; done.
  - simpl in Hp. apply orb_false_iff in Hp as [Hc Hp].
    change (String c pre +:+ ?z) with (String c (pre +:+ z)).
    cbn [Index]. destruct (has_prefix _ _) eqn:E.
    + exfalso. apply has_prefix_spec in E as [t E].
      change (String c (pre +:+ (k +:+ String "=" v) +:+ x)) with
        (String c pre +:+ (k +:+ String "=" v) +:+ x) in E.
      rewrite <- !(assoc_L String.append), (assoc_L String.append (String c pre)) in E.
      apply sep_inj in E as [E _].
      * apply (f_equal String.length) in E.
        assert (Hl : ∀ a b, String.length (a +:+ b) = String.length a + String.length b).
        { intros a b. induction a as [|y a IHa]; [done|].
          change (String.length (String y (a +:+ b)) = S (String.length a + String.length b)). simpl. by rewrite IHa. }
        rewrite Hl in E. simpl in E. lia.
      * rewrite has_char_app, Hk. simpl. by rewrite Hc, Hp.
      * done.
    + by rewrite IH.
Qed.

Section printed.
Context `{LogJSON}.

Definition apply_field (e : LogEntry LV) (kv : string * string) : LogEntry LV :=
  if bool_decide (kv.1 = "module") then e <| le_Module := kv.2 |>
  else e <| le_Fields := <[kv.1 := LV_string kv.2]> (le_Fields e) |>.

Lemma match_steps rest fields st :
  Forall plain_field fields →
  lo_entry (foldl (match_step rest) st (field_match <$> fields)) = foldl apply_field (lo_entry st) fields.
Proof.
  intros Hf. revert st. induction Hf as [|kv fields Hkv Hf IH]; intros st; [done|].
  rewrite fmap_cons. cbn [foldl]. rewrite IH. f_equal. unfold match_step, field_match. cbn [lo_entry].
  rewrite trim_chars_no; [done|]. destruct Hkv as [_ [_ Hv]]. eapply all_chars_not; [exact Hv|].
  unfold value_char. rewrite (bool_decide_true (dquote = dquote)) by done. apply andb_false_r.
Qed.

Lemma short_shape short :
  short ∈ ["DBG"; "INF"; "WRN"; "ERR"] →
  ∃ a b c, short = String a (String b (String c "")) ∧ is_space a = false ∧ a ≠ "{"%char.
Proof.
  intros Hs. repeat (apply elem_of_cons in Hs as [->|Hs]; [by eexists _, _, _|]).
  by apply elem_of_nil in Hs.
Qed.

Lemma substring_whole s n : String.length s ≤ n → String.substring 0 n s = s.
Proof.
  revert n. induction s as [|c s IH]; intros [|n] Hn; simpl in *; try done; [lia|].
  rewrite IH by lia. done.
Qed.

Lemma fields_text_cons kv fields :
  fields_text (kv :: fields) = String " " (field_text kv +:+ fields_text fields).
Proof. done. Qed.

Lemma field_no_newline kv : plain_field kv → has_char newline (field_text kv) = false.
Proof.
  intros [[_ Hk] [_ Hv]]. unfold field_text. rewrite has_char_app.
  change (has_char newline (String "="%char kv.2)) with (has_char newline kv.2).
  apply orb_false_iff. split; [by eapply all_chars_not|by eapply all_chars_not].
Qed.

Lemma fields_no_newline fields : Forall plain_field fields → has_char newline (fields_text fields) = false.
Proof.
  induction 1 as [|kv fields Hkv Hf IH]; [done|]. rewrite fields_text_cons.
  change (has_char newline (field_text kv +:+ fields_text fields) = false).
  by rewrite has_char_app, field_no_newline, IH.
Qed.

Lemma key_values_none run msg : has_char "="%char msg = false → key_values 0 run msg = [].
Proof.
  revert run. induction msg as [|c msg IH]; intros run Hm; [done|].
  simpl in Hm. apply orb_false_iff in Hm as [Hc Hm]. simpl.
  destruct (is_word c); [by apply IH|]. apply bool_decide_eq_false in Hc.
  rewrite bool_decide_false by done. simpl. by apply IH.
Qed.

Lemma key_values_line msg fields :
  plain_message msg → Forall plain_field fields →
  key_values 0 "" (msg +:+ fields_text fields) = field_match <$> fields.
Proof.
  intros [_ _ He _] Hf. destruct fields as [|kv fields].
  - change (fields_text []) with "". rewrite append_nil_r. by apply key_values_none.
  - rewrite fields_text_cons, key_values_message by done.
    rewrite <- (key_values_fields (kv :: fields)) by done. by rewrite fields_text_cons.
Qed.

Lemma line_trimmed a b c msg fields :
  is_space a = false → plain_message msg → Forall plain_field fields →
  TrimSpace (log_line (String a (String b (String c ""))) msg fields) =
    log_line (String a (String b (String c ""))) msg fields.
Proof.
  intros Ha [(x & rest & Ex & _) Hl _ _] Hf. unfold TrimSpace, log_line.
  change (trim_left (String a (String b (String c "")) +:+ ?z)) with
    (if is_space a then trim_left (String b (String c "" +:+ z))
     else String a (String b (String c "")) +:+ z). rewrite Ha.
  assert (Hm : trim_right (msg +:+ fields_text fields) = msg +:+ fields_text fields).
  { destruct fields as [|kv fields].
    - change (fields_text []) with "". by rewrite append_nil_r.
    - rewrite trim_right_app; rewrite trim_right_fields by done; done. }
  assert (Hne : msg +:+ fields_text fields ≠ "") by by rewrite Ex.
  rewrite (assoc_L String.append _ " "), trim_right_app; rewrite Hm; done.
Qed.

Lemma match_level_line short msg fields :
  short ∈ ["DBG"; "INF"; "WRN"; "ERR"] → plain_message msg → Forall plain_field fields →
  match_level (log_line short msg fields) = Some (short, msg +:+ fields_text fields).
Proof.
  intros Hs [(x & rest & Ex & Hx) Hl _ Hn] Hf. destruct (short_shape short Hs) as (a & b & c & Eshort & _ & _).
  unfold match_level, log_line.
  assert (E1 : String.substring 0 3 (short +:+ " " +:+ msg +:+ fields_text fields) = short).
  { rewrite Eshort. simpl. by destruct msg. }
  rewrite E1, bool_decide_true by done.
  assert (E2 : ∀ z, String.substring 3 (String.length (short +:+ z)) (short +:+ z) = z).
  { intros z. rewrite Eshort. apply substring_whole.
    change (String.length z ≤ S (S (S (String.length z)))). lia. }
  rewrite E2, span_space_app by (try done; subst msg; simpl; unfold re_space; by rewrite Hx).
  rewrite (bool_decide_false (" " = "")) by done.
  rewrite (bool_decide_false (msg +:+ fields_text fields = "")) by by rewrite Ex.
  by rewrite has_char_app, Hn, fields_no_newline.
Qed.

(** A printed line parses.  A line of the SDK's plain format, made of a level, a
    message and fields, parses to the entry with that level under its long name, the
    message, the module of the last field of that name, and the other fields, the last of
    each name. *)
Theorem printed_line_parses now short msg fields :
  short ∈ ["DBG"; "INF"; "WRN"; "ERR"] → plain_message msg → Forall plain_field fields →
  let line := log_line short msg fields in
  Parse now line = Ok (foldl apply_field (new_entry now line <| le_Level := shortLevelToFull short |>) fields
                         <| le_Message := msg |>).
Proof.
  intros Hshort Hmsg Hf line. destruct (short_shape short Hshort) as (a & b & c & Es & Ha & Hbr).
  assert (Et : TrimSpace line = line) by (unfold line; rewrite Es; by apply line_trimmed).
  unfold Parse. rewrite Et. rewrite (bool_decide_false (line = "")) by (unfold line, log_line; by rewrite Es).
  assert (Eb : has_prefix "{" line = false).
  { unfold line, log_line. rewrite Es. simpl. by rewrite bool_decide_false. }
  rewrite Eb. f_equal. unfold parsePlainText, line. rewrite match_level_line by done.
  rewrite key_values_line by done. fold line.
  set (rest := msg +:+ fields_text fields). set (e0 := new_entry now line <| le_Level := _ |>).
  pose proof (match_steps rest fields (mkLoop "" 0 e0) Hf) as Hst. cbn [lo_entry] in Hst.
  destruct Hmsg as [(x & m & Ex & Hx) Hl He Hn].
  destruct fields as [|kv fields].
  - cbn [fmap list_fmap foldl lo_entry]. unfold rest. change (fields_text []) with "". rewrite append_nil_r.
    by rewrite bool_decide_false by (simpl; congruence).
  - rewrite fmap_cons in *. change (field_match kv) with (field_text kv, kv.1, kv.2) in *.
    cbv iota beta. rewrite <- Hst.
    assert (Ei : Index rest (field_text kv) = Some (S (String.length msg))).
    { apply Forall_cons in Hf as [[[_ Hk] _] _]. unfold rest. rewrite fields_text_cons.
      change (String " " (field_text kv +:+ fields_text fields)) with (" " +:+ field_text kv +:+ fields_text fields).
      rewrite (assoc_L String.append msg " "). unfold field_text. rewrite Index_first.
      - f_equal. clear. induction msg as [|c msg IH]; [done|]. 
        change (S (String.length (msg +:+ " ")) = S (S (String.length msg))). by rewrite IH.
      - by rewrite has_char_app, He.
      - eapply all_chars_not; [exact Hk|done]. }
    rewrite Ei. cbv iota beta.
    assert (Em : TrimSpace (String.substring 0 (S (String.length msg)) rest) = msg).
    { assert (Esub : String.substring 0 (S (String.length msg)) rest = msg +:+ " ").
      { unfold rest. rewrite fields_text_cons. clear. generalize (field_text kv +:+ fields_text fields). intros z.
        induction msg as [|c msg IH].
        { change (String " " (String.substring 0 0 z) = String " " ""). by destruct z. }
        change (String c (String.substring 0 (S (String.length msg)) (msg +:+ String " " z)) = String c (msg +:+ " ")).
        by rewrite IH. }
      rewrite Esub. unfold TrimSpace.
      assert (Etl : trim_left (msg +:+ " ") = msg +:+ " ").
      { rewrite Ex. change (String x m +:+ " ") with (String x (m +:+ " ")). simpl. by rewrite Hx. }
      by rewrite Etl, trim_right_spaces, Hl. }
    rewrite Em. rewrite bool_decide_false by (simpl; congruence). done.
Qed.
End printed.

(** What is collected is what the lines make, added in their order. *)
Lemma collect_lines_run `{LogJSON} nodeIndex lines (b : RingBuffer (LogEntry LV)) count :
  let entries := omap (λ '(now, line), collected nodeIndex now line) lines in
  collect_lines nodeIndex lines b count =
    (λ b', (b', (count + Z.of_nat (length entries))%Z)) <$> run_buffer (OAdd <$> entries) b.
Proof.
  cbv zeta. revert b count. induction lines as [|[now line] lines IH]; intros b count.
  { simpl. by rewrite Z.add_0_r. }
  simpl. destruct (collected nodeIndex now line) as [e|]; [|apply IH].
  rewrite fmap_cons. simpl. destruct (Add e b) as [b'|]; [|done]. rewrite IH.
  replace (count + 1 + _)%Z with (count + Z.of_nat (S (length (omap (λ '(now, line), collected nodeIndex now line) lines))))%Z by lia.
  done.
Qed.

(** ** A concrete line *)

(** Without JSON. *)
#[local] Instance text_only : LogJSON := {|
  LV := string;
  LV_string := id;
  as_string := Some;
  unmarshal_line _ := Err (Errorf "invalid character");
  parse_nano _ := None
|}.

Lemma printed_line_parses_witness :
  Parse 7 "INF committed state module=consensus height=1234" =
    Ok (mkLogEntry string 7 "info" "consensus" "committed state" 0 (<["height" := "1234"]> ∅)
          "INF committed state module=consensus height=1234").
Proof.
  pose proof (printed_line_parses 7 "INF" "committed state" [("module", "consensus"); ("height", "1234")]) as Hp.
  etransitivity; [apply Hp|reflexivity].
  - right. by left.
  - split; [|reflexivity..]. by eexists _, _.
  - repeat constructor; done.
Defined.
