(* ===== verification/LogStore.v ===== *)
(** * The log store ([internal/daemon/logs/store.go])

    Entries are kept in a bolt database under their time and a sequence number, with
    an index by node and one by level.  Each method is one transaction; the database
    is the interface [KV] of the bolt store, and encoding/json is a [Codec]. *)

From Stdlib Require Import Ascii.
From stdpp Require Import base tactics numbers list strings gmap pretty sorting.
From S2P Require Import Prelude BoltStore BoltSpec LogBuffer.

(** ** Keys *)

(** [n] as [k] big-endian bytes. *)
Fixpoint big_endian (k : nat) (n : Z) : string :=
  match k with
  | O => ""
  | S k => String (ascii_of_nat (Z.to_nat ((n `div` 256 ^ Z.of_nat k) `mod` 256)))
             (big_endian k (n `mod` 256 ^ Z.of_nat k))
  end.

Definition makeLogKey (ts : Time) (id : Z) : string :=
  big_endian 8 (unsigned 64 ts) +:+ big_endian 8 id.
Definition nodePrefix (nodeIndex : Z) : string := "node_" +:+ itoa nodeIndex +:+ "/".
Definition levelPrefix (level : string) : string := "level_" +:+ level +:+ "/".
Definition makeNodeIndexKey (nodeIndex : Z) (logKey : string) : string := nodePrefix nodeIndex +:+ logKey.
Definition makeLevelIndexKey (level : string) (logKey : string) : string := levelPrefix level +:+ logKey.

(** ** State *)

Record Buckets {B : Type} := mkBuckets {
  lb_logs : B;
  lb_nodes : B;
  lb_levels : B
}.
Arguments Buckets B : clear implicits.
Arguments mkBuckets {B}.

Record LogStore {B : Type} := mkLogStore {
  ls_buckets : Buckets B;
  ls_idSeq : Z
}.
Arguments LogStore B : clear implicits.
Arguments mkLogStore {B}.

Record LogQuery := mkLogQuery {
  lq_NodeIndex : option Z;
  lq_Level : string;
  lq_Since : option Time;
  lq_Until : option Time;
  lq_Contains : string;
  lq_Limit : Z
}.

Section store.
Context {B : Type} {F : Type} `{KV B string, !Codec string (LogEntry F)}.
Implicit Types (b : Buckets B) (s : LogStore B) (e : LogEntry F).

(** The buckets of the file, if it has them; the sequence begins anew. *)
Definition NewLogStore (buckets : string → option B) : LogStore B :=
  let bucket name := default kv_empty (buckets name) in
  mkLogStore (mkBuckets (bucket "logs") (bucket "node_index") (bucket "level_index")) 0.

(** The end of [db.Update]. *)
Definition commit_all b : option error :=
  match kv_commit (lb_logs b), kv_commit (lb_nodes b), kv_commit (lb_levels b) with
  | Some e, _, _ | None, Some e, _ => Some e
  | None, None, e => e
  end.

(** The sequence number stays used when the transaction is rolled back. *)
Definition update {A} (body : Buckets B → Z → result (A * Buckets B) * Z) s : result A * LogStore B :=
  let '(r, idSeq) := body (ls_buckets s) (ls_idSeq s) in
  match r with
  | Err e => (Err e, mkLogStore (ls_buckets s) idSeq)
  | Ok (a, b) =>
      match commit_all b with
      | Some e => (Err e, mkLogStore (ls_buckets s) idSeq)
      | None => (Ok a, mkLogStore b idSeq)
      end
  end.

(** ** Storing *)

Definition storeEntry e b (idSeq : Z) : result (Buckets B) * Z :=
  let id := unsigned 64 (idSeq + 1) in
  let key := makeLogKey (le_Timestamp e) id in
  (match encode e with
   | Err err => Err (Wrap "failed to encode log entry" err)
   | Ok data =>
       try logs := kv_put key data (lb_logs b) in
       try nodes := kv_put (makeNodeIndexKey (le_NodeIndex e) key) key (lb_nodes b) in
       try levels := kv_put (makeLevelIndexKey (le_Level e) key) key (lb_levels b) in
       Ok (mkBuckets logs nodes levels)
   end, id).

Fixpoint storeEntries (entries : list (LogEntry F)) b (idSeq : Z) : result (Buckets B) * Z :=
  match entries with
  | [] => (Ok b, idSeq)
  | e :: rest =>
      let '(r, idSeq) := storeEntry e b idSeq in
      match r with Ok b => storeEntries rest b idSeq | Err err => (Err err, idSeq) end
  end.

Definition Store e s : result unit * LogStore B :=
  update (λ b idSeq, let '(r, idSeq) := storeEntry e b idSeq in (result_map (pair tt) r, idSeq)) s.

Definition StoreBatch (entries : list (LogEntry F)) s : result unit * LogStore B :=
  update (λ b idSeq, let '(r, idSeq) := storeEntries entries b idSeq in (result_map (pair tt) r, idSeq)) s.

(** ** Reading *)

Definition matchesQuery (query : LogQuery) e : bool :=
  if bool_decide (is_Some (lq_NodeIndex query) ∧ lq_NodeIndex query ≠ Some (le_NodeIndex e)) then false
  else if negb (bool_decide (lq_Level query = "")) && negb (bool_decide (le_Level e = lq_Level query)) then false
  else if match lq_Since query with Some t => bool_decide (le_Timestamp e < t)%Z | None => false end then false
  else if match lq_Until query with Some t => bool_decide (t < le_Timestamp e)%Z | None => false end then false
  else if negb (bool_decide (lq_Contains query = "")) && negb (contains (le_Message e) (lq_Contains query))
  then false
  else true.

(** The values of the keys with a prefix. *)
Definition scan_index (prefix : string) (index : B) : list string :=
  (while_prefix prefix (seek prefix (kv_items index))).*2.

Definition keysToScan (query : LogQuery) b : list string :=
  match lq_NodeIndex query with
  | Some nodeIndex => scan_index (nodePrefix nodeIndex) (lb_nodes b)
  | None =>
      if negb (bool_decide (lq_Level query = ""))
      then scan_index (levelPrefix (lq_Level query)) (lb_levels b)
      else (kv_items (lb_logs b)).*1
  end.

(** The entry of a key, if there is one that matches. *)
Definition fetch (query : LogQuery) b (key : string) : option (LogEntry F) :=
  match kv_get key (lb_logs b) with
  | None => None
  | Some data =>
      match decode data with
      | Err _ => None
      | Ok e => if matchesQuery query e then Some e else None
      end
  end.

Fixpoint fetch_all (query : LogQuery) b (keys : list string) (entries : list (LogEntry F)) :
    list (LogEntry F) :=
  match keys with
  | [] => entries
  | key :: rest =>
      if bool_decide (0 < lq_Limit query)%Z && bool_decide (lq_Limit query ≤ Z.of_nat (length entries))%Z
      then entries
      else match fetch query b key with
           | Some e => fetch_all query b rest (entries ++ [e])
           | None => fetch_all query b rest entries
           end
  end.

Definition Query (query : LogQuery) s : list (LogEntry F) :=
  fetch_all query (ls_buckets s) (keysToScan query (ls_buckets s)) [].

Definition Count s : Z := Z.of_nat (length (kv_items (lb_logs (ls_buckets s)))).

(** ** Pruning *)

Definition keysToDelete (cutoff : Time) (items : list (string * string)) : list string :=
  omap (λ '(k, v), match decode v with
                   | Ok e => if bool_decide (le_Timestamp (e : LogEntry F) < cutoff)%Z then Some k else None
                   | Err _ => None
                   end) items.

(** The index entries of a key's entry. *)
Definition unindex (key : string) b : result (Buckets B) :=
  match kv_get key (lb_logs b) with
  | None => Ok b
  | Some data =>
      match decode data with
      | Err _ => Ok b
      | Ok e =>
          try nodes := kv_delete (makeNodeIndexKey (le_NodeIndex (e : LogEntry F)) key) (lb_nodes b) in
          try levels := kv_delete (makeLevelIndexKey (le_Level e) key) (lb_levels b) in
          Ok (mkBuckets (lb_logs b) nodes levels)
      end
  end.

Fixpoint delete_keys (keys : list string) (pruned : Z) b : result (Z * Buckets B) :=
  match keys with
  | [] => Ok (pruned, b)
  | key :: rest =>
      try b := unindex key b in
      try logs := kv_delete key (lb_logs b) in
      delete_keys rest (pruned + 1) (mkBuckets logs (lb_nodes b) (lb_levels b))
  end.

Definition Prune (cutoff : Time) s : result Z * LogStore B :=
  update (λ b idSeq, (delete_keys (keysToDelete cutoff (kv_items (lb_logs b))) 0 b, idSeq)) s.
End store.
