(* ===== verification/LogStoreSpec.v ===== *)
(** * The log store answers like a scan of all its entries

    The indexes of [LogStore] are an optimisation: under bbolt's laws a query
    returns what a scan over all the entries in time order returns, and storing and
    pruning keep the bag of the entries, as long as the store is not reopened. *)

From Stdlib Require Import Ascii.
From stdpp Require Import base tactics numbers list strings gmap pretty sorting.
From S2P Require Import Prelude BoltStore BoltSpec LogBuffer LogStore.

(** ** Keys *)

Lemma compare_app p a b : Strings.String.compare (p +:+ a) (p +:+ b) = Strings.String.compare a b.
Proof. induction p as [|c p IH]; simpl; [done|]. by rewrite compare_refl. Qed.

Lemma string_compare_refl s : Strings.String.compare s s = Eq.
Proof. induction s as [|c s IH]; simpl; [done|]. by rewrite compare_refl. Qed.

Lemma append_cons c a b : String c a +:+ b = String c (a +:+ b).
Proof. done. Qed.

Lemma compare_cons c d a b :
  Strings.String.compare (String c a) (String d b) =
  match Ascii.compare c d with Eq => Strings.String.compare a b | o => o end.
Proof. done. Qed.

(** A common prefix does not count. *)
Lemma before_app p a b : before (p +:+ a) (p +:+ b) → before a b.
Proof.
  unfold before, String.le, String.leb. rewrite compare_app. intros [Hle Hne].
  split; [done|]. by intros ->.
Qed.

#[export] Instance append_inj p : Inj (=) (=) (String.append p).
Proof. induction p as [|c p IH]; intros a b E; simpl in E; simplify_eq; auto. Qed.

Lemma length_big_endian k n : String.length (big_endian k n) = k.
Proof. revert n; induction k as [|k IH]; intros n; simpl; [done|]. by rewrite IH. Qed.

Lemma append_length_inj (a a' b b' : string) :
  String.length a = String.length a' → a +:+ b = a' +:+ b' → a = a' ∧ b = b'.
Proof.
  revert a'; induction a as [|c a IH]; intros [|c' a'] Hl E; simpl in *; try done.
  simplify_eq. by destruct (IH a') as [-> ->].
Qed.

Lemma digit_range n k : (0 ≤ n < 256 ^ Z.of_nat (S k))%Z →
  (0 ≤ n `div` 256 ^ Z.of_nat k < 256)%Z.
Proof.
  intros Hn. rewrite Nat2Z.inj_succ, Z.pow_succ_r in Hn by lia.
  split; [apply Z.div_pos; lia|]. apply Z.div_lt_upper_bound; lia.
Qed.

Lemma compare_digit i j : (0 ≤ i < 256)%Z → (0 ≤ j < 256)%Z →
  Ascii.compare (ascii_of_nat (Z.to_nat i)) (ascii_of_nat (Z.to_nat j)) = (i ?= j)%Z.
Proof.
  intros Hi Hj. unfold Ascii.compare, ascii_of_nat.
  rewrite !N_ascii_embedding by lia.
  destruct (Z.compare_spec i j) as [->|Hl|Hl].
  - apply N.compare_refl.
  - apply N.compare_lt_iff. lia.
  - apply N.compare_gt_iff. lia.
Qed.

(** Big-endian numbers of one length are ordered like the numbers. *)
Lemma big_endian_compare k n m x y :
  (0 ≤ n < 256 ^ Z.of_nat k)%Z → (0 ≤ m < 256 ^ Z.of_nat k)%Z → (n < m)%Z →
  Strings.String.compare (big_endian k n +:+ x) (big_endian k m +:+ y) = Lt.
Proof.
  revert n m; induction k as [|k IH]; intros n m Hn Hm Hlt; [simpl in *; lia|].
  pose proof (digit_range n k Hn) as Hdn. pose proof (digit_range m k Hm) as Hdm.
  pose proof (Z.pow_pos_nonneg 256 (Z.of_nat k) ltac:(lia) ltac:(lia)) as Hp.
  pose proof (Z.mod_pos_bound n _ Hp) as Hmn. pose proof (Z.mod_pos_bound m _ Hp) as Hmm.
  pose proof (Z_div_mod_eq_full n (256 ^ Z.of_nat k)) as En.
  pose proof (Z_div_mod_eq_full m (256 ^ Z.of_nat k)) as Em.
  cbn [big_endian]. rewrite !(Z.mod_small (_ `div` _)) by done.
  rewrite !append_cons, compare_cons, compare_digit by done.
  destruct (Z.compare_spec (n `div` 256 ^ Z.of_nat k) (m `div` 256 ^ Z.of_nat k)) as [E|?|?];
    [|done|nia].
  apply IH; [done..|]. rewrite E in En. lia.
Qed.

Lemma big_endian_inj k n m :
  (0 ≤ n < 256 ^ Z.of_nat k)%Z → (0 ≤ m < 256 ^ Z.of_nat k)%Z →
  big_endian k n = big_endian k m → n = m.
Proof.
  intros Hn Hm E. destruct (Z.lt_trichotomy n m) as [Hl|[?|Hl]]; [|done|].
  - pose proof (big_endian_compare k n m "" "" Hn Hm Hl) as Hc. by rewrite E, string_compare_refl in Hc.
  - pose proof (big_endian_compare k m n "" "" Hm Hn Hl) as Hc. by rewrite E, string_compare_refl in Hc.
Qed.

Lemma nodePrefix_inj n k n' k' : makeNodeIndexKey n k = makeNodeIndexKey n' k' → itoa n = itoa n' ∧ k = k'.
Proof.
  unfold makeNodeIndexKey, nodePrefix. rewrite <- !(assoc_L String.append). intros E%append_inj.
  apply (sep_inj slash) in E; [done|apply slash_itoa..].
Qed.

Lemma levelPrefix_inj l k l' k' :
  has_char slash l = false → has_char slash l' = false →
  makeLevelIndexKey l k = makeLevelIndexKey l' k' → l = l' ∧ k = k'.
Proof.
  intros Hl Hl'. unfold makeLevelIndexKey, levelPrefix. rewrite <- !(assoc_L String.append).
  intros E%append_inj. by apply (sep_inj slash) in E.
Qed.

(** ** Sorted keys *)

#[export] Instance before_antisym : AntiSymm (=) before.
Proof. intros x y [Hxy _] [Hyx _]. by apply (anti_symm String.le). Qed.

Lemma sorted_filter {A} (R : relation A) (P : A → Prop) `{∀ x, Decision (P x)} l :
  StronglySorted R l → StronglySorted R (filter P l).
Proof.
  induction 1 as [|x l Hl IH Hx]; [constructor|]. rewrite filter_cons. case_decide; [|done].
  constructor; [done|]. apply Forall_forall. intros y [_ Hy]%list_elem_of_filter.
  by apply (proj1 (Forall_forall _ _) Hx).
Qed.

Lemma omap_filter_some {A} (f : string → option A) (l : list string) :
  omap f l = omap f (filter (λ k, is_Some (f k)) l).
Proof.
  induction l as [|k l IH]; [done|]. rewrite filter_cons. simpl.
  destruct (f k) as [a|] eqn:E.
  - rewrite decide_True by eauto. simpl. rewrite E. f_equal. exact IH.
  - by rewrite decide_False by (intros [? ?]; congruence).
Qed.

(** A sorted list of keys is determined by those that give something. *)
Lemma omap_sorted_same {A} (f : string → option A) (l1 l2 : list string) :
  StronglySorted before l1 → StronglySorted before l2 →
  (∀ k, is_Some (f k) → k ∈ l1 ↔ k ∈ l2) → omap f l1 = omap f l2.
Proof.
  intros H1 H2 Hk. rewrite (omap_filter_some f l1), (omap_filter_some f l2). f_equal.
  apply (StronglySorted_unique before); [by apply sorted_filter..|].
  apply NoDup_Permutation; [by apply before_NoDup, sorted_filter..|].
  intros k. rewrite !list_elem_of_filter. naive_solver.
Qed.

Lemma sorted_keys_values p (l : list (string * string)) :
  StronglySorted before l.*1 → Forall (λ kv, kv.1 = p +:+ kv.2) l → StronglySorted before l.*2.
Proof.
  induction l as [|[k v] l IH]; simpl; [constructor|].
  intros [Hk Hs]%StronglySorted_cons [E Hl]%Forall_cons. simpl in E. subst k.
  apply StronglySorted_cons. split; [|by apply IH].
  apply Forall_fmap, Forall_forall. intros [k' v'] Hin. simpl.
  pose proof (proj1 (Forall_forall _ _) Hl _ Hin) as E'. simpl in E'. subst k'.
  apply (before_app p), (proj1 (Forall_forall _ _) Hk). apply list_elem_of_fmap. by exists (p +:+ v', v').
Qed.

(** ** The indexes *)

(** The reference: a scan over the entries. *)
Definition limited {A} (limit : Z) (l : list A) : list A :=
  if bool_decide (0 < limit)%Z then take (Z.to_nat limit) l else l.

Section spec.
Context {B : Type} {F : Type} `{KVLaws B string, !Codec string (LogEntry F), !CodecLaws string (LogEntry F)}.
Implicit Types (b : Buckets B) (s : LogStore B) (e : LogEntry F).

(** The entries of the file, in the order of their keys. *)
Definition log_entries b : list (LogEntry F) :=
  omap (λ kv, ok_of (decode kv.2)) (kv_items (lb_logs b)).

(** The levels the parser gives have no slash, and the time fits [UnixNano]. *)
Definition plain_entry e : Prop := has_char slash (le_Level e) = false ∧ (0 ≤ le_Timestamp e < 2^63)%Z.

Record indexed (b : Buckets B) : Prop := {
  ix_logs : ∀ k v, kv_get k (lb_logs b) = Some v →
    ∃ e id, encode e = Ok v ∧ plain_entry e ∧
      k = makeLogKey (le_Timestamp e) id ∧
      kv_get (makeNodeIndexKey (le_NodeIndex e) k) (lb_nodes b) = Some k ∧
      kv_get (makeLevelIndexKey (le_Level e) k) (lb_levels b) = Some k;
  ix_nodes : ∀ ik k, kv_get ik (lb_nodes b) = Some k → ∃ n, ik = makeNodeIndexKey n k;
  ix_levels : ∀ ik k, kv_get ik (lb_levels b) = Some k →
    ∃ l, has_char slash l = false ∧ ik = makeLevelIndexKey l k
}.

Lemma fetch_Some query b k e : indexed b →
  fetch query b k = Some e ↔ ∃ v, kv_get k (lb_logs b) = Some v ∧ encode e = Ok v ∧ matchesQuery query e = true.
Proof.
  intros Hb. unfold fetch. split.
  - destruct (kv_get k (lb_logs b)) as [v|] eqn:Hk; [|done].
    destruct (ix_logs b Hb k v Hk) as (e' & id & He & _). rewrite (decode_encode e' v He).
    destruct (matchesQuery query e') eqn:Hm; [|done]. intros [= ->]. eauto.
  - intros (v & -> & He & Hm). by rewrite (decode_encode e v He), Hm.
Qed.

Lemma fetch_all_omap query b keys acc :
  fetch_all query b keys acc =
  if bool_decide (0 < lq_Limit query)%Z
  then acc ++ take (Z.to_nat (lq_Limit query) - length acc) (omap (fetch query b) keys)
  else acc ++ omap (fetch query b) keys.
Proof.
  revert acc; induction keys as [|k keys IH]; intros acc; simpl.
  - by rewrite take_nil, app_nil_r; case_bool_decide.
  - destruct (bool_decide_reflect (0 < lq_Limit query)%Z) as [Hl|Hl]; simpl.
    + case_bool_decide as Hlen.
      * replace (_ - _) with 0 by lia. by rewrite app_nil_r.
      * destruct (fetch query b k) as [e|]; simpl; rewrite IH; [|done].
        rewrite length_app. simpl. rewrite <- (assoc_L (++)).
        by replace (Z.to_nat (lq_Limit query) - length acc)
          with (S (Z.to_nat (lq_Limit query) - (length acc + 1))) by lia.
    + destruct (fetch query b k) as [e|]; simpl; rewrite IH; [|done]. by rewrite <- (assoc_L (++)).
Qed.

Lemma Query_limited query s :
  Query (F:=F) query s =
  limited (lq_Limit query) (omap (fetch query (ls_buckets s)) (keysToScan query (ls_buckets s))).
Proof.
  unfold Query, limited. rewrite fetch_all_omap. simpl. by rewrite Nat.sub_0_r.
Qed.

(** Scanning every key is filtering the entries. *)
Lemma full_scan query b : indexed b →
  omap (fetch query b) (kv_items (lb_logs b)).*1 = filter (matchesQuery query) (log_entries b).
Proof.
  intros Hb. unfold log_entries.
  assert (Hl : Forall (λ kv, kv_get kv.1 (lb_logs b) = Some kv.2) (kv_items (lb_logs b))).
  { apply Forall_forall. intros [k v] Hin. by apply kv_items_get. }
  induction (kv_items (lb_logs b)) as [|[k v] l IH]; [done|].
  apply Forall_cons in Hl as [Hk Hl]. simpl in *. unfold fetch at 1. rewrite Hk.
  destruct (ix_logs b Hb k v Hk) as (e & id & He & _). rewrite (decode_encode e v He). simpl.
  rewrite filter_cons.
  destruct (matchesQuery query e); simpl; [f_equal|]; exact (IH Hl).
Qed.

Lemma logs_sorted b : StronglySorted before (kv_items (lb_logs b)).*1.
Proof. apply kv_items_sorted. Qed.

Lemma logs_key b k : k ∈ (kv_items (lb_logs b)).*1 ↔ is_Some (kv_get k (lb_logs b)).
Proof.
  rewrite list_elem_of_fmap. split.
  - intros ([k' v] & -> & Hin). apply kv_items_get in Hin. eauto.
  - intros [v Hv]. exists (k, v). by rewrite kv_items_get.
Qed.

(** A scan of an index whose items under a prefix are the prefix and their value. *)
Lemma scan_index_sorted p (index : B) :
  (∀ ik k, kv_get ik index = Some k → has_prefix p ik = true → ik = p +:+ k) →
  StronglySorted before (scan_index p index) ∧
  ∀ k, k ∈ scan_index p index ↔ kv_get (p +:+ k) index = Some k.
Proof.
  intros Hp. unfold scan_index. rewrite scan_filter by apply kv_items_sorted. split.
  - apply (sorted_keys_values p).
    + pose proof (kv_items_sorted index) as Hs. clear Hp.
      induction (kv_items index) as [|[k v] l IH]; [constructor|].
      rewrite filter_cons. simpl in *. apply StronglySorted_cons in Hs as [Hk Hs].
      case_decide; [|by apply IH]. apply StronglySorted_cons. split; [|by apply IH].
      apply Forall_forall. intros k' ([k'' v'] & -> & [_ Hin]%list_elem_of_filter)%list_elem_of_fmap.
      apply (proj1 (Forall_forall _ _) Hk), list_elem_of_fmap. by exists (k'', v').
    + apply Forall_forall. intros [ik k] [Hik%Is_true_true Hin%kv_items_get]%list_elem_of_filter.
      by apply Hp.
  - intros k. rewrite list_elem_of_fmap. split.
    + intros ([ik k'] & -> & [Hik%Is_true_true Hin%kv_items_get]%list_elem_of_filter). simpl in *.
      by rewrite <- (Hp _ _ Hin Hik).
    + intros Hk. exists (p +:+ k, k). split; [done|]. apply list_elem_of_filter.
      split; [apply Is_true_true, has_prefix_app|by apply kv_items_get].
Qed.

Lemma matches_node query n e :
  lq_NodeIndex query = Some n → matchesQuery query e = true → le_NodeIndex e = n.
Proof.
  unfold matchesQuery. intros ->. case_bool_decide as Hn; [done|]. intros _.
  destruct (decide (le_NodeIndex e = n)); [done|]. destruct Hn. split; [eauto|congruence].
Qed.

Lemma matches_level query e : lq_Level query ≠ "" → matchesQuery query e = true → le_Level e = lq_Level query.
Proof.
  unfold matchesQuery. intros Hq. rewrite (bool_decide_false (lq_Level query = "")) by done.
  case_bool_decide; [done|]. simpl. by case_bool_decide.
Qed.

(** Each of the three ways to collect the keys gives them in order and misses no
    entry the query matches. *)
Lemma keysToScan_ok query b : indexed b →
  (lq_NodeIndex query = None → has_char slash (lq_Level query) = false) →
  StronglySorted before (keysToScan query b) ∧
  ∀ k, is_Some (fetch query b k) → k ∈ keysToScan query b ↔ k ∈ (kv_items (lb_logs b)).*1.
Proof.
  intros Hb Hq. unfold keysToScan. destruct (lq_NodeIndex query) as [n|] eqn:En.
  - destruct (scan_index_sorted (nodePrefix n) (lb_nodes b)) as [Hs Hk].
    { intros ik k Hik [t ->]%has_prefix_spec. destruct (ix_nodes b Hb _ _ Hik) as [m E].
      by apply nodePrefix_inj in E as [_ ->]. }
    split; [done|]. intros k [e (v & Hv & He & Hm)%fetch_Some]; [|done].
    rewrite Hk, logs_key. split; [eauto|]. intros _.
    destruct (ix_logs b Hb k v Hv) as (e' & id & He' & _ & _ & Hn & _).
    apply decode_encode in He, He'. assert (e' = e) as -> by congruence.
    by rewrite <- (matches_node query n e En Hm).
  - destruct (bool_decide_reflect (lq_Level query = "")) as [?|Hne]; simpl; [by split; [apply logs_sorted|]|].
    destruct (scan_index_sorted (levelPrefix (lq_Level query)) (lb_levels b)) as [Hs Hk].
    { intros ik k Hik [t ->]%has_prefix_spec. destruct (ix_levels b Hb _ _ Hik) as (l & Hl & E).
      apply levelPrefix_inj in E as [_ ->]; auto. }
    split; [done|]. intros k [e (v & Hv & He & Hm)%fetch_Some]; [|done].
    rewrite Hk, logs_key. split; [eauto|]. intros _.
    destruct (ix_logs b Hb k v Hv) as (e' & id & He' & _ & _ & _ & Hl).
    apply decode_encode in He, He'. assert (e' = e) as -> by congruence.
    by rewrite <- (matches_level query e Hne Hm).
Qed.

(** A level with a slash is the level of no entry. *)
Lemma fetch_slash query b k : indexed b → has_char slash (lq_Level query) = true → fetch query b k = None.
Proof.
  intros Hb Hq. apply eq_None_not_Some. intros [e (v & Hv & He & Hm)%fetch_Some]; [|done].
  destruct (ix_logs b Hb k v Hv) as (e' & id & He' & [Hs _] & _).
  apply decode_encode in He, He'. assert (e' = e) as -> by congruence.
  rewrite (matches_level query e) in Hs; [congruence| |done]. by intros E; rewrite E in Hq.
Qed.

Lemma indexed_query query b : indexed b →
  omap (fetch query b) (keysToScan query b) = filter (matchesQuery query) (log_entries b).
Proof.
  intros Hb. rewrite <- full_scan by done.
  destruct (has_char slash (lq_Level query)) eqn:Hs.
  - assert (Hn : ∀ l, omap (fetch query b) l = []); [|by rewrite !Hn].
    induction l as [|k l IH]; [done|]. simpl. by rewrite fetch_slash by done.
  - destruct (keysToScan_ok query b Hb) as [Hk Hin]; [done|].
    apply omap_sorted_same; [done|apply logs_sorted|done].
Qed.

(** ** The entries are in the order of time *)

Lemma log_key_time t1 t2 id1 id2 : (0 ≤ t1 < 2^63)%Z → (0 ≤ t2 < 2^63)%Z →
  before (makeLogKey t1 id1) (makeLogKey t2 id2) → (t1 ≤ t2)%Z.
Proof.
  intros H1 H2 [Hle _]. destruct (decide (t2 < t1)%Z) as [Hlt|]; [|lia]. exfalso.
  unfold makeLogKey in Hle. rewrite !unsigned_id in Hle by lia.
  unfold String.le, String.leb in Hle.
  rewrite String.compare_antisym, big_endian_compare in Hle; [done|lia..].
Qed.

Lemma log_entries_sorted b : indexed b →
  StronglySorted (λ e1 e2, le_Timestamp e1 ≤ le_Timestamp e2)%Z (log_entries b).
Proof.
  intros Hb. pose proof (logs_sorted b) as Hs. unfold log_entries.
  assert (Hl : Forall (λ kv, ∃ e id, decode kv.2 = Ok e ∧ plain_entry e ∧
    kv.1 = makeLogKey (le_Timestamp e) id) (kv_items (lb_logs b))).
  { apply Forall_forall. intros [k v] Hin%kv_items_get.
    destruct (ix_logs b Hb k v Hin) as (e & id & He & Hp & Hk & _).
    exists e, id. cbn [fst snd]. by rewrite (decode_encode e v He). }
  induction (kv_items (lb_logs b)) as [|[k v] l IH]; [constructor|].
  apply Forall_cons in Hl as [(e & id & He & [_ Hp] & Hk) Hl]. simpl in *. subst k.
  apply StronglySorted_cons in Hs as [Hk Hs]. rewrite He. simpl.
  apply StronglySorted_cons. split; [|by apply IH]. apply Forall_forall.
  intros e' ([k' v'] & Hin & Hd%ok_of_Some)%list_elem_of_omap. simpl in Hd.
  destruct (proj1 (Forall_forall _ _) Hl _ Hin) as (e'' & id' & He'' & [_ Hp'] & E). simpl in *.
  assert (e'' = e') as -> by congruence. apply (log_key_time _ _ id id'); [done..|].
  rewrite <- E. apply (proj1 (Forall_forall _ _) Hk), list_elem_of_fmap. by exists (k', v').
Qed.

(** ** The operations keep the indexes *)

(** What a successful [storeEntry] writes. *)
Lemma storeEntry_puts e b idSeq b' idSeq' : storeEntry e b idSeq = (Ok b', idSeq') →
  idSeq' = unsigned 64 (idSeq + 1) ∧
  let key := makeLogKey (le_Timestamp e) idSeq' in
  ∃ v, encode e = Ok v ∧ kv_put key v (lb_logs b) = Ok (lb_logs b') ∧
    kv_put (makeNodeIndexKey (le_NodeIndex e) key) key (lb_nodes b) = Ok (lb_nodes b') ∧
    kv_put (makeLevelIndexKey (le_Level e) key) key (lb_levels b) = Ok (lb_levels b').
Proof.
  unfold storeEntry. intros [= Hr <-]. split; [done|]. simpl.
  destruct (encode e) as [v|] eqn:He; [|done].
  destruct (kv_put _ v _) as [logs|] eqn:Hl; simpl in Hr; [|done].
  destruct (kv_put _ _ (lb_nodes b)) as [nodes|] eqn:Hn; simpl in Hr; [|done].
  destruct (kv_put _ _ (lb_levels b)) as [levels|] eqn:Hv; simpl in Hr; [|done].
  injection Hr as <-. by exists v.
Qed.

Lemma storeEntry_indexed e b idSeq b' idSeq' : plain_entry e → indexed b →
  storeEntry e b idSeq = (Ok b', idSeq') → indexed b'.
Proof.
  intros He Hb (-> & v & Hv & Hl & Hn & Hlv)%storeEntry_puts. split.
  - intros k w. rewrite (kv_get_put _ _ _ _ _ Hl). case_decide as Hk.
    + intros [= <-]. subst k. exists e, (unsigned 64 (idSeq + 1)). split_and!; [done..| |].
      * by rewrite (kv_get_put _ _ _ _ _ Hn), decide_True.
      * by rewrite (kv_get_put _ _ _ _ _ Hlv), decide_True.
    + intros (e' & id & He' & Hp & Hk' & Hin & Hil)%(ix_logs b Hb). exists e', id. split_and!; [done..| |].
      * rewrite (kv_get_put _ _ _ _ _ Hn), decide_False; [done|]. intros [_ ?]%nodePrefix_inj. done.
      * rewrite (kv_get_put _ _ _ _ _ Hlv), decide_False; [done|].
        intros [_ ?]%levelPrefix_inj; [done|apply Hp|apply He].
  - intros ik k. rewrite (kv_get_put _ _ _ _ _ Hn). case_decide; [|by apply ix_nodes].
    intros [= <-]. eauto.
  - intros ik k. rewrite (kv_get_put _ _ _ _ _ Hlv). case_decide; [|by apply ix_levels].
    intros [= <-]. exists (le_Level e). split; [apply He|done].
Qed.

(** What a step of [delete_keys] deletes. *)
Lemma unindex_deletes key b b1 logs : indexed b →
  unindex key b = Ok b1 → kv_delete key (lb_logs b1) = Ok logs →
  indexed (mkBuckets logs (lb_nodes b1) (lb_levels b1)) ∧ kv_delete key (lb_logs b) = Ok logs.
Proof.
  intros Hb. unfold unindex. destruct (kv_get key (lb_logs b)) as [v|] eqn:Hk.
  - destruct (ix_logs b Hb key v Hk) as (e & id & He & Hp & Ek & _).
    rewrite (decode_encode e v He). cbn [lb_logs].
    destruct (kv_delete _ (lb_nodes b)) as [nodes|] eqn:Hn; simpl; [|done].
    destruct (kv_delete _ (lb_levels b)) as [levels|] eqn:Hl; simpl; [|done].
    intros [= <-] Hd. simpl in *. split; [|done]. split; simpl.
    + intros k w. rewrite (kv_get_delete _ _ _ _ Hd). case_decide; [done|].
      intros (e' & id' & He' & Hp' & Ek' & Hin & Hil)%(ix_logs b Hb). exists e', id'. split_and!; [done..| |].
      * rewrite (kv_get_delete _ _ _ _ Hn), decide_False; [done|]. intros [_ ?]%nodePrefix_inj. done.
      * rewrite (kv_get_delete _ _ _ _ Hl), decide_False; [done|].
        intros [_ ?]%levelPrefix_inj; [done|apply Hp'|apply Hp].
    + intros ik k. rewrite (kv_get_delete _ _ _ _ Hn). case_decide; [done|]. by apply ix_nodes.
    + intros ik k. rewrite (kv_get_delete _ _ _ _ Hl). case_decide; [done|]. by apply ix_levels.
  - intros [= <-] Hd. split; [|done]. split; simpl; [|apply Hb..].
    intros k w. rewrite (kv_get_delete _ _ _ _ Hd). case_decide; [done|]. by apply ix_logs.
Qed.

Lemma delete_keys_indexed keys n b m b' : indexed b → LogStore.delete_keys keys n b = Ok (m, b') →
  indexed b' ∧ m = (n + Z.of_nat (length keys))%Z ∧
  ∀ k, kv_get k (lb_logs b') = if decide (k ∈ keys) then None else kv_get k (lb_logs b).
Proof.
  revert n b; induction keys as [|key keys IH]; intros n b Hb; cbn [LogStore.delete_keys length].
  - intros [= <- <-]. split_and!; [done|lia|]. intros k. by case_decide as Hin; [apply not_elem_of_nil in Hin|].
  - destruct (unindex key b) as [b1|] eqn:Hu; simpl; [|done].
    destruct (kv_delete key (lb_logs b1)) as [logs|] eqn:Hd; simpl; [|done].
    destruct (unindex_deletes key b b1 logs Hb Hu Hd) as [Hb1 Hd'].
    intros (Hi & -> & Hg)%IH; [|done]. split_and!; [done|lia|].
    intros k. rewrite Hg. cbn [lb_logs]. rewrite (kv_get_delete _ _ _ _ Hd').
    repeat case_decide; set_solver.
Qed.

(** ** The bag of the entries *)

Lemma items_NoDup_pairs {A V} `{KVLaws A V} (a : A) : NoDup (kv_items a).
Proof. eapply NoDup_fmap_1, items_NoDup. Qed.

Lemma items_put_fresh {A V} `{KVLaws A V} k v (a a' : A) :
  kv_get k a = None → kv_put k v a = Ok a' → kv_items a' ≡ₚ (k, v) :: kv_items a.
Proof.
  intros Hk Hp. apply NoDup_Permutation.
  - apply items_NoDup_pairs.
  - apply NoDup_cons. split; [|apply items_NoDup_pairs]. rewrite kv_items_get. congruence.
  - intros [k' v']. rewrite elem_of_cons, !kv_items_get, (kv_get_put _ _ _ _ _ Hp).
    case_decide; naive_solver congruence.
Qed.

Lemma items_deleted {A V} `{KVLaws A V} (keys : list string) (a a' : A) :
  (∀ k, kv_get k a' = if decide (k ∈ keys) then None else kv_get k a) →
  kv_items a' ≡ₚ filter (λ kv, kv.1 ∉ keys) (kv_items a).
Proof.
  intros Hg. apply NoDup_Permutation; [apply items_NoDup_pairs|apply NoDup_filter, items_NoDup_pairs|].
  intros [k v]. rewrite list_elem_of_filter, !kv_items_get, Hg. simpl. case_decide; naive_solver.
Qed.

Lemma single_entry b key v e : encode e = Ok v →
  (∀ k, kv_get k (lb_logs b) = if decide (k = key) then Some v else None) → log_entries b = [e].
Proof.
  intros He Hg. assert (Hp : kv_items (lb_logs b) ≡ₚ [(key, v)]).
  { apply NoDup_Permutation; [apply items_NoDup_pairs|apply NoDup_singleton|].
    intros [k w]. rewrite kv_items_get, Hg, list_elem_of_singleton. case_decide; naive_solver. }
  apply Permutation_singleton_r in Hp. unfold log_entries. rewrite Hp. simpl.
  by rewrite (decode_encode e v He).
Qed.

(** Every key has a number that the sequence has given out. *)
Definition numbered (idSeq : Z) b : Prop :=
  ∀ k, is_Some (kv_get k (lb_logs b)) → ∃ t id, k = makeLogKey t id ∧ (0 < id ≤ idSeq)%Z.

Lemma numbered_mono i j b : (i ≤ j)%Z → numbered i b → numbered j b.
Proof. intros Hij Hb k (t & id & -> & ?)%Hb. exists t, id. split; [done|lia]. Qed.

Lemma makeLogKey_id t1 t2 id1 id2 : (0 < id1 < 2^64)%Z → (0 < id2 < 2^64)%Z →
  makeLogKey t1 id1 = makeLogKey t2 id2 → id1 = id2.
Proof.
  intros Hi1 Hi2 [_ E]%append_length_inj; [|by rewrite !length_big_endian].
  apply big_endian_inj in E; [done|simpl; lia..].
Qed.

Lemma storeEntry_entries e b idSeq b' idSeq' :
  numbered idSeq b → (0 ≤ idSeq)%Z → (idSeq + 1 < 2^64)%Z →
  storeEntry e b idSeq = (Ok b', idSeq') →
  numbered (idSeq + 1) b' ∧ log_entries b' ≡ₚ e :: log_entries b.
Proof.
  intros Hb Hge Hlt (-> & v & Hv & Hl & _)%storeEntry_puts. rewrite unsigned_id in Hl by lia. split.
  - intros k. rewrite (kv_get_put _ _ _ _ _ Hl). case_decide; [intros _; subst; eexists _, _; split; [done|lia]|].
    intros Hk. by apply (numbered_mono idSeq (idSeq + 1) b ltac:(lia) Hb).
  - unfold log_entries. rewrite (λ Hf, items_put_fresh _ _ _ _ Hf Hl).
    + simpl. by rewrite (decode_encode e v Hv).
    + apply eq_None_not_Some. intros (t & id & E & Hid)%Hb. apply makeLogKey_id in E; lia.
Qed.

Lemma storeEntry_idSeq e b idSeq : (0 ≤ idSeq)%Z → (idSeq + 1 < 2^64)%Z →
  (storeEntry e b idSeq).2 = (idSeq + 1)%Z.
Proof. intros ??. unfold storeEntry. simpl. apply unsigned_id. lia. Qed.

Lemma storeEntries_entries es b idSeq r idSeq' :
  Forall plain_entry es → indexed b → numbered idSeq b →
  (0 ≤ idSeq)%Z → (idSeq + Z.of_nat (length es) < 2^64)%Z →
  storeEntries es b idSeq = (r, idSeq') →
  (idSeq ≤ idSeq' ≤ idSeq + Z.of_nat (length es))%Z ∧
  ∀ b', r = Ok b' → indexed b' ∧ numbered idSeq' b' ∧ log_entries b' ≡ₚ es ++ log_entries b.
Proof.
  revert b idSeq; induction es as [|e es IH]; intros b idSeq Hes Hi Hb Hge Hlt; cbn [storeEntries].
  - intros [= <- <-]. split; [simpl; lia|]. by intros b' [= <-].
  - apply Forall_cons in Hes as [He Hes]. cbn [length] in Hlt |- *.
    pose proof (storeEntry_idSeq e b idSeq ltac:(lia) ltac:(lia)) as Hid.
    destruct (storeEntry e b idSeq) as [[b1|err] id1] eqn:Hs; cbn in Hid; subst id1.
    + destruct (storeEntry_entries _ _ _ _ _ Hb ltac:(lia) ltac:(lia) Hs) as [Hn Hp].
      intros (Hr & Hb')%IH; [|done|eauto using storeEntry_indexed|done|lia..]. split; [lia|].
      intros b' E. destruct (Hb' b' E) as (? & ? & Hp'). split_and!; [done..|].
      rewrite Hp', Hp. simpl. by rewrite Permutation_middle.
    + intros [= <- <-]. split; [lia|done].
Qed.

Lemma log_entries_count b : indexed b → length (kv_items (lb_logs b)) = length (log_entries b).
Proof.
  intros Hi. unfold log_entries.
  assert (Hl : Forall (λ kv, kv_get kv.1 (lb_logs b) = Some kv.2) (kv_items (lb_logs b))).
  { apply Forall_forall. intros [k v] Hin. by apply kv_items_get. }
  induction (kv_items (lb_logs b)) as [|[k v] l IH]; [done|].
  apply Forall_cons in Hl as [Hk Hl]. destruct (ix_logs b Hi k v Hk) as (e & id & He & _).
  simpl. rewrite (decode_encode e v He). simpl. exact (f_equal S (IH Hl)).
Qed.

(** ** Runs of the store *)

Inductive log_op :=
| OpStore (e : LogEntry F)
| OpStoreBatch (entries : list (LogEntry F))
| OpPrune (cutoff : Time)
| OpReopen.

Definition reopen s : LogStore B :=
  NewLogStore (λ name,
    if bool_decide (name = "logs") then Some (lb_logs (ls_buckets s))
    else if bool_decide (name = "node_index") then Some (lb_nodes (ls_buckets s))
    else if bool_decide (name = "level_index") then Some (lb_levels (ls_buckets s)) else None).

(** The result of a prune is its count. *)
Definition log_step (op : log_op) s : result Z * LogStore B :=
  match op with
  | OpStore e => let '(r, s) := Store e s in (result_map (λ _, 0%Z) r, s)
  | OpStoreBatch entries => let '(r, s) := StoreBatch entries s in (result_map (λ _, 0%Z) r, s)
  | OpPrune cutoff => Prune (F:=F) cutoff s
  | OpReopen => (Ok 0%Z, reopen s)
  end.

Definition log_run (ops : list log_op) : LogStore B :=
  foldl (λ s op, (log_step op s).2) (NewLogStore (λ _, None)) ops.

(** The entries an operation brings. *)
Definition op_entries (op : log_op) : list (LogEntry F) :=
  match op with OpStore e => [e] | OpStoreBatch entries => entries | _ => [] end.

(** What an operation does to the bag of the entries. *)
Definition log_spec (op : log_op) (r : result Z) (old new : list (LogEntry F)) : Prop :=
  match r with
  | Err _ => new = old
  | Ok n =>
      match op with
      | OpPrune cutoff =>
          new ≡ₚ filter (λ e, (cutoff ≤ le_Timestamp e)%Z) old ∧
          Z.of_nat (length old) = (Z.of_nat (length new) + n)%Z
      | _ => new ≡ₚ op_entries op ++ old
      end
  end.

Lemma update_cases {A} (body : Buckets B → Z → result (A * Buckets B) * Z) s :
  let '(r0, idSeq) := body (ls_buckets s) (ls_idSeq s) in
  let '(r, s') := update body s in
  ls_idSeq s' = idSeq ∧
  match r with
  | Ok a => r0 = Ok (a, ls_buckets s')
  | Err _ => ls_buckets s' = ls_buckets s
  end.
Proof.
  unfold update. destruct (body _ _) as [[[a b]|err] idSeq]; simpl; [|done].
  by destruct (commit_all b).
Qed.

Lemma update_Store e s : Store (F:=F) e s = StoreBatch [e] s.
Proof.
  unfold Store, StoreBatch, update. cbn [storeEntries].
  by destruct (storeEntry e _ _) as [[b|err] idSeq].
Qed.

Definition plain_op (op : log_op) : Prop := Forall plain_entry (op_entries op).

Lemma storeEntries_indexed es b idSeq b' idSeq' : Forall plain_entry es → indexed b →
  storeEntries es b idSeq = (Ok b', idSeq') → indexed b'.
Proof.
  revert b idSeq; induction es as [|e es IH]; intros b idSeq Hes Hi; cbn [storeEntries].
  - by intros [= <- _].
  - apply Forall_cons in Hes as [He Hes].
    destruct (storeEntry e b idSeq) as [[b1|err] id1] eqn:Hs; [|done].
    apply IH; eauto using storeEntry_indexed.
Qed.

Lemma StoreBatch_cases es s :
  let '(r, s') := StoreBatch (F:=F) es s in
  ∃ r0, storeEntries es (ls_buckets s) (ls_idSeq s) = (r0, ls_idSeq s') ∧
  match r with Ok _ => r0 = Ok (ls_buckets s') | Err _ => ls_buckets s' = ls_buckets s end.
Proof.
  unfold StoreBatch, update. destruct (storeEntries es _ _) as [[b|err] idSeq]; simpl; [|eauto].
  destruct (commit_all b); simpl; eauto.
Qed.

Lemma Prune_cases cutoff s :
  let '(r, s') := Prune (F:=F) cutoff s in
  ls_idSeq s' = ls_idSeq s ∧
  match r with
  | Ok n => LogStore.delete_keys (F:=F) (keysToDelete (F:=F) cutoff (kv_items (lb_logs (ls_buckets s)))) 0
              (ls_buckets s) = Ok (n, ls_buckets s')
  | Err _ => ls_buckets s' = ls_buckets s
  end.
Proof.
  unfold Prune, update. destruct (LogStore.delete_keys _ _ _) as [[n b]|err] eqn:E; simpl; [|done].
  destruct (commit_all b); simpl; auto.
Qed.

Lemma step_indexed op s : plain_op op → indexed (ls_buckets s) → indexed (ls_buckets (log_step op s).2).
Proof.
  intros Hp Hi. destruct op as [e|es|cutoff|]; cbn [log_step].
  - rewrite update_Store. pose proof (StoreBatch_cases [e] s) as Hc.
    destruct (StoreBatch [e] s) as [[u|err] s']; destruct Hc as (r0 & Hs & Hr); simpl; [subst|by rewrite Hr].
    by eapply storeEntries_indexed.
  - pose proof (StoreBatch_cases es s) as Hc.
    destruct (StoreBatch es s) as [[u|err] s']; destruct Hc as (r0 & Hs & Hr); simpl; [subst|by rewrite Hr].
    by eapply storeEntries_indexed.
  - pose proof (Prune_cases cutoff s) as Hc.
    destruct (Prune cutoff s) as [[n|err] s']; destruct Hc as (_ & Hr); simpl; [|by rewrite Hr].
    by apply delete_keys_indexed in Hr as [? _].
  - by destruct s as [[] ?].
Qed.

Lemma empty_indexed : indexed (ls_buckets (NewLogStore (λ _, None))).
Proof. split; simpl; intros k v; by rewrite kv_get_empty. Qed.

Lemma log_run_snoc ops op : log_run (ops ++ [op]) = (log_step op (log_run ops)).2.
Proof. unfold log_run. by rewrite foldl_app. Qed.

Lemma run_indexed ops : Forall plain_op ops → indexed (ls_buckets (log_run ops)).
Proof.
  induction ops as [|op ops IH] using rev_ind; intros Hops; [apply empty_indexed|].
  apply Forall_app in Hops as [Hops [Hop _]%Forall_cons].
  rewrite log_run_snoc. apply step_indexed; auto.
Qed.

Lemma log_run_nil_entries : log_entries (ls_buckets (log_run [])) = [].
Proof.
  unfold log_entries. simpl.
  destruct (kv_items kv_empty) as [|[k v] l] eqn:E; [done|].
  assert (Hin : (k, v) ∈ kv_items (kv_empty : B)) by (rewrite E; left).
  apply kv_items_get in Hin. by rewrite kv_get_empty in Hin.
Qed.

(** ** Pruning *)

Lemma keysToDelete_elem cutoff b k v e : indexed b →
  (k, v) ∈ kv_items (lb_logs b) → decode v = Ok e →
  k ∈ keysToDelete (F:=F) cutoff (kv_items (lb_logs b)) ↔ (le_Timestamp e < cutoff)%Z.
Proof.
  intros Hi Hin He. unfold keysToDelete. rewrite list_elem_of_omap. split.
  - intros ([k' v'] & Hin' & Hd). apply kv_items_get in Hin, Hin'.
    destruct (decode v') as [e'|] eqn:He'; [|done]. case_bool_decide; [|done].
    injection Hd as ->. congruence.
  - intros Hlt. exists (k, v). rewrite He. by case_bool_decide.
Qed.

Lemma keysToDelete_length cutoff b : indexed b →
  length (log_entries b) =
  length (filter (λ e, (cutoff ≤ le_Timestamp e)%Z) (log_entries b)) +
  length (keysToDelete (F:=F) cutoff (kv_items (lb_logs b))).
Proof.
  intros Hi. unfold log_entries, keysToDelete.
  induction (kv_items (lb_logs b)) as [|[k v] l IH]; [done|]. simpl.
  destruct (decode v) as [e|]; simpl; [|exact IH].
  rewrite filter_cons. case_bool_decide; case_decide; try lia; cbn [length].
  - rewrite <- plus_n_Sm. exact (f_equal S IH).
  - exact (f_equal S IH).
Qed.

Lemma Prune_entries cutoff b n b' : indexed b →
  LogStore.delete_keys (keysToDelete (F:=F) cutoff (kv_items (lb_logs b))) 0 b = Ok (n, b') →
  log_spec (OpPrune cutoff) (Ok n) (log_entries b) (log_entries b') ∧
  ∀ k, is_Some (kv_get k (lb_logs b')) → is_Some (kv_get k (lb_logs b)).
Proof.
  intros Hi (_ & -> & Hg)%delete_keys_indexed; [|done].
  assert (Hp : log_entries b' ≡ₚ filter (λ e, (cutoff ≤ le_Timestamp e)%Z) (log_entries b)).
  { unfold log_entries. rewrite (items_deleted _ _ _ Hg).
    assert (Hl : Forall (λ kv, ∃ e, decode kv.2 = Ok e ∧
      (kv.1 ∈ keysToDelete (F:=F) cutoff (kv_items (lb_logs b)) ↔ (le_Timestamp e < cutoff)%Z))
      (kv_items (lb_logs b))).
    { apply Forall_forall. intros [k v] Hin. pose proof Hin as Hk%kv_items_get.
      destruct (ix_logs b Hi k v Hk) as (e & id & He & _). exists e.
      pose proof (decode_encode e v He) as Hd. split; [done|]. by eapply keysToDelete_elem. }
    revert Hl. generalize (keysToDelete (F:=F) cutoff (kv_items (lb_logs b))) as keys. clear Hg. intros keys Hl.
    induction (kv_items (lb_logs b)) as [|[k v] l IH]; [done|].
    apply Forall_cons in Hl as [(e & He & Hk) Hl]. simpl in He, Hk.
    assert (Hk' : k ∉ keys ↔ (cutoff ≤ le_Timestamp e)%Z) by (rewrite Hk; lia).
    rewrite filter_cons. simpl. rewrite He. simpl. rewrite filter_cons.
    repeat case_decide; [simpl; rewrite He; simpl; f_equiv; by apply IH|by destruct (H2 (proj1 Hk' H1))|by destruct (proj2 Hk' H2 H1)|by apply IH]. }
  split.
  - split; [done|]. rewrite (keysToDelete_length cutoff b Hi), <- (Permutation_length Hp). lia.
  - intros k. rewrite Hg. case_decide; [by intros []|done].
Qed.

(** What the store keeps while it is not reopened. *)
Record log_inv (total : Z) s : Prop := {
  li_indexed : indexed (ls_buckets s);
  li_numbered : numbered (ls_idSeq s) (ls_buckets s);
  li_idSeq : (0 ≤ ls_idSeq s ≤ total)%Z
}.

Lemma batch_spec es s total : Forall plain_entry es → log_inv total s →
  (total + Z.of_nat (length es) < 2^64)%Z →
  let '(r, s') := StoreBatch es s in
  log_spec (OpStoreBatch es) (result_map (λ _, 0%Z) r) (log_entries (ls_buckets s)) (log_entries (ls_buckets s')) ∧
  log_inv (total + Z.of_nat (length es)) s'.
Proof.
  intros Hes [Hi Hn Hid] Ht. pose proof (StoreBatch_cases es s) as Hc.
  destruct (StoreBatch es s) as [r s']. destruct Hc as (r0 & Hs & Hr).
  destruct (storeEntries_entries es _ _ _ _ Hes Hi Hn ltac:(lia) ltac:(lia) Hs) as [Hb Hok].
  destruct r as [u|err]; simpl.
  - destruct (Hok _ Hr) as (? & ? & ?). split; [done|]. split; [done..|lia].
  - rewrite Hr. split; [done|]. split; [by rewrite Hr|rewrite Hr|lia].
    apply (numbered_mono (ls_idSeq s)); [lia|done].
Qed.

Lemma step_spec op s total : op ≠ OpReopen → plain_op op → log_inv total s →
  (total + Z.of_nat (length (op_entries op)) < 2^64)%Z →
  log_spec op (log_step op s).1 (log_entries (ls_buckets s)) (log_entries (ls_buckets (log_step op s).2)) ∧
  log_inv (total + Z.of_nat (length (op_entries op))) (log_step op s).2.
Proof.
  intros Hne Hp Hs Ht. destruct op as [e|es|cutoff|]; [| | |done]; cbn [log_step op_entries] in *.
  - rewrite update_Store. pose proof (batch_spec [e] s total Hp Hs Ht) as Hb.
    destruct (StoreBatch [e] s) as [[u|err] s']; exact Hb.
  - pose proof (batch_spec es s total Hp Hs Ht) as Hb.
    destruct (StoreBatch es s) as [[u|err] s']; exact Hb.
  - rewrite Z.add_0_r. destruct Hs as [Hi Hn Hid]. pose proof (Prune_cases cutoff s) as Hc.
    destruct (Prune cutoff s) as [[n|err] s']; destruct Hc as [Eid Hd]; simpl.
    + pose proof (Prune_entries _ _ _ _ Hi Hd) as [Hsp Hk]. split; [done|].
      split; [by apply delete_keys_indexed in Hd as [? _]| |lia].
      rewrite Eid. intros k Hs'. by apply Hn, Hk.
    + rewrite Hd. split; [done|]. split; [by rewrite Hd|by rewrite Hd, Eid|lia].
Qed.

Definition entries_of (ops : list log_op) : nat := length (concat (op_entries <$> ops)).

Lemma entries_of_snoc ops op : entries_of (ops ++ [op]) = entries_of ops + length (op_entries op).
Proof. unfold entries_of. by rewrite fmap_app, concat_app, length_app; simpl; rewrite app_nil_r. Qed.

Lemma run_inv ops : Forall plain_op ops → OpReopen ∉ ops → (Z.of_nat (entries_of ops) < 2^64)%Z →
  log_inv (Z.of_nat (entries_of ops)) (log_run ops).
Proof.
  induction ops as [|op ops IH] using rev_ind; intros Hops Hre Ht.
  - split; [apply empty_indexed| |done]. intros k [v Hv]. simpl in Hv. by rewrite kv_get_empty in Hv.
  - apply Forall_app in Hops as [Hops [Hop _]%Forall_cons]. rewrite entries_of_snoc in *.
    rewrite log_run_snoc, Nat2Z.inj_add. apply step_spec; [|done| |lia].
    + intros ->. apply Hre, elem_of_app. right. by apply list_elem_of_singleton.
    + apply IH; [done| |lia]. intros ?. apply Hre, elem_of_app. by left.
Qed.

(** C31: A query is a scan.  After any sequence of stores, batches, prunes and
    reopenings (of entries whose level has no slash and whose time fits [UnixNano]),
    [Query] -- which walks the node index, the level index or the whole bucket --
    returns the entries of the file that match, each once and in the order of their
    times, and the first [Limit] of them if there is a limit. *)
Theorem Query_is_full_scan ops query :
  Forall plain_op ops →
  let s := log_run ops in
  Query query s =
    limited (lq_Limit query) (filter (matchesQuery query) (log_entries (ls_buckets s))) ∧
  StronglySorted (λ e1 e2, le_Timestamp e1 ≤ le_Timestamp e2)%Z (log_entries (ls_buckets s)).
Proof.
  intros Hops%run_indexed s. rewrite Query_limited, indexed_query by done.
  split; [done|by apply log_entries_sorted].
Qed.

(** The store keeps what it is given.  As long as the file is not reopened and
    fewer than 2^64 entries are stored, an operation after any others does to the bag
    of the entries what it says: a store or batch that succeeds adds its entries, a
    prune removes exactly those older than the cutoff and counts them, and an operation
    that fails changes nothing; the count is that of the entries. *)
Theorem log_store_keeps_entries ops op :
  Forall plain_op (ops ++ [op]) → OpReopen ∉ ops ++ [op] →
  (Z.of_nat (entries_of (ops ++ [op])) < 2^64)%Z →
  let s := log_run ops in
  let '(r, s') := log_step op s in
  log_spec op r (log_entries (ls_buckets s)) (log_entries (ls_buckets s')) ∧
  Count s' = Z.of_nat (length (log_entries (ls_buckets s'))).
Proof.
  intros [Hops [Hop _]%Forall_cons]%Forall_app [Hre Hne]%not_elem_of_app Ht s.
  rewrite entries_of_snoc in Ht.
  destruct (step_spec op s (Z.of_nat (entries_of ops))) as [Hs [Hi _ _]].
  - intros ->. by apply Hne, list_elem_of_singleton.
  - done.
  - apply run_inv; [done..|lia].
  - lia.
  - destruct (log_step op s) as [r s']. split; [done|]. unfold Count. f_equal.
    by apply log_entries_count.
Qed.
End spec.

(** ** Reopening *)

(** The sequence begins anew with the process, so an entry with the time of an earlier
    one takes its key: the earlier entry is gone. *)
Theorem reopened_store_overwrites {B F} `{KVLaws B string, !Codec string (LogEntry F), !CodecLaws string (LogEntry F)}
    (e1 e2 : LogEntry F) :
  let s1 := log_run (B:=B) [OpStore e1; OpReopen] in
  (log_step (B:=B) (OpStore e1) (log_run [])).1 = Ok 0%Z → (log_step (OpStore e2) s1).1 = Ok 0%Z →
  le_Timestamp e2 = le_Timestamp e1 →
  log_entries (ls_buckets (log_run (B:=B) [OpStore e1])) = [e1] ∧
  log_entries (ls_buckets (log_run (B:=B) [OpStore e1; OpReopen; OpStore e2])) = [e2].
Proof.
  intros s1 H1 H2 Ht. subst s1. unfold log_run in *. cbn [foldl] in *.
  set (s0 := NewLogStore (λ _, None)) in *. cbn [log_step] in *. rewrite !update_Store in *.
  pose proof (StoreBatch_cases [e1] s0) as C1. destruct (StoreBatch [e1] s0) as [[u1|] s1]; [|done].
  destruct C1 as (r1 & C1 & ->). cbn [snd] in *.
  pose proof (StoreBatch_cases [e2] (reopen s1)) as C2.
  destruct (StoreBatch [e2] (reopen s1)) as [[u2|] s2]; [|done]. destruct C2 as (r2 & C2 & ->). cbn [snd] in *.
  cbn [storeEntries] in C1, C2.
  destruct (storeEntry e1 _ _) as [[b1|] i1] eqn:E1; [|done].
  destruct (storeEntry e2 _ _) as [[b2|] i2] eqn:E2; [|done].
  injection C1 as -> ->. injection C2 as -> ->.
  apply storeEntry_puts in E1 as (Ei1 & v1 & Hv1 & P1 & _), E2 as (Ei2 & v2 & Hv2 & P2 & _).
  assert (Hi : ls_idSeq s1 = ls_idSeq s2) by (rewrite Ei1, Ei2; done).
  assert (Hl : lb_logs (ls_buckets (reopen s1)) = lb_logs (ls_buckets s1)) by done.
  rewrite Hl in P2. rewrite Ht, <- Hi in P2. set (key := makeLogKey _ _) in *.
  assert (G1 : ∀ k, kv_get k (lb_logs (ls_buckets s1)) = if decide (k = key) then Some v1 else None).
  { intros k. rewrite (kv_get_put _ _ _ _ _ P1). case_decide; [done|]. apply kv_get_empty. }
  assert (G2 : ∀ k, kv_get k (lb_logs (ls_buckets s2)) = if decide (k = key) then Some v2 else None).
  { intros k. rewrite (kv_get_put _ _ _ _ _ P2), G1. by case_decide. }
  split; [eapply single_entry; [exact Hv1|exact G1]|eapply single_entry; [exact Hv2|exact G2]].
Qed.

(** ** Samples *)

Definition sample_entry (ts : Time) (level message : string) (node : Z) : LogEntry unit :=
  mkLogEntry unit ts level "consensus" message node ∅ message.
Definition log_a := sample_entry 10 "info" "started" 0.
Definition log_b := sample_entry 5 "error" "panic" 1.
Definition log_c := sample_entry 20 "info" "height 7" 1.

(** A codec of three entries; it refuses any other. *)
Definition log_table : list (string * LogEntry unit) := [("a", log_a); ("b", log_b); ("c", log_c)].

#[export] Instance LogEntry_eq_dec : EqDecision (LogEntry unit).
Proof. solve_decision. Defined.

#[export] Instance table_codec : Codec string (LogEntry unit) := {|
  encode e := match list_find (λ r, r.2 = e) log_table with
              | Some (_, r) => Ok r.1
              | None => Err (Errorf "unsupported")
              end;
  decode v := match list_find (λ r, r.1 = v) log_table with
              | Some (_, r) => Ok r.2
              | None => Err bad_json
              end
|}.

#[export] Instance table_codec_laws : CodecLaws string (LogEntry unit).
Proof.
  intros e v. unfold encode, decode, table_codec.
  destruct (list_find _ log_table) as [[i r]|] eqn:E; [|done]. intros [= <-].
  apply list_find_Some in E as (Hi & <- & _).
  destruct i as [|[|[|i]]]; simplify_eq/=; done.
Qed.

Definition sample_ops : list (log_op (F:=unit)) :=
  [OpStoreBatch [log_a; log_b]; OpReopen; OpStore log_c; OpPrune 8].

Lemma Query_is_full_scan_witness :
  Forall plain_op sample_ops ∧
  Query (mkLogQuery (Some 1%Z) "" None None "height" 5) (log_run (B:=Bucket string) sample_ops) = [log_c] ∧
  let s := log_run (B:=Bucket string) sample_ops in
  let query := mkLogQuery None "info" None None "" 0 in
  Query query s =
    limited (lq_Limit query) (filter (matchesQuery query) (log_entries (ls_buckets s))) ∧
  StronglySorted (λ e1 e2, le_Timestamp e1 ≤ le_Timestamp e2)%Z (log_entries (F:=unit) (ls_buckets s)).
Proof.
  assert (Hp : Forall plain_op sample_ops) by (repeat constructor; simpl; lia).
  split; [exact Hp|]. split; [vm_compute; reflexivity|].
  exact (Query_is_full_scan (B:=Bucket string) sample_ops (mkLogQuery None "info" None None "" 0) Hp).
Defined.

Lemma log_store_keeps_entries_witness :
  let s := log_run (B:=Bucket string) [OpStoreBatch [log_a; log_b]; OpStore log_c] in
  (log_step (OpPrune (F:=unit) 8) s).1 = Ok 1%Z ∧
  let '(r, s') := log_step (OpPrune (F:=unit) 8) s in
  log_spec (OpPrune 8) r (log_entries (ls_buckets s)) (log_entries (ls_buckets s')) ∧
  Count s' = Z.of_nat (length (log_entries (F:=unit) (ls_buckets s'))).
Proof.
  split; [vm_compute; reflexivity|].
  apply (log_store_keeps_entries (B:=Bucket string) [OpStoreBatch [log_a; log_b]; OpStore log_c] (OpPrune 8)).
  - repeat constructor; simpl; lia.
  - set_solver.
  - vm_compute. reflexivity.
Defined.

Lemma reopened_store_overwrites_witness :
  let again := sample_entry 10 "info" "started" 0 in
  log_entries (ls_buckets (log_run (B:=Bucket string) [OpStore log_a; OpReopen; OpStore again])) = [again].
Proof.
  intros again. refine (proj2 (reopened_store_overwrites (B:=Bucket string) log_a again _ _ _)).
  - vm_compute. reflexivity.
  - vm_compute. reflexivity.
  - reflexivity.
Defined.
