(* ===== verification/NodeRPC.v ===== *)
(** * The daemon's questions to its nodes
    ([internal/daemon/checker/rpc.go])

    [RPCHealthChecker] is the health checker the server gives the health controller.
    It asks 127.0.0.1 at the base port plus the index of the node.  HTTP answers any
    function of the calls so far; encoding/json is an interface. *)

From Stdlib Require Import Ascii.
From stdpp Require Import base tactics numbers list strings gmap.
From S2P Require Import Prelude Types MemStore Store World Subnet NodeController HealthController.

(** The bodies, decoded: the height and whether the node catches up; the peers. *)
Class NodeJSON := {
  json_sync : string → result (Z * bool);
  json_peers : string → result Z
}.

Record Config := mkConfig {
  cf_Timeout : Duration;
  cf_BaseRPC : Z
}.

Definition DefaultConfig : Config := mkConfig (5 * second) 26657.

Record RPCHealthChecker := mkRPCHealthChecker {
  ch_Timeout : Duration;
  ch_baseRPC : Z
}.

Definition NewRPCHealthChecker (cfg : Config) : RPCHealthChecker :=
  mkRPCHealthChecker (if bool_decide (cf_Timeout cfg = 0)%Z then 5 * second else cf_Timeout cfg)%Z
    (if bool_decide (cf_BaseRPC cfg = 0)%Z then 26657 else cf_BaseRPC cfg)%Z.

(** [http://127.0.0.1:port/path]; [NewRequest] refuses a port that is no number. *)
Definition local_url (port : Z) (path : string) : string :=
  "http://127.0.0.1:" +:+ itoa port +:+ "/" +:+ path.

Definition NewRequest (port : Z) (path : string) : option error :=
  if bool_decide (port < 0)%Z
  then Some (Errorf ("parse " +:+ quote (local_url port path) +:+ ": invalid port " +:+
                     quote (":" +:+ itoa port) +:+ " after host"))
  else None.

Section checker.
Context `{NodeJSON}.
(** What a GET answers: no response, or the status and the body. *)
Variable get : string → result (Z * string).
Implicit Types c : RPCHealthChecker.

Definition getPeerCount (rpcPort : Z) : result Z :=
  match NewRequest rpcPort "net_info" with
  | Some e => Err e
  | None =>
      match get (local_url rpcPort "net_info") with
      | Err e => Err e
      | Ok (code, body) =>
          if negb (bool_decide (code = 200%Z))
          then Err (Errorf ("net_info returned status " +:+ itoa code)) else json_peers body
      end
  end.

Definition rpc_CheckHealth c (now : Time) (node : Node) : result HealthCheckResult :=
  let result := mkHealthCheckResult
    (ns_DevnetRef (n_Spec node) +:+ "/" +:+ itoa (ns_Index (n_Spec node))) false 0 0 false "" now in
  let rpcPort := wrap64 (ch_baseRPC c + ns_Index (n_Spec node)) in
  match NewRequest rpcPort "status" with
  | Some e => Err (Wrap "failed to create request" e)
  | None =>
      Ok match get (local_url rpcPort "status") with
         | Err e => result <| hr_Error := "RPC request failed: " +:+ Error e |>
         | Ok (code, body) =>
             if negb (bool_decide (code = 200%Z))
             then result <| hr_Error := "RPC returned status " +:+ itoa code |>
             else match json_sync body with
                  | Err e => result <| hr_Error := "failed to parse status response: " +:+ Error e |>
                  | Ok (height, catchingUp) =>
                      let result := result <| hr_Healthy := true |> <| hr_BlockHeight := height |>
                                      <| hr_CatchingUp := catchingUp |> in
                      match getPeerCount rpcPort with
                      | Ok peers => result <| hr_PeerCount := peers |>
                      | Err _ => result
                      end
                  end
         end
  end.
End checker.

(** The checker as the health controller sees it: HTTP and the clock answer any
    functions of the checks so far. *)
Definition as_checker `{NodeJSON} (http : list HealthCall → string → result (Z * string))
    (clock : list HealthCall → Time) (c : RPCHealthChecker) : HealthChecker :=
  {| CheckHealth t node := rpc_CheckHealth (http t) c (clock t) node |}.

(** ** A devnet that does not answer *)

(** Where the node [index] of a provisioned devnet with this subnet listens. *)
Definition node_endpoint (subnet index : Z) : string := "http://" +:+ NodeIP subnet index +:+ ":".

(** Nothing answers but nodes of provisioned devnets, at their own addresses. *)
Definition only_nodes_answer (http : list HealthCall → string → result (Z * string)) : Prop :=
  ∀ t url, is_Some (ok_of (http t url)) →
    ∃ subnet index, (1 ≤ subnet < 256)%Z ∧ has_prefix (node_endpoint subnet index) url = true.

(** The loopback address the checker asks is that of no node. *)
Lemma checker_misses_nodes port path subnet index :
  (1 ≤ subnet < 256)%Z → has_prefix (node_endpoint subnet index) (local_url port path) = false.
Proof.
  intros Hs. unfold node_endpoint, NodeIP, local_url.
  destruct (has_prefix _ _) eqn:E; [|done]. apply has_prefix_spec in E as [t E].
  rewrite <- !(assoc_L String.append) in E. exfalso.
  assert (Hi : itoa subnet +:+ String "."%char (itoa (wrap64 (index + 1)) +:+ ":" +:+ t) =
               "0" +:+ String "."%char ("1:" +:+ itoa port +:+ "/" +:+ path)).
  { by simplify_eq/=. }
  apply (sep_inj "."%char) in Hi as [Hi _]; [|apply has_char_itoa; [vm_compute; auto|done]|done].
  change "0" with (itoa 0) in Hi. apply itoa_inj in Hi; lia.
Qed.

(** A node that runs and has never shown a block. *)
Definition never_seen (node : Node) : Prop :=
  nst_Phase (n_Status node) = NodePhaseRunning ∧ ns_Desired (n_Spec node) ≠ NodePhaseStopped ∧
  nst_LastBlockTime (n_Status node) = 0%Z.

Section health.
Context `{NodeJSON} {S : Type} `{StoreLive S}.
Variable http : list HealthCall → string → result (Z * string).
Variable clock : list HealthCall → Time.
Variable config : HealthControllerConfig.
Implicit Types (w : World S HealthCall) (node : Node).

Lemma only_nodes_silent t port path : only_nodes_answer http → ok_of (http t (local_url port path)) = None.
Proof.
  intros Ho. destruct (ok_of (http t (local_url port path))) as [r|] eqn:E; [|done].
  destruct (Ho t (local_url port path)) as (s & i & Hs & Hp); [by rewrite E|].
  by rewrite checker_misses_nodes in Hp.
Qed.

(** Whatever the checker says, the controller takes the node for healthy. *)
Lemma silent_node_is_healthy c has_manager node w :
  only_nodes_answer http → (0 ≤ wrap64 (ch_baseRPC c + ns_Index (n_Spec node)))%Z → never_seen node →
  hr_Healthy (checkNodeHealth (Some (as_checker http clock c)) has_manager config node w).1 = true.
Proof.
  intros Ho Hp (Hr & Hd & Hl). apply checkNodeHealth_verdict. right. split; [done|]. split.
  - simpl. unfold rpc_CheckHealth, NewRequest. rewrite bool_decide_false by lia. eauto.
  - intros (Hn & _). done.
Qed.

Lemma silent_nodes_are_healthy c has_manager nodes h u st w :
  only_nodes_answer http →
  Forall (λ n, never_seen n ∧ (0 ≤ wrap64 (ch_baseRPC c + ns_Index (n_Spec n)))%Z) nodes →
  (check_nodes (Some (as_checker http clock c)) has_manager config nodes h u st w).1 =
    ((h + Z.of_nat (length nodes))%Z, u, st).
Proof.
  intros Ho. revert h w; induction nodes as [|n nodes IH]; intros h w Hn; cbn [check_nodes length].
  - by rewrite Z.add_0_r.
  - apply Forall_cons in Hn as [[Hn Hp] Hns]. rewrite bindM_eq.
    rewrite silent_node_is_healthy by done. rewrite IH by done. by rewrite Nat2Z.inj_succ, <- Z.add_1_l, Z.add_assoc.
Qed.

(** C16: A devnet none of whose nodes answers is healthy.  When nothing answers HTTP
    but nodes at the addresses their devnets gave them, the daemon's health checker --
    which asks 127.0.0.1 -- gets no answer from any node; the health controller
    nevertheless counts every running node that has never shown a block as ready, and
    a sweep leaves a Running or Degraded devnet of such nodes Running, with all of its
    nodes ready. *)
Theorem silent_devnet_is_healthy c has_manager cap_of grow key ns name d nodes w :
  only_nodes_answer http →
  store_wf (w_store w) → parseDevnetKey key = (ns, name) →
  v_devnets (store_view (w_store w)) !! qualified ns name = Some d →
  dst_Phase (d_Status d) = PhaseRunning ∨ dst_Phase (d_Status d) = PhaseDegraded →
  ListNodes ns name (w_store w) = Ok nodes → nodes ≠ [] →
  Forall (λ n, never_seen n ∧ (0 ≤ wrap64 (ch_baseRPC c + ns_Index (n_Spec n)))%Z) nodes →
  let out := Reconcile (Some (as_checker http clock c)) has_manager config cap_of grow key w in
  out.1 = None ∧
  (∀ t n, n ∈ nodes → ∃ r, CheckHealth (as_checker http clock c) t n = Ok r ∧ hr_Healthy r = false) ∧
  ∃ d', v_devnets (store_view (w_store out.2)) !! qualified ns name = Some d' ∧
    dst_Phase (d_Status d') = PhaseRunning ∧ dst_ReadyNodes (d_Status d') = Z.of_nat (length nodes).
Proof.
  intros Ho Hs Hk Hd Hph Hl Hne Hn out.
  pose proof (Reconcile_outcome config (Some (as_checker http clock c)) has_manager cap_of grow key ns name d
    nodes w Hs Hk Hd Hl) as Hr. cbv zeta in Hr. rewrite silent_nodes_are_healthy in Hr by done.
  destruct Hr as (He & d' & t & Hd' & _ & _ & Hready & Hp & _). split; [done|]. split.
  - intros t' n Hin. pose proof (proj1 (Forall_forall _ _) Hn n Hin) as [_ Hport].
    simpl. unfold rpc_CheckHealth, NewRequest. rewrite bool_decide_false by lia.
    pose proof (only_nodes_silent t' (wrap64 (ch_baseRPC c + ns_Index (n_Spec n))) "status" Ho) as Hg.
    destruct (http t' _) as [r|e]; [done|]. by eexists.
  - exists d'. split; [done|]. rewrite Hready, Hp, Z.add_0_l. split; [|done].
    unfold phase_after. rewrite (bool_decide_false (Z.of_nat _ = 0)%Z) by (destruct nodes; simpl; [done|lia]).
    rewrite (bool_decide_true (Z.of_nat _ = _)) by done.
    by destruct Hph as [-> | ->].
Qed.
End health.

(** ** Samples *)

#[local] Existing Instance some_order.

#[local] Instance bare_json : NodeJSON := {|
  json_sync body := Ok (7%Z, false);
  json_peers body := Ok 3%Z
|}.

(** Two running nodes of the subnet 5, and a network on which they answer. *)
Definition silent_node (i : Z) : Node :=
  mkNode (mkResourceMeta ("d-" +:+ itoa i) "prod" 0 0 0 ∅ ∅)
    (mkNodeSpec "d" "" i "validator" "" "" (NodeIP 5 i) NodePhaseRunning "" "")
    (mkNodeStatus NodePhaseRunning 0 0 0 false 0 "" "" "" 0 0 0 0).

Definition silent_world : World MemoryStore HealthCall :=
  mkWorld (MemStore.CreateNode (silent_node 1) (MemStore.CreateNode (silent_node 0)
            (MemStore.CreateDevnet ex_devnet NewMemoryStore).2).2).2 (λ n, Z.of_nat n) 0 [] [].

Definition loopback (t : list HealthCall) (url : string) : result (Z * string) :=
  if has_prefix (node_endpoint 5 0) url || has_prefix (node_endpoint 5 1) url
  then Ok (200%Z, "{}") else Err (Errorf "connection refused").

Lemma loopback_only_nodes : only_nodes_answer loopback.
Proof.
  intros t url [r Hr]. unfold loopback in Hr. destruct (_ || _) eqn:E; [|discriminate Hr].
  apply orb_true_iff in E as [E|E]; [exists 5%Z, 0%Z|exists 5%Z, 1%Z]; (split; [lia|exact E]).
Qed.

Lemma silent_world_wf : store_wf (w_store silent_world).
Proof. split_and!; apply map_Forall_to_list; vm_compute; repeat constructor. Qed.

Lemma silent_devnet_is_healthy_witness :
  let out := HealthController.Reconcile
    (Some (as_checker loopback (λ _, 0%Z) (NewRPCHealthChecker DefaultConfig))) true
    DefaultHealthControllerConfig (λ l, length l) (λ n, 2 * n) "prod/d" silent_world in
  out.1 = None ∧ ∃ d', v_devnets (store_view (w_store out.2)) !! "prod/d" = Some d' ∧
    dst_Phase (d_Status d') = PhaseRunning ∧ dst_ReadyNodes (d_Status d') = 2%Z.
Proof.
  destruct (silent_devnet_is_healthy (S:=MemoryStore) loopback (λ _, 0%Z) DefaultHealthControllerConfig
    (NewRPCHealthChecker DefaultConfig) true (λ l, length l) (λ n, 2 * n) "prod/d" "prod" "d" ex_devnet
    [silent_node 1; silent_node 0] silent_world loopback_only_nodes silent_world_wf)
    as (He & _ & d' & Hd & Hp & Hr).
  - vm_compute. reflexivity.
  - vm_compute. reflexivity.
  - left. reflexivity.
  - vm_compute. reflexivity.
  - discriminate.
  - repeat constructor; vm_compute; discriminate.
  - split; [exact He|]. exists d'. split; [exact Hd|]. split; [exact Hp|exact Hr].
Defined.
