(* ===== verification/UpgradeRuntime.v ===== *)
(** * The upgrade runtime of the daemon ([internal/daemon/upgrader/runtime.go])

    What the server gives the upgrade controller as [UpgradeRuntime]: proposals and
    votes are simulated, heights and versions are asked over HTTP, and switching a
    binary writes the node.  Devnets are looked up without their namespace. *)

From stdpp Require Import base tactics numbers list strings gmap.
From S2P Require Import Prelude Types MemStore Store World Subnet UpgradeController NodeRPC.

Class RuntimeJSON := {
  json_height : string → result Z;
  json_app_version : string → result string
}.

Record RuntimeConfig := mkRuntimeConfig {
  rc_BaseRPC : Z;
  rc_Timeout : Duration
}.

Record Runtime := mkRuntime {
  rt_baseRPC : Z;
  rt_Timeout : Duration
}.

Definition NewRuntime (cfg : RuntimeConfig) : Runtime :=
  mkRuntime (if bool_decide (rc_BaseRPC cfg = 0)%Z then 26657 else rc_BaseRPC cfg)%Z
    (if bool_decide (rc_Timeout cfg = 0)%Z then 10 * second else rc_Timeout cfg)%Z.

Section runtime.
Context `{RuntimeJSON} {S : Type} `{Store S}.
Variable r : Runtime.
(** What a GET answers. *)
Variable get : string → result (Z * string).
Implicit Types s : S.

Definition rt_SubmitUpgradeProposal (devnetName upgradeName : string) (targetHeight : Z) : result Z :=
  Ok 1%Z.

Definition rt_GetValidatorCount (devnetName : string) s : result Z :=
  match GetDevnet "" devnetName s with
  | Err e => Err (Wrap "failed to get devnet" e)
  | Ok devnet => Ok (ds_Validators (d_Spec devnet))
  end.

Definition rt_GetProposalStatus (devnetName : string) (proposalID : Z) s : result (Z * Z * bool) :=
  match rt_GetValidatorCount devnetName s with
  | Err e => Err e
  | Ok validatorCount => Ok (validatorCount, validatorCount, true)
  end.

Definition rt_VoteOnProposal (devnetName : string) (proposalID validatorIndex : Z) (voteYes : bool) :
    option error := None.

(** A body from a node's RPC endpoint. *)
Definition ask_node (rpcPort : Z) (path : string) : result string :=
  match NewRequest rpcPort path with
  | Some e => Err e
  | None =>
      match get (local_url rpcPort path) with
      | Err e => Err e
      | Ok (code, body) =>
          if negb (bool_decide (code = 200%Z))
          then Err (Errorf (path +:+ " endpoint returned " +:+ itoa code)) else Ok body
      end
  end.

Definition getNodeHeight (rpcPort : Z) : result Z :=
  match ask_node rpcPort "status" with Err e => Err e | Ok body => json_height body end.

Definition getNodeVersion (rpcPort : Z) : result string :=
  match ask_node rpcPort "abci_info" with Err e => Err e | Ok body => json_app_version body end.

(** The first running node that answers. *)
Fixpoint first_height (nodes : list Node) : option Z :=
  match nodes with
  | [] => None
  | node :: rest =>
      if bool_decide (nst_Phase (n_Status node) = NodePhaseRunning) then
        match getNodeHeight (wrap64 (rt_baseRPC r + ns_Index (n_Spec node))) with
        | Ok height => Some height
        | Err _ => first_height rest
        end
      else first_height rest
  end.

Definition rt_GetCurrentHeight (devnetName : string) s : result Z :=
  match GetDevnet "" devnetName s with
  | Err e => Err (Wrap "failed to get devnet" e)
  | Ok devnet =>
      match ListNodes (m_Namespace (d_Metadata devnet)) devnetName s with
      | Err e => Err (Wrap "failed to list nodes" e)
      | Ok nodes =>
          match first_height nodes with
          | Some height => Ok height
          | None => Err (Errorf ("no running nodes found for devnet " +:+ devnetName))
          end
      end
  end.

Definition new_path (newBinary : BinarySource) (path : string) : string :=
  let ty := bs_Type newBinary in
  if bool_decide (ty = "local") || bool_decide (ty = "cache") || bool_decide (ty = "github")
  then bs_Path newBinary
  else if bool_decide (ty = "url") then bs_URL newBinary
  else if negb (bool_decide (bs_Path newBinary = "")) then bs_Path newBinary
  else if negb (bool_decide (bs_URL newBinary = "")) then bs_URL newBinary
  else path.

(** The node as it is written, at [now]. *)
Definition switched (newBinary : BinarySource) (now : Time) (node : Node) : Node :=
  node <| n_Spec; ns_BinaryPath := new_path newBinary (ns_BinaryPath (n_Spec node)) |>
       <| n_Status; nst_Phase := NodePhasePending |>
       <| n_Status; nst_Message := "Restarting with new binary for upgrade" |>
       <| n_Status; nst_RestartCount := wrap64 (nst_RestartCount (n_Status node) + 1) |>
       <| n_Metadata; m_UpdatedAt := now |>.

(** The clock is read here and by the store. *)
Definition rt_SwitchNodeBinary (now stored_at : Time) (devnetName : string) (nodeIndex : Z)
    (newBinary : BinarySource) s : option error * S :=
  match GetDevnet "" devnetName s with
  | Err e => (Some (Wrap "failed to get devnet" e), s)
  | Ok devnet =>
      match GetNode (m_Namespace (d_Metadata devnet)) devnetName nodeIndex s with
      | Err e => (Some (Wrap "failed to get node" e), s)
      | Ok node =>
          let '(err, _, s) := UpdateNode stored_at (switched newBinary now node) s in
          (match err with Some e => Some (Wrap "failed to update node" e) | None => None end, s)
      end
  end.

Definition rt_VerifyNodeVersion (devnetName : string) (nodeIndex : Z) (expectedVersion : string) s :
    result bool :=
  match GetDevnet "" devnetName s with
  | Err e => Err (Wrap "failed to get devnet" e)
  | Ok devnet =>
      match GetNode (m_Namespace (d_Metadata devnet)) devnetName nodeIndex s with
      | Err e => Err (Wrap "failed to get node" e)
      | Ok node =>
          if negb (bool_decide (nst_Phase (n_Status node) = NodePhaseRunning)) then Ok false
          else
            match getNodeVersion (wrap64 (rt_baseRPC r + nodeIndex)) with
            | Err e => Err e
            | Ok version => Ok (bool_decide (version = expectedVersion) || bool_decide (expectedVersion = ""))
            end
      end
  end.

Definition rt_ExportState (devnetName outputPath : string) : option error := None.
End runtime.

(** The runtime as the upgrade controller sees it, over a store that holds [s]; what it
    writes when it switches is [rt_SwitchNodeBinary]. *)
Definition as_runtime `{RuntimeJSON} {S : Type} `{Store S} (r : Runtime)
    (http : list UpgradeCall → string → result (Z * string)) (now : Time) (s : S) : UpgradeRuntime := {|
  SubmitUpgradeProposal t := rt_SubmitUpgradeProposal;
  GetProposalStatus t d p := rt_GetProposalStatus d p s;
  VoteOnProposal t := rt_VoteOnProposal;
  GetCurrentHeight t d := rt_GetCurrentHeight r (http t) d s;
  SwitchNodeBinary t d i b := (rt_SwitchNodeBinary now now d i b s).1;
  VerifyNodeVersion t d i v := rt_VerifyNodeVersion r (http t) d i v s;
  ExportState t := rt_ExportState;
  GetValidatorCount t d := rt_GetValidatorCount d s
|}.

(** ** Switching a node *)

Section spec.
Context `{RuntimeJSON} {S : Type} `{StoreLive S}.
Implicit Types s : S.

(** A switch of a node of a devnet in the default namespace succeeds: the node is
    stored as Pending with the new binary and one more restart, and nothing else of the
    store changes. *)
Theorem SwitchNodeBinary_restarts now at_ name i binary d n s :
  store_wf s → v_devnets (store_view s) !! qualified "" name = Some d →
  v_nodes (store_view s) !! node_key (m_Namespace (d_Metadata d)) name i = Some n →
  let '(e, s') := rt_SwitchNodeBinary now at_ name i binary s in
  e = None ∧ store_wf s' ∧ only_node (node_id n) (store_view s) (store_view s') ∧
  ∃ n', v_nodes (store_view s') !! node_id n = Some n' ∧
    n_Status n' = n_Status (switched binary now n) ∧ n_Spec n' = n_Spec (switched binary now n).
Proof.
  intros Hs Hd Hn. unfold rt_SwitchNodeBinary.
  pose proof (GetDevnet_spec "" name s Hs) as Hg. unfold get_spec in Hg. rewrite Hd in Hg. rewrite Hg.
  pose proof (GetNode_spec (m_Namespace (d_Metadata d)) name i s Hs) as Hgn. unfold get_spec in Hgn.
  rewrite Hn in Hgn. rewrite Hgn.
  destruct (store_keys s Hs) as (_ & Hk & _). pose proof (Hk _ _ Hn) as Hid. rewrite Hid in Hn.
  assert (Hid' : node_id (switched binary now n) = node_id n) by done.
  pose proof (UpdateNode_live at_ (switched binary now n) n s Hs) as Hl. rewrite Hid' in Hl.
  specialize (Hl Hn eq_refl).
  destruct (UpdateNode at_ (switched binary now n) s) as [[e n'] s'] eqn:U. simpl in Hl. subst e.
  destruct (UpdateNode_frame _ _ _ _ _ _ Hs U) as (Hs' & Ho & Hsame & _ & Hl').
  rewrite Hid' in *. split_and!; [done|done|done|]. exists n'. split; [done|].
  destruct Hsame as (_ & Hsp & Hst). by split.
Qed.
End spec.

(** ** An upgrade outside the default namespace *)

Section namespace.
Context `{RuntimeJSON} {S : Type} `{StoreLive S}.
Implicit Types (w : World S UpgradeCall) (u : Upgrade).

(** A devnet that is not in the default namespace is not found. *)
Lemma devnet_not_found name s : store_wf s →
  v_devnets (store_view s) !! qualified "" name = None →
  ∃ e, GetDevnet "" name s = Err e ∧ IsNotFound e = true.
Proof.
  intros Hs Hd. pose proof (GetDevnet_spec "" name s Hs) as Hg. unfold get_spec in Hg. by rewrite Hd in Hg.
Qed.

(** A failure of a stored upgrade is saved. *)
Lemma setFailed_saved u0 u msg w :
  store_wf (w_store w) → v_upgrades (store_view (w_store w)) !! upgrade_id u = Some u0 →
  u_Metadata u0 = u_Metadata u →
  let out := setFailed u msg w in
  out.1 = None ∧ ∃ u', v_upgrades (store_view (w_store out.2)) !! upgrade_id u = Some u' ∧
    phase u' = UpgradePhaseFailed ∧ ust_Error (u_Status u') = msg ∧ u_Spec u' = u_Spec u.
Proof.
  intros Hs Hu Hm. unfold setFailed, SaveUpgrade. rewrite saveM_eq. cbn [fst snd].
  set (u1 := _ <| u_Status; ust_Error := msg |>).
  assert (Hid : upgrade_id u1 = upgrade_id u) by done.
  pose proof (UpdateUpgrade_live (w_clock w (w_ticks w)) u1 u0 (w_store w) Hs) as Hl. rewrite Hid in Hl.
  specialize (Hl Hu ltac:(by rewrite Hm)).
  destruct (UpdateUpgrade _ u1 (w_store w)) as [[e u'] s'] eqn:U. simpl in Hl. subst e. simpl.
  destruct (UpdateUpgrade_frame _ _ _ _ _ _ Hs U) as (_ & _ & (_ & Hsp & Hst) & _ & Hl'). rewrite Hid in Hl'.
  split; [done|]. exists u'. unfold phase. by rewrite Hst, Hsp.
Qed.

(** The first call of a new upgrade fails, and so does the upgrade. *)
Lemma new_upgrade_fails r http now u s e w :
  initial u → GetDevnet "" (devnet_of u) s = Err e →
  ∃ msg w1, reconcile_upgrade (Some (as_runtime r http now s)) u w = setFailed u msg w1 ∧
    w_store w1 = w_store w ∧
    (msg = "failed to get validator count: " +:+ Error (Wrap "failed to get devnet" e) ∨
     msg = "failed to get current height: " +:+ Error (Wrap "failed to get devnet" e)).
Proof.
  intros Hi He. unfold devnet_of in He.
  assert (Hv : rt_GetValidatorCount (us_DevnetRef (u_Spec u)) s = Err (Wrap "failed to get devnet" e))
    by (unfold rt_GetValidatorCount; by rewrite He).
  assert (Hh : ∀ get, rt_GetCurrentHeight r get (us_DevnetRef (u_Spec u)) s = Err (Wrap "failed to get devnet" e))
    by (intros; unfold rt_GetCurrentHeight; by rewrite He).
  assert (Hp : bool_decide (ust_Phase (u_Status u) = "") ||
               bool_decide (ust_Phase (u_Status u) = UpgradePhasePending) = true).
  { apply orb_true_iff. destruct Hi as [Hi|Hi]; [left|right]; by apply bool_decide_eq_true. }
  set (rt := as_runtime r http now s).
  assert (E1 : (height rt (us_DevnetRef (u_Spec u)) w).1 = Err (Wrap "failed to get devnet" e)) by apply Hh.
  assert (E2 : (validators rt (us_DevnetRef (u_Spec u)) w).1 = Err (Wrap "failed to get devnet" e)) by apply Hv.
  unfold reconcile_upgrade. rewrite Hp. unfold reconcilePending, pending_rest. cbv iota.
  destruct (bool_decide (us_TargetHeight (u_Spec u) = 0%Z)); rewrite bindM_eq; [rewrite E1|rewrite E2]; eexists _, _; split; eauto.
Qed.

(** C17: An upgrade outside the default namespace fails.  With the daemon's own runtime,
    an upgrade that begins, of a devnet that the default namespace does not have,
    is Failed by its first reconcile -- whether or not the devnet exists in the
    namespace of the upgrade, and whatever its nodes answer -- because the runtime looks
    the devnet up without a namespace. *)
Theorem upgrade_outside_default_fails r http now key ns name u w :
  store_wf (w_store w) → parseDevnetKey key = (ns, name) →
  v_upgrades (store_view (w_store w)) !! qualified ns name = Some u → initial u →
  v_devnets (store_view (w_store w)) !! qualified "" (devnet_of u) = None →
  let out := Reconcile (Some (as_runtime r http now (w_store w))) key w in
  out.1 = None ∧ ∃ u' e, v_upgrades (store_view (w_store out.2)) !! qualified ns name = Some u' ∧
    phase u' = UpgradePhaseFailed ∧ IsNotFound e = true ∧
    (ust_Error (u_Status u') = "failed to get validator count: " +:+ Error (Wrap "failed to get devnet" e) ∨
     ust_Error (u_Status u') = "failed to get current height: " +:+ Error (Wrap "failed to get devnet" e)).
Proof.
  intros Hs Hk Hu Hi Hd. cbv zeta. unfold Reconcile. rewrite Hk, bindM_eq. cbn [readM getM fst snd].
  pose proof (GetUpgrade_spec ns name (w_store w) Hs) as Hg. unfold get_spec in Hg. rewrite Hu in Hg.
  rewrite Hg. destruct (store_keys _ Hs) as (_ & _ & Hks & _). pose proof (Hks _ _ Hu) as Hid.
  rewrite Hid in Hu |- *. destruct (devnet_not_found _ _ Hs Hd) as (e & He & Hne).
  destruct (new_upgrade_fails r http now u (w_store w) e w Hi He) as (msg & w1 & -> & Hw & Hmsg).
  destruct (setFailed_saved u u msg w1) as (He' & u' & Hu' & Hph & Hm & _); [by rewrite Hw..|done|].
  split; [done|]. exists u', e. rewrite Hm. auto.
Qed.
End namespace.

(** ** Samples *)

#[local] Existing Instance some_order.

#[local] Instance body_json : RuntimeJSON := {|
  json_height body := Ok 5%Z;
  json_app_version body := Ok body
|}.

Definition prod_upgrade : Upgrade :=
  UpgradeController.ex_upgrade <| u_Metadata; m_Namespace := "prod" |>.

(** The devnet and its upgrade in the namespace prod. *)
Definition prod_world : World MemoryStore UpgradeCall :=
  mkWorld (MemStore.CreateUpgrade prod_upgrade
    (MemStore.CreateDevnet (HealthController.ex_devnet <| d_Metadata; m_Name := devnet_of prod_upgrade |>)
      NewMemoryStore).2).2 (λ n, Z.of_nat n) 0 [] [].

Lemma prod_world_wf : store_wf (w_store prod_world).
Proof. split_and!; apply map_Forall_to_list; vm_compute; repeat constructor. Qed.

Lemma upgrade_outside_default_fails_witness :
  ∃ u', v_upgrades (store_view (w_store (Reconcile
    (Some (as_runtime (NewRuntime (mkRuntimeConfig 0 0)) (λ _ _, Ok (200%Z, "")) 0 (w_store prod_world)))
    "prod/v2" prod_world).2)) !! "prod/v2" = Some u' ∧ phase u' = UpgradePhaseFailed.
Proof.
  destruct (upgrade_outside_default_fails (S:=MemoryStore) (NewRuntime (mkRuntimeConfig 0 0))
    (λ _ _, Ok (200%Z, "")) 0 "prod/v2" "prod" "v2" prod_upgrade prod_world prod_world_wf)
    as (_ & u' & e & Hu & Hp & _).
  - vm_compute. reflexivity.
  - vm_compute. reflexivity.
  - left. reflexivity.
  - vm_compute. reflexivity.
  - exists u'. split; [exact Hu|exact Hp].
Defined.
