(* ===== verification/CosmosRPC.v ===== *)
(** * The RPC client of a Cosmos chain
    ([internal/infrastructure/rpc/cosmos_client.go], [errors.go])

    Every question goes to the network plugin first, if there is one, and over HTTP
    when the plugin does not implement it.  What the plugin and the node answer is any
    function of the calls so far; encoding/json and [time.Parse] are interfaces. *)

From Stdlib Require Import Ascii.
From stdpp Require Import base tactics numbers list strings.
From S2P Require Import Prelude Durations Store Trace.

(** ** Data *)

Record statusResponse := mkStatusResponse {
  sr_LatestBlockHeight : string;
  sr_LatestBlockTime : string;
  sr_CatchingUp : bool;
  sr_Network : string
}.

Record Proposal := mkProposal {
  pr_ID : Z;
  pr_Title : string;
  pr_Description : string;
  pr_Status : string;
  pr_VotingEndTime : Time;
  pr_SubmitTime : Time;
  pr_DepositEndTime : Time;
  pr_TotalDeposit : string;
  pr_FinalTallyYes : string;
  pr_FinalTallyNo : string;
  pr_FinalTallyAbstain : string
}.

Record UpgradePlan := mkUpgradePlan {
  up_Name : string;
  up_Height : Z;
  up_Info : string;
  up_Time : Time
}.

Record GovParams := mkGovParams {
  gp_VotingPeriod : Duration;
  gp_ExpeditedVotingPeriod : Duration;
  gp_MinDeposit : string;
  gp_ExpeditedMinDeposit : string
}.

(** The JSON objects of the REST interface; a coin is its denomination and amount. *)
Record proposal_json := mkProposalJson {
  pj_Status : string;
  pj_SubmitTime : string;
  pj_DepositEnd : string;
  pj_VotingEnd : string;
  pj_TotalDeposit : list (string * string);
  pj_YesCount : string;
  pj_NoCount : string;
  pj_AbstainCount : string
}.

Record plan_json := mkPlanJson {
  lj_Name : string;
  lj_Height : string;
  lj_Info : string;
  lj_Time : string
}.

Class RpcJSON := {
  json_status : string → result statusResponse;
  json_block_time : string → result string;
  json_proposal : string → result proposal_json;
  json_plan : string → result (option plan_json);
  json_version : string → result string;
  json_voting : string → result (string * string);
  json_deposit : string → result (list (string * string) * list (string * string));
  parse_RFC3339 : string → option Time;
  parse_RFC3339Nano : string → option Time
}.

(** ** The plugin ([NetworkPluginModule]) *)

(** An answer over gRPC: a response, or an error with its status [Unimplemented] or
    another one. *)
Inductive answer (R : Type) : Type :=
| Response (r : R)
| Unimplemented
| Failure (msg : string).
Arguments Response {R} r.
Arguments Unimplemented {R}.
Arguments Failure {R} msg.

(** The responses; [Error] is their first field, but for the status. *)
Record BlockHeightResponse := mkBlockHeightResponse { bh_Error : string; bh_Height : Z }.
Record BlockTimeResponse := mkBlockTimeResponse { bt_Error : string; bt_BlockTimeNs : Z }.
Record WaitForBlockResponse := mkWaitForBlockResponse {
  wb_Error : string;
  wb_Reached : bool;
  wb_CurrentHeight : Z
}.
Record ProposalResponse := mkProposalResponse {
  pp_Error : string;
  pp_Id : Z;
  pp_Title : string;
  pp_Description : string;
  pp_Status : string;
  pp_VotingEndTimeUnix : Z;
  pp_SubmitTimeUnix : Z;
  pp_DepositEndTimeUnix : Z;
  pp_TotalDeposit : string;
  pp_FinalTallyYes : string;
  pp_FinalTallyNo : string;
  pp_FinalTallyAbstain : string
}.
Record UpgradePlanResponse := mkUpgradePlanResponse {
  pl_Error : string;
  pl_HasPlan : bool;
  pl_Name : string;
  pl_Height : Z;
  pl_Info : string;
  pl_TimeUnix : Z
}.
Record AppVersionResponse := mkAppVersionResponse { av_Error : string; av_Version : string }.
Record GovernanceParamsResponse := mkGovernanceParamsResponse {
  gr_Error : string;
  gr_VotingPeriodNs : Z;
  gr_ExpeditedVotingPeriodNs : Z;
  gr_MinDeposit : string;
  gr_ExpeditedMinDeposit : string
}.

(** What ends a wait in a select. *)
Inductive wait_event := EvDone (e : error) | EvTimeout | EvTick.

(** The calls, with their answers. *)
Inductive RCall :=
| RGet (url : string) (got : result (Z * result string))
| RWait (event : wait_event)
| RHeight (endpoint : string) (got : answer BlockHeightResponse)
| RBlockTime (endpoint : string) (sampleSize : Z) (got : answer BlockTimeResponse)
| RRunning (endpoint : string) (got : answer bool)
| RWaitForBlock (endpoint : string) (height timeoutMs : Z) (got : answer WaitForBlockResponse)
| RProposal (endpoint : string) (id : Z) (got : answer ProposalResponse)
| RPlan (endpoint : string) (got : answer UpgradePlanResponse)
| RVersion (endpoint : string) (got : answer AppVersionResponse)
| RGovParams (endpoint networkType : string) (got : answer GovernanceParamsResponse).

Record NetworkPluginModule := mkPlugin {
  pm_GetGovernanceParams : list RCall → string → string → answer GovernanceParamsResponse;
  pm_GetBlockHeight : list RCall → string → answer BlockHeightResponse;
  pm_GetBlockTime : list RCall → string → Z → answer BlockTimeResponse;
  pm_IsChainRunning : list RCall → string → answer bool;
  pm_WaitForBlock : list RCall → string → Z → Z → answer WaitForBlockResponse;
  pm_GetProposal : list RCall → string → Z → answer ProposalResponse;
  pm_GetUpgradePlan : list RCall → string → answer UpgradePlanResponse;
  pm_GetAppVersion : list RCall → string → answer AppVersionResponse
}.

(** ** The client *)

Definition DefaultBlockPollInterval : Duration := (2 * second)%Z.
Definition DefaultWaitTimeout : Duration := (10 * minute)%Z.
Definition millisecond : Duration := (10 ^ 6)%Z.

Record CosmosRPCClient := mkCosmosRPCClient {
  cl_baseURL : string;
  cl_restBaseURL : string;
  cl_pollInterval : Duration;
  cl_waitTimeout : Duration;
  cl_pluginModule : option NetworkPluginModule;
  cl_networkType : string
}.
#[export] Instance eta_CosmosRPCClient : Settable CosmosRPCClient := mkSettable (λ x,
  mkCosmosRPCClient (cl_baseURL x) (cl_restBaseURL x) (cl_pollInterval x) (cl_waitTimeout x)
    (cl_pluginModule x) (cl_networkType x)).

Definition NewCosmosRPCClient (host : string) (port : Z) : CosmosRPCClient :=
  mkCosmosRPCClient ("http://" +:+ host +:+ ":" +:+ itoa port) ("http://" +:+ host +:+ ":" +:+ itoa 1317)
    DefaultBlockPollInterval DefaultWaitTimeout None "".

(** The text from [hostStart] to the first colon behind it. *)
Definition restURL_of (url : string) : string :=
  if bool_decide (7 < String.length url) then
    let hostStart := if bool_decide (String.substring 0 8 url = "https://") then 8 else 7 in
    let host := default "" (head (split_on ":"%char (String.substring hostStart (String.length url) url))) in
    if bool_decide (host = "") then "http://127.0.0.1:1317" else "http://" +:+ host +:+ ":1317"
  else "http://127.0.0.1:1317".

Definition NewCosmosRPCClientWithURL (url : string) : CosmosRPCClient :=
  mkCosmosRPCClient url (restURL_of url) DefaultBlockPollInterval DefaultWaitTimeout None "".

Definition WithPollInterval (interval : Duration) (c : CosmosRPCClient) : CosmosRPCClient :=
  c <| cl_pollInterval := interval |>.
Definition WithWaitTimeout (timeout : Duration) (c : CosmosRPCClient) : CosmosRPCClient :=
  c <| cl_waitTimeout := timeout |>.
Definition WithPlugin (pluginModule : option NetworkPluginModule) (networkType : string)
    (c : CosmosRPCClient) : CosmosRPCClient :=
  c <| cl_pluginModule := pluginModule |> <| cl_networkType := networkType |>.

Definition RPCError (operation message : string) : error :=
  Errorf ("RPC " +:+ operation +:+ " failed: " +:+ message).

(** [strconv.ParseInt] in base ten with 64 bits: [Atoi] under its own name. *)
Definition ParseInt (s : string) : result Z :=
  match atoi s with
  | Err (Errorf m) => Err (Errorf ("strconv.ParseInt" +:+ String.substring 12 (String.length m) m))
  | r => r
  end.

(** "172800s" as a duration; the multiplication is one of [int64]. *)
Definition parseDuration (s : string) : result Duration :=
  if bool_decide (s = "") then Err (Errorf "empty duration string")
  else
    let n := String.length s - 1 in
    if negb (bool_decide (String.substring n 1 s = "s"))
    then Err (Errorf ("duration must end with 's': " +:+ s))
    else match ParseInt (String.substring 0 n s) with
         | Err e => Err (Errorf ("failed to parse duration: " +:+ Error e))
         | Ok seconds => Ok (wrap64 (seconds * second))
         end.

(** The first byte must be a digit. *)
Definition isValidDepositAmount (amount : string) : bool :=
  match amount with
  | EmptyString => false
  | String c _ => let n := Ascii.nat_of_ascii c in bool_decide (48 ≤ n) && bool_decide (n ≤ 57)
  end.

Definition validateGovParams (params : GovParams) : option error :=
  let voting := gp_VotingPeriod params in
  let expedited := gp_ExpeditedVotingPeriod params in
  if bool_decide (voting ≤ 0)%Z
  then Some (Errorf ("voting_period must be positive, got " +:+ duration_string voting))
  else if bool_decide (expedited < 0)%Z
  then Some (Errorf ("expedited_voting_period cannot be negative, got " +:+ duration_string expedited))
  else if bool_decide (0 < expedited)%Z && bool_decide (voting ≤ expedited)%Z
  then Some (Errorf ("expedited_voting_period (" +:+ duration_string expedited +:+
                     ") must be less than voting_period (" +:+ duration_string voting +:+ ")"))
  else if bool_decide (gp_MinDeposit params = "") then Some (Errorf "min_deposit is required")
  else if negb (isValidDepositAmount (gp_MinDeposit params))
  then Some (Errorf ("min_deposit must be a numeric string, got " +:+ quote (gp_MinDeposit params)))
  else if negb (bool_decide (gp_ExpeditedMinDeposit params = "")) &&
          negb (isValidDepositAmount (gp_ExpeditedMinDeposit params))
  then Some (Errorf ("expedited_min_deposit must be a numeric string, got " +:+
                     quote (gp_ExpeditedMinDeposit params)))
  else None.

(** [time.Unix(sec, 0)]; the zero time of [Time] is the epoch. *)
Definition Unix (sec : Z) : Time := (sec * second)%Z.

Definition convertProposalFromProto (resp : ProposalResponse) : Proposal :=
  mkProposal (pp_Id resp) (pp_Title resp) (pp_Description resp) (pp_Status resp)
    (Unix (pp_VotingEndTimeUnix resp)) (Unix (pp_SubmitTimeUnix resp)) (Unix (pp_DepositEndTimeUnix resp))
    (pp_TotalDeposit resp) (pp_FinalTallyYes resp) (pp_FinalTallyNo resp) (pp_FinalTallyAbstain resp).

Definition convertUpgradePlanFromProto (resp : UpgradePlanResponse) : UpgradePlan :=
  mkUpgradePlan (pl_Name resp) (pl_Height resp) (pl_Info resp)
    (if bool_decide (0 < pl_TimeUnix resp)%Z then Unix (pl_TimeUnix resp) else 0%Z).

(** The value [ParseInt] returns beside its error: a number out of range is the nearest
    [int64]; anything else is zero. *)
Definition parse_number (s : string) : option Z :=
  match s with
  | EmptyString => None
  | String c t =>
      if bool_decide (c = "-"%char) then (λ n, (- Z.of_N n)%Z) <$> parse_unsigned t
      else if bool_decide (c = "+"%char) then Z.of_N <$> parse_unsigned t
      else Z.of_N <$> parse_unsigned s
  end.
Definition ParseInt_value (s : string) : Z :=
  default 0%Z ((λ z, Z.max (- 2 ^ 63) (Z.min (2 ^ 63 - 1) z)) <$> parse_number s).

Section client.
Context `{RpcJSON}.
(** [http] answers a GET: no response, or the status and the body, if it can be read. *)
Variable http : list RCall → string → result (Z * result string).
Variable select : list RCall → wait_event.
Implicit Types c : CosmosRPCClient.

(** The plugin first; [use] is what becomes of its response. *)
Definition plugin_first {A R} c (operation : string)
    (ask : NetworkPluginModule → M (Trace RCall) (answer R)) (use : R → outcome A)
    (rest : Ext RCall A) : Ext RCall A :=
  match cl_pluginModule c with
  | None => rest
  | Some p =>
      do! r := ask p in
      match r with
      | Response r => done_with (use r)
      | Unimplemented => rest
      | Failure msg => fail (RPCError operation msg)
      end
  end.

(** A response whose error is empty. *)
Definition unless_error {A} (operation err : string) (value : outcome A) : outcome A :=
  if bool_decide (err = "") then value else Fails (RPCError operation err).

(** ** Over HTTP *)

Definition get (operation url : string) : Ext RCall (Z * result string) :=
  do! r := ask_env (λ t, http t url) (RGet url) in
  match r with
  | Err e => fail (RPCError operation (Error e))
  | Ok resp => ret resp
  end.

(** The body of a response with status 200. *)
Definition body_of (operation : string) (resp : Z * result string) : Ext RCall string :=
  let '(code, body) := resp in
  if negb (bool_decide (code = 200%Z)) then fail (RPCError operation ("HTTP " +:+ itoa code))
  else match body with
       | Err e => fail (RPCError operation (Error e))
       | Ok body => ret body
       end.

Definition get_body (operation url : string) : Ext RCall string :=
  try! resp := get operation url in body_of operation resp.

Definition parsed {A} (operation message : string) (r : result A) : Ext RCall A :=
  match r with Ok a => ret a | Err _ => fail (RPCError operation message) end.

Definition getBlockHeightViaREST c : Ext RCall Z :=
  try! body := get_body "status" (cl_baseURL c +:+ "/status") in
  try! statusResp := parsed "status" "failed to parse response" (json_status body) in
  parsed "status" "failed to parse height" (ParseInt (sr_LatestBlockHeight statusResp)).

Definition getBlockTimestamp c (height : Z) : Ext RCall Time :=
  do! r := ask_env (λ t, http t (cl_baseURL c +:+ "/block?height=" +:+ itoa height))
                   (RGet (cl_baseURL c +:+ "/block?height=" +:+ itoa height)) in
  match r with
  | Err e => fail e
  | Ok (code, body) =>
      if negb (bool_decide (code = 200%Z)) then fail (Errorf ("block request returned " +:+ itoa code))
      else match body with
           | Err e => fail e
           | Ok body =>
               match json_block_time body with
               | Err e => fail e
               | Ok text => match parse_RFC3339Nano text with
                            | Some t => ret t
                            | None => fail (Errorf "parsing time")
                            end
               end
           end
  end.

(** A default stands for a time stamp that cannot be had. *)
Definition or_default_time {A} (default : A) (m : Ext RCall Time) (k : Time → Ext RCall A) : Ext RCall A :=
  do! r := m in
  match r with
  | Returns t => k t
  | Fails _ => ret default
  | r => done_with (stop r)
  end.

Definition average_block_time (blockCount : Z) (startTime endTime : Time) : Duration :=
  if bool_decide (blockCount ≤ 0)%Z then (2 * second)%Z
  else
    let avgBlockTime := Z.quot (sub_time endTime startTime) blockCount in
    if bool_decide (avgBlockTime < 100 * millisecond)%Z || bool_decide (30 * second < avgBlockTime)%Z
    then (2 * second)%Z else avgBlockTime.

Definition getBlockTimeViaREST c (sampleSize : Z) : Ext RCall Duration :=
  try! currentHeight := getBlockHeightViaREST c in
  let startHeight := wrap64 (currentHeight - sampleSize) in
  let startHeight := if bool_decide (startHeight < 1)%Z then 1%Z else startHeight in
  or_default_time (2 * second)%Z (getBlockTimestamp c startHeight) (λ startTime,
    or_default_time (2 * second)%Z (getBlockTimestamp c currentHeight) (λ endTime,
      ret (average_block_time (wrap64 (currentHeight - startHeight)) startTime endTime))).

(** Each turn of the loop waits for the context, the timer or a tick. *)
Fixpoint wait_for_height (fuel : nat) c (height : Z) : Ext RCall unit :=
  match fuel with
  | O => done_with Unfinished
  | S fuel =>
      do! ev := ask_env select RWait in
      match ev with
      | EvDone e => fail e
      | EvTimeout => fail (RPCError "wait_for_block" ("timeout waiting for height " +:+ itoa height))
      | EvTick =>
          do! r := getBlockHeightViaREST c in
          match r with
          | Returns currentHeight =>
              if bool_decide (height ≤ currentHeight)%Z then ret tt else wait_for_height fuel c height
          | Fails _ => wait_for_height fuel c height
          | r => done_with (stop r)
          end
      end
  end.

(** [NewTicker] panics unless the interval is positive. *)
Definition waitForBlockViaREST (fuel : nat) c (height : Z) : Ext RCall unit :=
  if bool_decide (cl_pollInterval c ≤ 0)%Z then panic else wait_for_height fuel c height.

Definition getProposalViaREST c (id : Z) : Ext RCall Proposal :=
  try! resp := get "get_proposal" (cl_restBaseURL c +:+ "/cosmos/gov/v1/proposals/" +:+ itoa id) in
  if bool_decide (resp.1 = 404%Z) then fail (Errorf ("resource not found: proposal " +:+ itoa id))
  else
    try! body := body_of "get_proposal" resp in
    try! p := parsed "get_proposal" "failed to parse proposal" (json_proposal body) in
    let time text := default 0%Z (parse_RFC3339 text) in
    ret (mkProposal id "" "" (pj_Status p) (time (pj_VotingEnd p)) (time (pj_SubmitTime p))
           (time (pj_DepositEnd p)) (default "" (snd <$> head (pj_TotalDeposit p)))
           (pj_YesCount p) (pj_NoCount p) (pj_AbstainCount p)).

Definition getUpgradePlanViaREST c : Ext RCall (option UpgradePlan) :=
  try! body := get_body "get_upgrade_plan" (cl_restBaseURL c +:+ "/cosmos/upgrade/v1beta1/current_plan") in
  try! plan := parsed "get_upgrade_plan" "failed to parse plan" (json_plan body) in
  ret ((λ p, mkUpgradePlan (lj_Name p) (ParseInt_value (lj_Height p)) (lj_Info p)
               (if bool_decide (lj_Time p = "") then 0%Z else default 0%Z (parse_RFC3339 (lj_Time p))))
       <$> plan).

Definition getAppVersionViaREST c : Ext RCall string :=
  try! body := get_body "abci_info" (cl_baseURL c +:+ "/abci_info") in
  parsed "abci_info" "failed to parse response" (json_version body).

Definition period (name text : string) : Ext RCall Duration :=
  match parseDuration text with
  | Ok d => ret d
  | Err e => fail (RPCError "gov_params" ("failed to parse " +:+ name +:+ ": " +:+ Error e))
  end.

Definition queryGovernanceParamsViaREST c : Ext RCall GovParams :=
  try! body := get_body "gov_params" (cl_restBaseURL c +:+ "/cosmos/gov/v1/params/voting") in
  try! votingParams := parsed "gov_params" "failed to parse voting params" (json_voting body) in
  try! body := get_body "gov_params" (cl_restBaseURL c +:+ "/cosmos/gov/v1/params/deposit") in
  try! depositParams := parsed "gov_params" "failed to parse deposit params" (json_deposit body) in
  try! votingPeriod := period "voting_period" votingParams.1 in
  try! expeditedVotingPeriod := period "expedited_voting_period" votingParams.2 in
  ret (mkGovParams votingPeriod expeditedVotingPeriod
         (default "0" (snd <$> head depositParams.1)) (default "0" (snd <$> head depositParams.2))).

(** ** The operations *)

Definition GetBlockHeight c : Ext RCall Z :=
  plugin_first c "get_block_height"
    (λ p, ask_env (λ t, pm_GetBlockHeight p t (cl_baseURL c)) (RHeight (cl_baseURL c)))
    (λ resp, unless_error "get_block_height" (bh_Error resp) (Returns (bh_Height resp)))
    (getBlockHeightViaREST c).

Definition GetBlockTime c (sampleSize : Z) : Ext RCall Duration :=
  let sampleSize := if bool_decide (sampleSize < 2)%Z then 10%Z else sampleSize in
  plugin_first c "get_block_time"
    (λ p, ask_env (λ t, pm_GetBlockTime p t (cl_baseURL c) sampleSize) (RBlockTime (cl_baseURL c) sampleSize))
    (λ resp, unless_error "get_block_time" (bt_Error resp) (Returns (bt_BlockTimeNs resp)))
    (getBlockTimeViaREST c sampleSize).

Definition IsChainRunning c : M (Trace RCall) bool :=
  let rest := do! r := getBlockHeightViaREST c in
              done_with (match r with Returns _ => true | _ => false end) in
  match cl_pluginModule c with
  | None => rest
  | Some p =>
      do! r := ask_env (λ t, pm_IsChainRunning p t (cl_baseURL c)) (RRunning (cl_baseURL c)) in
      match r with
      | Response running => done_with running
      | Unimplemented => rest
      | Failure _ => done_with false
      end
  end.

Definition WaitForBlock (fuel : nat) c (height : Z) : Ext RCall unit :=
  let timeoutMs := Z.quot (cl_waitTimeout c) millisecond in
  plugin_first c "wait_for_block"
    (λ p, ask_env (λ t, pm_WaitForBlock p t (cl_baseURL c) height timeoutMs)
            (RWaitForBlock (cl_baseURL c) height timeoutMs))
    (λ resp, unless_error "wait_for_block" (wb_Error resp)
       (if wb_Reached resp then Returns tt
        else Fails (RPCError "wait_for_block" ("timeout waiting for height " +:+ itoa height +:+
                      ", current: " +:+ itoa (wb_CurrentHeight resp)))))
    (waitForBlockViaREST fuel c height).

Definition GetProposal c (id : Z) : Ext RCall Proposal :=
  plugin_first c "get_proposal"
    (λ p, ask_env (λ t, pm_GetProposal p t (cl_restBaseURL c) id) (RProposal (cl_restBaseURL c) id))
    (λ resp, unless_error "get_proposal" (pp_Error resp) (Returns (convertProposalFromProto resp)))
    (getProposalViaREST c id).

Definition GetUpgradePlan c : Ext RCall (option UpgradePlan) :=
  plugin_first c "get_upgrade_plan"
    (λ p, ask_env (λ t, pm_GetUpgradePlan p t (cl_restBaseURL c)) (RPlan (cl_restBaseURL c)))
    (λ resp, unless_error "get_upgrade_plan" (pl_Error resp)
       (Returns (if pl_HasPlan resp then Some (convertUpgradePlanFromProto resp) else None)))
    (getUpgradePlanViaREST c).

Definition GetAppVersion c : Ext RCall string :=
  plugin_first c "get_app_version"
    (λ p, ask_env (λ t, pm_GetAppVersion p t (cl_baseURL c)) (RVersion (cl_baseURL c)))
    (λ resp, unless_error "get_app_version" (av_Error resp) (Returns (av_Version resp)))
    (getAppVersionViaREST c).

Definition tryPluginGovernanceParams c (p : NetworkPluginModule) : M (Trace RCall) (answer GovParams) :=
  do! r := ask_env (λ t, pm_GetGovernanceParams p t (cl_restBaseURL c) (cl_networkType c))
                   (RGovParams (cl_restBaseURL c) (cl_networkType c)) in
  done_with
    match r with
    | Response resp =>
        let params := mkGovParams (gr_VotingPeriodNs resp) (gr_ExpeditedVotingPeriodNs resp)
                        (gr_MinDeposit resp) (gr_ExpeditedMinDeposit resp) in
        if negb (bool_decide (gr_Error resp = "")) then Failure ("plugin error: " +:+ gr_Error resp)
        else match validateGovParams params with
             | Some e => Failure ("plugin returned invalid parameters: " +:+ Error e)
             | None => Response params
             end
    | Unimplemented => Unimplemented
    | Failure msg => Failure msg
    end.

Definition GetGovParams c : Ext RCall GovParams :=
  plugin_first c "gov_params_plugin" (tryPluginGovernanceParams c) Returns (queryGovernanceParamsViaREST c).
End client.

(** ** Text *)

Lemma substring_first a b : String.substring 0 (String.length a) (a +:+ b) = a.
Proof.
  induction a as [|x a IH]; [by destruct b|]. exact (f_equal (String x) IH).
Qed.

Lemma substring_second a x : String.substring (String.length a) 1 (a +:+ String x "") = String x "".
Proof. by induction a as [|y a IH]. Qed.

(** ** Block times *)

Section theorems.
Context `{RpcJSON}.
Variable http : list RCall → string → result (Z * result string).
Variable select : list RCall → wait_event.
Implicit Types c : CosmosRPCClient.

Lemma average_block_time_range n s e :
  (100 * millisecond ≤ average_block_time n s e ≤ 30 * second)%Z.
Proof.
  unfold average_block_time, millisecond, second. case_bool_decide; [lia|].
  destruct (bool_decide_reflect (Z.quot (sub_time e s) n < 100 * 10 ^ 6)%Z); simpl; [lia|].
  case_bool_decide; lia.
Qed.

Lemma or_default_time_Returns {A} (d : A) m (k : Time → Ext RCall A) st a st' :
  or_default_time d m k st = (Returns a, st') →
  a = d ∨ ∃ t st1, k t st1 = (Returns a, st').
Proof.
  unfold or_default_time, bindM. destruct (m st) as [[t|e| |] st1]; [by eauto| |done|done].
  intros [= <- <-]. by left.
Qed.

(** An estimate over HTTP is between a tenth of a second and half a minute. *)
Lemma rest_block_time_range c sampleSize st d st' :
  getBlockTimeViaREST http c sampleSize st = (Returns d, st') →
  (100 * millisecond ≤ d ≤ 30 * second)%Z.
Proof.
  assert (Hd : (100 * millisecond ≤ 2 * second ≤ 30 * second)%Z) by (unfold millisecond, second; lia).
  intros (h & st1 & _ & Hr)%bindE_Returns.
  apply or_default_time_Returns in Hr as [->|(t1 & st2 & Hr)]; [done|].
  apply or_default_time_Returns in Hr as [->|(t2 & st3 & Hr)]; [done|].
  injection Hr as <- _. apply average_block_time_range.
Qed.

(** ** Waiting for a height *)

(** A status answer with at least this height. *)
Definition shows_height c (height : Z) (call : RCall) : Prop :=
  ∃ body s h, call = RGet (cl_baseURL c +:+ "/status") (Ok (200%Z, Ok body)) ∧
    json_status body = Ok s ∧ ParseInt (sr_LatestBlockHeight s) = Ok h ∧ (height ≤ h)%Z.

Definition waits (t : list RCall) : nat :=
  length (omap (λ call, match call with RWait ev => Some ev | _ => None end) t).

Lemma waits_app t1 t2 : waits (t1 ++ t2) = waits t1 + waits t2.
Proof. unfold waits. by rewrite omap_app, length_app. Qed.

(** What reading the height does: one call, which shows the height it returns. *)
Lemma rest_height_cases c st :
  let '(r, st') := getBlockHeightViaREST http c st in
  ∃ got, es_calls st' = es_calls st ++ [RGet (cl_baseURL c +:+ "/status") got] ∧
  match r with
  | Returns h => ∃ body s, got = Ok (200%Z, Ok body) ∧ json_status body = Ok s ∧
                           ParseInt (sr_LatestBlockHeight s) = Ok h
  | Fails _ => True
  | _ => False
  end.
Proof.
  unfold getBlockHeightViaREST, get_body, get, body_of, parsed, bindE, bindM, ask_env, ret, fail, done_with.
  simpl. destruct (http _ _) as [[code body]|e]; simpl; [|by eauto].
  destruct (bool_decide_reflect (code = 200%Z)) as [->|]; simpl; [|by eauto].
  destruct body as [body|e]; simpl; [|by eauto].
  destruct (json_status body) as [s|e] eqn:Es; simpl; [|by eauto].
  destruct (ParseInt _) as [h|e] eqn:Eh; simpl; eauto 10.
Qed.

(** The turns of the wait: it ends when the context or the timer says so, or when a
    status shows the height. *)
Lemma wait_for_height_cases fuel c height st bound :
  (∀ t, bound ≤ waits t → select t ≠ EvTick) → bound - waits (es_calls st) < fuel →
  let '(r, st') := wait_for_height http select fuel c height st in
  match r with
  | Returns _ => ∃ t call, es_calls st' = t ++ [call] ∧ shows_height c height call
  | Fails _ => True
  | _ => False
  end.
Proof.
  intros Hb. revert st; induction fuel as [|fuel IH]; intros st Hf; [lia|].
  cbn [wait_for_height]. rewrite bindM_eq. unfold ask_env. cbn [fst snd].
  destruct (select (es_calls st)) as [e| |] eqn:Ev; [done..|].
  set (st1 := mkEState _ _). rewrite bindM_eq.
  assert (Hw : waits (es_calls st) < bound).
  { destruct (decide (bound ≤ waits (es_calls st))) as [Hge|]; [|lia]. by destruct (Hb _ Hge). }
  pose proof (rest_height_cases c st1) as Hh.
  destruct (getBlockHeightViaREST http c st1) as [r st2]. destruct Hh as (got & Ec & Hr). cbn [fst snd].
  assert (Hf2 : bound - waits (es_calls st2) < fuel).
  { rewrite Ec. subst st1. cbn [es_calls]. rewrite !waits_app. unfold waits at 2 3. simpl. lia. }
  destruct r as [h|e| |]; [|by apply IH|done|done].
  case_bool_decide as Hge; [|by apply IH].
  destruct Hr as (body & s & -> & Hs & Hp). exists (es_calls st1), (RGet (cl_baseURL c +:+ "/status") (Ok (200%Z, Ok body))).
  split; [done|]. by exists body, s, h.
Qed.

(** A wait for a height ends.  When the timer or the context ends the select after
    some number of ticks, [WaitForBlock] returns or fails with that many turns and one
    more, and it returns only if its last call was answered by the chain with a height
    that is at least the wanted one, or by the plugin that it is reached. *)
Theorem WaitForBlock_ends fuel c height st bound :
  (0 < cl_pollInterval c)%Z → (∀ t, bound ≤ waits t → select t ≠ EvTick) → bound < fuel →
  let '(r, st') := WaitForBlock http select fuel c height st in
  match r with
  | Returns _ => ∃ t call, es_calls st' = t ++ [call] ∧
      (shows_height c height call ∨
       ∃ resp timeoutMs, call = RWaitForBlock (cl_baseURL c) height timeoutMs (Response resp) ∧
         wb_Error resp = "" ∧ wb_Reached resp = true)
  | Fails _ => True
  | _ => False
  end.
Proof.
  intros Hp Hb Hf.
  assert (Hrest : ∀ st, let '(r, st') := waitForBlockViaREST http select fuel c height st in
    match r with
    | Returns _ => ∃ t call, es_calls st' = t ++ [call] ∧
        (shows_height c height call ∨
         ∃ resp timeoutMs, call = RWaitForBlock (cl_baseURL c) height timeoutMs (Response resp) ∧
           wb_Error resp = "" ∧ wb_Reached resp = true)
    | Fails _ => True
    | _ => False
    end).
  { intros st'. unfold waitForBlockViaREST. rewrite bool_decide_false by lia.
    pose proof (wait_for_height_cases fuel c height st' bound Hb ltac:(lia)) as Hc.
    destruct (wait_for_height _ _ _ _ _ _) as [[u|e| |] st2]; [|done..].
    destruct Hc as (t & call & E & Hs). eauto. }
  unfold WaitForBlock, plugin_first. destruct (cl_pluginModule c) as [p|]; [|apply Hrest].
  rewrite bindM_eq. unfold ask_env. cbn [fst snd].
  destruct (pm_WaitForBlock _ _ _ _ _) as [resp| |msg]; [|apply Hrest|done].
  unfold unless_error, done_with. case_bool_decide as He; [|done].
  destruct (wb_Reached resp) eqn:Hw; [|done].
  eexists _, _. split; [done|]. right. by eexists _, _.
Qed.

(** ** Governance parameters *)

Lemma ParseInt_itoa z : int64_range z → ParseInt (itoa z) = Ok z.
Proof. intros Hz. unfold ParseInt. by rewrite atoi_itoa. Qed.

(** A whole number of seconds, in the arithmetic of [int64]. *)
Lemma parseDuration_seconds n : int64_range n →
  parseDuration (itoa n +:+ "s") = Ok (wrap64 (n * second)).
Proof.
  intros Hn. unfold parseDuration. rewrite bool_decide_false by (by destruct (itoa n)).
  rewrite length_append, Nat.add_sub, substring_second, substring_first, bool_decide_true by done.
  simpl. by rewrite ParseInt_itoa.
Qed.

Lemma validateGovParams_ok params : validateGovParams params = None →
  (0 < gp_VotingPeriod params)%Z ∧
  (gp_ExpeditedVotingPeriod params = 0 ∨ 0 < gp_ExpeditedVotingPeriod params < gp_VotingPeriod params)%Z ∧
  isValidDepositAmount (gp_MinDeposit params) = true.
Proof.
  unfold validateGovParams. case_bool_decide as H1; [done|]. case_bool_decide as H2; [done|].
  destruct (bool_decide_reflect (0 < gp_ExpeditedVotingPeriod params)%Z) as [H3|H3]; simpl.
  - case_bool_decide as H4; [done|]. case_bool_decide; [done|].
    destruct (isValidDepositAmount (gp_MinDeposit params)); simpl; [|done]. intros _. split_and!; [lia|lia|done].
  - case_bool_decide; [done|].
    destruct (isValidDepositAmount (gp_MinDeposit params)); simpl; [|done]. intros _. split_and!; [lia|lia|done].
Qed.

(** What the chain serves: the periods as whole seconds. *)
Definition serves_gov_params c (voting expedited : Z) (deposit expeditedDeposit : list (string * string)) : Prop :=
  (∀ t, ∃ body, http t (cl_restBaseURL c +:+ "/cosmos/gov/v1/params/voting") = Ok (200%Z, Ok body) ∧
     json_voting body = Ok (itoa voting +:+ "s", itoa expedited +:+ "s")) ∧
  (∀ t, ∃ body, http t (cl_restBaseURL c +:+ "/cosmos/gov/v1/params/deposit") = Ok (200%Z, Ok body) ∧
     json_deposit body = Ok (deposit, expeditedDeposit)).

Lemma get_body_Ok operation url body st :
  http (es_calls st) url = Ok (200%Z, Ok body) →
  get_body http operation url st =
    (Returns body, mkEState (es_calls st ++ [RGet url (Ok (200%Z, Ok body))]) (es_ticks st)).
Proof.
  intros Hh. unfold get_body, get, bindE, bindM, ask_env, ret, done_with. rewrite Hh. simpl. done.
Qed.

(** The governance parameters of the chain are read.  Without a plugin, from a chain
    that serves periods of whole seconds, [GetGovParams] returns those periods in
    nanoseconds -- exactly, as long as they fit 292 years -- and the amounts of the first
    coins; a plugin's parameters are returned only if they are valid: a positive voting
    period, an expedited one that is shorter, and deposits that begin with a digit. *)
Theorem chain_gov_params_are_read c st :
  match cl_pluginModule c with
  | None => ∀ voting expedited deposit expeditedDeposit,
      (0 ≤ voting < 9223372036)%Z → (0 ≤ expedited < 9223372036)%Z →
      serves_gov_params c voting expedited deposit expeditedDeposit →
      (GetGovParams http c st).1 =
        Returns (mkGovParams (voting * second) (expedited * second)
                   (default "0" (snd <$> head deposit)) (default "0" (snd <$> head expeditedDeposit)))
  | Some p => ∀ params,
      pm_GetGovernanceParams p (es_calls st) (cl_restBaseURL c) (cl_networkType c) ≠ Unimplemented →
      (GetGovParams http c st).1 = Returns params →
      (0 < gp_VotingPeriod params)%Z ∧
      (gp_ExpeditedVotingPeriod params = 0 ∨ 0 < gp_ExpeditedVotingPeriod params < gp_VotingPeriod params)%Z ∧
      isValidDepositAmount (gp_MinDeposit params) = true
  end.
Proof.
  unfold GetGovParams, plugin_first. destruct (cl_pluginModule c) as [p|].
  - intros params Hu. rewrite bindM_eq. unfold tryPluginGovernanceParams. rewrite bindM_eq.
    unfold ask_env, done_with. cbn [fst snd].
    destruct (pm_GetGovernanceParams _ _ _ _) as [resp| |msg]; [|done|done].
    case_bool_decide; simpl; [|done]. destruct (validateGovParams _) as [e|] eqn:Hv; simpl; [done|].
    intros [= <-]. by apply validateGovParams_ok.
  - intros v e d ed Hv He [Hs1 Hs2]. unfold queryGovernanceParamsViaREST.
    destruct (Hs1 (es_calls st)) as (b1 & Hb1 & Hj1).
    rewrite bindE_eq, (get_body_Ok _ _ _ _ Hb1). set (st1 := mkEState _ _).
    rewrite Hj1. unfold parsed at 1. rewrite bindE_eq. cbn [ret done_with].
    destruct (Hs2 (es_calls st1)) as (b2 & Hb2 & Hj2).
    rewrite bindE_eq, (get_body_Ok _ _ _ _ Hb2), Hj2. unfold parsed, period. cbn [fst snd].
    rewrite !parseDuration_seconds by (unfold int64_range; lia).
    rewrite !wrap64_id by (unfold int64_range, second; lia). done.
Qed.
End theorems.

(** ** Samples *)

(** Bodies that are the text they are decoded to. *)
#[local] Instance plain_json : RpcJSON := {|
  json_status body := Ok (mkStatusResponse body "" false "test");
  json_block_time body := Ok body;
  json_proposal body := Ok (mkProposalJson body "" "" "" [] "" "" "");
  json_plan body := Ok None;
  json_version body := Ok body;
  json_voting body := Ok (body, "30s");
  json_deposit body := Ok ([("stake", body)], []);
  parse_RFC3339 _ := None;
  parse_RFC3339Nano text := (λ s, (s * second)%Z) <$> ok_of (atoi text)
|}.

(** A chain at height 100 with a block per second. *)
Definition plain_chain (t : list RCall) (url : string) : result (Z * result string) :=
  let base := "http://localhost:26657" in
  if bool_decide (url = base +:+ "/status") then Ok (200%Z, Ok "100")
  else match strip_prefix (base +:+ "/block?height=") url with
       | Some height => Ok (200%Z, Ok height)
       | None => if bool_decide (url = "http://localhost:1317/cosmos/gov/v1/params/voting") then Ok (200%Z, Ok "172800s") else Ok (200%Z, Ok "10000000")
       end.

Definition plain_client : CosmosRPCClient := NewCosmosRPCClient "localhost" 26657.

(** The timer fires at the third turn. *)
Definition plain_select (t : list RCall) : wait_event :=
  if bool_decide (waits t < 2) then EvTick else EvTimeout.

Lemma WaitForBlock_ends_witness :
  (WaitForBlock plain_chain plain_select 3 plain_client 100 (mkEState [] 0)).1 = Returns tt ∧
  (WaitForBlock plain_chain plain_select 3 plain_client 101 (mkEState [] 0)).1 =
    Fails (RPCError "wait_for_block" "timeout waiting for height 101") ∧
  let '(r, st') := WaitForBlock plain_chain plain_select 3 plain_client 100 (mkEState [] 0) in
  match r with
  | Returns _ => ∃ t call, es_calls st' = t ++ [call] ∧
      (shows_height plain_client 100 call ∨
       ∃ resp timeoutMs, call = RWaitForBlock (cl_baseURL plain_client) 100 timeoutMs (Response resp) ∧
         wb_Error resp = "" ∧ wb_Reached resp = true)
  | Fails _ => True
  | _ => False
  end.
Proof.
  split; [vm_compute; reflexivity|]. split; [vm_compute; reflexivity|].
  apply (WaitForBlock_ends plain_chain plain_select 3 plain_client 100 (mkEState [] 0) 2).
  - reflexivity.
  - intros t Ht. unfold plain_select. rewrite bool_decide_false by lia. discriminate.
  - lia.
Defined.

Lemma chain_gov_params_are_read_witness :
  (GetGovParams plain_chain plain_client (mkEState [] 0)).1 =
    Returns (mkGovParams (172800 * second) (30 * second) "10000000" "0").
Proof.
  refine (chain_gov_params_are_read plain_chain plain_client (mkEState [] 0) 172800%Z 30%Z [("stake", "10000000")] [] _ _ _).
  - lia.
  - lia.
  - split; intros t; eexists; vm_compute; split; reflexivity.
Defined.
