(* ===== verification/UpgradeHeight.v ===== *)
(** * The height of an upgrade

    [calculateUpgradeHeight] of the proposal asks the RPC client for the block time:
    with the client of [CosmosRPC] and no plugin the upgrade comes after the vote if the
    buffer that the caller asks for is not negative, and before its end if it is; a
    plugin's block time is not checked, and zero is divided by. *)

From stdpp Require Import base tactics numbers list strings.
From S2P Require Import Prelude Trace CosmosRPC UpgradeState GovABI UpgradeSteps UpgradeRuns.

(** The result of an operation as the steps of an upgrade see it. *)
Definition outcome_of {A} (r : result A) : outcome A :=
  match r with Ok a => Returns a | Err e => Fails e end.

Section height.
Context `{RpcJSON}.
Variable http : list RCall → string → result (Z * result string).
Implicit Types w : World.






(** The voting period and the block time of the calculation. *)
Definition vote_of w input t : Duration :=
  match w_GetGovParams w t with Ok p => p | Err _ => pi_VotingPeriod input end.
Definition pace_of w t : Duration := match w_GetBlockTime w t with Ok d => d | Err _ => (2 * second)%Z end.
Definition buffer_of input (cur : Z) (bt : Duration) : outcome Z :=
  if bool_decide (pi_HeightBuffer input = 0)%Z then calculateHeightBuffer cur bt
  else Returns (pi_HeightBuffer input).

Lemma calculateUpgradeHeight_eq w input st : ∃ t1 t2,
  (calculateUpgradeHeight w input st).1 =
    match w_GetBlockHeight w (es_calls st) with
    | Err e => Fails e
    | Ok cur =>
        let bt := pace_of w t2 in
        if bool_decide (bt = 0)%Z then Panics
        else match buffer_of input cur bt with
             | Returns b => Returns (wrap64 (wrap64 (cur + Z.quot (vote_of w input t1) bt) + b))
             | r => r
             end
    end.
Proof.
  set (t1 := es_calls st ++ [UHeight (w_GetBlockHeight w (es_calls st))]).
  exists t1, (t1 ++ [UGovParams (w_GetGovParams w t1)]).
  subst t1. unfold calculateUpgradeHeight, get_height, call, vote_of, pace_of, buffer_of, bindE, bindM.
  unfold ask_env, done_with, ret, panic. cbn [es_calls es_ticks].
  destruct (w_GetBlockHeight w (es_calls st)) as [cur|e] eqn:Ecur; cbn [es_calls es_ticks]; [|done].
  case_bool_decide; [done|]. case_bool_decide; [|done].
  by destruct (calculateHeightBuffer _ _).
Qed.


(** The block time of a plugin is taken as it is, and the calculation divides by it. *)
Theorem zero_block_time_panics c p w input st rst :
  cl_pluginModule c = Some p →
  pm_GetBlockTime p (es_calls rst) (cl_baseURL c) 5 = Response (mkBlockTimeResponse "" 0) →
  is_Some (ok_of (w_GetBlockHeight w (es_calls st))) →
  (∀ t, (GetBlockTime http c 5 rst).1 = outcome_of (w_GetBlockTime w t)) →
  (calculateUpgradeHeight w input st).1 = Panics.
Proof.
  intros Hc Hp [cur Hcur%ok_of_Some] Hw.
  assert (Hz : ∀ t, w_GetBlockTime w t = Ok 0%Z).
  { intros t. specialize (Hw t). unfold GetBlockTime, plugin_first in Hw. rewrite Hc in Hw.
    rewrite bindM_eq in Hw. unfold ask_env in Hw. cbn [fst snd] in Hw.
    rewrite bool_decide_false, Hp in Hw by lia.
    unfold unless_error, done_with in Hw. simpl in Hw. destruct (w_GetBlockTime w t); by simplify_eq/=. }
  destruct (calculateUpgradeHeight_eq w input st) as (t1 & t2 & ->).
  unfold pace_of. by rewrite Hcur, Hz.
Qed.
End height.

(** ** Samples *)

#[local] Existing Instance plain_json.




(** A buffer of minus 70 blocks puts the upgrade below the current height. *)
Example negative_buffer_height :
  (calculateUpgradeHeight running_world (mkProposeInput "/d" "v2" 0 (60 * second) (-70) "" "")
    (mkEState [] 0)).1 = Returns (-9)%Z.
Proof. vm_compute. reflexivity. Qed.
