(* ===== verification/YamlConfig.v ===== *)
(** * Devnets in YAML files
    ([internal/config/yaml_config.go], [yaml_loader.go])

    The document, its validation, and the loader of files and directories.  The decoder
    is third-party code: a reader is the list of what its [Decode] answers before the end
    of the stream.  What the file system answers is an argument.  An empty map is nil, as
    nothing here tells them apart. *)

From Stdlib Require Import Ascii.
From stdpp Require Import base tactics numbers list strings gmap.
From S2P Require Import Prelude Types Store Paths.

Definition SupportedAPIVersion : string := "devnet.lagos/v1".
Definition SupportedKind : string := "Devnet".

Record YAMLResources := mkYAMLResources {
  yr_CPU : string;
  yr_Memory : string;
  yr_Storage : string
}.

Record YAMLNodeOverride := mkYAMLNodeOverride {
  yo_Index : Z;
  yo_Role : string;
  yo_Resources : option YAMLResources
}.

Record YAMLLogsConfig := mkYAMLLogsConfig {
  yl_BufferSize : string;
  yl_Retention : string
}.

Record YAMLDaemonConfig := mkYAMLDaemonConfig {
  yc_AutoStart : bool;
  yc_IdleTimeout : string;
  yc_Logs : option YAMLLogsConfig
}.

Record YAMLMetadata := mkYAMLMetadata {
  ym_Name : string;
  ym_Namespace : string;
  ym_Labels : gmap string string;
  ym_Annotations : gmap string string
}.

Record YAMLDevnetSpec := mkYAMLDevnetSpec {
  ys_Network : string;
  ys_NetworkType : string;
  ys_NetworkVersion : string;
  ys_Mode : string;
  ys_Validators : Z;
  ys_FullNodes : Z;
  ys_Accounts : Z;
  ys_Resources : option YAMLResources;
  ys_Nodes : list YAMLNodeOverride;
  ys_Daemon : option YAMLDaemonConfig;
  ys_ForkNetwork : string;
  ys_GenesisPath : string;
  ys_SnapshotURL : string;
  ys_RPCURL : string
}.

Record YAMLDevnet := mkYAMLDevnet {
  yd_APIVersion : string;
  yd_Kind : string;
  yd_Metadata : YAMLMetadata;
  yd_Spec : YAMLDevnetSpec
}.

(** ** Validation *)

(** [errs = append(errs, msg)] if the condition holds. *)
Definition add_if (bad : bool) (msg : string) : list string := if bad then [msg] else [].

(** The errors joined, if there are any. *)
Definition joined (kind : string) (errs : list string) : option error :=
  match errs with
  | [] => None
  | _ => Some (Errorf (kind +:+ String.concat "; " errs))
  end.

(** A value outside the two allowed ones; the empty one stands for the default. *)
Definition outside (x a b : string) : bool :=
  bool_decide (x ≠ "") && bool_decide (x ≠ a) && bool_decide (x ≠ b).

Definition spec_Validate (s : YAMLDevnetSpec) : option error :=
  joined "spec validation errors: "
    (add_if (bool_decide (ys_Network s = "")) "spec.network is required" ++
     add_if (bool_decide (ys_Validators s < 1)%Z) "spec.validators must be at least 1" ++
     add_if (outside (ys_Mode s) "docker" "local")
       ("spec.mode must be 'docker' or 'local', got " +:+ quote (ys_Mode s)) ++
     add_if (outside (ys_NetworkType s) "mainnet" "testnet")
       ("spec.networkType must be 'mainnet' or 'testnet', got " +:+ quote (ys_NetworkType s))).

Definition devnet_Validate (d : YAMLDevnet) : option error :=
  joined "validation errors: "
    (add_if (negb (bool_decide (yd_APIVersion d = SupportedAPIVersion)))
       ("unsupported apiVersion " +:+ quote (yd_APIVersion d) +:+ ", expected " +:+
        quote SupportedAPIVersion) ++
     add_if (negb (bool_decide (yd_Kind d = SupportedKind)))
       ("unsupported kind " +:+ quote (yd_Kind d) +:+ ", expected " +:+ quote SupportedKind) ++
     add_if (bool_decide (ym_Name (yd_Metadata d) = "")) "metadata.name is required" ++
     match spec_Validate (yd_Spec d) with Some e => [Error e] | None => [] end).

(** ** The loader *)

(** [filepath.Ext]: from the last dot of the last element. *)
Fixpoint Ext (path : string) : string :=
  match path with
  | EmptyString => ""
  | String c rest =>
      if negb (bool_decide (Ext rest = "")) then Ext rest
      else if bool_decide (c = "."%char) && negb (has_char slash rest) then path else ""
  end.

(** What a directory entry is: its name and whether it is a directory. *)
Record DirEntry := mkDirEntry { de_Name : string; de_IsDir : bool }.

Fixpoint load_documents (docIndex : Z) (source : string) (documents : list (result YAMLDevnet))
    (devnets : list YAMLDevnet) : result (list YAMLDevnet) :=
  match documents with
  | [] =>
      match devnets with
      | [] => Err (Errorf ("no devnet definitions found in " +:+ source))
      | _ => Ok devnets
      end
  | Err e :: _ =>
      Err (Wrap ("failed to decode YAML document " +:+ itoa docIndex +:+ " in " +:+ source) e)
  | Ok devnet :: rest =>
      match devnet_Validate devnet with
      | Some e => Err (Wrap ("validation failed for document " +:+ itoa docIndex +:+ " in " +:+ source) e)
      | None => load_documents (wrap64 (docIndex + 1)) source rest (devnets ++ [devnet])
      end
  end.

Definition LoadReader (documents : list (result YAMLDevnet)) (source : string) : result (list YAMLDevnet) :=
  load_documents 0 source documents [].

Section loader.
(** [os.Open], [os.ReadDir] and [os.Stat] (whether the path is a directory). *)
Variable open : string → result (list (result YAMLDevnet)).
Variable read_dir : string → result (list DirEntry).
Variable stat : string → result bool.

Definition LoadFile (path : string) : result (list YAMLDevnet) :=
  match open path with
  | Err e => Err (Wrap "failed to open file" e)
  | Ok documents => LoadReader documents path
  end.

Definition is_yaml (entry : DirEntry) : bool :=
  negb (de_IsDir entry) &&
  (bool_decide (Ext (de_Name entry) = ".yaml") || bool_decide (Ext (de_Name entry) = ".yml")).

Fixpoint load_entries (dir : string) (entries : list DirEntry) (allDevnets : list YAMLDevnet)
    : result (list YAMLDevnet) :=
  match entries with
  | [] => Ok allDevnets
  | entry :: rest =>
      if is_yaml entry then
        let path := Join [dir; de_Name entry] in
        match LoadFile path with
        | Err e => Err (Wrap ("failed to load " +:+ path) e)
        | Ok devnets => load_entries dir rest (allDevnets ++ devnets)
        end
      else load_entries dir rest allDevnets
  end.

Definition LoadDirectory (dir : string) : result (list YAMLDevnet) :=
  match read_dir dir with
  | Err e => Err (Wrap "failed to read directory" e)
  | Ok entries =>
      match load_entries dir entries [] with
      | Ok [] => Err (Errorf ("no devnet definitions found in " +:+ dir))
      | r => r
      end
  end.

Definition Load (path : string) : result (list YAMLDevnet) :=
  match stat path with
  | Err e => Err (Wrap "failed to stat path" e)
  | Ok isDir => if isDir then LoadDirectory path else LoadFile path
  end.
End loader.

Example Ext_examples :
  Ext "a/b.yaml" = ".yaml" ∧ Ext "a.d/b" = "" ∧ Ext ".yml" = ".yml" ∧ Ext "x.tar.gz" = ".gz" ∧ Ext "x." = ".".
Proof. vm_compute. done. Qed.

(** ** What validation means *)

Lemma add_if_nil bad msg : add_if bad msg = [] ↔ bad = false.
Proof. by destruct bad. Qed.

Lemma joined_None kind errs : joined kind errs = None ↔ errs = [].
Proof. by destruct errs. Qed.

Lemma outside_false x a b : outside x a b = false ↔ x = "" ∨ x = a ∨ x = b.
Proof.
  unfold outside. rewrite !andb_false_iff, !bool_decide_eq_false.
  destruct (decide (x = "")), (decide (x = a)), (decide (x = b)); tauto.
Qed.

Create Rewrite HintDb yaml.
(** [destruct_yaml] reads a validation that found no error. *)
#[export] Hint Rewrite add_if_nil joined_None outside_false @app_nil negb_false_iff
  bool_decide_eq_false bool_decide_eq_true : yaml.
Ltac destruct_yaml := autorewrite with yaml in *.

Definition valid_spec (s : YAMLDevnetSpec) : Prop :=
  ys_Network s ≠ "" ∧ (1 ≤ ys_Validators s)%Z ∧
  (ys_Mode s = "" ∨ ys_Mode s = "docker" ∨ ys_Mode s = "local") ∧
  (ys_NetworkType s = "" ∨ ys_NetworkType s = "mainnet" ∨ ys_NetworkType s = "testnet").

Definition valid_devnet (d : YAMLDevnet) : Prop :=
  yd_APIVersion d = SupportedAPIVersion ∧ yd_Kind d = SupportedKind ∧
  ym_Name (yd_Metadata d) ≠ "" ∧ valid_spec (yd_Spec d).

Lemma spec_Validate_None s : spec_Validate s = None ↔ valid_spec s.
Proof. unfold spec_Validate, valid_spec. destruct_yaml. rewrite Z.nlt_ge. tauto. Qed.

Lemma devnet_Validate_None d : devnet_Validate d = None ↔ valid_devnet d.
Proof.
  unfold devnet_Validate, valid_devnet. rewrite <- spec_Validate_None. destruct_yaml.
  destruct (spec_Validate _); naive_solver.
Qed.

(** ** What the loader returns *)

Lemma load_documents_Ok i source documents acc ds :
  load_documents i source documents acc = Ok ds ↔
    ∃ ds', ds = acc ++ ds' ∧ documents = Ok <$> ds' ∧ Forall valid_devnet ds' ∧ ds ≠ [].
Proof.
  revert i acc; induction documents as [|[d|e] rest IH]; intros i acc; simpl.
  - split.
    + intros Hr. exists []. rewrite app_nil_r. destruct acc; [done|]. by simplify_eq.
    + intros (ds' & -> & Hm & _ & Hne). symmetry in Hm. apply fmap_nil_inv in Hm as ->.
      rewrite app_nil_r in *. by destruct acc.
  - destruct (devnet_Validate d) as [e|] eqn:V.
    + split; [done|]. intros (ds' & _ & Hm & Hall & _). destruct ds' as [|d' ds']; simplify_eq/=.
      apply Forall_cons in Hall as [Hv _]. apply devnet_Validate_None in Hv. congruence.
    + rewrite IH. apply devnet_Validate_None in V. split.
      * intros (ds' & -> & -> & Hall & Hne). exists (d :: ds'). rewrite <- app_assoc. split_and!; [done..|by constructor|].
        by destruct acc.
      * intros (ds' & -> & Hm & Hall & Hne). destruct ds' as [|d' ds']; simplify_eq/=.
        apply Forall_cons in Hall as [_ Hall]. exists ds'. rewrite <- app_assoc. done.
  - split; [done|]. intros (ds' & _ & Hm & _). by destruct ds'.
Qed.

(** A reader is loaded exactly when each of its documents decodes and is valid and there
    is one: the devnets are its documents, in their order. *)
Theorem LoadReader_Ok documents source ds :
  LoadReader documents source = Ok ds ↔ documents = Ok <$> ds ∧ Forall valid_devnet ds ∧ ds ≠ [].
Proof. unfold LoadReader. rewrite load_documents_Ok. naive_solver. Qed.

Section loaded.
Variable open : string → result (list (result YAMLDevnet)).
Variable read_dir : string → result (list DirEntry).
Variable stat : string → result bool.

(** The files of a directory, one after the other. *)
Inductive loaded_files (dir : string) : list DirEntry → list YAMLDevnet → Prop :=
| loaded_nil : loaded_files dir [] []
| loaded_skip entry rest ds : is_yaml entry = false → loaded_files dir rest ds →
    loaded_files dir (entry :: rest) ds
| loaded_file entry rest ds ds' : is_yaml entry = true →
    LoadFile open (Join [dir; de_Name entry]) = Ok ds → loaded_files dir rest ds' →
    loaded_files dir (entry :: rest) (ds ++ ds').

Lemma load_entries_Ok dir entries acc ds :
  load_entries open dir entries acc = Ok ds ↔ ∃ ds', ds = acc ++ ds' ∧ loaded_files dir entries ds'.
Proof.
  revert acc; induction entries as [|entry rest IH]; intros acc; cbn [load_entries].
  - split.
    + intros [= <-]. exists []. rewrite app_nil_r. by split; [|constructor].
    + intros (ds' & -> & Hl). inversion Hl; subst. by rewrite app_nil_r.
  - destruct (is_yaml entry) eqn:Hy; [destruct (LoadFile _ _) as [l|e] eqn:L|].
    + rewrite IH. split.
      * intros (ds' & -> & Hl). exists (l ++ ds'). rewrite app_assoc. split; [done|]. by econstructor.
      * intros (ds' & -> & Hl). inversion Hl as [|? ? ? Hn ?|? ? l' ds1 ? Hf Hl']; subst; [congruence|].
        assert (l' = l) as -> by congruence. exists ds1. by rewrite <- app_assoc.
    + split; [done|]. intros (ds' & _ & Hl). inversion Hl; subst; congruence.
    + rewrite IH. split; intros (ds' & -> & Hl); exists ds'; (split; [done|]); [by constructor|].
      by inversion Hl; subst; [|congruence].
Qed.

Lemma LoadFile_valid path ds : LoadFile open path = Ok ds → Forall valid_devnet ds ∧ ds ≠ [].
Proof.
  unfold LoadFile. destruct (open path); [|done]. intros Hr. by apply LoadReader_Ok in Hr as (_ & ? & ?).
Qed.

(** Whatever is loaded from a path is valid, and is not nothing. *)
Theorem Load_valid path ds : Load open read_dir stat path = Ok ds → Forall valid_devnet ds ∧ ds ≠ [].
Proof.
  unfold Load, LoadDirectory. intros Hr. destruct (stat path) as [[]|]; [|by apply LoadFile_valid in Hr|done].
  destruct (read_dir path) as [entries|]; [|done].
  destruct (load_entries open path entries []) as [l|e] eqn:L; [|done].
  assert (l = ds ∧ ds ≠ []) as [-> Hne] by (destruct l; [done|by injection Hr as <-]). split; [|done].
  apply load_entries_Ok in L as (ds' & -> & Hl). simpl. clear Hr Hne.
  induction Hl; [constructor|done|]. apply Forall_app; split; [by eapply LoadFile_valid|done].
Qed.
End loaded.
