(* ===== verification/YamlValidator.v ===== *)
(** * The validator of devnet documents ([internal/config/yaml_validator.go])

    It repeats the validation of the loader with the bounds the server has, and names the
    field of each error.  No command calls it. *)

From stdpp Require Import base tactics numbers list strings gmap.
From S2P Require Import Prelude Types Store YamlConfig.

Record ValidationError := mkValidationError {
  ve_Field : string;
  ve_Message : string
}.
Definition ValidationError_Error (e : ValidationError) : string := ve_Field e +:+ ": " +:+ ve_Message e.

Record ValidationResult := mkValidationResult {
  vr_Valid : bool;
  vr_Errors : list ValidationError;
  vr_Warnings : list ValidationError
}.

Definition ValidationResult_Error (r : ValidationResult) : string :=
  if vr_Valid r then "" else String.concat "; " (ValidationError_Error <$> vr_Errors r).

Record YAMLValidator := mkYAMLValidator {
  yv_MaxValidators : Z;
  yv_MinValidators : Z;
  yv_MaxFullNodes : Z;
  yv_ValidModes : list string
}.

Definition NewYAMLValidator : YAMLValidator := mkYAMLValidator 4 1 10 ["docker"; "local"].

(** One [if] of the validation. *)
Definition refuse (bad : bool) (field message : string) (result : ValidationResult) : ValidationResult :=
  if bad
  then mkValidationResult false (vr_Errors result ++ [mkValidationError field message]) (vr_Warnings result)
  else result.

Definition Validate (v : YAMLValidator) (devnet : option YAMLDevnet) : ValidationResult :=
  match devnet with
  | None => mkValidationResult false [mkValidationError "devnet" "cannot be nil"] []
  | Some devnet =>
      let spec := yd_Spec devnet in
      let result := mkValidationResult true [] [] in
      let result := refuse (negb (bool_decide (yd_APIVersion devnet = SupportedAPIVersion))) "apiVersion"
        ("unsupported apiVersion " +:+ quote (yd_APIVersion devnet) +:+ ", expected " +:+
         quote SupportedAPIVersion) result in
      let result := refuse (negb (bool_decide (yd_Kind devnet = SupportedKind))) "kind"
        ("unsupported kind " +:+ quote (yd_Kind devnet) +:+ ", expected " +:+ quote SupportedKind) result in
      let result := refuse (bool_decide (ym_Name (yd_Metadata devnet) = "")) "metadata.name" "is required" result in
      let result := refuse (bool_decide (ys_Network spec = "")) "spec.network" "is required" result in
      let result := refuse (bool_decide (ys_Validators spec < yv_MinValidators v)%Z ||
                            bool_decide (yv_MaxValidators v < ys_Validators spec)%Z) "spec.validators"
        ("must be between " +:+ itoa (yv_MinValidators v) +:+ " and " +:+ itoa (yv_MaxValidators v) +:+
         ", got " +:+ itoa (ys_Validators spec)) result in
      let result := refuse (bool_decide (ys_FullNodes spec < 0)%Z ||
                            bool_decide (yv_MaxFullNodes v < ys_FullNodes spec)%Z) "spec.fullNodes"
        ("must be between 0 and " +:+ itoa (yv_MaxFullNodes v) +:+ ", got " +:+ itoa (ys_FullNodes spec)) result in
      let result := refuse (negb (bool_decide (ys_Mode spec = "")) &&
                            negb (existsb (λ mode, bool_decide (ys_Mode spec = mode)) (yv_ValidModes v)))
        "spec.mode" ("must be 'docker' or 'local', got " +:+ quote (ys_Mode spec)) result in
      refuse (outside (ys_NetworkType spec) "mainnet" "testnet")
        "spec.networkType" ("must be 'mainnet' or 'testnet', got " +:+ quote (ys_NetworkType spec)) result
  end.

Definition ValidateInvariants (v : YAMLValidator) (devnet : option YAMLDevnet) : option error :=
  let result := Validate v devnet in
  if vr_Valid result then None
  else Some (Errorf ("validation errors: " +:+ ValidationResult_Error result)).

(** The fields get the source before them. *)
Definition ValidateWithSource (v : YAMLValidator) (devnet : option YAMLDevnet) (source : string)
    : ValidationResult :=
  let result := Validate v devnet in
  mkValidationResult (vr_Valid result)
    ((λ e, if bool_decide (ve_Field e = "") then e
           else mkValidationError (source +:+ ": " +:+ ve_Field e) (ve_Message e)) <$> vr_Errors result)
    (vr_Warnings result).

Definition end_line : string := String (Ascii.ascii_of_nat 10) EmptyString.

Definition FormatValidationErrors (result : ValidationResult) (filename : string) : string :=
  if vr_Valid result then ""
  else
    let entries l := String.concat "" ((λ e, "  - " +:+ ValidationError_Error e +:+ end_line) <$> l) in
    "error: error validating " +:+ quote filename +:+ ":" +:+ end_line +:+ entries (vr_Errors result) +:+
    match vr_Warnings result with
    | [] => ""
    | warnings => end_line +:+ "warnings:" +:+ end_line +:+ entries warnings
    end.

(** ** What it accepts *)

Lemma refuse_Valid bad field message r : vr_Valid (refuse bad field message r) = negb bad && vr_Valid r.
Proof. by destruct bad. Qed.

(** A result is valid exactly when it has no error. *)
Lemma refuse_sound bad field message r :
  (vr_Valid r = true ↔ vr_Errors r = []) →
  (vr_Valid (refuse bad field message r) = true ↔ vr_Errors (refuse bad field message r) = []).
Proof. intros Hr. destruct bad; simpl; [|done]. split; [done|]. by destruct (vr_Errors r). Qed.

Lemma Validate_sound v devnet : vr_Valid (Validate v devnet) = true ↔ vr_Errors (Validate v devnet) = [].
Proof. destruct devnet; [|done]. unfold Validate. cbv zeta. repeat apply refuse_sound. done. Qed.

(** The validator with its default bounds accepts the documents the loader accepts that
    ask for at most four validators and for zero to ten full nodes, and no others. *)
Theorem ValidateInvariants_None d :
  ValidateInvariants NewYAMLValidator (Some d) = None ↔
    valid_devnet d ∧ (ys_Validators (yd_Spec d) ≤ 4)%Z ∧ (0 ≤ ys_FullNodes (yd_Spec d) ≤ 10)%Z.
Proof.
  assert (Hv : ValidateInvariants NewYAMLValidator (Some d) = None ↔
               vr_Valid (Validate NewYAMLValidator (Some d)) = true).
  { unfold ValidateInvariants. by destruct (vr_Valid _). }
  rewrite Hv. unfold Validate. cbv zeta. rewrite !refuse_Valid. cbn [yv_MaxValidators yv_MinValidators
    yv_MaxFullNodes yv_ValidModes NewYAMLValidator existsb vr_Valid].
  rewrite !andb_true_iff, !negb_true_iff, !orb_false_iff, !andb_false_iff, !negb_false_iff, outside_false,
    !orb_true_iff, !bool_decide_eq_false, !bool_decide_eq_true.
  unfold valid_devnet, valid_spec. rewrite !Z.nlt_ge.
  split; [|intuition].
  intros H. decompose [and] H. clear H. split_and!; try done. naive_solver.
Qed.
