(* ===== verification/YamlConvert.v ===== *)
(** * Devnet documents and requests ([internal/config/yaml_convert.go])

    A document as the message the daemon takes, and back.  The message does not carry all
    of the document. *)

From stdpp Require Import base tactics numbers list strings gmap.
From S2P Require Import Prelude Types Store Auth Ante Convert YamlConfig.

(** A map on the wire: without entries it is decoded as nil. *)
Definition wire_map (m : gmap string string) : option (gmap string string) :=
  if bool_decide (m = ∅) then None else Some m.

Definition yaml_metadataToProto (m : YAMLMetadata) : ProtoMetadata :=
  let namespace := if bool_decide (ym_Namespace m = "") then "default" else ym_Namespace m in
  mkProtoMetadata (ym_Name m) namespace 0 None None (ym_Labels m) (ym_Annotations m).

Definition yaml_specToProto (s : YAMLDevnetSpec) : ProtoDevnetSpec :=
  let spec := mkProtoDevnetSpec (ys_Network s) (ys_NetworkType s) (wrap32 (ys_Validators s))
    (wrap32 (ys_FullNodes s)) (ys_Mode s) (ys_NetworkVersion s) "" "" "" "" "" in
  let spec := if bool_decide (pd_Mode spec = "") then spec <| pd_Mode := "docker" |> else spec in
  let spec := if bool_decide (pd_NetworkType spec = "") then spec <| pd_NetworkType := "mainnet" |> else spec in
  if bool_decide (pd_Validators spec = 0%Z) then spec <| pd_Validators := 1%Z |> else spec.

Definition ToProto (d : YAMLDevnet) : ProtoDevnet :=
  mkProtoDevnet (Some (yaml_metadataToProto (yd_Metadata d))) (Some (yaml_specToProto (yd_Spec d)))
    (Some (mkProtoDevnetStatus "Pending" 0 0 0 "" None "" [] [] 0)).

Definition YAMLDevnetFromProto (pb : ProtoDevnet) : YAMLDevnet :=
  mkYAMLDevnet SupportedAPIVersion SupportedKind
    match pd_Metadata pb with
    | Some m => mkYAMLMetadata (pm_Name m) (pm_Namespace m) (pm_Labels m) (pm_Annotations m)
    | None => mkYAMLMetadata "" "" ∅ ∅
    end
    match pd_Spec pb with
    | Some s => mkYAMLDevnetSpec (pd_Plugin s) (pd_NetworkType s) (pd_SdkVersion s) (pd_Mode s)
        (pd_Validators s) (pd_FullNodes s) 0 None [] None "" "" "" ""
    | None => mkYAMLDevnetSpec "" "" "" "" 0 0 0 None [] None "" "" "" ""
    end.

Definition ToCreateRequest (d : YAMLDevnet) : CreateDevnetRequest :=
  let namespace := if bool_decide (ym_Namespace (yd_Metadata d) = "") then "default"
                   else ym_Namespace (yd_Metadata d) in
  mkCreateDevnetRequest (ym_Name (yd_Metadata d)) (Some (yaml_specToProto (yd_Spec d)))
    (wire_map (ym_Labels (yd_Metadata d))) namespace.

(** ** There and back *)

Lemma wrap32_idem z : wrap32 (wrap32 z) = wrap32 z.
Proof. apply wrap32_id. unfold wrap32, int32_range. pose proof (Z.mod_pos_bound (z + 2^31) (2^32)). lia. Qed.

(** The fields of the message. *)
Lemma yaml_specToProto_eq s : yaml_specToProto s =
  mkProtoDevnetSpec (ys_Network s)
    (if bool_decide (ys_NetworkType s = "") then "mainnet" else ys_NetworkType s)
    (if bool_decide (wrap32 (ys_Validators s) = 0%Z) then 1%Z else wrap32 (ys_Validators s))
    (wrap32 (ys_FullNodes s)) (if bool_decide (ys_Mode s = "") then "docker" else ys_Mode s)
    (ys_NetworkVersion s) "" "" "" "" "".
Proof. unfold yaml_specToProto. cbn. repeat (case_bool_decide; cbn); done. Qed.

Lemma defaulted_idem (x d : string) : d ≠ "" →
  (if bool_decide ((if bool_decide (x = "") then d else x) = "") then d
   else if bool_decide (x = "") then d else x) = (if bool_decide (x = "") then d else x).
Proof. intros Hd. by repeat case_bool_decide. Qed.

Lemma yaml_specToProto_wire s :
  let pb := yaml_specToProto s in
  int32_range (pd_Validators pb) ∧ int32_range (pd_FullNodes pb) ∧ pd_Validators pb ≠ 0%Z.
Proof.
  rewrite yaml_specToProto_eq. cbn. pose proof (Z.mod_pos_bound (ys_Validators s + 2^31) (2^32)).
  pose proof (Z.mod_pos_bound (ys_FullNodes s + 2^31) (2^32)). unfold wrap32, int32_range in *.
  case_bool_decide; lia.
Qed.

(** A document survives the message as far as the message goes.  Reading a message
    that was made from a document and making one from it gives the same message,
    whatever the document; and the document that is read back is valid if the first one
    was and its numbers fit the message. *)
Theorem yaml_proto_stable d :
  let d' := YAMLDevnetFromProto (ToProto d) in
  ToProto d' = ToProto d ∧
  (valid_devnet d → int32_range (ys_Validators (yd_Spec d)) → valid_devnet d').
Proof.
  intros d'. split.
  - unfold d', ToProto, YAMLDevnetFromProto. cbn. rewrite !yaml_specToProto_eq. cbn.
    unfold yaml_metadataToProto. cbn. rewrite !defaulted_idem by done. rewrite !wrap32_idem.
    do 4 f_equal. destruct (decide (wrap32 (ys_Validators (yd_Spec d)) = 0%Z)) as [Hw|Hw];
      [by rewrite !(bool_decide_true _ Hw)|]. by rewrite !(bool_decide_false _ Hw), wrap32_idem, (bool_decide_false _ Hw).
  - intros (_ & _ & Hn & Hs) Hr. destruct Hs as (Hnet & Hv & Hm & Ht).
    unfold d', YAMLDevnetFromProto, ToProto. cbn. rewrite yaml_specToProto_eq.
    split_and!; [done..|]. unfold valid_spec. cbn. split_and!; [done|..].
    + rewrite wrap32_id by done. case_bool_decide; lia.
    + case_bool_decide; [by auto|naive_solver].
    + case_bool_decide; [by auto|naive_solver].
Qed.

(** ** What the daemon makes of a document *)

Section accepted.
Context {S : Type} `{StoreSpec S}.
Variable GetNetworkInfo : string → option error.

(** C37: A document the loader accepts becomes a devnet exactly when the server's bounds
    hold too: the request made of a valid document whose numbers fit the message passes
    the server's validation if and only if the caller has access to its namespace, it
    asks for at most four validators and at most ten full nodes, and the network is the
    name of a known plugin. *)
Theorem document_is_accepted ctx d :
  valid_devnet d → int32_range (ys_Validators (yd_Spec d)) → int32_range (ys_FullNodes (yd_Spec d)) →
  ValidateCreateDevnet GetNetworkInfo ctx (ToCreateRequest d) = None ↔
    HasNamespaceAccess ctx (or_default (ym_Namespace (yd_Metadata d))) = true ∧
    (ys_Validators (yd_Spec d) ≤ 4)%Z ∧ (ys_FullNodes (yd_Spec d) ≤ 10)%Z ∧
    GetNetworkInfo (ys_Network (yd_Spec d)) = None.
Proof.
  intros (_ & _ & Hn & Hnet & Hv & Hm & Ht) Hrv Hrf. rewrite ValidateCreateDevnet_passes.
  assert (Hns : or_default (cd_Namespace (ToCreateRequest d)) = or_default (ym_Namespace (yd_Metadata d)))
    by apply or_default_idem.
  rewrite Hns. simpl. rewrite yaml_specToProto_eq. unfold devnet_spec_ok.
  rewrite !wrap32_id, (bool_decide_false (ys_Validators _ = 0%Z)) by (done || lia).
  split.
  - intros (Ha & _ & spec & [= <-] & (_ & Hv4 & Hf & _) & _ & Hg). done.
  - intros (Ha & Hv4 & Hf & Hg). split_and!; [done|done|]. eexists. split; [done|]. cbn.
    split_and!; try done; repeat case_bool_decide; naive_solver.
Qed.
End accepted.

Definition ex_document : YAMLDevnet :=
  mkYAMLDevnet "devnet.lagos/v1" "Devnet" (mkYAMLMetadata "a" "" ∅ ∅)
    (mkYAMLDevnetSpec "stable" "" "" "" 4 1 0 None [] None "mainnet" "" "" "").

Lemma ex_document_valid : valid_devnet ex_document.
Proof. apply devnet_Validate_None. reflexivity. Qed.

Lemma document_is_accepted_witness :
  ValidateCreateDevnet (λ _, None) (Some LocalUserInfo) (ToCreateRequest ex_document) = None.
Proof.
  apply (document_is_accepted (λ _, None) (Some LocalUserInfo) ex_document ex_document_valid);
    [split; vm_compute; done..|]. split_and!; [reflexivity|vm_compute; done|vm_compute; done|reflexivity].
Defined.
