(* ===== verification/DvbProvision.v ===== *)
(** * Provisioning from the command line ([cmd/dvb/provision.go])

    [dvb provision] in its modes: what it asks the daemon for, and what it reports.  The
    daemon is the devnet service ([DevnetService]) over its store; the client between
    them ([internal/client/grpc.go]) fills in the requests and renames the errors.  The
    wizard, the terminal, the file system and the YAML libraries are arguments.  What is
    printed is left out, but for the dry run, and so is the waiting for a created devnet:
    its failure is only a warning. *)

From Stdlib Require Import Ascii.
From stdpp Require Import base tactics numbers list strings gmap.
From S2P Require Import Prelude Types Store Subnet Auth Ante Convert World DevnetService YamlConfig YamlConvert.

(** ** Options *)

Inductive ProvisionMode := InteractiveMode | FlagMode | FileMode.

Record provisionOptions := mkProvisionOptions {
  po_name : string;
  po_namespace : string;
  po_network : string;
  po_networkType : string;
  po_validators : Z;
  po_fullNodes : Z;
  po_mode : string;
  po_binaryVersion : string;
  po_file : string;
  po_dryRun : bool;
  po_listPlugins : bool;
  po_quick : bool
}.
#[export] Instance eta_provisionOptions : Settable provisionOptions := mkSettable (λ x,
  mkProvisionOptions (po_name x) (po_namespace x) (po_network x) (po_networkType x) (po_validators x)
    (po_fullNodes x) (po_mode x) (po_binaryVersion x) (po_file x) (po_dryRun x) (po_listPlugins x)
    (po_quick x)).

(** The options of a command line without flags. *)
Definition default_options : provisionOptions :=
  mkProvisionOptions "" "default" "stable" "" 4 0 "docker" "" "" false false false.

Definition detectProvisionMode (opts : provisionOptions) : ProvisionMode :=
  if negb (bool_decide (po_file opts = "")) then FileMode
  else if po_quick opts || negb (bool_decide (po_name opts = "")) then FlagMode
  else InteractiveMode.

(** What the wizard collects. *)
Record WizardOptions := mkWizardOptions {
  wo_Name : string;
  wo_Network : string;
  wo_Validators : Z;
  wo_FullNodes : Z;
  wo_ForkNetwork : string;
  wo_Mode : string;
  wo_BinaryVersion : string
}.

(** [random] is what [rand.Read] puts into the two bytes. *)
Definition generateDevnetName (random : option string) : string :=
  match random with
  | None => "devnet-quick"
  | Some b => "devnet-" +:+ hex_encode b
  end.

(** The defaults of the quick mode: a value that is that of the flag's default counts as
    not set. *)
Definition quick_options (random : option string) (opts : provisionOptions) : provisionOptions :=
  let opts := if bool_decide (po_name opts = "") then opts <| po_name := generateDevnetName random |> else opts in
  let opts := if bool_decide (po_validators opts = 4%Z) then opts <| po_validators := 1%Z |> else opts in
  if bool_decide (po_mode opts = "docker") then opts <| po_mode := "local" |> else opts.

(** ** The dry run *)

Record YAMLProvisionOutput := mkYAMLProvisionOutput {
  yp_APIVersion : string;
  yp_Kind : string;
  yp_Name : string;
  yp_Namespace : string;
  yp_Network : string;
  yp_NetworkType : string;
  yp_NetworkVersion : string;
  yp_Validators : Z;
  yp_FullNodes : Z;
  yp_Mode : string;
  yp_ForkNetwork : string
}.

Definition provision_output (namespace name : string) (spec : ProtoDevnetSpec) : YAMLProvisionOutput :=
  mkYAMLProvisionOutput "devnet.lagos/v1" "Devnet" name namespace (pd_Plugin spec) (pd_NetworkType spec)
    (pd_SdkVersion spec) (pd_Validators spec) (pd_FullNodes spec) (pd_Mode spec) "".

Definition contains (s sep : string) : bool := bool_decide (is_Some (indexOf s sep)).

(** The comment on a line of a changed field: the first condition that holds. *)
Definition annotated_line (spec current : ProtoDevnetSpec) (line : string) : string :=
  if contains line "validators:" && negb (bool_decide (pd_Validators spec = pd_Validators current))
  then line +:+ "      # was: " +:+ itoa (pd_Validators current)
  else if contains line "fullNodes:" && negb (bool_decide (pd_FullNodes spec = pd_FullNodes current))
  then line +:+ "       # was: " +:+ itoa (pd_FullNodes current)
  else if contains line "mode:" && negb (bool_decide (pd_Mode spec = pd_Mode current))
  then line +:+ "            # was: " +:+ pd_Mode current
  else if contains line "networkType:" && negb (bool_decide (pd_NetworkType spec = pd_NetworkType current))
  then line +:+ "     # was: " +:+ pd_NetworkType current
  else line.

Definition PrintDryRun (marshal : YAMLProvisionOutput → result string) (namespace name : string)
    (spec : ProtoDevnetSpec) (currentDevnet : option ProtoDevnet) : result string :=
  let action := match currentDevnet with Some _ => "UPDATED" | None => "CREATED" end in
  let header := "# Dry-run: devnet/" +:+ name +:+ " would be " +:+ action +:+ newline +:+ newline in
  match marshal (provision_output namespace name spec) with
  | Err e => Err (Wrap "failed to marshal yaml" e)
  | Ok out =>
      Ok (header +:+ match currentDevnet ≫= pd_Spec with
                     | Some current => String.concat newline
                         (annotated_line spec current <$> split_on (ascii_of_nat 10) out)
                     | None => out
                     end)
  end.

(** ** The client *)

Definition wrapGRPCError (code : rpc_code) (msg : string) : error :=
  match code with
  | NotFound => Errorf ("not found: " +:+ msg)
  | AlreadyExists => Errorf ("already exists: " +:+ msg)
  | InvalidArgument => Errorf ("invalid argument: " +:+ msg)
  | Unavailable => Errorf ("daemon unavailable: " +:+ msg)
  | _ => Errorf (code_name code +:+ ": " +:+ msg)
  end.

(** A status as an error. *)
Definition status_error (code : rpc_code) (msg : string) : error :=
  Errorf ("rpc error: code = " +:+ code_name code +:+ " desc = " +:+ msg).

(** ** Confirmation *)

(** The answers at the prompt; the end of the input, like an error, cancels. *)
Fixpoint ConfirmUpdate (inputs : list (result string)) : bool :=
  match inputs with
  | [] | Err _ :: _ => false
  | Ok input :: rest =>
      let input := to_lower (trimSpace input) in
      if bool_decide (input = "u") || bool_decide (input = "update") then true
      else if bool_decide (input = "v") || bool_decide (input = "view") then ConfirmUpdate rest
      else if bool_decide (input = "c") || bool_decide (input = "cancel") || bool_decide (input = "")
      then false
      else ConfirmUpdate rest
  end.

Section command.
Context {S : Type} `{Store S} `{MapRange}.
(** The daemon: its ante handler and manager, and who it takes the caller for. *)
Variable ante : option (string → option error).
Variable has_manager : bool.
Variable caller : option UserInfo.
(** The command's surroundings. *)
Variable requireDaemon : option error.
Variable nonInteractive skipConfirm : bool.
Variable inputs : list (result string).
Variable open : string → result (list (result YAMLDevnet)).
Variable marshal : YAMLProvisionOutput → result string.
Variable wizard : result (option WizardOptions).
Variable random : option string.
Variable list_plugins : option error.

Abbreviation W := (World S SvcCall).

(** [Ok None] when the devnet does not exist. *)
Definition CheckDevnetExists (namespace name : string) : M W (result (option ProtoDevnet)) :=
  match requireDaemon with
  | Some e => done_with (Err e)
  | None =>
      do! r := GetDevnet_req namespace name in
      done_with match r with
                | RpcOk devnet => Ok (Some devnet)
                | RpcErr code msg =>
                    let err := wrapGRPCError code msg in
                    if contains (Error err) "not found" then Ok None else Err err
                end
  end.

Definition executeCreate (namespace name : string) (spec : ProtoDevnetSpec)
    (labels : option (gmap string string)) : M W (option error) :=
  do! r := CreateDevnet_req ante has_manager caller (mkCreateDevnetRequest name (Some spec) labels namespace) in
  done_with match r with RpcOk _ => None | RpcErr code msg => Some (wrapGRPCError code msg) end.

Definition executeUpdate (namespace name : string) (spec : ProtoDevnetSpec)
    (labels annotations : option (gmap string string)) : M W (option error) :=
  do! r := ApplyDevnet_req ante has_manager caller
    (mkApplyDevnetRequest name (Some spec) labels annotations namespace) in
  done_with match r with
            | RpcOk _ => None
            | RpcErr code msg => Some (Wrap "apply devnet" (status_error code msg))
            end.

Definition executeUpsert (namespace name : string) (spec : ProtoDevnetSpec)
    (labels annotations : option (gmap string string)) (dryRun silentUpdate : bool) : M W (option error) :=
  do! r := CheckDevnetExists namespace name in
  match r with
  | Err e => done_with (Some (Wrap "failed to check devnet existence" e))
  | Ok currentDevnet =>
      if dryRun then
        done_with match PrintDryRun marshal namespace name spec currentDevnet with
                  | Ok _ => None
                  | Err e => Some e
                  end
      else
        match currentDevnet with
        | None => executeCreate namespace name spec labels
        | Some _ =>
            if negb silentUpdate && negb skipConfirm && negb (ConfirmUpdate inputs) then done_with None
            else executeUpdate namespace name spec labels annotations
        end
  end.

Definition or_default_ns (namespace : string) : string :=
  if bool_decide (namespace = "") then "default" else namespace.

Definition runInteractiveMode (opts : provisionOptions) : M W (option error) :=
  if nonInteractive then
    done_with (Some (Errorf ("interactive wizard requires a terminal" +:+ newline +:+ newline +:+
      "Use flags instead:" +:+ newline +:+ "  dvb provision --name my-devnet --network stable" +:+
      newline +:+ newline +:+ "Or use a YAML file:" +:+ newline +:+ "  dvb provision -f devnet.yaml" +:+
      newline +:+ newline +:+ "Or use quick mode:" +:+ newline +:+ "  dvb provision --quick")))
  else
    match requireDaemon with
    | Some e => done_with (Some e)
    | None =>
        match wizard with
        | Err e => done_with (if bool_decide (Error e = "cancelled") then None else Some e)
        | Ok None => done_with None
        | Ok (Some o) =>
            executeUpsert (or_default_ns (po_namespace opts)) (wo_Name o)
              (mkProtoDevnetSpec (wo_Network o) (wo_ForkNetwork o) (wrap32 (wo_Validators o))
                 (wrap32 (wo_FullNodes o)) (wo_Mode o) (wo_BinaryVersion o) "" "" "" (wo_ForkNetwork o) "")
              None None (po_dryRun opts) false
        end
    end.

Definition flag_spec (opts : provisionOptions) : ProtoDevnetSpec :=
  mkProtoDevnetSpec (po_network opts) (po_networkType opts) (wrap32 (po_validators opts))
    (wrap32 (po_fullNodes opts)) (po_mode opts) (po_binaryVersion opts) "" "" "" (po_networkType opts) "".

Definition runFlagMode (opts : provisionOptions) : M W (option error) :=
  match requireDaemon with
  | Some e => done_with (Some e)
  | None =>
      let opts := if po_quick opts then quick_options random opts else opts in
      if bool_decide (po_name opts = "") then done_with (Some (Errorf "--name is required in flag mode"))
      else if bool_decide (po_network opts = "")
      then done_with (Some (Errorf "--network is required in flag mode"))
      else if bool_decide (po_validators opts < 1)%Z
      then done_with (Some (Errorf "--validators must be at least 1"))
      else if bool_decide (po_fullNodes opts < 0)%Z
      then done_with (Some (Errorf "--full-nodes cannot be negative"))
      else if negb (bool_decide (po_mode opts = "docker")) && negb (bool_decide (po_mode opts = "local"))
      then done_with (Some (Errorf "--mode must be 'docker' or 'local'"))
      else executeUpsert (or_default_ns (po_namespace opts)) (po_name opts) (flag_spec opts) None None
             (po_dryRun opts) false
  end.

Definition runFileMode (opts : provisionOptions) : M W (option error) :=
  match requireDaemon with
  | Some e => done_with (Some e)
  | None =>
      match LoadFile open (po_file opts) with
      | Err e => done_with (Some (Wrap "failed to load config file" e))
      | Ok [yamlDevnet] =>
          let proto := ToProto yamlDevnet in
          let metadata := default (mkProtoMetadata "" "" 0 None None ∅ ∅) (pd_Metadata proto) in
          executeUpsert (or_default_ns (pm_Namespace metadata)) (pm_Name metadata)
            (default (yaml_specToProto (yd_Spec yamlDevnet)) (pd_Spec proto))
            (wire_map (pm_Labels metadata)) (wire_map (pm_Annotations metadata)) (po_dryRun opts) true
      | Ok devnets =>
          done_with (Some (Errorf ("file mode requires exactly one devnet definition, found " +:+
                                   itoa (Z.of_nat (length devnets)))))
      end
  end.

(** The command itself. *)
Definition RunProvision (opts : provisionOptions) : M W (option error) :=
  if po_listPlugins opts then done_with list_plugins
  else match detectProvisionMode opts with
       | FileMode => runFileMode opts
       | FlagMode => runFlagMode opts
       | InteractiveMode => runInteractiveMode opts
       end.
End command.

(** ** Waiting ([pollProvisionStatusWithClient]) *)

(** A turn of the loop: the context is done, or a tick and what [GetDevnet] answers. *)
Inductive poll_turn := PollDone (e : error) | PollTick (got : result ProtoDevnet).

(** The events of an answer that were not seen before, and what has been seen with them. *)
Fixpoint new_events (events : list ProtoEvent) (seenEvents : gset string) : list ProtoEvent * gset string :=
  match events with
  | [] => ([], seenEvents)
  | event :: rest =>
      let eventKey := pe_Reason event +:+ pe_Message event in
      if bool_decide (eventKey ∈ seenEvents) then new_events rest seenEvents
      else let '(printed, seen) := new_events rest ({[eventKey]} ∪ seenEvents) in (event :: printed, seen)
  end.

(** The events printed, and how the loop ends; [None] is still waiting. *)
Fixpoint poll_status (turns : list poll_turn) (seenEvents : gset string)
    : list ProtoEvent * option (option error) :=
  match turns with
  | [] => ([], None)
  | PollDone e :: _ => ([], Some (Some e))
  | PollTick (Err e) :: _ => ([], Some (Some e))
  | PollTick (Ok devnet) :: rest =>
      match pd_Status devnet with
      | None => poll_status rest seenEvents
      | Some status =>
          let '(printed, seenEvents) := new_events (ps_Events status) seenEvents in
          if bool_decide (ps_Phase status = "Running") then (printed, Some None)
          else if bool_decide (ps_Phase status = "Degraded")
          then (printed, Some (Some (Errorf ("provisioning failed: " +:+ ps_Message status))))
          else let '(more, ended) := poll_status rest seenEvents in (printed ++ more, ended)
      end
  end.

Definition pollProvisionStatus (turns : list poll_turn) : list ProtoEvent * option (option error) :=
  poll_status turns ∅.
