(* ===== verification/DvbProvisionSpec.v ===== *)
(** * What provisioning from the command line leads to

    The command of [DvbProvision] followed through the daemon's devnet service
    ([DevnetService]) to the devnet in the store, and from there to its provisioning
    ([ProvisionFlow]). *)

From Stdlib Require Import Ascii.
From stdpp Require Import base tactics numbers list strings gmap.
From S2P Require Import Prelude Types MemStore Store Subnet Auth Ante Convert World ProvisionTypes ProvisionEnv.
From S2P Require Import DevnetService DevnetServiceSpec YamlConfig YamlConvert DvbProvision.
From S2P Require Import ProvisionLogs DevnetController Provisioner ProvisionFlow.
From S2P Require Forker Orchestrator OrchestratorSpec.

(** ** From the command to the stored devnet *)

(** The stored devnet has the spec of the message, as far as a message goes. *)
Definition has_spec (spec : ProtoDevnetSpec) (d : Devnet) : Prop :=
  carried_spec (d_Spec d) = specFromProto (Some spec).

Lemma carried_specFromProto spec : carried_spec (specFromProto (Some spec)) = specFromProto (Some spec).
Proof. destruct spec. vm_compute. reflexivity. Qed.

(** A message without a source of the genesis makes a devnet without one. *)
Definition no_source_spec (spec : ProtoDevnetSpec) : Prop :=
  pd_GenesisPath spec = "" ∧ pd_SnapshotUrl spec = "" ∧ pd_RpcUrl spec = "" ∧ pd_ForkNetwork spec = "".

Lemma has_spec_no_source spec d : has_spec spec d → no_source_spec spec → no_source d.
Proof.
  unfold has_spec, no_source_spec, no_source. destruct (d_Spec d), spec. unfold carried_spec, specFromProto. cbn.
  intros [=]. by subst.
Qed.

Lemma has_spec_counts spec d : has_spec spec d →
  ds_Validators (d_Spec d) = pd_Validators spec ∧ ds_FullNodes (d_Spec d) = pd_FullNodes spec.
Proof.
  unfold has_spec. destruct (d_Spec d), spec. unfold carried_spec, specFromProto. cbn.
  intros [=]. by subst.
Qed.

Section stored.
Context {S : Type} `{StoreChanges S} `{MapRange}.
Variable ante : option (string → option error).
Variable has_manager : bool.
Variable caller : option UserInfo.
Implicit Types w : World S SvcCall.

Abbreviation devnet_at w ns name := (v_devnets (store_view (w_store w)) !! qualified ns name).

Lemma GetDevnet_req_eq ns name w :
  store_wf (w_store w) → name ≠ "" →
  GetDevnet_req ns name w =
    (match devnet_at w ns name with Some d => RpcOk (DevnetToProto d) | None => not_found name end, w).
Proof.
  intros Hs Hn. unfold GetDevnet_req, name_required. rewrite bool_decide_false by done.
  rewrite bindM_eq. cbn [readM getM fst snd].
  pose proof (GetDevnet_spec ns name (w_store w) Hs) as Hg. unfold get_spec in Hg.
  destruct (v_devnets _ !! _) as [d|]; [by rewrite Hg|]. destruct Hg as (e & -> & He).
  unfold get_failed. by rewrite He.
Qed.

Lemma not_found_contains name : contains (Error (wrapGRPCError NotFound name)) "not found" = true.
Proof. apply bool_decide_eq_true. simpl. eauto. Qed.

(** The client tells an absent devnet from the error of the daemon. *)
Lemma CheckDevnetExists_eq ns name w :
  store_wf (w_store w) → name ≠ "" →
  CheckDevnetExists None ns name w = (Ok (DevnetToProto <$> devnet_at w ns name), w).
Proof.
  intros Hs Hn. unfold CheckDevnetExists. rewrite bindM_eq, GetDevnet_req_eq by done. cbn [fst snd].
  destruct (v_devnets _ !! _); [done|]. unfold not_found. by rewrite not_found_contains.
Qed.

Lemma executeCreate_stores ns name spec labels w :
  store_wf (w_store w) →
  let '(e, w') := executeCreate ante has_manager caller ns name spec labels w in
  e = None → store_wf (w_store w') ∧ ∃ d, devnet_at w' ns name = Some d ∧ has_spec spec d.
Proof.
  intros Hs. unfold executeCreate. rewrite bindM_eq.
  pose proof (CreateDevnet_req_outcomes ante has_manager caller
    (mkCreateDevnetRequest name (Some spec) labels ns) w Hs) as Ho. cbv zeta in Ho.
  destruct (CreateDevnet_req _ _ _ _ w) as [[pb|c m] w']; cbn [fst snd done_with]; [|done]. intros _.
  destruct Ho as (Hs' & _ & _ & d & (_ & _ & Hsp & _) & _ & Hv & _). split; [done|].
  exists d. rewrite Hv. simpl. rewrite lookup_insert_eq. split; [done|].
  unfold has_spec. rewrite Hsp. apply carried_specFromProto.
Qed.

Lemma executeUpdate_stores ns name spec labels annotations w d :
  store_wf (w_store w) → devnet_at w ns name = Some d →
  let '(e, w') := executeUpdate ante has_manager caller ns name spec labels annotations w in
  e = None → store_wf (w_store w') ∧ ∃ d', devnet_at w' ns name = Some d' ∧ has_spec spec d'.
Proof.
  intros Hs Hd. unfold executeUpdate. rewrite bindM_eq. set (req := mkApplyDevnetRequest _ _ _ _ _).
  destruct (ApplyDevnet_req ante has_manager caller req w) as [[[pb act]|c m] w'] eqn:Hr;
    cbn [fst snd done_with]; [|done]. intros _. rewrite (ApplyDevnet_accepted _ _ _ _ _ _ _ Hr) in Hr.
  revert Hr. unfold apply_devnet, readM, getM. rewrite bindM_eq. cbn [fst snd].
  pose proof (GetDevnet_spec (or_default ns) name (w_store w) Hs) as Hg. unfold get_spec in Hg.
  rewrite qualified_default, Hd in Hg. cbn [ad_Name ad_Namespace req]. rewrite Hg.
  destruct (_ && _ && _) eqn:Hb.
  - intros [= _ _ <-]. split; [done|]. exists d. split; [done|].
    apply andb_true_iff in Hb as [[Hb _]%andb_true_iff _]. by apply specsEqual_iff in Hb.
  - rewrite bindM_eq. pose proof (update_devnet_outcomes has_manager (or_default ns) req d w Hs) as Ho.
    destruct (update_devnet _ _ _ _ _) as [[pb1|c m] w1]; intros [= _ _ <-].
    destruct Ho as (Hs' & d' & (_ & Hsp & _) & _ & _ & Hk' & _). split; [done|].
    destruct (store_keys (w_store w) Hs) as (Hkeys & _). rewrite <- (Hkeys _ _ Hd) in Hk'.
    exists d'. split; [done|]. unfold has_spec. rewrite Hsp. unfold apply_request. simpl.
    destruct labels, annotations; apply carried_specFromProto.
Qed.

Variable skipConfirm : bool.
Variable inputs : list (result string).
Variable marshal : YAMLProvisionOutput → result string.

Lemma executeUpsert_stores ns name spec labels annotations silent w :
  store_wf (w_store w) → name ≠ "" →
  silent = true ∨ skipConfirm = true ∨ devnet_at w ns name = None →
  let '(e, w') := executeUpsert ante has_manager caller None skipConfirm inputs marshal ns name spec
                    labels annotations false silent w in
  e = None → ∃ d, devnet_at w' ns name = Some d ∧ has_spec spec d.
Proof.
  intros Hs Hn Hc. unfold executeUpsert. rewrite bindM_eq, CheckDevnetExists_eq by done. cbn [fst snd].
  destruct (devnet_at w ns name) as [d|] eqn:Hd; cbn [fmap option_fmap option_map].
  - assert (negb silent && negb skipConfirm && negb (ConfirmUpdate inputs) = false) as ->.
    { destruct Hc as [->|[->|?]]; [done|by rewrite andb_false_r|done]. }
    pose proof (executeUpdate_stores ns name spec labels annotations w d Hs Hd) as Hu.
    destruct (executeUpdate _ _ _ _ _ _ _ _ w) as [e w']. intros He. by apply Hu.
  - pose proof (executeCreate_stores ns name spec labels w Hs) as Hu.
    destruct (executeCreate _ _ _ _ _ _ _ w) as [e w']. intros He. by apply Hu.
Qed.
End stored.

(** ** Devnets without a fork *)

(** What a command asks for: the namespace, the name, the spec, and whether an existing
    devnet is updated without a question; only of a command with a file or a name. *)
Definition asked_for (open : string → result (list (result YAMLDevnet))) (random : option string)
    (opts : provisionOptions) : option (string * string * ProtoDevnetSpec * bool) :=
  match detectProvisionMode opts with
  | FileMode =>
      match LoadFile open (po_file opts) with
      | Ok [d] => Some (or_default (ym_Namespace (yd_Metadata d)), ym_Name (yd_Metadata d),
                        yaml_specToProto (yd_Spec d), true)
      | _ => None
      end
  | FlagMode =>
      let opts := if po_quick opts then quick_options random opts else opts in
      Some (or_default (po_namespace opts), po_name opts, flag_spec opts, false)
  | InteractiveMode => None
  end.

Lemma quick_networkType random opts : po_networkType (quick_options random opts) = po_networkType opts.
Proof. unfold quick_options. by repeat case_bool_decide. Qed.

Lemma asked_for_no_source open random opts ns name spec silent :
  asked_for open random opts = Some (ns, name, spec, silent) →
  detectProvisionMode opts = FileMode ∨ po_networkType opts = "" → no_source_spec spec.
Proof.
  unfold asked_for. intros Ha Hf. destruct (detectProvisionMode opts); [done| |].
  - destruct Hf as [|Hf]; [done|]. injection Ha as <- <- <- <-. unfold no_source_spec, flag_spec. cbn.
    by destruct (po_quick opts); rewrite ?quick_networkType.
  - destruct (LoadFile _ _) as [[|d [|]]|]; simplify_eq. by rewrite yaml_specToProto_eq.
Qed.

Section fresh.
Context `{Forker.JSON} (env fenv : Env) (fconfig : Forker.GenesisForkerConfig).
Context (config : Orchestrator.OrchestratorConfig).
#[local] Existing Instance Orchestrator.the_forker.
Context {S F : Type} `{StoreSpec S} `{!StoreChanges S} `{Codec F persistedState} `{MapRange}.
Context (dataDir : string) (fs : Files) (f : OrchestratorFactory).
Context (ante : option (string → option error)) (has_manager : bool) (caller : option UserInfo).
Context (nonInteractive skipConfirm : bool) (inputs : list (result string)).
Context (open : string → result (list (result YAMLDevnet))) (marshal : YAMLProvisionOutput → result string).
Context (wizard : result (option WizardOptions)) (random : option string) (list_plugins : option error).

(** The devnet of a successful command is stored. *)
Lemma provision_stores opts ns name spec silent (w : World S SvcCall) :
  store_wf (w_store w) → asked_for open random opts = Some (ns, name, spec, silent) →
  po_listPlugins opts = false → po_dryRun opts = false →
  silent = true ∨ skipConfirm = true ∨ v_devnets (store_view (w_store w)) !! qualified ns name = None →
  let '(e, w') := RunProvision ante has_manager caller None nonInteractive skipConfirm inputs open marshal
                    wizard random list_plugins opts w in
  e = None → ∃ d, v_devnets (store_view (w_store w')) !! qualified ns name = Some d ∧ has_spec spec d.
Proof.
  intros Hs Ha Hl Hd Hc. unfold RunProvision, asked_for in *. rewrite Hl.
  destruct (detectProvisionMode opts); [done| |].
  - injection Ha as <- <- <- <-. unfold runFlagMode. cbv zeta in *.
    set (o := if po_quick opts then _ else _) in *.
    assert (Hdry : po_dryRun o = false).
    { subst o. destruct (po_quick opts); [|done]. unfold quick_options. by repeat case_bool_decide. }
    case_bool_decide; [done|]. do 3 (case_bool_decide; [done|]). destruct (_ && _); [done|]. rewrite Hdry.
    by apply executeUpsert_stores.
  - unfold runFileMode. destruct (LoadFile open (po_file opts)) as [[|d [|]]|] eqn:L; simplify_eq.
    assert (Hn : ym_Name (yd_Metadata d) ≠ "").
    { apply LoadFile_valid in L as [Hv _]. apply Forall_cons in Hv as [(_ & _ & Hn & _) _]. done. }
    cbn [pd_Metadata ToProto default pd_Spec id]. rewrite Hd.
    assert (Hns : or_default_ns (pm_Namespace (yaml_metadataToProto (yd_Metadata d))) =
                  or_default (ym_Namespace (yd_Metadata d))) by apply or_default_idem.
    change (id (yaml_metadataToProto (yd_Metadata d))) with (yaml_metadataToProto (yd_Metadata d)).
    rewrite Hns. by apply executeUpsert_stores.
Qed.

(** C27: A devnet provisioned from a file, whatever the file says of forking, or by flags
    without a network type (so by the quick mode and by the examples of the help) never
    comes up.  When the command reports success, the devnet is stored without any source
    for its genesis, and with orchestrators that have the daemon's forker every run of
    its provisioning ends with an error and makes no node. *)
Theorem devnet_without_fork_is_never_provisioned opts ns name spec silent (w : World S SvcCall) :
  @runs (Orchestrator.the_forker fenv fconfig) env config f →
  store_wf (w_store w) → asked_for open random opts = Some (ns, name, spec, silent) →
  po_listPlugins opts = false → po_dryRun opts = false →
  detectProvisionMode opts = FileMode ∨ po_networkType opts = "" →
  silent = true ∨ skipConfirm = true ∨ v_devnets (store_view (w_store w)) !! qualified ns name = None →
  let '(e, w') := RunProvision ante has_manager caller None nonInteractive skipConfirm inputs open marshal
                    wizard random list_plugins opts w in
  e = None →
  ∃ d, v_devnets (store_view (w_store w')) !! qualified ns name = Some d ∧ has_spec spec d ∧ no_source d ∧
    ∀ cb (ps : PState (S:=S) (F:=F)), d_Spec (ds_devnet (ps_d ps)) = d_Spec d →
      (∀ callback phase message, cb = Some callback → calmM (callback phase message)) →
      store_wf (w_store (ds_world (ps_d ps))) → counts_ok (ds_devnet (ps_d ps)) →
      let '(e, ps') := Provision_ dataDir fs (Some f) cb ps in
      e ≠ None ∧ v_nodes (pview ps') = v_nodes (pview ps).
Proof.
  intros Hruns Hs Ha Hl Hd Hf Hc.
  pose proof (provision_stores opts ns name spec silent w Hs Ha Hl Hd Hc) as Hp.
  destruct (RunProvision _ _ _ _ _ _ _ _ _ _ _ _ opts w) as [e w']. intros He.
  destruct (Hp He) as (d & Hk & Hsp). exists d.
  pose proof (has_spec_no_source spec d Hsp (asked_for_no_source _ _ _ _ _ _ _ Ha Hf)) as Hno.
  split_and!; [done|done|done|]. intros cb ps Hps Hcb Hw Hcnt.
  apply (fresh_devnet_is_never_provisioned env fenv fconfig config dataDir fs f cb ps Hruns Hcb Hw Hcnt).
  unfold no_source. by rewrite Hps.
Qed.
End fresh.

(** ** The dry run *)

Section dry.
Context {S : Type} `{Store S} `{MapRange}.
Implicit Types w : World S SvcCall.

Lemma GetDevnet_req_reads ns name w : (GetDevnet_req ns name w).2 = w.
Proof.
  unfold GetDevnet_req, name_required. case_bool_decide; [done|].
  rewrite bindM_eq. cbn [readM getM fst snd]. by destruct (GetDevnet ns name (w_store w)).
Qed.

Lemma dry_upsert ante has_manager caller daemon skip inputs marshal ns name spec labels annotations silent w :
  (executeUpsert ante has_manager caller daemon skip inputs marshal ns name spec labels annotations
     true silent w).2 = w.
Proof.
  unfold executeUpsert, CheckDevnetExists. rewrite bindM_eq. destruct daemon; [done|].
  rewrite bindM_eq. cbn [done_with fst snd].
  pose proof (GetDevnet_req_reads ns name w) as Hg. destruct (GetDevnet_req ns name w) as [r w']. simpl in Hg. subst w'.
  cbn [fst snd]. destruct r as [d|c m]; [|destruct (contains _ _)]; done.
Qed.

(** A dry run asks the daemon, and changes nothing. *)
Theorem dry_run_changes_nothing ante has_manager caller daemon nonInteractive skip inputs open marshal wizard
    random list_plugins opts w :
  po_dryRun opts = true →
  (RunProvision ante has_manager caller daemon nonInteractive skip inputs open marshal wizard random
     list_plugins opts w).2 = w.
Proof.
  intros Hd. unfold RunProvision. destruct (po_listPlugins opts); [done|].
  destruct (detectProvisionMode opts).
  - unfold runInteractiveMode. destruct nonInteractive, daemon; try done.
    destruct wizard as [[o|]|]; try done. rewrite Hd. apply dry_upsert.
  - unfold runFlagMode. destruct daemon; [done|]. cbv zeta.
    assert (Hq : po_dryRun (if po_quick opts then quick_options random opts else opts) = true).
    { destruct (po_quick opts); [|done]. unfold quick_options. by repeat case_bool_decide. }
    rewrite Hq. do 4 (case_bool_decide; [done|]). destruct (_ && _); [done|]. apply dry_upsert.
  - unfold runFileMode. destruct daemon; [done|].
    destruct (LoadFile _ _) as [[|d [|]]|]; try done. rewrite Hd. apply dry_upsert.
Qed.
End dry.

(** ** The quick mode *)

(** The quick mode cannot be given four validators or docker: they count as not set. *)
Theorem quick_overrides_explicit random opts :
  po_validators (quick_options random opts) ≠ 4%Z ∧ po_mode (quick_options random opts) ≠ "docker".
Proof. unfold quick_options. by repeat (case_bool_decide; simpl). Qed.

(** ** Waiting *)

Definition event_key (e : ProtoEvent) : string := pe_Reason e +:+ pe_Message e.

Lemma new_events_spec events seen :
  let '(printed, seen') := new_events events seen in
  NoDup (event_key <$> printed) ∧ (∀ e, e ∈ printed → (event_key e ∉ seen) ∧ e ∈ events) ∧
  seen' = (list_to_set (event_key <$> printed) ∪ seen) ∧
  (∀ e, e ∈ events → event_key e ∈ seen').
Proof.
  revert seen; induction events as [|e events IH]; intros seen; simpl.
  - split_and!; [constructor|set_solver..].
  - case_bool_decide as Hin.
    + specialize (IH seen). destruct (new_events events seen) as [printed seen'].
      destruct IH as (Hnd & Hp & -> & Ha). split_and!; [done|set_solver|done|].
      intros e' [->|?]%elem_of_cons; [fold (event_key e) in Hin; set_solver|by apply Ha].
    + fold (event_key e) in *. specialize (IH ({[event_key e]} ∪ seen)).
      destruct (new_events events _) as [printed seen']. destruct IH as (Hnd & Hp & -> & Ha). simpl.
      split_and!.
      * constructor; [|done]. intros (e' & He' & [Hn _]%Hp)%list_elem_of_fmap. set_solver.
      * intros e' [->|[? ?]%Hp]%elem_of_cons; [split; [done|constructor]|]. split; [set_solver|by constructor].
      * set_solver.
      * intros e' [->|?%Ha]%elem_of_cons; set_solver.
Qed.

Lemma poll_status_once turns seen :
  NoDup (event_key <$> (poll_status turns seen).1) ∧
  ∀ e, e ∈ (poll_status turns seen).1 → event_key e ∉ seen.
Proof.
  revert seen; induction turns as [|[e|[d|e]] turns IH]; intros seen; simpl; try by split; [constructor|set_solver].
  destruct (pd_Status d) as [st|]; [|done].
  pose proof (new_events_spec (ps_Events st) seen) as Hn.
  destruct (new_events _ _) as [printed seen']. destruct Hn as (Hnd & Hp & -> & _).
  repeat case_bool_decide; simpl; [split; [done|naive_solver]..|].
  specialize (IH (list_to_set (event_key <$> printed) ∪ seen)).
  destruct (poll_status turns _) as [more ended]. destruct IH as [Hm Hs]. simpl in *.
  rewrite fmap_app. split.
  - apply NoDup_app. split_and!; [done| |done]. intros k (e1 & -> & He1)%list_elem_of_fmap (e2 & Hk & He2)%list_elem_of_fmap.
    apply Hs in He2. apply He2. rewrite <- Hk. set_solver.
  - intros e [He|He]%elem_of_app; [by apply Hp|]. apply Hs in He. set_solver.
Qed.

(** Waiting prints no event twice, whatever the daemon answers. *)
Theorem events_are_printed_once turns : NoDup (event_key <$> (pollProvisionStatus turns).1).
Proof. apply poll_status_once. Qed.

(** ** Samples *)

#[local] Existing Instances some_order Forker.number_JSON OrchestratorSpec.ex_forker.

(** The file asks to fork the main network. *)
Definition ex_command : bool → option error * World MemoryStore SvcCall := λ dryRun,
  RunProvision (Some (λ _, None)) true (Some LocalUserInfo) None false false []
    (λ _, Ok [Ok ex_document]) (λ _, Ok "") (Ok None) None None
    (default_options <| po_file := "devnet.yaml" |> <| po_dryRun := dryRun |>) (svc_world NewMemoryStore).

Lemma devnet_without_fork_is_never_provisioned_witness :
  ys_ForkNetwork (yd_Spec ex_document) = "mainnet" ∧ (ex_command false).1 = None ∧
  ∃ d, v_devnets (store_view (w_store (ex_command false).2)) !! "default/a" = Some d ∧ no_source d ∧
    (Provision_ "/data" ex_files (Some ex_runner) None (ex_provisioned d)).1 ≠ None.
Proof.
  split; [reflexivity|].
  pose proof (devnet_without_fork_is_never_provisioned (S:=MemoryStore) (F:=persistedState)
    OrchestratorSpec.ex_env OrchestratorSpec.ex_env
    (Forker.mkGenesisForkerConfig "/data" None true true true)
    OrchestratorSpec.ex_orchestrator "/data" ex_files ex_runner
    (Some (λ _, None)) true (Some LocalUserInfo) false false [] (λ _, Ok [Ok ex_document]) (λ _, Ok "")
    (Ok None) None None (default_options <| po_file := "devnet.yaml" |> <| po_dryRun := false |>)
    "default" "a" (yaml_specToProto (yd_Spec ex_document)) true (svc_world NewMemoryStore)
    ex_runs new_store_wf eq_refl eq_refl eq_refl (or_introl eq_refl) (or_introl eq_refl)) as Hp.
  fold (ex_command false) in Hp. destruct (ex_command false) as [e w'] eqn:E.
  assert (e = None) as -> by exact (f_equal fst (eq_sym E)).
  destruct (Hp eq_refl) as (d & Hd & Hsp & Hno & Hfail). split; [reflexivity|].
  exists d. split; [exact Hd|]. split; [exact Hno|].
  destruct (has_spec_counts _ _ Hsp) as [Hv Hf].
  specialize (Hfail None (ex_provisioned d) eq_refl ltac:(discriminate) (ex_empty_wf d)).
  destruct (Provision_ _ _ _ _ _) as [e' ps']. apply Hfail.
  unfold counts_ok. simpl. rewrite Hv, Hf. vm_compute. intuition discriminate.
Defined.
