(* ===== verification/ReconcilerDiff.v ===== *)
(** * The plan between two states ([internal/daemon/reconciler/diff.go], [types.go])

    The difference of the devnets that are and those that are wanted, as a plan of
    actions.  The maps are visited in any order.  Nothing in the daemon carries a plan
    out, so what is shown is what the plan says: it is compared with a relation
    [change] that reads the two states directly. *)

From stdpp Require Import base tactics numbers list strings gmap.
From S2P Require Import Prelude Types Store YamlConfig.

Inductive ActionType :=
| ActionCreate | ActionUpdate | ActionDelete | ActionScale | ActionUpgrade | ActionNoop.
#[export] Instance ActionType_eq_dec : EqDecision ActionType.
Proof. solve_decision. Defined.

Definition ActionType_String (a : ActionType) : string :=
  match a with
  | ActionCreate => "CREATE" | ActionUpdate => "UPDATE" | ActionDelete => "DELETE"
  | ActionScale => "SCALE" | ActionUpgrade => "UPGRADE" | ActionNoop => "NOOP"
  end.

(** A value of [Details]. *)
Inductive detail := DString (s : string) | DInt (z : Z) | DBool (b : bool).

Record Action := mkAction {
  ac_Type : ActionType;
  ac_Resource : string;
  ac_Name : string;
  ac_Description : string;
  ac_Details : gmap string detail
}.

Record Plan := mkPlan {
  pl_DevnetName : string;
  pl_Actions : list Action;
  pl_CreatedAt : Time
}.

Definition IsEmpty (p : Plan) : bool := bool_decide (length (pl_Actions p) = 0).

(** [creates], [updates] and [deletes]. *)
Definition count_action (counts : Z * Z * Z) (a : Action) : Z * Z * Z :=
  let '(creates, updates, deletes) := counts in
  match ac_Type a with
  | ActionCreate => (wrap64 (creates + 1), updates, deletes)
  | ActionUpdate | ActionScale | ActionUpgrade => (creates, wrap64 (updates + 1), deletes)
  | ActionDelete => (creates, updates, wrap64 (deletes + 1))
  | ActionNoop => counts
  end.
Definition Summary (p : Plan) : Z * Z * Z := foldl count_action (0%Z, 0%Z, 0%Z) (pl_Actions p).

(** [State.Devnets]. *)
Abbreviation State := (gmap string YAMLDevnet).
Definition NewState : State := ∅.

Definition compareDevnets (current desired : YAMLDevnet) : list Action :=
  let cs := yd_Spec current in
  let ds := yd_Spec desired in
  let name := ym_Name (yd_Metadata desired) in
  (if bool_decide (ys_Validators cs = ys_Validators ds) then []
   else [mkAction ActionScale "devnet" name
           ("Scale validators from " +:+ itoa (ys_Validators cs) +:+ " to " +:+ itoa (ys_Validators ds))
           {["from" := DInt (ys_Validators cs); "to" := DInt (ys_Validators ds)]}]) ++
  (if negb (bool_decide (ys_NetworkVersion cs = ys_NetworkVersion ds)) &&
      negb (bool_decide (ys_NetworkVersion ds = ""))
   then [mkAction ActionUpgrade "devnet" name
           ("Upgrade from " +:+ ys_NetworkVersion cs +:+ " to " +:+ ys_NetworkVersion ds)
           {["from" := DString (ys_NetworkVersion cs); "to" := DString (ys_NetworkVersion ds)]}]
   else []) ++
  (if negb (bool_decide (ys_Mode cs = ys_Mode ds)) && negb (bool_decide (ys_Mode ds = "")) &&
      negb (bool_decide (ys_Mode cs = ""))
   then [mkAction ActionUpdate "devnet" name
           ("Change mode from " +:+ ys_Mode cs +:+ " to " +:+ ys_Mode ds +:+ " (requires recreate)")
           {["from" := DString (ys_Mode cs); "to" := DString (ys_Mode ds);
             "requiresRecreate" := DBool true]}]
   else []).

Definition create_action (name : string) (desiredDevnet : YAMLDevnet) : Action :=
  let spec := yd_Spec desiredDevnet in
  mkAction ActionCreate "devnet" name
    ("Create devnet " +:+ name +:+ " with " +:+ itoa (ys_Validators spec) +:+ " validators")
    {["network" := DString (ys_Network spec); "validators" := DInt (ys_Validators spec);
      "mode" := DString (ys_Mode spec)]}.

Definition delete_action (name : string) : Action :=
  mkAction ActionDelete "devnet" name ("Delete devnet " +:+ name) ∅.

(** What is to be done for a desired devnet. *)
Definition desired_actions (current : State) (name : string) (desiredDevnet : YAMLDevnet) : list Action :=
  match current !! name with
  | None => [create_action name desiredDevnet]
  | Some currentDevnet => compareDevnets currentDevnet desiredDevnet
  end.

Section calculate.
Context `{MapRange}.

Definition Calculate (now : Time) (current desired : State) : Plan :=
  let '(devnetName, actions) := foldl (λ '(devnetName, actions) '(name, desiredDevnet),
      let more := desired_actions current name desiredDevnet in
      (match more with [] => devnetName | _ => name end, actions ++ more))
    ("", []) (range desired) in
  let deletes := concat ((λ '(name, _), if bool_decide (desired !! name = None) then [delete_action name]
                                        else []) <$> range current) in
  mkPlan devnetName (actions ++ deletes) now.
End calculate.

(** ** The changes between two states

    What an action of a plan stands for: its type, its devnet and its details. *)

Inductive change (current desired : State) : ActionType → string → gmap string detail → Prop :=
| create_missing k d :
    desired !! k = Some d → current !! k = None →
    change current desired ActionCreate k
      {["network" := DString (ys_Network (yd_Spec d)); "validators" := DInt (ys_Validators (yd_Spec d));
        "mode" := DString (ys_Mode (yd_Spec d))]}
| delete_unwanted k c :
    current !! k = Some c → desired !! k = None →
    change current desired ActionDelete k ∅
| scale_validators k c d :
    current !! k = Some c → desired !! k = Some d →
    ys_Validators (yd_Spec c) ≠ ys_Validators (yd_Spec d) →
    change current desired ActionScale k
      {["from" := DInt (ys_Validators (yd_Spec c)); "to" := DInt (ys_Validators (yd_Spec d))]}
| upgrade_version k c d :
    current !! k = Some c → desired !! k = Some d →
    ys_NetworkVersion (yd_Spec c) ≠ ys_NetworkVersion (yd_Spec d) → ys_NetworkVersion (yd_Spec d) ≠ "" →
    change current desired ActionUpgrade k
      {["from" := DString (ys_NetworkVersion (yd_Spec c)); "to" := DString (ys_NetworkVersion (yd_Spec d))]}
| change_mode k c d :
    current !! k = Some c → desired !! k = Some d →
    ys_Mode (yd_Spec c) ≠ ys_Mode (yd_Spec d) → ys_Mode (yd_Spec d) ≠ "" → ys_Mode (yd_Spec c) ≠ "" →
    change current desired ActionUpdate k
      {["from" := DString (ys_Mode (yd_Spec c)); "to" := DString (ys_Mode (yd_Spec d));
        "requiresRecreate" := DBool true]}.

(** The change an action stands for. *)
Definition stands_for (a : Action) : ActionType * string * gmap string detail :=
  (ac_Type a, ac_Name a, ac_Details a).

(** The devnets are stored under their names. *)
Definition named (s : State) : Prop := map_Forall (λ name d, ym_Name (yd_Metadata d) = name) s.

Lemma compareDevnets_names current desired :
  Forall (λ a, ac_Name a = ym_Name (yd_Metadata desired)) (compareDevnets current desired).
Proof. unfold compareDevnets. repeat apply Forall_app_2; repeat case_match; repeat constructor. Qed.

(** The comparison finds nothing. *)
Lemma compareDevnets_nil current desired : compareDevnets current desired = [] ↔
  let cs := yd_Spec current in let ds := yd_Spec desired in
  ys_Validators cs = ys_Validators ds ∧
  (ys_NetworkVersion cs = ys_NetworkVersion ds ∨ ys_NetworkVersion ds = "") ∧
  (ys_Mode cs = ys_Mode ds ∨ ys_Mode ds = "" ∨ ys_Mode cs = "").
Proof.
  unfold compareDevnets. cbv zeta. rewrite !app_nil.
  repeat case_bool_decide; simpl; naive_solver.
Qed.

Lemma foldl_actions current (l : list (string * YAMLDevnet)) n acc :
  (foldl (λ '(devnetName, actions) '(name, desiredDevnet),
      let more := desired_actions current name desiredDevnet in
      (match more with [] => devnetName | _ => name end, actions ++ more)) (n, acc) l).2 =
    acc ++ concat ((λ '(name, d), desired_actions current name d) <$> l).
Proof.
  revert n acc; induction l as [|[k d] l IH]; intros n acc; simpl; [by rewrite app_nil_r|].
  by rewrite IH, app_assoc.
Qed.

Lemma filter_named (l : list Action) name k :
  Forall (λ a, ac_Name a = name) l →
  filter (λ a, ac_Name a = k) l = if decide (name = k) then l else [].
Proof.
  induction 1 as [|a l Ha _ IH]; [by destruct (decide _)|]. rewrite filter_cons, IH, Ha.
  by destruct (decide (name = k)).
Qed.

(** The actions of a devnet, in lists that are built devnet by devnet. *)
Lemma filter_by_name {V} (f : string → V → list Action) (l : list (string * V)) k :
  NoDup l.*1 → (∀ name v, (name, v) ∈ l → Forall (λ a, ac_Name a = name) (f name v)) →
  filter (λ a, ac_Name a = k) (concat ((λ '(name, v), f name v) <$> l)) =
    match (list_to_map l : gmap string V) !! k with Some v => f k v | None => [] end.
Proof.
  induction l as [|[name v] l IH]; intros Hnd Hn; [by rewrite list_to_map_nil, lookup_empty|].
  rewrite fmap_cons, list_to_map_cons. cbn [concat]. rewrite fmap_cons in Hnd. apply NoDup_cons in Hnd as [Hnin Hnd]. rewrite filter_app, IH by (done || set_solver).
  rewrite (filter_named _ name) by (apply Hn; left). destruct (decide (name = k)) as [->|Hne].
  - rewrite lookup_insert_eq, not_elem_of_list_to_map_1 by done. by rewrite app_nil_r.
  - by rewrite lookup_insert_ne by done.
Qed.

(** Actions that differ in type wherever they agree in name are different. *)
Lemma NoDup_by_name (l : list Action) :
  (∀ k, NoDup (ac_Type <$> filter (λ a, ac_Name a = k) l)) → NoDup ((λ a, (ac_Type a, ac_Name a)) <$> l).
Proof.
  induction l as [|a l IH]; intros Hl; [constructor|]. rewrite fmap_cons. constructor.
  - intros (b & [= Ht Hn] & Hb)%list_elem_of_fmap. specialize (Hl (ac_Name a)).
    rewrite filter_cons_True, fmap_cons in Hl by done. apply NoDup_cons in Hl as [Hl _]. apply Hl.
    rewrite Ht. apply list_elem_of_fmap_2, list_elem_of_filter. done.
  - apply IH. intros k. specialize (Hl k). rewrite filter_cons in Hl.
    destruct (decide _); [|done]. by apply NoDup_cons in Hl as [_ ?].
Qed.

Lemma compareDevnets_types current desired : NoDup (ac_Type <$> compareDevnets current desired).
Proof.
  unfold compareDevnets. rewrite !fmap_app. repeat case_bool_decide; simpl;
  repeat (constructor; [set_solver|]); constructor.
Qed.

(** The devnet a plan is named after. *)
Lemma foldl_devnetName current (l : list (string * YAMLDevnet)) n acc :
  let r := foldl (λ '(devnetName, actions) '(name, desiredDevnet),
      let more := desired_actions current name desiredDevnet in
      (match more with [] => devnetName | _ => name end, actions ++ more)) (n, acc) l in
  (∃ d, (r.1, d) ∈ l ∧ desired_actions current r.1 d ≠ []) ∨ r = (n, acc).
Proof.
  revert n acc; induction l as [|[k d] l IH]; intros n acc; cbv zeta in *; [by right|]. cbn [foldl].
  destruct (IH (match desired_actions current k d with [] => n | _ => k end)
    (acc ++ desired_actions current k d)) as [(d' & Hin & Hne)|Hr].
  - left. exists d'. split; [by right|done].
  - rewrite Hr. cbn [fst]. destruct (desired_actions current k d) eqn:E; [right; by rewrite app_nil_r|].
    left. exists d. split; [by left|by rewrite E].
Qed.

Lemma NoDup_range `{MapRange} {V} (m : gmap string V) : NoDup (range m).*1.
Proof. rewrite range_perm. apply NoDup_fst_map_to_list. Qed.

Lemma list_to_map_range `{MapRange} {V} (m : gmap string V) : list_to_map (range m) = m.
Proof.
  transitivity (list_to_map (map_to_list m) : gmap string V); [|apply list_to_map_to_list].
  apply list_to_map_proper; [apply NoDup_range|apply range_perm].
Qed.

Section plan.
Context `{MapRange}.
Variables (now : Time) (current desired : State).
Hypothesis Hnamed : named desired.

(** The actions of the plan on one devnet. *)
Lemma plan_actions k :
  filter (λ a, ac_Name a = k) (pl_Actions (Calculate now current desired)) =
    match desired !! k with
    | Some d => desired_actions current k d
    | None => match current !! k with Some _ => [delete_action k] | None => [] end
    end.
Proof.
  unfold Calculate. pose proof (foldl_actions current (range desired) "" []) as Hf.
  destruct (foldl _ ("", []) (range desired)) as [n acts]. simpl in Hf. subst acts. cbn [pl_Actions].
  rewrite filter_app, (filter_by_name (desired_actions current)), (filter_by_name
    (λ name _, if bool_decide (desired !! name = None) then [delete_action name] else [])).
  - rewrite !list_to_map_range. destruct (desired !! k) as [d|] eqn:Hd.
    + rewrite bool_decide_false by done. destruct (current !! k); by rewrite app_nil_r.
    + by destruct (current !! k).
  - apply NoDup_range.
  - intros name v _. case_bool_decide; repeat constructor.
  - apply NoDup_range.
  - intros name d Hin%elem_of_range. unfold desired_actions. destruct (current !! name); [|repeat constructor].
    specialize (Hnamed _ _ Hin). simpl in Hnamed. rewrite <- Hnamed. apply compareDevnets_names.
Qed.
End plan.

(** An action of a list that is written out. *)
Ltac listed :=
  solve [eexists; split; [apply list_elem_of_here|reflexivity]
        |eexists; split; [apply list_elem_of_further, list_elem_of_here|reflexivity]
        |eexists; split; [do 2 apply list_elem_of_further; apply list_elem_of_here|reflexivity]].

(** The actions on one devnet are the changes of it. *)
Lemma desired_actions_change current desired k d t det :
  named desired → desired !! k = Some d →
  change current desired t k det ↔ ∃ a, a ∈ desired_actions current k d ∧ stands_for a = (t, k, det).
Proof.
  intros Hn Hd. pose proof (Hn _ _ Hd) as Hk. simpl in Hk. unfold desired_actions.
  destruct (current !! k) as [c|] eqn:Hc.
  - split.
    + intros Hch. inversion Hch; simplify_eq; unfold compareDevnets;
        repeat case_bool_decide; try done; simpl; listed.
    + intros (a & Ha & [= <- _ <-]). unfold compareDevnets in Ha.
      rewrite !elem_of_app in Ha. repeat case_bool_decide; simpl in Ha;
        rewrite ?list_elem_of_singleton, ?elem_of_nil in Ha; destruct_or?; try done; subst a;
        by econstructor.
  - clear Hk. split.
    + intros Hch. inversion Hch; simplify_eq. by exists (create_action k d); split; [left|].
    + intros (a & ->%list_elem_of_singleton & [= <- <-]). by constructor.
Qed.

Section difference.
Context `{MapRange}.
Variables (now : Time) (current desired : State).
Hypothesis Hnamed : named desired.
#[local] Abbreviation plan := (Calculate now current desired).

Lemma plan_changes t k det :
  change current desired t k det ↔ ∃ a, a ∈ pl_Actions plan ∧ stands_for a = (t, k, det).
Proof.
  transitivity (∃ a, a ∈ filter (λ a, ac_Name a = k) (pl_Actions plan) ∧ stands_for a = (t, k, det)).
  - rewrite plan_actions by done. destruct (desired !! k) as [d|] eqn:Hd; [by apply desired_actions_change|].
    destruct (current !! k) as [c|] eqn:Hc.
    + split; [intros Hch; inversion Hch; simplify_eq; exists (delete_action k); by split; [left|]|].
      intros (a & ->%list_elem_of_singleton & [= <- <-]). by econstructor.
    + split; [intros Hch; inversion Hch; simplify_eq|]. by intros (a & ?%elem_of_nil & _).
  - split; intros (a & Ha & Hs); exists a; (split; [|done]).
    + by apply list_elem_of_filter in Ha as [_ ?].
    + apply list_elem_of_filter. by injection Hs.
Qed.

Lemma plan_NoDup : NoDup ((λ a, (ac_Type a, ac_Name a)) <$> pl_Actions plan).
Proof.
  apply NoDup_by_name. intros k. rewrite plan_actions by done.
  destruct (desired !! k) as [d|]; unfold desired_actions;
    destruct (current !! k) as [c|]; [apply compareDevnets_types|..]; apply NoDup_singleton || constructor.
Qed.

(** Deletions come last, and do not give the plan its name. *)
Lemma plan_shape : ∃ first last, pl_Actions plan = first ++ last ∧
  Forall (λ a, ac_Type a ≠ ActionDelete) first ∧ Forall (λ a, ac_Type a = ActionDelete) last ∧
  if bool_decide (first = []) then pl_DevnetName plan = ""
  else ∃ a, a ∈ first ∧ ac_Name a = pl_DevnetName plan.
Proof.
  unfold Calculate. pose proof (foldl_actions current (range desired) "" []) as Hf.
  pose proof (foldl_devnetName current (range desired) "" []) as Hd.
  destruct (foldl _ ("", []) (range desired)) as [n acts]. cbn [fst snd app] in Hf, Hd. cbn [pl_Actions pl_DevnetName].
  eexists acts, _. split; [reflexivity|]. split_and!.
  - rewrite Hf. apply Forall_concat, Forall_fmap, Forall_true. intros [name d]. simpl. unfold desired_actions, compareDevnets.
    repeat case_match; repeat apply Forall_app_2; repeat case_match; by repeat constructor.
  - apply Forall_concat, Forall_fmap, Forall_true. intros [name d]. simpl.
    case_bool_decide; by repeat constructor.
  - destruct Hd as [(d & Hin & Hne)|[= -> Hacts]]; [|by rewrite bool_decide_true].
    destruct (desired_actions current n d) as [|a more] eqn:Ea; [done|].
    assert (Ha : a ∈ acts).
    { rewrite Hf. apply list_elem_of_In, in_concat. exists (desired_actions current n d).
      split; apply list_elem_of_In; [apply list_elem_of_fmap; by exists (n, d)|rewrite Ea; by left]. }
    rewrite bool_decide_false by (intros ->; by apply elem_of_nil in Ha). exists a. split; [done|].
    assert (Hk : Forall (λ a, ac_Name a = n) (desired_actions current n d)).
    { apply elem_of_range in Hin. specialize (Hnamed _ _ Hin). simpl in Hnamed. unfold desired_actions.
      destruct (current !! n); [rewrite <- Hnamed; apply compareDevnets_names|by repeat constructor]. }
    rewrite Ea in Hk. by inversion Hk.
Qed.
End difference.

(** C39: A plan is the difference of the two states, no more and no less.  Its actions
    stand for exactly the changes between the current and the desired devnets: a creation
    for each that is missing and a deletion for each that is not wanted, and for one that
    is both a scaling, an upgrade or a change of mode, from the value that is to the one
    that is wanted, when its validators, its version or its mode differ -- the last two
    only if one is asked for, and the mode only if there was one.  No change is listed twice, deletions come last, and a plan
    is empty exactly when there is no change.  It is named after a devnet that it creates
    or changes, so one that only deletes has no name.  The order in which the maps are
    visited orders the actions, nothing else.  The desired devnets are taken to be stored
    under the names of their metadata. *)
Theorem plan_is_the_difference `{R1 : MapRange} (R2 : MapRange) now current desired :
  named desired →
  let plan := @Calculate R1 now current desired in
  (∀ t k det, change current desired t k det ↔ ∃ a, a ∈ pl_Actions plan ∧ stands_for a = (t, k, det)) ∧
  NoDup ((λ a, (ac_Type a, ac_Name a)) <$> pl_Actions plan) ∧
  (∃ first last, pl_Actions plan = first ++ last ∧
     Forall (λ a, ac_Type a ≠ ActionDelete) first ∧ Forall (λ a, ac_Type a = ActionDelete) last ∧
     if bool_decide (first = []) then pl_DevnetName plan = ""
     else ∃ a, a ∈ first ∧ ac_Name a = pl_DevnetName plan) ∧
  (IsEmpty plan = true ↔ ∀ t k det, ¬ change current desired t k det) ∧
  pl_Actions plan ≡ₚ pl_Actions (@Calculate R2 now current desired).
Proof.
  intros Hn. cbv zeta. split_and!; [by apply plan_changes|by apply plan_NoDup|by apply plan_shape|..].
  - unfold IsEmpty. rewrite bool_decide_eq_true. split.
    + intros He t k det Hc. apply (@plan_changes R1 now) in Hc as (a & Ha & _); [|done].
      apply length_zero_iff_nil in He. rewrite He in Ha. by apply elem_of_nil in Ha.
    + intros Hc. destruct (pl_Actions _) as [|a l] eqn:E; [done|]. exfalso.
      apply (Hc (ac_Type a) (ac_Name a) (ac_Details a)). apply (@plan_changes R1 now); [done|].
      exists a. split; [|done]. rewrite E. by left.
  - apply NoDup_Permutation; [apply (NoDup_fmap_1 (λ a, (ac_Type a, ac_Name a))), plan_NoDup; done..|].
    assert (Hf : ∀ R (a : Action), a ∈ pl_Actions (@Calculate R now current desired) ↔
        a ∈ match desired !! ac_Name a with
            | Some d => desired_actions current (ac_Name a) d
            | None => match current !! ac_Name a with Some _ => [delete_action (ac_Name a)] | None => [] end
            end).
    { intros R a. rewrite <- (@plan_actions R now current desired Hn (ac_Name a)), list_elem_of_filter. tauto. }
    intros a. by rewrite !Hf.
Qed.

(** The comparison looks at three fields only, and an empty one asks for nothing: a
    desired devnet of another network, another number of full nodes or other genesis
    options is no change. *)
Theorem other_fields_are_no_change c d :
  ys_Validators (yd_Spec c) = ys_Validators (yd_Spec d) →
  ys_NetworkVersion (yd_Spec d) = "" → ys_Mode (yd_Spec d) = "" → compareDevnets c d = [].
Proof. intros Hv Hn Hm. apply compareDevnets_nil. auto. Qed.

(** ** Samples *)

#[local] Existing Instance some_order.

Definition ex_wanted (name : string) (validators : Z) (version : string) : YAMLDevnet :=
  mkYAMLDevnet SupportedAPIVersion SupportedKind (mkYAMLMetadata name "" ∅ ∅)
    (mkYAMLDevnetSpec "stable" "" version "local" validators 0 0 None [] None "" "" "" "").

Definition ex_now : State := {["a" := ex_wanted "a" 2 "v1"; "b" := ex_wanted "b" 1 ""]}.
Definition ex_then : State := {["a" := ex_wanted "a" 4 "v2"; "c" := ex_wanted "c" 1 ""]}.

Example ex_plan : Summary (Calculate 0 ex_now ex_then) = (1, 2, 1)%Z.
Proof. vm_compute. reflexivity. Qed.

Lemma plan_is_the_difference_witness :
  (∃ a, a ∈ pl_Actions (Calculate 0 ex_now ex_then) ∧
     stands_for a = (ActionScale, "a", {["from" := DInt 2; "to" := DInt 4]})) ∧
  IsEmpty (Calculate 0 ex_now ex_then) = false.
Proof.
  assert (Hn : named ex_then) by (apply map_Forall_to_list; vm_compute; repeat constructor).
  destruct (plan_is_the_difference some_order 0 ex_now ex_then Hn) as (Hc & _ & _ & _ & _).
  split; [|reflexivity]. apply Hc.
  by apply (scale_validators _ _ "a" (ex_wanted "a" 2 "v1") (ex_wanted "a" 4 "v2")).
Defined.
