(* ===== verification/DaemonConfig.v ===== *)
(** * The configuration of the daemon
    ([internal/daemon/config], [cmd/devnetd/main.go])

    Defaults, the file devnetd.toml, the environment and the flags, in rising priority,
    and the validation of the result.  What the file holds, once decoded, the environment
    and the file system are arguments; [time.ParseDuration] is an interface. *)

From stdpp Require Import base tactics numbers list strings.
From S2P Require Import Prelude Types Store Paths YamlConfig.

Class ParseDuration := parse_duration : string → result Duration.

(** ** The configuration *)

Record ServerConfig := mkServerConfig {
  sc_Socket : string;
  sc_DataDir : string;
  sc_LogLevel : string;
  sc_Workers : Z;
  sc_Foreground : bool;
  sc_RuntimeMode : string;
  sc_Listen : string;
  sc_TLSCert : string;
  sc_TLSKey : string
}.

Record AuthConfig := mkAuthConfig {
  au_Enabled : bool;
  au_KeysFile : string
}.

Record DockerConfig := mkDockerConfig {
  dk_Enabled : bool;
  dk_Image : string
}.

Record TimeoutConfig := mkTimeoutConfig {
  tc_Shutdown : Duration;
  tc_HealthCheck : Duration;
  tc_SnapshotDownload : Duration
}.

Record SnapshotConfig := mkSnapshotConfig {
  sn_CacheTTL : Duration;
  sn_MaxRetries : Z;
  sn_RetryDelay : Duration
}.

Record NetworkConfig := mkNetworkConfig {
  nc_PortOffset : Z;
  nc_BaseRPCPort : Z;
  nc_BaseP2PPort : Z;
  nc_BaseRESTPort : Z;
  nc_BaseGRPCPort : Z
}.

Record Config := mkConfig {
  cfg_Server : ServerConfig;
  cfg_Auth : AuthConfig;
  cfg_Docker : DockerConfig;
  cfg_GitHub_Token : string;
  cfg_Timeouts : TimeoutConfig;
  cfg_Snapshot : SnapshotConfig;
  cfg_Network : NetworkConfig
}.

(** [home] is what [os.UserHomeDir] answers, empty on an error. *)
Definition DefaultDataDir (home : string) : string := Join [home; ".devnet-builder"].

Definition DefaultConfig (home : string) : Config :=
  let dataDir := DefaultDataDir home in
  mkConfig
    (mkServerConfig (Join [dataDir; "devnetd.sock"]) dataDir "info" 2 true "process" "" "" "")
    (mkAuthConfig true (Join [dataDir; "api-keys.yaml"]))
    (mkDockerConfig false "stablelabs/stabled:latest") ""
    (mkTimeoutConfig (30 * second) (5 * second) (30 * minute))
    (mkSnapshotConfig (30 * minute) 3 (5 * second))
    (mkNetworkConfig 100 26657 26656 1317 9090).

(** ** The file *)

Record FileServerConfig := mkFileServerConfig {
  fs_Socket : option string;
  fs_DataDir : option string;
  fs_LogLevel : option string;
  fs_Workers : option Z;
  fs_Foreground : option bool;
  fs_RuntimeMode : option string;
  fs_Listen : option string;
  fs_TLSCert : option string;
  fs_TLSKey : option string
}.

Record FileTimeoutConfig := mkFileTimeoutConfig {
  ft_Shutdown : option string;
  ft_HealthCheck : option string;
  ft_SnapshotDownload : option string
}.

Record FileSnapshotConfig := mkFileSnapshotConfig {
  fn_CacheTTL : option string;
  fn_MaxRetries : option Z;
  fn_RetryDelay : option string
}.

Record FileNetworkConfig := mkFileNetworkConfig {
  fk_PortOffset : option Z;
  fk_BaseRPCPort : option Z;
  fk_BaseP2PPort : option Z;
  fk_BaseRESTPort : option Z;
  fk_BaseGRPCPort : option Z
}.

Record FileConfig := mkFileConfig {
  fc_Server : FileServerConfig;
  fc_Auth_Enabled : option bool;
  fc_Auth_KeysFile : option string;
  fc_Docker_Enabled : option bool;
  fc_Docker_Image : option string;
  fc_GitHub_Token : option string;
  fc_Timeouts : FileTimeoutConfig;
  fc_Snapshot : FileSnapshotConfig;
  fc_Network : FileNetworkConfig
}.

Definition unset {A} (o : option A) : bool := match o with Some _ => false | None => true end.

Definition IsEmpty (f : FileConfig) : bool :=
  let s := fc_Server f in let t := fc_Timeouts f in let n := fc_Snapshot f in let k := fc_Network f in
  unset (fs_Socket s) && unset (fs_DataDir s) && unset (fs_LogLevel s) && unset (fs_Workers s) &&
  unset (fs_Foreground s) && unset (fs_RuntimeMode s) &&
  unset (fc_Auth_Enabled f) && unset (fc_Auth_KeysFile f) &&
  unset (fc_Docker_Enabled f) && unset (fc_Docker_Image f) && unset (fc_GitHub_Token f) &&
  unset (ft_Shutdown t) && unset (ft_HealthCheck t) && unset (ft_SnapshotDownload t) &&
  unset (fn_CacheTTL n) && unset (fn_MaxRetries n) && unset (fn_RetryDelay n) &&
  unset (fk_PortOffset k) && unset (fk_BaseRPCPort k) && unset (fk_BaseP2PPort k) &&
  unset (fk_BaseRESTPort k) && unset (fk_BaseGRPCPort k).

(** [v] if there is one, and [d] otherwise. *)
Definition or_else {A} (v : option A) (d : A) : A := match v with Some x => x | None => d end.

Lemma DefaultDataDir_nonempty home : DefaultDataDir home ≠ "".
Proof.
  intros E. unfold DefaultDataDir in E. pose proof (Join_base home ".devnet-builder") as Hb.
  rewrite E in Hb. by specialize (Hb ltac:(split_and!; vm_compute; done)).
Qed.

(** A file: missing, unreadable, not TOML, or decoded. *)
Inductive config_file := NoFile | Unreadable (e : error) | NotTOML (e : error) | Decoded (file : FileConfig).

Section loader.
Context `{ParseDuration}.
(** [os.Getenv]: empty for a variable that is not set. *)
Variable getenv : string → string.

(** A text that does not parse is passed over. *)
Definition parsed_duration (text : option string) : option Duration :=
  match text with
  | Some s => match parse_duration s with Ok d => Some d | Err _ => None end
  | None => None
  end.

Definition mergeFileConfig (cfg : Config) (file : FileConfig) : Config :=
  let s := cfg_Server cfg in let fs := fc_Server file in
  let t := cfg_Timeouts cfg in let ft := fc_Timeouts file in
  let n := cfg_Snapshot cfg in let fn := fc_Snapshot file in
  let k := cfg_Network cfg in let fk := fc_Network file in
  mkConfig
    (mkServerConfig (or_else (fs_Socket fs) (sc_Socket s)) (or_else (fs_DataDir fs) (sc_DataDir s))
       (or_else (fs_LogLevel fs) (sc_LogLevel s)) (or_else (fs_Workers fs) (sc_Workers s))
       (or_else (fs_Foreground fs) (sc_Foreground s)) (or_else (fs_RuntimeMode fs) (sc_RuntimeMode s))
       (or_else (fs_Listen fs) (sc_Listen s)) (or_else (fs_TLSCert fs) (sc_TLSCert s))
       (or_else (fs_TLSKey fs) (sc_TLSKey s)))
    (mkAuthConfig (or_else (fc_Auth_Enabled file) (au_Enabled (cfg_Auth cfg)))
       (or_else (fc_Auth_KeysFile file) (au_KeysFile (cfg_Auth cfg))))
    (mkDockerConfig (or_else (fc_Docker_Enabled file) (dk_Enabled (cfg_Docker cfg)))
       (or_else (fc_Docker_Image file) (dk_Image (cfg_Docker cfg))))
    (or_else (fc_GitHub_Token file) (cfg_GitHub_Token cfg))
    (mkTimeoutConfig (or_else (parsed_duration (ft_Shutdown ft)) (tc_Shutdown t))
       (or_else (parsed_duration (ft_HealthCheck ft)) (tc_HealthCheck t))
       (or_else (parsed_duration (ft_SnapshotDownload ft)) (tc_SnapshotDownload t)))
    (mkSnapshotConfig (or_else (parsed_duration (fn_CacheTTL fn)) (sn_CacheTTL n))
       (or_else (fn_MaxRetries fn) (sn_MaxRetries n))
       (or_else (parsed_duration (fn_RetryDelay fn)) (sn_RetryDelay n)))
    (mkNetworkConfig (or_else (fk_PortOffset fk) (nc_PortOffset k))
       (or_else (fk_BaseRPCPort fk) (nc_BaseRPCPort k)) (or_else (fk_BaseP2PPort fk) (nc_BaseP2PPort k))
       (or_else (fk_BaseRESTPort fk) (nc_BaseRESTPort k)) (or_else (fk_BaseGRPCPort fk) (nc_BaseGRPCPort k))).

(** ** The environment *)

Definition env (name : string) : option string :=
  if bool_decide (getenv name = "") then None else Some (getenv name).

Definition env_int (name : string) : option Z :=
  match env name with
  | Some v => match atoi v with Ok i => Some i | Err _ => None end
  | None => None
  end.

Definition env_bool (name : string) : option bool :=
  (λ v, bool_decide (v = "true") || bool_decide (v = "1")) <$> env name.

Definition applyEnvVars (cfg : Config) : Config :=
  let s := cfg_Server cfg in
  let t := cfg_Timeouts cfg in
  mkConfig
    (mkServerConfig (or_else (env "DEVNETD_SOCKET") (sc_Socket s))
       (or_else (env "DEVNETD_DATA_DIR") (sc_DataDir s)) (or_else (env "DEVNETD_LOG_LEVEL") (sc_LogLevel s))
       (or_else (env_int "DEVNETD_WORKERS") (sc_Workers s))
       (or_else (env_bool "DEVNETD_FOREGROUND") (sc_Foreground s))
       (or_else (env "DEVNETD_RUNTIME_MODE") (sc_RuntimeMode s))
       (or_else (env "DEVNETD_LISTEN") (sc_Listen s)) (or_else (env "DEVNETD_TLS_CERT") (sc_TLSCert s))
       (or_else (env "DEVNETD_TLS_KEY") (sc_TLSKey s)))
    (mkAuthConfig (or_else (env_bool "DEVNETD_AUTH_ENABLED") (au_Enabled (cfg_Auth cfg)))
       (or_else (env "DEVNETD_AUTH_KEYS_FILE") (au_KeysFile (cfg_Auth cfg))))
    (mkDockerConfig (or_else (env_bool "DEVNETD_DOCKER_ENABLED") (dk_Enabled (cfg_Docker cfg)))
       (or_else (env "DEVNETD_DOCKER_IMAGE") (dk_Image (cfg_Docker cfg))))
    (or_else (env "DEVNETD_GITHUB_TOKEN") (cfg_GitHub_Token cfg))
    (mkTimeoutConfig (or_else (parsed_duration (env "DEVNETD_SHUTDOWN_TIMEOUT")) (tc_Shutdown t))
       (or_else (parsed_duration (env "DEVNETD_HEALTH_CHECK_TIMEOUT")) (tc_HealthCheck t))
       (tc_SnapshotDownload t))
    (cfg_Snapshot cfg) (cfg_Network cfg).

(** ** The loader *)

Record Loader := mkLoader { ld_dataDir : string; ld_configPath : string }.

Variable home : string.
(** What reading and decoding a file gives. *)
Variable read_config : string → config_file.

Definition config_path (l : Loader) : string :=
  if bool_decide (ld_configPath l = "") then Join [ld_dataDir l; "devnetd.toml"] else ld_configPath l.

Definition loadFile (l : Loader) : result (option FileConfig) :=
  match read_config (config_path l) with
  | NoFile => Ok None
  | Unreadable e => Err (Wrap "failed to read config file" e)
  | NotTOML e => Err (Wrap ("invalid TOML in " +:+ config_path l) e)
  | Decoded file => Ok (Some file)
  end.

(** The defaults with the loader's data directory. *)
Definition base_config (l : Loader) : Config :=
  let cfg := DefaultConfig home in
  if bool_decide (ld_dataDir l = "") then cfg
  else
    let s := cfg_Server cfg in
    mkConfig (mkServerConfig (Join [ld_dataDir l; "devnetd.sock"]) (ld_dataDir l) (sc_LogLevel s) (sc_Workers s)
                (sc_Foreground s) (sc_RuntimeMode s) (sc_Listen s) (sc_TLSCert s) (sc_TLSKey s))
      (cfg_Auth cfg) (cfg_Docker cfg) (cfg_GitHub_Token cfg) (cfg_Timeouts cfg) (cfg_Snapshot cfg)
      (cfg_Network cfg).

Definition Load (l : Loader) : result Config :=
  let cfg := base_config l in
  match loadFile l with
  | Err e => Err e
  | Ok None => Ok (applyEnvVars cfg)
  | Ok (Some file) => Ok (applyEnvVars (mergeFileConfig cfg file))
  end.

(** ** Validation *)

(** [os.Stat] finds nothing there. *)
Variable missing : string → bool.

Definition port_errors (name : string) (port : Z) : list string :=
  add_if (bool_decide (port < 1)%Z || bool_decide (65535 < port)%Z) (name +:+ " must be between 1 and 65535").

Definition end_line : string := String (Ascii.ascii_of_nat 10) EmptyString.

(** What is wrong with a configuration. *)
Definition config_errors (cfg : Config) : list string :=
  let s := cfg_Server cfg in let t := cfg_Timeouts cfg in
  let n := cfg_Snapshot cfg in let k := cfg_Network cfg in
  let mode := sc_RuntimeMode s in
    add_if (negb (existsb (λ l, bool_decide (sc_LogLevel s = l)) ["debug"; "info"; "warn"; "error"]))
      ("invalid log_level " +:+ quote (sc_LogLevel s) +:+ " (must be one of: debug, info, warn, error)") ++
    add_if (negb (bool_decide (mode = "process") || bool_decide (mode = "service") || bool_decide (mode = "docker")))
      ("invalid runtime_mode " +:+ quote mode +:+ " (must be one of: process, service, docker)") ++
    add_if (bool_decide (sc_Workers s < 1)%Z) "workers must be at least 1" ++
    (if bool_decide (sc_Listen s = "") then []
     else add_if (bool_decide (sc_TLSCert s = "")) "tls_cert is required when listen is set" ++
          add_if (bool_decide (sc_TLSKey s = "")) "tls_key is required when listen is set" ++
          add_if (negb (bool_decide (sc_TLSCert s = "")) && missing (sc_TLSCert s))
            ("tls_cert file not found: " +:+ sc_TLSCert s) ++
          add_if (negb (bool_decide (sc_TLSKey s = "")) && missing (sc_TLSKey s))
            ("tls_key file not found: " +:+ sc_TLSKey s)) ++
    add_if (bool_decide (tc_Shutdown t < 0)%Z) "shutdown timeout must be non-negative" ++
    add_if (bool_decide (tc_HealthCheck t < 0)%Z) "health_check timeout must be non-negative" ++
    add_if (bool_decide (tc_SnapshotDownload t < 0)%Z) "snapshot_download timeout must be non-negative" ++
    add_if (bool_decide (sn_MaxRetries n < 0)%Z) "max_retries must be non-negative" ++
    add_if (bool_decide (sn_RetryDelay n < 0)%Z) "retry_delay must be non-negative" ++
    add_if (bool_decide (sn_CacheTTL n < 0)%Z) "cache_ttl must be non-negative" ++
    add_if (bool_decide (nc_PortOffset k < 0)%Z) "port_offset must be non-negative" ++
    port_errors "base_rpc_port" (nc_BaseRPCPort k) ++ port_errors "base_p2p_port" (nc_BaseP2PPort k) ++
    port_errors "base_rest_port" (nc_BaseRESTPort k) ++ port_errors "base_grpc_port" (nc_BaseGRPCPort k).

(** The error, and the configuration, in which the runtime docker turns Docker on. *)
Definition Validate (cfg : Config) : option error * Config :=
  let validated :=
    if bool_decide (sc_RuntimeMode (cfg_Server cfg) = "docker")
    then mkConfig (cfg_Server cfg) (cfg_Auth cfg) (mkDockerConfig true (dk_Image (cfg_Docker cfg)))
           (cfg_GitHub_Token cfg) (cfg_Timeouts cfg) (cfg_Snapshot cfg) (cfg_Network cfg)
    else cfg in
  match config_errors cfg with
  | [] => (None, validated)
  | errs => (Some (Errorf ("config validation failed:" +:+ end_line +:+ "  - " +:+
                        String.concat (end_line +:+ "  - ") errs)), validated)
  end.

(** ** The flags ([cmd/devnetd/main.go]) *)

(** The flags that were given. *)
Record Flags := mkFlags {
  fl_config : string;
  fl_socket : option string;
  fl_dataDir : option string;
  fl_logLevel : option string;
  fl_workers : option Z;
  fl_foreground : option bool;
  fl_runtime : option string;
  fl_docker : option bool;
  fl_dockerImage : option string;
  fl_listen : option string;
  fl_tlsCert : option string;
  fl_tlsKey : option string
}.

Definition applyFlagOverrides (f : Flags) (cfg : Config) : Config :=
  let s := cfg_Server cfg in
  mkConfig
    (mkServerConfig (or_else (fl_socket f) (sc_Socket s)) (or_else (fl_dataDir f) (sc_DataDir s))
       (or_else (fl_logLevel f) (sc_LogLevel s)) (or_else (fl_workers f) (sc_Workers s))
       (or_else (fl_foreground f) (sc_Foreground s)) (or_else (fl_runtime f) (sc_RuntimeMode s))
       (or_else (fl_listen f) (sc_Listen s)) (or_else (fl_tlsCert f) (sc_TLSCert s))
       (or_else (fl_tlsKey f) (sc_TLSKey s)))
    (cfg_Auth cfg)
    (mkDockerConfig (or_else (fl_docker f) (dk_Enabled (cfg_Docker cfg)))
       (or_else (fl_dockerImage f) (dk_Image (cfg_Docker cfg))))
    (cfg_GitHub_Token cfg) (cfg_Timeouts cfg) (cfg_Snapshot cfg) (cfg_Network cfg).

(** The configuration the daemon starts with. *)
Definition daemon_config (f : Flags) : result Config :=
  let dataDir := match fl_dataDir f with
                 | Some d => if bool_decide (d = "") then DefaultDataDir home else d
                 | None => DefaultDataDir home
                 end in
  match Load (mkLoader dataDir (fl_config f)) with
  | Err e => Err (Wrap "failed to load config" e)
  | Ok cfg =>
      match Validate (applyFlagOverrides f cfg) with
      | (None, cfg) => Ok cfg
      | (Some e, _) => Err e
      end
  end.

(** ** What the daemon starts with *)

Definition valid_port (p : Z) : Prop := (1 ≤ p ≤ 65535)%Z.

Definition valid_config (cfg : Config) : Prop :=
  sc_LogLevel (cfg_Server cfg) ∈ ["debug"; "info"; "warn"; "error"] ∧
  sc_RuntimeMode (cfg_Server cfg) ∈ ["process"; "service"; "docker"] ∧
  (1 ≤ sc_Workers (cfg_Server cfg))%Z ∧
  (sc_Listen (cfg_Server cfg) ≠ "" → sc_TLSCert (cfg_Server cfg) ≠ "" ∧ sc_TLSKey (cfg_Server cfg) ≠ "" ∧
     missing (sc_TLSCert (cfg_Server cfg)) = false ∧ missing (sc_TLSKey (cfg_Server cfg)) = false) ∧
  (0 ≤ tc_Shutdown (cfg_Timeouts cfg))%Z ∧ (0 ≤ tc_HealthCheck (cfg_Timeouts cfg))%Z ∧
  (0 ≤ tc_SnapshotDownload (cfg_Timeouts cfg))%Z ∧
  (0 ≤ sn_MaxRetries (cfg_Snapshot cfg))%Z ∧ (0 ≤ sn_RetryDelay (cfg_Snapshot cfg))%Z ∧
  (0 ≤ sn_CacheTTL (cfg_Snapshot cfg))%Z ∧ (0 ≤ nc_PortOffset (cfg_Network cfg))%Z ∧
  valid_port (nc_BaseRPCPort (cfg_Network cfg)) ∧ valid_port (nc_BaseP2PPort (cfg_Network cfg)) ∧
  valid_port (nc_BaseRESTPort (cfg_Network cfg)) ∧ valid_port (nc_BaseGRPCPort (cfg_Network cfg)).

Lemma port_errors_nil name p : port_errors name p = [] ↔ valid_port p.
Proof.
  unfold port_errors, valid_port. rewrite add_if_nil, orb_false_iff, !bool_decide_eq_false. lia.
Qed.

Lemma existsb_eq (x : string) l : existsb (λ y, bool_decide (x = y)) l = true ↔ x ∈ l.
Proof.
  rewrite existsb_exists. setoid_rewrite bool_decide_eq_true. setoid_rewrite <- list_elem_of_In.
  naive_solver.
Qed.

Lemma config_errors_nil cfg : config_errors cfg = [] ↔ valid_config cfg.
Proof.
  unfold config_errors, valid_config. cbv zeta. rewrite !app_nil, !add_if_nil, !port_errors_nil.
  rewrite !bool_decide_eq_false, !Z.nlt_ge, !negb_false_iff, existsb_eq, !orb_true_iff, !bool_decide_eq_true.
  assert (Hm : ∀ m : string, m ∈ ["process"; "service"; "docker"] ↔
    (m = "process" ∨ m = "service") ∨ m = "docker") by (intros; rewrite !elem_of_cons, elem_of_nil; tauto).
  rewrite Hm. case_bool_decide as Hl.
  - split; intros H0; decompose [and] H0; clear H0; split_and!; try done.
  - rewrite !app_nil, !add_if_nil, !bool_decide_eq_false, !andb_false_iff, !negb_false_iff, !bool_decide_eq_true.
    split; intros H0; decompose [and] H0; clear H0; split_and!; try done; intuition.
Qed.

(** The daemon starts with a valid configuration, or not at all; with the runtime docker,
    Docker is on. *)
Theorem daemon_config_valid f cfg : daemon_config f = Ok cfg →
  valid_config cfg ∧ (sc_RuntimeMode (cfg_Server cfg) = "docker" → dk_Enabled (cfg_Docker cfg) = true).
Proof.
  unfold daemon_config. destruct (Load _) as [c|e]; [|done]. unfold Validate.
  set (c1 := applyFlagOverrides f c). destruct (config_errors c1) eqn:He; [|done]. intros [= <-].
  apply config_errors_nil in He. case_bool_decide; by split.
Qed.

(** The first of the layers that says something. *)
Fixpoint first_of {A} (layers : list (option A)) (d : A) : A :=
  match layers with
  | [] => d
  | o :: rest => or_else o (first_of rest d)
  end.

(** The layers of a daemon that starts: a flag counts before the environment, the
    environment before the file, the file before the default.  A data directory moves the
    socket only if it is given as a flag, and never the file of the keys. *)
Theorem daemon_config_layers f cfg file :
  daemon_config f = Ok cfg → loadFile (mkLoader
    (first_of [fl_dataDir f ≫= (λ d, if bool_decide (d = "") then None else Some d)] (DefaultDataDir home))
    (fl_config f)) = Ok (Some file) →
  let s := cfg_Server cfg in
  let dir := first_of [fl_dataDir f ≫= (λ d, if bool_decide (d = "") then None else Some d)] (DefaultDataDir home) in
  sc_DataDir s = first_of [fl_dataDir f; env "DEVNETD_DATA_DIR"; fs_DataDir (fc_Server file)] dir ∧
  sc_Socket s = first_of [fl_socket f; env "DEVNETD_SOCKET"; fs_Socket (fc_Server file)] (Join [dir; "devnetd.sock"]) ∧
  sc_Workers s = first_of [fl_workers f; env_int "DEVNETD_WORKERS"; fs_Workers (fc_Server file)] 2%Z ∧
  sc_LogLevel s = first_of [fl_logLevel f; env "DEVNETD_LOG_LEVEL"; fs_LogLevel (fc_Server file)] "info" ∧
  sc_Listen s = first_of [fl_listen f; env "DEVNETD_LISTEN"; fs_Listen (fc_Server file)] "" ∧
  au_Enabled (cfg_Auth cfg) = first_of [env_bool "DEVNETD_AUTH_ENABLED"; fc_Auth_Enabled file] true ∧
  au_KeysFile (cfg_Auth cfg) = first_of [env "DEVNETD_AUTH_KEYS_FILE"; fc_Auth_KeysFile file]
    (Join [DefaultDataDir home; "api-keys.yaml"]).
Proof.
  assert (Hd : match fl_dataDir f with Some d => if bool_decide (d = "") then DefaultDataDir home else d
               | None => DefaultDataDir home end =
    first_of [fl_dataDir f ≫= (λ d, if bool_decide (d = "") then None else Some d)] (DefaultDataDir home)).
  { destruct (fl_dataDir f) as [d|]; simpl; [|done]. by case_bool_decide. }
  unfold daemon_config. rewrite Hd. clear Hd. set (dir := first_of _ _). unfold Load. intros Hc Hf.
  rewrite Hf in Hc. unfold Validate in Hc. destruct (config_errors _); [|done]. injection Hc as <-.
  assert (Hb : base_config (mkLoader dir (fl_config f)) =
    let c := DefaultConfig home in let s := cfg_Server c in
    if bool_decide (dir = "") then c else mkConfig (mkServerConfig (Join [dir; "devnetd.sock"]) dir (sc_LogLevel s)
      (sc_Workers s) (sc_Foreground s) (sc_RuntimeMode s) (sc_Listen s) (sc_TLSCert s) (sc_TLSKey s))
      (cfg_Auth c) (cfg_Docker c) (cfg_GitHub_Token c) (cfg_Timeouts c) (cfg_Snapshot c) (cfg_Network c)) by done.
  rewrite Hb. clear Hb Hf.
  assert (Hdir : dir ≠ "").
  { subst dir. destruct (fl_dataDir f) as [d|]; simpl; [case_bool_decide; simpl; [|done]|]; apply DefaultDataDir_nonempty. }
  rewrite (bool_decide_false _ Hdir). cbv zeta.
  case_bool_decide; cbn; split_and!; reflexivity.
Qed.
End loader.

(** A file that only names a listener counts as empty. *)
Example listener_counts_as_empty address cert key :
  IsEmpty (mkFileConfig (mkFileServerConfig None None None None None None (Some address) (Some cert) (Some key))
    None None None None None (mkFileTimeoutConfig None None None) (mkFileSnapshotConfig None None None)
    (mkFileNetworkConfig None None None None None)) = true.
Proof. done. Qed.

(** A sample: the data directory of the environment moves neither the socket nor the keys. *)
Example env_dir_moves_no_socket :
  let getenv := λ name, if bool_decide (name = "DEVNETD_DATA_DIR") then "/data" else "" in
  match daemon_config (H := λ _, Err (Errorf "")) getenv "/home/a" (λ _, NoFile) (λ _, false)
          (mkFlags "" None None None None None None None None None None None) with
  | Ok cfg => sc_DataDir (cfg_Server cfg) = "/data" ∧
      sc_Socket (cfg_Server cfg) = "/home/a/.devnet-builder/devnetd.sock" ∧
      au_KeysFile (cfg_Auth cfg) = "/home/a/.devnet-builder/api-keys.yaml"
  | Err _ => False
  end.
Proof. vm_compute. done. Qed.
