(* ===== verification/DvbContext.v ===== *)
(** * The current devnet of the command line ([internal/dvbcontext])

    The file that remembers a namespace and a devnet, what a command without them falls
    back to, and how a node is named.  The file is its content; what the file system, the
    daemon and the picker answer are arguments. *)

From Stdlib Require Import Ascii.
From stdpp Require Import base tactics numbers list strings gmap.
From S2P Require Import Prelude Types Store Paths Convert NodeConfig.

(** ** The context ([context.go]) *)

Record Context := mkContext { cx_Namespace : string; cx_Devnet : string }.

Definition Context_String (c : Context) : string := cx_Namespace c +:+ "/" +:+ cx_Devnet c.

Definition contextFilePath (home : result string) : result string :=
  match home with
  | Err e => Err (Wrap "failed to get home directory" e)
  | Ok home => Ok (Join [home; ".devnet-builder"; "context"])
  end.

Definition ParseRef (ref : string) : string * string :=
  let ref := TrimSpace ref in
  match split2 slash ref with
  | [namespace; devnet] => (namespace, devnet)
  | _ => ("default", ref)
  end.

(** [file] is the content of the file, if it exists; [failed] an error in reading it. *)
Definition load_context (home : result string) (failed : option error) (file : option string)
    : result (option Context) :=
  match contextFilePath home with
  | Err e => Err e
  | Ok _ =>
      match failed, file with
      | Some e, _ => Err (Wrap "failed to read context file" e)
      | None, None => Ok None
      | None, Some data =>
          let ref := TrimSpace data in
          if bool_decide (ref = "") then Ok None
          else let '(ns, devnet) := ParseRef ref in Ok (Some (mkContext ns devnet))
      end
  end.

(** What the file system answers to a save; a write that fails leaves any content. *)
Inductive save_answer := Saves | MkdirFails (e : error) | WriteFails (e : error) (remains : option string).

Definition save_context (home : result string) (answer : save_answer) (namespace devnet : string)
    (file : option string) : option error * option string :=
  match contextFilePath home with
  | Err e => (Some e, file)
  | Ok _ =>
      match answer with
      | MkdirFails e => (Some (Wrap "failed to create config directory" e), file)
      | WriteFails e remains => (Some (Wrap "failed to write context file" e), remains)
      | Saves => (None, Some (namespace +:+ "/" +:+ devnet +:+ String newline EmptyString))
      end
  end.

Definition clear_context (home : result string) (failed : option error) (file : option string)
    : option error * option string :=
  match contextFilePath home with
  | Err e => (Some e, file)
  | Ok _ =>
      match failed, file with
      | _, None => (None, None)
      | Some e, _ => (Some (Wrap "failed to clear context" e), file)
      | None, Some _ => (None, None)
      end
  end.

(** ** Resolution ([resolve.go]) *)

Definition ErrNoDevnet : error :=
  Errorf "no devnet specified and no context set. Run 'dvb use <devnet>' to set context".

(** The message of [NoDevnetError]. *)
Definition NoDevnetError (suggestion : string) : string :=
  "no devnet specified and no context set" +:+
  (if bool_decide (suggestion = "") then ". Run 'dvb use <devnet>' to set context"
   else String newline (String newline suggestion)).

Definition Resolve (explicitDevnet explicitNamespace : string) (ctx : option Context)
    : result (string * string) :=
  let namespace := match ctx with
                   | Some c => if bool_decide (explicitNamespace = "") then cx_Namespace c else explicitNamespace
                   | None => explicitNamespace
                   end in
  let devnet := match ctx with
                | Some c => if bool_decide (explicitDevnet = "") then cx_Devnet c else explicitDevnet
                | None => explicitDevnet
                end in
  let namespace := if bool_decide (namespace = "") then "default" else namespace in
  if bool_decide (devnet = "") then Err ErrNoDevnet else Ok (namespace, devnet).

(** ** Suggestions ([suggest.go]) *)

(** The name as it is suggested: with the namespace if it is not the default one. *)
Definition suggested_name (m : ProtoMetadata) : string :=
  if negb (bool_decide (pm_Namespace m = "")) && negb (bool_decide (pm_Namespace m = "default"))
  then pm_Namespace m +:+ "/" +:+ pm_Name m else pm_Name m.

Definition nl : string := String newline EmptyString.

(** The devnets with the metadata the daemon gives them; [None] is no client. *)
Definition SuggestUsage (listed : option (result (list (ProtoMetadata * option ProtoDevnetStatus)))) : string :=
  match listed with
  | None | Some (Err _) => ""
  | Some (Ok []) => "No devnets found. Create one first:" +:+ nl +:+ "  dvb init my-devnet"
  | Some (Ok [(m, _)]) =>
      "Found 1 devnet: " +:+ suggested_name m +:+ nl +:+ nl +:+ "Run: dvb use " +:+ suggested_name m
  | Some (Ok devnets) =>
      "Available devnets:" +:+ nl +:+
      String.concat "" ((λ '(m, status),
        "  " +:+ suggested_name m +:+
        match status with
        | Some st => if bool_decide (ps_Phase st = "") then "" else " (" +:+ to_lower (ps_Phase st) +:+ ")"
        | None => ""
        end +:+ nl) <$> devnets) +:+
      nl +:+ "Run: dvb use <devnet>"
  end.

(** ** Nodes ([picker.go]) *)

Record NodeSelection := mkNodeSelection { nsel_Name : string; nsel_Index : Z }.

Definition node_index (node : ProtoNode) : Z :=
  match pn_Metadata node with Some m => pnm_Index m | None => 0%Z end.

Definition NodeName (node : ProtoNode) : string :=
  let role := match pn_Spec node with
              | Some s => if bool_decide (pns_Role s = "") then "unknown" else to_lower (pns_Role s)
              | None => "unknown"
              end in
  role +:+ "-" +:+ itoa (node_index node).

(** The first node of the name. *)
Fixpoint find_node (nodeName : string) (nodes : list ProtoNode) : option ProtoNode :=
  match nodes with
  | [] => None
  | n :: rest => if bool_decide (NodeName n = nodeName) then Some n else find_node nodeName rest
  end.

(** [nodes] is what the daemon lists; [None] is no client. *)
Definition ResolveNodeName (nodes : option (result (list ProtoNode))) (devnet nodeName : string)
    : result NodeSelection :=
  match nodes with
  | None => Err (Errorf "client is nil")
  | Some (Err e) => Err (Wrap "failed to list nodes" e)
  | Some (Ok nodes) =>
      match find_node nodeName nodes with
      | Some n => Ok (mkNodeSelection nodeName (node_index n))
      | None => Err (Errorf ("node " +:+ quote nodeName +:+ " not found in devnet " +:+ quote devnet +:+
                             " (available: " +:+ String.concat ", " (NodeName <$> nodes) +:+ ")"))
      end
  end.

(** [picked] is the place the picker answers, which is one of the list. *)
Definition PickNode (nodes : option (result (list ProtoNode))) (devnet : string) (picked : result nat)
    : result NodeSelection :=
  match nodes with
  | None => Err (Errorf "client is nil")
  | Some (Err e) => Err (Wrap "failed to list nodes" e)
  | Some (Ok []) => Err (Errorf ("no nodes found in devnet " +:+ devnet))
  | Some (Ok [n]) => Ok (mkNodeSelection (NodeName n) (node_index n))
  | Some (Ok nodes) =>
      match picked with
      | Err e => Err e
      | Ok i => match nodes !! i with
                | Some n => Ok (mkNodeSelection (NodeName n) (node_index n))
                | None => Err (Errorf "")
                end
      end
  end.

Definition formatNodeDisplay (node : ProtoNode) : string :=
  let phase := match pn_Status node with
               | Some s => if bool_decide (pnt_Phase s = "") then "Unknown" else pnt_Phase s
               | None => "Unknown"
               end in
  NodeName node +:+ " (" +:+ phase +:+ ")".

(** ** What is saved is loaded *)

Fixpoint has_space (s : string) : bool :=
  match s with
  | EmptyString => false
  | String c rest => is_space c || has_space rest
  end.

Lemma has_space_app a b : has_space (a +:+ b) = has_space a || has_space b.
Proof. induction a as [|c a IH]; simpl; [done|]. by rewrite IH, orb_assoc. Qed.

Lemma trim_right_spaceless s t : has_space s = false → trim_right (s +:+ t) = s +:+ trim_right t.
Proof.
  induction s as [|c s IH]; simpl; intros Hs; [done|]. apply orb_false_iff in Hs as [Hc Hs].
  by rewrite IH, Hc by done.
Qed.

Lemma TrimSpace_line s : has_space s = false → TrimSpace (s +:+ nl) = s.
Proof.
  intros Hs. unfold TrimSpace. assert (trim_left (s +:+ nl) = s +:+ nl ∨ s = "") as [->| ->].
  - destruct s as [|c s]; [by right|left]. simpl in *. apply orb_false_iff in Hs as [-> _]. done.
  - rewrite trim_right_spaceless by done. apply append_nil_r.
  - done.
Qed.

Lemma TrimSpace_id s : has_space s = false → TrimSpace s = s.
Proof.
  intros Hs. unfold TrimSpace. assert (trim_left s = s) as ->.
  { destruct s as [|c s]; [done|]. simpl in *. by apply orb_false_iff in Hs as [-> _]. }
  rewrite <- (append_nil_r s) at 1. rewrite trim_right_spaceless by done. apply append_nil_r.
Qed.

(** A context that was saved is loaded as it was, when neither name has white space in it
    and the namespace has no slash; the devnet may have any. *)
Theorem saved_context_is_loaded home namespace devnet file :
  has_space namespace = false → has_space devnet = false → has_char slash namespace = false →
  let '(e, file') := save_context (Ok home) Saves namespace devnet file in
  e = None ∧ load_context (Ok home) None file' = Ok (Some (mkContext namespace devnet)).
Proof.
  intros Hn Hd Hs. cbn [save_context contextFilePath]. split; [done|].
  assert (Ha : has_space (namespace +:+ "/" +:+ devnet) = false) by by rewrite !has_space_app, Hn, Hd.
  assert (Heq : namespace +:+ "/" +:+ devnet +:+ nl = (namespace +:+ "/" +:+ devnet) +:+ nl)
    by by rewrite <- !(assoc_L String.append).
  unfold load_context. cbn [contextFilePath]. change (String newline EmptyString) with nl. rewrite Heq, TrimSpace_line by done.
  rewrite bool_decide_false by by destruct namespace.
  unfold ParseRef. rewrite TrimSpace_id by done. change ("/" +:+ devnet) with (String slash devnet). by rewrite split2_app by done.
Qed.

(** What is given explicitly wins over the context, the context over the default, and a
    devnet is always named in the answer. *)
Theorem Resolve_outcomes devnet namespace ctx :
  match Resolve devnet namespace ctx with
  | Ok (ns, d) => d ≠ "" ∧ ns ≠ "" ∧ (devnet ≠ "" → d = devnet) ∧ (namespace ≠ "" → ns = namespace) ∧
      (devnet = "" → ∃ c, ctx = Some c ∧ d = cx_Devnet c)
  | Err e => e = ErrNoDevnet ∧ devnet = "" ∧ ∀ c, ctx = Some c → cx_Devnet c = ""
  end.
Proof.
  unfold Resolve. destruct ctx as [c|]; repeat case_bool_decide; naive_solver.
Qed.

(** A node named by its own name is found: the answer is a node of that name. *)
Theorem ResolveNodeName_finds nodes devnet n : n ∈ nodes →
  ∃ n', n' ∈ nodes ∧ NodeName n' = NodeName n ∧
    ResolveNodeName (Some (Ok nodes)) devnet (NodeName n) = Ok (mkNodeSelection (NodeName n) (node_index n')).
Proof.
  intros Hin. unfold ResolveNodeName.
  assert (Hf : ∃ n', n' ∈ nodes ∧ NodeName n' = NodeName n ∧ find_node (NodeName n) nodes = Some n').
  { induction Hin as [n l|n m l Hin IH]; simpl.
    - exists n. rewrite bool_decide_true by done. split_and!; [left|done|done].
    - case_bool_decide as He; [exists m; split_and!; [left|done|done]|].
      destruct IH as (n' & ? & ? & ?). exists n'. split_and!; [by right|done|done]. }
  destruct Hf as (n' & Hin' & Hn & ->). by exists n'.
Qed.
