(* ===== verification/BuildConfig.v ===== *)
(** * Build configurations ([pkg/network/build_config.go])

    Tags, linker flags, environment and arguments of a build, with their validation,
    merging and the hash by which the cache looks binaries up.  The hash forgets the
    order of the lists, and texts with line ends can collide.  SHA-256 is an interface;
    a nil configuration is [None]. *)

From Stdlib Require Import Ascii.
From stdpp Require Import base tactics numbers list strings sorting gmap.
From S2P Require Import Prelude NodeConfig.

Record BuildConfig := mkBuildConfig {
  bc_Tags : list string;
  bc_LDFlags : list string;
  bc_Env : gmap string string;
  bc_ExtraArgs : list string
}.

#[export] Instance BuildConfig_eq_dec : EqDecision BuildConfig.
Proof. solve_decision. Defined.

Definition no_config : BuildConfig := mkBuildConfig [] [] ∅ [].

(** The hexadecimal form of the SHA-256 sum. *)
Class Sha256 := sha256_hex : string → string.

(** ** Validation *)

Fixpoint check_tags (seen : list string) (tags : list string) : option error :=
  match tags with
  | [] => None
  | tag :: rest =>
      let tag := TrimSpace tag in
      if bool_decide (tag = "") then Some (Errorf "empty build tag")
      else if bool_decide (tag ∈ seen) then Some (Errorf ("duplicate build tag: " +:+ tag))
      else check_tags (tag :: seen) rest
  end.

Definition validateTags (b : BuildConfig) : option error := check_tags [] (bc_Tags b).

Definition dangerousPatterns : list string := ["--exec"; "--run"; "--command"; "../"].

Fixpoint check_ldflags (flags : list string) : option error :=
  match flags with
  | [] => None
  | flag :: rest =>
      let flag := TrimSpace flag in
      if bool_decide (flag = "") then Some (Errorf "empty ldflag")
      else if negb (has_prefix "-" flag) then Some (Errorf ("ldflag must start with '-': " +:+ flag))
      else match list_find (λ pattern, contains (to_lower flag) pattern) dangerousPatterns with
           | Some (_, pattern) => Some (Errorf ("dangerous ldflag pattern detected: " +:+ flag +:+
                                                " (contains " +:+ pattern +:+ ")"))
           | None => check_ldflags rest
           end
  end.

Definition validateLDFlags (b : BuildConfig) : option error := check_ldflags (bc_LDFlags b).

Definition allowedEnvVars : list string :=
  ["CGO_ENABLED"; "GOOS"; "GOARCH"; "GOARM"; "GO111MODULE"; "GOPROXY"; "GOSUMDB"; "GOPRIVATE";
   "CC"; "CXX"; "AR"; "CFLAGS"; "GOFLAGS"].

Definition getAllowedEnvVarNames : list string := sort_strings allowedEnvVars.

(** [%v] of a slice of strings. *)
Definition show_list (l : list string) : string := "[" +:+ String.concat " " l +:+ "]".

(** [strings.ContainsAny] with the characters of a shell. *)
Definition suspicious (value : string) : bool :=
  existsb (λ c, has_char c value) ["$"; "`"; ";"; "|"; "&"; newline]%char.

Fixpoint check_env (entries : list (string * string)) : option error :=
  match entries with
  | [] => None
  | (key, value) :: rest =>
      let key := TrimSpace key in
      if bool_decide (key = "") then Some (Errorf "empty environment variable key")
      else if negb (bool_decide (key ∈ allowedEnvVars))
      then Some (Errorf ("environment variable not allowed: " +:+ key +:+ " (allowed: " +:+
                         show_list getAllowedEnvVarNames +:+ ")"))
      else if suspicious value
      then Some (Errorf ("environment variable contains suspicious characters: " +:+ key +:+ "=" +:+ value))
      else check_env rest
  end.

Section config.
Context `{MapRange}.

Definition validateEnv (b : BuildConfig) : option error := check_env (range (bc_Env b)).

Definition Validate (b : option BuildConfig) : option error :=
  match b with
  | None => None
  | Some b =>
      match validateTags b with
      | Some e => Some (Wrap "invalid tags" e)
      | None =>
          match validateLDFlags b with
          | Some e => Some (Wrap "invalid ldflags" e)
          | None => match validateEnv b with Some e => Some (Wrap "invalid env" e) | None => None end
          end
      end
  end.

(** ** Merging *)

(** [for k, v := range src { dst[k] = v }]. *)
Definition assign_all (dst src : gmap string string) : gmap string string :=
  foldl (λ m '(k, v), <[k := v]> m) dst (range src).

Definition Clone (b : option BuildConfig) : BuildConfig :=
  match b with
  | None => no_config
  | Some b => mkBuildConfig (bc_Tags b) (bc_LDFlags b) (assign_all ∅ (bc_Env b)) (bc_ExtraArgs b)
  end.

Definition Merge (b other : option BuildConfig) : BuildConfig :=
  match b, other with
  | None, None => no_config
  | None, Some _ => Clone other
  | Some _, None => Clone b
  | Some b, Some other =>
      mkBuildConfig (bc_Tags b ++ bc_Tags other) (bc_LDFlags b ++ bc_LDFlags other)
        (assign_all (assign_all ∅ (bc_Env b)) (bc_Env other)) (bc_ExtraArgs b ++ bc_ExtraArgs other)
  end.

Definition IsEmpty (b : option BuildConfig) : bool :=
  match b with
  | None => true
  | Some b => bool_decide (bc_Tags b = []) && bool_decide (bc_LDFlags b = []) &&
              bool_decide (bc_Env b = ∅) && bool_decide (bc_ExtraArgs b = [])
  end.

(** ** The hash *)

(** The keys in order, each with its value. *)
Definition env_entries (b : BuildConfig) : list (string * string) :=
  (λ k, (k, default "" (bc_Env b !! k))) <$> sort_strings (range (bc_Env b)).*1.

Definition hash_lines (b : BuildConfig) : list string :=
  (String.append "tag:" <$> sort_strings (bc_Tags b)) ++
  (String.append "ldflag:" <$> sort_strings (bc_LDFlags b)) ++
  ((λ '(k, v), "env:" +:+ k +:+ "=" +:+ v) <$> env_entries b) ++
  (String.append "arg:" <$> sort_strings (bc_ExtraArgs b)).

(** What is written into the hash. *)
Definition hash_text (b : BuildConfig) : string :=
  String.concat "" ((λ l, l +:+ String newline EmptyString) <$> hash_lines b).

Definition Hash `{Sha256} (b : option BuildConfig) : string :=
  match b with
  | None => "empty"
  | Some c => if IsEmpty b then "empty" else Strings.String.substring 0 16 (sha256_hex (hash_text c))
  end.

(** [%v] of a map. *)
Definition show_map (b : BuildConfig) : string :=
  "map[" +:+ String.concat " " ((λ '(k, v), k +:+ ":" +:+ v) <$> env_entries b) +:+ "]".

Definition BuildConfig_String (b : option BuildConfig) : string :=
  match b with
  | None => "BuildConfig{empty}"
  | Some c =>
      if IsEmpty b then "BuildConfig{empty}"
      else
        let part (present : bool) (text : string) := if present then [text] else [] in
        "BuildConfig{" +:+ String.concat ", " (
          part (negb (bool_decide (bc_Tags c = []))) ("tags=" +:+ show_list (bc_Tags c)) ++
          part (negb (bool_decide (bc_LDFlags c = []))) ("ldflags=" +:+ show_list (bc_LDFlags c)) ++
          part (negb (bool_decide (bc_Env c = ∅))) ("env=" +:+ show_map c) ++
          part (negb (bool_decide (bc_ExtraArgs c = []))) ("args=" +:+ show_list (bc_ExtraArgs c))) +:+ "}"
  end.

(** ** Merging, as a law *)

Lemma assign_all_union dst src : assign_all dst src = src ∪ dst.
Proof.
  unfold assign_all. assert (Hn : NoDup (range src).*1) by (rewrite range_perm; apply NoDup_fst_map_to_list).
  rewrite fold_insert by done. f_equal. rewrite <- (list_to_map_to_list src) at 2.
  by apply list_to_map_proper, range_perm.
Qed.

Lemma Clone_eq b : Clone (Some b) = b.
Proof. destruct b. unfold Clone. by rewrite assign_all_union, (right_id_L ∅ (∪)). Qed.

(** Merging is a monoid: a nil configuration is neutral, and it does not matter in which
    order three are put together.  A variable has the value of the last one that sets it. *)
Theorem Merge_monoid a b c :
  Merge None (Some a) = a ∧ Merge (Some a) None = a ∧
  Merge (Some (Merge (Some a) (Some b))) (Some c) = Merge (Some a) (Some (Merge (Some b) (Some c))) ∧
  ∀ k, bc_Env (Merge (Some a) (Some b)) !! k = match bc_Env b !! k with Some v => Some v | None => bc_Env a !! k end.
Proof.
  unfold Merge. rewrite !Clone_eq. cbn. rewrite !assign_all_union, !(right_id_L ∅ (∪)).
  split_and!; [done..| |].
  - by rewrite <- !(assoc_L app), (assoc_L (∪)).
  - intros k. rewrite lookup_union. destruct (bc_Env b !! k), (bc_Env a !! k); done.
Qed.
End config.

(** ** The hash, as a law *)

#[export] Instance string_le_antisym : AntiSymm (=) String.le := _.

Lemma sort_strings_perm l : sort_strings l ≡ₚ l.
Proof. apply merge_sort_Permutation. Qed.

(** Sorting forgets the order, and nothing else. *)
Lemma sort_strings_eq l l' : sort_strings l = sort_strings l' ↔ l ≡ₚ l'.
Proof.
  split; intros E.
  - by rewrite <- (sort_strings_perm l), E, sort_strings_perm.
  - apply (StronglySorted_unique String.le).
    1, 2: apply StronglySorted_merge_sort; apply _.
    by rewrite (sort_strings_perm l), (sort_strings_perm l').
Qed.

(** A text of lines falls apart into the lines. *)
Lemma split_on_lines l : Forall one_line l →
  split_on newline (String.concat "" ((λ x, x +:+ String newline EmptyString) <$> l)) = l ++ [""].
Proof.
  induction 1 as [|x l Hx Hl IH]; [done|]. rewrite fmap_cons.
  assert (Hc : String.concat "" ((x +:+ String newline EmptyString) ::
    ((λ x, x +:+ String newline EmptyString) <$> l)) =
    x +:+ String newline (String.concat "" ((λ x, x +:+ String newline EmptyString) <$> l))).
  { generalize ((λ x, x +:+ String newline EmptyString) <$> l). intros [|y l']; [done|].
    cbn [String.concat]. by rewrite <- (assoc_L String.append). }
  rewrite Hc, split_on_app by done. by rewrite IH.
Qed.

(** The lines of a kind. *)
Lemma filter_prefix {A} p (f : A → string) (c : bool) l :
  (∀ x, has_prefix p (f x) = c) →
  filter (λ s, has_prefix p s = true) (f <$> l) = if c then f <$> l else [].
Proof.
  intros Hf. induction l as [|x l IH]; [by destruct c|]. rewrite fmap_cons, filter_cons, IH, Hf.
  by destruct c.
Qed.

(** Configurations up to the order of their lists. *)
Definition same_config (a b : BuildConfig) : Prop :=
  bc_Tags a ≡ₚ bc_Tags b ∧ bc_LDFlags a ≡ₚ bc_LDFlags b ∧ bc_Env a = bc_Env b ∧ bc_ExtraArgs a ≡ₚ bc_ExtraArgs b.

(** No line ends in the texts, and no equality sign in the name of a variable.  This is
    what the theorem on the hash assumes, not a check of the source: [Validate] lets line
    ends through in tags, flags, arguments and around names ([Validate_plain]). *)
Definition plain_config (b : BuildConfig) : Prop :=
  Forall one_line (bc_Tags b) ∧ Forall one_line (bc_LDFlags b) ∧ Forall one_line (bc_ExtraArgs b) ∧
  map_Forall (λ k v, one_line k ∧ one_line v ∧ has_char "=" k = false) (bc_Env b).

Section hash.
Context `{MapRange}.

Lemma elem_of_env_entries b k v : (k, v) ∈ env_entries b ↔ bc_Env b !! k = Some v.
Proof.
  unfold env_entries. rewrite list_elem_of_fmap. setoid_rewrite sort_strings_perm. split.
  - intros (k' & [= <- ->] & ([k2 v2] & Hk & Hv)%list_elem_of_fmap). simpl in Hk. subst k2.
    apply elem_of_range in Hv. by rewrite Hv.
  - intros Hv. exists k. rewrite Hv. split; [done|]. apply list_elem_of_fmap. exists (k, v).
    split; [done|]. by apply elem_of_range.
Qed.

Lemma env_entries_inj a b : env_entries a = env_entries b → bc_Env a = bc_Env b.
Proof.
  intros E. apply map_eq. intros k. apply option_eq. intros v. by rewrite <- !elem_of_env_entries, E.
Qed.

Lemma env_entries_eq a b : bc_Env a = bc_Env b → env_entries a = env_entries b.
Proof. unfold env_entries. by intros ->. Qed.

Lemma hash_lines_kinds b :
  filter (λ s, has_prefix "tag:" s = true) (hash_lines b) = String.append "tag:" <$> sort_strings (bc_Tags b) ∧
  filter (λ s, has_prefix "ldflag:" s = true) (hash_lines b) =
    String.append "ldflag:" <$> sort_strings (bc_LDFlags b) ∧
  filter (λ s, has_prefix "env:" s = true) (hash_lines b) =
    (λ '(k, v), "env:" +:+ k +:+ "=" +:+ v) <$> env_entries b ∧
  filter (λ s, has_prefix "arg:" s = true) (hash_lines b) = String.append "arg:" <$> sort_strings (bc_ExtraArgs b).
Proof.
  unfold hash_lines. rewrite !filter_app.
  assert (Hyes : ∀ A p (f : A → string) l, (∀ x, has_prefix p (f x) = true) →
    filter (λ s, has_prefix p s = true) (f <$> l) = f <$> l) by (intros; by rewrite (filter_prefix _ _ true)).
  assert (Hno : ∀ A p (f : A → string) l, (∀ x, has_prefix p (f x) = false) →
    filter (λ s, has_prefix p s = true) (f <$> l) = []) by (intros; by rewrite (filter_prefix _ _ false)).
  split_and!; repeat first [rewrite Hyes by (intros x; by destruct x)|rewrite Hno by (intros x; by destruct x)];
    by rewrite ?app_nil_r.
Qed.

Lemma hash_lines_one_line b : plain_config b → Forall one_line (hash_lines b).
Proof.
  intros (Ht & Hl & Ha & He). unfold hash_lines. rewrite !Forall_app, !Forall_fmap.
  assert (Hs : ∀ l, Forall one_line l → Forall one_line (sort_strings l)) by (intros l; by rewrite sort_strings_perm).
  assert (Hp : ∀ p l, has_char newline p = false → Forall one_line l →
    Forall (one_line ∘ String.append p) (sort_strings l)).
  { intros p l Hp Hf%Hs. eapply Forall_impl; [done|]. intros x Hx. unfold one_line, compose.
    rewrite has_char_app, Hp. done. }
  split_and!; try by apply Hp.
  apply Forall_forall. intros [k v] Hkv%elem_of_env_entries. apply He in Hkv as (Hk & Hv & _).
  unfold one_line in *. simpl. by rewrite !has_char_app, Hk, Hv.
Qed.

Lemma entry_text_inj k v k' v' : has_char "=" k = false → has_char "=" k' = false →
  k +:+ "=" +:+ v = k' +:+ "=" +:+ v' → (k, v) = (k', v').
Proof.
  intros Hk Hk' E. change (k +:+ String "=" v = k' +:+ String "=" v') in E.
  apply (f_equal (split2 "="%char)) in E. rewrite !split2_app in E by done. by simplify_eq.
Qed.

Lemma entries_inj (l l' : list (string * string)) :
  (∀ k v, (k, v) ∈ l → has_char "=" k = false) → (∀ k v, (k, v) ∈ l' → has_char "=" k = false) →
  (λ '(k, v), "env:" +:+ k +:+ "=" +:+ v) <$> l = (λ '(k, v), "env:" +:+ k +:+ "=" +:+ v) <$> l' → l' = l.
Proof.
  revert l'. induction l as [|[k v] l IH]; intros [|[k' v'] l'] Hl Hl' E; try done.
  rewrite !fmap_cons in E. injection E as E1 E2. f_equal.
  - symmetry. apply entry_text_inj; [|by eapply Hl'; left|done]. eapply Hl. by left.
  - apply IH; [| |done]; intros ???; [eapply Hl|eapply Hl']; by right.
Qed.

(** Trimming takes white space away and nothing else. *)
Lemma has_char_trim c s : is_space c = false → has_char c (TrimSpace s) = has_char c s.
Proof.
  intros Hc. unfold TrimSpace.
  assert (Hne : ∀ d, is_space d = true → bool_decide (d = c) = false)
    by (intros d Hd; apply bool_decide_false; intros ->; congruence).
  assert (Hr : ∀ t, has_char c (trim_right t) = has_char c t).
  { induction t as [|d t IH]; [done|]. simpl. destruct (is_space d) eqn:Ed; simpl; [|by rewrite IH].
    case_bool_decide as Ht; simpl; [|by rewrite IH]. rewrite <- IH, Ht. simpl. by rewrite Hne. }
  rewrite Hr. induction s as [|d s IH]; [done|]. simpl. destruct (is_space d) eqn:Ed; [|done].
  by rewrite IH, Hne.
Qed.

Lemma check_env_plain l k v :
  check_env l = None → (k, v) ∈ l → one_line v ∧ has_char "=" k = false.
Proof.
  induction l as [|[k' v'] l IH]; [by intros _ ?%elem_of_nil|]. simpl.
  case_bool_decide; [done|]. case_bool_decide as Hin; [|done]. simpl.
  destruct (suspicious v') eqn:Hs; [done|]. intros Hl [[= -> ->]|Hkv]%elem_of_cons; [|by apply IH].
  split.
  - unfold suspicious in Hs. simpl in Hs. repeat (apply orb_false_iff in Hs as [? Hs]). done.
  - rewrite <- has_char_trim by done.
    assert (Hall : Forall (λ x, has_char "=" x = false) allowedEnvVars) by (repeat constructor).
    rewrite Forall_forall in Hall. by apply Hall.
Qed.

(** A valid configuration is plain if there are no line ends in its tags, flags,
    arguments and in the names of its variables. *)
Lemma Validate_plain b :
  Validate (Some b) = None →
  Forall one_line (bc_Tags b) → Forall one_line (bc_LDFlags b) → Forall one_line (bc_ExtraArgs b) →
  map_Forall (λ k _, one_line k) (bc_Env b) → plain_config b.
Proof.
  unfold Validate. destruct (validateTags b); [done|]. destruct (validateLDFlags b); [done|].
  destruct (validateEnv b) eqn:He; [done|]. intros _ Ht Hl Ha Hk. split_and!; [done..|].
  intros k v Hkv. destruct (check_env_plain _ k v He) as [Hv He']; [by apply elem_of_range|].
  split_and!; [by apply (Hk k v)|done..].
Qed.

(** C38: The text that is hashed keeps two configurations apart up to the order of their
    lists, if their texts are plain.  For configurations without line ends in tags,
    linker flags, arguments, names and values of variables, and without an equality sign
    in the name of a variable, the texts are equal exactly if the configurations have the
    same variables and, in some order, the same tags, flags and arguments.  Nothing more:
    configurations that differ only in the order of their linker flags have one text
    ([reordered_flags_collide]), and so may valid configurations with a line end in a tag
    ([newline_in_a_tag_collides]). *)
Theorem hash_text_identifies_build a b : plain_config a → plain_config b →
  hash_text a = hash_text b ↔ same_config a b.
Proof.
  intros Ha Hb. split.
  - intros E. apply (f_equal (split_on newline)) in E. unfold hash_text in E.
    rewrite !split_on_lines in E by by apply hash_lines_one_line. apply app_inj_tail in E as [E _].
    destruct (hash_lines_kinds a) as (Et & El & Ee & Er). rewrite E in Et, El, Ee, Er.
    destruct (hash_lines_kinds b) as (Ft & Fl & Fe & Fr). rewrite Ft in Et. rewrite Fl in El.
    rewrite Fe in Ee. rewrite Fr in Er. clear Ft Fl Fe Fr E.
    apply list_fmap_eq_inj in Et, El, Er; [|intros ??; apply append_inj..].
    unfold same_config. rewrite <- !sort_strings_eq. split_and!; try done.
    apply env_entries_inj. revert Ee. apply entries_inj; intros k v Hkv%elem_of_env_entries.
    + by apply Hb in Hkv as (_ & _ & ?).
    + by apply Ha in Hkv as (_ & _ & ?).
  - intros (Et & El & Ee & Er). unfold hash_text, hash_lines.
    by rewrite (env_entries_eq a b), (proj2 (sort_strings_eq _ _) Et), (proj2 (sort_strings_eq _ _) El),
      (proj2 (sort_strings_eq _ _) Er).
Qed.
End hash.

(** ** Samples *)

Definition ex_config : BuildConfig := mkBuildConfig ["netgo"; "ledger"] ["-w"] {["GOOS" := "linux"]} [].
Definition ex_reordered : BuildConfig := mkBuildConfig ["ledger"; "netgo"] ["-w"] {["GOOS" := "linux"]} [].

Lemma hash_text_identifies_build_witness :
  hash_text (H := some_order) ex_config = hash_text (H := some_order) ex_reordered ↔ same_config ex_config ex_reordered.
Proof.
  apply (hash_text_identifies_build (H := some_order) ex_config ex_reordered);
    (split_and!; [by repeat constructor..|]); apply map_Forall_singleton; vm_compute; done.
Defined.

(** A tag with a line end in it passes the validation and takes another build's place in the
    cache: the two differ and are hashed as the same text. *)
Example newline_in_a_tag_collides :
  let a := mkBuildConfig ["a" +:+ String newline "ldflag:-w"] [] ∅ [] in
  let b := mkBuildConfig ["a"] ["-w"] ∅ [] in
  Validate (H := some_order) (Some a) = None ∧ Validate (H := some_order) (Some b) = None ∧
  hash_text (H := some_order) a = hash_text (H := some_order) b ∧ a ≠ b.
Proof. vm_compute. split_and!; done. Qed.

(** The last of two flags for one variable counts in a build, but their order is not hashed:
    two valid configurations of different builds have one entry in the cache. *)
Example reordered_flags_collide :
  let a := mkBuildConfig [] ["-X main.version=1"; "-X main.version=2"] ∅ [] in
  let b := mkBuildConfig [] ["-X main.version=2"; "-X main.version=1"] ∅ [] in
  Validate (H := some_order) (Some a) = None ∧ Validate (H := some_order) (Some b) = None ∧
  hash_text (H := some_order) a = hash_text (H := some_order) b ∧ a ≠ b.
Proof. vm_compute. split_and!; done. Qed.

(** Two valid configurations with a tag in common merge to one that is not valid. *)
Example merged_tags_are_duplicates :
  let a := mkBuildConfig ["netgo"] [] ∅ [] in
  Validate (H := some_order) (Some a) = None ∧
  Validate (H := some_order) (Some (Merge (H := some_order) (Some a) (Some a))) =
    Some (Wrap "invalid tags" (Errorf "duplicate build tag: netgo")).
Proof. vm_compute. done. Qed.
