(* ===== verification/BinaryCache.v ===== *)
(** * The cache of built binaries
    ([internal/infrastructure/cache/{types,binary_cache,symlink,binary_cache_adapter}.go],
     [internal/application/binary/import_custom_binary.go])

    A directory per binary, by network, commit and build configuration, with its metadata
    in a file; the index of it in memory; and the link to the active binary.  The file
    system answers any function of the calls so far; encoding/json is a [Codec]. *)

From Stdlib Require Import Ascii.
From stdpp Require Import base tactics numbers list strings gmap.
From S2P Require Import Prelude Trace Paths BuildConfig.

(** ** Entries ([types.go]) *)

Record CachedBinary := mkCachedBinary {
  cb_CommitHash : string;
  cb_Ref : string;
  cb_BuildTime : Z;
  cb_Size : Z;
  cb_NetworkType : string;
  cb_BuildConfig : option BuildConfig;
  cb_BinaryPath : string;
  cb_DirKey : string
}.

Record Metadata := mkMetadata {
  md_CommitHash : string;
  md_Ref : string;
  md_BuildTime : Z;
  md_Size : Z;
  md_NetworkType : string;
  md_BuildConfig : option BuildConfig
}.

Record CacheStats := mkCacheStats { cs_TotalEntries : Z; cs_TotalSize : Z }.

Definition ToMetadata (c : CachedBinary) : Metadata :=
  mkMetadata (cb_CommitHash c) (cb_Ref c) (cb_BuildTime c) (cb_Size c) (cb_NetworkType c) (cb_BuildConfig c).

(** ** The file system *)

Record FileInfo := mkFileInfo {
  fi_Size : Z;
  fi_executable : bool;
  fi_symlink : bool
}.

Inductive FCall :=
| MkdirAll (path : string) (e : option error)
| ReadDir (path : string) (r : result (list (string * bool)))
| ReadFile (path : string) (r : result string)
| WriteFile (path data : string) (e : option error)
| Chmod (path : string) (e : option error)
| Stat (path : string) (r : result FileInfo)
| Lstat (path : string) (r : result FileInfo)
| Readlink (path : string) (r : result string)
| RemoveAll (path : string) (e : option error)
| Remove (path : string) (e : option error)
| Symlink (target path : string) (e : option error)
| Rename (from path : string) (e : option error)
| DetectVersion (path : string) (r : result (string * string)).

(** A directory lists its entries with whether each is a directory.  [os.IsNotExist] tells
    the errors apart that name nothing. *)
Class FileSystem := {
  mkdir_all : string → list FCall → option error;
  read_dir : string → list FCall → result (list (string * bool));
  read_file : string → list FCall → result string;
  write_file : string → string → list FCall → option error;
  chmod : string → list FCall → option error;
  stat : string → list FCall → result FileInfo;
  lstat : string → list FCall → result FileInfo;
  readlink : string → list FCall → result string;
  remove_all : string → list FCall → option error;
  remove : string → list FCall → option error;
  symlink : string → string → list FCall → option error;
  rename : string → string → list FCall → option error;
  (** The version and the commit a binary prints. *)
  detect_version : string → list FCall → result (string * string);
  is_not_exist : error → bool
}.

Definition MetadataFile : string := "metadata.json".
Definition BinaryCacheDir : string := "cache/binaries".
Definition DefaultBinaryName : string := "binary".
Definition BinaryCachePath (homeDir : string) : string := Join [homeDir; BinaryCacheDir].
Definition BinPath (homeDir : string) : string := Join [homeDir; "bin"].
Definition BinarySymlinkPath (homeDir binaryName : string) : string := Join [BinPath homeDir; binaryName].
Definition RelativeCacheTargetPath (cacheKey binaryName : string) : string :=
  Join [".."; BinaryCacheDir; cacheKey; binaryName].

(** [filepath.Dir]: what is before the last component, cleaned. *)
Definition Dir (path : string) : string :=
  match rev (split_on slash path) with
  | _ :: before => Clean (String.concat "/" (rev ("" :: before)))
  | [] => "."
  end.

Definition default_name (binaryName : string) : string :=
  if bool_decide (binaryName = "") then DefaultBinaryName else binaryName.

(** ** Keys.  [None] is a panic. *)

Section keys.
Context `{MapRange} `{Sha256}.

Definition HashBuildConfig (buildConfig : option BuildConfig) : option string :=
  match buildConfig with
  | None => None
  | Some _ =>
      let configHash := Hash buildConfig in
      Some (if bool_decide (configHash = "empty") then "00000000"
            else if bool_decide (8 ≤ Strings.String.length configHash)
            then Strings.String.substring 0 8 configHash else configHash)
  end.

Definition MakeCacheKey (networkType commitHash : string) (buildConfig : option BuildConfig) : option string :=
  if bool_decide (networkType = "") then None
  else if bool_decide (commitHash = "") then None
  else match HashBuildConfig buildConfig with
       | None => None
       | Some configHash => Some (networkType +:+ "/" +:+ commitHash +:+ "-" +:+ configHash)
       end.

Definition CacheKey (c : CachedBinary) : option string :=
  if bool_decide (cb_NetworkType c = "") then None
  else match cb_BuildConfig c with
       | None => None
       | Some _ => MakeCacheKey (cb_NetworkType c) (cb_CommitHash c) (cb_BuildConfig c)
       end.

Definition ActualDirKey (c : CachedBinary) : option string :=
  if bool_decide (cb_DirKey c = "") then CacheKey c else Some (cb_DirKey c).
End keys.

Definition hex_char (c : ascii) : bool :=
  let n := nat_of_ascii c in
  (bool_decide (48 ≤ n) && bool_decide (n ≤ 57)) || (bool_decide (97 ≤ n) && bool_decide (n ≤ 102)) ||
  (bool_decide (65 ≤ n) && bool_decide (n ≤ 70)).

Definition isHexString (s : string) : bool := forallb hex_char (String.list_ascii_of_string s).

(** 40 hexadecimal digits, a hyphen and 8 more. *)
Definition isValidBinaryDirName (s : string) : bool :=
  bool_decide (Strings.String.length s = 49) &&
  bool_decide (Strings.String.get 40 s = Some "-"%char) &&
  isHexString (Strings.String.substring 0 40 s) && isHexString (Strings.String.substring 41 8 s).

(** ** The cache ([binary_cache.go]) *)

Record BinaryCache := mkBinaryCache {
  bn_homeDir : string;
  bn_cacheDir : string;
  bn_binaryName : string;
  bn_entries : gmap string CachedBinary
}.

Definition NewBinaryCache (homeDir binaryName : string) : BinaryCache :=
  mkBinaryCache homeDir (BinaryCachePath homeDir) (default_name binaryName) ∅.

Definition with_entries (c : BinaryCache) (entries : gmap string CachedBinary) : BinaryCache :=
  mkBinaryCache (bn_homeDir c) (bn_cacheDir c) (bn_binaryName c) entries.

Definition GetEntryDir (c : BinaryCache) (cacheKey : string) : string := Join [bn_cacheDir c; cacheKey].

Definition GetBinaryPath (c : BinaryCache) (cacheKey : string) : string :=
  Join [bn_cacheDir c; cacheKey; bn_binaryName c].

Definition Lookup (c : BinaryCache) (cacheKey : string) : option CachedBinary := bn_entries c !! cacheKey.

Section cache.
Context `{MapRange} `{Sha256} `{FileSystem} `{Codec string Metadata}.

Definition os_MkdirAll path : Ext FCall unit := call_err (mkdir_all path) (MkdirAll path).
Definition os_ReadFile path : Ext FCall string := call (read_file path) (ReadFile path).
Definition os_WriteFile path data : Ext FCall unit := call_err (write_file path data) (WriteFile path data).
Definition os_Chmod path : Ext FCall unit := call_err (chmod path) (Chmod path).
Definition os_Stat path : Ext FCall FileInfo := call (stat path) (Stat path).
Definition os_RemoveAll path : Ext FCall unit := call_err (remove_all path) (RemoveAll path).
Definition os_Remove path : M (Trace FCall) (option error) := ask_env (remove path) (Remove path).
Definition os_Symlink target path : Ext FCall unit := call_err (symlink target path) (Symlink target path).
Definition os_Rename from path : Ext FCall unit := call_err (rename from path) (Rename from path).

(** Something that panics without an answer. *)
Definition or_panic {A} (o : option A) : Ext FCall A :=
  match o with Some a => ret a | None => panic end.

Definition ReadMetadata (path : string) : Ext FCall Metadata :=
  try! data := wrapping "failed to read metadata" (os_ReadFile path) in
  match decode data with
  | Err e => fail (Wrap "failed to parse metadata" e)
  | Ok metadata =>
      if bool_decide (md_CommitHash metadata = "") then fail (Errorf "metadata missing commit_hash")
      else ret metadata
  end.

Definition WriteMetadata (path : string) (metadata : Metadata) : Ext FCall unit :=
  match encode metadata with
  | Err e => fail (Wrap "failed to marshal metadata" e)
  | Ok data => wrapping "failed to write metadata" (os_WriteFile path data)
  end.

(** The entry of a directory, with its key. *)
Definition loadCacheEntry (c : BinaryCache) (cacheKeyPath : string) : Ext FCall (string * CachedBinary) :=
  try! metadata := wrapping "failed to read metadata"
         (ReadMetadata (Join [bn_cacheDir c; cacheKeyPath; MetadataFile])) in
  if bool_decide (md_CommitHash metadata = "") then fail (Errorf "metadata missing commit_hash")
  else if bool_decide (md_NetworkType metadata = "") then fail (Errorf "metadata missing network_type")
  else if bool_decide (md_BuildConfig metadata = None) then fail (Errorf "metadata missing build_config")
  else
    try! actualCacheKey := or_panic (MakeCacheKey (md_NetworkType metadata) (md_CommitHash metadata)
                                       (md_BuildConfig metadata)) in
    ret (actualCacheKey,
         mkCachedBinary (md_CommitHash metadata) (md_Ref metadata) (md_BuildTime metadata) (md_Size metadata)
           (md_NetworkType metadata) (md_BuildConfig metadata)
           (Join [bn_cacheDir c; cacheKeyPath; bn_binaryName c]) cacheKeyPath).

(** Entries that do not load are passed over. *)
Fixpoint load_binaries (c : BinaryCache) (networkType : string) (binaryDirs : list (string * bool))
    (entries : gmap string CachedBinary) : Ext FCall (gmap string CachedBinary) :=
  match binaryDirs with
  | [] => ret entries
  | (name, is_dir) :: rest =>
      if negb is_dir || negb (isValidBinaryDirName name) then load_binaries c networkType rest entries
      else
        do! loaded := loadCacheEntry c (Join [networkType; name]) in
        match loaded with
        | Returns (key, entry) => load_binaries c networkType rest (<[key := entry]> entries)
        | Fails _ => load_binaries c networkType rest entries
        | r => done_with (stop r)
        end
  end.

Fixpoint load_networks (c : BinaryCache) (networkDirs : list (string * bool))
    (entries : gmap string CachedBinary) : Ext FCall (gmap string CachedBinary) :=
  match networkDirs with
  | [] => ret entries
  | (networkType, is_dir) :: rest =>
      if negb is_dir then load_networks c rest entries
      else
        let networkPath := Join [bn_cacheDir c; networkType] in
        do! listed := ask_env (read_dir networkPath) (ReadDir networkPath) in
        match listed with
        | Err _ => load_networks c rest entries
        | Ok binaryDirs =>
            try! entries := load_binaries c networkType binaryDirs entries in
            load_networks c rest entries
        end
  end.

(** The entries that were in memory are forgotten even if the directory cannot be read. *)
Definition loadEntries (c : BinaryCache) : M (Trace FCall) (outcome unit * BinaryCache) :=
  do! listed := ask_env (read_dir (bn_cacheDir c)) (ReadDir (bn_cacheDir c)) in
  match listed with
  | Err e =>
      done_with (if is_not_exist e then Returns tt else Fails (Wrap "failed to read cache directory" e),
                 with_entries c ∅)
  | Ok networkDirs =>
      do! loaded := load_networks c networkDirs ∅ in
      done_with (match loaded with
                 | Returns entries => (Returns tt, with_entries c entries)
                 | r => (stop r, with_entries c ∅)
                 end)
  end.

Definition Initialize (c : BinaryCache) : M (Trace FCall) (outcome unit * BinaryCache) :=
  do! made := wrapping "failed to create cache directory" (os_MkdirAll (bn_cacheDir c)) in
  match made with
  | Returns _ => loadEntries c
  | r => done_with (r, c)
  end.

(** An entry whose binary is there and executable. *)
Definition IsCached (c : BinaryCache) (cacheKey : string) : M (Trace FCall) bool :=
  match bn_entries c !! cacheKey with
  | None => done_with false
  | Some entry =>
      do! info := os_Stat (cb_BinaryPath entry) in
      done_with (match info with Returns i => fi_executable i | _ => false end)
  end.

Definition copyFile (src dst : string) : Ext FCall unit :=
  try! data := os_ReadFile src in os_WriteFile dst data.

(** The files of an entry, and its record. *)
Definition store_files (c : BinaryCache) (sourcePath : string) (cached : CachedBinary)
    : Ext FCall (string * CachedBinary) :=
  if bool_decide (cb_CommitHash cached = "") then fail (Errorf "commit hash is required")
  else
    try! cacheKey := or_panic (CacheKey cached) in
    let entryDir := GetEntryDir c cacheKey in
    check! wrapping "failed to create cache entry directory" (os_MkdirAll entryDir) in
    let destPath := Join [entryDir; bn_binaryName c] in
    check! wrapping "failed to copy binary to cache" (copyFile sourcePath destPath) in
    check! wrapping "failed to set binary permissions" (os_Chmod destPath) in
    try! info := wrapping "failed to stat cached binary" (os_Stat destPath) in
    let cached := mkCachedBinary (cb_CommitHash cached) (cb_Ref cached) (cb_BuildTime cached) (fi_Size info)
                    (cb_NetworkType cached) (cb_BuildConfig cached) destPath cacheKey in
    check! wrapping "failed to write metadata" (WriteMetadata (Join [entryDir; MetadataFile]) (ToMetadata cached)) in
    ret (cacheKey, cached).

(** The record of the caller is the entry from then on; what a failure leaves in it, nothing
    reads. *)
Definition Store (c : BinaryCache) (sourcePath : string) (cached : CachedBinary)
    : M (Trace FCall) (outcome CachedBinary * BinaryCache) :=
  do! stored := store_files c sourcePath cached in
  done_with (match stored with
             | Returns (cacheKey, cached) => (Returns cached, with_entries c (<[cacheKey := cached]> (bn_entries c)))
             | r => (stop r, c)
             end).

Definition ValidateKey (c : BinaryCache) (cacheKey : string) : Ext FCall unit :=
  let binaryPath := GetBinaryPath c cacheKey in
  do! info := os_Stat binaryPath in
  match info with
  | Fails e => if is_not_exist e then fail (Errorf ("cached binary not found: " +:+ binaryPath))
               else fail (Wrap "failed to stat binary" e)
  | Returns i => if fi_executable i then ret tt
                 else fail (Errorf ("cached binary is not executable: " +:+ binaryPath))
  | r => done_with (stop r)
  end.

Definition RemoveKey (c : BinaryCache) (cacheKey : string) : M (Trace FCall) (outcome unit * BinaryCache) :=
  do! removed := wrapping "failed to remove cache entry" (os_RemoveAll (GetEntryDir c cacheKey)) in
  done_with (removed, match removed with
                      | Returns _ => with_entries c (delete cacheKey (bn_entries c))
                      | _ => c
                      end).

Definition Clean_cache (c : BinaryCache) : M (Trace FCall) (outcome unit * BinaryCache) :=
  do! removed := wrapping "failed to clean cache" (os_RemoveAll (bn_cacheDir c)) in
  match removed with
  | Returns _ => Initialize (with_entries c ∅)
  | r => done_with (r, c)
  end.

Definition List (c : BinaryCache) : list CachedBinary := (range (bn_entries c)).*2.

Definition Stats (c : BinaryCache) : CacheStats :=
  mkCacheStats (Z.of_nat (size (bn_entries c)))
    (foldl (λ total e, wrap64 (total + cb_Size e)) 0%Z (List c)).

(** The operations by network, commit and configuration.  [None] is a panic. *)
Section with_config.
Variables (c : BinaryCache) (networkType commitHash : string) (buildConfig : option BuildConfig).
Let cacheKey : option string := MakeCacheKey networkType commitHash buildConfig.

Definition GetBinaryPathWithConfig : option string := GetBinaryPath c <$> cacheKey.
Definition LookupWithConfig : option (option CachedBinary) := Lookup c <$> cacheKey.
Definition IsCachedWithConfig : option (M (Trace FCall) bool) := IsCached c <$> cacheKey.
Definition ValidateWithConfig : option (Ext FCall unit) := ValidateKey c <$> cacheKey.
Definition RemoveWithConfig : option (M (Trace FCall) (outcome unit * BinaryCache)) := RemoveKey c <$> cacheKey.
End with_config.

(** ** The link ([symlink.go]) *)

Record SymlinkManager := mkSymlinkManager { sm_binaryName : string; sm_symlinkPath : string }.

Definition NewSymlinkManager (homeDir binaryName : string) : SymlinkManager :=
  mkSymlinkManager (default_name binaryName) (BinarySymlinkPath homeDir (default_name binaryName)).

Definition Switch (m : SymlinkManager) (targetPath : string) : Ext FCall unit :=
  check! wrapping "failed to create bin directory" (os_MkdirAll (Dir (sm_symlinkPath m))) in
  let tempLink := sm_symlinkPath m +:+ ".tmp" in
  check! lift (os_Remove tempLink) in
  check! wrapping "failed to create temporary symlink" (os_Symlink targetPath tempLink) in
  do! renamed := os_Rename tempLink (sm_symlinkPath m) in
  match renamed with
  | Fails e => check! lift (os_Remove tempLink) in fail (Wrap "failed to atomic rename symlink" e)
  | r => done_with r
  end.

Definition SwitchToCache (m : SymlinkManager) (cacheKey : string) : Ext FCall unit :=
  Switch m (RelativeCacheTargetPath cacheKey (sm_binaryName m)).

Definition SwitchToCacheWithConfig (m : SymlinkManager) (networkType commitHash : string)
    (buildConfig : option BuildConfig) : option (Ext FCall unit) :=
  SwitchToCache m <$> MakeCacheKey networkType commitHash buildConfig.

(** ** The adapter ([binary_cache_adapter.go]) *)

Record BinaryCacheAdapter := mkBinaryCacheAdapter {
  ba_homeDir : string;
  ba_binaryName : string;
  ba_cache : BinaryCache;
  ba_symlink : SymlinkManager;
  ba_activeRef : string
}.

Definition with_cache (a : BinaryCacheAdapter) (c : BinaryCache) : BinaryCacheAdapter :=
  mkBinaryCacheAdapter (ba_homeDir a) (ba_binaryName a) c (ba_symlink a) (ba_activeRef a).

Definition NewBinaryCacheAdapter (homeDir binaryName : string) : Ext FCall BinaryCacheAdapter :=
  do! '(r, c) := Initialize (NewBinaryCache homeDir binaryName) in
  match r with
  | Returns _ => ret (mkBinaryCacheAdapter homeDir binaryName c (NewSymlinkManager homeDir binaryName) "")
  | Fails e => fail (Wrap "failed to initialize cache" e)
  | r => done_with (stop r)
  end.

(** The reference is taken for the commit, and nothing says which network or configuration
    the binary is for. *)
Definition adapter_Store (a : BinaryCacheAdapter) (ref binaryPath : string)
    : M (Trace FCall) (outcome string * BinaryCacheAdapter) :=
  do! '(r, c) := Store (ba_cache a) binaryPath (mkCachedBinary ref ref 0 0 "" None "" "") in
  done_with (match r with
             | Returns _ => Returns (GetBinaryPath c ref)
             | Fails e => Fails (Wrap "failed to store binary" e)
             | r => stop r
             end, with_cache a c).

Definition Get (a : BinaryCacheAdapter) (ref : string) : M (Trace FCall) (option string) :=
  do! cached := IsCached (ba_cache a) ref in
  done_with (if cached then Some (GetBinaryPath (ba_cache a) ref) else None).

Definition Has (a : BinaryCacheAdapter) (ref : string) : M (Trace FCall) bool := IsCached (ba_cache a) ref.

Definition adapter_List (a : BinaryCacheAdapter) : list string := cb_CommitHash <$> List (ba_cache a).

Definition adapter_Remove (a : BinaryCacheAdapter) (ref : string)
    : M (Trace FCall) (outcome unit * BinaryCacheAdapter) :=
  do! '(r, c) := RemoveKey (ba_cache a) ref in done_with (r, with_cache a c).

(** The directory of the first entry of a commit; the empty one if there is none. *)
Fixpoint find_commit (commitHash : string) (entries : list CachedBinary) : option string :=
  match entries with
  | [] => Some ""
  | e :: rest => if bool_decide (cb_CommitHash e = commitHash) then ActualDirKey e else find_commit commitHash rest
  end.

Definition findCacheKeyByCommit (c : BinaryCache) (commitHash : string) : option string :=
  find_commit commitHash (List c).

Definition CacheError (operation message : string) : error :=
  Errorf ("cache " +:+ operation +:+ " failed: " +:+ message).

(** The key of a reference as far as the memory knows; the empty one if it knows none. *)
Definition known_key (c : BinaryCache) (ref : string) : Ext FCall string :=
  do! cached := IsCached c ref in
  if cached : bool then ret ref else or_panic (findCacheKeyByCommit c ref).

(** The key, after reading the directory again if need be. *)
Definition active_key (c : BinaryCache) (ref : string) : M (Trace FCall) (outcome string * BinaryCache) :=
  do! known := known_key c ref in
  match known with
  | Returns key =>
      if negb (bool_decide (key = "")) then done_with (Returns key, c)
      else
        do! '(r, c) := Initialize c in
        match r with
        | Returns _ =>
            do! known := known_key c ref in
            done_with (match known with
                       | Returns key =>
                           if bool_decide (key = "")
                           then Fails (CacheError "set_active" ("ref " +:+ ref +:+ " not found in cache"))
                           else Returns key
                       | r => r
                       end, c)
        | Fails e => done_with (Fails (Wrap "failed to reload cache" e), c)
        | r => done_with (stop r, c)
        end
  | r => done_with (r, c)
  end.

Definition SetActive (a : BinaryCacheAdapter) (ref : string)
    : M (Trace FCall) (outcome unit * BinaryCacheAdapter) :=
  do! '(known, c) := active_key (ba_cache a) ref in
  let a := with_cache a c in
  match known with
  | Returns cacheKey =>
      do! switched := wrapping "failed to switch symlink" (SwitchToCache (ba_symlink a) cacheKey) in
      done_with (switched, match switched with
                           | Returns _ => mkBinaryCacheAdapter (ba_homeDir a) (ba_binaryName a) (ba_cache a)
                                            (ba_symlink a) cacheKey
                           | _ => a
                           end)
  | r => done_with (stop r, a)
  end.

Definition SymlinkPath (a : BinaryCacheAdapter) : string := Join [ba_homeDir a; "bin"; ba_binaryName a].

Definition NotActiveError (binaryName : string) : error := Errorf ("no active binary set for " +:+ binaryName).

(** [filepath.Base] of a cleaned path. *)
Definition Base (path : string) : string := if bool_decide (path = "/") then "/" else default "" (base path).

(** A relative target is one from the directory of the link. *)
Definition link_target (binPath target : string) : string :=
  if rooted target then target else Join [Dir binPath; target].

Definition GetActive (a : BinaryCacheAdapter) : Ext FCall string :=
  let binPath := SymlinkPath a in
  do! target := call (readlink binPath) (Readlink binPath) in
  match target with
  | Returns target => ret (link_target binPath target)
  | Fails e =>
      if is_not_exist e then fail (NotActiveError (ba_binaryName a))
      else
        do! info := os_Stat binPath in
        match info with
        | Returns _ => ret binPath
        | _ => fail (Wrap "failed to resolve binary" e)
        end
  | r => done_with (stop r)
  end.

Record SymlinkInfo := mkSymlinkInfo {
  si_Path : string;
  si_Target : string;
  si_CommitHash : string;
  si_Exists : bool;
  si_IsRegular : bool
}.

Definition GetSymlinkInfo (a : BinaryCacheAdapter) : Ext FCall SymlinkInfo :=
  let binPath := SymlinkPath a in
  do! info := call (lstat binPath) (Lstat binPath) in
  match info with
  | Fails e => if is_not_exist e then ret (mkSymlinkInfo binPath "" "" false false)
               else fail (Wrap "failed to stat symlink" e)
  | Returns i =>
      if fi_symlink i then
        try! target := wrapping "failed to read symlink" (call (readlink binPath) (Readlink binPath)) in
        let target := link_target binPath target in
        ret (mkSymlinkInfo binPath target (Base (Dir target)) true false)
      else ret (mkSymlinkInfo binPath "" "" true true)
  | r => done_with (stop r)
  end.

Record CachedBinaryInfo := mkCachedBinaryInfo {
  ci_Ref : string;
  ci_CommitHash : string;
  ci_Path : string;
  ci_Size : Z;
  ci_BuildTime : Z;
  ci_Network : string
}.

Definition ListDetailed (a : BinaryCacheAdapter) : list CachedBinaryInfo :=
  (λ e, mkCachedBinaryInfo (cb_Ref e) (cb_CommitHash e) (cb_BinaryPath e) (cb_Size e) (cb_BuildTime e)
          (cb_NetworkType e)) <$> List (ba_cache a).

(** ** Importing a binary ([import_custom_binary.go]) *)

Record CustomBinaryImportInput := mkCustomBinaryImportInput {
  im_BinaryPath : string;
  im_NetworkType : string;
  im_BuildConfig : option BuildConfig;
  im_Ref : string
}.

Record CustomBinaryImportResult := mkCustomBinaryImportResult {
  ir_CacheKey : string;
  ir_CachedBinaryPath : string;
  ir_SymlinkPath : string;
  ir_Version : string;
  ir_CommitHash : string;
  ir_Size : Z
}.

Definition validateInput (input : option CustomBinaryImportInput) : Ext FCall CustomBinaryImportInput :=
  match input with
  | None => fail (Errorf "input is nil")
  | Some i =>
      if bool_decide (im_BinaryPath i = "") then fail (Errorf "binary path is required")
      else if bool_decide (im_NetworkType i = "") then fail (Errorf "network type is required")
      else
        check! wrapping ("binary not found at path " +:+ im_BinaryPath i) (os_Stat (im_BinaryPath i)) in
        ret i
  end.

(** The key with the whole hash of the configuration. *)
Definition import_key (i : CustomBinaryImportInput) (commitHash : string) : string :=
  im_NetworkType i +:+ "/" +:+ commitHash +:+ "-" +:+ Hash (Some (default no_config (im_BuildConfig i))).

(** Over the adapter, which the factory gives the use case. *)
Definition ImportCustomBinary (a : BinaryCacheAdapter) (input : option CustomBinaryImportInput)
    : M (Trace FCall) (outcome CustomBinaryImportResult * BinaryCacheAdapter) :=
  do! prepared := (
    try! i := wrapping "invalid input" (validateInput input) in
    try! versionInfo := wrapping "failed to detect binary version"
      (call (detect_version (im_BinaryPath i)) (DetectVersion (im_BinaryPath i))) in
    ret (i, versionInfo)) in
  match prepared with
  | Returns (i, (version, commitHash)) =>
      let cacheKey := import_key i commitHash in
      do! '(stored, a) := adapter_Store a cacheKey (im_BinaryPath i) in
      match stored with
      | Returns cachedBinaryPath =>
          do! '(active, a) := SetActive a cacheKey in
          match active with
          | Returns _ =>
              do! info := os_Stat cachedBinaryPath in
              done_with (match info with
                         | Returns f => Returns (mkCustomBinaryImportResult cacheKey cachedBinaryPath (SymlinkPath a)
                                                   version commitHash (fi_Size f))
                         | Fails e => Fails (Wrap "failed to stat cached binary" e)
                         | r => stop r
                         end, a)
          | Fails e => done_with (Fails (Wrap "failed to set binary as active" e), a)
          | r => done_with (stop r, a)
          end
      | Fails e => done_with (Fails (Wrap "failed to store binary in cache" e), a)
      | r => done_with (stop r, a)
      end
  | r => done_with (stop r, a)
  end.

(** ** What the index holds *)

(** Every entry is under its own key, and knows its directory and the path of its binary. *)
Definition keyed (c : BinaryCache) : Prop :=
  map_Forall (λ k e, CacheKey e = Some k ∧ cb_DirKey e ≠ "" ∧
    cb_BinaryPath e = Join [bn_cacheDir c; cb_DirKey e; bn_binaryName c]) (bn_entries c).

(** What a cache is made from does not change. *)
Definition same_place (c c' : BinaryCache) : Prop :=
  bn_homeDir c' = bn_homeDir c ∧ bn_cacheDir c' = bn_cacheDir c ∧ bn_binaryName c' = bn_binaryName c.
End cache.
