(* ===== verification/BinaryCacheSpec.v ===== *)
(** * What the cache of binaries keeps

    Paths joined in steps, entries that survive a restart, the link that follows a
    reference, and the import of a binary, which always panics. *)

From Stdlib Require Import Ascii.
From stdpp Require Import base tactics numbers list strings gmap.
From S2P Require Import Prelude Trace Paths NodeConfig BuildConfig BinaryCache.

(** ** Joining in steps *)

(** A stack of components is cleaned: cleaning its path again changes nothing. *)
Definition clean (r : bool) (stack : list string) : Prop :=
  Forall (λ c, c ≠ "" ∧ c ≠ "." ∧ has_char slash c = false) stack ∧
  foldl (clean_step r) [] (rev stack) = stack.

Lemma clean_step_clean r stack c : clean r stack → has_char slash c = false → clean r (clean_step r stack c).
Proof.
  intros [Hf He] Hc. unfold clean_step.
  destruct (bool_decide (c = "") || bool_decide (c = ".")) eqn:Ec; [done|].
  apply orb_false_iff in Ec as [E1%bool_decide_eq_false E2%bool_decide_eq_false].
  assert (Hcons : clean_step r stack c = c :: stack → clean r (c :: stack)).
  { intros Hs. split; [by constructor|]. simpl. by rewrite foldl_app, He. }
  case_bool_decide as E3; [subst c|apply Hcons; unfold clean_step; by rewrite !bool_decide_false by done].
  destruct stack as [|top rest].
  - destruct r; [by split|]. split; [by repeat constructor|done].
  - case_bool_decide as Et; [subst top; apply Hcons; unfold clean_step; by simpl|].
    apply Forall_cons in Hf as [(H1 & H2 & _) Hf]. split; [done|].
    simpl in He. rewrite foldl_app in He. simpl in He. unfold clean_step in He at 1.
    rewrite !bool_decide_false in He by done. by injection He.
Qed.

Lemma clean_stack_clean p : clean (rooted p) (clean_stack p).
Proof.
  unfold clean_stack. assert (Hs : Forall (λ c, has_char slash c = false) (split_on slash p)).
  { apply Forall_forall. intros x Hx. by eapply split_on_elem. }
  generalize (split_on slash p) Hs. intros l. assert (H0 : clean (rooted p) []) by (split; [constructor|done]).
  revert H0. generalize ([] : list string). induction l as [|c l IH]; intros stack Hst Hl; [done|].
  apply Forall_cons in Hl as [Hc Hl]. simpl. apply IH; [by apply clean_step_clean|done].
Qed.

Lemma Clean_nonempty p : Clean p ≠ "".
Proof.
  unfold Clean. case_bool_decide; [done|]. cbv zeta. destruct (rooted p); [done|]. by case_bool_decide.
Qed.

(** Cleaning twice is cleaning once. *)
Lemma clean_stack_Clean p : p ≠ "" → rooted (Clean p) = rooted p ∧ clean_stack (Clean p) = clean_stack p.
Proof.
  intros Hp. destruct (clean_stack_clean p) as [Hf He]. set (l := clean_stack p) in *.
  assert (Hs : l ≠ [] → split_on slash (String.concat "/" (rev l)) = rev l).
  { intros Hl. apply split_on_concat; [intros E; by apply Hl; rewrite <- (rev_involutive l), E|].
    apply Forall_rev. eapply Forall_impl; [done|]. by intros x (_ & _ & ?). }
  unfold Clean. rewrite bool_decide_false by done. fold l. cbv zeta. destruct (rooted p) eqn:Hr.
  - split; [done|]. unfold clean_stack. change (rooted ("/" +:+ String.concat "/" (rev l))) with true.
    change (split_on slash ("/" +:+ String.concat "/" (rev l))) with ("" :: split_on slash (String.concat "/" (rev l))).
    destruct (decide (l = [])) as [->|Hl]; [done|]. rewrite Hs by done. by rewrite <- He at 2.
  - destruct (decide (l = [])) as [El|Hl].
    + rewrite El. done.
    + assert (Hne : String.concat "/" (rev l) ≠ "").
      { intros E. specialize (Hs Hl). rewrite E in Hs. simpl in Hs. by rewrite <- Hs in He. }
      rewrite (bool_decide_false _ Hne).
      assert (Hroot : rooted (String.concat "/" (rev l)) = false).
      { apply Forall_rev in Hf. destruct (rev l) as [|x rest] eqn:El; [done|].
        apply Forall_cons in Hf as [(H1 & _ & H2) _]. destruct x as [|a x]; [done|].
        simpl in H2. apply orb_false_iff in H2 as [H2 _]. apply bool_decide_eq_false in H2.
        unfold rooted. destruct rest; simpl; rewrite bool_decide_false; try done; congruence. }
      split; [done|]. unfold clean_stack. rewrite Hroot, Hs by done. done.
Qed.

Lemma Clean_cong p q :
  p ≠ "" → q ≠ "" → rooted p = rooted q → clean_stack p = clean_stack q → Clean p = Clean q.
Proof. intros Hp Hq Hr Hs. unfold Clean. by rewrite (bool_decide_false _ Hp), (bool_decide_false _ Hq), Hr, Hs. Qed.

Lemma Clean_sep p q : p ≠ "" → Clean (Clean p +:+ "/" +:+ q) = Clean (p +:+ "/" +:+ q).
Proof.
  intros Hp. destruct (clean_stack_Clean p Hp) as [Hr Hs]. pose proof (Clean_nonempty p) as Hc.
  apply Clean_cong.
  - by destruct (Clean p).
  - by destruct p.
  - by rewrite !rooted_app.
  - by rewrite !clean_stack_sep, Hr, Hs.
Qed.

(** Joining in two steps is joining in one. *)
Lemma Join_Join a b c : a ≠ "" → Join [Join [a; b]; c] = Join [a; b; c].
Proof.
  intros Ha. simpl. rewrite (bool_decide_false (a = "")) by done.
  rewrite bool_decide_false by apply Clean_nonempty.
  rewrite (append_assoc a). change (a +:+ "/" +:+ b +:+ "/" +:+ c) with (a +:+ "/" +:+ (b +:+ "/" +:+ c)).
  rewrite !append_assoc, <- (append_assoc _ "/" c). rewrite Clean_sep by by destruct a.
  by rewrite !append_assoc.
Qed.

Lemma Join_nonempty a b : b ≠ "" → Join [a; b] ≠ "".
Proof.
  intros Hb. simpl. rewrite (bool_decide_false _ Hb). case_bool_decide; apply Clean_nonempty.
Qed.

#[local] Arguments Join elem : simpl never.

(** ** The index *)

(** An operation that returns or fails: it neither panics nor hangs. *)
Definition settled {A} (r : outcome A) : Prop :=
  match r with Returns _ | Fails _ => True | _ => False end.

Section index.
Context `{MapRange} `{Sha256} `{FileSystem} `{Codec string Metadata}.

Lemma call_settled {C A} (f : list C → result A) log st : settled (call f log st).1.
Proof. unfold call, bindM, ask_env, done_with. by destruct (f _). Qed.

Lemma call_err_settled {C} (f : list C → option error) log st : settled (call_err f log st).1.
Proof. unfold call_err, bindM, ask_env, done_with. by destruct (f _). Qed.

Lemma wrapping_settled {W A} msg (m : M W (outcome A)) st : settled (m st).1 → settled (wrapping msg m st).1.
Proof. unfold wrapping, bindM, done_with. by destruct (m st) as [[]]. Qed.

Lemma bindE_settled {W A B} (m : M W (outcome A)) (k : A → M W (outcome B)) st :
  settled (m st).1 → (∀ a st', m st = (Returns a, st') → settled (k a st').1) → settled (bindE m k st).1.
Proof. rewrite bindE_eq. destruct (m st) as [[a| | |] st'] eqn:Em; simpl; intros Hm Hk; auto. Qed.

Lemma MakeCacheKey_Some net commit b : net ≠ "" → commit ≠ "" → b ≠ None → ∃ k, MakeCacheKey net commit b = Some k.
Proof.
  intros Hn Hc Hb. unfold MakeCacheKey, HashBuildConfig. rewrite !bool_decide_false by done.
  destruct b; [by eexists|done].
Qed.

Definition entry_at (c : BinaryCache) (k : string) (e : CachedBinary) : Prop :=
  CacheKey e = Some k ∧ cb_DirKey e ≠ "" ∧
  cb_BinaryPath e = Join [bn_cacheDir c; cb_DirKey e; bn_binaryName c].

Lemma ReadMetadata_settled path st : settled (ReadMetadata path st).1.
Proof.
  apply bindE_settled; [apply wrapping_settled, call_settled|]. intros data st' _.
  destruct (decode data); [|done]. by case_bool_decide.
Qed.

(** What is read from a directory: the metadata, with the place it was found at. *)
Lemma loadCacheEntry_entry c path st : path ≠ "" →
  match (loadCacheEntry c path st).1 with
  | Returns (k, e) => entry_at c k e
  | Fails _ => True
  | _ => False
  end.
Proof.
  intros Hp. unfold loadCacheEntry. rewrite bindE_eq.
  pose proof (wrapping_settled "failed to read metadata" _ st
    (ReadMetadata_settled (Join [bn_cacheDir c; path; MetadataFile]) st)) as Hs.
  destruct (wrapping _ _ st) as [[md|e| |] st'] eqn:Em; try done.
  case_bool_decide as Hc; [done|]. case_bool_decide as Hn; [done|]. case_bool_decide as Hb; [done|].
  destruct (MakeCacheKey_Some (md_NetworkType md) (md_CommitHash md) (md_BuildConfig md)) as [k Hk]; [done..|].
  rewrite Hk. cbn. split_and!; [|done|done]. unfold CacheKey. cbn. rewrite bool_decide_false by done.
  by destruct (md_BuildConfig md).
Qed.

Lemma load_binaries_keyed c net dirs entries st : map_Forall (entry_at c) entries →
  ∃ entries', (load_binaries c net dirs entries st).1 = Returns entries' ∧ map_Forall (entry_at c) entries'.
Proof.
  revert entries st. induction dirs as [|[name is_dir] dirs IH]; intros entries st He; [by exists entries|].
  cbn [load_binaries]. destruct (negb is_dir || negb (isValidBinaryDirName name)) eqn:Hv; [by apply IH|].
  assert (Hname : name ≠ "") by (intros ->; by rewrite orb_true_r in Hv).
  rewrite bindM_eq. pose proof (loadCacheEntry_entry c (Join [net; name]) st (Join_nonempty _ _ Hname)) as Hl.
  destruct (loadCacheEntry c (Join [net; name]) st) as [[[k e]| | |] st']; try done; apply IH; [|done].
  by apply map_Forall_insert_2.
Qed.

Lemma load_networks_keyed c dirs entries st : map_Forall (entry_at c) entries →
  ∃ entries', (load_networks c dirs entries st).1 = Returns entries' ∧ map_Forall (entry_at c) entries'.
Proof.
  revert entries st. induction dirs as [|[net is_dir] dirs IH]; intros entries st He; [by exists entries|].
  cbn [load_networks]. destruct is_dir; [|by apply IH]. cbn [negb]. unfold bindM, ask_env.
  destruct (read_dir _ _) as [binaries|]; [|by apply IH]. rewrite bindE_eq.
  match goal with |- context [load_binaries c net binaries entries ?st'] =>
    destruct (load_binaries_keyed c net binaries entries st' He) as (entries' & Hl & He');
    destruct (load_binaries c net binaries entries st') as [r st2] end.
  simpl in Hl. subst r. by apply IH.
Qed.

Lemma Initialize_keyed c st : keyed c →
  settled (Initialize c st).1.1 ∧ keyed (Initialize c st).1.2 ∧ same_place c (Initialize c st).1.2.
Proof.
  intros Hc. unfold Initialize. rewrite bindM_eq.
  pose proof (wrapping_settled "failed to create cache directory" _ st
    (call_err_settled (mkdir_all (bn_cacheDir c)) (MkdirAll (bn_cacheDir c)) st)) as Hs.
  unfold os_MkdirAll. destruct (wrapping _ _ st) as [[[]|e| |] st']; try done. cbn.
  unfold loadEntries, bindM, ask_env. cbn. destruct (read_dir _ _) as [dirs|e].
  - match goal with |- context [load_networks c dirs ∅ ?st'] =>
      destruct (load_networks_keyed c dirs ∅ st' (map_Forall_empty _)) as (entries' & Hl & He');
      destruct (load_networks c dirs ∅ st') as [r st2] end.
    simpl in Hl. subst r. by split_and!.
  - split_and!; [by destruct (is_not_exist e)|apply map_Forall_empty|done..].
Qed.
Lemma CacheKey_nonempty e k : CacheKey e = Some k → k ≠ "".
Proof.
  unfold CacheKey. case_bool_decide; [done|]. destruct (cb_BuildConfig e) as [b|]; [|done].
  unfold MakeCacheKey. repeat case_bool_decide; try done. cbn. intros [= <-].
  by destruct (cb_NetworkType e).
Qed.

(** The key does not depend on what storing fills in. *)
Lemma CacheKey_stored e size path dir :
  CacheKey (mkCachedBinary (cb_CommitHash e) (cb_Ref e) (cb_BuildTime e) size (cb_NetworkType e)
    (cb_BuildConfig e) path dir) = CacheKey e.
Proof. done. Qed.

(** What was stored, and the file of its metadata. *)
Lemma store_files_entry c src cached st k e st' : bn_cacheDir c ≠ "" →
  store_files c src cached st = (Returns (k, e), st') →
  entry_at c k e ∧ cb_DirKey e = k ∧ cb_CommitHash e ≠ "" ∧
  ∃ data, encode (ToMetadata e) = Ok data ∧
    WriteFile (Join [bn_cacheDir c; k; MetadataFile]) data None ∈ es_calls st'.
Proof.
  intros Hc Hr. unfold store_files in Hr. case_bool_decide as Hh; [done|].
  apply bindE_Returns in Hr as (k' & st1 & Hk & Hr). unfold or_panic in Hk.
  destruct (CacheKey cached) as [key|] eqn:Ek; [injection Hk as <- <-|done].
  cbv zeta in Hr. apply bindE_Returns in Hr as (? & st2 & _ & Hr).
  apply bindE_Returns in Hr as (? & st3 & _ & Hr). apply bindE_Returns in Hr as (? & st4 & _ & Hr).
  apply bindE_Returns in Hr as (info & st5 & _ & Hr). apply bindE_Returns in Hr as ([] & st6 & Hw & Hr).
  injection Hr as <- <- <-. apply (proj1 (wrapping_Returns _ _ _ _ _)) in Hw. unfold WriteMetadata in Hw.
  destruct (encode _) as [data|] eqn:Ee; [|done]. apply (proj1 (wrapping_Returns _ _ _ _ _)) in Hw.
  unfold os_WriteFile in Hw. apply call_err_Returns in Hw as [_ ->].
  pose proof (CacheKey_nonempty _ _ Ek) as Hne.
  unfold entry_at, GetEntryDir. rewrite CacheKey_stored. cbn [cb_DirKey cb_BinaryPath cb_CommitHash].
  split_and!; [done|done|by rewrite Join_Join|done|done|].
  exists data. split; [done|]. cbn [es_calls]. unfold GetEntryDir. rewrite Join_Join by done.
  apply elem_of_app. right. by left.
Qed.

(** What an entry is stored as is what it is loaded as: a cache that finds the metadata
    where they were written has the entry again, under the same key, at the same place. *)
Theorem stored_entry_is_loaded `{!CodecLaws string Metadata} c src cached st e c' st' :
  bn_cacheDir c ≠ "" → Store c src cached st = ((Returns e, c'), st') →
  ∃ k data, Lookup c' k = Some e ∧ same_place c c' ∧
    WriteFile (Join [bn_cacheDir c; k; MetadataFile]) data None ∈ es_calls st' ∧
    ∀ c2 st2, same_place c c2 →
      read_file (Join [bn_cacheDir c; k; MetadataFile]) (es_calls st2) = Ok data →
      (loadCacheEntry c2 k st2).1 = Returns (k, e).
Proof.
  intros Hc Hs. unfold Store in Hs. rewrite bindM_eq in Hs.
  destruct (store_files c src cached st) as [[[k e0]|er| |] st1] eqn:Ef; try done.
  injection Hs as <- <- <-. destruct (store_files_entry _ _ _ _ _ _ _ Hc Ef) as ((Hk & Hd & Hp) & Hdk & Hh & data & He & Hw).
  exists k, data. split_and!; [by unfold Lookup; cbn; rewrite lookup_insert_eq|done..|done|].
  intros c2 st2 (_ & Hdir & Hname) Hread. unfold loadCacheEntry. rewrite Hdir, Hname, bindE_eq.
  assert (Hm : (wrapping "failed to read metadata" (ReadMetadata (Join [bn_cacheDir c; k; MetadataFile])) st2).1 =
    Returns (ToMetadata e0)).
  { unfold wrapping, bindM. unfold ReadMetadata. rewrite bindE_eq. unfold wrapping, os_ReadFile, call, bindM, ask_env.
    rewrite Hread. cbn. rewrite (decode_encode _ _ He). cbn. by rewrite bool_decide_false by done. }
  destruct (wrapping _ _ st2) as [r st3]. simpl in Hm. subst r.
  unfold CacheKey in Hk. case_bool_decide as Hn; [done|]. destruct (cb_BuildConfig e0) as [b|] eqn:Eb; [|done].
  cbn. rewrite !bool_decide_false by (done || by rewrite Eb). rewrite Eb, Hk. cbn.
  destruct e0. cbn in *. by subst.
Qed.

(** Storing, removing and cleaning keep the index in order, and a new one is. *)
Lemma cache_operations_keyed c src cached key st : bn_cacheDir c ≠ "" → keyed c →
  keyed (Store c src cached st).1.2 ∧ keyed (RemoveKey c key st).1.2 ∧ keyed (Clean_cache c st).1.2.
Proof.
  intros Hd Hc. split_and!.
  - unfold Store. rewrite bindM_eq. destruct (store_files c src cached st) as [[[k e]| | |] st'] eqn:Es; try done.
    apply store_files_entry in Es as (He & _); [|done]. by apply map_Forall_insert_2.
  - unfold RemoveKey. rewrite bindM_eq. destruct (wrapping _ _ st) as [[| | |] st']; try done.
    by apply map_Forall_delete.
  - unfold Clean_cache. rewrite bindM_eq. destruct (wrapping _ _ st) as [[| | |] st']; try done.
    apply (Initialize_keyed (with_entries c ∅)). apply map_Forall_empty.
Qed.

Lemma NewBinaryCache_keyed home name : keyed (NewBinaryCache home name) ∧ bn_cacheDir (NewBinaryCache home name) ≠ "".
Proof. split; [apply map_Forall_empty|]. by apply Join_nonempty. Qed.

(** ** The active binary *)

(** What a reference stands for: a key, or the commit of an entry. *)
Definition names (c : BinaryCache) (ref key : string) : Prop :=
  (key = ref ∧ is_Some (bn_entries c !! ref)) ∨
  ∃ k e, bn_entries c !! k = Some e ∧ cb_CommitHash e = ref ∧ cb_DirKey e = key.

Lemma find_commit_spec commit l : Forall (λ e, cb_DirKey e ≠ "") l →
  (find_commit commit l = Some "" ∧ Forall (λ e, cb_CommitHash e ≠ commit) l) ∨
  ∃ e, e ∈ l ∧ cb_CommitHash e = commit ∧ find_commit commit l = Some (cb_DirKey e).
Proof.
  induction 1 as [|e l He Hl IH]; [by left|]. simpl. case_bool_decide as Hc.
  - right. exists e. split_and!; [by left|done|]. unfold ActualDirKey. by rewrite bool_decide_false.
  - destruct IH as [[-> Hf]|(e' & Hin & ? & ?)]; [left|right].
    + split; [done|]. by constructor.
    + exists e'. split_and!; [by right|done|done].
Qed.

Lemma known_key_names c ref st : keyed c →
  ∃ key, (known_key c ref st).1 = Returns key ∧ (key = "" ∨ names c ref key).
Proof.
  intros Hc. unfold known_key, IsCached. unfold keyed in Hc.
  assert (Hf : ∃ key, findCacheKeyByCommit c ref = Some key ∧ (key = "" ∨ names c ref key)).
  { unfold findCacheKeyByCommit. destruct (find_commit_spec ref (List c)) as [[-> _]|(e & Hin & Hr & ->)].
    - apply Forall_forall. intros e [k Hk]%elem_of_range_values. by apply Hc in Hk as (_ & ? & _).
    - exists "". auto.
    - exists (cb_DirKey e). split; [done|right; right]. apply elem_of_range_values in Hin as [k Hk].
      by exists k, e. }
  destruct Hf as (key & Hf & Hn). unfold bindM.
  destruct (bn_entries c !! ref) as [e|] eqn:El; cbn.
  - unfold os_Stat, call, bindM, ask_env, done_with. destruct (stat _ _) as [i|]; cbn.
    + destruct (fi_executable i); cbn; [|rewrite Hf; by exists key].
      exists ref. split; [done|right; left]. by rewrite El.
    + rewrite Hf. by exists key.
  - rewrite Hf. by exists key.
Qed.

Lemma active_key_names c ref st : keyed c →
  match (active_key c ref st).1 with
  | (r, c') => keyed c' ∧ same_place c c' ∧ settled r ∧ ∀ key, r = Returns key → key ≠ "" ∧ names c' ref key
  end.
Proof.
  intros Hc. unfold active_key. rewrite bindM_eq. destruct (known_key_names c ref st Hc) as (key & Hk & Hn).
  destruct (known_key c ref st) as [r st1]. simpl in Hk. subst r. cbn [fst snd].
  case_bool_decide as He; cbn [negb].
  - rewrite bindM_eq. destruct (Initialize_keyed c st1 Hc) as (Hs & Hk' & Hp).
    destruct (Initialize c st1) as [[r c'] st2]. cbn [fst snd] in *. destruct r as [[]|e| |]; try done.
    rewrite bindM_eq. destruct (known_key_names c' ref st2 Hk') as (key' & Hr & Hn').
    destruct (known_key c' ref st2) as [r st3]. simpl in Hr. subst r. cbn. split_and!; try done.
    + by case_bool_decide.
    + intros key0. case_bool_decide; [done|]. intros [= <-]. split; [done|]. by destruct Hn'.
  - cbn. split_and!; try done. intros ? [= <-]. split; [done|]. by destruct Hn.
Qed.

(** A switch that goes well ends with the link renamed into its place. *)
Lemma Switch_links m target st st' : Switch m target st = (Returns tt, st') →
  ∃ l, es_calls st' = l ++ [Rename (sm_symlinkPath m +:+ ".tmp") (sm_symlinkPath m) None] ∧
    Symlink target (sm_symlinkPath m +:+ ".tmp") None ∈ l.
Proof.
  intros Hr. unfold Switch in Hr. apply bindE_Returns in Hr as (? & st1 & _ & Hr). cbv zeta in Hr.
  apply bindE_Returns in Hr as (? & st2 & _ & Hr). apply bindE_Returns in Hr as (? & st3 & Hs & Hr).
  apply (proj1 (wrapping_Returns _ _ _ _ _)) in Hs. unfold os_Symlink in Hs. apply call_err_Returns in Hs as [_ ->].
  rewrite bindM_eq in Hr. unfold os_Rename in Hr.
  destruct (call_err _ _ _) as [[u|e| |] st4] eqn:Ec; cbn in Hr; try done.
  destruct u. apply call_err_Returns in Ec as [_ ->]. injection Hr as <-. eexists. split; [done|].
  apply elem_of_app. right. by left.
Qed.

Lemma Switch_settled m target st : settled (Switch m target st).1.
Proof.
  unfold Switch. apply bindE_settled; [apply wrapping_settled, call_err_settled|]. intros ? st1 _. cbv zeta.
  apply bindE_settled; [done|]. intros ? st2 _. apply bindE_settled; [apply wrapping_settled, call_err_settled|].
  intros ? st3 _. rewrite bindM_eq. pose proof (call_err_settled (rename (sm_symlinkPath m +:+ ".tmp") (sm_symlinkPath m))
    (Rename (sm_symlinkPath m +:+ ".tmp") (sm_symlinkPath m)) st3) as Hs.
  unfold os_Rename. destruct (call_err _ _ st3) as [[| | |] st4]; done.
Qed.

(** Activating a reference never panics, whatever the file system answers, and keeps the
    index: if it goes well, the link was made aside and renamed into its place, and leads to
    the directory of an entry whose key or whose commit the reference is. *)
Theorem SetActive_links a ref st : keyed (ba_cache a) →
  match SetActive a ref st with
  | ((r, a'), st') =>
      keyed (ba_cache a') ∧ settled r ∧
      (r = Returns tt → ∃ l, names (ba_cache a') ref (ba_activeRef a') ∧
         es_calls st' = l ++ [Rename (sm_symlinkPath (ba_symlink a) +:+ ".tmp") (sm_symlinkPath (ba_symlink a)) None] ∧
         Symlink (RelativeCacheTargetPath (ba_activeRef a') (sm_binaryName (ba_symlink a)))
           (sm_symlinkPath (ba_symlink a) +:+ ".tmp") None ∈ l)
  end.
Proof.
  intros Hc. unfold SetActive. rewrite bindM_eq. pose proof (active_key_names (ba_cache a) ref st Hc) as Hk.
  destruct (active_key (ba_cache a) ref st) as [[r c'] st1]. cbn [fst snd] in *.
  destruct Hk as (Hkeyed & _ & Hs & Hn). destruct r as [key|e| |]; try done. rewrite bindM_eq.
  destruct (Hn key eq_refl) as [_ Hkey]. unfold SwitchToCache. cbn [ba_symlink with_cache].
  pose proof (wrapping_settled "failed to switch symlink" _ st1 (Switch_settled (ba_symlink a)
    (RelativeCacheTargetPath key (sm_binaryName (ba_symlink a))) st1)) as Hw.
  destruct (wrapping _ _ st1) as [[[]|e| |] st2] eqn:Es; try done. cbn. split_and!; [done..|].
  intros _. apply (proj1 (wrapping_Returns _ _ _ _ _)) in Es. destruct (Switch_links _ _ _ _ Es) as (l & Hl & Hin).
  by exists l.
Qed.

(** C32: Importing a binary panics whenever it gets as far as storing it, before any file is
    written: the adapter stores an entry without a network and without a configuration,
    and such an entry has no key. *)
Theorem custom_import_panics a i st f version :
  im_BinaryPath i ≠ "" → im_NetworkType i ≠ "" →
  stat (im_BinaryPath i) (es_calls st) = Ok f →
  detect_version (im_BinaryPath i) (es_calls st ++ [Stat (im_BinaryPath i) (Ok f)]) = Ok version →
  ∃ st', ImportCustomBinary a (Some i) st = ((Panics, a), st') ∧
    es_calls st' = es_calls st ++ [Stat (im_BinaryPath i) (Ok f); DetectVersion (im_BinaryPath i) (Ok version)].
Proof.
  intros Hb Hn Hs Hv. destruct version as [version commit].
  eexists. split.
  - unfold ImportCustomBinary, validateInput. rewrite !bool_decide_false by done.
    unfold bindE, wrapping, os_Stat, call, bindM, ask_env. rewrite Hs. cbn. rewrite Hv. cbn.
    unfold adapter_Store, Store, store_files, bindM. cbn.
    rewrite bool_decide_false by (intros E; unfold import_key in E; by destruct (im_NetworkType i)).
    destruct a. reflexivity.
  - cbn. by rewrite <- (assoc_L app).
Qed.
End index.

(** ** Samples *)

(** A disk with the metadata of one binary, which is itself missing. *)
Definition ex_commit : string := "0123456789012345678901234567890123456789".
Definition ex_name : string := ex_commit +:+ "-00000000".
Definition ex_codec : Codec string Metadata := {|
  encode := λ _, Ok "metadata";
  decode := λ _, Ok (mkMetadata ex_commit "v1" 0 7 "mainnet" (Some no_config))
|}.
Definition ex_disk : FileSystem := {|
  mkdir_all := λ _ _, None;
  read_dir := λ path _, if bool_decide (path = "/h/cache/binaries") then Ok [("mainnet", true)] else Ok [(ex_name, true)];
  read_file := λ _ _, Ok "metadata";
  write_file := λ _ _ _, None;
  chmod := λ _ _, None;
  stat := λ path _, if bool_decide (path = "/tmp/built") then Ok (mkFileInfo 7 true false) else Err (Errorf "no such file");
  lstat := λ _ _, Err (Errorf "no such file");
  readlink := λ _ _, Err (Errorf "no such file");
  remove_all := λ _ _, None;
  remove := λ _ _, None;
  symlink := λ _ _ _, None;
  rename := λ _ _ _, None;
  detect_version := λ _ _, Ok ("v1", ex_commit);
  is_not_exist := λ _, true
|}.
Definition ex_sha : Sha256 := λ s, s.

Definition ex_adapter : BinaryCacheAdapter :=
  mkBinaryCacheAdapter "/h" "gaiad" (NewBinaryCache "/h" "gaiad") (NewSymlinkManager "/h" "gaiad") "".

(** A commit is activated although its binary is missing: the link leads nowhere. *)
Example missing_binary_is_activated :
  let '((r, a), st) := SetActive (H := some_order) (H0 := ex_sha) (H1 := ex_disk) (H2 := ex_codec)
                         ex_adapter ex_commit (mkEState [] 0) in
  r = Returns tt ∧
  last (es_calls st) = Some (Rename "/h/bin/gaiad.tmp" "/h/bin/gaiad" None) ∧
  Symlink ("../cache/binaries/mainnet/" +:+ ex_name +:+ "/gaiad") "/h/bin/gaiad.tmp" None ∈ es_calls st ∧
  stat (FileSystem := ex_disk) ("/h/cache/binaries/mainnet/" +:+ ex_name +:+ "/gaiad") (es_calls st) =
    Err (Errorf "no such file").
Proof.
  vm_compute. split_and!; try reflexivity.
  repeat first [apply list_elem_of_here | apply list_elem_of_further].
Qed.

(** A key that the import makes, with the configuration's whole hash, is none of the cache's. *)
Example import_key_is_no_cache_key :
  import_key (H := some_order) (H0 := ex_sha) (mkCustomBinaryImportInput "/tmp/built" "mainnet" None "") ex_commit =
    "mainnet/" +:+ ex_commit +:+ "-empty" ∧
  MakeCacheKey (H := some_order) (H0 := ex_sha) "mainnet" ex_commit (Some no_config) = Some ("mainnet/" +:+ ex_name).
Proof. vm_compute. done. Qed.

Lemma custom_import_panics_witness :
  ∃ st', ImportCustomBinary (H := some_order) (H0 := ex_sha) (H1 := ex_disk) (H2 := ex_codec) ex_adapter
    (Some (mkCustomBinaryImportInput "/tmp/built" "mainnet" None "")) (mkEState [] 0) = ((Panics, ex_adapter), st') ∧
    es_calls st' = [Stat "/tmp/built" (Ok (mkFileInfo 7 true false));
                    DetectVersion "/tmp/built" (Ok ("v1", ex_commit))].
Proof.
  apply (custom_import_panics (H := some_order) (H0 := ex_sha) (H1 := ex_disk) (H2 := ex_codec) ex_adapter
    (mkCustomBinaryImportInput "/tmp/built" "mainnet" None "") (mkEState [] 0)); done.
Defined.

Lemma SetActive_links_witness :
  ∃ r a st, SetActive (H := some_order) (H0 := ex_sha) (H1 := ex_disk) (H2 := ex_codec) ex_adapter ex_commit
    (mkEState [] 0) = ((r, a), st) ∧ keyed (H := some_order) (H0 := ex_sha) (ba_cache a) ∧ settled r.
Proof.
  pose proof (SetActive_links (H := some_order) (H0 := ex_sha) (H1 := ex_disk) (H2 := ex_codec) ex_adapter ex_commit
    (mkEState [] 0) (proj1 (NewBinaryCache_keyed "/h" "gaiad"))) as Hs.
  destruct (SetActive _ _ _) as [[r a] st]. exists r, a, st. destruct Hs as (Hk & Hr & _). by split_and!.
Defined.
