(* ===== verification/KeyCommands.v ===== *)
(** * API keys between the commands and the daemon
    ([cmd/devnetd/keys.go], the authentication part of [server.New])

    The commands [devnetd keys create, list, revoke] are processes of their own: each
    loads the keys file, works on its own store and saves the file.  The daemon loads
    the file once, when it starts, and authenticates from what it loaded.  Both are
    taken to use the same file, as they do with the default data directory. *)

From Stdlib Require Import Ascii.
From stdpp Require Import base tactics numbers list strings gmap.
From S2P Require Import Prelude Auth NodeConfig.

(** ** The commands *)

Definition parseNamespaces (s : string) : list string :=
  if bool_decide (s = "") then []
  else filter (λ p, p ≠ "") (TrimSpace <$> split_on ","%char s).

(** The command's own [maskKey]. *)
Definition mask_for_list (key : string) : string :=
  if bool_decide (Strings.String.length key ≤ 10) then "****" else take_str 10 key +:+ "****".

(** What can go wrong outside: reading the file, making its directory, writing it. *)
Record KeyFaults (F : Type) := mkKeyFaults {
  kx_read : option error;
  kx_mkdir : option error;
  kx_write : option error;
  kx_torn : option F
}.
Arguments mkKeyFaults {F}.
Arguments kx_read {F}.
Arguments kx_mkdir {F}.
Arguments kx_write {F}.
Arguments kx_torn {F}.

Section commands.
Context {F : Type} `{Codec F keysFile} `{MapRange}.
Implicit Types (x : KeyFaults F) (file : option F).

(** [NewFileKeyStore] on the file. *)
Definition NewFileKeyStore (file : option F) : FileKeyStore F := mkFileKeyStore ∅ file.

Definition keys_create x (random : result string) (t : Time) (name namespaces : string) file
    : result APIKey * option F :=
  if bool_decide (name = "") then (Err (Errorf "--name is required"), file)
  else if bool_decide (namespaces = "") then (Err (Errorf "--namespaces is required"), file)
  else
    let nsList := parseNamespaces namespaces in
    if bool_decide (length nsList = 0) then (Err (Errorf "at least one namespace is required"), file)
    else
      let '(err, store) := Load (kx_read x) (NewFileKeyStore file) in
      match err with
      | Some e => (Err (Wrap "failed to load keys" e), file)
      | None =>
          let '(r, store) := Create random t name nsList store in
          match r with
          | Err e => (Err (Wrap "failed to create key" e), file)
          | Ok apiKey =>
              let '(err, store) := Save (kx_mkdir x) (kx_write x) (kx_torn x) store in
              (match err with
               | Some e => Err (Wrap "failed to save keys" e)
               | None => Ok apiKey
               end, fk_file store)
          end
      end.

(** The name, the masked key, the namespaces and the time of each key. *)
Definition keys_list x file : result (list (string * string * list string * Time)) :=
  let '(err, store) := Load (kx_read x) (NewFileKeyStore file) in
  match err with
  | Some e => Err (Wrap "failed to load keys" e)
  | None => Ok ((λ k, (ak_Name k, mask_for_list (ak_Key k), ak_Namespaces k, ak_CreatedAt k)) <$> List_ store)
  end.

(** The name of the key that is gone. *)
Definition keys_revoke x (key : string) file : result string * option F :=
  if negb (IsValidKeyFormat key) then
    (Err (Errorf "invalid key format: expected devnet_<32-hex-chars>"), file)
  else
    let '(err, store) := Load (kx_read x) (NewFileKeyStore file) in
    match err with
    | Some e => (Err (Wrap "failed to load keys" e), file)
    | None =>
        match Get key store with
        | None => (Err (Errorf "key not found"), file)
        | Some apiKey =>
            let '(err, store) := Revoke key store in
            match err with
            | Some e => (Err (Wrap "failed to revoke key" e), file)
            | None =>
                let '(err, store) := Save (kx_mkdir x) (kx_write x) (kx_torn x) store in
                (match err with
                 | Some e => Err (Wrap "failed to save keys" e)
                 | None => Ok (ak_Name apiKey)
                 end, fk_file store)
            end
        end
    end.

(** ** The daemon ([server.New]): keys that cannot be loaded are none. *)
Definition start_server x file : option error * FileKeyStore F := Load (kx_read x) (NewFileKeyStore file).

(** ** Histories: the file, and the store of the daemon that runs *)

Record KeyWorld := mkKeyWorld {
  kw_file : option F;
  kw_daemon : option (FileKeyStore F)
}.

Inductive key_event :=
| RunCreate x (random : result string) (t : Time) (name namespaces : string)
| RunRevoke x (key : string)
| StartDaemon x.

(** What is seen of an event. *)
Inductive key_label :=
| Created (k : APIKey)
| Revoked (key : string)
| Started (loaded : bool)
| Failed (e : error).

Definition key_event_step (e : key_event) (w : KeyWorld) : key_label * KeyWorld :=
  match e with
  | RunCreate x random t name namespaces =>
      let '(r, file) := keys_create x random t name namespaces (kw_file w) in
      (match r with Ok k => Created k | Err e => Failed e end, mkKeyWorld file (kw_daemon w))
  | RunRevoke x key =>
      let '(r, file) := keys_revoke x key (kw_file w) in
      (match r with Ok _ => Revoked key | Err e => Failed e end, mkKeyWorld file (kw_daemon w))
  | StartDaemon x =>
      let '(err, store) := start_server x (kw_file w) in
      (Started (bool_decide (err = None)), mkKeyWorld (kw_file w) (Some store))
  end.

Fixpoint key_events (es : list key_event) (w : KeyWorld) : list key_label * KeyWorld :=
  match es with
  | [] => ([], w)
  | e :: es =>
      let '(l, w) := key_event_step e w in
      let '(ls, w) := key_events es w in (l :: ls, w)
  end.

(** The random bytes fill the key, and no write of the file fails: one that does leaves
    what was written of it. *)
Definition sound_event (e : key_event) : Prop :=
  match e with
  | RunCreate x random _ _ _ =>
      kx_write x = None ∧ ∀ bytes, random = Ok bytes → Strings.String.length bytes = KeyRandomBytes
  | RunRevoke x _ => kx_write x = None
  | StartDaemon _ => True
  end.
End commands.
Arguments KeyWorld : clear implicits.
Arguments key_event : clear implicits.

(** ** The ring of keys *)

(** The keys in the file, and those of the daemon that runs. *)
Abbreviation ring := (gmap string APIKey * option (gmap string APIKey))%type.

(** What an event does to them.  Only a start brings keys to a daemon. *)
Definition effect (r : ring) (l : key_label) : ring :=
  match l with
  | Created k => (<[ak_Key k := k]> r.1, r.2)
  | Revoked key => (delete key r.1, r.2)
  | Started true => (r.1, Some r.1)
  | Started false => (r.1, Some ∅)
  | Failed _ => r
  end.

(** A start that loads the keys, and none after it. *)
Definition restarted (ls : list key_label) : Prop :=
  ∃ l1 l2, ls = l1 ++ Started true :: l2 ∧ ∀ b, Started b ∉ l2.

(** What the events say of one key. *)
Definition concerns (key : string) (l : key_label) : Prop :=
  match l with Created k => ak_Key k = key | Revoked k => k = key | _ => False end.

Lemma effect_file_lookup key r ls :
  Forall (λ l, ¬ concerns key l) ls → (foldl effect r ls).1 !! key = r.1 !! key.
Proof.
  revert r. induction ls as [|l ls IH]; intros r Hl; [done|]. apply Forall_cons in Hl as [Hl Hls].
  simpl. rewrite IH by done. destruct l as [k|k|[]|e]; simpl in *; [| |done..].
  - by rewrite lookup_insert_ne.
  - by rewrite lookup_delete_ne.
Qed.

Lemma effect_daemon r ls : (∀ b, Started b ∉ ls) → (foldl effect r ls).2 = r.2.
Proof.
  revert r. induction ls as [|l ls IH]; intros r Hl; [done|]. simpl. rewrite IH by set_solver.
  destruct l as [k|k|b|e]; try done. destruct (Hl b). by left.
Qed.

(** After a restart the daemon has the file's entry of a key that did not change since. *)
Lemma effect_restarted key r ls :
  restarted ls → Forall (λ l, ¬ concerns key l) ls →
  ∃ m, (foldl effect r ls).2 = Some m ∧ m !! key = r.1 !! key.
Proof.
  intros (l1 & l2 & -> & Hl2) [Hl1 _]%Forall_app. rewrite foldl_app. simpl.
  rewrite effect_daemon by done. eexists. split; [done|]. by apply effect_file_lookup.
Qed.

Section ring.
Context {F : Type} `{CodecLaws F keysFile} `{MapRange}.
Implicit Types (x : KeyFaults F) (w : KeyWorld F).

(** The state behind a ring: the file loads to its keys, and the daemon holds its own. *)
Definition ring_of w (r : ring) : Prop :=
  Load None (NewFileKeyStore (kw_file w)) = (None, mkFileKeyStore r.1 (kw_file w)) ∧
  map_Forall (λ key k, key = ak_Key k) r.1 ∧
  fk_keys <$> kw_daemon w = r.2.

Lemma load_ring x (file : option F) m :
  Load None (NewFileKeyStore file) = (None, mkFileKeyStore m file) →
  Load (kx_read x) (NewFileKeyStore file) = (None, mkFileKeyStore m file) ∨
  ∃ e, Load (kx_read x) (NewFileKeyStore file) = (Some e, NewFileKeyStore file).
Proof.
  unfold Load. intros Hl. destruct (fk_file (NewFileKeyStore file)) eqn:E; [|by left].
  destruct (kx_read x); [right; by eexists|by left].
Qed.

(** The keys that a command saved. *)
Lemma Save_ring x ks err ks1 :
  keys_wf ks → kx_write x = None → Save (kx_mkdir x) (kx_write x) (kx_torn x) ks = (err, ks1) →
  match err with
  | Some _ => ks1 = ks
  | None => Load None (NewFileKeyStore (fk_file ks1)) = (None, mkFileKeyStore (fk_keys ks) (fk_file ks1))
  end.
Proof.
  intros Hk Hw HS. destruct err as [e|].
  - rewrite Hw in HS. by eapply Save_fails.
  - destruct (Save_Load _ _ _ _ _ Hk HS) as [Hks Hl]. unfold NewFileKeyStore. rewrite Hl, <- Hks.
    by destruct ks1.
Qed.

Lemma keys_create_ring x random t name nss (file : option F) m :
  kx_write x = None → Load None (NewFileKeyStore file) = (None, mkFileKeyStore m file) →
  map_Forall (λ key k, key = ak_Key k) m →
  let '(r, file') := keys_create x random t name nss file in
  match r with
  | Ok k => Load None (NewFileKeyStore file') = (None, mkFileKeyStore (<[ak_Key k := k]> m) file') ∧
      ak_Name k = name ∧ ak_Namespaces k = parseNamespaces nss ∧ ak_CreatedAt k = t ∧
      ∃ bytes, random = Ok bytes ∧ ak_Key k = KeyPrefix +:+ hex_encode bytes
  | Err _ => file' = file
  end.
Proof.
  intros Hw Hl Hm. unfold keys_create. repeat (case_bool_decide; [done|]).
  destruct (load_ring x file m Hl) as [->|[e ->]]; [|done].
  unfold Create, GenerateAPIKey. destruct random as [bytes|e]; [|done].
  set (k := mkAPIKey _ _ _ _). destruct (Save _ _ _ _) as [err ks1] eqn:HS.
  eapply Save_ring in HS; [|by apply map_Forall_insert_2|done].
  destruct err as [e|]; [by subst ks1|]. split_and!; [exact HS|done..|]. by exists bytes.
Qed.

Lemma keys_revoke_ring x key (file : option F) m :
  kx_write x = None → Load None (NewFileKeyStore file) = (None, mkFileKeyStore m file) →
  map_Forall (λ key k, key = ak_Key k) m →
  let '(r, file') := keys_revoke x key file in
  match r with
  | Ok name => Load None (NewFileKeyStore file') = (None, mkFileKeyStore (delete key m) file') ∧
      IsValidKeyFormat key = true ∧ ak_Name <$> m !! key = Some name
  | Err _ => file' = file
  end.
Proof.
  intros Hw Hl Hm. unfold keys_revoke. destruct (IsValidKeyFormat key); [|done]. simpl.
  destruct (load_ring x file m Hl) as [->|[e ->]]; [|done].
  unfold Get, Revoke. cbn [fk_keys]. destruct (m !! key) as [k|] eqn:Hk; [|done].
  destruct (Save _ _ _ _) as [err ks1] eqn:HS.
  eapply Save_ring in HS; [|by apply map_Forall_delete|done].
  destruct err as [e|]; [by subst ks1|]. by split_and!.
Qed.

(** What an event reports, and that its effect is the one on the ring. *)
Definition reports (e : key_event F) (r : ring) (l : key_label) : Prop :=
  match e, l with
  | RunCreate _ random t name nss, Created k =>
      IsValidKeyFormat (ak_Key k) = true ∧ ak_Name k = name ∧ ak_Namespaces k = parseNamespaces nss
  | RunRevoke _ key, Revoked key' => key' = key ∧ IsValidKeyFormat key = true ∧ is_Some (r.1 !! key)
  | StartDaemon _, Started _ => True
  | RunCreate _ _ _ _ _, Failed _ | RunRevoke _ _, Failed _ => True
  | _, _ => False
  end.

Lemma key_event_ring e w r :
  sound_event e → ring_of w r →
  let '(l, w') := key_event_step e w in reports e r l ∧ ring_of w' (effect r l).
Proof.
  intros He (Hl & Hm & Hd). destruct e as [x random t name nss|x key|x]; simpl in He |- *.
  - destruct He as [Hw Hr]. pose proof (keys_create_ring x random t name nss _ _ Hw Hl Hm) as Hc.
    destruct (keys_create _ _ _ _ _ _) as [[k|e] file]; [|by subst file].
    destruct Hc as (Hl' & Hn & Hs & _ & bytes & Hb & Hkey). split.
    + split_and!; [|done..]. rewrite Hkey. apply generated_valid. by apply Hr.
    + split_and!; [done|by apply map_Forall_insert_2|done].
  - pose proof (keys_revoke_ring x key _ _ He Hl Hm) as Hc.
    destruct (keys_revoke _ _ _) as [[n|e] file]; [|by subst file].
    destruct Hc as (Hl' & Hv & Hn). split.
    + split_and!; [done..|]. destruct (r.1 !! key); [by eexists|done].
    + split_and!; [done|by apply map_Forall_delete|done].
  - unfold start_server. destruct (load_ring x _ _ Hl) as [E|[e E]]; rewrite E; by split.
Qed.

Lemma key_events_ring es w r :
  Forall sound_event es → ring_of w r →
  let '(ls, w') := key_events es w in
  ring_of w' (foldl effect r ls) ∧
  ∀ k, Created k ∈ ls → IsValidKeyFormat (ak_Key k) = true ∧
    ∃ x random t name nss, RunCreate x random t name nss ∈ es ∧ ak_Name k = name ∧
      ak_Namespaces k = parseNamespaces nss.
Proof.
  intros Hs. revert w r. induction Hs as [|e es He Hs IH]; intros w r Hr; simpl.
  { split; [done|]. by intros k ?%elem_of_nil. }
  pose proof (key_event_ring e w r He Hr) as Hstep. destruct (key_event_step e w) as [l w1].
  destruct Hstep as [Hrep Hr1]. specialize (IH w1 _ Hr1). destruct (key_events es w1) as [ls w'].
  destruct IH as [Hr' Hk]. split; [done|]. intros k [<-|Hin]%elem_of_cons.
  - destruct e as [x random t name nss| |]; simpl in Hrep; [|done..]. destruct Hrep as (Hv & Hn & Hns).
    split; [done|]. exists x, random, t, name, nss. split; [by left|done].
  - destruct (Hk k Hin) as (Hv & x & random & t & name & nss & Hin' & Hn). split; [done|].
    exists x, random, t, name, nss. split; [by right|done].
Qed.
End ring.

Lemma ring_of_nothing {F} `{Codec F keysFile} : ring_of (mkKeyWorld (F := F) None None) (∅, None).
Proof. split_and!; [done|apply map_Forall_empty|done]. Qed.

(** C40: A daemon authenticates with the keys that were in the file when it started.
    For any history, from no file on, of [devnetd keys create] and [keys revoke] and of
    starts of the daemon on one file, in which no write of the file fails, whatever else
    does, and with a YAML library that reads back what it wrote:
    the keys in the file are those that were created and not revoked since; those of the
    running daemon are the ones of its start, which a command does not change; and it
    admits a remote caller exactly if the first authorization header shows one of them,
    with the name and the namespaces of the key.  So a created key is admitted with the
    name and the namespaces it was created with, by a daemon that started since and
    loaded the file, unless it is revoked; and a revoked one is refused by such a daemon,
    but not by one that runs on. *)
Theorem daemon_admits_the_keys_of_its_start {F} `{CodecLaws F keysFile} `{MapRange} (es : list (key_event F)) :
  Forall sound_event es →
  let '(ls, w) := key_events es (mkKeyWorld None None) in
  let r := foldl effect (∅, None) ls in
  Load None (NewFileKeyStore (kw_file w)) = (None, mkFileKeyStore r.1 (kw_file w)) ∧
  fk_keys <$> kw_daemon w = r.2 ∧
  ∀ daemon, kw_daemon w = Some daemon →
    let answer md := authenticateRequest md (λ key, Get key daemon) in
    (∀ md, match answer md with
           | RpcOk u => ∃ k, shows_key md (λ key, r.2 ≫= (.!! key)) k ∧ u = mkUserInfo (ak_Name k) (ak_Namespaces k)
           | RpcErr c _ => c = Unauthenticated ∧ ∀ k, ¬ shows_key md (λ key, r.2 ≫= (.!! key)) k
           end) ∧
    (∀ l1 k l2 rest, ls = l1 ++ Created k :: l2 → Forall (λ l, ¬ concerns (ak_Key k) l) l2 → restarted l2 →
       (∃ x random t nss, RunCreate x random t (ak_Name k) nss ∈ es ∧ ak_Namespaces k = parseNamespaces nss) ∧
       answer (Some (FormatBearerToken (ak_Key k) :: rest)) = RpcOk (mkUserInfo (ak_Name k) (ak_Namespaces k))) ∧
    (∀ l1 key l2 rest, ls = l1 ++ Revoked key :: l2 → Forall (λ l, ¬ concerns key l) l2 → restarted l2 →
       ∃ msg, answer (Some (FormatBearerToken key :: rest)) = RpcErr Unauthenticated msg) ∧
    ∀ l1 k l2 l3 rest, ls = l1 ++ Started true :: l2 ++ Revoked (ak_Key k) :: l3 → (∀ b, Started b ∉ l2 ++ l3) →
       (foldl effect (∅, None) l1).1 !! ak_Key k = Some k → IsValidKeyFormat (ak_Key k) = true →
       answer (Some (FormatBearerToken (ak_Key k) :: rest)) = RpcOk (mkUserInfo (ak_Name k) (ak_Namespaces k)).
Proof.
  intros Hs. pose proof (key_events_ring es _ _ Hs ring_of_nothing) as Hr.
  destruct (key_events es _) as [ls w]. destruct Hr as [(Hl & _ & Hd) Hk]. cbv zeta.
  split_and!; [done..|]. intros daemon Ew. rewrite Ew in Hd. simpl in Hd.
  assert (Hget : ∀ key, Get key daemon = (foldl effect (∅, None) ls).2 ≫= (.!! key)) by (intros key; by rewrite <- Hd).
  split_and!.
  - intros md. rewrite <- Hd. exact (authenticate_cases md (λ key, Get key daemon)).
  - intros l1 k l2 rest -> Hl2 Hst. destruct (Hk k) as (Hv & x & random & t & name & nss & Hin & <- & Hns);
      [set_solver|]. split; [by exists x, random, t, nss|].
    rewrite authenticate_bearer, Hget, foldl_app by done. cbn [foldl].
    destruct (effect_restarted (ak_Key k) (effect (foldl effect (∅, None) l1) (Created k)) l2 Hst Hl2) as (m & -> & Hm).
    simpl in *. by rewrite Hm, lookup_insert_eq.
  - intros l1 key l2 rest -> Hl2 Hst.
    destruct (effect_restarted key (effect (foldl effect (∅, None) l1) (Revoked key)) l2 Hst Hl2) as (m & Em & Hm).
    simpl in Hm. rewrite lookup_delete_eq in Hm. destruct (authenticateRequest _ _) as [u|c msg] eqn:Ea;
      pose proof (authenticate_cases (Some (FormatBearerToken key :: rest)) (λ key, Get key daemon)) as Hc;
      rewrite Ea in Hc; [|destruct Hc as [-> _]; by exists msg].
    destruct Hc as (k & (key' & rest' & [= E _] & _ & Hk') & _). apply append_inj in E as <-.
    rewrite Hget, foldl_app in Hk'. cbn [foldl] in Hk'. rewrite Em in Hk'. simpl in Hk'. congruence.
  - intros l1 k l2 l3 rest -> Hst Hfile Hv. rewrite authenticate_bearer, Hget, foldl_app by done.
    simpl. rewrite foldl_app. simpl. rewrite effect_daemon by set_solver. simpl.
    rewrite effect_daemon by set_solver. simpl. by rewrite Hfile.
Qed.

(** ** Samples *)

Section witnesses.
#[local] Existing Instance some_order.
#[local] Existing Instance plain_keys.
#[local] Existing Instance plain_keys_laws.

Definition no_key_faults : KeyFaults keysFile := mkKeyFaults None None None None.
Definition ex_key : string := KeyPrefix +:+ hex_encode ex_bytes.

(** A key that is created while the daemon runs, a restart, and its revocation. *)
Definition ex_history : list (key_event keysFile) :=
  [StartDaemon no_key_faults;
   RunCreate no_key_faults (Ok ex_bytes) 5%Z "alice" "team-a, team-b";
   StartDaemon no_key_faults;
   RunRevoke no_key_faults ex_key].

Lemma ex_history_sound n : Forall sound_event (take n ex_history).
Proof.
  apply Forall_take. repeat constructor; [done..|]. by intros bytes [= <-].
Qed.

Definition admitted (n : nat) : option (rpc UserInfo) :=
  (λ daemon, authenticateRequest (Some [FormatBearerToken ex_key]) (λ key, Get key daemon)) <$>
    kw_daemon (key_events (take n ex_history) (mkKeyWorld None None)).2.

(** The running daemon refuses the new key and admits the revoked one. *)
Example running_daemon_is_behind :
  admitted 2 = Some (RpcErr Unauthenticated "authentication failed") ∧
  admitted 4 = Some (RpcOk (mkUserInfo "alice" ["team-a"; "team-b"])).
Proof. vm_compute. by split. Qed.

Lemma daemon_admits_the_keys_of_its_start_witness :
  admitted 3 = Some (RpcOk (mkUserInfo "alice" ["team-a"; "team-b"])).
Proof.
  pose proof (daemon_admits_the_keys_of_its_start (take 3 ex_history) (ex_history_sound 3)) as Hw.
  unfold admitted. destruct (key_events (take 3 ex_history) (mkKeyWorld None None)) as [ls w] eqn:E.
  vm_compute in E. injection E as <- <-. destruct Hw as (_ & _ & Hw).
  destruct (Hw _ eq_refl) as (_ & Hc & _ & _). cbn [snd kw_daemon fmap option_fmap option_map]. apply (f_equal Some).
  refine (proj2 (Hc [Started true] (mkAPIKey ex_key "alice" ["team-a"; "team-b"] 5%Z) [Started true] [] _ _ _)).
  - vm_compute. reflexivity.
  - repeat constructor. by intros [].
  - exists [], []. split; [reflexivity|]. by intros b ?%elem_of_nil.
Defined.
End witnesses.
